(* ===== verification/_CoqProject ===== *)
-Q . S2P
Prelude.v
GoStrings.v
Utf8.v
Encoding.v
Seen.v
Clip.v
History.v
ImageStore.v
Hostnames.v
Nonce.v
Auth.v
Stream.v
Daemon.v
NetIP.v
Paths.v
Config.v
Listener.v
Json.v
Session.v
SSHConfig.v
Fleet.v
Server.v
Words.v
KnownHosts.v
AuthorizedKeys.v
SSHCommand.v
Pairing.v
RawJson.v
JsonText.v
Client.v
Gateway.v
ConfigDoc.v
Redact.v
PeerRequests.v
PeerConfig.v
PeerLife.v
Applicator.v
ApplyFiles.v
Files.v
SafeFile.v
FileUpdate.v
TrustFiles.v
ConfigFile.v
SyncKey.v
KeyReset.v
RemoveHost.v
ListenerRepair.v
FleetReset.v
ConfigHandlers.v
