(* ===== verification/Prelude.v ===== *)
(** * A verification library for clipfan

    clipfan keeps the clipboards of a fleet of hosts in step.  On each host a
    daemon polls the local clipboard, records clips in a history, keeps images in
    a store, and exchanges clips with its peers over SSH streams whose frames are
    authenticated and whose bodies are sealed with a shared key; a small HTTP
    server answers signed requests.  The program is the Go code under
    src/internal; this library models its core as Rocq functions and step
    relations and proves what makes it correct.

    ** How the parts correspond to the code

    - [Prelude] (this file): Go results as [result], instants as nanoseconds since
      Go's zero time, automation ([go_cases], [bool_prop], the hint database
      [clipfan]), list lemmas, a stable sort.
    - [GoStrings], [Utf8], [Encoding], [NetIP], [Json]: the parts of Go's standard
      library the code decides on: strings, strconv, filepath.Base, UTF-8 and what
      encoding/json keeps of a string, hex and base64, net.SplitHostPort,
      net.ParseIP, IsLoopback, JSON texts and the decoding of structs; [Paths]:
      path.Clean and path.Join, bounded character classes, RFC 3339 instants.
    - [Seen]: daemon/seen.go, the window of clip IDs already handled ([add],
      [has]), with the abstract window [Window.push_all].
    - [Clip]: clipboard/clipboard.go ([Content], [New]), the choice of a backend in
      clipboard/selection.go, transport/current.go; the class [Crypto] of the
      primitives (SHA-256, HMAC, AES-GCM) with their documented laws
      [CryptoLaws], and a concrete instance [toy_crypto] for evaluation.
    - [History]: store/history.go: [AppendHistory], [SetPinned], [DeleteEntry],
      [ClearUnpinned], [Recap], [LoadHistory], [EntryByID].
    - [ImageStore]: store/store.go, imagepath.go, state.go: [SaveImage], the
      collector [gc], [IsImageStorePath], [SaveState].
    - [Hostnames]: transport/hostnames.go, config/hostid.go, discovery/.
    - [Nonce]: transport/nonce.go and the handshake cache of
      transport/ssh_stream.go, with the abstract log [NonceLog].
    - [Auth]: transport/auth.go, crypto.go, envelope.go: key derivation, canonical
      texts, signatures, sealed bodies, envelopes.
    - [Stream]: transport/ssh_stream.go: hellos, frames, sequence numbers, line
      reading; a frame on the wire is the list of its JSON fields.
    - [Daemon]: daemon/daemon.go: [onReceive], [pollOnce], [Restore],
      [currentHandler], [isEcho].  The handlers run concurrently, so each is cut
      into its phases (what it does under one hold of the lock, or one effect
      outside it); [run_phase] performs one, [sys_step] lets any thread move or a
      new handler start, and [reachable] closes over it.  The functions compose
      the same phases, and [handlers_are_runs] relates the two.
    - [Config]: the types of config/config.go and config/ssh.go and the defaults;
      [Listener]: config/listener.go, which address the daemon binds.
    - [Session]: daemon/ssh_session.go: the manager ([Manager]), whose sessions
      are objects in a heap so that [session_current] is the code's pointer
      comparison; [Start], [Refresh], [Publish], acknowledgements, one
      connection attempt as a machine ([attempt_start], [attempt_step]) and a
      connection with everything beside it ([conn_do]); [Channel], the selects of
      the one-place channel as steps of two processes.
    - [SSHConfig]: config/ssh.go: paths, users, hosts, proofs, the validation of a
      whole configuration, the expansion of home paths.
    - [Fleet]: the peer snapshot of daemon/daemon.go, daemon/fleet_snapshot.go and
      fleet_aggregate.go: what a host tells of its mesh, its decoding at a peer,
      the gathered view.
    - [Server]: transport/server.go: the gate, every handler, the routes, safe mode.
      The daemon behind its callbacks is a parameter [W].
    - [JsonText]: what [Json.print] writes is what [Json.parse] reads, for values of
      valid UTF-8 that nest no deeper than encoding/json allows; [Client]:
      transport/client.go over a network that is a function on a state of its own,
      and [local_server], the network with the server of [Server] on its other end.
    - [Gateway]: cli/ssh_gateway.go and fleet_snapshot.go: the command a peer may
      run, who is admitted, and the bridge between the stream and the local daemon
      as a step ([gateway_step]) for each event its loop selects, with the reading
      goroutine in front of it.
    - [Words]: strings.Fields, strings.ToLower and the quoting of a POSIX shell;
      [SSHCommand]: sshprovision/ssh_command.go, every command ssh is run with;
      [Pairing]: pair_plan.go, pair_executor.go, ssh_server_mode.go, the plans of a
      pair and of a mesh and their execution over a driver whose answers are
      arbitrary.
    - [KnownHosts], [AuthorizedKeys]: the texts of sshprovision/known_hosts.go and
      authorized_keys.go: reading, pins, patterns, editing, verifying.
    - [RawJson]: a document as the map of its raw members; [ConfigDoc]:
      config/v2.go and config/ssh_local_material.go on texts: parsing, revisions,
      scoped updates, what is written; [Redact], [PeerRequests], [PeerConfig],
      [PeerLife]: config/ssh_peer_config.go: redaction and scrubbing, the decoding
      of requests, each operation on a peer, and what follows for whole histories
      of them and for the sessions dialled.
    - [Applicator]: sshprovision/config_applicator.go, a pass over the configuration
      files of a pair's hosts, against the class [ConfigOps] of the operations it is
      given and the laws [ConfigOpsLaws] it relies on; [ApplyFiles]: the operations of
      config/ it is given by default, on files that are texts, as an instance.
    - [ConfigHandlers]: daemon/ssh_config.go and listener_repair.go: the endpoints
      that write the configuration, the reload that follows a write ([config_state]:
      the file, the configuration in use, the discoverer, the status of the peers,
      the session manager of [Session]) and the table of errors.
    - [Files]: a file system of names, inodes and open files, with programs of
      system calls ([prog], [io]) and their runs: [exec] under any faults, any
      stop of the machine and any interference by others, [wp] for reasoning and
      [ran] for what a run did.  [SafeFile]: the checked reading and the atomic
      writing that config/v2.go, known_hosts.go and authorized_keys.go repeat;
      [FileUpdate]: a locked update of a file in general; [TrustFiles] and
      [ConfigFile]: its instances for the two trust files and for the
      configuration, with loading and saving (config/config.go).
    - [SyncKey], [KeyReset]: config/sync_key.go: creating, loading and resetting
      the key; [RemoveHost], [ListenerRepair], [FleetReset]: the one-shot edits of
      config/remove_host.go, listener_repair.go and fleet_reset.go.

    ** What the theorems show

    - Delivery: [Session.delivery_guarantee], [pending_dropped_only_when_answered],
      [Publish_spec], [Refresh_spec]; and where it has a hole, [channel_race].
    - Secrecy and duplicates: [Daemon.no_concealed_leak], [received_once],
      [no_echo]; the functional behaviour on every branch: [onReceive_spec],
      [Restore_spec].
    - The gateway: [Gateway.gateway_books] (every state read is acknowledged as what
      became of it, every state written is new and numbered), [gateway_admits],
      [gateway_gives_up]; with the daemon on the other end, [current_reaches_peer]
      and [state_reaches_daemon]; where a failed write loses the stream,
      [failed_write_desyncs].  The client: [Client.client_trusts_signed],
      [current_served], [clip_applied].
    - The stream: [Stream.stream_sequencing], [state_exchange], [hello_exchange],
      [hello_accept_sound], [readFrameLine_spec].
    - The HTTP gate: [Server.effects_gated] (every effect comes from a request the
      endpoint's policy admits, and every signed reply verifies),
      [replay_refused], [client_request_admitted], [safe_mode_confines],
      [loopback_v4], and the instant left open, [replay_at_boundary];
      [Listener.listener_boundary].
    - Configuration: [SSHConfig.validated_sessions] (what the daemon dials from a
      configuration that validates); [ConfigDoc.no_lost_update],
      [written_config_reads_back]; peers: [PeerConfig.migration_log_sound],
      [transition_spec], [PeerLife.peer_update_reads_back],
      [stopped_peer_not_dialled], [Redact.redaction_sound]; the daemon around
      them: [ConfigHandlers.mutation_in_step] (all or nothing, and what runs is what
      the file says), [stopped_peer_gone], [refusals_answered], and the refusal that
      is answered as a failure, [unproven_direction_fails].
    - A pair's configuration: [ApplyFiles.apply_ready], [apply_moves] (what a pass
      may leave whatever fails), [phases_compose].
    - Files: [SafeFile.atomic_replace] (old or new, whatever fails and whenever the
      machine stops), [read_only_fit] (whatever other processes do);
      [ConfigFile.config_file_update], [load_file] and
      [TrustFiles.known_pin_update]: the files refine the updates of their texts.
    - The sync key: [KeyReset.key_never_lost], [SyncKey.sidecar_identity],
      [scratch_names_exact]; and the reset after a stop that does lose the key,
      [stopped_reset_loses].
    - One-shot edits: [RemoveHost.remove_host], [remove_host_unknown],
      [ListenerRepair.listener_repaired], [FleetReset.fleet_reset_result].
    - Provisioning: [SSHCommand.provisioning_commands_exact],
      [Pairing.provision_order], [KnownHosts.glob_equivalence].
    - The fleet: [Fleet.Snapshot_covers], [BuildFleetSnapshot_redacted]
      (noninterference: no secret flows into the snapshot), [gatherFleetView_spec];
      [snapshot_order_matters] shows what the order of a map decides.
    - Authentication: [Auth.request_signature_binds] (up to a collision, which the
      statement exhibits), [envelope_roundtrip], [OpenEnvelope_sound],
      [auth_versions_spec]; replays: [Nonce.nonceCache_refines_log],
      [hello_replay_refused], [hello_cache_bounded].
    - Storage: [History.history_invariant], [AppendHistory_spec],
      [append_then_lookup], [DeleteEntry_spec], [ImageStore.gc_spec],
      [SaveImage_spec], [SaveState_spec], and the image the collector can take too
      early, [gc_can_take_new_image]; [Seen.seenSet_refines_window].

    ** Conventions

    - What the code reads from outside (the clock, random bytes, the outcome of a
      write, the order in which Go ranges over a map) is an argument; a theorem
      quantifies over it, with [order ≡ₚ map_to_list m] for a map's order.
    - Fields kept for statements only, that the code does not have, say so where
      they are declared ([d_out], [sys_added], [cn_refused]).
    - Fuel: [hkdf_expand] runs at most 255 turns, the bound of HKDF itself, and a
      32-byte key takes one ([DeriveKey_spec]); [strip_left] and [json_text] take
      the length of the text, a byte a turn; [ipv6_groups] takes the eight turns
      of the loop in net/netip; [Json.parse] takes twice the length of the text;
      the eviction loops of the handshake cache take the cache's size, one entry a
      turn.  The theorems are about the results, never about running out of fuel.
    - Integers that can wrap are reduced ([sendState] modulo 2^64), ports and
      sizes are bounded where the code bounds them.

    ** Not modelled, and why

    Platform clipboards, tmux, the running of ssh, ssh-keygen and tailscale,
    sockets and deadlines: calls of external programs and of the operating system;
    what they answer is an argument.  A file lock is taken and given back by calls
    of [Files], and the theorems about updates are about a holder that nobody
    disturbs; [read_only_fit] and [fleet_reset_result] let others do anything
    between the calls.  The time syntax of JSON is an argument of [Server].
    The handlers of [ConfigHandlers] give their answer as a record: its JSON is not in
    the model, nor are they put behind the callbacks of [Server], whose theorems hold
    of any.  A network of daemons is not modelled as one system: [Gateway] has one host
    with its daemon and the reader at the peer.  The other tools of cli/ (healing a
    mesh, provisioning from the command line), localdaemon/, storagecheck/ and the
    driver sshprovision/regular_ssh_driver.go run commands on other hosts and probes of
    this one, one after the other; the texts of those commands are [SSHCommand]'s, the
    order of a provisioning is [Pairing]'s, and what is left is I/O. *)
From stdpp Require Export base tactics list list_numbers gmap strings sorting.
From Stdlib Require Export ZArith Lia.

(** ** Results: a Go [(T, error)] pair whose error is non-nil or whose value is meant *)

Inductive result (E A : Type) : Type :=
| Ok (a : A)
| Err (e : E).
Arguments Ok {E A} a.
Arguments Err {E A} e.

Global Instance result_ret E : MRet (result E) := fun A a => Ok a.

Global Instance result_bind E : MBind (result E) :=
  fun A B f r => match r with Ok a => f a | Err e => Err e end.

(** [if err := c; err != nil { return e }]: continue only when the check passed. *)
Definition ensure {E} (b : bool) (e : E) : result E unit :=
  if b then Ok tt else Err e.

(** An error of another package given this one's: [fmt.Errorf("code: %w", err)]. *)
Definition recode {E E' A} (r : result E A) (e : E') : result E' A :=
  match r with Ok a => Ok a | Err _ => Err e end.

Definition is_ok {E A} (r : result E A) : bool :=
  match r with Ok _ => true | Err _ => false end.

Global Instance result_eq_dec E A `{EqDecision E, EqDecision A} : EqDecision (result E A).
Proof. solve_decision. Defined.

(** ** Time: an instant is a number of nanoseconds since Go's zero [time.Time] *)

Definition time := Z.

Definition zero_time : time := 0%Z.

Definition second : Z := 1000000000%Z.

Definition minute : Z := (60 * second)%Z.

Definition IsZero (t : time) : bool := bool_decide (t = 0%Z).

Definition Before (a b : time) : bool := (a <? b)%Z.

Definition After (a b : time) : bool := (b <? a)%Z.

(** Seconds between year 1 (the zero [time.Time]) and the Unix epoch. *)
Definition unix_to_internal : Z := 62135596800%Z.

Definition time_Unix (secs : Z) : time := ((secs + unix_to_internal) * second)%Z.

Definition unix_of (t : time) : Z := (t / second - unix_to_internal)%Z.

(** ** Automation *)

Create HintDb clipfan.

(** Split one [match]/[if] of the goal or of a hypothesis, keeping the equation. *)
Ltac case_on :=
  match goal with
  | |- context [ match ?x with _ => _ end ] => destruct x eqn:?
  | H : context [ match ?x with _ => _ end ] |- _ => destruct x eqn:?
  end.

Ltac go_cases := repeat (case_on; simplify_eq/=).

(** Turn boolean tests of the code into the propositions they decide. *)
Ltac bool_prop :=
  repeat match goal with
  | H : bool_decide _ = true |- _ => apply bool_decide_eq_true_1 in H
  | H : bool_decide _ = false |- _ => apply bool_decide_eq_false_1 in H
  | H : (_ && _)%bool = true |- _ => apply andb_true_iff in H as [? ?]
  | H : (_ || _)%bool = false |- _ => apply orb_false_iff in H as [? ?]
  | H : negb _ = true |- _ => apply negb_true_iff in H
  | H : negb _ = false |- _ => apply negb_false_iff in H
  | H : (_ <? _)%Z = true |- _ => apply Z.ltb_lt in H
  | H : (_ <? _)%Z = false |- _ => apply Z.ltb_ge in H
  | H : (_ <=? _)%Z = true |- _ => apply Z.leb_le in H
  | H : (_ <=? _)%Z = false |- _ => apply Z.leb_gt in H
  | H : (_ =? _)%Z = true |- _ => apply Z.eqb_eq in H
  | H : (_ =? _)%Z = false |- _ => apply Z.eqb_neq in H
  | H : (_ <? _)%nat = true |- _ => apply Nat.ltb_lt in H
  | H : (_ <? _)%nat = false |- _ => apply Nat.ltb_ge in H
  | H : (_ <=? _)%nat = true |- _ => apply Nat.leb_le in H
  | H : (_ <=? _)%nat = false |- _ => apply Nat.leb_gt in H
  end.

(** Split the goal's remaining conjunctions and close the easy ones. *)
Ltac split_all := repeat split; try done.

(** ** Results: inversion lemmas shared by every error-returning operation *)

Lemma bind_Ok {E A B} (r : result E A) (f : A → result E B) b :
  (r ≫= f) = Ok b ↔ ∃ a, r = Ok a ∧ f a = Ok b.
Proof. destruct r; naive_solver. Qed.

Lemma bind_Err {E A B} (r : result E A) (f : A → result E B) e :
  (r ≫= f) = Err e ↔ r = Err e ∨ ∃ a, r = Ok a ∧ f a = Err e.
Proof. destruct r; naive_solver. Qed.

Lemma ensure_Ok {E} b (e : E) u : ensure b e = Ok u ↔ b = true.
Proof. destruct b, u; naive_solver. Qed.

Lemma ensure_Err {E} b (e e' : E) : ensure b e = Err e' ↔ b = false ∧ e = e'.
Proof. destruct b; naive_solver. Qed.

Lemma recode_Ok {E E' A} (r : result E A) (e : E') a : recode r e = Ok a ↔ r = Ok a.
Proof. destruct r; naive_solver. Qed.

(** ** Lists *)

Lemma filter_length_le {A} (P : A → Prop) `{∀ x, Decision (P x)} (l : list A) :
  length (filter P l) ≤ length l.
Proof. induction l; simpl; [done|]. rewrite filter_cons. case_decide; simpl; lia. Qed.

Lemma sublist_filter_l {A} (P : A → Prop) `{∀ x, Decision (P x)} (l : list A) :
  filter P l `sublist_of` l.
Proof.
  induction l as [|x l IH]; [done|]. rewrite filter_cons.
  case_decide; by constructor.
Qed.

Lemma sublist_fmap {A B} (f : A → B) (l k : list A) :
  l `sublist_of` k → f <$> l `sublist_of` f <$> k.
Proof. induction 1; by constructor. Qed.

Lemma Forall_sublist {A} (P : A → Prop) (l k : list A) :
  l `sublist_of` k → Forall P k → Forall P l.
Proof.
  intros Hsub. rewrite !Forall_forall. intros H x Hx. apply H. by eapply elem_of_sublist.
Qed.

Lemma StronglySorted_impl {A} (R S : A → A → Prop) (l : list A) :
  (∀ x y, R x y → S x y) → StronglySorted R l → StronglySorted S l.
Proof.
  intros Himp. induction 1; constructor; [done|]. eapply Forall_impl; eauto.
Qed.

Lemma NoDup_fmap_filter {A B} (f : A → B) (P : A → Prop) `{∀ x, Decision (P x)} (l : list A) :
  NoDup (f <$> l) → NoDup (f <$> filter P l).
Proof. intros. eapply sublist_NoDup; [done|]. apply sublist_fmap, sublist_filter_l. Qed.

#[export] Hint Resolve sublist_filter_l NoDup_fmap_filter filter_length_le : clipfan.

(** ** [sort.SliceStable]: the stable sort for a strict "less" test *)

Section stable_sort.
Context {A : Type} (less : A → A → bool).

Fixpoint sort_insert (x : A) (l : list A) : list A :=
  match l with
  | [] => [x]
  | y :: l' => if less y x then y :: sort_insert x l' else x :: l
  end.

Definition stable_sort (l : list A) : list A := foldr sort_insert [] l.

(** Never out of order: no later element is strictly less than an earlier one. *)
Definition ordered : list A → Prop := StronglySorted (λ x y, less y x = false).

Lemma sort_insert_perm x l : sort_insert x l ≡ₚ x :: l.
Proof.
  induction l as [|y l IH]; simpl; [done|].
  case_match; [|done]. rewrite IH. constructor.
Qed.

Lemma stable_sort_perm l : stable_sort l ≡ₚ l.
Proof. induction l as [|x l IH]; simpl; [done|]. by rewrite sort_insert_perm, IH. Qed.

Context (less_trans : ∀ x y z, less y x = false → less z y = false → less z x = false)
        (less_asym : ∀ x y, less x y = true → less y x = false).

Lemma sort_insert_ordered x l : ordered l → ordered (sort_insert x l).
Proof.
  induction 1 as [|y l Hl IH Hy]; simpl; [repeat constructor|].
  destruct (less y x) eqn:E.
  - constructor; [done|]. rewrite sort_insert_perm. constructor; [by apply less_asym|done].
  - constructor; [by constructor|]. constructor; [done|].
    eapply Forall_impl; [done|]. intros z Hz. by eapply less_trans.
Qed.

Lemma stable_sort_ordered l : ordered (stable_sort l).
Proof. induction l; simpl; [constructor|]. by apply sort_insert_ordered. Qed.

(** Stability: elements of a class none of whose members is less than another
    keep their relative order. *)
Lemma sort_insert_filter_in (P : A → Prop) `{∀ x, Decision (P x)} x l :
  P x → (∀ y, P y → less y x = false) → filter P (sort_insert x l) = x :: filter P l.
Proof.
  intros Hx Hcls. induction l as [|y l IH]; simpl; [by rewrite filter_cons_True|].
  destruct (less y x) eqn:E.
  - rewrite filter_cons_False, IH, (filter_cons_False _ y); [done| |];
      intros Hy; by rewrite Hcls in E.
  - by rewrite filter_cons_True.
Qed.

Lemma sort_insert_filter_out (P : A → Prop) `{∀ x, Decision (P x)} x l :
  ¬ P x → filter P (sort_insert x l) = filter P l.
Proof.
  intros Hx. induction l as [|y l IH]; simpl; [by rewrite filter_cons_False|].
  case_match; [|by rewrite filter_cons_False].
  rewrite !filter_cons, IH. done.
Qed.

Lemma stable_sort_stable (P : A → Prop) `{∀ x, Decision (P x)} l :
  (∀ x y, P x → P y → less y x = false) → filter P (stable_sort l) = filter P l.
Proof.
  intros Hcls. induction l as [|x l IH]; simpl; [done|]. rewrite filter_cons.
  case_decide.
  - rewrite sort_insert_filter_in by eauto. by rewrite IH.
  - by rewrite sort_insert_filter_out, IH.
Qed.
End stable_sort.
