(* ===== verification/GoStrings.v ===== *)
(** * Go's [strings], [path/filepath] and [strconv] functions used by clipfan

    Go strings are byte sequences; they are Rocq [string]s here, one [ascii]
    per byte.  This file holds the executable library functions (prefix and
    suffix tests, trimming, splitting, searching, decimal conversion) the
    components call and the lemmas about them the components share. *)
From S2P Require Import Prelude.
From Stdlib Require Import Ascii String DecimalString DecimalPos DecimalN DecimalFacts.
From stdpp Require Import list strings.

#[local] Arguments String.append !_ _ / : simpl nomatch.
#[local] Arguments String.rev_app !_ _ / : simpl nomatch.

Definition len (s : string) : nat := String.length s.

(** [strings.HasPrefix(s, p)] *)
Definition HasPrefix (s p : string) : bool := String.prefix p s.

(** [strings.HasSuffix(s, p)] *)
Definition HasSuffix (s p : string) : bool := String.prefix (String.rev p) (String.rev s).

(** [strings.TrimSuffix(s, p)] *)
Definition TrimSuffix (s p : string) : string :=
  if HasSuffix s p then String.substring 0 (len s - len p) s else s.

(** [strings.CutSuffix(s, p)] *)
Definition CutSuffix (s p : string) : string * bool :=
  if HasSuffix s p then (String.substring 0 (len s - len p) s, true) else (s, false).

(** [strings.TrimPrefix(s, p)] *)
Definition TrimPrefix (s p : string) : string :=
  if HasPrefix s p then String.substring (len p) (len s - len p) s else s.

(** [strings.SplitN(s, c, 2)[0]] for a one-byte separator: everything before
    the first [c], all of [s] when [c] does not occur. *)
Fixpoint before_sep (c : ascii) (s : string) : string :=
  match s with
  | EmptyString => EmptyString
  | String a s' => if bool_decide (a = c) then EmptyString else String a (before_sep c s')
  end.

(** [strings.Split(s, c)] for a one-byte separator: never empty. *)
Fixpoint Split (c : ascii) (s : string) : list string :=
  match s with
  | EmptyString => [EmptyString]
  | String a s' =>
      if bool_decide (a = c) then EmptyString :: Split c s'
      else match Split c s' with
           | w :: ws => String a w :: ws
           | [] => [String a EmptyString]
           end
  end.

(** [strings.Contains(s, sub)] *)
Fixpoint Contains (s sub : string) : bool :=
  String.prefix sub s ||
  match s with
  | EmptyString => false
  | String _ s' => Contains s' sub
  end.

Fixpoint forall_bytes (f : ascii → bool) (s : string) : bool :=
  match s with
  | EmptyString => true
  | String a s' => f a && forall_bytes f s'
  end.

Fixpoint exists_byte (f : ascii → bool) (s : string) : bool :=
  match s with
  | EmptyString => false
  | String a s' => f a || exists_byte f s'
  end.

(** [strings.ContainsAny(s, chars)] for ASCII [chars]. *)
Definition ContainsAny (s chars : string) : bool :=
  exists_byte (λ a, exists_byte (λ c, bool_decide (a = c)) chars) s.

Definition byte_in (lo hi a : ascii) : bool :=
  ((nat_of_ascii lo <=? nat_of_ascii a) && (nat_of_ascii a <=? nat_of_ascii hi))%nat.

Definition is_digit (a : ascii) : bool := byte_in "0" "9" a.

Definition is_upper (a : ascii) : bool := byte_in "A" "Z" a.

Definition is_lower (a : ascii) : bool := byte_in "a" "z" a.

Definition lower_byte (a : ascii) : ascii :=
  if is_upper a then ascii_of_nat (nat_of_ascii a + 32) else a.

(** [strings.ToLower] on ASCII text. *)
Fixpoint ToLower (s : string) : string :=
  match s with
  | EmptyString => EmptyString
  | String a s' => String (lower_byte a) (ToLower s')
  end.

(** A string given by its byte values. *)
Fixpoint of_bytes (l : list nat) : string :=
  match l with
  | [] => EmptyString
  | n :: l' => String (ascii_of_nat n) (of_bytes l')
  end.

(** The two letters with a fold outside ASCII: the long s and the Kelvin sign. *)
Definition long_s : string := of_bytes [197; 191].

Definition kelvin : string := of_bytes [226; 132; 170].

(** [strings.EqualFold(s, t)] for a [t] of lower-case ASCII letters. *)
Fixpoint EqualFold (s t : string) : bool :=
  match t with
  | EmptyString => bool_decide (s = "")
  | String b t' =>
      match s with
      | EmptyString => false
      | String a s' =>
          if bool_decide (lower_byte a = b) then EqualFold s' t'
          else if bool_decide (b = "s"%char) && HasPrefix s long_s then EqualFold (String.substring 2 (len s - 2) s) t'
          else if bool_decide (b = "k"%char) && HasPrefix s kelvin then EqualFold (String.substring 3 (len s - 3) s) t'
          else false
      end
  end.

(** The UTF-8 encodings of the runes [unicode.IsSpace] accepts. *)
Definition space_runes : list string :=
  of_bytes <$>
  [[9]; [10]; [11]; [12]; [13]; [32]; [194; 133]; [194; 160]; [225; 154; 128];
   [226; 128; 128]; [226; 128; 129]; [226; 128; 130]; [226; 128; 131]; [226; 128; 132];
   [226; 128; 133]; [226; 128; 134]; [226; 128; 135]; [226; 128; 136]; [226; 128; 137];
   [226; 128; 138]; [226; 128; 168]; [226; 128; 169]; [226; 128; 175]; [226; 129; 159];
   [227; 128; 128]].

(** Strip leading occurrences of the given words; [n] bounds their number. *)
Fixpoint strip_left (ws : list string) (n : nat) (s : string) : string :=
  match n with
  | 0 => s
  | S n' =>
      match list_find (λ w, Is_true (String.prefix w s)) ws with
      | Some (_, w) => strip_left ws n' (String.substring (len w) (len s - len w) s)
      | None => s
      end
  end.

(** [strings.TrimSpace]: every strip removes a byte, so [len s] rounds suffice. *)
Definition TrimSpace (s : string) : string :=
  let l := strip_left space_runes (len s) s in
  String.rev (strip_left (String.rev <$> space_runes) (len l) (String.rev l)).

(** [filepath.Base] on a slash-separated path. *)
Definition Base (p : string) : string :=
  if bool_decide (p = EmptyString) then "."
  else
    let q := String.rev (strip_left ["/"] (len p) (String.rev p)) in
    match last (Split "/" q) with
    | Some EmptyString | None => "/"
    | Some b => b
    end.

(** [strconv.FormatUint(n, 10)] *)
Definition format_uint (n : N) : string := NilZero.string_of_uint (N.to_uint n).

(** [strconv.FormatInt(z, 10)] *)
Definition format_int (z : Z) : string :=
  match z with
  | Zneg p => String "-" (format_uint (Npos p))
  | _ => format_uint (Z.to_N z)
  end.

Definition max_uint64 : N := 18446744073709551615%N.

Definition max_int64 : Z := 9223372036854775807%Z.

(** [strconv.ParseUint(s, 10, 64)]: decimal digits only, at most [2^64 - 1]. *)
Definition ParseUint (s : string) : option N :=
  d ← NilZero.uint_of_string s;
  let n := N.of_uint d in
  if (n <=? max_uint64)%N then Some n else None.

(** The digits of a signed number, without the sign. *)
Definition parse_digits (s : string) : option Z :=
  (λ d, Z.of_N (N.of_uint d)) <$> NilZero.uint_of_string s.

(** [strconv.ParseInt(s, 10, 64)] (and [strconv.Atoi]): an optional sign, then digits. *)
Definition ParseInt (s : string) : option Z :=
  match s with
  | String "-" s' => v ← parse_digits s'; if (v <=? max_int64 + 1)%Z then Some (- v)%Z else None
  | String "+" s' => v ← parse_digits s'; if (v <=? max_int64)%Z then Some v else None
  | _ => v ← parse_digits s; if (v <=? max_int64)%Z then Some v else None
  end.

(** [strings.Join(l, sep)] *)
Fixpoint Join (sep : string) (l : list string) : string :=
  match l with
  | [] => EmptyString
  | [s] => s
  | s :: l' => s +:+ sep +:+ Join sep l'
  end.

Definition has_byte (c : ascii) (s : string) : bool := exists_byte (λ a, bool_decide (a = c)) s.

(** ** Bytes and concatenation *)

Lemma sapp_nil_r (s : string) : s +:+ EmptyString = s.
Proof. induction s; simpl; [done|]. by f_equal. Qed.

Lemma sapp_assoc (a b c : string) : (a +:+ b) +:+ c = a +:+ (b +:+ c).
Proof. induction a; simpl; [done|]. by f_equal. Qed.

Lemma len_app (a b : string) : len (a +:+ b) = len a + len b.
Proof. unfold len. induction a; simpl; [done|]. by rewrite IHa. Qed.

Lemma exists_byte_app f (a b : string) :
  exists_byte f (a +:+ b) = exists_byte f a || exists_byte f b.
Proof. induction a; simpl; [done|]. by rewrite IHa, orb_assoc. Qed.

Lemma has_byte_app c (a b : string) : has_byte c (a +:+ b) = has_byte c a || has_byte c b.
Proof. apply exists_byte_app. Qed.

Lemma sprefix_spec (p s : string) : String.prefix p s = true ↔ ∃ q, s = p +:+ q.
Proof.
  revert s. induction p as [|a p IH]; intros s.
  { split; [by exists s|by destruct s]. }
  destruct s as [|b s]; simpl; [split; [done|by intros [? ?]]|].
  destruct (ascii_dec a b) as [->|Hne].
  - rewrite IH. split; intros [q Hq]; exists q; by simplify_eq/=.
  - split; [done|intros [q Hq]; simplify_eq/=].
Qed.

Lemma rev_app_spec (s t : string) : String.rev_app s t = String.rev s +:+ t.
Proof.
  unfold String.rev. revert t. induction s as [|a s IH]; intros t; simpl; [done|].
  rewrite (IH (String a t)), (IH (String a EmptyString)), sapp_assoc. done.
Qed.

Lemma srev_cons a (s : string) : String.rev (String a s) = String.rev s +:+ String a EmptyString.
Proof. unfold String.rev at 1; simpl. by rewrite rev_app_spec. Qed.

Lemma srev_app (a b : string) : String.rev (a +:+ b) = String.rev b +:+ String.rev a.
Proof.
  induction a as [|x a IH]; [by rewrite sapp_nil_r|].
  change (String x a +:+ b) with (String x (a +:+ b)).
  by rewrite !srev_cons, IH, sapp_assoc.
Qed.

Lemma srev_rev (s : string) : String.rev (String.rev s) = s.
Proof. induction s as [|a s IH]; [done|]. by rewrite srev_cons, srev_app, IH. Qed.

Lemma len_rev (s : string) : len (String.rev s) = len s.
Proof. induction s as [|a s IH]; [done|]. rewrite srev_cons, len_app, IH. unfold len; simpl; lia. Qed.

Lemma HasSuffix_spec (s p : string) : HasSuffix s p = true ↔ ∃ q, s = q +:+ p.
Proof.
  unfold HasSuffix. rewrite sprefix_spec. split; intros [q Hq].
  - exists (String.rev q). by rewrite <- (srev_rev s), Hq, srev_app, srev_rev.
  - exists (String.rev q). by rewrite Hq, srev_app.
Qed.

Lemma substring_app_l (a b : string) : String.substring 0 (len a) (a +:+ b) = a.
Proof. unfold len. induction a; simpl; [by destruct b|]. by f_equal. Qed.

Lemma substring_app_r (a b : string) : String.substring (len a) (len b) (a +:+ b) = b.
Proof.
  unfold len. induction a; simpl; [|done].
  induction b; simpl; [done|]. by f_equal.
Qed.

Lemma len_substring n m s : len (String.substring n m s) = Nat.min m (len s - n).
Proof.
  unfold len. revert n m. induction s as [|a s IH]; intros [|n] [|m]; simpl; try done; by rewrite ?IH, ?Nat.sub_0_r.
Qed.

Lemma HasPrefix_app (p s : string) : HasPrefix (p +:+ s) p = true.
Proof. apply sprefix_spec. by exists s. Qed.

Lemma TrimPrefix_app (p s : string) : TrimPrefix (p +:+ s) p = s.
Proof.
  unfold TrimPrefix. rewrite HasPrefix_app, len_app.
  replace (len p + len s - len p) with (len s) by lia. apply substring_app_r.
Qed.

Lemma TrimSuffix_app (q p : string) : TrimSuffix (q +:+ p) p = q.
Proof.
  unfold TrimSuffix.
  replace (HasSuffix (q +:+ p) p) with true by (symmetry; apply HasSuffix_spec; eauto).
  rewrite len_app. replace (len q + len p - len p) with (len q) by lia.
  apply substring_app_l.
Qed.

Lemma TrimSuffix_none (s p : string) : HasSuffix s p = false → TrimSuffix s p = s.
Proof. unfold TrimSuffix. by intros ->. Qed.

Lemma CutSuffix_spec (s p base : string) :
  CutSuffix s p = (base, true) ↔ s = base +:+ p.
Proof.
  unfold CutSuffix. destruct (HasSuffix s p) eqn:E.
  - apply HasSuffix_spec in E as [q ->].
    rewrite len_app. replace (len q + len p - len p) with (len q) by lia.
    rewrite substring_app_l. split; [intros; by simplify_eq|].
    intros Heq. f_equal. apply (f_equal String.rev) in Heq. rewrite !srev_app in Heq.
    apply (inj _) in Heq. by rewrite <- (srev_rev q), Heq, srev_rev.
  - split; [done|]. intros ->. exfalso.
    enough (HasSuffix (base +:+ p) p = true) by congruence.
    apply HasSuffix_spec; eauto.
Qed.

(** ** Splitting at a separator *)

(** Nothing is stripped from a text that starts with none of the words. *)
Lemma strip_left_id ws n s : Forall (λ w, String.prefix w s = false) ws → strip_left ws n s = s.
Proof.
  intros H. destruct n; simpl; [done|].
  assert (list_find (λ w, Is_true (String.prefix w s)) ws = None) as ->; [|done].
  apply list_find_None. eapply Forall_impl; [done|]. simpl. intros w ->. auto.
Qed.

Lemma before_sep_clean c (s : string) : has_byte c (before_sep c s) = false.
Proof.
  unfold has_byte. induction s as [|a s IH]; simpl; [done|].
  case_bool_decide; simpl; [done|]. rewrite IH, bool_decide_eq_false_2; done.
Qed.

Lemma before_sep_id c (s : string) : has_byte c s = false → before_sep c s = s.
Proof.
  unfold has_byte. induction s as [|a s IH]; simpl; [done|]. intros H; bool_prop.
  rewrite bool_decide_eq_false_2 by done. f_equal; auto.
Qed.

(** A string is determined by what precedes the first separator and what follows it. *)
Lemma app_sep_inj c (a1 a2 b1 b2 : string) :
  has_byte c a1 = false → has_byte c a2 = false →
  a1 +:+ String c b1 = a2 +:+ String c b2 → a1 = a2 ∧ b1 = b2.
Proof.
  unfold has_byte. revert a2. induction a1 as [|x a1 IH]; intros [|y a2]; simpl; intros H1 H2 Heq;
    simplify_eq/=; bool_prop; try done.
  destruct (IH a2) as [-> ->]; auto.
Qed.

(** ** Decimal conversion round trips *)

Lemma to_uint_nonnil n : N.to_uint n ≠ Decimal.Nil.
Proof. destruct n; [done|]. apply DecimalPos.Unsigned.to_uint_nonnil. Qed.

Lemma format_uint_inj n m : format_uint n = format_uint m → n = m.
Proof.
  unfold format_uint. intros Heq.
  apply (f_equal NilZero.uint_of_string) in Heq.
  rewrite !NilZero.usu in Heq by (by apply to_uint_nonnil).
  injection Heq as Heq. by apply DecimalN.Unsigned.to_uint_inj.
Qed.

Lemma parse_format_uint n :
  NilZero.uint_of_string (format_uint n) = Some (N.to_uint n).
Proof. unfold format_uint. apply NilZero.usu, to_uint_nonnil. Qed.

Lemma ParseUint_format n : (n ≤ max_uint64)%N → ParseUint (format_uint n) = Some n.
Proof.
  intros Hn. unfold ParseUint. rewrite parse_format_uint; simpl.
  rewrite DecimalN.Unsigned.of_to. by rewrite (proj2 (N.leb_le _ _) Hn).
Qed.

Lemma ParseUint_bound s n : ParseUint s = Some n → (n ≤ max_uint64)%N.
Proof.
  unfold ParseUint. destruct (NilZero.uint_of_string s); simpl; [|done].
  case_match eqn:E; [|done]. intros; simplify_eq. by apply N.leb_le.
Qed.

#[export] Hint Rewrite sapp_nil_r sapp_assoc len_app has_byte_app srev_app srev_rev len_rev : clipfan.
#[export] Hint Resolve before_sep_clean : clipfan.

(** ** Decimal texts *)

Lemma has_byte_forall c f s : forall_bytes f s = true → f c = false → has_byte c s = false.
Proof.
  unfold has_byte. intros Hs Hc. induction s as [|a s IH]; simpl in *; [done|]. bool_prop.
  rewrite bool_decide_eq_false_2 by congruence. auto.
Qed.

(** The bytes a decimal number is written with. *)
Definition num_byte (a : ascii) : bool := is_digit a || bool_decide (a = "-"%char).

Lemma format_uint_digits n : forall_bytes is_digit (format_uint n) = true.
Proof.
  assert (H : ∀ d, forall_bytes is_digit (NilEmpty.string_of_uint d) = true) by (induction d; done).
  unfold format_uint, NilZero.string_of_uint. destruct (N.to_uint n); [done|..]; apply H.
Qed.

Lemma format_uint_nonempty n : format_uint n ≠ "".
Proof. unfold format_uint, NilZero.string_of_uint. by destruct (N.to_uint n). Qed.

Lemma forall_bytes_app f a b : forall_bytes f (a +:+ b) = forall_bytes f a && forall_bytes f b.
Proof.
  induction a as [|x a IH]; [done|].
  change (String x a +:+ b) with (String x (a +:+ b)). simpl. by rewrite IH, andb_assoc.
Qed.

Lemma forall_bytes_rev f s : forall_bytes f (String.rev s) = forall_bytes f s.
Proof. induction s as [|a s IH]; [done|]. rewrite srev_cons, forall_bytes_app, IH. cbn. rewrite andb_true_r. apply andb_comm. Qed.

Lemma forall_bytes_sub f i n s : forall_bytes f s = true → forall_bytes f (String.substring i n s) = true.
Proof.
  revert i n. induction s as [|a s IH]; intros i n; cbn [forall_bytes].
  - intros _. by destruct i, n.
  - intros [Ha Hs]%andb_true_iff. destruct i as [|i]; [destruct n as [|n]; [done|]|]; cbn; rewrite ?Ha; by apply IH.
Qed.

Lemma forall_bytes_strip_left f ws n s : forall_bytes f s = true → forall_bytes f (strip_left ws n s) = true.
Proof. revert s. induction n as [|n IH]; intros s Hs; cbn [strip_left]; [done|]. destruct (list_find _ _) as [[]|]; [|done]. by apply IH, forall_bytes_sub. Qed.

Lemma forall_bytes_impl f g s :
  (∀ a, f a = true → g a = true) → forall_bytes f s = true → forall_bytes g s = true.
Proof. intros Hfg. induction s as [|a s IH]; simpl; [done|]. intros [Ha Hs]%andb_true_iff. rewrite Hfg by done. auto. Qed.

Lemma format_int_bytes z : forall_bytes num_byte (format_int z) = true.
Proof.
  assert (H : ∀ n, forall_bytes num_byte (format_uint n) = true).
  { intros n. eapply forall_bytes_impl; [|apply format_uint_digits]. unfold num_byte. by intros a ->. }
  destruct z; simpl; [done|apply H|apply H].
Qed.

Lemma format_int_nonempty z : format_int z ≠ "".
Proof. destruct z; simpl; [done|apply format_uint_nonempty|done]. Qed.

Lemma format_int_clean c z : num_byte c = false → has_byte c (format_int z) = false.
Proof. intros Hc. by eapply has_byte_forall; [apply format_int_bytes|]. Qed.

Lemma format_uint_no_sign n s : format_uint n ≠ String "-" s.
Proof. intros Hn. pose proof (format_uint_digits n) as Hd. by rewrite Hn in Hd. Qed.

Lemma format_int_inj a b : format_int a = format_int b → a = b.
Proof.
  destruct a as [|p|p], b as [|q|q]; simpl; intros H; try done.
  all: try (by apply format_uint_no_sign in H); try (by symmetry in H; apply format_uint_no_sign in H).
  all: try (apply format_uint_inj in H; congruence). injection H as H. apply format_uint_inj in H. congruence.
Qed.

Lemma parse_digits_format n : parse_digits (format_uint n) = Some (Z.of_N n).
Proof. unfold parse_digits. rewrite parse_format_uint. simpl. by rewrite DecimalN.Unsigned.of_to. Qed.

Lemma ParseInt_format z : (- max_int64 - 1 ≤ z ≤ max_int64)%Z → ParseInt (format_int z) = Some z.
Proof.
  intros Hz. assert (Hpos : ∀ n, (Z.of_N n ≤ max_int64)%Z → ParseInt (format_uint n) = Some (Z.of_N n)).
  { intros n Hn. unfold ParseInt. pose proof (format_uint_digits n) as Hd. pose proof (format_uint_nonempty n).
    pose proof (parse_digits_format n) as Hp. destruct (format_uint n) as [|a s]; [done|]. rewrite Hp. simpl in *.
    destruct (ascii_dec a "-") as [->|H1]; [done|]. destruct (ascii_dec a "+") as [->|H2]; [done|].
    apply Z.leb_le in Hn. destruct a as [[] [] [] [] [] [] [] []]; simpl; try (by rewrite Hn); congruence. }
  destruct z as [|p|p]; simpl format_int.
  - apply (Hpos 0%N). unfold max_int64. lia.
  - apply (Hpos (N.pos p)). lia.
  - unfold ParseInt. rewrite parse_digits_format. simpl. rewrite (proj2 (Z.leb_le _ _)) by lia. done.
Qed.

(** ** Joining *)

Lemma Join_cons sep s l : l ≠ [] → GoStrings.Join sep (s :: l) = s +:+ sep +:+ GoStrings.Join sep l.
Proof. by destruct l. Qed.

Lemma Join_nonempty sep l : l ≠ [] → Forall (λ s, s ≠ "") l → GoStrings.Join sep l ≠ "".
Proof. intros Hl Hf. destruct Hf as [|s l Hs Hl']; [done|]. destruct l; simpl; destruct s; done. Qed.

(** Joining parts that are not empty and do not hold the separator is injective. *)
Lemma Join_inj c l l' :
  Forall (λ s, has_byte c s = false ∧ s ≠ "") l → Forall (λ s, has_byte c s = false ∧ s ≠ "") l' →
  GoStrings.Join (String c "") l = GoStrings.Join (String c "") l' → l = l'.
Proof.
  intros Hl. revert l'. induction Hl as [|s l [Hs Hne] Hl IH]; intros l' Hl' Heq.
  { destruct l' as [|s' l']; [done|]. exfalso. symmetry in Heq. revert Heq. apply Join_nonempty; [done|].
    eapply Forall_impl; [done|]. by intros ? []. }
  destruct Hl' as [|s' l' [Hs' Hne'] Hl'].
  { exfalso. revert Heq. apply Join_nonempty; [done|]. constructor; [done|]. eapply Forall_impl; [done|]. by intros ? []. }
  destruct (decide (l = [])) as [->|Hl0], (decide (l' = [])) as [->|Hl0'].
  - simpl in Heq. congruence.
  - rewrite (Join_cons _ _ _ Hl0') in Heq. simpl in Heq. subst s. by rewrite has_byte_app, orb_false_iff in Hs;
      destruct Hs as [_ Hs]; unfold has_byte in Hs; simpl in Hs; rewrite bool_decide_eq_true_2 in Hs.
  - rewrite (Join_cons _ _ _ Hl0) in Heq. simpl in Heq. subst s'. by rewrite has_byte_app, orb_false_iff in Hs';
      destruct Hs' as [_ Hs']; unfold has_byte in Hs'; simpl in Hs'; rewrite bool_decide_eq_true_2 in Hs'.
  - rewrite !Join_cons in Heq by done. apply app_sep_inj in Heq as [-> Heq]; [|done|done]. f_equal. by apply IH.
Qed.

(** ** Splitting and joining *)

Lemma Split_plain c s : has_byte c s = false → Split c s = [s].
Proof.
  unfold has_byte. induction s as [|a s IH]; simpl; [done|]. intros; bool_prop.
  rewrite bool_decide_eq_false_2 by done. by rewrite IH.
Qed.

Lemma Split_nonnil c s : Split c s ≠ [].
Proof. destruct s; simpl; [done|]. repeat case_match; done. Qed.

Lemma Split_app c d n : has_byte c n = false → Split c (d +:+ String c n) = Split c d ++ [n].
Proof.
  intros Hn. induction d as [|a d IH].
  - change ("" +:+ String c n) with (String c n). cbn [Split].
    by rewrite bool_decide_eq_true_2, Split_plain.
  - change (String a d +:+ String c n) with (String a (d +:+ String c n)). cbn [Split].
    rewrite IH. case_bool_decide; [done|]. pose proof (Split_nonnil c d).
    by destruct (Split c d).
Qed.

Lemma has_byte_cons c a s : has_byte c (String a s) = bool_decide (a = c) || has_byte c s.
Proof. done. Qed.

Lemma Split_cons c a b : has_byte c a = false → Split c (a +:+ String c b) = a :: Split c b.
Proof.
  induction a as [|x a IH]; [intros _; change ("" +:+ String c b) with (String c b); cbn [Split]; by rewrite bool_decide_eq_true_2|].
  rewrite has_byte_cons. intros [Hx Ha]%orb_false_iff. change (String x a +:+ String c b) with (String x (a +:+ String c b)).
  cbn [Split]. by rewrite Hx, IH.
Qed.

Lemma Split_Join c l : l ≠ [] → Forall (λ s, has_byte c s = false) l → Split c (GoStrings.Join (String c "") l) = l.
Proof.
  intros Hne Hl. induction Hl as [|s l Hs Hl IH]; [done|]. destruct (decide (l = [])) as [->|Hl0]; [by apply Split_plain|].
  rewrite Join_cons by done. change (String c "" +:+ GoStrings.Join (String c "") l) with (String c (GoStrings.Join (String c "") l)).
  rewrite Split_cons by done. by rewrite IH.
Qed.

Lemma Join_Split c s : GoStrings.Join (String c "") (Split c s) = s.
Proof.
  induction s as [|a s IH]; [done|]. cbn [Split]. case_bool_decide as Ha.
  - subst a. rewrite Join_cons by apply Split_nonnil. by rewrite IH.
  - pose proof (Split_nonnil c s). destruct (Split c s) as [|w ws]; [done|]. destruct ws as [|w2 ws].
    + simpl in IH |- *. by rewrite IH.
    + rewrite Join_cons in IH |- * by done. change (String a w +:+ ?x) with (String a (w +:+ x)). by rewrite <- IH.
Qed.

Lemma Split_clean c s : Forall (λ w, has_byte c w = false) (Split c s).
Proof.
  induction s as [|a s IH]; [by apply Forall_singleton|]. cbn [Split]. case_bool_decide as Ha; [by constructor|].
  destruct (Split c s) as [|w ws].
  - apply Forall_singleton. rewrite has_byte_cons. by rewrite bool_decide_eq_false_2.
  - apply Forall_cons in IH as [Hw Hws]. constructor; [|done]. rewrite has_byte_cons. by rewrite bool_decide_eq_false_2.
Qed.

(** ** Go's [<] on strings: a total order *)

Lemma ltb_le a b : String.ltb b a = false ↔ String.le a b.
Proof.
  unfold String.ltb, String.le, Strings.String.leb, is_true. rewrite (Strings.String.compare_antisym b a).
  by destruct (Strings.String.compare a b).
Qed.

Lemma ltb_trans a b c : String.ltb b a = false → String.ltb c b = false → String.ltb c a = false.
Proof. rewrite !ltb_le. intros H1 H2. by transitivity b. Qed.

Lemma ltb_asym a b : String.ltb a b = true → String.ltb b a = false.
Proof. rewrite ltb_le. intros Hlt. destruct (total String.le a b) as [?|Hba]; [done|]. apply ltb_le in Hba. congruence. Qed.

Lemma Join_snoc sep l s : l ≠ [] → GoStrings.Join sep (l ++ [s]) = GoStrings.Join sep l +:+ sep +:+ s.
Proof.
  induction l as [|x l IH]; [done|]. intros _. destruct (decide (l = [])) as [->|Hl]; [done|].
  cbn [app]. rewrite !Join_cons, IH by (try done; by destruct l). by rewrite !sapp_assoc.
Qed.

(** ** Lemmas: the last component of a path *)

Lemma plain_rev_head c n :
  n ≠ "" → has_byte c n = false → ∃ a s, String.rev n = String a s ∧ a ≠ c.
Proof.
  intros Hne Hn. destruct (String.rev n) as [|a s] eqn:E.
  { by rewrite <- (srev_rev n), E in Hne. }
  exists a, s. split; [done|]. intros ->.
  rewrite <- (srev_rev n), E, srev_cons, has_byte_app in Hn. apply orb_false_iff in Hn as [_ Hn].
  unfold has_byte in Hn; simpl in Hn. by rewrite bool_decide_eq_true_2 in Hn.
Qed.

(** The last component of a joined path. *)
Lemma Base_join d n : n ≠ "" → has_byte "/" n = false → Base (d +:+ "/" +:+ n) = n.
Proof.
  intros Hne Hn. unfold Base.
  change ("/" +:+ n) with (String "/" n).
  rewrite bool_decide_eq_false_2 by (destruct d; done).
  rewrite strip_left_id.
  - rewrite srev_rev, Split_app by done. rewrite last_snoc. by destruct n.
  - constructor; [|constructor]. rewrite srev_app, srev_cons.
    destruct (plain_rev_head _ _ Hne Hn) as (a & s & -> & Ha).
    apply not_true_iff_false. intros [q Hq]%sprefix_spec. injection Hq as Hq _. congruence.
Qed.

Lemma Base_plain n : n ≠ "" → has_byte "/" n = false → Base n = n.
Proof.
  intros Hne Hn. unfold Base. rewrite bool_decide_eq_false_2 by done. rewrite strip_left_id.
  - rewrite srev_rev, Split_plain by done. cbn. by destruct n.
  - constructor; [|constructor]. destruct (plain_rev_head _ _ Hne Hn) as (a & s & -> & Ha).
    apply not_true_iff_false. intros [q Hq]%sprefix_spec. injection Hq as Hq _. congruence.
Qed.

Lemma Base_clean p : Base p ≠ "/" → has_byte "/" (Base p) = false.
Proof.
  unfold Base. destruct (bool_decide (p = EmptyString)); [done|]. intros Hne.
  set (q := String.rev (strip_left ["/"] (len p) (String.rev p))) in *. pose proof (Split_clean "/" q) as Hc.
  destruct (last (Split "/" q)) as [b|] eqn:E; [|done]. rewrite Forall_forall in Hc. specialize (Hc b). destruct b as [|a b]; [done|].
  apply Hc. by apply last_Some_elem_of.
Qed.
