(* ===== verification/Utf8.v ===== *)
(** * UTF-8 and the strings that survive encoding/json

    [json.Marshal] writes every byte that does not start a valid UTF-8 sequence
    as U+FFFD, so a Go string is read back unchanged only when it is valid
    UTF-8.  [json_text] is that coercion; it is idempotent. *)
From S2P Require Import Prelude GoStrings.
From Stdlib Require Import Ascii String.
From stdpp Require Import strings.

#[local] Arguments String.append !_ _ / : simpl nomatch.

Definition in_range (lo hi : nat) (a : ascii) : bool :=
  ((lo <=? nat_of_ascii a) && (nat_of_ascii a <=? hi))%nat.

Definition cont (a : ascii) : bool := in_range 128 191 a.

(** The accepted range of a second byte, by the first byte ([utf8.acceptRanges]). *)
Definition second_ok (a b : ascii) : bool :=
  let n := nat_of_ascii a in
  if (n =? 224)%nat then in_range 160 191 b
  else if (n =? 237)%nat then in_range 128 159 b
  else if (n =? 240)%nat then in_range 144 191 b
  else if (n =? 244)%nat then in_range 128 143 b
  else cont b.

(** Width of the sequence [utf8.DecodeRuneInString] reads, [None] when the
    first byte starts no valid sequence. *)
Definition rune_width (s : string) : option nat :=
  match s with
  | EmptyString => None
  | String a s1 =>
      if in_range 0 127 a then Some 1
      else match s1 with
      | EmptyString => None
      | String b s2 =>
          if in_range 194 223 a then (if cont b then Some 2 else None)
          else if negb (second_ok a b) then None
          else match s2 with
          | EmptyString => None
          | String c s3 =>
              if in_range 224 239 a then (if cont c then Some 3 else None)
              else if in_range 240 244 a then
                match s3 with
                | String d _ => if cont c && cont d then Some 4 else None
                | EmptyString => None
                end
              else None
          end
      end
  end.

Definition replacement : string := of_bytes [239; 191; 189].

Definition first_bytes (n : nat) (s : string) : string := String.substring 0 n s.

Fixpoint drop_bytes (n : nat) (s : string) : string :=
  match n, s with
  | S n', String _ s' => drop_bytes n' s'
  | _, _ => s
  end.

Fixpoint json_text_fuel (n : nat) (s : string) : string :=
  match n, s with
  | S n', String _ s' =>
      match rune_width s with
      | Some w => first_bytes w s +:+ json_text_fuel n' (drop_bytes w s)
      | None => replacement +:+ json_text_fuel n' s'
      end
  | _, _ => EmptyString
  end.

(** The string read back after a JSON round trip; every step consumes a byte. *)
Definition json_text (s : string) : string := json_text_fuel (len s) s.

Definition valid_utf8 (s : string) : bool := bool_decide (json_text s = s).

#[global] Arguments json_text : simpl never.

(** ** Lemmas *)

Lemma rune_width_pos s w : rune_width s = Some w → 0 < w ≤ len s.
Proof. unfold rune_width, len. intros H. go_cases; lia. Qed.

Lemma first_drop n (s : string) : first_bytes n s +:+ drop_bytes n s = s.
Proof.
  unfold first_bytes. revert s. induction n as [|n IH]; intros s; [by destruct s|].
  destruct s as [|a s]; [done|]. simpl. by rewrite IH.
Qed.

Lemma len_drop_bytes n s : len (drop_bytes n s) = len s - n.
Proof.
  unfold len. revert s. induction n as [|n IH]; intros s; simpl; [lia|].
  destruct s; simpl; [done|]. rewrite IH. lia.
Qed.

(** The width only depends on the bytes it covers. *)
Lemma rune_width_app s w t : rune_width s = Some w → rune_width (first_bytes w s +:+ t) = Some w.
Proof.
  unfold first_bytes. intros H. unfold rune_width in H.
  repeat (case_on; simplify_eq/=); repeat match goal with H : _ = _ |- _ => rewrite H end; done.
Qed.

Lemma drop_first n s t : n ≤ len s → drop_bytes n (first_bytes n s +:+ t) = t.
Proof.
  unfold first_bytes, len. revert s. induction n as [|n IH]; intros s Hn; [by destruct s|].
  destruct s; simpl in *; [lia|]. apply IH. lia.
Qed.

Lemma first_first n s t : n ≤ len s → first_bytes n (first_bytes n s +:+ t) = first_bytes n s.
Proof.
  unfold first_bytes, len. revert s. induction n as [|n IH]; intros s Hn.
  { destruct s; simpl; by destruct t. }
  destruct s; simpl in *; [lia|]. f_equal. apply IH. lia.
Qed.

Lemma json_text_fuel_more n m s : len s ≤ n → len s ≤ m → json_text_fuel n s = json_text_fuel m s.
Proof.
  revert m s. induction n as [|n IH]; intros m s Hn Hm.
  { destruct s; unfold len in *; simpl in *; [by destruct m|lia]. }
  destruct s as [|a s]; [by destruct m|]. destruct m as [|m]; [unfold len in *; simpl in *; lia|].
  cbn [json_text_fuel]. unfold len in Hn, Hm; simpl in Hn, Hm.
  destruct (rune_width (String a s)) as [w|] eqn:Hw.
  - apply rune_width_pos in Hw as Hpos. f_equal. unfold len in Hpos; simpl in Hpos.
    apply IH; rewrite len_drop_bytes; unfold len; simpl; lia.
  - f_equal. apply IH; unfold len; lia.
Qed.

Lemma json_text_rune s w :
  rune_width s = Some w → json_text s = first_bytes w s +:+ json_text (drop_bytes w s).
Proof.
  intros Hw. pose proof (rune_width_pos _ _ Hw) as Hpos. unfold json_text.
  destruct s as [|a s]; [done|]. unfold len at 1; simpl String.length; cbn [json_text_fuel].
  rewrite Hw. f_equal. apply json_text_fuel_more; rewrite !len_drop_bytes; unfold len in *; simpl in *; lia.
Qed.

Lemma json_text_bad a s :
  rune_width (String a s) = None → json_text (String a s) = replacement +:+ json_text s.
Proof. intros Hw. unfold json_text, len; simpl String.length. cbn [json_text_fuel]. by rewrite Hw. Qed.

Lemma json_text_kept s w t :
  rune_width s = Some w → json_text (first_bytes w s +:+ t) = first_bytes w s +:+ json_text t.
Proof.
  intros Hw. pose proof (rune_width_pos _ _ Hw).
  rewrite (json_text_rune _ w) by by apply rune_width_app.
  rewrite drop_first, first_first by lia. done.
Qed.

Lemma json_text_replacement t : json_text (replacement +:+ t) = replacement +:+ json_text t.
Proof. exact (json_text_kept replacement 3 t eq_refl). Qed.

Lemma json_text_idemp s : json_text (json_text s) = json_text s.
Proof.
  remember (len s) as n eqn:Hn. revert s Hn.
  induction (lt_wf n) as [n _ IH]. intros s ->.
  destruct s as [|a s]; [done|].
  destruct (rune_width (String a s)) as [w|] eqn:Hw.
  - pose proof (rune_width_pos _ _ Hw).
    rewrite (json_text_rune _ _ Hw), json_text_kept by done. f_equal.
    eapply IH; [|done]. rewrite len_drop_bytes. lia.
  - rewrite (json_text_bad _ _ Hw), json_text_replacement. f_equal.
    eapply IH; [|done]. unfold len; simpl; lia.
Qed.

Lemma valid_json_text s : valid_utf8 (json_text s) = true.
Proof. apply bool_decide_eq_true, json_text_idemp. Qed.

Lemma ascii_json_text s : forall_bytes (in_range 0 127) s = true → json_text s = s.
Proof.
  induction s as [|a s IH]; [done|]. simpl. intros H; bool_prop.
  rewrite (json_text_rune _ 1); [|simpl; by rewrite H].
  simpl. rewrite IH by done. by destruct s.
Qed.

#[export] Hint Rewrite json_text_idemp : clipfan.
