(* ===== verification/Encoding.v ===== *)
(** * encoding/hex and encoding/base64 as the transport uses them

    Both are Go standard-library codecs: [hex.EncodeToString] writes lower-case
    digits and [hex.DecodeString] reads either case; [base64.StdEncoding] is
    padded, its decoder skips line breaks and ignores trailing bits.  The
    round-trip lemmas are what the signature and body code relies on. *)
From S2P Require Import Prelude GoStrings Utf8.
From Stdlib Require Import Ascii String.
From stdpp Require Import strings.

Definition hex_digit (n : nat) : ascii :=
  if (n <? 10)%nat then ascii_of_nat (48 + n) else ascii_of_nat (87 + n).

Fixpoint hex_encode (s : string) : string :=
  match s with
  | EmptyString => EmptyString
  | String a s' =>
      String (hex_digit (nat_of_ascii a / 16)) (String (hex_digit (nat_of_ascii a mod 16)) (hex_encode s'))
  end.

Definition hex_value (a : ascii) : option nat :=
  let n := nat_of_ascii a in
  if byte_in "0" "9" a then Some (n - 48)
  else if byte_in "a" "f" a then Some (n - 87)
  else if byte_in "A" "F" a then Some (n - 55)
  else None.

(** [hex.DecodeString]: [None] on an odd length or a byte that is no digit. *)
Fixpoint hex_decode (s : string) : option string :=
  match s with
  | EmptyString => Some EmptyString
  | String h (String l s') =>
      hv ← hex_value h; lv ← hex_value l; rest ← hex_decode s';
      Some (String (ascii_of_nat (16 * hv + lv)) rest)
  | String _ EmptyString => None
  end.

(** The standard base64 alphabet. *)
Definition b64_char (n : nat) : ascii :=
  if (n <? 26)%nat then ascii_of_nat (65 + n)
  else if (n <? 52)%nat then ascii_of_nat (71 + n)
  else if (n <? 62)%nat then ascii_of_nat (n - 4)
  else if (n =? 62)%nat then "+" else "/".

Definition b64_value (a : ascii) : option nat :=
  let n := nat_of_ascii a in
  if is_upper a then Some (n - 65)
  else if is_lower a then Some (n - 71)
  else if is_digit a then Some (n + 4)
  else if bool_decide (a = "+"%char) then Some 62
  else if bool_decide (a = "/"%char) then Some 63
  else None.

Fixpoint b64_encode (s : string) : string :=
  match s with
  | String a (String b (String c s')) =>
      let x := nat_of_ascii a in let y := nat_of_ascii b in let z := nat_of_ascii c in
      String (b64_char (x / 4)) (String (b64_char (x mod 4 * 16 + y / 16))
        (String (b64_char (y mod 16 * 4 + z / 64)) (String (b64_char (z mod 64)) (b64_encode s'))))
  | String a (String b EmptyString) =>
      let x := nat_of_ascii a in let y := nat_of_ascii b in
      String (b64_char (x / 4)) (String (b64_char (x mod 4 * 16 + y / 16))
        (String (b64_char (y mod 16 * 4)) "="))
  | String a EmptyString =>
      let x := nat_of_ascii a in
      String (b64_char (x / 4)) (String (b64_char (x mod 4 * 16)) "==")
  | EmptyString => EmptyString
  end.

(** The decoder skips carriage returns and line feeds anywhere in the input. *)
Fixpoint drop_newlines (s : string) : string :=
  match s with
  | EmptyString => EmptyString
  | String a s' =>
      if bool_decide (a = ascii_of_nat 10) || bool_decide (a = ascii_of_nat 13)
      then drop_newlines s' else String a (drop_newlines s')
  end.

Fixpoint b64_decode_quanta (s : string) : option string :=
  match s with
  | EmptyString => Some EmptyString
  | String c1 (String c2 (String c3 (String c4 s'))) =>
      v1 ← b64_value c1; v2 ← b64_value c2;
      let b1 := ascii_of_nat (v1 * 4 + v2 / 16) in
      if bool_decide (c3 = "="%char) then
        if bool_decide (c4 = "="%char) then
          match s' with EmptyString => Some (String b1 EmptyString) | _ => None end
        else None
      else
        v3 ← b64_value c3;
        let b2 := ascii_of_nat (v2 mod 16 * 16 + v3 / 4) in
        if bool_decide (c4 = "="%char) then
          match s' with EmptyString => Some (String b1 (String b2 EmptyString)) | _ => None end
        else
          v4 ← b64_value c4; rest ← b64_decode_quanta s';
          Some (String b1 (String b2 (String (ascii_of_nat (v3 mod 4 * 64 + v4)) rest)))
  | _ => None
  end.

(** [base64.StdEncoding.DecodeString] *)
Definition b64_decode (s : string) : option string := b64_decode_quanta (drop_newlines s).

(** ** Round trips *)

Lemma hex_pair a :
  hex_value (hex_digit (nat_of_ascii a / 16)) = Some (nat_of_ascii a / 16) ∧
  hex_value (hex_digit (nat_of_ascii a mod 16)) = Some (nat_of_ascii a mod 16).
Proof. destruct a as [[] [] [] [] [] [] [] []]; by vm_compute. Qed.

Lemma hex_decode_encode (s : string) : hex_decode (hex_encode s) = Some s.
Proof.
  induction s as [|a s IH]; [done|]. cbn [hex_encode hex_decode].
  destruct (hex_pair a) as [-> ->]; cbn [mbind option_bind]. rewrite IH; cbn [mbind option_bind].
  by rewrite <- Nat.div_mod_eq, ascii_nat_embedding.
Qed.

Lemma b64_value_char n : n < 64 → b64_value (b64_char n) = Some n.
Proof.
  intros Hn. do 64 (destruct n as [|n]; [by vm_compute|]). lia.
Qed.

Lemma b64_char_plain n :
  n < 64 → b64_char n ≠ "="%char ∧ b64_char n ≠ ascii_of_nat 10 ∧ b64_char n ≠ ascii_of_nat 13.
Proof. intros Hn. do 64 (destruct n as [|n]; [by vm_compute|]). lia. Qed.

Lemma byte_bound a : nat_of_ascii a < 256.
Proof. apply nat_ascii_bounded. Qed.

Lemma b64_encode_no_newline_step n (s : string) :
  n < 64 → drop_newlines (String (b64_char n) s) = String (b64_char n) (drop_newlines s).
Proof.
  intros Hn. destruct (b64_char_plain n Hn) as (_ & H10 & H13). simpl.
  by rewrite !bool_decide_eq_false_2.
Qed.

(** Strong induction on strings by three bytes at a time. *)
Lemma string_ind3 (P : string → Prop) :
  P EmptyString → (∀ a, P (String a EmptyString)) → (∀ a b, P (String a (String b EmptyString))) →
  (∀ a b c s, P s → P (String a (String b (String c s)))) → ∀ s, P s.
Proof.
  intros H0 H1 H2 H3 s.
  enough (P s ∧ (∀ a, P (String a s)) ∧ (∀ a b, P (String a (String b s)))) as [? _]; [done|].
  induction s as [|x s (IH1 & IH2 & IH3)]; [done|]. split_and!; auto.
Qed.

Ltac sextets :=
  repeat match goal with
  | |- context [nat_of_ascii ?a] =>
      let n := fresh "n" in let H := fresh "H" in
      pose proof (byte_bound a) as H; remember (nat_of_ascii a) as n
  end.

Lemma div64_bound n : n < 256 → n / 4 < 64.
Proof. intros. apply Nat.Div0.div_lt_upper_bound. lia. Qed.

Lemma mid1_bound x y : y < 256 → x mod 4 * 16 + y / 16 < 64.
Proof.
  intros. pose proof (Nat.mod_upper_bound x 4 ltac:(lia)).
  assert (y / 16 < 16) by (apply Nat.Div0.div_lt_upper_bound; lia). lia.
Qed.

Lemma mid2_bound y z : z < 256 → y mod 16 * 4 + z / 64 < 64.
Proof.
  intros. pose proof (Nat.mod_upper_bound y 16 ltac:(lia)).
  assert (z / 64 < 4) by (apply Nat.Div0.div_lt_upper_bound; lia). lia.
Qed.

Lemma split_hi x k : x / 4 * 4 + (x mod 4 * 16 + k) / 16 = x + k / 16.
Proof.
  replace (x mod 4 * 16 + k) with (k + x mod 4 * 16) by lia.
  rewrite Nat.div_add by lia. rewrite (Nat.div_mod_eq x 4) at 3. lia.
Qed.

Lemma split_mid x y k : y < 256 → k < 4 → (x mod 4 * 16 + y / 16) mod 16 * 16 + (y mod 16 * 4 + k) / 4 = y.
Proof.
  intros Hy Hk.
  assert (y / 16 < 16) by (apply Nat.Div0.div_lt_upper_bound; lia).
  replace (x mod 4 * 16 + y / 16) with (y / 16 + x mod 4 * 16) by lia.
  rewrite Nat.Div0.mod_add, (Nat.mod_small (y / 16)) by lia.
  replace (y mod 16 * 4 + k) with (k + y mod 16 * 4) by lia.
  rewrite Nat.div_add, (Nat.div_small k) by lia. pose proof (Nat.div_mod_eq y 16). lia.
Qed.

Lemma split_lo y z : z < 256 → (y mod 16 * 4 + z / 64) mod 4 * 64 + z mod 64 = z.
Proof.
  intros Hz. assert (z / 64 < 4) by (apply Nat.Div0.div_lt_upper_bound; lia).
  replace (y mod 16 * 4 + z / 64) with (z / 64 + y mod 16 * 4) by lia.
  rewrite Nat.Div0.mod_add, (Nat.mod_small (z / 64)) by lia.
  pose proof (Nat.div_mod_eq z 64). lia.
Qed.

Lemma quanta_end1 a : b64_decode_quanta (b64_encode (String a EmptyString)) = Some (String a EmptyString).
Proof. destruct a as [[] [] [] [] [] [] [] []]; by vm_compute. Qed.

Lemma quanta_end2 a b :
  b64_decode_quanta (b64_encode (String a (String b EmptyString))) = Some (String a (String b EmptyString)).
Proof.
  pose proof (byte_bound a) as Ha. pose proof (byte_bound b) as Hb.
  assert (Hm : nat_of_ascii b mod 16 * 4 < 64) by (pose proof (Nat.mod_upper_bound (nat_of_ascii b) 16); lia).
  cbn [b64_encode b64_decode_quanta].
  rewrite !b64_value_char by auto using div64_bound, mid1_bound; cbn [mbind option_bind].
  destruct (b64_char_plain (nat_of_ascii b mod 16 * 4) Hm) as (Hne & _).
  rewrite (bool_decide_eq_false_2 (b64_char _ = _)) by done.
  rewrite split_hi, (Nat.div_small (nat_of_ascii b / 16) 16), Nat.add_0_r, ascii_nat_embedding
    by (apply Nat.Div0.div_lt_upper_bound; lia).
  pose proof (split_mid (nat_of_ascii a) (nat_of_ascii b) 0 ltac:(lia) ltac:(lia)) as Hs.
  rewrite Nat.add_0_r in Hs. rewrite Hs, ascii_nat_embedding. done.
Qed.

Lemma quanta_group a b c (s t : string) :
  b64_decode_quanta t = Some s →
  b64_decode_quanta
    (String (b64_char (nat_of_ascii a / 4))
      (String (b64_char (nat_of_ascii a mod 4 * 16 + nat_of_ascii b / 16))
        (String (b64_char (nat_of_ascii b mod 16 * 4 + nat_of_ascii c / 64))
          (String (b64_char (nat_of_ascii c mod 64)) t)))) =
  Some (String a (String b (String c s))).
Proof.
  intros Ht. pose proof (byte_bound a). pose proof (byte_bound b). pose proof (byte_bound c).
  assert (Hm : nat_of_ascii c mod 64 < 64) by (apply Nat.mod_upper_bound; lia).
  assert (Hq : nat_of_ascii c / 64 < 4) by (apply Nat.Div0.div_lt_upper_bound; lia).
  assert (Hn := mid2_bound (nat_of_ascii b) (nat_of_ascii c) ltac:(lia)).
  cbn [b64_decode_quanta].
  rewrite !b64_value_char by auto using div64_bound, mid1_bound; cbn [mbind option_bind].
  rewrite !(bool_decide_eq_false_2 (b64_char _ = _)) by (by apply b64_char_plain).
  cbn [mbind option_bind]. rewrite Ht; cbn [mbind option_bind].
  rewrite split_hi, (Nat.div_small (nat_of_ascii b / 16) 16), Nat.add_0_r
    by (apply Nat.Div0.div_lt_upper_bound; lia).
  by rewrite split_mid, split_lo, !ascii_nat_embedding by lia.
Qed.

Lemma quanta_encode (s : string) : b64_decode_quanta (b64_encode s) = Some s.
Proof.
  induction s as [|a|a b|a b c s IH] using string_ind3; [done| | |].
  - apply quanta_end1.
  - apply quanta_end2.
  - by apply quanta_group.
Qed.

(** No character the encoder writes is a line break. *)
Lemma encode_no_newline (s : string) : drop_newlines (b64_encode s) = b64_encode s.
Proof.
  induction s as [|a|a b|a b c s IH] using string_ind3; [done| | |]; cbn [b64_encode].
  - pose proof (byte_bound a).
    assert (nat_of_ascii a mod 4 * 16 < 64) by (pose proof (Nat.mod_upper_bound (nat_of_ascii a) 4); lia).
    by rewrite !b64_encode_no_newline_step by auto using div64_bound.
  - pose proof (byte_bound a). pose proof (byte_bound b).
    pose proof (mid2_bound (nat_of_ascii b) 0 ltac:(lia)) as Hb. rewrite Nat.Div0.div_0_l, Nat.add_0_r in Hb.
    by rewrite !b64_encode_no_newline_step by auto using div64_bound, mid1_bound.
  - pose proof (byte_bound a). pose proof (byte_bound b). pose proof (byte_bound c).
    assert (nat_of_ascii c mod 64 < 64) by (apply Nat.mod_upper_bound; lia).
    by rewrite !b64_encode_no_newline_step, IH by auto using div64_bound, mid1_bound, mid2_bound.
Qed.

Lemma b64_decode_encode (s : string) : b64_decode (b64_encode s) = Some s.
Proof. unfold b64_decode. by rewrite encode_no_newline, quanta_encode. Qed.

Lemma hex_encode_nonempty s : s ≠ "" → hex_encode s ≠ "".
Proof. by destruct s. Qed.

#[export] Hint Rewrite hex_decode_encode b64_decode_encode : clipfan.

(** ** What is encoded is ASCII, so JSON carries it unchanged *)

Lemma hex_digit_ascii n : n < 16 → in_range 0 127 (hex_digit n) = true.
Proof. intros. do 16 (destruct n as [|n]; [by vm_compute|]). lia. Qed.

Lemma hex_encode_ascii s : forall_bytes (in_range 0 127) (hex_encode s) = true.
Proof.
  induction s as [|a s IH]; [done|]. cbn [hex_encode forall_bytes].
  pose proof (byte_bound a).
  rewrite !hex_digit_ascii, IH; [done|apply Nat.mod_upper_bound; lia|apply Nat.Div0.div_lt_upper_bound; lia].
Qed.

Lemma b64_encode_ascii s : forall_bytes (in_range 0 127) (b64_encode s) = true.
Proof.
  assert (Hc : ∀ n, n < 64 → in_range 0 127 (b64_char n) = true)
    by (intros n Hlt; do 64 (destruct n as [|n]; [by vm_compute|]); lia).
  assert (Hm : ∀ x k, k ≠ 0 → x mod k < k) by (intros; by apply Nat.mod_upper_bound).
  induction s as [|a|a b|a b c s IH] using string_ind3; [done| | |]; cbn [b64_encode forall_bytes].
  - pose proof (byte_bound a). rewrite !Hc; [done| |]; [specialize (Hm (nat_of_ascii a) 4); lia|by apply div64_bound].
  - pose proof (byte_bound a). pose proof (byte_bound b).
    rewrite !Hc; [done| | |]; [specialize (Hm (nat_of_ascii b) 16); lia|by apply mid1_bound|by apply div64_bound].
  - pose proof (byte_bound a). pose proof (byte_bound b). pose proof (byte_bound c). rewrite !Hc, IH; [done| | | |].
    + specialize (Hm (nat_of_ascii c) 64); lia.
    + by apply mid2_bound.
    + by apply mid1_bound.
    + by apply div64_bound.
Qed.

Lemma hex_encode_json s : json_text (hex_encode s) = hex_encode s.
Proof. apply ascii_json_text, hex_encode_ascii. Qed.

Lemma b64_encode_json s : json_text (b64_encode s) = b64_encode s.
Proof. apply ascii_json_text, b64_encode_ascii. Qed.
