(* ===== verification/Seen.v ===== *)
(** * daemon/seen.go: the bounded clip-ID set behind mesh dedup

    [seenSet] keeps a membership map and the insertion order; [add] evicts the
    oldest ID beyond [seenCap].  The specification module [Window] is a plain
    bounded queue of distinct IDs; [seen_wf] ties the two together and every
    operation refines its queue counterpart. *)
From S2P Require Import Prelude GoStrings.

Definition seenCap : nat := 256.

Record seenSet := SeenSet {
  members : gset string;
  order : list string;
}.

Definition newSeenSet : seenSet := SeenSet ∅ [].

Definition has (s : seenSet) (id : string) : bool := bool_decide (id ∈ members s).

Definition add (s : seenSet) (id : string) : seenSet :=
  if has s id then s
  else
    let m := {[id]} ∪ members s in
    let o := order s ++ [id] in
    if (seenCap <? length o)%nat then
      match o with
      | oldest :: rest => SeenSet (m ∖ {[oldest]}) rest
      | [] => SeenSet m o
      end
    else SeenSet m o.

Definition add_all (s : seenSet) (ids : list string) : seenSet := foldl add s ids.

(** ** Specification: a bounded queue of distinct IDs *)

Module Window.

Definition push (w : list string) (id : string) : list string :=
  if bool_decide (id ∈ w) then w
  else drop (S (length w) - seenCap) (w ++ [id]).

Definition push_all (w : list string) (ids : list string) : list string := foldl push w ids.

End Window.

(** The representation invariant: the map and the order list hold the same IDs,
    each once, and never more than [seenCap] of them. *)
Record seen_wf (s : seenSet) : Prop := {
  wf_members : members s = list_to_set (order s);
  wf_nodup : NoDup (order s);
  wf_cap : length (order s) ≤ seenCap;
}.

Lemma has_order s id : seen_wf s → has s id = bool_decide (id ∈ order s).
Proof.
  intros Hwf. unfold has. apply bool_decide_ext.
  rewrite (wf_members _ Hwf). apply elem_of_list_to_set.
Qed.

Lemma has_true s id : seen_wf s → has s id = true ↔ id ∈ order s.
Proof. intros. rewrite has_order by done. apply bool_decide_eq_true. Qed.

Lemma has_false s id : seen_wf s → has s id = false ↔ id ∉ order s.
Proof. intros. rewrite has_order by done. apply bool_decide_eq_false. Qed.

Lemma newSeenSet_wf : seen_wf newSeenSet.
Proof. split; simpl; [done|constructor|lia]. Qed.

Lemma snoc_nodup (l : list string) id : NoDup l → id ∉ l → NoDup (l ++ [id]).
Proof.
  intros. apply NoDup_app; split; [done|]. split; [|apply NoDup_singleton].
  intros x Hx ->%list_elem_of_singleton. done.
Qed.

(** One [add] is one [push] on the queue of remembered IDs. *)
Lemma add_push s id : seen_wf s → order (add s id) = Window.push (order s) id.
Proof.
  intros Hwf. unfold add, Window.push. rewrite (has_order s id Hwf).
  case_bool_decide; [done|]. pose proof (wf_cap _ Hwf). unfold seenCap in *.
  destruct (256 <? length (order s ++ [id]))%nat eqn:E; bool_prop; rewrite length_app in E; simpl in E.
  - replace (S (length (order s)) - 256) with 1 by lia.
    by destruct (order s ++ [id]).
  - by replace (S (length (order s)) - 256) with 0 by lia.
Qed.

Lemma add_wf s id : seen_wf s → seen_wf (add s id).
Proof.
  intros Hwf. unfold add. destruct (has s id) eqn:Hhas; [done|].
  apply (has_false _ _ Hwf) in Hhas.
  pose proof (snoc_nodup _ _ (wf_nodup _ Hwf) Hhas) as Hnd.
  pose proof (wf_cap _ Hwf) as Hcap.
  assert (Hset : {[id]} ∪ members s = list_to_set (order s ++ [id]))
    by (rewrite (wf_members _ Hwf), list_to_set_app_L; set_solver).
  assert (Hlen : length (order s ++ [id]) = S (length (order s)))
    by (rewrite length_app; simpl; lia).
  destruct (seenCap <? length (order s ++ [id]))%nat eqn:E; bool_prop.
  - destruct (order s ++ [id]) as [|oldest rest]; [done|]. simpl in *.
    apply NoDup_cons in Hnd as [Hnotin Hnd'].
    split; simpl; [|done|lia]. rewrite Hset. set_solver.
  - split; simpl; [done..|lia].
Qed.

#[export] Hint Resolve newSeenSet_wf add_wf : clipfan.

Lemma add_all_wf s ids : seen_wf s → seen_wf (add_all s ids).
Proof. revert s. induction ids; simpl; eauto with clipfan. Qed.

Lemma elem_of_push w id x : x ∈ Window.push w id → x ∈ w ∨ x = id.
Proof.
  unfold Window.push. case_bool_decide; [by left|].
  intros Hx%(subseteq_drop _ _ _). set_solver.
Qed.

Lemma push_self w id : id ∈ Window.push w id.
Proof.
  unfold Window.push. case_bool_decide; [done|].
  rewrite drop_app_le by (unfold seenCap; lia). set_solver.
Qed.

Lemma has_add_self s id : seen_wf s → has (add s id) id = true.
Proof. intros. rewrite has_true by auto with clipfan. rewrite add_push by done. apply push_self. Qed.

Lemma has_add_other s id x :
  seen_wf s → has (add s id) x = true → has s x = true ∨ x = id.
Proof.
  intros Hwf. rewrite !has_true, add_push by auto with clipfan. apply elem_of_push.
Qed.

(** An ID [k] places from the back is still in the queue after fewer pushes than
    the room left before it. *)
Lemma push_suffix w id pre x suf :
  w = pre ++ x :: suf → S (length suf) < seenCap →
  ∃ pre' suf', Window.push w id = pre' ++ x :: suf' ∧ length suf' ≤ S (length suf).
Proof.
  intros -> Hlt. unfold Window.push. case_bool_decide.
  { exists pre, suf. split; [done|lia]. }
  rewrite <- app_assoc, <- app_comm_cons.
  unfold seenCap in *.
  rewrite drop_app_le by (rewrite ?length_app; simpl; lia).
  eexists _, (suf ++ [id]). split; [done|]. rewrite length_app; simpl; lia.
Qed.

Lemma push_all_window w ids pre x suf :
  w = pre ++ x :: suf → length suf + length ids < seenCap →
  x ∈ Window.push_all w ids.
Proof.
  revert w pre suf. induction ids as [|id ids IH]; intros w pre suf -> Hlt; simpl in *.
  { set_solver. }
  destruct (push_suffix _ id pre x suf eq_refl) as (pre' & suf' & Heq & Hle); [lia|].
  rewrite Heq. eapply IH; [done|lia].
Qed.

Lemma add_all_push s ids :
  seen_wf s → order (add_all s ids) = Window.push_all (order s) ids.
Proof.
  revert s. induction ids as [|id ids IH]; intros s Hwf; simpl; [done|].
  rewrite IH by auto with clipfan. by rewrite add_push.
Qed.

(** ** Properties *)

(** Refinement of the bounded queue: from a fresh set, after any sequence of
    [add]s, the two halves of [seenSet] agree, hold each ID once, never exceed
    [seenCap], and the remembered IDs are exactly what the queue specification
    holds. *)
Theorem seenSet_refines_window (ids : list string) :
  seen_wf (add_all newSeenSet ids) ∧
  (∀ id, has (add_all newSeenSet ids) id = bool_decide (id ∈ Window.push_all [] ids)) ∧
  size (members (add_all newSeenSet ids)) ≤ seenCap.
Proof.
  pose proof (add_all_wf _ ids newSeenSet_wf) as Hwf. split; [done|]. split.
  - intros id. rewrite has_order by done. by rewrite add_all_push by auto with clipfan.
  - rewrite (wf_members _ Hwf), size_list_to_set by apply Hwf. apply Hwf.
Qed.

(** Retention: an ID that was just added to a well-formed set is still
    recognised after any [seenCap - 1] further additions (and fewer), so a clip
    cannot be re-applied under its own ID inside that window. *)
Theorem seen_retained (s : seenSet) (id : string) (later : list string)
    (Hwf : seen_wf s) (Hfresh : has s id = false) (Hfew : length later < seenCap) :
  has (add_all (add s id) later) id = true.
Proof.
  rewrite has_true by auto using add_all_wf with clipfan.
  rewrite add_all_push, add_push by auto with clipfan.
  rewrite has_false in Hfresh by done.
  unfold Window.push. rewrite bool_decide_eq_false_2 by done.
  rewrite drop_app_le by (unfold seenCap; lia).
  eapply push_all_window; [done|simpl; lia].
Qed.

Lemma seen_retained_witness :
  seen_wf newSeenSet ∧ has (add_all (add newSeenSet "a") ["b"; "c"; "a"; "d"]) "a" = true.
Proof.
  split; [apply newSeenSet_wf|].
  apply (seen_retained newSeenSet "a" ["b"; "c"; "a"; "d"]);
    [apply newSeenSet_wf|reflexivity|unfold seenCap; simpl; lia].
Defined.
