(* ===== verification/Clip.v ===== *)
(** * internal/clipboard: clip contents, and transport/current.go

    [Content] is the value every other component passes around; [New] stamps the
    content hash.  The cryptographic primitives of Go's standard library are an
    interface, the class [Crypto], with the two laws of AES-GCM the code relies
    on in [CryptoLaws].  [CurrentPayload] is the JSON view of the current clip
    served and accepted by the local endpoints. *)
From S2P Require Import Prelude GoStrings.
From Stdlib Require Import Ascii String.
From stdpp Require Import strings.

(** ** Cryptographic primitives (crypto/sha256, crypto/hmac, crypto/aes+cipher) *)

Class Crypto := {
  sha256 : string → string;
  hmac_sha256 : string → string → string;
  gcm_seal : string → string → string → string;
  gcm_open : string → string → string → option string;
}.

(** What the standard library documents: a digest has 32 bytes, and opening what
    was sealed with the same key and nonce gives the plaintext back. *)
Class CryptoLaws `{Crypto} : Prop := {
  sha256_len s : len (sha256 s) = 32;
  hmac_len k m : len (hmac_sha256 k m) = 32;
  gcm_open_seal k n p : gcm_open k n (gcm_seal k n p) = Some p;
}.

Definition gcm_NonceSize : nat := 12.

(** ** Clip kinds and contents *)

(** [Kind] is a Go string type: any string can arrive off the wire. *)
Definition Kind := string.

Definition KindText : Kind := "text".

Definition KindImage : Kind := "image".

Record Content := MkContent {
  ID : string;
  ckind : Kind;
  Bytes : string;
  Hash : string;
  TS : time;
  Concealed : bool;
}.

Definition is_image (c : Content) : bool := bool_decide (ckind c = KindImage).

Definition New `{Crypto} (kind : Kind) (body : string) (ts : time) : Content :=
  MkContent "" kind body (sha256 body) ts false.

(** The zero [clipboard.Content{}]. *)
Definition zero_content : Content := MkContent "" "" "" "" zero_time false.

Definition with_id (c : Content) (id : string) : Content :=
  MkContent id (ckind c) (Bytes c) (Hash c) (TS c) (Concealed c).

Definition with_concealed (c : Content) (b : bool) : Content :=
  MkContent (ID c) (ckind c) (Bytes c) (Hash c) (TS c) b.

Global Instance content_eq_dec : EqDecision Content.
Proof. solve_decision. Defined.

(** ** clipboard/selection.go *)

Inductive backendKind := backendWayland | backendXclip | backendHeadless.

Definition chooseBackend (waylandDisplay x11Display : string) (have : string → bool) : backendKind :=
  if negb (bool_decide (waylandDisplay = "")) && have "wl-paste" then backendWayland
  else if negb (bool_decide (x11Display = "")) && have "xclip" then backendXclip
  else backendHeadless.

(** ** transport/current.go *)

Record CurrentPayload := MkCurrentPayload {
  HasCurrent : bool;
  NullReason : string;
  cp_ID : string;
  cp_Kind : Kind;
  cp_Body : string;
  cp_TS : time;
  cp_Origin : string;
}.

Definition CurrentPayloadFromContent (content : Content) (origin : string) : CurrentPayload :=
  MkCurrentPayload true "" (ID content) (ckind content) (Bytes content) (TS content) origin.

Definition NoCurrentPayload (reason : string) : CurrentPayload :=
  let reason := if bool_decide (reason = "") then "no_visible_current" else reason in
  MkCurrentPayload false reason "" "" "" zero_time "".

(** [CurrentPayload.Content]: the content and whether there is one, or an error. *)
Definition payload_Content `{Crypto} (p : CurrentPayload) : result string (Content * bool) :=
  if negb (HasCurrent p) then Ok (zero_content, false)
  else if bool_decide (cp_ID p = "") || IsZero (cp_TS p) then Err "invalid current payload"
  else if bool_decide (cp_Kind p = KindText) || bool_decide (cp_Kind p = KindImage) then
    Ok (with_id (New (cp_Kind p) (cp_Body p) (cp_TS p)) (cp_ID p), true)
  else Err "invalid current kind".

(** A content as the daemon builds them: the hash is that of the bytes. *)
Definition hashed `{Crypto} (c : Content) : Prop := Hash c = sha256 (Bytes c).

(** ** Lemmas and properties *)

Lemma New_hashed `{Crypto} k b ts : hashed (New k b ts).
Proof. done. Qed.

Lemma payload_Content_hashed `{Crypto} p c : payload_Content p = Ok (c, true) → hashed c.
Proof. unfold payload_Content. intros H'. go_cases. done. Qed.

#[export] Hint Resolve New_hashed payload_Content_hashed : clipfan.

(** The current-clip payload the gateway publishes decodes to the very clip it
    was built from: same ID, kind, bytes, hash and timestamp, and never
    concealed. The payload carries no concealed flag, so this is the place where
    a concealed clip would lose it; only unconcealed clips are visible. *)
Theorem current_payload_roundtrip `{Crypto} (c : Content) (origin : string)
    (Hhash : hashed c) (Hid : ID c ≠ "") (Hts : TS c ≠ zero_time)
    (Hkind : ckind c = KindText ∨ ckind c = KindImage) (Hvis : Concealed c = false) :
  payload_Content (CurrentPayloadFromContent c origin) = Ok (c, true).
Proof.
  unfold payload_Content, hashed, IsZero, zero_time in *; simpl.
  rewrite !bool_decide_eq_false_2 by done; simpl.
  replace (bool_decide (ckind c = KindText) || bool_decide (ckind c = KindImage)) with true
    by (symmetry; apply orb_true_iff; destruct Hkind; [left|right]; by apply bool_decide_eq_true).
  by destruct c; simplify_eq/=.
Qed.

(** ** A concrete instance, for evaluating the definitions

    Digests are the last 32 bytes of the padded input, and a sealed text carries
    its key and nonce in front, so that another key or nonce does not open it. *)

Fixpoint zeros (n : nat) : string :=
  match n with 0 => "" | S k => String "0"%char (zeros k) end.

Definition pad32 (s : string) : string := String.substring (len s) 32 (zeros 32 +:+ s).

Definition toy_crypto : Crypto :=
  {| sha256 := pad32; hmac_sha256 := λ k m, pad32 (k +:+ m);
     gcm_seal := λ k n p, k +:+ n +:+ p;
     gcm_open := λ k n c, if HasPrefix c (k +:+ n) then Some (TrimPrefix c (k +:+ n)) else None |}.

Lemma toy_laws : @CryptoLaws toy_crypto.
Proof.
  assert (Hpad : ∀ s, len (pad32 s) = 32).
  { intros s. unfold pad32. rewrite len_substring, len_app. change (len (zeros 32)) with 32. lia. }
  constructor; [intros; apply Hpad|intros; apply Hpad|]. intros k n p. cbn [gcm_open gcm_seal toy_crypto].
  rewrite <- sapp_assoc, HasPrefix_app, TrimPrefix_app. done.
Qed.

Lemma current_payload_roundtrip_witness :
  let c := MkContent "id1" KindText "hello" (pad32 "hello") second false in
  @payload_Content toy_crypto (CurrentPayloadFromContent c "mac") = Ok (c, true).
Proof.
  intros c.
  apply (@current_payload_roundtrip toy_crypto c "mac"); try done. by left.
Defined.
