(* ===== verification/History.v ===== *)
(** * internal/store/history.go: the clipboard history

    [history.json] is a [HistFile]; reading it gives the entries it parses to,
    nothing when it is missing, or an error when it cannot be read or parsed.
    Writing puts the JSON image of a list there, in which every string went
    through [Utf8.json_text].  The operations take the outcome of the write as
    an argument ([wok]), so each theorem covers the failing case too.  The image
    files that deletions free live in the [images] map (file name to file). *)
From S2P Require Import Prelude GoStrings Utf8 Encoding Clip.
From Stdlib Require Import Ascii String.
From stdpp Require Import strings.

Definition DefaultMaxHistory : Z := 200%Z.

Definition previewLen : nat := 140.

Record HistoryEntry := MkEntry {
  e_ID : string;
  e_Kind : string;
  Preview : string;
  Text : string;
  ImagePath : string;
  SizeBytes : Z;
  Origin : string;
  e_TS : time;
  Pinned : bool;
}.

Global Instance entry_eq_dec : EqDecision HistoryEntry.
Proof. solve_decision. Defined.

(** What [readHistory] finds at the history path. *)
Inductive HistFile :=
| HistMissing
| HistEntries (l : list HistoryEntry)
| HistBad (err : string).

(** A file of the images directory: a regular file, or something [SaveImage]
    refuses (a symlink, a socket). *)
Record ImageFile := MkImage {
  img_bytes : string;
  img_mod : Z;
  img_regular : bool;
}.

Record Store := MkStore {
  hist : HistFile;
  images : gmap string ImageFile;
}.

(** ** Classification and preview *)

(** [\s] of Go's regexp: tab, line feed, form feed, carriage return, space. *)
Definition re_space (a : ascii) : bool :=
  existsb (λ n, bool_decide (a = ascii_of_nat n)) [9; 10; 12; 13; 32].

Fixpoint skip_spaces (s : string) : string :=
  match s with
  | String a s' => if re_space a then skip_spaces s' else s
  | EmptyString => EmptyString
  end.

Definition skip_spaces_end (s : string) : string := String.rev (skip_spaces (String.rev s)).

(** [^\s*https?://\S+\s*$] *)
Definition urlRe (body : string) : bool :=
  let s := skip_spaces_end (skip_spaces body) in
  let rest :=
    if HasPrefix s "https://" then Some (TrimPrefix s "https://")
    else if HasPrefix s "http://" then Some (TrimPrefix s "http://")
    else None in
  match rest with
  | Some r => negb (bool_decide (r = "")) && negb (exists_byte re_space r)
  | None => false
  end.

Definition classify (kind : Kind) (body : string) : string :=
  if bool_decide (kind = KindImage) then "image"
  else if urlRe body then "link"
  else "text".

Definition preview (body imagePath : string) : string :=
  if negb (bool_decide (imagePath = "")) then Base imagePath
  else
    let s := TrimSpace body in
    if (previewLen <? len s)%nat then String.substring 0 previewLen s else s.

(** ** Reading and writing history.json *)

Definition readHistory (st : Store) : result string (list HistoryEntry) :=
  match hist st with
  | HistMissing => Ok []
  | HistEntries l => Ok l
  | HistBad e => Err e
  end.

(** One entry after a JSON round trip. *)
Definition persist (e : HistoryEntry) : HistoryEntry :=
  MkEntry (json_text (e_ID e)) (json_text (e_Kind e)) (json_text (Preview e)) (json_text (Text e))
    (json_text (ImagePath e)) (SizeBytes e) (json_text (Origin e)) (e_TS e) (Pinned e).

(** [wok]: did the directory checks and the atomic write succeed? *)
Definition writeHistory (wok : bool) (list : list HistoryEntry) (st : Store) : result string Store :=
  if wok then Ok (MkStore (HistEntries (persist <$> list)) (images st)) else Err "write history".

(** ** Retention *)

(** [capLimit]: the loaded config's [MaxHistory] when loading worked. *)
Definition capLimit (loaded : option Z) : Z :=
  match loaded with
  | Some n => if (0 <? n)%Z then n else DefaultMaxHistory
  | None => DefaultMaxHistory
  end.

(** The loop of [capTrim]: keep the pinned entries and the first [budget] unpinned. *)
Fixpoint keep_budget (budget : Z) (l : list HistoryEntry) : list HistoryEntry :=
  match l with
  | [] => []
  | e :: l' =>
      if Pinned e then e :: keep_budget budget l'
      else if (0 <? budget)%Z then e :: keep_budget (budget - 1) l'
      else keep_budget budget l'
  end.

Definition pinned_count (l : list HistoryEntry) : Z := Z.of_nat (length (filter (λ e, Is_true (Pinned e)) l)).

Definition capTrim (l : list HistoryEntry) (max : Z) : list HistoryEntry :=
  if (Z.of_nat (length l) <=? max)%Z then l
  else
    let unpinnedBudget := (max - pinned_count l)%Z in
    let unpinnedBudget := if (unpinnedBudget <? 0)%Z then 0%Z else unpinnedBudget in
    keep_budget unpinnedBudget l.

(** ** Operations *)

Definition content_id (c : Content) : string := hex_encode (Hash c).

Definition new_entry (c : Content) (origin imagePath : string) (pinned : bool) : HistoryEntry :=
  let img := bool_decide (ckind c = KindImage) in
  MkEntry (content_id c) (classify (ckind c) (Bytes c)) (preview (Bytes c) imagePath)
    (if img then "" else Bytes c) (if img then imagePath else "")
    (Z.of_nat (len (Bytes c))) origin (TS c) pinned.

(** The pin of the entry the loop of [AppendHistory] drops: the last one wins. *)
Definition prior_pin (id : string) (l : list HistoryEntry) : bool :=
  foldl (λ p e, if bool_decide (e_ID e = id) then Pinned e else p) false l.

Definition without_id (id : string) (l : list HistoryEntry) : list HistoryEntry :=
  filter (λ e, e_ID e ≠ id) l.

Definition AppendHistory (wok : bool) (loaded : option Z) (c : Content) (origin imagePath : string)
    (st : Store) : result string Store :=
  list ← readHistory st;
  let id := content_id c in
  let entry := new_entry c origin imagePath (prior_pin id list) in
  let out := entry :: without_id id list in
  writeHistory wok (capTrim out (capLimit loaded)) st.

(** The order of [LoadHistory]: pinned first, then newest first. *)
Definition entry_less (a b : HistoryEntry) : bool :=
  if bool_decide (Pinned a ≠ Pinned b) then Pinned a else After (e_TS a) (e_TS b).

Definition LoadHistory (limit : Z) (st : Store) : result string (list HistoryEntry) :=
  list ← readHistory st;
  let list := stable_sort entry_less list in
  if (0 <? limit)%Z && (limit <? Z.of_nat (length list))%Z then Ok (take (Z.to_nat limit) list)
  else Ok list.

Definition Recap (wok : bool) (loaded : option Z) (st : Store) : result string Store :=
  list ← readHistory st; writeHistory wok (capTrim list (capLimit loaded)) st.

Definition pin_entry (id : string) (pinned : bool) (e : HistoryEntry) : HistoryEntry :=
  if bool_decide (e_ID e = id) then
    MkEntry (e_ID e) (e_Kind e) (Preview e) (Text e) (ImagePath e) (SizeBytes e) (Origin e) (e_TS e) pinned
  else e.

Definition SetPinned (wok : bool) (id : string) (pinned : bool) (st : Store) : result string Store :=
  list ← readHistory st; writeHistory wok (pin_entry id pinned <$> list) st.

Definition imageFileName (path : string) : string :=
  if bool_decide (path = "") then ""
  else
    let name := Base path in
    if bool_decide (name = ".") || bool_decide (name = "/") then "" else name.

(** The names of the image files some entry of [l] references. *)
Definition image_names (l : list HistoryEntry) : gset string :=
  list_to_set (filter (λ n, n ≠ "") ((λ e, imageFileName (ImagePath e)) <$> l)).

Definition remove_image (referenced : gset string) (imgs : gmap string ImageFile) (e : HistoryEntry) :
    gmap string ImageFile :=
  let name := imageFileName (ImagePath e) in
  if bool_decide (name = "") then imgs
  else if bool_decide (name ∈ referenced) then imgs
  else delete name imgs.

Definition removeUnreferencedImages (removed kept : list HistoryEntry) (imgs : gmap string ImageFile) :
    gmap string ImageFile :=
  foldl (remove_image (image_names kept)) imgs removed.

Definition with_images (st : Store) (imgs : gmap string ImageFile) : Store := MkStore (hist st) imgs.

Definition DeleteEntry (wok : bool) (id : string) (st : Store) : result string Store :=
  list ← readHistory st;
  let out := without_id id list in
  let removed := filter (λ e, e_ID e = id) list in
  st' ← writeHistory wok out st;
  Ok (with_images st' (removeUnreferencedImages removed out (images st'))).

Definition ClearUnpinned (wok : bool) (st : Store) : result string Store :=
  list ← readHistory st;
  let out := filter (λ e, Is_true (Pinned e)) list in
  let removed := filter (λ e, ¬ Is_true (Pinned e)) list in
  st' ← writeHistory wok out st;
  Ok (with_images st' (removeUnreferencedImages removed out (images st'))).

Definition EntryByID (id : string) (st : Store) : result string (option HistoryEntry) :=
  list ← readHistory st; Ok (snd <$> list_find (λ e, e_ID e = id) list).

Definition ReferencedImages (st : Store) : result string (gset string) :=
  list ← readHistory st;
  Ok (list_to_set (Base <$> filter (λ p, p ≠ "") (ImagePath <$> list))).

(** ** Lemmas: retention *)

Definition unpinned (l : list HistoryEntry) : list HistoryEntry := filter (λ e, ¬ Is_true (Pinned e)) l.

Definition pinned (l : list HistoryEntry) : list HistoryEntry := filter (λ e, Is_true (Pinned e)) l.

Lemma keep_budget_sublist b l : keep_budget b l `sublist_of` l.
Proof. revert b. induction l; intros b; simpl; [done|]. repeat case_match; by constructor. Qed.

Lemma keep_budget_pinned b l : pinned (keep_budget b l) = pinned l.
Proof.
  unfold pinned. revert b. induction l as [|e l IH]; intros b; simpl; [done|]. rewrite (filter_cons _ e l).
  destruct (Pinned e) eqn:Hp; simpl; rewrite ?Hp.
  - rewrite filter_cons, Hp; simpl. by rewrite IH.
  - case_match; [rewrite filter_cons, Hp; simpl|]; apply IH.
Qed.

Lemma keep_budget_unpinned b l : unpinned (keep_budget b l) = take (Z.to_nat b) (unpinned l).
Proof.
  unfold unpinned. revert b. induction l as [|e l IH]; intros b; simpl; [by destruct (Z.to_nat b)|].
  rewrite (filter_cons _ e l).
  destruct (Pinned e) eqn:Hp; simpl.
  - rewrite filter_cons, Hp; simpl. apply IH.
  - destruct (0 <? b)%Z eqn:Hb; bool_prop.
    + rewrite filter_cons, Hp; simpl. rewrite IH.
      replace (Z.to_nat b) with (S (Z.to_nat (b - 1))) by lia. done.
    + rewrite IH. by replace (Z.to_nat b) with 0 by lia.
Qed.

Lemma split_length l : length l = length (pinned l) + length (unpinned l).
Proof.
  unfold pinned, unpinned. induction l as [|e l IH]; [done|]. rewrite !filter_cons.
  destruct (Pinned e); simpl in *; lia.
Qed.

Lemma pinned_count_length l : pinned_count l = Z.of_nat (length (pinned l)).
Proof. done. Qed.

Lemma capTrim_sublist l max : capTrim l max `sublist_of` l.
Proof. unfold capTrim. case_match; [done|apply keep_budget_sublist]. Qed.

Lemma capTrim_pinned l max : pinned (capTrim l max) = pinned l.
Proof. unfold capTrim. case_match; [done|apply keep_budget_pinned]. Qed.

Lemma capTrim_unpinned l max :
  unpinned (capTrim l max) = take (Z.to_nat (max - pinned_count l)) (unpinned l).
Proof.
  unfold capTrim. rewrite pinned_count_length. pose proof (split_length l).
  case_match; bool_prop.
  - rewrite take_ge; [done|lia].
  - rewrite keep_budget_unpinned. case_match; bool_prop; [|done].
    f_equal; lia.
Qed.

Lemma capTrim_length l max :
  Z.of_nat (length (capTrim l max)) = Z.min (Z.of_nat (length l)) (Z.max max (pinned_count l)).
Proof.
  rewrite (split_length (capTrim l max)), capTrim_pinned, capTrim_unpinned, length_take, pinned_count_length.
  pose proof (split_length l). lia.
Qed.

#[global] Arguments persist : simpl never.
#[global] Arguments new_entry : simpl never.

(** ** Lemmas: the store invariant *)

Definition ids (l : list HistoryEntry) : list string := e_ID <$> l.

(** A stored history: one entry per content ID, every entry as JSON keeps it. *)
Record hist_wf (l : list HistoryEntry) : Prop := {
  hist_nodup : NoDup (ids l);
  hist_persisted : Forall (λ e, persist e = e) l;
}.

Definition store_wf (st : Store) : Prop := ∀ l, readHistory st = Ok l → hist_wf l.

Lemma persist_idemp e : persist (persist e) = persist e.
Proof. destruct e; unfold persist; simpl. by rewrite !json_text_idemp. Qed.

Lemma hist_wf_sublist l k : l `sublist_of` k → hist_wf k → hist_wf l.
Proof.
  intros Hsub [Hnd Hp]. split.
  - eapply sublist_NoDup; [done|]. by apply sublist_fmap.
  - by eapply Forall_sublist.
Qed.

Lemma persist_id l : Forall (λ e, persist e = e) l → persist <$> l = l.
Proof. induction 1 as [|e l He _ IH]; csimpl; [done|]. by rewrite He, IH. Qed.

Lemma without_id_spec id l : id ∉ ids (without_id id l).
Proof.
  unfold ids, without_id. intros (e & -> & Hin)%list_elem_of_fmap.
  by apply list_elem_of_filter in Hin as [? _].
Qed.

Lemma json_id_new c origin ip p : e_ID (persist (new_entry c origin ip p)) = content_id c.
Proof. unfold persist, new_entry, content_id; cbn. apply hex_encode_json. Qed.

Lemma writeHistory_Ok wok l st st' :
  writeHistory wok l st = Ok st' ↔
  wok = true ∧ st' = MkStore (HistEntries (persist <$> l)) (images st).
Proof. unfold writeHistory. destruct wok; naive_solver. Qed.

Lemma read_written l imgs : readHistory (MkStore (HistEntries l) imgs) = Ok l.
Proof. done. Qed.

Lemma hist_wf_append c origin ip p l :
  hist_wf l → hist_wf (persist (new_entry c origin ip p) :: without_id (content_id c) l).
Proof.
  intros Hwf.
  assert (Hsub : hist_wf (without_id (content_id c) l))
    by (eapply hist_wf_sublist; [apply sublist_filter_l|done]).
  split.
  - unfold ids. rewrite fmap_cons, json_id_new. constructor; [apply without_id_spec|apply Hsub].
  - constructor; [apply persist_idemp|apply Hsub].
Qed.

(** Trimming only looks at the pins, which JSON keeps. *)
Lemma keep_budget_persist b l : persist <$> keep_budget b l = keep_budget b (persist <$> l).
Proof.
  revert b. induction l as [|e l IH]; intros b; [done|]. csimpl.
  destruct (Pinned e); csimpl; [by rewrite IH|]. case_match; csimpl; by rewrite IH.
Qed.

Lemma pinned_count_persist l : pinned_count (persist <$> l) = pinned_count l.
Proof.
  rewrite !pinned_count_length. f_equal. unfold pinned.
  induction l as [|e l IH]; [done|]. csimpl. rewrite !filter_cons. simpl.
  case_decide; simpl; by rewrite IH.
Qed.

Lemma capTrim_persist l max : persist <$> capTrim l max = capTrim (persist <$> l) max.
Proof.
  unfold capTrim. rewrite length_fmap, pinned_count_persist.
  case_match; [done|apply keep_budget_persist].
Qed.

(** What a successful append writes, for a well-formed stored history. *)
Lemma AppendHistory_result wok loaded c origin ip st st' l :
  readHistory st = Ok l → hist_wf l → AppendHistory wok loaded c origin ip st = Ok st' →
  st' = MkStore (HistEntries (capTrim
          (persist (new_entry c origin ip (prior_pin (content_id c) l)) :: without_id (content_id c) l)
          (capLimit loaded))) (images st).
Proof.
  intros Hread Hwf. unfold AppendHistory. rewrite Hread; simpl.
  intros [_ ->]%writeHistory_Ok. do 2 f_equal. rewrite capTrim_persist. csimpl. do 2 f_equal.
  apply persist_id. eapply Forall_sublist; [apply sublist_filter_l|apply Hwf].
Qed.

Lemma capLimit_pos loaded : (0 < capLimit loaded)%Z.
Proof. unfold capLimit, DefaultMaxHistory. repeat case_match; bool_prop; lia. Qed.

Lemma pin_entry_persist id p l :
  Forall (λ e, persist e = e) l → Forall (λ e, persist e = e) (pin_entry id p <$> l).
Proof.
  intros H. apply Forall_fmap. eapply Forall_impl; [done|]. intros e He; simpl in *.
  unfold pin_entry. case_bool_decide; [|done]. unfold persist in *; destruct e; simplify_eq/=. congruence.
Qed.

Lemma pin_entry_ids id p l : ids (pin_entry id p <$> l) = ids l.
Proof.
  unfold ids. rewrite <- list_fmap_compose. apply list_fmap_ext. intros i e _; simpl.
  unfold pin_entry. by case_bool_decide.
Qed.

Lemma hist_wf_pin id p l : hist_wf l → hist_wf (pin_entry id p <$> l).
Proof. intros [Hnd Hp]. split; [by rewrite pin_entry_ids|by apply pin_entry_persist]. Qed.

#[export] Hint Resolve capTrim_sublist keep_budget_sublist hist_wf_sublist hist_wf_append hist_wf_pin : clipfan.

(** ** Operations as a set, and runs of them *)

Inductive store_op :=
| OpAppend (loaded : option Z) (c : Content) (origin imagePath : string)
| OpRecap (loaded : option Z)
| OpPin (id : string) (pinned : bool)
| OpDelete (id : string)
| OpClear.

Definition apply_op (wok : bool) (op : store_op) (st : Store) : result string Store :=
  match op with
  | OpAppend loaded c origin ip => AppendHistory wok loaded c origin ip st
  | OpRecap loaded => Recap wok loaded st
  | OpPin id p => SetPinned wok id p st
  | OpDelete id => DeleteEntry wok id st
  | OpClear => ClearUnpinned wok st
  end.

(** A failed operation leaves history.json as it was: the write is temp-and-rename. *)
Definition step_op (st : Store) (x : bool * store_op) : Store :=
  match apply_op (fst x) (snd x) st with Ok st' => st' | Err _ => st end.

Definition run_ops (st : Store) (ops : list (bool * store_op)) : Store := foldl step_op st ops.

Lemma persist_capTrim_id l max : hist_wf l → persist <$> capTrim l max = capTrim l max.
Proof. intros [_ Hp]. by rewrite capTrim_persist, persist_id. Qed.

Lemma apply_op_wf wok op st st' : store_wf st → apply_op wok op st = Ok st' → store_wf st'.
Proof.
  intros Hwf. unfold store_wf. destruct (readHistory st) as [l|e] eqn:Hread.
  2: { destruct op; simpl; unfold AppendHistory, Recap, SetPinned, DeleteEntry, ClearUnpinned;
       by rewrite Hread. }
  pose proof (Hwf _ Hread) as Hl. destruct op; simpl; intros Hop.
  - rewrite (AppendHistory_result _ _ _ _ _ _ _ _ Hread Hl Hop). intros ? [= <-]. eauto with clipfan.
  - revert Hop. unfold Recap. rewrite Hread; simpl. intros [_ ->]%writeHistory_Ok ? [= <-].
    rewrite persist_capTrim_id by done. eauto with clipfan.
  - revert Hop. unfold SetPinned. rewrite Hread; simpl. intros [_ ->]%writeHistory_Ok ? [= <-].
    rewrite persist_id by (apply hist_wf_pin; done). by apply hist_wf_pin.
  - revert Hop. unfold DeleteEntry. rewrite Hread; simpl. intros (st1 & [_ ->]%writeHistory_Ok & [= <-])%bind_Ok.
    intros ? [= <-]. assert (hist_wf (without_id id l)) by (eapply hist_wf_sublist; [apply sublist_filter_l|done]).
    rewrite persist_id by apply H. done.
  - revert Hop. unfold ClearUnpinned. rewrite Hread; simpl. intros (st1 & [_ ->]%writeHistory_Ok & [= <-])%bind_Ok.
    intros ? [= <-]. assert (hist_wf (pinned l)) by (eapply hist_wf_sublist; [apply sublist_filter_l|done]).
    rewrite persist_id by apply H. done.
Qed.

Lemma step_op_wf st x : store_wf st → store_wf (step_op st x).
Proof. intros Hwf. unfold step_op. case_match eqn:E; [|done]. by eapply apply_op_wf. Qed.

Lemma run_ops_wf st ops : store_wf st → store_wf (run_ops st ops).
Proof. revert st. induction ops; simpl; auto using step_op_wf. Qed.

(** ** Lemmas: lookups, images, order *)

Lemma head_capTrim e l max :
  (0 < max)%Z → Is_true (Pinned e) ∨ (pinned_count l < max)%Z → head (capTrim (e :: l) max) = Some e.
Proof.
  intros Hpos Hroom. unfold capTrim. case_match; [done|]. simpl.
  destruct (Pinned e) eqn:Hp; [done|]. destruct Hroom as [[]|Hroom].
  assert (pinned_count (e :: l) = pinned_count l) as Heq.
  { rewrite !pinned_count_length. unfold pinned. rewrite filter_cons, Hp. done. }
  rewrite Heq. destruct (max - pinned_count l <? 0)%Z eqn:E; bool_prop; [lia|].
  rewrite (proj2 (Z.ltb_lt 0 _)) by lia. done.
Qed.

Lemma list_find_head id e l :
  head l = Some e → e_ID e = id → list_find (λ x, e_ID x = id) l = Some (0, e).
Proof. destruct l; simpl; [done|]. intros [= ->] Heq. by rewrite decide_True. Qed.

Lemma elem_of_image_names n l :
  n ∈ image_names l ↔ n ≠ "" ∧ ∃ e, e ∈ l ∧ n = imageFileName (ImagePath e).
Proof.
  unfold image_names. rewrite elem_of_list_to_set, list_elem_of_filter, list_elem_of_fmap.
  naive_solver.
Qed.

Lemma removeUnreferenced_lookup removed kept imgs n :
  removeUnreferencedImages removed kept imgs !! n =
  if bool_decide (n ∈ image_names removed ∧ n ∉ image_names kept) then None else imgs !! n.
Proof.
  unfold removeUnreferencedImages. revert imgs.
  induction removed as [|e removed IH]; intros imgs; simpl.
  { rewrite bool_decide_eq_false_2; [done|]. set_solver. }
  rewrite IH. unfold remove_image.
  set (name := imageFileName (ImagePath e)).
  assert (Hcons : n ∈ image_names (e :: removed) ↔ (n ≠ "" ∧ n = name) ∨ n ∈ image_names removed).
  { rewrite !elem_of_image_names. set_solver. }
  destruct (decide (name = "")) as [Hn|Hn]; [|destruct (decide (name ∈ image_names kept)) as [Hk|Hk]].
  - rewrite (bool_decide_eq_true_2 (name = "")) by done.
    erewrite bool_decide_ext; [done|]. naive_solver.
  - rewrite (bool_decide_eq_false_2 (name = "")), (bool_decide_eq_true_2 (name ∈ _)) by done.
    erewrite bool_decide_ext; [done|]. naive_solver.
  - rewrite (bool_decide_eq_false_2 (name = "")), (bool_decide_eq_false_2 (name ∈ _)) by done.
    destruct (decide (n = name)) as [->|Hne].
    + rewrite lookup_delete_eq, (bool_decide_eq_true_2 (name ∈ image_names (e :: removed) ∧ _)) by naive_solver.
      by case_bool_decide.
    + rewrite lookup_delete_ne by done. erewrite bool_decide_ext; [done|]. naive_solver.
Qed.

Lemma entry_less_trans x y z :
  entry_less y x = false → entry_less z y = false → entry_less z x = false.
Proof.
  unfold entry_less, After. destruct (Pinned x), (Pinned y), (Pinned z); simpl;
    intros; bool_prop; try done; lia.
Qed.

Lemma entry_less_asym x y : entry_less x y = true → entry_less y x = false.
Proof.
  unfold entry_less, After. destruct (Pinned x), (Pinned y); simpl; intros; bool_prop; try done.
  all: apply Z.ltb_ge; lia.
Qed.

(** ** Properties *)

(** Retention. [capTrim] keeps a subsequence of the list: all the pinned
    entries, the newest [max - pinned] of the unpinned ones (none when the pins
    already reach the cap), and so as many entries as the larger of the cap and
    the pins allow. *)
Theorem capTrim_spec (l : list HistoryEntry) (max : Z) :
  capTrim l max `sublist_of` l ∧
  pinned (capTrim l max) = pinned l ∧
  unpinned (capTrim l max) = take (Z.to_nat (max - pinned_count l)) (unpinned l) ∧
  Z.of_nat (length (capTrim l max)) = Z.min (Z.of_nat (length l)) (Z.max max (pinned_count l)).
Proof.
  auto using capTrim_sublist, capTrim_pinned, capTrim_unpinned, capTrim_length.
Qed.

(** C39. Store invariant. Starting from a host without a history, after any
    sequence of appends, recaps, pins, deletions and clears, any of whose writes
    may fail, history.json holds at most one entry per content ID and only
    entries that a JSON round trip leaves unchanged. *)
Theorem history_invariant (imgs : gmap string ImageFile) (ops : list (bool * store_op)) :
  store_wf (run_ops (MkStore HistMissing imgs) ops).
Proof. apply run_ops_wf. intros l [= <-]. split; constructor. Qed.

(** Re-copying floats an entry instead of duplicating it. After a successful
    append the entry with the clip's content ID, when the list has room for it,
    is the head, carries the new text, origin and timestamp, and keeps the pin
    the dropped entry had; no other entry changes, pinned ones all survive, and
    the list respects the cap. *)
Theorem AppendHistory_spec loaded c origin ip st st' l
    (Hread : readHistory st = Ok l) (Hwf : hist_wf l)
    (Happ : AppendHistory true loaded c origin ip st = Ok st') :
  let id := content_id c in
  let pin := prior_pin id l in
  ∃ l', readHistory st' = Ok l' ∧ images st' = images st ∧
    (∀ e, e ∈ l' → e_ID e ≠ id → e ∈ l) ∧
    (∀ e, e ∈ l → Is_true (Pinned e) → e_ID e ≠ id → e ∈ l') ∧
    (Z.of_nat (length l') ≤ Z.max (capLimit loaded) (pinned_count l'))%Z ∧
    (pin = true ∨ (pinned_count (without_id id l) < capLimit loaded)%Z →
     head l' = Some (persist (new_entry c origin ip pin))).
Proof.
  intros id pin. rewrite (AppendHistory_result _ _ _ _ _ _ _ _ Hread Hwf Happ).
  eexists; split; [done|]. split; [done|]. fold id. fold pin.
  set (full := persist (new_entry c origin ip pin) :: without_id id l).
  split; [|split; [|split]].
  - intros e He Hne. eapply elem_of_sublist in He; [|apply capTrim_sublist].
    apply elem_of_cons in He as [->|He]; [by rewrite json_id_new in Hne|].
    by apply list_elem_of_filter in He as [_ ?].
  - intros e He Hpin Hne. assert (e ∈ pinned (capTrim full (capLimit loaded))) as Hin.
    { rewrite capTrim_pinned. apply list_elem_of_filter; split; [done|]. right.
      by apply list_elem_of_filter. }
    by apply list_elem_of_filter in Hin as [_ ?].
  - rewrite capTrim_length. rewrite (pinned_count_length (capTrim _ _)), capTrim_pinned.
    rewrite pinned_count_length. lia.
  - intros Hroom. apply head_capTrim; [apply capLimit_pos|].
    destruct Hroom as [->|?]; [left|by right]. done.
Qed.

(** What was copied can be restored. After an append with room, looking the
    content ID up gives the new entry, and for a text clip its stored text is the
    clip's bytes exactly when they are valid UTF-8: JSON replaces every other
    byte, and [Restore] would copy the replaced text. *)
Theorem append_then_lookup loaded c origin ip st st' l
    (Hread : readHistory st = Ok l) (Hwf : hist_wf l)
    (Happ : AppendHistory true loaded c origin ip st = Ok st')
    (Hroom : prior_pin (content_id c) l = true ∨
             (pinned_count (without_id (content_id c) l) < capLimit loaded)%Z) :
  ∃ e, EntryByID (content_id c) st' = Ok (Some e) ∧ e_TS e = TS c ∧
    (ckind c ≠ KindImage → (Text e = Bytes c ↔ valid_utf8 (Bytes c) = true)) ∧
    (ckind c = KindImage → ImagePath e = json_text ip).
Proof.
  rewrite (AppendHistory_result _ _ _ _ _ _ _ _ Hread Hwf Happ).
  unfold EntryByID, readHistory; simpl.
  eexists; split.
  { erewrite list_find_head; [done| |apply json_id_new].
    apply head_capTrim; [apply capLimit_pos|]. destruct Hroom as [->|?]; [by left|by right]. }
  unfold persist, new_entry, valid_utf8; simpl. split; [done|]. split; intros Hk.
  - rewrite (bool_decide_eq_false_2 (ckind c = KindImage)) by done. by rewrite bool_decide_eq_true.
  - by rewrite (bool_decide_eq_true_2 (ckind c = KindImage)).
Qed.

(** Deleting an entry removes exactly the entries with that ID, and an image
    file disappears exactly when a removed entry named it and no kept entry does;
    every other image stays as it was. *)
Theorem DeleteEntry_spec id st st' l
    (Hread : readHistory st = Ok l) (Hwf : hist_wf l) (Hdel : DeleteEntry true id st = Ok st') :
  readHistory st' = Ok (without_id id l) ∧
  EntryByID id st' = Ok None ∧
  ∀ n, images st' !! n =
    if bool_decide (n ∈ image_names (filter (λ e, e_ID e = id) l) ∧ n ∉ image_names (without_id id l))
    then None else images st !! n.
Proof.
  revert Hdel. unfold DeleteEntry. rewrite Hread; simpl. intros [= <-].
  assert (Hp : persist <$> without_id id l = without_id id l)
    by (apply persist_id; eapply Forall_sublist; [apply sublist_filter_l|apply Hwf]).
  unfold EntryByID, readHistory; simpl. rewrite Hp. split; [done|]. split.
  - simpl. do 2 f_equal. assert (list_find (λ e, e_ID e = id) (without_id id l) = None) as ->; [|done].
    apply list_find_None, Forall_forall. intros e He Heq.
    apply (without_id_spec id l). rewrite <- Heq at 1. by apply list_elem_of_fmap_2.
  - intros n. apply removeUnreferenced_lookup.
Qed.

(** [LoadHistory] returns the stored entries, reordered only: pinned before
    unpinned, newest first inside each group, entries of equal rank in stored
    order, cut to the first [limit] when a positive limit is given. *)
Theorem LoadHistory_spec (limit : Z) st l (Hread : readHistory st = Ok l) :
  ∃ sorted, sorted ≡ₚ l ∧
    StronglySorted (λ x y, (Is_true (Pinned y) → Is_true (Pinned x)) ∧
                           (Pinned x = Pinned y → (e_TS y ≤ e_TS x)%Z)) sorted ∧
    (∀ p ts, filter (λ e, Pinned e = p ∧ e_TS e = ts) sorted = filter (λ e, Pinned e = p ∧ e_TS e = ts) l) ∧
    LoadHistory limit st =
      Ok (if (0 <? limit)%Z then take (Z.to_nat limit) sorted else sorted).
Proof.
  exists (stable_sort entry_less l). split; [apply stable_sort_perm|]. split; [|split].
  - pose proof (stable_sort_ordered _ entry_less_trans entry_less_asym l) as Hord.
    eapply StronglySorted_impl; [|done]. intros x y. unfold entry_less, After.
    destruct (Pinned x), (Pinned y); simpl; intros; bool_prop; split; intros; try done; lia.
  - intros p ts. apply stable_sort_stable. intros x y [Hx Htx] [Hy Hty].
    unfold entry_less, After. rewrite bool_decide_eq_false_2 by congruence. apply Z.ltb_ge. lia.
  - unfold LoadHistory. rewrite Hread; simpl.
    destruct (0 <? limit)%Z eqn:Hl; simpl; [|done]. case_match; bool_prop; [done|].
    rewrite take_ge; [done|]. lia.
Qed.

(** ** Witnesses *)

Definition demo_clip (body : string) (ts : time) : Content := MkContent "id" KindText body body ts false.

Definition demo_entry (body : string) (ts : time) (pin : bool) : HistoryEntry :=
  persist (new_entry (demo_clip body ts) "mac" "" pin).

Definition demo_store : Store :=
  MkStore (HistEntries [demo_entry "b" 20%Z false; demo_entry "a" 10%Z true]) (<["x.png" := MkImage "png" 1 true]> ∅).

Lemma demo_store_wf : hist_wf [demo_entry "b" 20%Z false; demo_entry "a" 10%Z true].
Proof.
  split.
  - apply (bool_decide_unpack _). by vm_compute.
  - repeat constructor; apply persist_idemp.
Qed.

Lemma AppendHistory_spec_witness :
  ∃ st' l', AppendHistory true None (demo_clip "a" 30%Z) "linux" "" demo_store = Ok st' ∧
    readHistory st' = Ok l' ∧
    head l' = Some (persist (new_entry (demo_clip "a" 30%Z) "linux" "" true)).
Proof.
  destruct (AppendHistory true None (demo_clip "a" 30%Z) "linux" "" demo_store) as [st'|] eqn:Happ;
    [|vm_compute in Happ; discriminate].
  destruct (AppendHistory_spec None (demo_clip "a" 30%Z) "linux" "" demo_store st' _
              eq_refl demo_store_wf Happ) as (l' & Hr & _ & _ & _ & _ & Hhead).
  exists st', l'. split; [reflexivity|]. split; [exact Hr|].
  apply Hhead. left. vm_compute. reflexivity.
Defined.

Lemma append_then_lookup_witness :
  ∃ st' e, AppendHistory true (Some 50%Z) (demo_clip "new text" 40%Z) "linux" "" demo_store = Ok st' ∧
    EntryByID (content_id (demo_clip "new text" 40%Z)) st' = Ok (Some e) ∧ Text e = "new text".
Proof.
  destruct (AppendHistory true (Some 50%Z) (demo_clip "new text" 40%Z) "linux" "" demo_store) as [st'|] eqn:Happ;
    [|vm_compute in Happ; discriminate].
  destruct (append_then_lookup (Some 50%Z) (demo_clip "new text" 40%Z) "linux" "" demo_store st' _
              eq_refl demo_store_wf Happ) as (e & He & _ & Htext & _).
  { right. vm_compute. reflexivity. }
  exists st', e. split; [reflexivity|]. split; [exact He|].
  apply Htext; [discriminate|vm_compute; reflexivity].
Defined.

Lemma DeleteEntry_spec_witness :
  ∃ st', DeleteEntry true (content_id (demo_clip "b" 20%Z)) demo_store = Ok st' ∧
    EntryByID (content_id (demo_clip "b" 20%Z)) st' = Ok None ∧ images st' !! "x.png" = Some (MkImage "png" 1 true).
Proof.
  destruct (DeleteEntry true (content_id (demo_clip "b" 20%Z)) demo_store) as [st'|] eqn:Hdel;
    [|vm_compute in Hdel; discriminate].
  destruct (DeleteEntry_spec _ demo_store st' _ eq_refl demo_store_wf Hdel) as (_ & Hnone & Himg).
  exists st'. split; [reflexivity|]. split; [exact Hnone|].
  rewrite Himg. vm_compute. reflexivity.
Defined.

Lemma LoadHistory_spec_witness :
  ∃ sorted, sorted ≡ₚ [demo_entry "b" 20%Z false; demo_entry "a" 10%Z true] ∧
    LoadHistory 1 demo_store = Ok (take 1 sorted).
Proof.
  destruct (LoadHistory_spec 1 demo_store _ eq_refl) as (sorted & Hperm & _ & _ & Heq).
  exists sorted. split; [exact Hperm|exact Heq].
Defined.
