(* ===== verification/ImageStore.v ===== *)
(** * internal/store: image files, their collection, and the state files

    store.go ([SaveImage], [gc]), imagepath.go ([IsImageStorePath]) and state.go
    ([SaveState], [LoadState], [LoadText]).  [gc] runs in a goroutine of its own,
    so it is a separate operation on the [Store] of [History]; the order in which
    [sort.Slice] leaves files of equal age is not determined by the code, so [gc]
    takes the sorted names and [sorted_by_mod] says what they may be. *)
From S2P Require Import Prelude GoStrings Utf8 Encoding Clip History.
From Stdlib Require Import Ascii String.
From stdpp Require Import strings.

Definition maxImages : Z := 50%Z.

Section store.
Context `{Crypto} (imagesDir : string).

Definition image_name (body : string) : string := hex_encode (sha256 body) +:+ ".png".

Definition image_path (name : string) : string := imagesDir +:+ "/" +:+ name.

(** Outcomes of the file-system calls of [SaveImage]: the two directory checks,
    the permission repair of an existing file, and the atomic write. *)
Record save_io := MkSaveIO {
  dirs_ok : bool;
  chmod_ok : bool;
  write_ok : bool;
  now_mod : Z;
}.

(** The path, the store, and whether the collector was started. *)
Definition SaveImage (io : save_io) (body : string) (st : Store) : result string (string * Store * bool) :=
  if negb (dirs_ok io) then Err "mkdir"
  else
    let name := image_name body in
    let path := image_path name in
    match images st !! name with
    | Some f =>
        if negb (img_regular f) then Err "image file is not a regular file"
        else if negb (chmod_ok io) then Err "chmod"
        else Ok (path, st, false)
    | None =>
        if negb (write_ok io) then Err "write image"
        else Ok (path, with_images st (<[name := MkImage body (now_mod io) true]> (images st)), true)
    end.

(** ** The image collector *)

Definition gc_bound (loaded : option Z) : Z :=
  if (maxImages <? capLimit loaded)%Z then capLimit loaded else maxImages.

(** [referenced, _ := ReferencedImages()]: an unreadable history spares nothing. *)
Definition gc_referenced (st : Store) : gset string :=
  match ReferencedImages st with Ok s => s | Err _ => ∅ end.

Fixpoint gc_loop (referenced : gset string) (rm_ok : string → bool) (toRemove : nat)
    (all : list string) (imgs : gmap string ImageFile) : gmap string ImageFile :=
  match all with
  | [] => imgs
  | name :: rest =>
      match toRemove with
      | 0 => imgs
      | S k =>
          if bool_decide (name ∈ referenced) then gc_loop referenced rm_ok toRemove rest imgs
          else if rm_ok name then gc_loop referenced rm_ok k rest (delete name imgs)
          else gc_loop referenced rm_ok toRemove rest imgs
      end
  end.

(** [sorted]: the file names as [sort.Slice] left them. *)
Definition gc (loaded : option Z) (rm_ok : string → bool) (sorted : list string) (st : Store) : Store :=
  let n := Z.of_nat (size (images st)) in
  let bound := gc_bound loaded in
  if (n <=? bound)%Z then st
  else with_images st (gc_loop (gc_referenced st) rm_ok (Z.to_nat (n - bound)) sorted (images st)).

Definition mod_of (imgs : gmap string ImageFile) (name : string) : Z :=
  match imgs !! name with Some f => img_mod f | None => 0%Z end.

(** Every file once, oldest first. *)
Definition sorted_by_mod (imgs : gmap string ImageFile) (names : list string) : Prop :=
  names ≡ₚ (map_to_list imgs).*1 ∧
  StronglySorted (λ a b, (mod_of imgs a ≤ mod_of imgs b)%Z) names.

(** ** imagepath.go *)

Definition isHex64 (s : string) : bool :=
  (len s =? 64)%nat && forall_bytes (λ a, byte_in "0" "9" a || byte_in "a" "f" a) s.

Definition IsImageStorePath (s : string) (st : Store) : bool :=
  let base := Base (TrimSpace s) in
  let '(name, ok) := CutSuffix base ".png" in
  if negb ok || negb (isHex64 name) then false
  else bool_decide (is_Some (images st !! base)).

End store.

(** ** state.go *)

Record State := MkState {
  s_Kind : string;
  s_TS : time;
  s_ImagePath : string;
}.

Definition zero_State : State := MkState "" zero_time "".

(** A file that is absent, holds a value, or cannot be used. *)
Inductive FileOf (A : Type) :=
| FileMissing
| FileHolds (a : A)
| FileBad (e : string).
Arguments FileMissing {A}.
Arguments FileHolds {A} a.
Arguments FileBad {A} e.

Record StateFiles := MkStateFiles {
  state_json : FileOf State;
  current_txt : FileOf string;
}.

Definition persist_state (s : State) : State :=
  MkState (json_text (s_Kind s)) (s_TS s) (json_text (s_ImagePath s)).

Record state_io := MkStateIO {
  st_dir_ok : bool;
  st_json_ok : bool;
  st_text_ok : bool;
}.

(** The files afterwards, and the error if any: state.json is already new when
    writing current.txt fails. *)
Definition SaveState (io : state_io) (s : State) (text : string) (f : StateFiles) :
    StateFiles * option string :=
  if negb (st_dir_ok io) then (f, Some "state directory")
  else if negb (st_json_ok io) then (f, Some "write state.json")
  else
    let f' := MkStateFiles (FileHolds (persist_state s)) (current_txt f) in
    if negb (st_text_ok io) then (f', Some "write current.txt")
    else (MkStateFiles (state_json f') (FileHolds text), None).

Definition LoadState (f : StateFiles) : result string State :=
  match state_json f with
  | FileMissing => Ok zero_State
  | FileHolds s => Ok s
  | FileBad e => Err e
  end.

Definition LoadText (f : StateFiles) : result string string :=
  match current_txt f with
  | FileMissing => Ok ""
  | FileHolds t => Ok t
  | FileBad e => Err e
  end.

(** ** Lemmas: the collector *)

Section gc_lemmas.
Context (referenced : gset string) (rm_ok : string → bool).

Lemma gc_loop_lookup k all imgs n :
  gc_loop referenced rm_ok k all imgs !! n = imgs !! n ∨
  (gc_loop referenced rm_ok k all imgs !! n = None ∧ n ∈ all ∧ n ∉ referenced).
Proof.
  revert k imgs. induction all as [|x all IH]; intros k imgs; simpl; [by left|].
  destruct k as [|k]; [by left|]. case_bool_decide as Hx; [|destruct (rm_ok x)].
  - destruct (IH (S k) imgs) as [?|(? & ? & ?)]; [by left|right; set_solver].
  - destruct (IH k (delete x imgs)) as [Heq|(? & ? & ?)]; [|right; set_solver].
    rewrite Heq. destruct (decide (n = x)) as [->|].
    + right. rewrite lookup_delete_eq. set_solver.
    + left. by rewrite lookup_delete_ne.
  - destruct (IH (S k) imgs) as [?|(? & ? & ?)]; [by left|right; set_solver].
Qed.

Lemma gc_loop_size k all imgs :
  size imgs ≤ size (gc_loop referenced rm_ok k all imgs) + k.
Proof.
  revert k imgs. induction all as [|x all IH]; intros k imgs; simpl; [lia|].
  destruct k as [|k]; [lia|]. repeat case_match; try apply (IH (S k)).
  specialize (IH k (delete x imgs)). rewrite map_size_delete in IH. destruct (imgs !! x); unfold id in IH; lia.
Qed.

(** The loop takes the unreferenced files from the front: when every removal
    works, it removes exactly the first [k] of them. *)
Lemma gc_loop_take k all imgs :
  (∀ n, rm_ok n = true) →
  gc_loop referenced rm_ok k all imgs =
  foldl (λ m n, delete n m) imgs (take k (filter (λ n, n ∉ referenced) all)).
Proof.
  intros Hrm. revert k imgs. induction all as [|x all IH]; intros k imgs; simpl; [by destruct k|].
  destruct k as [|k]; [by destruct (filter _ _)|].
  rewrite filter_cons. case_bool_decide as Hx.
  - rewrite decide_False by (intros Hn; by apply Hn). apply (IH (S k)).
  - rewrite decide_True, Hrm by done. simpl. apply IH.
Qed.
End gc_lemmas.

Lemma foldl_delete_lookup (l : list string) (m : gmap string ImageFile) n :
  foldl (λ m n, delete n m) m l !! n = if bool_decide (n ∈ l) then None else m !! n.
Proof.
  revert m. induction l as [|x l IH]; intros m; simpl; [done|]. rewrite IH.
  destruct (decide (n = x)) as [->|Hne].
  - rewrite lookup_delete_eq, (bool_decide_eq_true_2 (x ∈ x :: l)) by set_solver. by case_match.
  - rewrite lookup_delete_ne by done. erewrite bool_decide_ext; [done|]. set_solver.
Qed.

Lemma sorted_split (R : string → string → Prop) (l : list string) k a b :
  StronglySorted R l → a ∈ take k l → b ∈ drop k l → R a b.
Proof.
  intros Hs. revert k. induction Hs as [|x l Hl IH Hx]; intros [|k]; simpl; try set_solver.
  intros [->|Ha]%elem_of_cons Hb; [|eauto].
  rewrite Forall_forall in Hx. apply Hx. by eapply subseteq_drop.
Qed.

Lemma StronglySorted_filter (R : string → string → Prop) (P : string → Prop) `{∀ x, Decision (P x)} l :
  StronglySorted R l → StronglySorted R (filter P l).
Proof.
  induction 1 as [|x l Hl IH Hx]; [constructor|]. rewrite filter_cons. case_decide; [|done].
  constructor; [done|]. eapply Forall_sublist; [apply sublist_filter_l|done].
Qed.

Lemma size_foldl_delete (l : list string) (m : gmap string ImageFile) :
  NoDup l → (∀ n, n ∈ l → is_Some (m !! n)) →
  size (foldl (λ m n, delete n m) m l) = size m - length l.
Proof.
  revert m. induction l as [|x l IH]; intros m Hnd Hin; simpl; [lia|].
  apply NoDup_cons in Hnd as [Hx Hnd].
  rewrite IH; [|done|].
  - rewrite map_size_delete. destruct (Hin x) as [f ->]; [set_solver|]. lia.
  - intros n Hn. rewrite lookup_delete_ne by set_solver. apply Hin. set_solver.
Qed.

Lemma sorted_names imgs names :
  sorted_by_mod imgs names → NoDup names ∧ ∀ n, n ∈ names ↔ is_Some (imgs !! n).
Proof.
  intros [Hperm _]. split; [rewrite Hperm; apply NoDup_fst_map_to_list|].
  intros n. rewrite Hperm, list_elem_of_fmap. split.
  - intros ([k f] & -> & Hin). exists f. by apply elem_of_map_to_list.
  - intros [f Hf]. exists (n, f). split; [done|]. by apply elem_of_map_to_list.
Qed.

Lemma gc_bound_ge loaded : (maxImages ≤ gc_bound loaded)%Z.
Proof. unfold gc_bound. case_match; bool_prop; lia. Qed.

Lemma gc_excess loaded st :
  (Z.of_nat (size (images st)) <=? gc_bound loaded)%Z = false →
  ∃ k, Z.to_nat (Z.of_nat (size (images st)) - gc_bound loaded) = k ∧
    (Z.of_nat (size (images st)) = gc_bound loaded + Z.of_nat k)%Z.
Proof. intros; bool_prop. eexists; split; [done|]. lia. Qed.

(** A check of [sorted_by_mod] that evaluates each age once. *)
Fixpoint ascending (l : list Z) : bool :=
  match l with
  | a :: (b :: _) as l' => (a <=? b)%Z && ascending l'
  | _ => true
  end.

Definition sorted_by_mod_b (imgs : gmap string ImageFile) (names : list string) : bool :=
  bool_decide (names ≡ₚ (map_to_list imgs).*1) && ascending (mod_of imgs <$> names).

Lemma ascending_sorted l : ascending l = true → Sorted Z.le l.
Proof.
  induction l as [|a [|b l] IH]; intros Hl; [constructor|repeat constructor|].
  apply andb_true_iff in Hl as [Hab Hl]. constructor; [auto|]. constructor. by apply Z.leb_le.
Qed.

Lemma StronglySorted_fmap_inv {A B} (R : B → B → Prop) (f : A → B) l :
  StronglySorted R (f <$> l) → StronglySorted (λ x y, R (f x) (f y)) l.
Proof.
  induction l as [|x l IH]; intros Hs; [constructor|]. inversion Hs as [|?? Hl Hx]; subst.
  constructor; [auto|]. by rewrite Forall_fmap in Hx.
Qed.

Lemma sorted_by_mod_check imgs names : sorted_by_mod_b imgs names = true → sorted_by_mod imgs names.
Proof.
  unfold sorted_by_mod_b. intros [Hp Ha]%andb_true_iff. split; [by apply bool_decide_eq_true in Hp|].
  apply StronglySorted_fmap_inv, Sorted_StronglySorted; [intros ???; apply Z.le_trans|].
  by apply ascending_sorted.
Qed.

(** ** Lemmas: image paths *)

Definition hex_byte (a : ascii) : bool := byte_in "0" "9" a || byte_in "a" "f" a.

Lemma hex_encode_bytes s : forall_bytes hex_byte (hex_encode s) = true ∧ len (hex_encode s) = 2 * len s.
Proof.
  induction s as [|a s [IH1 IH2]]; [done|]. cbn [hex_encode forall_bytes].
  assert (Hd : ∀ n, n < 16 → hex_byte (hex_digit n) = true)
    by (intros n Hlt; do 16 (destruct n as [|n]; [by vm_compute|]); lia).
  pose proof (byte_bound a).
  rewrite !Hd, IH1; [|apply Nat.mod_upper_bound; lia|apply Nat.Div0.div_lt_upper_bound; lia].
  split; [done|]. unfold len in *; simpl. lia.
Qed.

Lemma image_name_shape `{CryptoLaws} body :
  isHex64 (hex_encode (sha256 body)) = true ∧ has_byte "/" (image_name body) = false ∧
  image_name body ≠ "".
Proof.
  destruct (hex_encode_bytes (sha256 body)) as [Hb Hl]. rewrite sha256_len in Hl.
  unfold isHex64, image_name. split; [|split].
  - rewrite Hl. exact Hb.
  - rewrite has_byte_app. rewrite (has_byte_forall _ _ _ Hb) by done. done.
  - destruct (hex_encode (sha256 body)); done.
Qed.

Lemma TrimSpace_image d n :
  d = "" ∨ (∃ d', d = String "/" d') → TrimSpace (d +:+ "/" +:+ (n +:+ ".png")) = d +:+ "/" +:+ (n +:+ ".png").
Proof.
  intros Hd. assert (∃ s, d +:+ "/" +:+ (n +:+ ".png") = String "/" s) as [s Hs].
  { destruct Hd as [->|[d' ->]]; eexists; reflexivity. }
  unfold TrimSpace. rewrite (strip_left_id space_runes) by (rewrite Hs; repeat (constructor; [done|]); constructor).
  rewrite strip_left_id, srev_rev; [done|].
  rewrite !srev_app. change (String.rev ".png") with "gnp.".
  change (("gnp." +:+ String.rev n) +:+ String.rev "/") with (String "g" (("np." +:+ String.rev n) +:+ "/")).
  change (String "g" (("np." +:+ String.rev n) +:+ "/") +:+ String.rev d) with
    (String "g" ((("np." +:+ String.rev n) +:+ "/") +:+ String.rev d)).
  repeat (constructor; [done|]). constructor.
Qed.

(** ** Properties *)

(** The image collector, with a readable history: it never removes a file
    that a history entry references, changes no other file, and never goes below
    its bound.  When every removal works it stops at the bound unless only
    referenced files are left, and what it removed is at least as old as every
    unreferenced file it kept. *)
Theorem gc_spec loaded rm_ok sorted st refs
    (Hsort : sorted_by_mod (images st) sorted) (Hread : ReferencedImages st = Ok refs) :
  let after := images (gc loaded rm_ok sorted st) in
  let bound := gc_bound loaded in
  (∀ n, n ∈ refs → after !! n = images st !! n) ∧
  (∀ n, after !! n = images st !! n ∨ after !! n = None) ∧
  (Z.min (Z.of_nat (size (images st))) bound ≤ Z.of_nat (size after))%Z ∧
  ((∀ n, rm_ok n = true) →
    ((Z.of_nat (size after) ≤ bound)%Z ∨ ∀ n, is_Some (after !! n) → n ∈ refs) ∧
    ∀ a b, is_Some (images st !! a) → after !! a = None → is_Some (after !! b) → b ∉ refs →
      (mod_of (images st) a ≤ mod_of (images st) b)%Z).
Proof.
  intros after bound. destruct (sorted_names _ _ Hsort) as [Hnd Hin]. subst after. unfold gc.
  destruct (Z.of_nat (size (images st)) <=? gc_bound loaded)%Z eqn:Hsize.
  { apply Z.leb_le in Hsize. fold bound in Hsize. split; [done|]. split; [by left|]. split; [apply Z.le_min_l|].
    intros _. split; [by left|]. intros a b [f Ha]. congruence. }
  destruct (gc_excess _ _ Hsize) as (k & -> & Hk). fold bound in Hk. simpl.
  unfold gc_referenced. rewrite Hread. split; [|split; [|split]].
  - intros n Hn. destruct (gc_loop_lookup refs rm_ok k sorted (images st) n) as [?|(? & ? & ?)]; done.
  - intros n. destruct (gc_loop_lookup refs rm_ok k sorted (images st) n) as [?|(? & ? & ?)]; auto.
  - pose proof (gc_loop_size refs rm_ok k sorted (images st)). lia.
  - intros Hrm. rewrite gc_loop_take by done. set (un := filter (λ n, n ∉ refs) sorted).
    assert (Hun : NoDup un ∧ ∀ n, n ∈ un → is_Some (images st !! n)).
    { split; [by apply NoDup_filter|]. intros n [_ Hn]%list_elem_of_filter. by apply Hin. }
    assert (Htake : ∀ n, n ∈ take k un → n ∈ un) by (intros n; apply subseteq_take).
    split.
    + destruct (decide (k ≤ length un)).
      * left. rewrite size_foldl_delete; [|eapply sublist_NoDup; [apply Hun|apply sublist_take]|].
        -- rewrite length_take. pose proof (gc_bound_ge loaded). unfold maxImages in *. lia.
        -- intros n Hn. apply Hun; auto.
      * right. intros m. rewrite foldl_delete_lookup, take_ge by lia. case_bool_decide as Hun'; [by intros []|].
        intros Hs. destruct (decide (m ∈ refs)); [done|]. exfalso. apply Hun'.
        apply list_elem_of_filter. split; [done|]. by apply Hin.
    + intros a b Ha. rewrite !foldl_delete_lookup. case_bool_decide as Hta; [|by destruct Ha as [? ->]].
      case_bool_decide as Htb; [by intros ? []|]. intros _ Hb Hrb.
      eapply (sorted_split (λ a b, mod_of (images st) a ≤ mod_of (images st) b)%Z un k); [|done|].
      * apply StronglySorted_filter, Hsort.
      * assert (b ∈ un) as Hbu by (apply list_elem_of_filter; split; [done|by apply Hin]).
        rewrite <- (take_drop k un) in Hbu. by apply elem_of_app in Hbu as [?|?].
Qed.

(** Content addressing. Saving an image makes a file of the same bytes (or
    finds one by name), under a path that is recognised as an image-store path
    from then on, and saving the same bytes again returns the same path, writes
    nothing and starts no collection. *)
Theorem SaveImage_spec `{CryptoLaws} dir io io' body st path st' spawned
    (Hdir : dir = "" ∨ ∃ d, dir = String "/" d)
    (Hsave : SaveImage dir io body st = Ok (path, st', spawned))
    (Hio : dirs_ok io' = true ∧ chmod_ok io' = true) :
  path = image_path dir (image_name body) ∧
  (spawned = true → images st !! image_name body = None ∧
     images st' = <[image_name body := MkImage body (now_mod io) true]> (images st)) ∧
  hist st' = hist st ∧
  IsImageStorePath path st' = true ∧
  SaveImage dir io' body st' = Ok (path, st', false).
Proof.
  destruct (image_name_shape body) as (Hhex & Hslash & Hne). destruct Hio as [Hd Hc].
  assert (Hsaved : ∃ f, images st' !! image_name body = Some f ∧ img_regular f = true ∧
    path = image_path dir (image_name body) ∧ hist st' = hist st ∧
    (spawned = true → images st !! image_name body = None ∧
       images st' = <[image_name body := MkImage body (now_mod io) true]> (images st))).
  { revert Hsave. unfold SaveImage. destruct (dirs_ok io); [|done]. simpl.
    destruct (images st !! image_name body) as [f|] eqn:Hf.
    - destruct (img_regular f) eqn:Hr; [|done]. destruct (chmod_ok io); [|done].
      intros [= <- <- <-]. exists f. split_and!; done.
    - destruct (write_ok io); [|done]. intros [= <- <- <-]. simpl.
      eexists. rewrite lookup_insert_eq. split_and!; done. }
  destruct Hsaved as (f & Hf & Hr & -> & Hh & Hsp). split_and!; [done..| |].
  - assert (Hb : Base (TrimSpace (image_path dir (image_name body))) = image_name body).
    { unfold image_path, image_name. rewrite TrimSpace_image by done. by apply Base_join. }
    assert (Hc' : CutSuffix (image_name body) ".png" = (hex_encode (sha256 body), true)) by by apply CutSuffix_spec.
    unfold IsImageStorePath. rewrite Hb, Hc', Hhex, Hf. done.
  - unfold SaveImage. rewrite Hd, Hf, Hr, Hc. done.
Qed.

(** The two state files after [SaveState]: on success both read back what was
    written; on a failure the text file is untouched, and state.json is new only
    if the failing step was the text file's, leaving the pair out of step. *)
Theorem SaveState_spec (io : state_io) (s : State) (text : string) (f : StateFiles) :
  let '(f', err) := SaveState io s text f in
  (err = None → LoadState f' = Ok (persist_state s) ∧ LoadText f' = Ok text) ∧
  (err ≠ None → current_txt f' = current_txt f ∧
     (state_json f' = state_json f ∨ (err = Some "write current.txt" ∧ LoadState f' = Ok (persist_state s)))).
Proof.
  unfold SaveState, LoadState, LoadText. destruct io as [[] [] []]; simpl; naive_solver.
Qed.

(** ** A full image store *)

Definition full_history (n : nat) : list HistoryEntry :=
  (λ i, MkEntry (format_uint (N.of_nat i)) "image" "" "" ("/img/" +:+ format_uint (N.of_nat i) +:+ ".png")
          3 "mac" 0%Z false) <$> seq 0 n.

Definition full_images (n : nat) : gmap string ImageFile :=
  list_to_map ((λ i, (format_uint (N.of_nat i) +:+ ".png", MkImage "png" (Z.of_nat i) true)) <$> seq 0 n).

(** The collector can take the image that was just saved: [SaveImage] starts
    it before [AppendHistory] records the entry, so when the history already
    references as many images as the bound allows, the only unreferenced file is
    the new one, and it is deleted although its clip is about to become current. *)
Theorem gc_can_take_new_image :
  let st := MkStore (HistEntries (full_history 50)) (full_images 50) in
  let io := MkSaveIO true true true 99 in
  let name := @image_name toy_crypto "new" in
  ∃ st1 sorted, @SaveImage toy_crypto "/img" io "new" st = Ok (image_path "/img" name, st1, true) ∧
    sorted_by_mod (images st1) sorted ∧
    is_Some (images st1 !! name) ∧
    images (gc (Some 50%Z) (λ _, true) sorted st1) !! name = None.
Proof.
  eexists _, (((λ i, format_uint (N.of_nat i) +:+ ".png") <$> seq 0 50) ++ [@image_name toy_crypto "new"]).
  split; [by vm_compute|]. split; [|split].
  - apply sorted_by_mod_check. by vm_compute.
  - eexists. by vm_compute.
  - by vm_compute.
Qed.

(** ** Witnesses *)

Lemma gc_spec_witness :
  let st := MkStore HistMissing (full_images 51) in
  let sorted := (λ i, format_uint (N.of_nat i) +:+ ".png") <$> seq 0 51 in
  (50 ≤ Z.of_nat (size (images (gc (Some 50%Z) (λ _, true) sorted st))))%Z.
Proof.
  intros st sorted.
  assert (Hs : sorted_by_mod (images st) sorted).
  { apply sorted_by_mod_check. vm_compute. reflexivity. }
  destruct (gc_spec (Some 50%Z) (λ _, true) sorted st ∅ Hs eq_refl) as (_ & _ & Hmin & _).
  assert (Hb : Z.min (Z.of_nat (size (images st))) (gc_bound (Some 50%Z)) = 50%Z) by (vm_compute; reflexivity).
  rewrite Hb in Hmin. exact Hmin.
Defined.

Lemma SaveImage_spec_witness :
  ∃ path st', @SaveImage toy_crypto "/img" (MkSaveIO true true true 7) "png bytes" demo_store = Ok (path, st', true) ∧
    IsImageStorePath path st' = true ∧
    @SaveImage toy_crypto "/img" (MkSaveIO true true true 8) "png bytes" st' = Ok (path, st', false).
Proof.
  destruct (@SaveImage toy_crypto "/img" (MkSaveIO true true true 7) "png bytes" demo_store) as [[[path st'] sp]|] eqn:Hs;
    [|vm_compute in Hs; discriminate].
  assert (sp = true) as -> by (vm_compute in Hs; congruence).
  destruct (@SaveImage_spec toy_crypto toy_laws "/img" (MkSaveIO true true true 7) (MkSaveIO true true true 8)
    "png bytes" demo_store path st' true) as (_ & _ & _ & Hp & Hagain).
  - right. exists "img". reflexivity.
  - exact Hs.
  - split; reflexivity.
  - exists path, st'. split; [reflexivity|]. split; [exact Hp|exact Hagain].
Defined.
