(* ===== verification/Hostnames.v ===== *)
(** * Host identities: transport/hostnames.go, config/hostid.go, internal/discovery

    The two name comparisons of the transport ([RecipientMatches], the security
    check, and [HostsMatch], the lenient one), the host-id validation of the
    config package, and the peer lists of the discovery package. *)
From S2P Require Import Prelude GoStrings.
From Stdlib Require Import Ascii String.
From stdpp Require Import strings.

(** ** transport/hostnames.go *)

Definition ShortName (h : string) : string := before_sep "." (TrimSuffix h ".local").

Definition RecipientMatches (recipient identity : string) : bool :=
  negb (bool_decide (ShortName recipient = "")) && bool_decide (ShortName recipient = ShortName identity).

Definition minMatchLen : nat := 6.

Definition HostsMatch (a b : string) : bool :=
  let sa := ShortName a in
  let sb := ShortName b in
  if bool_decide (sa = "") || bool_decide (sb = "") then false
  else if bool_decide (sa = sb) then true
  else
    let '(long, short) := if (len sb <? len sa)%nat then (sa, sb) else (sb, sa) in
    if (len short <? minMatchLen)%nat then false
    else HasSuffix long ("-" +:+ short).

(** ** config/hostid.go *)

Inductive HostIDError := HostIDEmpty | HostIDTooLong | HostIDHyphen | HostIDCharacter.

Definition host_id_byte (a : ascii) : bool :=
  is_upper a || is_lower a || is_digit a ||
  bool_decide (a = "."%char) || bool_decide (a = "_"%char) || bool_decide (a = "-"%char).

(** The code ranges over runes; a rune it accepts is one byte, and every byte of
    a longer or invalid rune is refused, so the bytes are what it looks at. *)
Definition ValidateHostID (hostID : string) : result HostIDError () :=
  if (len hostID <? 1)%nat then Err HostIDEmpty
  else if (63 <? len hostID)%nat then Err HostIDTooLong
  else if HasPrefix hostID "-" then Err HostIDHyphen
  else if forall_bytes host_id_byte hostID then Ok ()
  else Err HostIDCharacter.

Definition deriveHostIDFromHostname (hostname : string) : string :=
  before_sep "." (TrimSuffix hostname ".local").

(** [DeriveHostID] for the host name [os.Hostname] reports. *)
Definition DeriveHostID (hostname : string) : result HostIDError string :=
  let hostID := deriveHostIDFromHostname hostname in
  _ ← ValidateHostID hostID;
  Ok hostID.

(** ** internal/discovery *)

Record Peer := MkPeer {
  p_Hostname : string;
  p_Port : Z;
  p_Self : bool;
}.

Definition shortName (h : string) : string := before_sep "." (TrimSuffix h ".local").

(** [Static.Peers], for the name [os.Hostname] reported at construction. *)
Definition Static_Peers (hostname : string) (hosts : list string) (port : Z) : list Peer :=
  let self := shortName hostname in
  (λ h, MkPeer h port (bool_decide (shortName h = self))) <$> hosts.

Definition allowedHostSet (hosts : list string) : gset string :=
  list_to_set (filter (λ s, s ≠ "") (shortName <$> hosts)).

Record tsPeer := MkTsPeer {
  HostName : string;
  Online : bool;
}.

(** The decoded status; [ts_Peer] lists the values of the JSON object's map in
    the order Go iterates over them, [None] for a null value. *)
Record tsStatus := MkTsStatus {
  ts_Self : option tsPeer;
  ts_Peer : list (option tsPeer);
}.

Definition tailscale_peer (allowed : gset string) (port : Z) (p : option tsPeer) : option Peer :=
  match p with
  | None => None
  | Some p =>
      if negb (Online p) then None
      else
        let host := shortName (HostName p) in
        if bool_decide (host ∈ allowed) then Some (MkPeer host port false) else None
  end.

Definition parseTailscalePeers (s : tsStatus) (port : Z) (allowedHosts : list string) : list Peer :=
  let allowed := allowedHostSet allowedHosts in
  match ts_Self s with
  | Some p => [MkPeer (shortName (HostName p)) port true]
  | None => []
  end ++ omap (tailscale_peer allowed port) (ts_Peer s).

(** ** Lemmas *)

Lemma ShortName_no_dot h : has_byte "." (ShortName h) = false.
Proof. apply before_sep_clean. Qed.

Lemma TrimSuffix_no_dot h : has_byte "." h = false → TrimSuffix h ".local" = h.
Proof.
  intros Hh. destruct (HasSuffix h ".local") eqn:Hs; [|by apply TrimSuffix_none].
  apply HasSuffix_spec in Hs as [q ->]. by rewrite has_byte_app, orb_true_r in Hh.
Qed.

(** A short name is its own short name. *)
Lemma ShortName_id h : has_byte "." h = false → ShortName h = h.
Proof. intros Hh. unfold ShortName. by rewrite TrimSuffix_no_dot, before_sep_id. Qed.

Lemma ShortName_idemp h : ShortName (ShortName h) = ShortName h.
Proof. apply ShortName_id, ShortName_no_dot. Qed.

Lemma host_id_byte_not_slash a : host_id_byte a = true → a ≠ "/"%char.
Proof. intros Ha ->. by vm_compute in Ha. Qed.

Lemma ValidateHostID_Ok h :
  ValidateHostID h = Ok () ↔
  1 ≤ len h ≤ 63 ∧ HasPrefix h "-" = false ∧ forall_bytes host_id_byte h = true.
Proof.
  unfold ValidateHostID. split.
  - intros H. go_cases. bool_prop. repeat split; done || lia.
  - intros (Hl & -> & ->). repeat case_match; bool_prop; done || lia.
Qed.

(** What [HostsMatch] decides, of the two short names. *)
Definition hosts_related (sa sb : string) : Prop :=
  sa ≠ "" ∧ sb ≠ "" ∧
  (sa = sb ∨
   ∃ p, (minMatchLen ≤ len sb ∧ sa = p +:+ "-" +:+ sb) ∨ (minMatchLen ≤ len sa ∧ sb = p +:+ "-" +:+ sa)).

Lemma len_hyphen_suffix p s t : s = p +:+ "-" +:+ t → len t < len s.
Proof. intros ->. rewrite !len_app. change (len "-") with 1. lia. Qed.

Lemma HostsMatch_related a b : HostsMatch a b = true ↔ hosts_related (ShortName a) (ShortName b).
Proof.
  unfold HostsMatch, hosts_related. generalize (ShortName a) (ShortName b). clear. intros sa sb.
  destruct (decide (sa = "")) as [->|Ha]; [naive_solver|].
  destruct (decide (sb = "")) as [->|Hb]; [rewrite orb_true_r; naive_solver|].
  rewrite !bool_decide_eq_false_2 by done. simpl.
  destruct (decide (sa = sb)) as [->|Hne]; [rewrite bool_decide_eq_true_2; naive_solver|].
  rewrite bool_decide_eq_false_2 by done.
  destruct (len sb <? len sa)%nat eqn:Hl; bool_prop;
    destruct (_ <? minMatchLen)%nat eqn:Hm; bool_prop; rewrite ?HasSuffix_spec.
  - split; [done|]. intros (_ & _ & [?|(p & [[? _]|[_ Hs]])]); [done|lia|].
    apply len_hyphen_suffix in Hs. lia.
  - split; [intros [p Hp]; eauto 10|]. intros (_ & _ & [?|(p & [[_ Hs]|[_ Hs]])]); [done|eauto|].
    apply len_hyphen_suffix in Hs. lia.
  - split; [done|]. intros (_ & _ & [?|(p & [[_ Hs]|[? _]])]); [done| |lia].
    apply len_hyphen_suffix in Hs. lia.
  - split; [intros [p Hp]; eauto 10|]. intros (_ & _ & [?|(p & [[_ Hs]|[_ Hs]])]); [done| |eauto].
    apply len_hyphen_suffix in Hs. lia.
Qed.

Lemma RecipientMatches_true a b :
  RecipientMatches a b = true ↔ ShortName a ≠ "" ∧ ShortName a = ShortName b.
Proof. unfold RecipientMatches. by rewrite andb_true_iff, negb_true_iff, bool_decide_eq_false, bool_decide_eq_true. Qed.

Lemma allowedHostSet_spec hosts s :
  s ∈ allowedHostSet hosts ↔ s ≠ "" ∧ ∃ h, h ∈ hosts ∧ s = ShortName h.
Proof.
  unfold allowedHostSet. rewrite elem_of_list_to_set, list_elem_of_filter, list_elem_of_fmap.
  change shortName with ShortName. naive_solver.
Qed.

Lemma tailscale_peer_Some hosts port t p :
  tailscale_peer (allowedHostSet hosts) port (Some t) = Some p ↔
  Online t = true ∧ p = MkPeer (ShortName (HostName t)) port false ∧ ShortName (HostName t) ≠ "" ∧
  ∃ h, h ∈ hosts ∧ RecipientMatches h (HostName t) = true.
Proof.
  unfold tailscale_peer. change shortName with ShortName. destruct (Online t); simpl; [|naive_solver].
  case_bool_decide as Hin; rewrite allowedHostSet_spec in Hin; setoid_rewrite RecipientMatches_true.
  - destruct Hin as (Hne & h & Hh & Heq). split; [intros [= <-]|naive_solver].
    repeat split; try done. exists h. rewrite <- Heq. done.
  - split; [done|]. intros (_ & _ & Hne & h & Hh & _ & Heq). destruct Hin. eauto.
Qed.

(** ** Properties *)

(** [HostsMatch] in full: both short names are non-empty and either they are
    equal or one of them is the other with some prefix ending in a hyphen, the
    other having at least six bytes.  In particular it is symmetric. *)
Theorem HostsMatch_spec (a b : string) :
  (HostsMatch a b = true ↔ hosts_related (ShortName a) (ShortName b)) ∧
  HostsMatch b a = HostsMatch a b.
Proof.
  split; [apply HostsMatch_related|].
  apply eq_true_iff_eq. rewrite !HostsMatch_related. unfold hosts_related. naive_solver.
Qed.

(** Acceptance as a recipient is an equivalence between named hosts: it is
    symmetric and transitive, reflexive on every host with a short name, and
    stricter than [HostsMatch]; it only depends on the short name. *)
Theorem RecipientMatches_equivalence :
  (∀ a b, RecipientMatches a b = RecipientMatches b a) ∧
  (∀ a b c, RecipientMatches a b = true → RecipientMatches b c = true → RecipientMatches a c = true) ∧
  (∀ a, RecipientMatches a a = true ↔ ShortName a ≠ "") ∧
  (∀ a b, RecipientMatches a b = true → HostsMatch a b = true) ∧
  (∀ a b, RecipientMatches (ShortName a) b = RecipientMatches a b).
Proof.
  split_and!.
  - intros a b. apply eq_true_iff_eq. rewrite !RecipientMatches_true. intuition congruence.
  - intros a b c. rewrite !RecipientMatches_true. intuition congruence.
  - intros a. rewrite RecipientMatches_true. naive_solver.
  - intros a b. rewrite RecipientMatches_true, HostsMatch_related. unfold hosts_related. intuition congruence.
  - intros a b. unfold RecipientMatches. by rewrite ShortName_idemp.
Qed.

(** [DeriveHostID] gives a name it would itself accept: the result is a
    fixed point of the derivation, a valid host id of 1 to 63 bytes without a
    dot, and it addresses the same host as the name it came from. *)
Theorem DeriveHostID_spec (hostname hostID : string) (H : DeriveHostID hostname = Ok hostID) :
  ValidateHostID hostID = Ok () ∧ DeriveHostID hostID = Ok hostID ∧
  has_byte "." hostID = false ∧ RecipientMatches hostname hostID = true.
Proof.
  unfold DeriveHostID in H. apply bind_Ok in H as ([] & Hv & [= <-]).
  change (deriveHostIDFromHostname hostname) with (ShortName hostname) in *.
  split; [done|]. split; [|split; [apply ShortName_no_dot|]].
  - unfold DeriveHostID. change (deriveHostIDFromHostname ?x) with (ShortName x). by rewrite ShortName_idemp, Hv.
  - apply RecipientMatches_true. rewrite ShortName_idemp. split; [|done]. intros Hn. rewrite Hn in Hv. done.
Qed.

(** The Tailscale peer list: every peer other than the node itself comes from
    an online entry whose short name is one of the allowed hosts' short names,
    every such entry is listed, and a peer list with nothing allowed holds at most
    the node itself. *)
Theorem parseTailscalePeers_spec (s : tsStatus) (port : Z) (allowedHosts : list string) (p : Peer) :
  (p_Self p = false →
    (p ∈ parseTailscalePeers s port allowedHosts ↔
     p_Port p = port ∧ ∃ t, Some t ∈ ts_Peer s ∧ Online t = true ∧ p_Hostname p = ShortName (HostName t) ∧
       p_Hostname p ≠ "" ∧ ∃ h, h ∈ allowedHosts ∧ RecipientMatches h (HostName t) = true)) ∧
  (p_Self p = true →
    (p ∈ parseTailscalePeers s port allowedHosts ↔
     p_Port p = port ∧ ∃ t, ts_Self s = Some t ∧ p_Hostname p = ShortName (HostName t))).
Proof.
  unfold parseTailscalePeers. rewrite elem_of_app, list_elem_of_omap.
  assert (Hself : p ∈ match ts_Self s with
      Some p0 => [MkPeer (shortName (HostName p0)) port true] | None => [] end ↔
      p_Self p = true ∧ p_Port p = port ∧ ∃ t, ts_Self s = Some t ∧ p_Hostname p = ShortName (HostName t)).
  { destruct (ts_Self s) as [t|].
    - rewrite list_elem_of_singleton. destruct p; naive_solver.
    - split; [by intros ?%not_elem_of_nil|naive_solver]. }
  rewrite Hself. split; intros Hp.
  - split.
    + intros [[]|([t|] & Ht & Hq)]; [congruence| |done].
      apply tailscale_peer_Some in Hq as (Hon & -> & Hne & Hall). eauto 10.
    + intros (<- & t & Ht & Hon & Hh & Hne & Hall). right. exists (Some t). split; [done|].
      apply tailscale_peer_Some. destruct p; simpl in *; subst; naive_solver.
  - split; [|naive_solver]. intros [?|([t|] & Ht & Hq)]; [naive_solver| |done].
    apply tailscale_peer_Some in Hq as (Hon & -> & Hne & Hall). done.
Qed.

(** ** Witnesses *)

Lemma DeriveHostID_spec_witness :
  DeriveHostID "studio.tail1.ts.net" = Ok "studio" ∧ RecipientMatches "studio.tail1.ts.net" "studio" = true.
Proof.
  destruct (DeriveHostID_spec "studio.tail1.ts.net" "studio" eq_refl) as (_ & _ & _ & Hr).
  split; [reflexivity|exact Hr].
Defined.

Lemma parseTailscalePeers_spec_witness :
  let s := MkTsStatus None [Some (MkTsPeer "studio.local" true); None; Some (MkTsPeer "other" true)] in
  MkPeer "studio" 7853 false ∈ parseTailscalePeers s 7853 ["studio"].
Proof.
  intros s. apply (proj1 (parseTailscalePeers_spec s 7853 ["studio"] (MkPeer "studio" 7853 false)) eq_refl).
  split; [reflexivity|]. exists (MkTsPeer "studio.local" true).
  split; [left|]. split; [reflexivity|]. split; [reflexivity|]. split; [discriminate|].
  exists "studio". split; [left|reflexivity].
Defined.
