(* ===== verification/Nonce.v ===== *)
(** * Replay protection: transport/nonce.go and the hello nonces of ssh_stream.go

    [nonceCache] guards the signed HTTP requests, [SSHStreamHelloNonceCache] the
    stream handshakes.  The second one is bounded: when a bucket or the whole
    cache is full the oldest entry goes.  Go iterates over its map in an order of
    its own choosing, which decides between entries of equal age, so [remember]
    takes that order as an argument. *)
From S2P Require Import Prelude GoStrings.
From Stdlib Require Import Ascii String.
From stdpp Require Import strings.

(** ** transport/server.go, the time windows *)

Definition signatureSkew : Z := (2 * minute)%Z.

Definition nonceRetention : Z := (2 * signatureSkew)%Z.

(** ** transport/nonce.go *)

Record nonceCache := MkNonceCache {
  ttl : Z;
  seen : gmap string time;
}.

Definition newNonceCache (ttl : Z) : nonceCache := MkNonceCache ttl ∅.

Definition accept (c : nonceCache) (nonce : string) (now : time) : bool * nonceCache :=
  if bool_decide (nonce = "") then (false, c)
  else
    let expiresBefore := (now - ttl c)%Z in
    let live := filter (λ e, After e.2 expiresBefore = true) (seen c) in
    let c := MkNonceCache (ttl c) live in
    match seen c !! nonce with
    | Some seenAt =>
        if After (seenAt + ttl c)%Z now then (false, c)
        else (true, MkNonceCache (ttl c) (<[nonce := now]> (seen c)))
    | None => (true, MkNonceCache (ttl c) (<[nonce := now]> (seen c)))
    end.

Fixpoint accept_all (c : nonceCache) (calls : list (string * time)) : list bool * nonceCache :=
  match calls with
  | [] => ([], c)
  | (nonce, now) :: calls =>
      let '(ok, c) := accept c nonce now in
      let '(oks, c) := accept_all c calls in
      (ok :: oks, c)
  end.

(** ** The abstract log: every acceptance is remembered for ever *)

Module NonceLog.
Definition fresh (ttl : Z) (log : list (string * time)) (nonce : string) (now : time) : bool :=
  negb (bool_decide (nonce = "")) &&
  forallb (λ e, negb (bool_decide (e.1 = nonce)) || (e.2 + ttl <=? now)%Z) log.

Fixpoint decide_all (ttl : Z) (log calls : list (string * time)) : list bool :=
  match calls with
  | [] => []
  | (nonce, now) :: calls =>
      let ok := fresh ttl log nonce now in
      ok :: decide_all ttl (if ok then (nonce, now) :: log else log) calls
  end.
End NonceLog.

(** ** transport/ssh_stream.go: [SSHStreamHelloNonceCache] *)

Definition SSHStreamHelloNonceBucketCap : Z := 256%Z.

Definition SSHStreamHelloNonceProcessCap : Z := 8192%Z.

Record sshStreamHelloNonceEntry := MkHelloEntry {
  bucket : string;
  seenAt : time;
}.

Record SSHStreamHelloNonceCache := MkHelloCache {
  hello_seen : gmap string sshStreamHelloNonceEntry;
  bucketCap : Z;
  processCap : Z;
}.

Definition newSSHStreamHelloNonceCacheWithCaps (bucketCap processCap : Z) : SSHStreamHelloNonceCache :=
  MkHelloCache ∅
    (if (bucketCap <=? 0)%Z then SSHStreamHelloNonceBucketCap else bucketCap)
    (if (processCap <=? 0)%Z then SSHStreamHelloNonceProcessCap else processCap).

Definition NewSSHStreamHelloNonceCache : SSHStreamHelloNonceCache :=
  newSSHStreamHelloNonceCacheWithCaps SSHStreamHelloNonceBucketCap SSHStreamHelloNonceProcessCap.

Definition nul : string := String (ascii_of_nat 0) "".

Definition sshStreamHelloNonceBucket (hostID purpose : string) : string := hostID +:+ nul +:+ purpose.

Definition sshStreamHelloNonceKey (bucket nonce : string) : string := bucket +:+ nul +:+ nonce.

Definition in_bucket (b : string) (e : string * sshStreamHelloNonceEntry) : Prop := bucket e.2 = b.

#[export] Instance in_bucket_dec b e : Decision (in_bucket b e).
Proof. unfold in_bucket. apply _. Defined.

Definition bucketSize (seen : gmap string sshStreamHelloNonceEntry) (b : string) : Z :=
  Z.of_nat (size (filter (in_bucket b) seen)).

(** The scan of the eviction loops: the first entry of the iteration that is
    strictly older than all before it. *)
Fixpoint oldest_of (best : option (string * time)) (l : list (string * sshStreamHelloNonceEntry)) :
    option (string * time) :=
  match l with
  | [] => best
  | (key, e) :: l =>
      oldest_of
        (match best with
         | None => Some (key, seenAt e)
         | Some (_, oldest) => if Before (seenAt e) oldest then Some (key, seenAt e) else best
         end) l
  end.

(** An iteration order of Go's map. *)
Definition map_order := gmap string sshStreamHelloNonceEntry → list (string * sshStreamHelloNonceEntry).

Definition evictOldestInBucket (iter : map_order) (b : string) (seen : gmap string sshStreamHelloNonceEntry) :
    gmap string sshStreamHelloNonceEntry :=
  match oldest_of None (filter (in_bucket b) (iter seen)) with
  | Some (key, _) => delete key seen
  | None => seen
  end.

Definition evictOldest (iter : map_order) (seen : gmap string sshStreamHelloNonceEntry) :
    gmap string sshStreamHelloNonceEntry :=
  match oldest_of None (iter seen) with
  | Some (key, _) => delete key seen
  | None => seen
  end.

(** The two [for] loops; each turn removes an entry, so one turn per entry is
    fuel enough. *)
Fixpoint evict_bucket (fuel : nat) (iter : map_order) (cap : Z) (b : string)
    (seen : gmap string sshStreamHelloNonceEntry) : gmap string sshStreamHelloNonceEntry :=
  match fuel with
  | 0 => seen
  | S fuel =>
      if (cap <=? bucketSize seen b)%Z then evict_bucket fuel iter cap b (evictOldestInBucket iter b seen)
      else seen
  end.

Fixpoint evict_process (fuel : nat) (iter : map_order) (cap : Z)
    (seen : gmap string sshStreamHelloNonceEntry) : gmap string sshStreamHelloNonceEntry :=
  match fuel with
  | 0 => seen
  | S fuel =>
      if (cap <=? Z.of_nat (size seen))%Z then evict_process fuel iter cap (evictOldest iter seen)
      else seen
  end.

Definition remember (iter : map_order) (c : SSHStreamHelloNonceCache) (hostID purpose nonce : string) (now : time) :
    bool * SSHStreamHelloNonceCache :=
  let bcap := if (bucketCap c <=? 0)%Z then SSHStreamHelloNonceBucketCap else bucketCap c in
  let pcap := if (processCap c <=? 0)%Z then SSHStreamHelloNonceProcessCap else processCap c in
  let expiresBefore := (now - nonceRetention)%Z in
  let live := filter (λ e, Before (seenAt e.2) expiresBefore = false) (hello_seen c) in
  let b := sshStreamHelloNonceBucket hostID purpose in
  let key := sshStreamHelloNonceKey b nonce in
  match live !! key with
  | Some _ => (false, MkHelloCache live bcap pcap)
  | None =>
      let live := evict_bucket (size live) iter bcap b live in
      let live := evict_process (size live) iter pcap live in
      (true, MkHelloCache (<[key := MkHelloEntry b now]> live) bcap pcap)
  end.

#[export] Instance hello_entry_eq_dec : EqDecision sshStreamHelloNonceEntry.
Proof. solve_decision. Defined.

(** A handshake as the cache sees it. *)
Record hello_call := MkHelloCall {
  hc_iter : map_order;
  hc_host : string;
  hc_purpose : string;
  hc_nonce : string;
  hc_now : time;
}.

Definition remember_call (c : SSHStreamHelloNonceCache) (x : hello_call) : bool * SSHStreamHelloNonceCache :=
  remember (hc_iter x) c (hc_host x) (hc_purpose x) (hc_nonce x) (hc_now x).

Definition remember_calls (c : SSHStreamHelloNonceCache) (l : list hello_call) : SSHStreamHelloNonceCache :=
  foldl (λ c x, (remember_call c x).2) c l.

(** The caches the constructor builds and [remember] keeps. *)
Record hello_wf (c : SSHStreamHelloNonceCache) : Prop := {
  wf_bucketCap : (0 < bucketCap c)%Z;
  wf_processCap : (0 < processCap c)%Z;
  wf_process : (Z.of_nat (size (hello_seen c)) ≤ processCap c)%Z;
  wf_bucket b : (bucketSize (hello_seen c) b ≤ bucketCap c)%Z;
}.

(** Entries of a bucket, or of all buckets, that are not older than [t]. *)
Definition young (b : string) (t : time) (m : gmap string sshStreamHelloNonceEntry) : Z :=
  Z.of_nat (size (filter (λ e, bucket e.2 = b ∧ (t ≤ seenAt e.2)%Z) m)).

Definition young_all (t : time) (m : gmap string sshStreamHelloNonceEntry) : Z :=
  Z.of_nat (size (filter (λ e, (t ≤ seenAt e.2)%Z) m)).

Definition call_bucket (x : hello_call) : string := sshStreamHelloNonceBucket (hc_host x) (hc_purpose x).

Definition iterates (iter : map_order) : Prop := ∀ m, iter m ≡ₚ map_to_list m.

(** ** Lemmas: the request nonces *)

(** The cache holds, for each nonce, its latest acceptance that is still live at
    the last accepted time; the log holds them all. *)
Definition cache_of_log (c : nonceCache) (log : list (string * time)) (now : time) : Prop :=
  (∀ n t, seen c !! n = Some t → (n, t) ∈ log) ∧
  (∀ n t, (n, t) ∈ log → (now < t + ttl c)%Z → seen c !! n = Some t).

Lemma fresh_spec k log nonce now :
  NonceLog.fresh k log nonce now = true ↔
  nonce ≠ "" ∧ ∀ t, (nonce, t) ∈ log → (t + k ≤ now)%Z.
Proof.
  unfold NonceLog.fresh. rewrite andb_true_iff, negb_true_iff, bool_decide_eq_false, forallb_forall.
  apply and_iff_compat_l. split.
  - intros H t Hin. specialize (H _ (proj1 (list_elem_of_In _ _) Hin)). simpl in H.
    rewrite bool_decide_eq_true_2 in H by done. by apply Z.leb_le.
  - intros H [n t] Hin%list_elem_of_In. simpl. case_bool_decide; subst; [|done]. apply Z.leb_le. auto.
Qed.

Lemma accept_fresh c log nonce now :
  cache_of_log c log now → (accept c nonce now).1 = NonceLog.fresh (ttl c) log nonce now.
Proof.
  intros [Hin Hlive]. apply eq_true_iff_eq. rewrite fresh_spec. unfold accept, After.
  case_bool_decide as Hn; [naive_solver|]. split.
  - intros H. split; [done|]. intros t Ht. apply Z.le_ngt. intros Hlt.
    specialize (Hlive _ _ Ht Hlt). simpl in H. revert H.
    assert (filter (λ e : string * time, ((now - ttl c <? e.2)%Z = true)) (seen c) !! nonce = Some t) as ->.
    { apply map_lookup_filter_Some. split; [done|]. apply Z.ltb_lt. simpl. lia. }
    assert ((now <? t + ttl c)%Z = true) as -> by (apply Z.ltb_lt; lia). done.
  - intros [_ H]. simpl. case_match eqn:Hs; [|done]. apply map_lookup_filter_Some in Hs as [Hs _].
    specialize (H _ (Hin _ _ Hs)). by rewrite (proj2 (Z.ltb_ge _ _)) by lia.
Qed.

Lemma accept_keeps c log nonce now now' :
  cache_of_log c log now → (now ≤ now')%Z →
  let '(ok, c') := accept c nonce now in
  ttl c' = ttl c ∧ cache_of_log c' (if ok then (nonce, now) :: log else log) now'.
Proof.
  intros [Hin Hlive] Hle. unfold accept, After.
  case_bool_decide as Hn. { split; [done|]. split; [done|]. intros n t Ht Hlt. apply Hlive; [done|lia]. }
  set (live := filter _ (seen c)).
  assert (Hl : ∀ n t, live !! n = Some t → seen c !! n = Some t ∧ (now < t + ttl c)%Z).
  { intros n t [Hs H]%map_lookup_filter_Some. simpl in H. split; [done|]. apply Z.ltb_lt in H. lia. }
  assert (Hl' : ∀ n t, (n, t) ∈ log → (now < t + ttl c)%Z → live !! n = Some t).
  { intros n t Ht Hlt. apply map_lookup_filter_Some. split; [auto|]. apply Z.ltb_lt. simpl. lia. }
  assert (Hadd : (∀ t, live !! nonce = Some t → False) →
      cache_of_log (MkNonceCache (ttl c) (<[nonce := now]> live)) ((nonce, now) :: log) now').
  { intros Hno. split; simpl; intros n t.
    - intros [[-> ->]|[_ Hs]]%lookup_insert_Some; [left|right]. by apply Hin, Hl.
    - intros [[= -> ->]|Ht]%elem_of_cons Hlt; [by rewrite lookup_insert_eq|].
      assert (live !! n = Some t) as Hs by (apply Hl'; [done|lia]).
      rewrite lookup_insert_ne; [done|]. intros ->. eauto. }
  simpl. destruct (live !! nonce) as [t|] eqn:Hs.
  - destruct (Hl _ _ Hs) as [_ Hlt]. rewrite (proj2 (Z.ltb_lt _ _)) by lia. split; [done|].
    split; simpl; intros n t'; [intros ?; by apply Hin, Hl|]. intros Ht Hlt'. apply Hl'; [done|lia].
  - split; [done|]. apply Hadd. congruence.
Qed.

Lemma accept_all_log c log calls now :
  cache_of_log c log now → StronglySorted Z.le (now :: calls.*2) →
  (accept_all c calls).1 = NonceLog.decide_all (ttl c) log calls.
Proof.
  revert c log now. induction calls as [|[n t] calls IH]; intros c log now Hc Hs; simpl; [done|].
  apply StronglySorted_inv in Hs as [Hs Hle]. apply StronglySorted_inv in Hs as Hs'. simpl in *.
  apply Forall_cons in Hle as [Hle _].
  assert (cache_of_log c log t) as Ht.
  { destruct Hc as [Hi Hl]. split; [done|]. intros m u Hu Hlt. apply Hl; [done|lia]. }
  pose proof (accept_fresh c log n t Ht) as Hok. pose proof (accept_keeps c log n t t Ht (Z.le_refl _)) as Hk.
  destruct (accept c n t) as [ok c'] eqn:Ha. simpl in Hok. subst ok. destruct Hk as [Httl Hc'].
  destruct (accept_all c' calls) as [oks c''] eqn:Hall. simpl. f_equal.
  specialize (IH c' _ t Hc' Hs). rewrite Hall in IH. simpl in IH. by rewrite IH, Httl.
Qed.

(** ** Lemmas: the hello nonces *)

Section hello.
Context (iter : map_order) (Hiter : iterates iter).

Lemma oldest_of_spec best l :
  match oldest_of best l with
  | None => best = None ∧ l = []
  | Some (k, t) =>
      (best = Some (k, t) ∨ ∃ e, (k, e) ∈ l ∧ seenAt e = t) ∧
      (∀ k' t', best = Some (k', t') → (t ≤ t')%Z) ∧ ∀ k' e', (k', e') ∈ l → (t ≤ seenAt e')%Z
  end.
Proof.
  revert best. induction l as [|[k e] l IH]; intros best; simpl.
  { destruct best as [[k t]|]; [|done]. split; [by left|]. split; [naive_solver lia|set_solver]. }
  specialize (IH (match best with
         | None => Some (k, seenAt e)
         | Some (_, oldest) => if Before (seenAt e) oldest then Some (k, seenAt e) else best end)).
  destruct (oldest_of _ l) as [[k1 t1]|].
  - destruct IH as (Hin & Hb & Hl). unfold Before in *. destruct best as [[k0 t0]|].
    + destruct (seenAt e <? t0)%Z eqn:Hlt; bool_prop.
      * split; [destruct Hin as [[= <- <-]|(e' & ? & ?)]; right; [exists e|exists e']; set_solver|].
        specialize (Hb _ _ eq_refl). split; [intros ? ? [= <- <-]; lia|].
        intros k' e' [[= -> ->]|Hk]%elem_of_cons; [done|eauto].
      * specialize (Hb _ _ eq_refl). split; [destruct Hin as [->|(e' & ? & ?)]; [by left|right; exists e'; set_solver]|].
        split; [intros ? ? [= <- <-]; lia|].
        intros k' e' [[= -> ->]|Hk]%elem_of_cons; [lia|eauto].
    + specialize (Hb _ _ eq_refl). split; [destruct Hin as [[= <- <-]|(e' & ? & ?)]; right; [exists e|exists e']; set_solver|].
      split; [done|]. intros k' e' [[= -> ->]|Hk]%elem_of_cons; [done|eauto].
  - destruct IH as [Hb _]. destruct best as [[k0 t0]|]; [by destruct (Before _ _)|done].
Qed.

(** One eviction: an oldest entry of the bucket goes, nothing else. *)
Lemma evictOldestInBucket_spec b m :
  (0 < bucketSize m b)%Z →
  ∃ k e, m !! k = Some e ∧ bucket e = b ∧ evictOldestInBucket iter b m = delete k m ∧
    ∀ k' e', m !! k' = Some e' → bucket e' = b → (seenAt e ≤ seenAt e')%Z.
Proof.
  intros Hpos. unfold evictOldestInBucket.
  assert (Hin : ∀ k e, (k, e) ∈ filter (in_bucket b) (iter m) ↔ m !! k = Some e ∧ bucket e = b).
  { intros k e. rewrite list_elem_of_filter, (Hiter m), elem_of_map_to_list. unfold in_bucket; simpl. naive_solver. }
  pose proof (oldest_of_spec None (filter (in_bucket b) (iter m))) as Ho.
  destruct (oldest_of _ _) as [[k t]|].
  - destruct Ho as ([?|(e & He & <-)] & _ & Hmin); [done|]. apply Hin in He as [He Hb].
    exists k, e. split; [done|]. split; [done|]. split; [done|]. intros k' e' ? ?. eapply Hmin, Hin; eauto.
  - destruct Ho as [_ Hnil]. exfalso. unfold bucketSize in Hpos.
    assert (size (filter (in_bucket b) m) ≠ 0) as Hne by lia. apply map_size_non_empty_iff, map_choose in Hne as (k & e & Hke).
    apply map_lookup_filter_Some in Hke as Hke. rewrite <- Hin, Hnil in Hke. set_solver.
Qed.

Lemma evictOldest_spec m :
  (0 < size m) →
  ∃ k e, m !! k = Some e ∧ evictOldest iter m = delete k m ∧
    ∀ k' e', m !! k' = Some e' → (seenAt e ≤ seenAt e')%Z.
Proof.
  intros Hpos. unfold evictOldest.
  assert (Hin : ∀ k e, (k, e) ∈ iter m ↔ m !! k = Some e) by (intros; by rewrite (Hiter m), elem_of_map_to_list).
  pose proof (oldest_of_spec None (iter m)) as Ho. destruct (oldest_of _ _) as [[k t]|].
  - destruct Ho as ([?|(e & He & <-)] & _ & Hmin); [done|]. exists k, e. rewrite <- Hin.
    split; [done|]. split; [done|]. intros k' e' ?. eapply Hmin, Hin; eauto.
  - destruct Ho as [_ Hnil]. exfalso.
    assert (size m ≠ 0) as Hne by lia. apply map_size_non_empty_iff, map_choose in Hne as (k & e & Hke).
    rewrite <- Hin, Hnil in Hke. set_solver.
Qed.

Lemma bucketSize_delete m b k e :
  m !! k = Some e → bucketSize (delete k m) b = (bucketSize m b - if bool_decide (bucket e = b) then 1 else 0)%Z.
Proof.
  intros He. unfold bucketSize. rewrite map_filter_delete.
  case_bool_decide.
  - rewrite map_size_delete.
    assert (filter (in_bucket b) m !! k = Some e) as -> by by apply map_lookup_filter_Some.
    assert (0 < size (filter (in_bucket b) m)) as Hsz; [|lia].
    apply Nat.neq_0_lt_0, map_size_non_empty_iff. intros Hem.
    assert (filter (in_bucket b) m !! k = Some e) as Hke by by apply map_lookup_filter_Some.
    by rewrite Hem in Hke.
  - rewrite map_size_delete.
    assert (filter (in_bucket b) m !! k = None) as ->; [|unfold id; lia].
    apply map_lookup_filter_None. right. intros x Hx. rewrite He in Hx. injection Hx as <-. done.
Qed.

Lemma bucketSize_insert m b k e :
  m !! k = None → bucketSize (<[k := e]> m) b = (bucketSize m b + if bool_decide (bucket e = b) then 1 else 0)%Z.
Proof.
  intros He. unfold bucketSize. case_bool_decide.
  - rewrite map_filter_insert_True by done. rewrite map_size_insert.
    assert (filter (in_bucket b) m !! k = None) as ->; [|lia].
    apply map_lookup_filter_None. left. done.
  - rewrite map_filter_insert_False by done. rewrite map_filter_delete, map_size_delete.
    assert (filter (in_bucket b) m !! k = None) as ->; [|unfold id; lia].
    apply map_lookup_filter_None. by left.
Qed.

Lemma filter_size_mono (P : string * sshStreamHelloNonceEntry → Prop) `{∀ x, Decision (P x)}
    (m m' : gmap string sshStreamHelloNonceEntry) :
  m' ⊆ m → size (filter P m') ≤ size (filter P m).
Proof. intros Hsub. apply map_subseteq_size. by apply map_filter_subseteq_mono. Qed.

(** Under the stated fuel the loop brings the bucket below its cap; it only
    deletes, and it spares an entry that fewer than [cap] others of its bucket
    match in age. *)
Lemma evict_bucket_spec fuel cap b m :
  (0 < cap)%Z → size m ≤ fuel →
  evict_bucket fuel iter cap b m ⊆ m ∧
  (bucketSize (evict_bucket fuel iter cap b m) b < cap)%Z ∧
  ∀ k e, m !! k = Some e → bucket e ≠ b ∨ (young b (seenAt e) m < cap)%Z →
    evict_bucket fuel iter cap b m !! k = Some e.
Proof.
  intros Hcap. revert m. induction fuel as [|fuel IH]; intros m Hfuel; simpl.
  { assert (m = ∅) as -> by (apply map_size_empty_inv; lia). split; [done|]. split; [|done].
    unfold bucketSize. rewrite map_filter_empty, map_size_empty. lia. }
  destruct (cap <=? bucketSize m b)%Z eqn:Hfull; bool_prop; [|done].
  destruct (evictOldestInBucket_spec b m) as (k0 & e0 & Hk0 & Hb0 & -> & Hmin); [lia|].
  assert (Hsub : delete k0 m ⊆ m) by apply delete_subseteq.
  destruct (IH (delete k0 m)) as (Hs & Hlt & Hkeep).
  { rewrite map_size_delete, Hk0. lia. }
  split; [by etrans|]. split; [done|]. intros k e Hk Hyoung. apply Hkeep.
  - rewrite lookup_delete_ne; [done|]. intros ->. rewrite Hk in Hk0. injection Hk0 as <-.
    destruct Hyoung as [|Hyoung]; [done|]. unfold young, bucketSize in *.
    assert (filter (in_bucket b) m = filter (λ x, bucket x.2 = b ∧ (seenAt e ≤ seenAt x.2)%Z) m) as Heq; [|rewrite Heq in Hfull; lia].
    apply map_filter_ext. intros i x Hx. unfold in_bucket; simpl. naive_solver.
  - destruct Hyoung as [|Hyoung]; [by left|right]. unfold young in *.
    pose proof (filter_size_mono (λ x, bucket x.2 = b ∧ (seenAt e ≤ seenAt x.2)%Z) m _ Hsub). lia.
Qed.

Lemma evict_process_spec fuel cap m :
  (0 < cap)%Z → size m ≤ fuel →
  evict_process fuel iter cap m ⊆ m ∧
  (Z.of_nat (size (evict_process fuel iter cap m)) < cap)%Z ∧
  ∀ k e, m !! k = Some e → (young_all (seenAt e) m < cap)%Z → evict_process fuel iter cap m !! k = Some e.
Proof.
  intros Hcap. revert m. induction fuel as [|fuel IH]; intros m Hfuel; simpl.
  { split; [done|]. split; [|done]. lia. }
  destruct (cap <=? Z.of_nat (size m))%Z eqn:Hfull; bool_prop; [|done].
  destruct (evictOldest_spec m) as (k0 & e0 & Hk0 & -> & Hmin); [lia|].
  assert (Hsub : delete k0 m ⊆ m) by apply delete_subseteq.
  destruct (IH (delete k0 m)) as (Hs & Hlt & Hkeep).
  { rewrite map_size_delete, Hk0. lia. }
  split; [by etrans|]. split; [done|]. intros k e Hk Hyoung. apply Hkeep.
  - rewrite lookup_delete_ne; [done|]. intros ->. rewrite Hk in Hk0. injection Hk0 as <-.
    unfold young_all in *.
    assert (filter (λ x, (seenAt e ≤ seenAt x.2)%Z) m = m) as Heq; [|rewrite Heq in Hyoung; lia].
    apply map_filter_id. intros i x Hx. simpl. eauto.
  - unfold young_all in *. pose proof (filter_size_mono (λ x, (seenAt e ≤ seenAt x.2)%Z) m _ Hsub). lia.
Qed.
End hello.

Lemma size_insert_fresh (m : gmap string sshStreamHelloNonceEntry) k e : m !! k = None → size (<[k := e]> m) = S (size m).
Proof. intros Hk. by rewrite map_size_insert, Hk. Qed.

Lemma filter_insert_le (P : string * sshStreamHelloNonceEntry → Prop) `{∀ x, Decision (P x)}
    (m : gmap string sshStreamHelloNonceEntry) k e :
  size (filter P (<[k := e]> m)) ≤ size (filter P m) + if decide (P (k, e)) then 1 else 0.
Proof.
  destruct (decide (P (k, e))).
  - rewrite map_filter_insert_True by done. rewrite map_size_insert. simpl. destruct (_ !! k); unfold id; lia.
  - rewrite map_filter_insert_False by done. rewrite map_filter_delete, map_size_delete. destruct (_ !! k); unfold id; lia.
Qed.

Lemma filter_none (P : string * sshStreamHelloNonceEntry → Prop) `{∀ x, Decision (P x)}
    (m : gmap string sshStreamHelloNonceEntry) :
  (∀ k e, m !! k = Some e → ¬ P (k, e)) → size (filter P m) = 0.
Proof.
  intros Hno. apply map_size_empty_iff, map_empty. intros k. apply map_lookup_filter_None. right. eauto.
Qed.

Lemma bucketSize_mono m m' b : m' ⊆ m → (bucketSize m' b ≤ bucketSize m b)%Z.
Proof. intros Hsub. unfold bucketSize. pose proof (filter_size_mono (in_bucket b) m m' Hsub). lia. Qed.

Lemma young_mono b t m m' : m' ⊆ m → (young b t m' ≤ young b t m)%Z.
Proof. intros Hsub. unfold young. pose proof (filter_size_mono (λ e, bucket e.2 = b ∧ (t ≤ seenAt e.2)%Z) m m' Hsub). lia. Qed.

Lemma young_all_mono t m m' : m' ⊆ m → (young_all t m' ≤ young_all t m)%Z.
Proof. intros Hsub. unfold young_all. pose proof (filter_size_mono (λ e, (t ≤ seenAt e.2)%Z) m m' Hsub). lia. Qed.

(** What one accepted or refused handshake does to the cache. *)
Lemma remember_spec c x :
  iterates (hc_iter x) → hello_wf c →
  let '(ok, c') := remember_call c x in
  hello_wf c' ∧ bucketCap c' = bucketCap c ∧ processCap c' = processCap c ∧
  ok = bool_decide (filter (λ e, Before (seenAt e.2) (hc_now x - nonceRetention)%Z = false) (hello_seen c)
        !! sshStreamHelloNonceKey (call_bucket x) (hc_nonce x) = None) ∧
  (∀ k e, hello_seen c' !! k = Some e →
    hello_seen c !! k = Some e ∨ (ok = true ∧ k = sshStreamHelloNonceKey (call_bucket x) (hc_nonce x) ∧
      e = MkHelloEntry (call_bucket x) (hc_now x))) ∧
  (∀ k e, hello_seen c !! k = Some e → (hc_now x ≤ seenAt e + nonceRetention)%Z →
    bucket e ≠ call_bucket x ∨ (young (call_bucket x) (seenAt e) (hello_seen c) < bucketCap c)%Z →
    (young_all (seenAt e) (hello_seen c) < processCap c)%Z → hello_seen c' !! k = Some e) ∧
  (ok = true → hello_seen c' !! sshStreamHelloNonceKey (call_bucket x) (hc_nonce x) =
    Some (MkHelloEntry (call_bucket x) (hc_now x))).
Proof.
  intros Hiter [Hbc Hpc Hp Hb]. unfold remember_call, remember. fold (call_bucket x).
  rewrite !(proj2 (Z.leb_gt _ _)) by lia.
  set (live := filter _ (hello_seen c)). set (key := sshStreamHelloNonceKey _ _).
  assert (Hlive : live ⊆ hello_seen c) by apply map_filter_subseteq.
  assert (Hstay : ∀ k e, hello_seen c !! k = Some e → (hc_now x ≤ seenAt e + nonceRetention)%Z → live !! k = Some e).
  { intros k e He Ht. apply map_lookup_filter_Some. split; [done|]. apply Z.ltb_ge. simpl. lia. }
  destruct (live !! key) as [old|] eqn:Hkey; simpl.
  { split; [split; simpl; [done|done| |]|].
    - pose proof (map_subseteq_size _ _ Hlive). lia.
    - intros b. pose proof (bucketSize_mono _ _ b Hlive). specialize (Hb b). lia.
    - split; [done|]. split; [done|]. split; [done|]. split; [|split; [auto|done]].
      intros k e He. left. by eapply lookup_weaken. }
  destruct (evict_bucket_spec (hc_iter x) Hiter (size live) (bucketCap c) (call_bucket x) live Hbc (le_n _))
    as (Hs1 & Hlt1 & Hk1).
  set (l1 := evict_bucket _ _ _ _ _) in *.
  destruct (evict_process_spec (hc_iter x) Hiter (size l1) (processCap c) l1 Hpc (le_n _)) as (Hs2 & Hlt2 & Hk2).
  set (l2 := evict_process _ _ _ _) in *.
  assert (Hl1 : l1 ⊆ hello_seen c) by by etrans.
  assert (Hl2 : l2 ⊆ hello_seen c) by by etrans.
  assert (Hnone : l2 !! key = None) by (eapply lookup_weaken_None; [exact Hkey|exact (transitivity Hs2 Hs1)]).
  split; [split; simpl; [done|done| |]|].
  - rewrite size_insert_fresh by done. lia.
  - intros b. rewrite bucketSize_insert by done. simpl. case_bool_decide as Hbb.
    + subst b. pose proof (bucketSize_mono _ _ (call_bucket x) Hs2). lia.
    + pose proof (bucketSize_mono _ _ b Hl2). specialize (Hb b). lia.
  - split; [done|]. split; [done|]. split; [done|]. split; [|split; [|by rewrite lookup_insert_eq]].
    + intros k e [[<- <-]|[_ He]]%lookup_insert_Some; [by right|left]. by eapply lookup_weaken.
    + intros k e He Ht Hy Hya. pose proof (Hstay _ _ He Ht) as Hst.
      rewrite lookup_insert_ne by (intros ->; congruence). apply Hk2; [apply Hk1; [done|]|].
      * destruct Hy as [|Hy]; [by left|right]. pose proof (young_mono (call_bucket x) (seenAt e) _ _ Hlive). lia.
      * pose proof (young_all_mono (seenAt e) _ _ Hl1). lia.
Qed.

Lemma remember_call_wf c x : iterates (hc_iter x) → hello_wf c → hello_wf (remember_call c x).2.
Proof.
  intros Hi Hc. pose proof (remember_spec c x Hi Hc) as H. destruct (remember_call c x). apply H.
Qed.

Lemma remember_calls_wf c l : Forall (λ x, iterates (hc_iter x)) l → hello_wf c → hello_wf (remember_calls c l).
Proof.
  intros Hl. revert c. induction Hl as [|x l Hx Hl IH]; intros c Hc; simpl; [done|]. by apply IH, remember_call_wf.
Qed.

Lemma new_hello_wf bcap pcap : hello_wf (newSSHStreamHelloNonceCacheWithCaps bcap pcap).
Proof.
  unfold newSSHStreamHelloNonceCacheWithCaps, SSHStreamHelloNonceBucketCap, SSHStreamHelloNonceProcessCap.
  split; simpl.
  1,2: case_match; bool_prop; lia.
  - rewrite map_size_empty. case_match; bool_prop; lia.
  - intros b. unfold bucketSize. rewrite map_filter_empty, map_size_empty. case_match; bool_prop; lia.
Qed.

(** The young entries grow by at most one per accepted handshake. *)
Lemma young_step c x b t :
  iterates (hc_iter x) → hello_wf c →
  let c' := (remember_call c x).2 in
  (young b t (hello_seen c') ≤ young b t (hello_seen c) + if bool_decide (call_bucket x = b) then 1 else 0)%Z ∧
  (young_all t (hello_seen c') ≤ young_all t (hello_seen c) + 1)%Z.
Proof.
  intros Hi Hc. pose proof (remember_spec c x Hi Hc) as H. destruct (remember_call c x) as [ok c']. simpl.
  destruct H as (_ & _ & _ & _ & Horigin & _).
  set (key := sshStreamHelloNonceKey (call_bucket x) (hc_nonce x)) in *.
  set (e := MkHelloEntry (call_bucket x) (hc_now x)) in *.
  assert (Hsub : hello_seen c' ⊆ <[key := e]> (hello_seen c) ∨ hello_seen c' ⊆ hello_seen c).
  { destruct (hello_seen c' !! key) as [e'|] eqn:Hk.
    - destruct (decide (hello_seen c !! key = Some e')) as [Hold|Hnew].
      + right. apply map_subseteq_spec. intros k d Hd. destruct (Horigin _ _ Hd) as [?|(_ & -> & _)]; [done|congruence].
      + left. apply map_subseteq_spec. intros k d Hd.
        destruct (Horigin _ _ Hk) as [?|(_ & _ & ->)]; [done|].
        destruct (decide (k = key)) as [->|Hne]; [rewrite lookup_insert_eq; congruence|].
        rewrite lookup_insert_ne by done. destruct (Horigin _ _ Hd) as [?|(_ & -> & _)]; done.
    - right. apply map_subseteq_spec. intros k d Hd. destruct (Horigin _ _ Hd) as [?|(_ & -> & _)]; [done|congruence]. }
  destruct Hsub as [Hsub|Hsub].
  - pose proof (young_mono b t _ _ Hsub) as H1. pose proof (young_all_mono t _ _ Hsub) as H2. unfold young, young_all in *.
    pose proof (filter_insert_le (λ e, bucket e.2 = b ∧ (t ≤ seenAt e.2)%Z) (hello_seen c) key e) as H3.
    pose proof (filter_insert_le (λ e, (t ≤ seenAt e.2)%Z) (hello_seen c) key e) as H4.
    split; [case_bool_decide as Hb; [|rewrite decide_False in H3 by (intros [? _]; done)]; repeat case_decide; lia|].
    repeat case_decide; lia.
  - pose proof (young_mono b t _ _ Hsub). pose proof (young_all_mono t _ _ Hsub).
    split; [case_bool_decide; lia|lia].
Qed.

(** An entry outlives every sequence of handshakes that is short for its caps. *)
Lemma remember_calls_keep l c k e :
  hello_wf c → Forall (λ x, iterates (hc_iter x) ∧ (hc_now x ≤ seenAt e + nonceRetention)%Z) l →
  hello_seen c !! k = Some e →
  (young (bucket e) (seenAt e) (hello_seen c) + Z.of_nat (length (filter (λ x, call_bucket x = bucket e) l)) ≤ bucketCap c)%Z →
  (young_all (seenAt e) (hello_seen c) + Z.of_nat (length l) ≤ processCap c)%Z →
  hello_seen (remember_calls c l) !! k = Some e.
Proof.
  revert c. induction l as [|x l IH]; intros c Hc Hl Hk Hy Hya; simpl; [done|].
  apply Forall_cons in Hl as [[Hi Ht] Hl].
  pose proof (remember_spec c x Hi Hc) as Hspec. destruct (young_step c x (bucket e) (seenAt e) Hi Hc) as [Hb Ha].
  destruct (remember_call c x) as [ok c'] eqn:Hrc. simpl in *.
  destruct Hspec as (Hc' & Hbc & Hpc & _ & _ & Hkeep & _).
  rewrite filter_cons in Hy. case_bool_decide as Hcb.
  - rewrite decide_True in Hy by done. simpl in *.
    apply IH; [done|done| |rewrite Hbc; lia|rewrite Hpc; lia].
    apply Hkeep; [done|done| |lia]. right. rewrite Hcb. lia.
  - rewrite decide_False in Hy by done.
    apply IH; [done|done| |rewrite Hbc; lia|rewrite Hpc; lia].
    apply Hkeep; [done|done|by left|lia].
Qed.

(** ** Properties *)

(** The request-nonce cache, which forgets expired nonces, decides exactly as
    if it remembered every acceptance for ever: over any sequence of calls with a
    clock that does not go back, a nonce is accepted if and only if it is not
    empty and every earlier acceptance of it is at least [ttl] old. *)
Theorem nonceCache_refines_log (ttl : Z) (calls : list (string * time))
    (Hclock : StronglySorted Z.le calls.*2) :
  (accept_all (newNonceCache ttl) calls).1 = NonceLog.decide_all ttl [] calls.
Proof.
  destruct calls as [|[n t] calls]; [done|].
  apply (accept_all_log (newNonceCache ttl) [] ((n, t) :: calls) t).
  - split; simpl; intros m u; [by rewrite lookup_empty|set_solver].
  - constructor; [done|]. simpl. apply StronglySorted_inv in Hclock as [_ Hle]. by constructor.
Qed.

(** C40. The handshake cache stays within its bounds whatever order Go iterates
    its map in: at most 256 nonces per host and purpose and 8192 in all. *)
Theorem hello_cache_bounded (l : list hello_call) (b : string)
    (Hl : Forall (λ x, iterates (hc_iter x)) l) :
  let c := remember_calls NewSSHStreamHelloNonceCache l in
  (Z.of_nat (size (hello_seen c)) ≤ 8192)%Z ∧ (bucketSize (hello_seen c) b ≤ 256)%Z.
Proof.
  intros c.
  assert (bucketCap c = 256%Z ∧ processCap c = 8192%Z ∧ hello_wf c) as (Hb & Hp & Hc).
  { subst c. unfold remember_calls. generalize (new_hello_wf SSHStreamHelloNonceBucketCap SSHStreamHelloNonceProcessCap).
    assert (bucketCap NewSSHStreamHelloNonceCache = 256%Z ∧ processCap NewSSHStreamHelloNonceCache = 8192%Z) as Hcap by done.
    fold NewSSHStreamHelloNonceCache. revert Hcap. generalize NewSSHStreamHelloNonceCache.
    induction Hl as [|x l Hx Hl IH]; intros c [Hb Hp] Hc; simpl; [done|].
    pose proof (remember_spec c x Hx Hc) as H. destruct (remember_call c x) as [ok c'] eqn:Hr.
    destruct H as (Hc' & Hb' & Hp' & _). simpl in *. apply IH; [|done]. by rewrite Hb', Hp'. }
  destruct Hc as [_ _ Hsz Hbk]. specialize (Hbk b). lia.
Qed.

(** A handshake nonce cannot be replayed while it is remembered: after a
    handshake accepted later than everything in the cache, the same host,
    purpose and nonce are refused for [nonceRetention], as long as fewer than
    [bucketCap] handshakes of that host and purpose and fewer than [processCap]
    in all came in between. *)
Theorem hello_replay_refused c x l y
    (Hc : hello_wf c) (Hx : iterates (hc_iter x)) (Hy : iterates (hc_iter y))
    (Hnewest : ∀ k e, hello_seen c !! k = Some e → (seenAt e < hc_now x)%Z)
    (Hacc : (remember_call c x).1 = true)
    (Hl : Forall (λ z, iterates (hc_iter z) ∧ (hc_now z ≤ hc_now x + nonceRetention)%Z) l)
    (Hbucket : (Z.of_nat (length (filter (λ z, call_bucket z = call_bucket x) l)) < bucketCap c)%Z)
    (Hprocess : (Z.of_nat (length l) < processCap c)%Z)
    (Hsame : hc_host y = hc_host x ∧ hc_purpose y = hc_purpose x ∧ hc_nonce y = hc_nonce x)
    (Htime : (hc_now y ≤ hc_now x + nonceRetention)%Z) :
  (remember_call (remember_calls (remember_call c x).2 l) y).1 = false.
Proof.
  pose proof (remember_spec c x Hx Hc) as Hspec. destruct (young_step c x (call_bucket x) (hc_now x) Hx Hc) as [Hyb Hya].
  destruct (remember_call c x) as [ok c1]. simpl in *. subst ok.
  destruct Hspec as (Hc1 & Hb1 & Hp1 & _ & _ & _ & Hin). specialize (Hin eq_refl).
  assert (young (call_bucket x) (hc_now x) (hello_seen c) = 0%Z ∧ young_all (hc_now x) (hello_seen c) = 0%Z) as [Hyb0 Hya0].
  { unfold young, young_all. split; rewrite filter_none; try done.
    all: intros k e He; specialize (Hnewest _ _ He); simpl; lia. }
  rewrite bool_decide_eq_true_2 in Hyb by done.
  set (key := sshStreamHelloNonceKey (call_bucket x) (hc_nonce x)) in *.
  assert (Hstill : hello_seen (remember_calls c1 l) !! key = Some (MkHelloEntry (call_bucket x) (hc_now x))).
  { apply remember_calls_keep; simpl; [done|done|done|rewrite Hb1; lia|rewrite Hp1; lia]. }
  assert (Hwf : hello_wf (remember_calls c1 l)).
  { apply remember_calls_wf; [|done]. eapply Forall_impl; [apply Hl|]. by intros ? []. }
  pose proof (remember_spec _ y Hy Hwf) as Hspec. destruct (remember_call _ y) as [ok c2]. simpl.
  destruct Hspec as (_ & _ & _ & -> & _). apply bool_decide_eq_false.
  replace (sshStreamHelloNonceKey (call_bucket y) (hc_nonce y)) with key
    by (unfold key, call_bucket; destruct Hsame as (-> & -> & ->); done).
  intros Hnone. rewrite map_lookup_filter_None in Hnone. destruct Hnone as [Hn|Hn]; [congruence|].
  apply (Hn _ Hstill). apply Z.ltb_ge. simpl. lia.
Qed.

(** ** Witnesses *)

Lemma iterates_map_to_list : iterates map_to_list.
Proof. intros m. done. Qed.

Lemma nonceCache_refines_log_witness :
  (accept_all (newNonceCache 10%Z) [("a", 1%Z); ("a", 5%Z); ("b", 5%Z); ("a", 11%Z)]).1 = [true; false; true; true].
Proof.
  rewrite nonceCache_refines_log; [reflexivity|]. cbn.
  repeat first [apply SSorted_nil | apply SSorted_cons | apply Forall_nil_2 | apply Forall_cons_2 | lia].
Defined.

Lemma hello_cache_bounded_witness :
  let l := [MkHelloCall map_to_list "mac" "sync-stream" "n1" 5%Z; MkHelloCall map_to_list "mac" "sync-stream" "n2" 6%Z] in
  (bucketSize (hello_seen (remember_calls NewSSHStreamHelloNonceCache l)) (sshStreamHelloNonceBucket "mac" "sync-stream") ≤ 256)%Z.
Proof.
  intros l. apply (hello_cache_bounded l).
  repeat (constructor; [apply iterates_map_to_list|]). constructor.
Defined.

Lemma hello_replay_refused_witness :
  let x := MkHelloCall map_to_list "mac" "sync-stream" "n1" 5%Z in
  let y := MkHelloCall map_to_list "mac" "sync-stream" "n1" 9%Z in
  let l := [MkHelloCall map_to_list "mac" "sync-stream" "n2" 6%Z] in
  (remember_call (remember_calls (remember_call NewSSHStreamHelloNonceCache x).2 l) y).1 = false.
Proof.
  intros x y l.
  apply (hello_replay_refused NewSSHStreamHelloNonceCache x l y).
  - exact (new_hello_wf _ _).
  - apply iterates_map_to_list.
  - apply iterates_map_to_list.
  - intros k e He. vm_compute in He. discriminate.
  - vm_compute. reflexivity.
  - constructor; [|constructor]. split; [apply iterates_map_to_list|vm_compute; discriminate].
  - vm_compute. reflexivity.
  - vm_compute. reflexivity.
  - repeat split.
  - vm_compute. discriminate.
Defined.
