(* ===== verification/Auth.v ===== *)
(** * Authentication and encryption: transport/auth.go, crypto.go, envelope.go

    Signing and verifying of requests and responses with the shared key or a key
    derived from it (HKDF), sealing of clip bodies, and the envelope that carries
    a clip.  Randomness is an argument: the bytes the generator gave, or [None]
    for its failure.  A nil [*Auth] is [None]. *)
From S2P Require Import Prelude GoStrings Encoding Clip Hostnames Nonce.
From Stdlib Require Import Ascii String.
From stdpp Require Import strings.

Definition AuthVersionRequestHMAC : string := "clipfan-v1/request-hmac".

Definition hkdfSalt : string := "clipfan-v1/hkdf-salt".

Definition sshHelloHMACLabel : string := "clipfan-v1/ssh-hello-hmac".

Definition bodyAEADLabel : string := "clipfan-v1/body-aead".

Definition nl : string := String (ascii_of_nat 10) "".

Inductive AuthError :=
| KeyNotBase64
| KeyTooShort
| UnknownKeyLabel (label : string)
| AuthRequired
| SignatureNotHex
| BadSignature
| BadResponseSignature
| UnsupportedAuthVersion (version : string)
| ErrAuthVersionMismatch
| ErrBadSignature
| NonceGeneration
| BodyNonceNotBase64
| InvalidBodyNonce
| BodyNotBase64
| MessageAuthenticationFailed
| ErrWrongRecipient
| ErrFutureEnvelopeTimestamp
| ErrEnvelopeDecrypt (cause : AuthError).

#[export] Instance auth_error_eq_dec : EqDecision AuthError.
Proof. solve_decision. Defined.

Record Auth := MkAuth { key : string }.

Definition NewAuth (b64Key : string) : result AuthError Auth :=
  match b64_decode b64Key with
  | None => Err KeyNotBase64
  | Some k => if (len k <? 16)%nat then Err KeyTooShort else Ok (MkAuth k)
  end.

Section auth.
Context `{Crypto}.

(** ** Key derivation *)

(** The expansion loop; a digest has 32 bytes, so one turn gives a 32-byte key,
    and the counter of 255 turns bounds what HKDF can give at all. *)
Fixpoint hkdf_expand (fuel : nat) (prk info : string) (counter : nat) (prev okm : string) (length : nat) : string :=
  match fuel with
  | 0 => okm
  | S fuel =>
      if (len okm <? length)%nat then
        let prev := hmac_sha256 prk (prev +:+ info +:+ String (ascii_of_nat counter) "") in
        hkdf_expand fuel prk info (counter + 1) prev (okm +:+ prev) length
      else okm
  end.

Definition hkdfSHA256 (ikm salt info : string) (length : nat) : string :=
  String.substring 0 length (hkdf_expand 255 (hmac_sha256 salt ikm) info 1 "" "" length).

Definition DeriveKey (rawKey label : string) : result AuthError string :=
  if bool_decide (label = AuthVersionRequestHMAC) || bool_decide (label = sshHelloHMACLabel)
     || bool_decide (label = bodyAEADLabel)
  then Ok (hkdfSHA256 rawKey hkdfSalt label 32)
  else Err (UnknownKeyLabel label).

Definition RequestHMACKey (a : option Auth) : result AuthError string :=
  match a with
  | None => Err AuthRequired
  | Some a => DeriveKey (key a) AuthVersionRequestHMAC
  end.

Definition requestSigningKey (a : option Auth) (authVersion : string) : result AuthError string :=
  match a with
  | None => Err AuthRequired
  | Some a' =>
      if bool_decide (authVersion = "") then Ok (key a')
      else if bool_decide (authVersion = AuthVersionRequestHMAC) then RequestHMACKey a
      else Err (UnsupportedAuthVersion authVersion)
  end.

(** ** Canonical texts *)

Definition canonicalRequest (method requestURI timestamp nonce body : string) : string :=
  method +:+ nl +:+ requestURI +:+ nl +:+ timestamp +:+ nl +:+ nonce +:+ nl +:+ body.

Definition canonicalRequestWithAuthVersion (method requestURI timestamp nonce body authVersion : string) : string :=
  if bool_decide (authVersion = "") then canonicalRequest method requestURI timestamp nonce body
  else method +:+ nl +:+ requestURI +:+ nl +:+ timestamp +:+ nl +:+ nonce +:+ nl +:+
       "auth_version=" +:+ authVersion +:+ nl +:+ body.

Definition canonicalResponse (requestNonce body : string) : string :=
  "response" +:+ nl +:+ requestNonce +:+ nl +:+ body.

Definition canonicalResponseWithAuthVersion (requestNonce body authVersion : string) : string :=
  if bool_decide (authVersion = "") then canonicalResponse requestNonce body
  else "response" +:+ nl +:+ requestNonce +:+ nl +:+ "auth_version=" +:+ authVersion +:+ nl +:+ body.

(** ** Signing and verifying *)

Definition SignRequest (a : Auth) (method requestURI timestamp nonce body : string) : string :=
  hex_encode (hmac_sha256 (key a) (canonicalRequest method requestURI timestamp nonce body)).

Definition VerifyRequest (a : Auth) (method requestURI timestamp nonce body sig : string) : result AuthError () :=
  match hex_decode sig with
  | None => Err SignatureNotHex
  | Some expect =>
      if bool_decide (expect = hmac_sha256 (key a) (canonicalRequest method requestURI timestamp nonce body))
      then Ok () else Err BadSignature
  end.

Definition SignRequestWithAuthVersion (a : option Auth)
    (method requestURI timestamp nonce body authVersion : string) : result AuthError string :=
  k ← requestSigningKey a authVersion;
  Ok (hex_encode (hmac_sha256 k
    (canonicalRequestWithAuthVersion method requestURI timestamp nonce body authVersion))).

Definition VerifyRequestWithAuthVersion (a : option Auth)
    (method requestURI timestamp nonce body sig authVersion : string) : result AuthError () :=
  match hex_decode sig with
  | None => Err SignatureNotHex
  | Some expect =>
      k ← requestSigningKey a authVersion;
      if bool_decide (expect = hmac_sha256 k
           (canonicalRequestWithAuthVersion method requestURI timestamp nonce body authVersion))
      then Ok () else Err BadSignature
  end.

Definition VerifyRequestRequiredAuthVersion (a : option Auth)
    (method requestURI timestamp nonce body sig authVersion requiredAuthVersion : string) : result AuthError () :=
  if negb (bool_decide (authVersion = requiredAuthVersion)) then Err ErrAuthVersionMismatch
  else
    match VerifyRequestWithAuthVersion a method requestURI timestamp nonce body sig authVersion with
    | Ok _ => Ok ()
    | Err _ => Err ErrBadSignature
    end.

Definition SignResponse (a : Auth) (requestNonce body : string) : string :=
  hex_encode (hmac_sha256 (key a) (canonicalResponse requestNonce body)).

Definition VerifyResponse (a : Auth) (requestNonce body sig : string) : result AuthError () :=
  match hex_decode sig with
  | None => Err SignatureNotHex
  | Some expect =>
      if bool_decide (expect = hmac_sha256 (key a) (canonicalResponse requestNonce body))
      then Ok () else Err BadResponseSignature
  end.

Definition SignResponseWithAuthVersion (a : option Auth) (requestNonce body authVersion : string) :
    result AuthError string :=
  k ← requestSigningKey a authVersion;
  Ok (hex_encode (hmac_sha256 k (canonicalResponseWithAuthVersion requestNonce body authVersion))).

Definition VerifyResponseWithAuthVersion (a : option Auth) (requestNonce body sig authVersion : string) :
    result AuthError () :=
  match hex_decode sig with
  | None => Err SignatureNotHex
  | Some expect =>
      k ← requestSigningKey a authVersion;
      if bool_decide (expect = hmac_sha256 k (canonicalResponseWithAuthVersion requestNonce body authVersion))
      then Ok () else Err BadResponseSignature
  end.

(** ** Signed request headers *)

Record SignedRequestOptions := MkSignedRequestOptions {
  so_Timestamp : time;
  so_Nonce : string;
  so_AuthVersion : string;
}.

(** The four headers; the version header is absent for the legacy version, and
    an absent header reads as the empty string. *)
Record SignedHeaders := MkSignedHeaders {
  h_ts : string;
  h_nonce : string;
  h_sig : string;
  h_authVersion : string;
}.

(** [NewClipID]: 16 random bytes in hex, empty when the generator failed. *)
Definition NewClipID (rand : option string) : string :=
  match rand with Some b => hex_encode b | None => "" end.

Definition SignedRequestHeaders (a : option Auth) (now : time) (rand : option string)
    (method requestURI body : string) (opts : SignedRequestOptions) : result AuthError SignedHeaders :=
  let t := if IsZero (so_Timestamp opts) then now else so_Timestamp opts in
  let nonce := if bool_decide (so_Nonce opts = "") then NewClipID rand else so_Nonce opts in
  if bool_decide (nonce = "") then Err NonceGeneration
  else
    let ts := format_int (unix_of t) in
    sig ← SignRequestWithAuthVersion a method requestURI ts nonce body (so_AuthVersion opts);
    Ok (MkSignedHeaders ts nonce sig (so_AuthVersion opts)).

(** ** transport/crypto.go *)

Definition bodyCipher (a : option Auth) : result AuthError string :=
  match a with
  | None => Err AuthRequired
  | Some a => Ok (sha256 (key a))
  end.

(** The sealed body and its nonce, both in base64. *)
Definition SealBody (a : option Auth) (rand : option string) (plain : string) : result AuthError (string * string) :=
  k ← bodyCipher a;
  match rand with
  | None => Err NonceGeneration
  | Some nonceBytes => Ok (b64_encode (gcm_seal k nonceBytes plain), b64_encode nonceBytes)
  end.

Definition OpenBody (a : option Auth) (nonce body : string) : result AuthError string :=
  k ← bodyCipher a;
  match b64_decode nonce with
  | None => Err BodyNonceNotBase64
  | Some nonceBytes =>
      if negb (len nonceBytes =? gcm_NonceSize)%nat then Err InvalidBodyNonce
      else
        match b64_decode body with
        | None => Err BodyNotBase64
        | Some ciphertext =>
            match gcm_open k nonceBytes ciphertext with
            | None => Err MessageAuthenticationFailed
            | Some plain => Ok plain
            end
        end
  end.

(** ** transport/envelope.go *)

Record Envelope := MkEnvelope {
  env_ID : string;
  env_Origin : string;
  env_Recipient : string;
  env_TS : time;
  env_Kind : string;
  env_Body : string;
  env_Nonce : string;
  env_Concealed : bool;
}.

Definition BuildEnvelope (a : option Auth) (rand : option string) (content : Content) (origin recipient : string) :
    result AuthError Envelope :=
  '(body, bodyNonce) ← SealBody a rand (Bytes content);
  Ok (MkEnvelope (ID content) origin recipient (TS content) (ckind content) body bodyNonce (Concealed content)).

Definition OpenEnvelope (a : option Auth) (env : Envelope) (recipientIdentity : string) (receivedAt : time) :
    result AuthError (Content * string) :=
  if negb (bool_decide (recipientIdentity = "")) && negb (RecipientMatches (env_Recipient env) recipientIdentity)
  then Err ErrWrongRecipient
  else if After (env_TS env) (receivedAt + signatureSkew)%Z then Err ErrFutureEnvelopeTimestamp
  else
    match OpenBody a (env_Nonce env) (env_Body env) with
    | Err e => Err (ErrEnvelopeDecrypt e)
    | Ok raw =>
        let c := New (env_Kind env) raw (env_TS env) in
        Ok (with_concealed (with_id c (env_ID env)) (env_Concealed env), env_Origin env)
    end.

End auth.

(** ** Lemmas *)

Lemma VerifyRequest_Ok `{Crypto} a m u t n b sig v :
  VerifyRequestWithAuthVersion a m u t n b sig v = Ok () ↔
  ∃ k, requestSigningKey a v = Ok k ∧
    hex_decode sig = Some (hmac_sha256 k (canonicalRequestWithAuthVersion m u t n b v)).
Proof.
  unfold VerifyRequestWithAuthVersion. destruct (hex_decode sig) as [e|]; [|naive_solver].
  rewrite bind_Ok. split.
  - intros (k & Hk & Hv). case_bool_decide; naive_solver.
  - intros (k & Hk & [= ->]). exists k. by rewrite bool_decide_eq_true_2.
Qed.

Lemma VerifyResponse_Ok `{Crypto} a n b sig v :
  VerifyResponseWithAuthVersion a n b sig v = Ok () ↔
  ∃ k, requestSigningKey a v = Ok k ∧
    hex_decode sig = Some (hmac_sha256 k (canonicalResponseWithAuthVersion n b v)).
Proof.
  unfold VerifyResponseWithAuthVersion. destruct (hex_decode sig) as [e|]; [|naive_solver].
  rewrite bind_Ok. split.
  - intros (k & Hk & Hv). case_bool_decide; naive_solver.
  - intros (k & Hk & [= ->]). exists k. by rewrite bool_decide_eq_true_2.
Qed.

(** A field that holds no line break. *)
Definition one_line (s : string) : bool := negb (has_byte (ascii_of_nat 10) s).

Lemma nl_inj a b s t : one_line a = true → one_line b = true → a +:+ nl +:+ s = b +:+ nl +:+ t → a = b ∧ s = t.
Proof. unfold one_line. intros; bool_prop. by eapply (app_sep_inj (ascii_of_nat 10)). Qed.

Lemma app_inj_l (a s t : string) : a +:+ s = a +:+ t → s = t.
Proof. induction a as [|x a IH]; [done|]. intros [= H]. auto. Qed.

(** The canonical text of a request determines its fields. *)
Lemma canonicalRequest_inj m u t n b m' u' t' n' b' v :
  Forall (λ s, one_line s = true) [m; u; t; n] → Forall (λ s, one_line s = true) [m'; u'; t'; n'] →
  canonicalRequestWithAuthVersion m u t n b v = canonicalRequestWithAuthVersion m' u' t' n' b' v →
  (m, u, t, n, b) = (m', u', t', n', b').
Proof.
  rewrite !Forall_cons, !Forall_nil. intros (Hm & Hu & Ht & Hn & _) (Hm' & Hu' & Ht' & Hn' & _).
  unfold canonicalRequestWithAuthVersion, canonicalRequest. intros Heq.
  assert (∃ s s', m +:+ nl +:+ u +:+ nl +:+ t +:+ nl +:+ n +:+ nl +:+ s =
                  m' +:+ nl +:+ u' +:+ nl +:+ t' +:+ nl +:+ n' +:+ nl +:+ s' ∧ (s = s' → b = b')) as (s & s' & H & Hb).
  { revert Heq. case_bool_decide; intros Heq; [by exists b, b'|].
    eexists _, _; split; [exact Heq|]. intros Hs. by do 3 apply app_inj_l in Hs. }
  apply nl_inj in H as [-> H]; [|done|done]. apply nl_inj in H as [-> H]; [|done|done].
  apply nl_inj in H as [-> H]; [|done|done]. apply nl_inj in H as [-> H]; [|done|done]. by rewrite Hb.
Qed.

Lemma hkdf_expand_done `{Crypto} fuel prk info counter prev okm n :
  n ≤ len okm → hkdf_expand fuel prk info counter prev okm n = okm.
Proof. intros Hn. destruct fuel; simpl; [done|]. by rewrite (proj2 (Nat.ltb_ge _ _)). Qed.

Lemma hkdf_expand_step `{Crypto} fuel prk info counter prev okm n :
  len okm < n →
  hkdf_expand (S fuel) prk info counter prev okm n =
  let block := hmac_sha256 prk (prev +:+ info +:+ String (ascii_of_nat counter) "") in
  hkdf_expand fuel prk info (counter + 1) block (okm +:+ block) n.
Proof. intros Hn. simpl. by rewrite (proj2 (Nat.ltb_lt _ _)). Qed.

Lemma hkdf_one_block `{CryptoLaws} ikm salt info :
  hkdfSHA256 ikm salt info 32 =
  hmac_sha256 (hmac_sha256 salt ikm) (info +:+ String (ascii_of_nat 1) "").
Proof.
  unfold hkdfSHA256. rewrite hkdf_expand_step by (unfold len; simpl; lia). cbv zeta.
  change ("" +:+ info +:+ String (ascii_of_nat 1) "") with (info +:+ String (ascii_of_nat 1) "").
  set (block := hmac_sha256 (hmac_sha256 salt ikm) _). change ("" +:+ block) with block.
  assert (Hlen : len block = 32) by apply hmac_len. rewrite hkdf_expand_done by (rewrite Hlen; lia).
  rewrite <- Hlen. rewrite <- (sapp_nil_r block) at 2. apply substring_app_l.
Qed.

Lemma OpenBody_SealBody `{CryptoLaws} a rand plain body nonce :
  SealBody a (Some rand) plain = Ok (body, nonce) → len rand = gcm_NonceSize → OpenBody a nonce body = Ok plain.
Proof.
  unfold SealBody, OpenBody. destruct a as [a|]; [|done]. simpl. intros [= <- <-] Hr.
  rewrite !b64_decode_encode, Hr. simpl. by rewrite gcm_open_seal.
Qed.

Lemma OpenEnvelope_hashed `{Crypto} a env identity receivedAt c origin :
  OpenEnvelope a env identity receivedAt = Ok (c, origin) → hashed c.
Proof. unfold OpenEnvelope. intros Ho. go_cases. done. Qed.

Lemma OpenEnvelope_Build `{CryptoLaws} a rand c origin recipient identity receivedAt env :
  BuildEnvelope a (Some rand) c origin recipient = Ok env → len rand = gcm_NonceSize →
  RecipientMatches recipient identity = true → (TS c ≤ receivedAt + signatureSkew)%Z →
  OpenEnvelope a env identity receivedAt =
    Ok (MkContent (ID c) (ckind c) (Bytes c) (sha256 (Bytes c)) (TS c) (Concealed c), origin).
Proof.
  intros Hbuild Hrand Hmatch Htime.
  unfold BuildEnvelope in Hbuild. apply bind_Ok in Hbuild as ([body nonce] & Hseal & [= <-]).
  unfold OpenEnvelope; simpl. rewrite Hmatch, andb_false_r. unfold After. rewrite (proj2 (Z.ltb_ge _ _)) by lia.
  by rewrite (OpenBody_SealBody _ _ _ _ _ Hseal Hrand).
Qed.

(** ** Properties *)

(** C38. A signature binds the request. If a signature made for one request
    verifies for a request with one-line fields under the same shared key, then
    it is the same request in every field and the body, or the two canonical
    texts and keys are a concrete HMAC collision, or the versions differ and the
    derived request key equals the shared key itself. *)
Theorem request_signature_binds `{Crypto} a m u t n b v m' u' t' n' b' v' sig
    (Hsign : SignRequestWithAuthVersion a m u t n b v = Ok sig)
    (Hverify : VerifyRequestWithAuthVersion a m' u' t' n' b' sig v' = Ok ())
    (Hlines : Forall (λ s, one_line s = true) [m; u; t; n])
    (Hlines' : Forall (λ s, one_line s = true) [m'; u'; t'; n']) :
  (m, u, t, n, b, v) = (m', u', t', n', b', v') ∨
  ∃ k k', requestSigningKey a v = Ok k ∧ requestSigningKey a v' = Ok k' ∧
    let msg := canonicalRequestWithAuthVersion m u t n b v in
    let msg' := canonicalRequestWithAuthVersion m' u' t' n' b' v' in
    hmac_sha256 k msg = hmac_sha256 k' msg' ∧ ((k, msg) ≠ (k', msg') ∨ (v ≠ v' ∧ k = k')).
Proof.
  unfold SignRequestWithAuthVersion in Hsign. apply bind_Ok in Hsign as (k & Hk & [= <-]).
  apply VerifyRequest_Ok in Hverify as (k' & Hk' & Hhex). rewrite hex_decode_encode in Hhex.
  injection Hhex as Hmac.
  destruct (decide (v = v')) as [<-|Hv].
  - assert (k' = k) as -> by congruence.
    destruct (decide (canonicalRequestWithAuthVersion m u t n b v = canonicalRequestWithAuthVersion m' u' t' n' b' v)) as [Heq|Hne].
    + left. apply canonicalRequest_inj in Heq; [|done|done]. congruence.
    + right. exists k, k. split; [done|]. split; [done|]. split; [done|]. left. congruence.
  - right. exists k, k'. split; [done|]. split; [done|]. split; [done|].
    destruct (decide (k = k')) as [->|]; [by right|left; congruence].
Qed.

(** Every version the code signs with verifies, for requests and for
    responses: both peers of a shared key accept each other's messages. A version
    it does not know is refused by both sides, and a verifier that requires one
    version accepts no other, with one of exactly two errors. *)
Theorem auth_versions_spec `{Crypto} (a : Auth) m u t n b v required :
  (v = "" ∨ v = AuthVersionRequestHMAC →
    (∃ sig, SignRequestWithAuthVersion (Some a) m u t n b v = Ok sig ∧
            VerifyRequestWithAuthVersion (Some a) m u t n b sig v = Ok ()) ∧
    (∃ sig, SignResponseWithAuthVersion (Some a) n b v = Ok sig ∧
            VerifyResponseWithAuthVersion (Some a) n b sig v = Ok ())) ∧
  (v ≠ "" ∧ v ≠ AuthVersionRequestHMAC →
    SignRequestWithAuthVersion (Some a) m u t n b v = Err (UnsupportedAuthVersion v) ∧
    ∀ sig, VerifyRequestWithAuthVersion (Some a) m u t n b sig v ≠ Ok ()) ∧
  ∀ sig, match VerifyRequestRequiredAuthVersion (Some a) m u t n b sig v required with
         | Ok _ => v = required ∧ VerifyRequestWithAuthVersion (Some a) m u t n b sig v = Ok ()
         | Err e => (e = ErrAuthVersionMismatch ∧ v ≠ required) ∨
                    (e = ErrBadSignature ∧ v = required ∧ VerifyRequestWithAuthVersion (Some a) m u t n b sig v ≠ Ok ())
         end.
Proof.
  split; [|split].
  - intros Hv. assert (∃ k, requestSigningKey (Some a) v = Ok k) as [k Hk].
    { destruct Hv as [-> | ->]; eexists; reflexivity. }
    split; eexists.
    + unfold SignRequestWithAuthVersion. rewrite Hk. split; [reflexivity|].
      apply VerifyRequest_Ok. exists k. by rewrite hex_decode_encode.
    + unfold SignResponseWithAuthVersion. rewrite Hk. split; [reflexivity|].
      apply VerifyResponse_Ok. exists k. by rewrite hex_decode_encode.
  - intros [H1 H2]. assert (Hk : requestSigningKey (Some a) v = Err (UnsupportedAuthVersion v)).
    { unfold requestSigningKey. by rewrite !bool_decide_eq_false_2. }
    split; [unfold SignRequestWithAuthVersion; by rewrite Hk|].
    intros sig (k & Hk' & _)%VerifyRequest_Ok. congruence.
  - intros sig. unfold VerifyRequestRequiredAuthVersion. case_bool_decide; simpl; [|naive_solver].
    destruct (VerifyRequestWithAuthVersion _ _ _ _ _ _ _ _) as [[]|e] eqn:Hv; naive_solver.
Qed.

(** Key derivation is defined on exactly the three labels of the protocol; it
    gives the first 32-byte HKDF block, so the loop stops after one turn, and the
    keys of two labels differ unless HMAC collides on two different texts. *)
Theorem DeriveKey_spec `{CryptoLaws} (raw label : string) :
  (∀ k, DeriveKey raw label = Ok k ↔
    label ∈ [AuthVersionRequestHMAC; sshHelloHMACLabel; bodyAEADLabel] ∧
    k = hmac_sha256 (hmac_sha256 hkdfSalt raw) (label +:+ String (ascii_of_nat 1) "")) ∧
  (∀ k, DeriveKey raw label = Ok k → len k = 32) ∧
  (label ∉ [AuthVersionRequestHMAC; sshHelloHMACLabel; bodyAEADLabel] →
    DeriveKey raw label = Err (UnknownKeyLabel label)).
Proof.
  assert (Hspec : ∀ k, DeriveKey raw label = Ok k ↔
    label ∈ [AuthVersionRequestHMAC; sshHelloHMACLabel; bodyAEADLabel] ∧
    k = hmac_sha256 (hmac_sha256 hkdfSalt raw) (label +:+ String (ascii_of_nat 1) "")).
  { intros k. unfold DeriveKey. rewrite hkdf_one_block.
    destruct (_ || _) eqn:Hl; rewrite !elem_of_cons, elem_of_nil.
    - rewrite !orb_true_iff, !bool_decide_eq_true in Hl. naive_solver.
    - rewrite !orb_false_iff, !bool_decide_eq_false in Hl. naive_solver. }
  split; [done|]. split.
  - intros k [_ ->]%Hspec. apply hmac_len.
  - rewrite !not_elem_of_cons. intros (? & ? & ? & _). unfold DeriveKey. by rewrite !bool_decide_eq_false_2.
Qed.

(** An envelope built for a peer opens there to the clip it was built from:
    the same ID, kind, bytes, timestamp and concealed flag, with the hash computed
    anew, and the same origin, for any identity the recipient matches and at any
    time the timestamp is not more than the skew ahead of. *)
Theorem envelope_roundtrip `{CryptoLaws} a rand c origin recipient identity receivedAt env
    (Hbuild : BuildEnvelope a (Some rand) c origin recipient = Ok env)
    (Hrand : len rand = gcm_NonceSize)
    (Hmatch : RecipientMatches recipient identity = true)
    (Htime : (TS c ≤ receivedAt + signatureSkew)%Z) :
  OpenEnvelope a env identity receivedAt =
    Ok (MkContent (ID c) (ckind c) (Bytes c) (sha256 (Bytes c)) (TS c) (Concealed c), origin).
Proof. by apply (OpenEnvelope_Build a rand c origin recipient). Qed.

(** What an opened envelope guarantees: it was addressed to this host, it is
    not from the future by more than the skew, its nonce is a 12-byte GCM nonce
    and its body authenticates under the body key, and the clip carries exactly
    the envelope's fields and a hash that is that of its bytes. *)
Theorem OpenEnvelope_sound `{Crypto} a env identity receivedAt c origin
    (Hopen : OpenEnvelope a env identity receivedAt = Ok (c, origin)) :
  (identity = "" ∨ RecipientMatches (env_Recipient env) identity = true) ∧
  (TS c ≤ receivedAt + signatureSkew)%Z ∧
  hashed c ∧ origin = env_Origin env ∧
  (ID c, ckind c, TS c, Concealed c) = (env_ID env, env_Kind env, env_TS env, env_Concealed env) ∧
  ∃ au nonce ciphertext, a = Some au ∧ b64_decode (env_Nonce env) = Some nonce ∧ len nonce = gcm_NonceSize ∧
    b64_decode (env_Body env) = Some ciphertext ∧ gcm_open (sha256 (key au)) nonce ciphertext = Some (Bytes c).
Proof.
  unfold OpenEnvelope in Hopen. destruct (_ && _) eqn:Hr; [done|].
  destruct (After _ _) eqn:Ht; [done|]. apply Z.ltb_ge in Ht.
  destruct (OpenBody a _ _) as [raw|] eqn:Hb; [|done]. injection Hopen as <- <-. simpl.
  split; [|split; [done|split; [done|split; [done|split; [done|]]]]].
  - apply andb_false_iff in Hr as [Hr|Hr]; apply negb_false_iff in Hr; [left|by right]. by apply bool_decide_eq_true in Hr.
  - unfold OpenBody in Hb. destruct a as [au|]; [|done]. simpl in Hb.
    destruct (b64_decode (env_Nonce env)) as [nb|] eqn:Hn; [|done].
    destruct (len nb =? gcm_NonceSize)%nat eqn:Hl; [|done]. simpl in Hb.
    destruct (b64_decode (env_Body env)) as [ct|] eqn:Hct; [|done].
    destruct (gcm_open _ _ _) eqn:Ho; [|done]. injection Hb as <-.
    exists au, nb, ct. apply Nat.eqb_eq in Hl. done.
Qed.

(** ** Witnesses *)

Definition demo_auth : Auth := MkAuth "0123456789abcdef".

Lemma request_signature_binds_witness :
  ∃ sig, @SignRequestWithAuthVersion toy_crypto (Some demo_auth) "GET" "/v1/current" "1700000000" "n1" "" "" = Ok sig ∧
    @VerifyRequestWithAuthVersion toy_crypto (Some demo_auth) "GET" "/v1/current" "1700000000" "n1" "" sig "" = Ok () ∧
    ("GET", "/v1/current", "1700000000", "n1", "", "") = ("GET", "/v1/current", "1700000000", "n1", "", "").
Proof.
  destruct (@SignRequestWithAuthVersion toy_crypto (Some demo_auth) "GET" "/v1/current" "1700000000" "n1" "" "")
    as [sig|] eqn:Hs; [|vm_compute in Hs; discriminate].
  assert (Hv : @VerifyRequestWithAuthVersion toy_crypto (Some demo_auth) "GET" "/v1/current" "1700000000" "n1" "" sig "" = Ok ())
    by (vm_compute in Hs; injection Hs as <-; vm_compute; reflexivity).
  exists sig. split; [reflexivity|]. split; [exact Hv|].
  destruct (@request_signature_binds toy_crypto (Some demo_auth) "GET" "/v1/current" "1700000000" "n1" "" ""
    "GET" "/v1/current" "1700000000" "n1" "" "" sig Hs Hv) as [H|(k & k' & Hk & Hk' & _ & [Hne|[Hne _]])].
  - repeat constructor.
  - repeat constructor.
  - exact H.
  - exfalso. apply Hne. rewrite Hk in Hk'. injection Hk' as ->. reflexivity.
  - exfalso. apply Hne. reflexivity.
Defined.

Definition demo_content : Content := MkContent "0011" KindText "hello" (pad32 "hello") (10 * second)%Z false.

Definition demo_envelope : Envelope :=
  match @BuildEnvelope toy_crypto (Some demo_auth) (Some "nonce-bytes!") demo_content "mac" "studio.local" with
  | Ok e => e
  | Err _ => MkEnvelope "" "" "" zero_time "" "" "" false
  end.

Lemma envelope_roundtrip_witness :
  @OpenEnvelope toy_crypto (Some demo_auth) demo_envelope "studio" (10 * second)%Z = Ok (demo_content, "mac").
Proof.
  apply (@envelope_roundtrip toy_crypto toy_laws (Some demo_auth) "nonce-bytes!" demo_content "mac" "studio.local").
  - vm_compute. reflexivity.
  - reflexivity.
  - reflexivity.
  - vm_compute. discriminate.
Defined.

Lemma OpenEnvelope_sound_witness :
  @OpenEnvelope toy_crypto (Some demo_auth) demo_envelope "studio" (10 * second)%Z = Ok (demo_content, "mac") ∧
  RecipientMatches (env_Recipient demo_envelope) "studio" = true.
Proof.
  assert (Ho : @OpenEnvelope toy_crypto (Some demo_auth) demo_envelope "studio" (10 * second)%Z = Ok (demo_content, "mac"))
    by (vm_compute; reflexivity).
  destruct (@OpenEnvelope_sound toy_crypto (Some demo_auth) demo_envelope "studio" (10 * second)%Z demo_content "mac" Ho)
    as ([Hid|Hr] & _); [discriminate|].
  split; [exact Ho|exact Hr].
Defined.

Lemma DeriveKey_spec_witness :
  @DeriveKey toy_crypto "raw" sshHelloHMACLabel =
    Ok (@hmac_sha256 toy_crypto (@hmac_sha256 toy_crypto hkdfSalt "raw") (sshHelloHMACLabel +:+ String (ascii_of_nat 1) "")).
Proof.
  apply (@DeriveKey_spec toy_crypto toy_laws "raw" sshHelloHMACLabel). split; [right; left|reflexivity].
Defined.
