(* ===== verification/Stream.v ===== *)
(** * The SSH sync stream: transport/ssh_stream.go

    Two hosts joined by an SSH channel exchange one JSON object per line: a
    signed hello each, then states, acknowledgements and errors.  A line is
    modelled as the object's fields in the order the decoder meets them, with the
    typed value of each ([jval]); JSON syntax itself is the library's.  The reader
    below the lines ([readFrameLine]) works on the byte stream. *)
From S2P Require Import Prelude GoStrings Utf8 Encoding Clip Hostnames Nonce Auth.
From Stdlib Require Import Ascii String.
From stdpp Require Import strings.

Definition SSHStreamProtocolV1 : Z := 1%Z.

Definition SSHStreamPurposeSyncStream : string := "sync-stream".

Definition SSHStreamFrameHello : string := "hello".

Definition SSHStreamFrameState : string := "state".

Definition SSHStreamFrameAck : string := "ack".

Definition SSHStreamFrameError : string := "error".

Definition MaxSSHStreamFrameBytes : Z := (90 * 2 ^ 20)%Z.

Definition MaxSSHStreamPayloadBytes : Z := (64 * 2 ^ 20)%Z.

Inductive StreamError :=
| ErrSSHStreamFrameTooLarge
| ErrSSHStreamPayloadTooLarge
| ErrSSHStreamUnexpectedEOF
| ErrSSHStreamUnexpectedFrame (why : string)
| ErrSSHStreamInvalidHello (why : string)
| ErrSSHStreamSenderMismatch
| StreamAuthError (e : AuthError)
| StreamJSONError
| StreamContextDone
| StreamWriteFailed.

#[export] Instance stream_error_eq_dec : EqDecision StreamError.
Proof. solve_decision. Defined.

(** An error of the layer below becomes an error of the stream. *)
Definition lift_auth {A} (r : result AuthError A) : result StreamError A :=
  match r with Ok a => Ok a | Err e => Err (StreamAuthError e) end.

Record SSHStreamHello := MkHello {
  hl_Protocols : list Z;
  hl_Purpose : string;
  hl_HostID : string;
  hl_PeerID : string;
  hl_TS : Z;
  hl_Nonce : string;
  hl_Sig : string;
}.

Record SSHStreamFrame := MkFrame {
  f_Type : string;
  f_Protocols : list Z;
  f_Purpose : string;
  f_HostID : string;
  f_PeerID : string;
  f_TS : Z;
  f_Nonce : string;
  f_Sig : string;
  f_Seq : Z;
  f_Sender : string;
  f_Clip : option Envelope;
  f_NullReason : string;
  f_ID : string;
  f_Status : string;
  f_Reason : string;
  f_Code : string;
  f_clipPresent : bool;
}.

Definition zero_frame : SSHStreamFrame :=
  MkFrame "" [] "" "" "" 0 "" "" 0 "" None "" "" "" "" "" false.

(** ** Frames as JSON objects *)

Inductive jval :=
| JNull
| JString (s : string)
| JInt (z : Z)
| JInts (l : list Z)
| JEnvelope (e : Envelope)
| JOther.

Definition persist_env (e : Envelope) : Envelope :=
  MkEnvelope (json_text (env_ID e)) (json_text (env_Origin e)) (json_text (env_Recipient e)) (env_TS e)
    (json_text (env_Kind e)) (json_text (env_Body e)) (json_text (env_Nonce e)) (env_Concealed e).

Definition string_field (k s : string) : list (string * jval) :=
  if bool_decide (s = "") then [] else [(k, JString (json_text s))].

Definition int_field (k : string) (z : Z) : list (string * jval) :=
  if (z =? 0)%Z then [] else [(k, JInt z)].

(** The fields [MarshalJSON] puts in its map. *)
Definition MarshalJSON (f : SSHStreamFrame) : list (string * jval) :=
  [("type", JString (json_text (f_Type f)))] ++
  (if (0 <? length (f_Protocols f))%nat then [("protocols", JInts (f_Protocols f))] else []) ++
  string_field "purpose" (f_Purpose f) ++
  string_field "host_id" (f_HostID f) ++
  string_field "peer_id" (f_PeerID f) ++
  int_field "ts" (f_TS f) ++
  string_field "nonce" (f_Nonce f) ++
  string_field "sig" (f_Sig f) ++
  int_field "seq" (f_Seq f) ++
  string_field "sender" (f_Sender f) ++
  match f_Clip f with
  | Some e => [("clip", JEnvelope (persist_env e))]
  | None => if bool_decide (f_Type f = SSHStreamFrameState) then [("clip", JNull)] else []
  end ++
  string_field "null_reason" (f_NullReason f) ++
  string_field "id" (f_ID f) ++
  string_field "status" (f_Status f) ++
  string_field "reason" (f_Reason f) ++
  string_field "code" (f_Code f).

Definition sshStreamFrameFields : list string :=
  ["type"; "protocols"; "purpose"; "host_id"; "peer_id"; "ts"; "nonce"; "sig"; "seq"; "sender"; "clip";
   "null_reason"; "id"; "status"; "reason"; "code"].

(** [None]: the line is not a JSON object followed by nothing. *)
Fixpoint validate_keys (seen : list string) (keys : list string) : result StreamError () :=
  match keys with
  | [] => Ok ()
  | k :: keys =>
      if negb (bool_decide (k ∈ sshStreamFrameFields)) then Err (ErrSSHStreamUnexpectedFrame "unknown field")
      else if bool_decide (k ∈ seen) then Err (ErrSSHStreamUnexpectedFrame "duplicate field")
      else validate_keys (k :: seen) keys
  end.

Definition validateSSHStreamFrameObject (line : option (list (string * jval))) : result StreamError () :=
  match line with
  | None => Err (ErrSSHStreamUnexpectedFrame "root object")
  | Some fields => validate_keys [] fields.*1
  end.

(** The value of a field after [json.Unmarshal]: absent or null leaves the zero
    value, a value of the wrong type or out of the field's range is an error. *)
Definition field (k : string) (fields : list (string * jval)) : jval :=
  match list_find (λ kv, kv.1 = k) fields with Some (_, kv) => kv.2 | None => JNull end.

Definition get_string (k : string) (fields : list (string * jval)) : result StreamError string :=
  match field k fields with JNull => Ok "" | JString s => Ok s | _ => Err StreamJSONError end.

Definition get_int (lo hi : Z) (k : string) (fields : list (string * jval)) : result StreamError Z :=
  match field k fields with
  | JNull => Ok 0%Z
  | JInt z => if (lo <=? z)%Z && (z <=? hi)%Z then Ok z else Err StreamJSONError
  | _ => Err StreamJSONError
  end.

Definition int64_min : Z := (- 2 ^ 63)%Z.

Definition int64_max : Z := (2 ^ 63 - 1)%Z.

Definition uint64_max : Z := (2 ^ 64 - 1)%Z.

Definition get_ints (k : string) (fields : list (string * jval)) : result StreamError (list Z) :=
  match field k fields with
  | JNull => Ok []
  | JInts l => if forallb (λ z, (int64_min <=? z)%Z && (z <=? int64_max)%Z) l then Ok l else Err StreamJSONError
  | _ => Err StreamJSONError
  end.

Definition get_clip (k : string) (fields : list (string * jval)) : result StreamError (option Envelope) :=
  match field k fields with
  | JNull => Ok None
  | JEnvelope e => Ok (Some e)
  | _ => Err StreamJSONError
  end.

Definition decodeSSHStreamFrame (line : option (list (string * jval))) : result StreamError SSHStreamFrame :=
  _ ← validateSSHStreamFrameObject line;
  let fields := default [] line in
  type ← get_string "type" fields;
  protocols ← get_ints "protocols" fields;
  purpose ← get_string "purpose" fields;
  host_id ← get_string "host_id" fields;
  peer_id ← get_string "peer_id" fields;
  ts ← get_int int64_min int64_max "ts" fields;
  nonce ← get_string "nonce" fields;
  sig ← get_string "sig" fields;
  seq ← get_int 0 uint64_max "seq" fields;
  sender ← get_string "sender" fields;
  clip ← get_clip "clip" fields;
  null_reason ← get_string "null_reason" fields;
  id ← get_string "id" fields;
  status ← get_string "status" fields;
  reason ← get_string "reason" fields;
  code ← get_string "code" fields;
  Ok (MkFrame type protocols purpose host_id peer_id ts nonce sig seq sender clip null_reason id status reason code
    (bool_decide ("clip" ∈ fields.*1))).

(** ** Reading lines *)

(** The size of the [bufio.Reader]'s buffer. *)
Definition bufSize : nat := 4096.

(** The bytes up to and including the first line break among the first [n], and
    whether there was one. *)
Fixpoint take_line (n : nat) (s : string) : string * bool :=
  match n, s with
  | S n, String a s =>
      if bool_decide (a = ascii_of_nat 10) then (String a "", true)
      else let '(l, ok) := take_line n s in (String a l, ok)
  | _, _ => ("", false)
  end.

Inductive ReadErr := ReadDone | ErrBufferFull | ReadEOF.

(** [s.reader.ReadSlice('\n')] on the bytes that are left: the slice, the error
    and the bytes after it. *)
Definition ReadSlice (input : string) : string * ReadErr * string :=
  let '(chunk, found) := take_line bufSize input in
  let rest := String.substring (len chunk) (len input - len chunk) input in
  (chunk, (if found then ReadDone else if (len chunk =? bufSize)%nat then ErrBufferFull else ReadEOF), rest).

Definition sshStreamPayloadLen (line : string) : Z :=
  if HasSuffix line nl then Z.of_nat (len line) - 1 else Z.of_nat (len line).

(** The loop of [readFrameLine], with no cancellation; every turn but the last
    consumes a full buffer. *)
Fixpoint readFrameLine_loop (fuel : nat) (max : Z) (line input : string) : result StreamError (string * string) :=
  match fuel with
  | 0 => Err ErrSSHStreamUnexpectedEOF
  | S fuel =>
      let '(chunk, err, rest) := ReadSlice input in
      let line := line +:+ chunk in
      if (0 <? len chunk)%nat && (max <? sshStreamPayloadLen line)%Z then Err ErrSSHStreamFrameTooLarge
      else
        match err with
        | ReadDone => Ok (line, rest)
        | ErrBufferFull => readFrameLine_loop fuel max line rest
        | ReadEOF => Err ErrSSHStreamUnexpectedEOF
        end
  end.

Definition readFrameLine (ctxDone : bool) (max : Z) (input : string) : result StreamError (string * string) :=
  if ctxDone then Err StreamContextDone
  else readFrameLine_loop (S (len input)) max "" input.

(** ** The stream *)

Record SSHSyncStream := MkStream {
  auth : option Auth;
  localID : string;
  remoteID : string;
  purpose : string;
  nextSeq : Z;
  maxPayloadBytes : Z;
}.

(** A new stream; the handshake cache, shared by all streams of the process, is
    threaded beside it. *)
Definition NewSSHSyncStream (auth : option Auth) (localID remoteID : string) : SSHSyncStream :=
  MkStream auth localID remoteID SSHStreamPurposeSyncStream 1 MaxSSHStreamPayloadBytes.

Definition with_nextSeq (s : SSHSyncStream) (n : Z) : SSHSyncStream :=
  MkStream (auth s) (localID s) (remoteID s) (purpose s) n (maxPayloadBytes s).

(** [s.nextSeq++] on a uint64. *)
Definition bump_seq (s : SSHSyncStream) : SSHSyncStream := with_nextSeq s ((nextSeq s + 1) mod 2 ^ 64)%Z.

(** ** Hellos *)

Fixpoint valid_protocols_from (previous : Z) (hasV1 : bool) (protocols : list Z) : bool :=
  match protocols with
  | [] => hasV1
  | p :: protocols =>
      if (p <=? 0)%Z || (p <=? previous)%Z then false
      else valid_protocols_from p (hasV1 || (p =? SSHStreamProtocolV1)%Z) protocols
  end.

Definition validSSHStreamProtocols (protocols : list Z) : bool :=
  match protocols with [] => false | _ => valid_protocols_from 0 false protocols end.

Definition validateSSHStreamHelloShape (h : SSHStreamHello) : result StreamError () :=
  if bool_decide (hl_Purpose h = "") || bool_decide (hl_HostID h = "") || bool_decide (hl_PeerID h = "")
     || (hl_TS h =? 0)%Z || bool_decide (hl_Nonce h = "") || bool_decide (hl_Sig h = "")
  then Err (ErrSSHStreamInvalidHello "missing field")
  else if negb (validSSHStreamProtocols (hl_Protocols h)) then Err (ErrSSHStreamInvalidHello "protocols")
  else Ok ().

Definition verifySSHStreamHelloIdentity (h : SSHStreamHello) (expectedPurpose expectedHostID expectedPeerID : string) :
    result StreamError () :=
  if negb (bool_decide (expectedPurpose = "")) && negb (bool_decide (hl_Purpose h = expectedPurpose))
  then Err (ErrSSHStreamInvalidHello "purpose")
  else if negb (bool_decide (expectedHostID = "")) && negb (bool_decide (hl_HostID h = expectedHostID))
  then Err (ErrSSHStreamInvalidHello "host id")
  else if negb (bool_decide (expectedPeerID = "")) && negb (bool_decide (hl_PeerID h = expectedPeerID))
  then Err (ErrSSHStreamInvalidHello "peer id")
  else Ok ().

Definition sshStreamProtocolList (protocols : list Z) : string := GoStrings.Join "," (format_int <$> protocols).

Definition sshStreamHelloCanonical (h : SSHStreamHello) : string :=
  "clipfan-ssh-hello-v1" +:+ nl +:+ "host_id=" +:+ hl_HostID h +:+
  nl +:+ "peer_id=" +:+ hl_PeerID h +:+
  nl +:+ "purpose=" +:+ hl_Purpose h +:+
  nl +:+ "protocols=" +:+ sshStreamProtocolList (hl_Protocols h) +:+
  nl +:+ "ts=" +:+ format_int (hl_TS h) +:+
  nl +:+ "nonce=" +:+ hl_Nonce h +:+ nl +:+ nl.

Section stream.
Context `{Crypto}.

Definition sshHelloHMACKey (a : option Auth) : result AuthError string :=
  match a with
  | None => Err AuthRequired
  | Some a => DeriveKey (key a) sshHelloHMACLabel
  end.

Definition signSSHStreamHello (a : option Auth) (h : SSHStreamHello) : result AuthError string :=
  k ← sshHelloHMACKey a;
  Ok (hex_encode (hmac_sha256 k (sshStreamHelloCanonical h))).

Definition unsigned (h : SSHStreamHello) : SSHStreamHello :=
  MkHello (hl_Protocols h) (hl_Purpose h) (hl_HostID h) (hl_PeerID h) (hl_TS h) (hl_Nonce h) "".

Definition verifySSHStreamHelloSignature (a : option Auth) (h : SSHStreamHello) : result StreamError () :=
  _ ← validateSSHStreamHelloShape h;
  match hex_decode (hl_Sig h) with
  | None => Err (ErrSSHStreamInvalidHello "signature")
  | Some got =>
      expected ← lift_auth (signSSHStreamHello a (unsigned h));
      match hex_decode expected with
      | None => Err StreamJSONError
      | Some expectedBytes =>
          if bool_decide (got = expectedBytes) then Ok () else Err (ErrSSHStreamInvalidHello "signature")
      end
  end.

(** [rand]: the 16 bytes of [randomSSHStreamNonce], used when no nonce is given. *)
Definition NewSSHStreamHello (a : option Auth) (purpose hostID peerID : string) (now : time) (nonce : string)
    (rand : option string) : result StreamError SSHStreamHello :=
  nonce ← (if bool_decide (nonce = "") then
             match rand with Some b => Ok (hex_encode b) | None => Err (StreamAuthError NonceGeneration) end
           else Ok nonce);
  let hello := MkHello [SSHStreamProtocolV1] purpose hostID peerID (unix_of now) nonce "" in
  sig ← lift_auth (signSSHStreamHello a hello);
  Ok (MkHello [SSHStreamProtocolV1] purpose hostID peerID (unix_of now) nonce sig).

(** The result and the nonce cache, where one is given. *)
Definition verifySSHStreamHello (a : option Auth) (h : SSHStreamHello) (receivedAt : time)
    (expectedPurpose expectedHostID expectedPeerID : string)
    (iter : map_order) (nonceCache : option SSHStreamHelloNonceCache) :
    result StreamError () * option SSHStreamHelloNonceCache :=
  match
    (_ ← validateSSHStreamHelloShape h;
     _ ← verifySSHStreamHelloIdentity h expectedPurpose expectedHostID expectedPeerID;
     if IsZero receivedAt then Err (ErrSSHStreamInvalidHello "missing received time")
     else
       let ts := time_Unix (hl_TS h) in
       if Before ts (receivedAt - signatureSkew)%Z || After ts (receivedAt + signatureSkew)%Z
       then Err (ErrSSHStreamInvalidHello "timestamp")
       else verifySSHStreamHelloSignature a h)
  with
  | Err e => (Err e, nonceCache)
  | Ok _ =>
      match nonceCache with
      | None => (Ok (), None)
      | Some cache =>
          let '(ok, cache) := remember iter cache (hl_HostID h) (hl_Purpose h) (hl_Nonce h) receivedAt in
          ((if ok then Ok () else Err (ErrSSHStreamInvalidHello "replayed nonce")), Some cache)
      end
  end.

Definition VerifySSHStreamHello (a : option Auth) (h : SSHStreamHello) (receivedAt : time) : result StreamError () :=
  (verifySSHStreamHello a h receivedAt SSHStreamPurposeSyncStream "" "" map_to_list None).1.

Definition verifyHello (s : SSHSyncStream) (h : SSHStreamHello) (receivedAt : time) (iter : map_order)
    (cache : SSHStreamHelloNonceCache) : result StreamError () * option SSHStreamHelloNonceCache :=
  verifySSHStreamHello (auth s) h receivedAt (purpose s) (remoteID s) (localID s) iter (Some cache).

Definition helloFrame (h : SSHStreamHello) : SSHStreamFrame :=
  MkFrame SSHStreamFrameHello (hl_Protocols h) (hl_Purpose h) (hl_HostID h) (hl_PeerID h) (hl_TS h) (hl_Nonce h) (hl_Sig h)
    0 "" None "" "" "" "" "" false.

Definition frameHello (f : SSHStreamFrame) : SSHStreamHello :=
  MkHello (f_Protocols f) (f_Purpose f) (f_HostID f) (f_PeerID f) (f_TS f) (f_Nonce f) (f_Sig f).

(** ** Writing frames *)

(** What is under a write: the context, the length of the marshalled text and
    whether the writer took it. *)
Record write_io := MkWriteIO {
  w_ctxDone : bool;
  w_len : Z;
  w_ok : bool;
}.

Definition writeFrame (io : write_io) (f : SSHStreamFrame) : result StreamError (list (string * jval)) :=
  if w_ctxDone io then Err StreamContextDone
  else if (MaxSSHStreamFrameBytes <? w_len io)%Z then Err ErrSSHStreamFrameTooLarge
  else if w_ok io then Ok (MarshalJSON f) else Err StreamWriteFailed.

Definition WriteHello (io : write_io) (s : SSHSyncStream) (h : SSHStreamHello) : result StreamError (list (string * jval)) :=
  _ ← verifySSHStreamHelloIdentity h (purpose s) (localID s) (remoteID s);
  _ ← verifySSHStreamHelloSignature (auth s) h;
  writeFrame io (helloFrame h).

Definition stateFrame (seq : Z) (sender : string) (clip : option Envelope) (nullReason : string) : SSHStreamFrame :=
  MkFrame SSHStreamFrameState [] "" "" "" 0 "" "" seq sender clip nullReason "" "" "" "" false.

Definition WriteState (io : write_io) (rand : option string) (s : SSHSyncStream) (seq : Z) (content : Content)
    (origin : string) : result StreamError (list (string * jval)) :=
  if (seq =? 0)%Z then Err (ErrSSHStreamUnexpectedFrame "zero seq")
  else if (maxPayloadBytes s <? Z.of_nat (len (Bytes content)))%Z then Err ErrSSHStreamPayloadTooLarge
  else
    env ← lift_auth (BuildEnvelope (auth s) rand content origin (remoteID s));
    writeFrame io (stateFrame seq (localID s) (Some env) "").

Definition validSSHStreamNullReason (reason : string) : bool :=
  bool_decide (reason ∈ ["no_visible_current"; "concealed_clear"; "user_cleared_current"]).

Definition WriteNullState (io : write_io) (s : SSHSyncStream) (seq : Z) (nullReason : string) :
    result StreamError (list (string * jval)) :=
  if (seq =? 0)%Z || negb (validSSHStreamNullReason nullReason) then Err (ErrSSHStreamUnexpectedFrame "null state")
  else writeFrame io (stateFrame seq (localID s) None nullReason).

Definition validSSHStreamAckStatus (status : string) : bool :=
  bool_decide (status ∈ ["no_state"; "applied"; "ignored_seen"; "ignored_echo"; "ignored_older"; "ignored_concealed"; "rejected"]).

Definition validateSSHStreamAck (seq : Z) (clipID status : string) : result StreamError () :=
  if (seq =? 0)%Z || negb (validSSHStreamAckStatus status) then Err (ErrSSHStreamUnexpectedFrame "ack")
  else if bool_decide (status = "no_state") then
    if negb (bool_decide (clipID = "")) then Err (ErrSSHStreamUnexpectedFrame "no_state ack id") else Ok ()
  else if bool_decide (clipID = "") then Err (ErrSSHStreamUnexpectedFrame "missing ack id")
  else Ok ().

Definition WriteAck (io : write_io) (seq : Z) (clipID status reason : string) : result StreamError (list (string * jval)) :=
  _ ← validateSSHStreamAck seq clipID status;
  writeFrame io (MkFrame SSHStreamFrameAck [] "" "" "" 0 "" "" seq "" None "" clipID status reason "" false).

Definition WriteError (io : write_io) (code : string) : result StreamError (list (string * jval)) :=
  writeFrame io (MkFrame SSHStreamFrameError [] "" "" "" 0 "" "" 0 "" None "" "" "" "" code false).

(** ** Reading frames *)

Record SSHStreamStateResult := MkStateResult {
  sr_Seq : Z;
  sr_Sender : string;
  sr_Content : Content;
  sr_Origin : string;
  sr_NullReason : string;
}.

Record SSHStreamAckResult := MkAckResult {
  ar_Seq : Z;
  ar_ID : string;
  ar_Status : string;
  ar_Reason : string;
}.

Inductive SSHStreamEvent :=
| EventState (state : SSHStreamStateResult)
| EventAck (ack : SSHStreamAckResult)
| EventError (code : string).

(** [readFrame]: decode a line and refuse frame types the protocol does not have. *)
Definition readFrame (line : option (list (string * jval))) : result StreamError SSHStreamFrame :=
  f ← decodeSSHStreamFrame line;
  if bool_decide (f_Type f ∈ [SSHStreamFrameHello; SSHStreamFrameState; SSHStreamFrameAck; SSHStreamFrameError])
  then Ok f else Err (ErrSSHStreamUnexpectedFrame (f_Type f)).

Definition ReadHello (s : SSHSyncStream) (line : option (list (string * jval))) (receivedAt : time) (iter : map_order)
    (cache : SSHStreamHelloNonceCache) : result StreamError SSHStreamHello * option SSHStreamHelloNonceCache :=
  match readFrame line with
  | Err e => (Err e, Some cache)
  | Ok f =>
      if negb (bool_decide (f_Type f = SSHStreamFrameHello)) then (Err (ErrSSHStreamUnexpectedFrame (f_Type f)), Some cache)
      else
        let h := frameHello f in
        let '(r, cache) := verifyHello s h receivedAt iter cache in
        (match r with Ok _ => Ok h | Err e => Err e end, cache)
  end.

Definition stateResultFromFrame (s : SSHSyncStream) (f : SSHStreamFrame) (receivedAt : time) :
    result StreamError (SSHStreamStateResult * SSHSyncStream) :=
  if negb (bool_decide (f_Type f = SSHStreamFrameState)) || (f_Seq f =? 0)%Z
  then Err (ErrSSHStreamUnexpectedFrame (f_Type f))
  else if negb (f_Seq f =? nextSeq s)%Z then Err (ErrSSHStreamUnexpectedFrame "seq")
  else if negb (bool_decide (f_Sender f = remoteID s)) then Err ErrSSHStreamSenderMismatch
  else if negb (f_clipPresent f) then Err (ErrSSHStreamUnexpectedFrame "missing clip")
  else
    match f_Clip f with
    | None =>
        if negb (validSSHStreamNullReason (f_NullReason f)) then Err (ErrSSHStreamUnexpectedFrame "null state")
        else Ok (MkStateResult (f_Seq f) (f_Sender f) zero_content "" (f_NullReason f), bump_seq s)
    | Some env =>
        '(content, origin) ← lift_auth (OpenEnvelope (auth s) env (localID s) receivedAt);
        if (maxPayloadBytes s <? Z.of_nat (len (Bytes content)))%Z then Err ErrSSHStreamPayloadTooLarge
        else Ok (MkStateResult (f_Seq f) (f_Sender f) content origin "", bump_seq s)
    end.

Definition ackResultFromFrame (f : SSHStreamFrame) : result StreamError SSHStreamAckResult :=
  if negb (bool_decide (f_Type f = SSHStreamFrameAck)) then Err (ErrSSHStreamUnexpectedFrame (f_Type f))
  else
    _ ← validateSSHStreamAck (f_Seq f) (f_ID f) (f_Status f);
    Ok (MkAckResult (f_Seq f) (f_ID f) (f_Status f) (f_Reason f)).

Definition eventFromFrame (s : SSHSyncStream) (f : SSHStreamFrame) (receivedAt : time) :
    result StreamError (SSHStreamEvent * SSHSyncStream) :=
  if bool_decide (f_Type f = SSHStreamFrameState) then
    '(state, s) ← stateResultFromFrame s f receivedAt;
    Ok (EventState state, s)
  else if bool_decide (f_Type f = SSHStreamFrameAck) then
    ack ← ackResultFromFrame f;
    Ok (EventAck ack, s)
  else if bool_decide (f_Type f = SSHStreamFrameError) then
    if bool_decide (f_Code f = "") then Err (ErrSSHStreamUnexpectedFrame "missing error code")
    else Ok (EventError (f_Code f), s)
  else Err (ErrSSHStreamUnexpectedFrame (f_Type f)).

(** [ReadNext]: one line off the channel, at the time it arrived. *)
Definition ReadNext (s : SSHSyncStream) (line : option (list (string * jval))) (receivedAt : time) :
    result StreamError (SSHStreamEvent * SSHSyncStream) :=
  f ← readFrame line;
  eventFromFrame s f receivedAt.

Definition ReadStateFrame (s : SSHSyncStream) (line : option (list (string * jval))) (receivedAt : time) :
    result StreamError (SSHStreamStateResult * SSHSyncStream) :=
  f ← readFrame line;
  stateResultFromFrame s f receivedAt.

(** The reading loop of a stream: events until the first error. *)
Fixpoint read_events (s : SSHSyncStream) (lines : list (option (list (string * jval)) * time)) :
    list SSHStreamEvent * SSHSyncStream * option StreamError :=
  match lines with
  | [] => ([], s, None)
  | (line, at_) :: lines =>
      match ReadNext s line at_ with
      | Err e => ([], s, Some e)
      | Ok (ev, s) => let '(evs, s, e) := read_events s lines in (ev :: evs, s, e)
      end
  end.

End stream.

(** ** Lemmas: the JSON object of a frame *)

(** The sixteen fields with the value each is given, if it is given one. *)
Definition opt_string (s : string) : option jval :=
  if bool_decide (s = "") then None else Some (JString (json_text s)).

Definition opt_int (z : Z) : option jval := if (z =? 0)%Z then None else Some (JInt z).

Definition frame_entries (f : SSHStreamFrame) : list (string * option jval) :=
  [("type", Some (JString (json_text (f_Type f))));
   ("protocols", if (0 <? length (f_Protocols f))%nat then Some (JInts (f_Protocols f)) else None);
   ("purpose", opt_string (f_Purpose f)); ("host_id", opt_string (f_HostID f)); ("peer_id", opt_string (f_PeerID f));
   ("ts", opt_int (f_TS f)); ("nonce", opt_string (f_Nonce f)); ("sig", opt_string (f_Sig f)); ("seq", opt_int (f_Seq f));
   ("sender", opt_string (f_Sender f));
   ("clip", match f_Clip f with
            | Some e => Some (JEnvelope (persist_env e))
            | None => if bool_decide (f_Type f = SSHStreamFrameState) then Some JNull else None
            end);
   ("null_reason", opt_string (f_NullReason f)); ("id", opt_string (f_ID f)); ("status", opt_string (f_Status f));
   ("reason", opt_string (f_Reason f)); ("code", opt_string (f_Code f))].

Definition given (e : string * option jval) : option (string * jval) := (λ v, (e.1, v)) <$> e.2.

Fixpoint assoc (k : string) (l : list (string * option jval)) : option jval :=
  match l with
  | [] => None
  | (k', v) :: l => if (k' =? k)%string then v else assoc k l
  end.

Lemma string_field_given k s : string_field k s = option_list (given (k, opt_string s)).
Proof. unfold string_field, opt_string, given. by case_bool_decide. Qed.

Lemma int_field_given k z : int_field k z = option_list (given (k, opt_int z)).
Proof. unfold int_field, opt_int, given. by destruct (z =? 0)%Z. Qed.

Lemma omap_option_list {A B} (f : A → option B) x l : omap f (x :: l) = option_list (f x) ++ omap f l.
Proof. simpl. by destruct (f x). Qed.

Lemma MarshalJSON_entries f : MarshalJSON f = omap given (frame_entries f).
Proof.
  unfold MarshalJSON, frame_entries. rewrite !string_field_given, !int_field_given, !omap_option_list.
  cbn [omap list_omap]. rewrite app_nil_r.
  repeat (apply (f_equal2 app); [try done; by repeat case_match|]). done.
Qed.

Lemma omap_given_keys l : (omap given l).*1 `sublist_of` l.*1.
Proof.
  induction l as [|[k [v|]] l IH]; [done| |].
  - cbn. by apply sublist_skip.
  - cbn. by apply sublist_cons.
Qed.

Lemma field_given k l : NoDup l.*1 → field k (omap given l) = default JNull (assoc k l).
Proof.
  unfold field. induction l as [|[k' [v|]] l IH]; intros Hnd; [done| |];
    apply NoDup_cons in Hnd as [Hk' Hnd]; specialize (IH Hnd); cbn.
  - destruct (String.eqb_spec k' k) as [->|Hne].
    + by rewrite decide_True.
    + rewrite decide_False by done. rewrite <- IH. by destruct (list_find _ _) as [[]|].
  - destruct (String.eqb_spec k' k) as [->|Hne]; [|done].
    assert (list_find (λ kv : string * jval, kv.1 = k) (omap given l) = None) as ->; [|done].
    apply list_find_None, Forall_forall. intros [k1 v1] Hin Heq. simpl in Heq. subst k1. apply Hk'.
    change (k ∈ l.*1). eapply elem_of_sublist; [|apply omap_given_keys]. apply list_elem_of_fmap. by exists (k, v1).
Qed.

Lemma field_perm k l l' : NoDup l.*1 → l ≡ₚ l' → field k l = field k l'.
Proof.
  intros Hnd Hp. unfold field.
  destruct (list_find _ l) as [[i [k1 v]]|] eqn:Hl.
  - apply list_find_Some in Hl as (Hi & Hk & _). simpl in Hk. subst k1.
    destruct (list_find _ l') as [[j [k2 w]]|] eqn:Hl'.
    + apply list_find_Some in Hl' as (Hj & Hk & _). simpl in Hk. subst k2. simpl.
      apply list_elem_of_lookup_2 in Hi, Hj. rewrite <- Hp in Hj.
      assert ((k, v) = (k, w)) as [= ->]; [|done].
      apply list_elem_of_lookup in Hi as [i' Hi], Hj as [j' Hj].
      assert (i' = j') as ->; [|congruence].
      eapply (NoDup_lookup l.*1); [done| |]; rewrite list_lookup_fmap; [by rewrite Hi|by rewrite Hj].
    + exfalso. apply list_find_None in Hl'. rewrite Forall_forall in Hl'. apply (Hl' (k, v)); [|done].
      rewrite <- Hp. by apply list_elem_of_lookup_2 in Hi.
  - destruct (list_find _ l') as [[j [k2 w]]|] eqn:Hl'; [|done]. exfalso.
    apply list_find_Some in Hl' as (Hj & Hk & _). apply list_find_None in Hl. rewrite Forall_forall in Hl.
    apply (Hl (k2, w)); [|done]. rewrite Hp. by apply list_elem_of_lookup_2 in Hj.
Qed.

Lemma validate_keys_ok seen keys :
  NoDup keys → (∀ k, k ∈ keys → k ∈ sshStreamFrameFields ∧ k ∉ seen) → validate_keys seen keys = Ok ().
Proof.
  intros Hnd. revert seen. induction Hnd as [|k keys Hk Hnd IH]; intros seen Hall; [done|]. cbn [validate_keys].
  destruct (Hall k) as [H1 H2]; [left|]. rewrite bool_decide_eq_true_2 by done. cbn [negb].
  rewrite bool_decide_eq_false_2 by done. apply IH. intros k' Hk'. destruct (Hall k') as [? ?]; [by right|].
  split; [done|]. rewrite not_elem_of_cons. split; [by intros ->|done].
Qed.

Lemma frame_entries_keys f : (frame_entries f).*1 = sshStreamFrameFields.
Proof. done. Qed.

Lemma frame_keys_NoDup f : NoDup (frame_entries f).*1.
Proof. rewrite frame_entries_keys. apply (bool_decide_unpack _). by vm_compute. Qed.

(** A frame that a JSON text can carry unchanged. *)
Record frame_wire (f : SSHStreamFrame) : Prop := {
  wire_strings : Forall (λ s, valid_utf8 s = true)
    [f_Type f; f_Purpose f; f_HostID f; f_PeerID f; f_Nonce f; f_Sig f; f_Sender f; f_NullReason f; f_ID f; f_Status f;
     f_Reason f; f_Code f];
  wire_protocols : Forall (λ z, (int64_min ≤ z ≤ int64_max)%Z) (f_Protocols f);
  wire_ts : (int64_min ≤ f_TS f ≤ int64_max)%Z;
  wire_seq : (0 ≤ f_Seq f ≤ uint64_max)%Z;
  wire_clip : match f_Clip f with Some e => persist_env e = e | None => True end;
}.

Definition with_clipPresent (f : SSHStreamFrame) : SSHStreamFrame :=
  MkFrame (f_Type f) (f_Protocols f) (f_Purpose f) (f_HostID f) (f_PeerID f) (f_TS f) (f_Nonce f) (f_Sig f) (f_Seq f)
    (f_Sender f) (f_Clip f) (f_NullReason f) (f_ID f) (f_Status f) (f_Reason f) (f_Code f)
    (match f_Clip f with Some _ => true | None => bool_decide (f_Type f = SSHStreamFrameState) end).

Section decode.
Context (f : SSHStreamFrame) (fields : list (string * jval)).
Context (Hfields : fields ≡ₚ MarshalJSON f) (Hwire : frame_wire f).

Lemma wire_field k : field k fields = default JNull (assoc k (frame_entries f)).
Proof.
  rewrite <- field_given by apply frame_keys_NoDup. rewrite <- MarshalJSON_entries. symmetry. apply field_perm; [|done].
  rewrite MarshalJSON_entries. eapply sublist_NoDup; [apply frame_keys_NoDup|]. apply omap_given_keys.
Qed.

Lemma wire_get_string k s :
  assoc k (frame_entries f) = opt_string s → valid_utf8 s = true → get_string k fields = Ok s.
Proof.
  intros Ha Hv. unfold get_string. rewrite wire_field, Ha. unfold opt_string.
  apply bool_decide_eq_true in Hv. case_bool_decide; subst; simpl; congruence.
Qed.

Lemma wire_get_int k z lo hi :
  assoc k (frame_entries f) = opt_int z → (lo ≤ z ≤ hi)%Z → get_int lo hi k fields = Ok z.
Proof.
  intros Ha Hz. unfold get_int. rewrite wire_field, Ha. unfold opt_int.
  destruct (z =? 0)%Z eqn:E; simpl; [apply Z.eqb_eq in E; congruence|].
  by rewrite !(proj2 (Z.leb_le _ _)) by lia.
Qed.

Lemma wire_valid : validateSSHStreamFrameObject (Some fields) = Ok ().
Proof.
  apply validate_keys_ok.
  - rewrite Hfields, MarshalJSON_entries. eapply sublist_NoDup; [apply frame_keys_NoDup|]. apply omap_given_keys.
  - intros k Hk. split; [|apply not_elem_of_nil]. rewrite Hfields, MarshalJSON_entries in Hk.
    rewrite <- (frame_entries_keys f). eapply elem_of_sublist; [done|apply omap_given_keys].
Qed.

Lemma wire_get_ints : get_ints "protocols" fields = Ok (f_Protocols f).
Proof.
  unfold get_ints. rewrite wire_field. cbn [assoc frame_entries]. simpl.
  destruct (f_Protocols f) as [|p l] eqn:Hp; simpl; [done|].
  assert (forallb (λ z, (int64_min <=? z)%Z && (z <=? int64_max)%Z) (p :: l) = true) as H; [|simpl in H; by rewrite H].
  apply forallb_forall. intros z Hz%list_elem_of_In. destruct Hwire as [_ Hproto _ _ _]. rewrite Hp in Hproto.
  rewrite Forall_forall in Hproto. specialize (Hproto _ Hz). apply andb_true_iff. by rewrite !Z.leb_le.
Qed.

Lemma wire_get_clip : get_clip "clip" fields = Ok (f_Clip f).
Proof.
  unfold get_clip. rewrite wire_field. destruct Hwire as [_ _ _ _ Hc]. simpl.
  destruct (f_Clip f) as [e|]; [by rewrite Hc|]. by case_bool_decide.
Qed.

Lemma wire_clip_key :
  bool_decide ("clip" ∈ fields.*1) =
  match f_Clip f with Some _ => true | None => bool_decide (f_Type f = SSHStreamFrameState) end.
Proof.
  assert (Hin : ∀ l : list (string * option jval), NoDup l.*1 → ("clip" ∈ (omap given l).*1 ↔ is_Some (assoc "clip" l))).
  { induction l as [|[k [v|]] l IH]; intros Hnd; [by split; [intros ?%not_elem_of_nil|intros []]| |];
      apply NoDup_cons in Hnd as [Hk Hnd]; specialize (IH Hnd); simpl.
    - destruct (String.eqb_spec k "clip") as [->|Hne]; [split; [eauto|left]|].
      rewrite elem_of_cons, IH. naive_solver.
    - destruct (String.eqb_spec k "clip") as [->|Hne]; [|done]. split; [|intros []; done]. intros Hc. exfalso.
      apply Hk. eapply elem_of_sublist; [exact Hc|apply omap_given_keys]. }
  assert (Hf : "clip" ∈ fields.*1 ↔ is_Some (assoc "clip" (frame_entries f))).
  { rewrite <- Hin by apply frame_keys_NoDup. by rewrite <- MarshalJSON_entries, Hfields. }
  rewrite (bool_decide_ext _ _ Hf). simpl.
  destruct (f_Clip f); [by apply bool_decide_eq_true_2|]. destruct (bool_decide (f_Type f = _));
    [by apply bool_decide_eq_true_2|by apply bool_decide_eq_false_2; intros []].
Qed.

Lemma wire_get_type : get_string "type" fields = Ok (f_Type f).
Proof.
  unfold get_string. rewrite wire_field. simpl. destruct Hwire as [Hs _ _ _ _].
  apply Forall_cons in Hs as [Hs _]. apply bool_decide_eq_true in Hs. by rewrite Hs.
Qed.

(** Whatever order the fields come in, decoding them gives the frame back. *)
Lemma decode_wire : decodeSSHStreamFrame (Some fields) = Ok (with_clipPresent f).
Proof.
  pose proof wire_get_type as Htype. destruct Hwire as [Hs _ Hts Hseq _]. rewrite !Forall_cons in Hs. destruct_and!.
  unfold decodeSSHStreamFrame. rewrite wire_valid. cbn [mbind result_bind default id].
  rewrite Htype, wire_get_ints, wire_get_clip. cbn [mbind result_bind].
  repeat (erewrite wire_get_string; [cbn [mbind result_bind]|reflexivity|done] ||
          (erewrite wire_get_int; [cbn [mbind result_bind]|reflexivity|done])).
  by rewrite wire_clip_key.
Qed.
End decode.

(** ** Lemmas: hellos *)

Lemma protocol_list_inj l l' : sshStreamProtocolList l = sshStreamProtocolList l' → l = l'.
Proof.
  unfold sshStreamProtocolList. intros H. apply (Join_inj ",") in H.
  - revert H. apply list_fmap_eq_inj. intros a b. apply format_int_inj.
  - apply Forall_fmap, Forall_true. intros z. split; [by apply format_int_clean|apply format_int_nonempty].
  - apply Forall_fmap, Forall_true. intros z. split; [by apply format_int_clean|apply format_int_nonempty].
Qed.

Lemma protocol_list_one_line l : one_line (sshStreamProtocolList l) = true.
Proof.
  unfold one_line, sshStreamProtocolList. apply negb_true_iff.
  induction l as [|z l IH]; [done|]. destruct l as [|z' l]; [by apply format_int_clean|].
  rewrite fmap_cons, Join_cons by done. rewrite !has_byte_app, IH, format_int_clean by done. done.
Qed.

Lemma app_inj_r (a b t : string) : a +:+ t = b +:+ t → a = b.
Proof.
  intros H. apply (f_equal String.rev) in H. rewrite !srev_app in H. apply app_inj_l in H.
  by rewrite <- (srev_rev a), H, srev_rev.
Qed.

(** The canonical text of a hello determines it, whatever its nonce holds. *)
Lemma canonical_inj h h' :
  Forall (λ s, one_line s = true) [hl_HostID h; hl_PeerID h; hl_Purpose h] →
  Forall (λ s, one_line s = true) [hl_HostID h'; hl_PeerID h'; hl_Purpose h'] →
  sshStreamHelloCanonical h = sshStreamHelloCanonical h' → unsigned h = unsigned h'.
Proof.
  rewrite !Forall_cons. intros (Hh & Hp & Hu & _) (Hh' & Hp' & Hu' & _) H. unfold sshStreamHelloCanonical in H.
  do 3 apply app_inj_l in H. apply nl_inj in H as [H1 H]; [|done|done].
  apply app_inj_l, nl_inj in H as [H2 H]; [|done|done].
  apply app_inj_l, nl_inj in H as [H3 H]; [|done|done].
  apply app_inj_l, nl_inj in H as [H4 H]; [|apply protocol_list_one_line..].
  assert (Hts : ∀ z, one_line (format_int z) = true) by (intros z; unfold one_line; by rewrite format_int_clean).
  apply app_inj_l, nl_inj in H as [H5 H]; [|apply Hts..].
  apply app_inj_l, app_inj_r in H.
  apply protocol_list_inj in H4. apply format_int_inj in H5. unfold unsigned. congruence.
Qed.

Lemma verify_signature_Ok `{Crypto} a h :
  verifySSHStreamHelloSignature a h = Ok () ↔
  validateSSHStreamHelloShape h = Ok () ∧
  ∃ k, sshHelloHMACKey a = Ok k ∧ hex_decode (hl_Sig h) = Some (hmac_sha256 k (sshStreamHelloCanonical (unsigned h))).
Proof.
  unfold verifySSHStreamHelloSignature. rewrite bind_Ok. split.
  - intros ([] & Hs & Hv). split; [done|]. destruct (hex_decode (hl_Sig h)) as [got|]; [|done].
    apply bind_Ok in Hv as (expected & He & Hv). unfold signSSHStreamHello in He.
    destruct (sshHelloHMACKey a) as [k|]; [|done]. injection He as <-. rewrite hex_decode_encode in Hv.
    case_bool_decide; [|done]. subst. eauto.
  - intros [Hs (k & Hk & Hsig)]. exists (). split; [done|]. rewrite Hsig. unfold signSSHStreamHello. rewrite Hk.
    simpl. by rewrite hex_decode_encode, bool_decide_eq_true_2.
Qed.

Lemma identity_Ok h eu eh ep :
  verifySSHStreamHelloIdentity h eu eh ep = Ok () ↔
  (eu = "" ∨ hl_Purpose h = eu) ∧ (eh = "" ∨ hl_HostID h = eh) ∧ (ep = "" ∨ hl_PeerID h = ep).
Proof.
  unfold verifySSHStreamHelloIdentity. repeat case_bool_decide; simpl; naive_solver.
Qed.

(** The guards of [verifySSHStreamHello] before the nonce. *)
Lemma verify_hello_result `{Crypto} a h at_ eu eh ep iter cache r cache' :
  verifySSHStreamHello a h at_ eu eh ep iter (Some cache) = (r, cache') →
  r = Ok () →
  (eu = "" ∨ hl_Purpose h = eu) ∧ (eh = "" ∨ hl_HostID h = eh) ∧ (ep = "" ∨ hl_PeerID h = ep) ∧
  at_ ≠ zero_time ∧ (at_ - signatureSkew ≤ time_Unix (hl_TS h) ≤ at_ + signatureSkew)%Z ∧
  verifySSHStreamHelloSignature a h = Ok () ∧
  (remember iter cache (hl_HostID h) (hl_Purpose h) (hl_Nonce h) at_).1 = true ∧
  cache' = Some (remember iter cache (hl_HostID h) (hl_Purpose h) (hl_Nonce h) at_).2.
Proof.
  unfold verifySSHStreamHello. intros Hv ->.
  destruct (validateSSHStreamHelloShape h) as [[]|]; [|done]. cbn [mbind result_bind] in Hv.
  destruct (verifySSHStreamHelloIdentity h eu eh ep) as [[]|] eqn:Hid; [|done]. cbn [mbind result_bind] in Hv.
  destruct (IsZero at_) eqn:Hz; [done|]. destruct (Before _ _ || After _ _) eqn:Ht; [done|].
  destruct (verifySSHStreamHelloSignature a h) as [[]|] eqn:Hs; [|done].
  destruct (remember _ _ _ _ _ _) as [[] c'] eqn:Hr; [|done]. injection Hv as <-.
  apply identity_Ok in Hid as (? & ? & ?). unfold Before, After in Ht. bool_prop.
  apply bool_decide_eq_false in Hz. split_and!; try done; lia.
Qed.

(** ** Lemmas: reading lines *)

Lemma one_line_app a b : one_line (a +:+ b) = one_line a && one_line b.
Proof. unfold one_line. by rewrite has_byte_app, negb_orb. Qed.

Lemma one_line_nl s : one_line (nl +:+ s) = false.
Proof. done. Qed.

Lemma take_line_cases n s :
  (∃ b r, s = b +:+ nl +:+ r ∧ one_line b = true ∧ take_line n s = (b +:+ nl, true)) ∨
  (∃ c r, s = c +:+ r ∧ one_line c = true ∧ take_line n s = (c, false) ∧ (len c = n ∨ (len c < n ∧ r = ""))).
Proof.
  revert s. induction n as [|n IH]; intros s; [right; exists "", s; destruct s; auto|].
  destruct s as [|a s]; [right; exists "", ""; unfold len; simpl; split_and!; auto with lia|].
  cbn [take_line]. case_bool_decide as Ha.
  - left. exists "", s. subst. done.
  - destruct (IH s) as [(b & r & -> & Hb & Heq)|(c & r & -> & Hc & Heq & Hl)]; rewrite Heq; [left|right].
    + exists (String a b), r. split; [done|]. split; [|done].
      unfold one_line, has_byte in *. simpl. by rewrite bool_decide_eq_false_2.
    + exists (String a c), r. split; [done|]. split; [|split; [done|]].
      * unfold one_line, has_byte in *. simpl. by rewrite bool_decide_eq_false_2.
      * unfold len in *. simpl. destruct Hl as [Hl|[Hl ->]]; [left; lia|right; split; [lia|done]].
Qed.

Lemma one_line_prefix c b r' r :
  one_line c = true → c +:+ r' = b +:+ nl +:+ r → ∃ b', b = c +:+ b' ∧ r' = b' +:+ nl +:+ r.
Proof.
  revert b. induction c as [|a c IH]; intros b Hc Heq; [by exists b|].
  destruct b as [|x b].
  - injection Heq as -> _. done.
  - injection Heq as -> Heq. destruct (IH b) as (b' & -> & ->); [|done|by exists b'].
    change (String x c) with (String x "" +:+ c) in Hc. rewrite one_line_app in Hc. by apply andb_true_iff in Hc as [_ ?].
Qed.

Lemma payload_len_line b : one_line b = true → sshStreamPayloadLen b = Z.of_nat (len b).
Proof.
  unfold sshStreamPayloadLen. intros Hb. destruct (HasSuffix b nl) eqn:Hs; [|done].
  apply HasSuffix_spec in Hs as [q ->]. by rewrite one_line_app, andb_false_r in Hb.
Qed.

Lemma payload_len_nl b : sshStreamPayloadLen (b +:+ nl) = Z.of_nat (len b).
Proof.
  unfold sshStreamPayloadLen. assert (HasSuffix (b +:+ nl) nl = true) as -> by (apply HasSuffix_spec; eauto).
  rewrite len_app. change (len nl) with 1. lia.
Qed.

Lemma ReadSlice_app c rest found :
  take_line bufSize (c +:+ rest) = (c, found) →
  ReadSlice (c +:+ rest) =
    (c, (if found then ReadDone else if (len c =? bufSize)%nat then ErrBufferFull else ReadEOF), rest).
Proof.
  intros Hc. unfold ReadSlice. rewrite Hc. f_equal. rewrite len_app.
  replace (len c + len rest - len c) with (len rest) by lia. apply substring_app_r.
Qed.

Lemma readFrameLine_loop_spec fuel max line input :
  one_line line = true → (Z.of_nat (len line) ≤ max)%Z → len input < fuel →
  (∀ b r, one_line b = true → input = b +:+ nl +:+ r →
    readFrameLine_loop fuel max line input =
      if (Z.of_nat (len line + len b) <=? max)%Z then Ok (line +:+ b +:+ nl, r) else Err ErrSSHStreamFrameTooLarge) ∧
  (one_line input = true →
    readFrameLine_loop fuel max line input =
      Err (if (max <? Z.of_nat (len line + len input))%Z then ErrSSHStreamFrameTooLarge else ErrSSHStreamUnexpectedEOF)).
Proof.
  revert line input. induction fuel as [|fuel IH]; intros line input Hline Hmax Hfuel; [lia|]. cbn [readFrameLine_loop].
  destruct (take_line_cases bufSize input) as [(b0 & r0 & -> & Hb0 & Htl)|(c & r' & -> & Hc & Htl & Hlen)].
  - rewrite <- sapp_assoc in Htl |- *. rewrite (ReadSlice_app _ _ _ Htl). cbv beta iota zeta.
    rewrite <- sapp_assoc, payload_len_nl, !len_app. split.
    + intros b r Hb Heq. rewrite sapp_assoc in Heq. apply nl_inj in Heq as [-> ->]; [|done|done].
      assert ((0 <? len b + len nl)%nat = true) as -> by (apply Nat.ltb_lt; change (len nl) with 1; lia).
      simpl. rewrite sapp_assoc.
      destruct (max <? _)%Z eqn:E; bool_prop; [by rewrite (proj2 (Z.leb_gt _ _)) by lia|].
      by rewrite (proj2 (Z.leb_le _ _)) by lia.
    + intros H. by rewrite sapp_assoc, one_line_app, one_line_nl, andb_false_r in H.
  - rewrite (ReadSlice_app _ _ _ Htl). cbv beta iota zeta.
    assert (Hlc : one_line (line +:+ c) = true) by by rewrite one_line_app, Hline, Hc.
    rewrite (payload_len_line _ Hlc), len_app.
    destruct Hlen as [Hlen|[Hlen ->]].
    + rewrite (proj2 (Nat.eqb_eq _ _) Hlen).
      assert ((0 <? len c)%nat = true) as -> by (rewrite Hlen; done). cbn [andb].
      rewrite len_app in Hfuel. assert (0 < bufSize) by (unfold bufSize; lia).
      destruct (max <? _)%Z eqn:E; bool_prop.
      * split.
        -- intros b r Hb Heq. destruct (one_line_prefix _ _ _ _ Hc Heq) as (b' & -> & _).
           rewrite len_app. by rewrite (proj2 (Z.leb_gt _ _)) by lia.
        -- intros _. rewrite len_app. by rewrite (proj2 (Z.ltb_lt _ _)) by lia.
      * destruct (IH (line +:+ c) r' Hlc) as [IH1 IH2]; [rewrite len_app; lia|lia|]. split.
        -- intros b r Hb Heq. destruct (one_line_prefix _ _ _ _ Hc Heq) as (b' & -> & ->).
           rewrite one_line_app in Hb. apply andb_true_iff in Hb as [_ Hb]. rewrite (IH1 b' r Hb eq_refl).
           rewrite !len_app, Nat.add_assoc, !sapp_assoc. done.
        -- rewrite one_line_app. intros [_ Hr]%andb_true_iff. rewrite (IH2 Hr), !len_app, Nat.add_assoc. done.
    + rewrite (proj2 (Nat.eqb_neq _ _)) by lia. rewrite sapp_nil_r. split.
      * intros b r Hb Heq. exfalso. rewrite Heq, one_line_app, one_line_nl, andb_false_r in Hc. done.
      * intros _. destruct (0 <? len c)%nat eqn:E; bool_prop; cbn [andb]; [by case_match|].
        by rewrite (proj2 (Z.ltb_ge _ _)) by lia.
Qed.

(** ** Lemmas: states *)

Lemma state_Ok `{Crypto} s f at_ r s' :
  stateResultFromFrame s f at_ = Ok (r, s') →
  sr_Seq r = nextSeq s ∧ nextSeq s ≠ 0%Z ∧ s' = bump_seq s ∧ sr_Sender r = remoteID s ∧
  (Z.of_nat (len (Bytes (sr_Content r))) ≤ Z.max 0 (maxPayloadBytes s))%Z ∧
  match f_Clip f with
  | None => sr_Content r = zero_content ∧ validSSHStreamNullReason (sr_NullReason r) = true
  | Some env => OpenEnvelope (auth s) env (localID s) at_ = Ok (sr_Content r, sr_Origin r) ∧ sr_NullReason r = ""
  end.
Proof.
  unfold stateResultFromFrame. destruct (_ || _) eqn:H1; [done|]. apply orb_false_iff in H1 as [_ H1].
  destruct (f_Seq f =? nextSeq s)%Z eqn:H2; [|done]. apply Z.eqb_eq in H2. apply Z.eqb_neq in H1. cbn [negb].
  case_bool_decide as H3; [|done]. cbn [negb]. destruct (f_clipPresent f); [|done]. cbn [negb].
  destruct (f_Clip f) as [env|].
  - destruct (OpenEnvelope _ _ _ _) as [[content origin]|]; [|done]. simpl. destruct (_ <? _)%Z eqn:H4; [done|].
    intros [= <- <-]. simpl. bool_prop. split_and!; try done; try congruence. lia.
  - destruct (validSSHStreamNullReason _) eqn:H4; [|done]. intros [= <- <-]. simpl. change (len "") with 0.
    split_and!; try done; try congruence. lia.
Qed.

Definition state_of (ev : SSHStreamEvent) : option SSHStreamStateResult :=
  match ev with EventState r => Some r | _ => None end.

Lemma event_Ok `{Crypto} s f at_ ev s' :
  eventFromFrame s f at_ = Ok (ev, s') →
  match state_of ev with
  | Some r => stateResultFromFrame s f at_ = Ok (r, s')
  | None => s' = s
  end.
Proof.
  unfold eventFromFrame. repeat case_bool_decide; intros H'; try done.
  - apply bind_Ok in H' as ([r s1] & Hr & [= <- <-]). done.
  - apply bind_Ok in H' as (ack & _ & [= <- <-]). done.
  - by injection H' as <- <-.
Qed.

Lemma read_events_states `{Crypto} lines n s evs s' err :
  (0 < n ≤ 2 ^ 64)%Z → nextSeq s = (n mod 2 ^ 64)%Z → read_events s lines = (evs, s', err) →
  let states := omap state_of evs in
  sr_Seq <$> states = seqZ n (Z.of_nat (length states)) ∧
  (n + Z.of_nat (length states) ≤ 2 ^ 64)%Z ∧
  nextSeq s' = ((n + Z.of_nat (length states)) mod 2 ^ 64)%Z ∧
  Forall (λ r, sr_Sender r = remoteID s ∧
    (Z.of_nat (len (Bytes (sr_Content r))) ≤ Z.max 0 (maxPayloadBytes s))%Z ∧
    (sr_NullReason r = "" ∧ hashed (sr_Content r) ∨
     validSSHStreamNullReason (sr_NullReason r) = true ∧ sr_Content r = zero_content)) states.
Proof.
  revert n s evs s' err. induction lines as [|[line at_] lines IH]; intros n s evs s' err Hn Hs Hread; simpl in Hread.
  { injection Hread as <- <- _. simpl. rewrite Z.add_0_r. split_and!; try done; lia. }
  unfold ReadNext in Hread. destruct (readFrame line) as [f|e0]; simpl in Hread;
    [|injection Hread as <- <- _; simpl; rewrite Z.add_0_r; split_and!; try done; lia].
  destruct (eventFromFrame s f at_) as [[ev s1]|e0] eqn:Hev;
    [|injection Hread as <- <- _; simpl; rewrite Z.add_0_r; split_and!; try done; lia].
  destruct (read_events s1 lines) as [[evs1 s2] e1] eqn:Hrest. injection Hread as <- <- _.
  apply event_Ok in Hev. cbn [omap list_omap]. destruct (state_of ev) as [r|] eqn:Hr.
  - apply state_Ok in Hev as (Hseq & Hne & -> & Hsender & Hlen & Hclip).
    assert (Hlt : (n < 2 ^ 64)%Z).
    { destruct (decide (n = 2 ^ 64)%Z) as [->|]; [|lia]. rewrite Hs in Hne. by vm_compute in Hne. }
    rewrite Hs, Z.mod_small in Hseq by lia.
    destruct (IH (n + 1)%Z (bump_seq s) evs1 s2 e1) as (H1 & H2 & H3 & H4); [lia| |done|].
    { unfold bump_seq; simpl. by rewrite Hs, (Z.mod_small n) by lia. }
    simpl in H4. cbv zeta. cbn [length]. rewrite fmap_cons, H1, H3, Hseq, Nat2Z.inj_succ.
    split; [|split; [lia|split; [f_equal; lia|]]].
    + rewrite (seqZ_cons n) by lia. by rewrite Z.pred_succ.
    + constructor; [|done]. split; [done|]. split; [done|]. destruct (f_Clip f) as [env|].
      * destruct Hclip as [Ho Hnull]. left. split; [done|]. by eapply OpenEnvelope_hashed.
      * right. naive_solver.
  - subst s1. eapply (IH n); done.
Qed.

(** ** Lemmas: exchanges *)

Lemma read_wire f fields :
  fields ≡ₚ MarshalJSON f → frame_wire f →
  f_Type f ∈ [SSHStreamFrameHello; SSHStreamFrameState; SSHStreamFrameAck; SSHStreamFrameError] →
  readFrame (Some fields) = Ok (with_clipPresent f).
Proof. intros Hp Hw Ht. unfold readFrame. rewrite (decode_wire f _ Hp Hw). simpl. by rewrite bool_decide_eq_true_2. Qed.

Lemma hello_signed `{CryptoLaws} a pu ho pe now nonce rand h :
  NewSSHStreamHello a pu ho pe now nonce rand = Ok h →
  ∃ k, sshHelloHMACKey a = Ok k ∧ hl_Sig h = hex_encode (hmac_sha256 k (sshStreamHelloCanonical (unsigned h))) ∧
    hl_Sig h ≠ "" ∧ hl_Protocols h = [SSHStreamProtocolV1] ∧ hl_Purpose h = pu ∧ hl_HostID h = ho ∧ hl_PeerID h = pe ∧
    hl_TS h = unix_of now ∧ (nonce ≠ "" → hl_Nonce h = nonce) ∧
    (nonce = "" → ∃ b, rand = Some b ∧ hl_Nonce h = hex_encode b).
Proof.
  unfold NewSSHStreamHello. intros Hnew. apply bind_Ok in Hnew as (n & Hn & Hnew).
  apply bind_Ok in Hnew as (sig & Hsig & [= <-]). unfold signSSHStreamHello in Hsig.
  destruct (sshHelloHMACKey a) as [k|]; [|done]. injection Hsig as <-. exists k. simpl.
  split; [done|]. split; [done|]. split.
  { apply hex_encode_nonempty. intros He. pose proof (hmac_len k (sshStreamHelloCanonical (MkHello [SSHStreamProtocolV1] pu ho pe (unix_of now) n ""))) as Hl.
    by rewrite He in Hl. }
  split_and!; try done.
  - intros Hne. rewrite bool_decide_eq_false_2 in Hn by done. congruence.
  - intros ->. simpl in Hn. destruct rand as [b|]; [|done]. exists b. split; [done|congruence].
Qed.

(** ** Properties *)

(** C8. A stream takes the states of its peer in order and each once: whatever
    lines arrive, the sequence numbers of the states it accepts are consecutive
    from its next expected number and never wrap, every accepted state names the
    peer as its sender and fits the payload limit, and a state is either a clip
    whose hash is that of its bytes or one of the three reasons for none. *)
Theorem stream_sequencing `{Crypto} s lines evs s' err
    (Hstart : (0 < nextSeq s < 2 ^ 64)%Z) (Hread : read_events s lines = (evs, s', err)) :
  let states := omap state_of evs in
  sr_Seq <$> states = seqZ (nextSeq s) (Z.of_nat (length states)) ∧
  (nextSeq s + Z.of_nat (length states) ≤ 2 ^ 64)%Z ∧
  nextSeq s' = ((nextSeq s + Z.of_nat (length states)) mod 2 ^ 64)%Z ∧
  Forall (λ r, sr_Sender r = remoteID s ∧
    (Z.of_nat (len (Bytes (sr_Content r))) ≤ Z.max 0 (maxPayloadBytes s))%Z ∧
    (sr_NullReason r = "" ∧ hashed (sr_Content r) ∨
     validSSHStreamNullReason (sr_NullReason r) = true ∧ sr_Content r = zero_content)) states.
Proof.
  eapply read_events_states; [|by rewrite Z.mod_small by lia|done]. lia.
Qed.

(** A hello reaches the peer. What one host writes for another with a fresh
    nonce is accepted there, in whatever order the fields of the object are, when
    its timestamp is within the skew of the time it arrives: the only further
    condition is that the nonce cache does not know the nonce, and the cache then
    remembers it. *)
Theorem hello_exchange `{CryptoLaws} a idA idB now nonce rand hello io fields fields' receivedAt iter cache
    (Hnew : NewSSHStreamHello a SSHStreamPurposeSyncStream idA idB now nonce rand = Ok hello)
    (Hwrite : WriteHello io (NewSSHSyncStream a idA idB) hello = Ok fields)
    (Hperm : fields' ≡ₚ fields)
    (Hids : Forall (λ s, valid_utf8 s = true) [idA; idB; nonce]) (Hrange : (int64_min ≤ unix_of now ≤ int64_max)%Z)
    (Hat : receivedAt ≠ zero_time)
    (Htime : (receivedAt - signatureSkew ≤ time_Unix (unix_of now) ≤ receivedAt + signatureSkew)%Z) :
  let '(fresh, cache') := remember iter cache idA SSHStreamPurposeSyncStream (hl_Nonce hello) receivedAt in
  ReadHello (NewSSHSyncStream a idB idA) (Some fields') receivedAt iter cache =
    (if fresh then Ok hello else Err (ErrSSHStreamInvalidHello "replayed nonce"), Some cache').
Proof.
  destruct (hello_signed _ _ _ _ _ _ _ _ Hnew) as (k & Hk & Hsig & Hne & Hpr & Hpu & Hho & Hpe & Hts & Hn1 & Hn2).
  unfold WriteHello in Hwrite. apply bind_Ok in Hwrite as ([] & _ & Hwrite). apply bind_Ok in Hwrite as ([] & Hv & Hwrite).
  assert (fields = MarshalJSON (helloFrame hello)) as ->.
  { revert Hwrite. unfold writeFrame. repeat case_match; congruence. }
  rewrite !Forall_cons in Hids. destruct Hids as (HA & HB & HN & _).
  assert (Hnonce : valid_utf8 (hl_Nonce hello) = true).
  { destruct (decide (nonce = "")) as [He|He]; [|by rewrite Hn1].
    destruct (Hn2 He) as (b & _ & ->). apply bool_decide_eq_true, hex_encode_json. }
  assert (Hwire : frame_wire (helloFrame hello)).
  { assert (valid_utf8 (hl_Sig hello) = true) by (rewrite Hsig; apply bool_decide_eq_true, hex_encode_json).
    split; simpl; rewrite ?Hpu, ?Hho, ?Hpe, ?Hpr, ?Hts; [|by repeat constructor|done|done|done].
    repeat (constructor; [done|]). constructor. }
  unfold ReadHello. rewrite (read_wire _ _ Hperm Hwire) by left.
  assert (Hfh : frameHello (with_clipPresent (helloFrame hello)) = hello) by by destruct hello.
  change (f_Type (with_clipPresent (helloFrame hello))) with SSHStreamFrameHello. rewrite Hfh.
  rewrite (bool_decide_eq_true_2 (SSHStreamFrameHello = SSHStreamFrameHello)) by done. cbn [negb].
  unfold verifyHello, verifySSHStreamHello.
  cbn [auth NewSSHSyncStream] in Hv. pose proof Hv as Hshape. apply verify_signature_Ok in Hshape as [Hshape _].
  rewrite Hshape. cbn [mbind result_bind].
  assert (verifySSHStreamHelloIdentity hello SSHStreamPurposeSyncStream idA idB = Ok ()) as Hid
    by (apply identity_Ok; auto).
  cbn [purpose remoteID localID auth NewSSHSyncStream]. rewrite Hid. cbn [mbind result_bind].
  unfold IsZero. rewrite bool_decide_eq_false_2 by done. unfold Before, After. rewrite Hts.
  rewrite !(proj2 (Z.ltb_ge _ _)) by lia. cbn [orb]. rewrite Hv, Hho, Hpu.
  destruct (remember _ _ _ _ _ _) as [[] c']; done.
Qed.

(** What an accepted hello proves: it names the two hosts and the purpose of
    the stream, its timestamp is within the skew, its nonce was not in the cache,
    and its signature is the MAC of its canonical text under the hello key.  A
    hello of the same key and signature over different fields is an HMAC
    collision: the canonical text determines the fields even if the nonce
    contains line breaks. *)
Theorem hello_accept_sound `{Crypto} s line receivedAt iter cache hello cache'
    (Hread : ReadHello s line receivedAt iter cache = (Ok hello, cache'))
    (Hids : remoteID s ≠ "" ∧ localID s ≠ "" ∧ purpose s ≠ "")
    (Hlines : Forall (λ x, one_line x = true) [remoteID s; localID s; purpose s]) :
  (hl_HostID hello, hl_PeerID hello, hl_Purpose hello) = (remoteID s, localID s, purpose s) ∧
  (receivedAt - signatureSkew ≤ time_Unix (hl_TS hello) ≤ receivedAt + signatureSkew)%Z ∧
  (remember iter cache (remoteID s) (purpose s) (hl_Nonce hello) receivedAt).1 = true ∧
  ∃ k, sshHelloHMACKey (auth s) = Ok k ∧
    hex_decode (hl_Sig hello) = Some (hmac_sha256 k (sshStreamHelloCanonical (unsigned hello))) ∧
    ∀ h2, Forall (λ x, one_line x = true) [hl_HostID h2; hl_PeerID h2; hl_Purpose h2] →
      hex_decode (hl_Sig hello) = Some (hmac_sha256 k (sshStreamHelloCanonical h2)) →
      unsigned h2 = unsigned hello ∨
      (sshStreamHelloCanonical h2 ≠ sshStreamHelloCanonical (unsigned hello) ∧
       hmac_sha256 k (sshStreamHelloCanonical h2) = hmac_sha256 k (sshStreamHelloCanonical (unsigned hello))).
Proof.
  unfold ReadHello in Hread. destruct (readFrame line) as [f|]; [|done].
  destruct (negb _); [done|]. destruct (verifyHello s (frameHello f) receivedAt iter cache) as [r c1] eqn:Hv.
  destruct r as [[]|]; [|done]. injection Hread as <- <-. unfold verifyHello in Hv.
  destruct (verify_hello_result _ _ _ _ _ _ _ _ _ _ Hv eq_refl) as (Hu & Hh & Hp & _ & Ht & Hs & Hr & _).
  destruct Hu as [?|Hu]; [naive_solver|]. destruct Hh as [?|Hh]; [naive_solver|]. destruct Hp as [?|Hp]; [naive_solver|].
  rewrite Hh, Hu in Hr. split; [congruence|]. split; [done|]. split; [done|].
  apply verify_signature_Ok in Hs as (_ & k & Hk & Hsig). exists k. split; [done|]. split; [done|].
  intros h2 Hl2 Hsig2. rewrite Hsig in Hsig2. injection Hsig2 as Hmac.
  destruct (decide (sshStreamHelloCanonical h2 = sshStreamHelloCanonical (unsigned (frameHello f)))) as [Heq|Hne];
    [left|right; done].
  apply canonical_inj in Heq; [by rewrite Heq|done|]. rewrite !Forall_cons in Hlines |- *.
  simpl in *. rewrite Hh, Hp, Hu. naive_solver.
Qed.

(** The frame of a state comes off the channel as it was put on. *)
Lemma state_frame_read `{CryptoLaws} a rand idA idB seq content origin io fields :
  WriteState io rand (NewSSHSyncStream a idA idB) seq content origin = Ok fields → (0 < seq ≤ uint64_max)%Z →
  Forall (λ s, valid_utf8 s = true) [idA; idB; origin; ID content; ckind content] →
  (Z.of_nat (len (Bytes content)) ≤ MaxSSHStreamPayloadBytes)%Z ∧
  ∃ env, BuildEnvelope a rand content origin idB = Ok env ∧ readFrame (Some fields) = Ok (with_clipPresent (stateFrame seq idA (Some env) "")).
Proof.
  intros Hwrite Hseq Htext. unfold WriteState in Hwrite. rewrite (proj2 (Z.eqb_neq _ _)) in Hwrite by lia. cbn [maxPayloadBytes NewSSHSyncStream] in Hwrite.
  destruct (MaxSSHStreamPayloadBytes <? _)%Z eqn:Hsize; [done|]. apply bind_Ok in Hwrite as (env & Henv & Hwrite). bool_prop. split; [done|]. exists env.
  cbn [auth remoteID localID NewSSHSyncStream] in *.
  destruct (BuildEnvelope a rand content origin idB) as [env'|] eqn:Hb; [|done]. injection Henv as ->. split; [done|].
  assert (fields = MarshalJSON (stateFrame seq idA (Some env) "")) as ->.
  { revert Hwrite. unfold writeFrame. repeat case_match; congruence. }
  rewrite !Forall_cons in Htext. destruct Htext as (HA & HB & HO & HI & HK & _).
  assert (Hpe : persist_env env = env).
  { unfold BuildEnvelope, SealBody in Hb. destruct a; [|done]. destruct rand; [|done]. simpl in Hb. injection Hb as <-.
    unfold persist_env; simpl. rewrite !b64_encode_json.
    unfold valid_utf8 in *. repeat match goal with H : bool_decide _ = true |- _ => apply bool_decide_eq_true in H; rewrite ?H end.
    done. }
  assert (Hwire : frame_wire (stateFrame seq idA (Some env) "")).
  { split; simpl; [|constructor|done|lia|done]. repeat (constructor; [done|]). constructor. }
  by rewrite (read_wire _ _ (Permutation_refl _) Hwire) by (right; left).
Qed.

(** A state whose number is not the next one is refused. *)
Lemma skipped_refused `{CryptoLaws} a rand idA idB sB seq content origin io fields receivedAt :
  WriteState io rand (NewSSHSyncStream a idA idB) seq content origin = Ok fields → (0 < seq ≤ uint64_max)%Z →
  Forall (λ s, valid_utf8 s = true) [idA; idB; origin; ID content; ckind content] → nextSeq sB ≠ seq →
  ReadNext sB (Some fields) receivedAt = Err (ErrSSHStreamUnexpectedFrame "seq").
Proof.
  intros Hwrite Hseq Htext Hne. destruct (state_frame_read _ _ _ _ _ _ _ _ _ Hwrite Hseq Htext) as (_ & env & _ & Hr).
  unfold ReadNext. rewrite Hr. cbn [mbind result_bind]. unfold eventFromFrame. cbn [with_clipPresent stateFrame f_Type]. rewrite bool_decide_eq_true_2 by done.
  unfold stateResultFromFrame. cbn [with_clipPresent stateFrame f_Type f_Seq]. rewrite bool_decide_eq_true_2 by done.
  rewrite (proj2 (Z.eqb_neq seq 0)), (proj2 (Z.eqb_neq seq (nextSeq sB))) by (done || lia). done.
Qed.

(** What one host writes as the next state another reads. *)
Lemma clip_read `{CryptoLaws} a rand idA idB sA sB content origin io fields receivedAt
    (HsA : sA = NewSSHSyncStream a idA idB) (HsB : auth sB = a ∧ localID sB = idB ∧ remoteID sB = idA)
    (Hmax : maxPayloadBytes sB = MaxSSHStreamPayloadBytes) (Hseq : (0 < nextSeq sB ≤ uint64_max)%Z)
    (Hwrite : WriteState io (Some rand) sA (nextSeq sB) content origin = Ok fields)
    (Hrand : len rand = gcm_NonceSize) (Hid : ShortName idB ≠ "")
    (Htext : Forall (λ s, valid_utf8 s = true) [idA; idB; origin; ID content; ckind content])
    (Htime : (TS content ≤ receivedAt + signatureSkew)%Z) :
  ReadNext sB (Some fields) receivedAt =
    Ok (EventState (MkStateResult (nextSeq sB) idA
          (MkContent (ID content) (ckind content) (Bytes content) (sha256 (Bytes content)) (TS content) (Concealed content))
          origin ""), bump_seq sB).
Proof.
  subst sA. destruct HsB as (Ha & Hl & Hr). destruct (state_frame_read _ _ _ _ _ _ _ _ _ Hwrite Hseq Htext) as (Hsize & env & Hb & Hread).
  unfold ReadNext. rewrite Hread. cbn [mbind result_bind].
  unfold eventFromFrame. cbn [with_clipPresent stateFrame f_Type]. rewrite bool_decide_eq_true_2 by done.
  unfold stateResultFromFrame. cbn [with_clipPresent stateFrame f_Type f_Seq f_Sender f_Clip f_clipPresent].
  rewrite bool_decide_eq_true_2 by done. rewrite (proj2 (Z.eqb_neq _ _)) by lia. rewrite Z.eqb_refl. cbn [negb orb].
  rewrite Hr, bool_decide_eq_true_2 by done. cbn [negb]. rewrite Ha, Hl.
  assert (Hm : RecipientMatches idB idB = true) by by apply RecipientMatches_true.
  rewrite (OpenEnvelope_Build _ _ _ _ _ _ _ _ Hb Hrand Hm Htime). cbn [lift_auth mbind result_bind Bytes].
  rewrite Hmax, (proj2 (Z.ltb_ge _ _)) by lia. done.
Qed.

(** A clip reaches the peer: a state that one host writes as the peer's next
    sequence number is read there as the same clip (ID, kind, bytes, timestamp,
    concealed flag, hash recomputed) from the same origin, and the peer then
    expects the next number. *)
Theorem state_exchange `{CryptoLaws} a rand idA idB sA sB content origin io fields receivedAt
    (HsA : sA = NewSSHSyncStream a idA idB) (HsB : auth sB = a ∧ localID sB = idB ∧ remoteID sB = idA)
    (Hmax : maxPayloadBytes sB = MaxSSHStreamPayloadBytes) (Hseq : (0 < nextSeq sB ≤ uint64_max)%Z)
    (Hwrite : WriteState io (Some rand) sA (nextSeq sB) content origin = Ok fields)
    (Hrand : len rand = gcm_NonceSize) (Hid : ShortName idB ≠ "")
    (Htext : Forall (λ s, valid_utf8 s = true) [idA; idB; origin; ID content; ckind content])
    (Htime : (TS content ≤ receivedAt + signatureSkew)%Z) :
  ReadNext sB (Some fields) receivedAt =
    Ok (EventState (MkStateResult (nextSeq sB) idA
          (MkContent (ID content) (ckind content) (Bytes content) (sha256 (Bytes content)) (TS content) (Concealed content))
          origin ""), bump_seq sB).
Proof. by eapply clip_read. Qed.

(** Line reading is exact and bounded: a line of at most [max] bytes is
    returned with its line break and the rest of the input is left, a longer line
    is refused as too large wherever its line break is, and input that ends
    without one is an unexpected end, or too large if it is longer than [max];
    the number of turns the loop needs is bounded by the input. *)
Theorem readFrameLine_spec (max : Z) (input : string) (Hmax : (0 ≤ max)%Z) :
  (∀ b rest, one_line b = true → input = b +:+ nl +:+ rest →
    readFrameLine false max input =
      if (Z.of_nat (len b) <=? max)%Z then Ok (b +:+ nl, rest) else Err ErrSSHStreamFrameTooLarge) ∧
  (one_line input = true →
    readFrameLine false max input =
      Err (if (max <? Z.of_nat (len input))%Z then ErrSSHStreamFrameTooLarge else ErrSSHStreamUnexpectedEOF)).
Proof. apply (readFrameLine_loop_spec (S (len input)) max ""); [done|done|lia]. Qed.

(** A frame survives the wire: the object made for it decodes to the frame
    itself, whatever order its fields arrive in, with the clip field marked
    present exactly for state frames and frames with a clip. *)
Theorem frame_roundtrip (f : SSHStreamFrame) (fields : list (string * jval))
    (Hfields : fields ≡ₚ MarshalJSON f) (Hwire : frame_wire f) :
  decodeSSHStreamFrame (Some fields) = Ok (with_clipPresent f).
Proof. by apply decode_wire. Qed.

(** ** Witnesses *)

Definition demo_io : write_io := MkWriteIO false 100 true.

Definition demo_now : time := time_Unix 1700000000.

Definition demo_hello : SSHStreamHello :=
  match @NewSSHStreamHello toy_crypto (Some demo_auth) SSHStreamPurposeSyncStream "mac" "studio" demo_now "n1" None with
  | Ok h => h
  | Err _ => MkHello [] "" "" "" 0 "" ""
  end.

Definition demo_hello_line : list (string * jval) := MarshalJSON (helloFrame demo_hello).

Definition state_seqs (evs : list SSHStreamEvent) : list Z := sr_Seq <$> omap state_of evs.

Definition null_line (seq : Z) : option (list (string * jval)) :=
  Some (MarshalJSON (stateFrame seq "mac" None "concealed_clear")).

Lemma stream_sequencing_witness :
  let s := NewSSHSyncStream (Some demo_auth) "studio" "mac" in
  let lines := [(null_line 1, demo_now); (null_line 2, demo_now); (null_line 2, demo_now); (null_line 3, demo_now)] in
  ∃ evs s' err, @read_events toy_crypto s lines = (evs, s', err) ∧ err ≠ None ∧
    state_seqs evs = [1; 2]%Z ∧ state_seqs evs = seqZ 1 2 ∧ nextSeq s' = 3%Z.
Proof.
  intros s lines.
  destruct (@read_events toy_crypto s lines) as [[evs s'] err] eqn:Hr.
  destruct (@stream_sequencing toy_crypto s lines evs s' err (conj eq_refl eq_refl) Hr) as (Hseq & _ & Hnext & _).
  exists evs, s', err. split; [reflexivity|].
  vm_compute in Hr. injection Hr as <- <- <-.
  split; [discriminate|]. split; [reflexivity|]. split; [exact Hseq|exact Hnext].
Defined.

Lemma hello_exchange_witness :
  (@ReadHello toy_crypto (NewSSHSyncStream (Some demo_auth) "studio" "mac") (Some (reverse demo_hello_line)) demo_now
    map_to_list NewSSHStreamHelloNonceCache).1 = Ok demo_hello.
Proof.
  pose proof (@hello_exchange toy_crypto toy_laws (Some demo_auth) "mac" "studio" demo_now "n1" None demo_hello demo_io
    demo_hello_line (reverse demo_hello_line) demo_now map_to_list NewSSHStreamHelloNonceCache) as H.
  destruct (remember map_to_list NewSSHStreamHelloNonceCache "mac" SSHStreamPurposeSyncStream (hl_Nonce demo_hello) demo_now)
    as [fresh cache'] eqn:Hr.
  assert (Hf : fresh = true) by (vm_compute in Hr; congruence). subst fresh.
  rewrite H; [reflexivity|..].
  - vm_compute. reflexivity.
  - vm_compute. reflexivity.
  - apply reverse_Permutation.
  - repeat (constructor; [vm_compute; reflexivity|]). constructor.
  - vm_compute. split; discriminate.
  - vm_compute. discriminate.
  - vm_compute. split; discriminate.
Defined.

Lemma hello_accept_sound_witness :
  ∃ cache', @ReadHello toy_crypto (NewSSHSyncStream (Some demo_auth) "studio" "mac") (Some demo_hello_line) demo_now
    map_to_list NewSSHStreamHelloNonceCache = (Ok demo_hello, cache') ∧
    (hl_HostID demo_hello, hl_PeerID demo_hello, hl_Purpose demo_hello) = ("mac", "studio", "sync-stream").
Proof.
  destruct (@ReadHello toy_crypto (NewSSHSyncStream (Some demo_auth) "studio" "mac") (Some demo_hello_line) demo_now
    map_to_list NewSSHStreamHelloNonceCache) as [r cache'] eqn:Hr.
  assert (Hok : r = Ok demo_hello) by (vm_compute in Hr; injection Hr as <- _; vm_compute; reflexivity). subst r.
  exists cache'. split; [reflexivity|].
  destruct (@hello_accept_sound toy_crypto _ _ _ _ _ _ _ Hr) as (Hids & _).
  - split; [discriminate|]. split; discriminate.
  - repeat (constructor; [reflexivity|]). constructor.
  - exact Hids.
Defined.

Lemma state_exchange_witness :
  ∃ fields, @WriteState toy_crypto demo_io (Some "nonce-bytes!") (NewSSHSyncStream (Some demo_auth) "mac" "studio") 1 demo_content "mac"
      = Ok fields ∧
    @ReadNext toy_crypto (NewSSHSyncStream (Some demo_auth) "studio" "mac") (Some fields) (10 * second)%Z =
    Ok (EventState (MkStateResult 1 "mac" demo_content "mac" ""),
        with_nextSeq (NewSSHSyncStream (Some demo_auth) "studio" "mac") 2).
Proof.
  destruct (@WriteState toy_crypto demo_io (Some "nonce-bytes!") (NewSSHSyncStream (Some demo_auth) "mac" "studio") 1 demo_content "mac")
    as [fields|] eqn:Hw; [|vm_compute in Hw; discriminate].
  exists fields. split; [reflexivity|].
  apply (@state_exchange toy_crypto toy_laws (Some demo_auth) "nonce-bytes!" "mac" "studio"
    (NewSSHSyncStream (Some demo_auth) "mac" "studio") (NewSSHSyncStream (Some demo_auth) "studio" "mac") demo_content "mac" demo_io fields).
  - reflexivity.
  - repeat split.
  - reflexivity.
  - vm_compute. split; [reflexivity|discriminate].
  - exact Hw.
  - reflexivity.
  - discriminate.
  - repeat (constructor; [vm_compute; reflexivity|]). constructor.
  - vm_compute. discriminate.
Defined.

Lemma readFrameLine_spec_witness :
  readFrameLine false 5 ("hello" +:+ nl +:+ "world!") = Ok ("hello" +:+ nl, "world!") ∧
  readFrameLine false 5 "world!" = Err ErrSSHStreamFrameTooLarge.
Proof.
  split.
  - apply (proj1 (readFrameLine_spec 5 ("hello" +:+ nl +:+ "world!") ltac:(lia)) "hello" "world!"); reflexivity.
  - apply (proj2 (readFrameLine_spec 5 "world!" ltac:(lia))). reflexivity.
Defined.

Lemma frame_roundtrip_witness :
  decodeSSHStreamFrame (Some (reverse demo_hello_line)) = Ok (helloFrame demo_hello).
Proof.
  assert (Hw : frame_wire (helloFrame demo_hello)).
  { split; [repeat (constructor; [vm_compute; reflexivity|]); constructor| | | |exact I].
    - constructor; [vm_compute; split; discriminate|constructor].
    - vm_compute. split; discriminate.
    - vm_compute. split; discriminate. }
  apply (frame_roundtrip (helloFrame demo_hello) (reverse demo_hello_line)).
  - apply reverse_Permutation.
  - exact Hw.
Defined.
