(* ===== verification/Daemon.v ===== *)
(** * The daemon core: daemon/daemon.go

    The daemon watches the local clipboard ([pollOnce]), takes clips from its
    peers ([onReceive]) and restores history entries ([Restore]).  The three run
    in goroutines of their own, so each is given as a sequence of phases, one per
    critical section or file operation, and as the function that runs its phases
    without interruption.  [System] lets the phases of any number of handlers, and
    the image collector, interleave.  What the platform does (reading and writing
    the clipboard, random numbers, file writes) is input, what the daemon sends
    out (clipboard writes, tmux buffers, publications) is logged in order. *)
From S2P Require Import Prelude GoStrings Utf8 Encoding Seen Clip History ImageStore Hostnames Nonce Auth.
From Stdlib Require Import Ascii String.
From stdpp Require Import strings.

Record PeerState := MkPeerState {
  ps_Hostname : string;
  ps_Port : Z;
  ps_LastPushTS : time;
  ps_LastPushOK : bool;
  ps_LastPushErr : string;
  ps_LastRecvTS : time;
  ps_Transport : string;
  ps_SSHHost : string;
  ps_SSHPort : Z;
  ps_SSHUser : string;
  ps_SSHActive : bool;
  ps_SSHPending : bool;
  ps_SSHStatus : string;
  ps_SSHLastConnectTS : time;
  ps_SSHLastAckTS : time;
  ps_SSHLastError : string;
  ps_SSHLastErrorTS : time;
}.

Definition with_recv (s : PeerState) (ts : time) : PeerState :=
  MkPeerState (ps_Hostname s) (ps_Port s) (ps_LastPushTS s) (ps_LastPushOK s) (ps_LastPushErr s) ts (ps_Transport s) (ps_SSHHost s)
    (ps_SSHPort s) (ps_SSHUser s) (ps_SSHActive s) (ps_SSHPending s) (ps_SSHStatus s) (ps_SSHLastConnectTS s) (ps_SSHLastAckTS s)
    (ps_SSHLastError s) (ps_SSHLastErrorTS s).

(** [&PeerState{Hostname: hostname, Port: port}] *)
Definition new_peer_row (hostname : string) (port : Z) : PeerState :=
  MkPeerState hostname port zero_time false "" zero_time "" "" 0 "" false false "" zero_time zero_time "" zero_time.

Definition new_peer_state (hostname : string) : PeerState := new_peer_row hostname 0.

(** What the daemon last wrote to, or took from, the local clipboard. *)
Record currentClip := MkCurrent {
  cc_id : string;
  cc_kind : Kind;
  cc_hash : string;
  cc_imagePath : string;
  cc_content : Content;
  cc_origin : string;
  cc_visible : bool;
}.

Definition zero_current : currentClip := MkCurrent "" "" "" "" zero_content "" false.

(** Everything that leaves the daemon. *)
Inductive Output :=
| OutPublish (c : Content) (origin skipOrigin : string)
| OutWriteText (text : string)
| OutWriteImage (body path : string)
| OutTmux (text : string).

Record Daemon := MkDaemon {
  d_origin : string;
  d_safeMode : bool;
  d_sshSync : bool;
  d_seen : seenSet;
  d_lastTS : time;
  d_current : currentClip;
  d_peerStatus : gmap string PeerState;
  d_store : Store;
  d_files : StateFiles;
  d_out : list Output;
}.

Definition with_seen (d : Daemon) (s : seenSet) (ts : time) : Daemon :=
  MkDaemon (d_origin d) (d_safeMode d) (d_sshSync d) s ts (d_current d) (d_peerStatus d) (d_store d) (d_files d) (d_out d).

Definition with_current (d : Daemon) (c : currentClip) : Daemon :=
  MkDaemon (d_origin d) (d_safeMode d) (d_sshSync d) (d_seen d) (d_lastTS d) c (d_peerStatus d) (d_store d) (d_files d) (d_out d).

Definition with_store (d : Daemon) (st : Store) : Daemon :=
  MkDaemon (d_origin d) (d_safeMode d) (d_sshSync d) (d_seen d) (d_lastTS d) (d_current d) (d_peerStatus d) st (d_files d) (d_out d).

Definition with_files (d : Daemon) (f : StateFiles) : Daemon :=
  MkDaemon (d_origin d) (d_safeMode d) (d_sshSync d) (d_seen d) (d_lastTS d) (d_current d) (d_peerStatus d) (d_store d) f (d_out d).

Definition with_peerStatus (d : Daemon) (p : gmap string PeerState) : Daemon :=
  MkDaemon (d_origin d) (d_safeMode d) (d_sshSync d) (d_seen d) (d_lastTS d) (d_current d) p (d_store d) (d_files d) (d_out d).

Definition emit (d : Daemon) (o : Output) : Daemon :=
  MkDaemon (d_origin d) (d_safeMode d) (d_sshSync d) (d_seen d) (d_lastTS d) (d_current d) (d_peerStatus d) (d_store d) (d_files d)
    (d_out d ++ [o]).

(** ** The poll clock *)

Definition clipboardPollActiveInterval : Z := 250000000%Z.

Definition clipboardPollIdleInterval : Z := (2 * second)%Z.

Definition clipboardPollIdleAfter : Z := 8%Z.

Definition nextClipboardPollInterval (idlePolls : Z) (changed : bool) : Z * Z :=
  if changed then (clipboardPollActiveInterval, 0%Z)
  else
    let idlePolls := (idlePolls + 1)%Z in
    if (clipboardPollIdleAfter <=? idlePolls)%Z then (clipboardPollIdleInterval, idlePolls)
    else (clipboardPollActiveInterval, idlePolls).

(** ** Shared pieces *)

Definition isEcho (d : Daemon) (c : Content) : bool :=
  let cur := d_current d in
  if bool_decide (cc_id cur = "") then false
  else if bool_decide (ckind c = cc_kind cur) && bool_decide (Hash c = cc_hash cur) then true
  else if bool_decide (cc_kind cur = KindImage) && bool_decide (ckind c = KindText) then
    bool_decide (TrimSpace (Bytes c) = cc_imagePath cur)
  else false.

Definition publishSSH (d : Daemon) (c : Content) (origin skipOrigin : string) : Daemon :=
  if d_safeMode d then d
  else if negb (d_sshSync d) then d
  else emit d (OutPublish c origin skipOrigin).

Definition recordRecv (d : Daemon) (origin : string) (now : time) : Daemon :=
  let s := match d_peerStatus d !! origin with Some s => s | None => new_peer_state origin end in
  with_peerStatus d (<[origin := with_recv s now]> (d_peerStatus d)).

Definition currentHandler (d : Daemon) : CurrentPayload :=
  let current := d_current d in
  if negb (cc_visible current) || bool_decide (ID (cc_content current) = "") then NoCurrentPayload "no_visible_current"
  else CurrentPayloadFromContent (cc_content current) (cc_origin current).

(** [setMaxHistory], for the loaded config value and the outcome of saving it:
    the new cap, and the history trimmed to it. *)
Definition setMaxHistory (preflight_ok save_ok wok : bool) (n : Z) (st : Store) : result string (Z * Store) :=
  if negb preflight_ok then Err "storage preflight"
  else if (n <=? 0)%Z then Err "max_history must be positive"
  else
    let n := if (n <? 50)%Z then 50%Z else n in
    let n := if (5000 <? n)%Z then 5000%Z else n in
    if negb save_ok then Err "save config"
    else
      st ← Recap wok (Some n) st;
      Ok (n, st).

Section daemon.
Context `{Crypto} (imagesDir : string).

(** The outcomes of the outside world a phase may consume. *)
Record phase_io := MkPhaseIO {
  io_now : time;
  io_rand : option string;
  io_save : save_io;
  io_state : state_io;
  io_append_ok : bool;
  io_loaded : option Z;
  io_write_ok : bool;
  io_readFile : option string;
  io_rm_ok : string → bool;
  io_sorted : list string;
}.

(** [AppendHistory] with its error logged and dropped. *)
Definition append_logged (io : phase_io) (d : Daemon) (c : Content) (origin imagePath : string) : Daemon :=
  match AppendHistory (io_append_ok io) (io_loaded io) c origin imagePath (d_store d) with
  | Ok st => with_store d st
  | Err _ => d
  end.

(** ** [onReceive], phase by phase *)

(** The early returns before the lock. *)
Definition recv_check (d : Daemon) (c : Content) : bool :=
  negb (d_safeMode d) &&
  negb (bool_decide (ckind c = KindText) && IsImageStorePath (Bytes c) (d_store d)) &&
  negb (isEcho d c) &&
  negb (bool_decide (ID c = "")).

(** The critical section: admitted or not, and the daemon after it. *)
Definition recv_admit (d : Daemon) (c : Content) : bool * Daemon :=
  if has (d_seen d) (ID c) then (false, d)
  else if Concealed c then (false, with_seen d (add (d_seen d) (ID c)) (d_lastTS d))
  else if negb (IsZero (d_lastTS d)) && Before (TS c) (d_lastTS d) then (false, d)
  else (true, with_seen d (add (d_seen d) (ID c)) (TS c)).

(** Saving the image: the path, and whether the collector was started; [None]
    stops the handler. *)
Definition recv_save (io : phase_io) (d : Daemon) (c : Content) : option (Daemon * string * bool) :=
  if bool_decide (ckind c = KindImage) then
    match SaveImage imagesDir (io_save io) (Bytes c) (d_store d) with
    | Err _ => None
    | Ok (p, st, spawned) => Some (with_store d st, p, spawned)
    end
  else Some (d, "", false).

Definition recv_payload (c : Content) (imagePath : string) : string :=
  if bool_decide (ckind c = KindImage) then imagePath else Bytes c.

Definition recv_append (io : phase_io) (d : Daemon) (c : Content) (origin imagePath : string) : Daemon :=
  let state :=
    if bool_decide (ckind c = KindImage) then MkState "image" (TS c) imagePath else MkState "text" (TS c) "" in
  let d := with_files d (SaveState (io_state io) state (recv_payload c imagePath) (d_files d)).1 in
  append_logged io d c origin imagePath.

Definition recv_adopt (io : phase_io) (d : Daemon) (c : Content) (origin imagePath : string) : Daemon :=
  let d :=
    if io_write_ok io then
      if bool_decide (ckind c = KindImage) then
        with_current (emit d (OutWriteImage (Bytes c) imagePath)) (MkCurrent (ID c) KindImage (Hash c) imagePath c origin true)
      else
        with_current (emit d (OutWriteText (Bytes c))) (MkCurrent (ID c) KindText (Hash c) "" c origin true)
    else d in
  emit d (OutTmux (recv_payload c imagePath)).

Definition onReceive (io : phase_io) (d : Daemon) (c : Content) (origin : string) : Daemon :=
  if negb (recv_check d c) then d
  else
    let '(admitted, d) := recv_admit d c in
    if negb admitted then d
    else
      let d := recordRecv d origin (io_now io) in
      match recv_save io d c with
      | None => d
      | Some (d, imagePath, _) =>
          let d := recv_append io d c origin imagePath in
          let d := recv_adopt io d c origin imagePath in
          publishSSH d c origin origin
      end.

(** ** [pollOnce], phase by phase *)

(** [read]: what the backend's [Read] gave. *)
Definition poll_check (d : Daemon) (read : option Content) : option Content :=
  if d_safeMode d then None
  else
    match read with
    | None => None
    | Some c =>
        if bool_decide (Bytes c = "") then None
        else if bool_decide (ckind c = KindText) && IsImageStorePath (Bytes c) (d_store d) then None
        else if isEcho d c then None
        else Some c
    end.

Definition poll_mint (io : phase_io) (d : Daemon) (c : Content) : option (Content * Daemon) :=
  let id := NewClipID (io_rand io) in
  if bool_decide (id = "") then None
  else Some (with_id c id, with_seen d (add (d_seen d) id) (TS c)).

Definition poll_save (io : phase_io) (d : Daemon) (c : Content) : Daemon * string * bool :=
  if negb (Concealed c) && bool_decide (ckind c = KindImage) then
    match SaveImage imagesDir (io_save io) (Bytes c) (d_store d) with
    | Ok (p, st, spawned) => (with_store d st, p, spawned)
    | Err _ => (d, "", false)
    end
  else (d, "", false).

Definition poll_append (io : phase_io) (d : Daemon) (c : Content) (imagePath : string) : Daemon :=
  if Concealed c then d else append_logged io d c (d_origin d) imagePath.

Definition poll_adopt (d : Daemon) (c : Content) (imagePath : string) : Daemon :=
  with_current d (MkCurrent (ID c) (ckind c) (Hash c) imagePath c (d_origin d) (negb (Concealed c))).

Definition pollOnce (io : phase_io) (d : Daemon) (read : option Content) : bool * Daemon :=
  match poll_check d read with
  | None => (false, d)
  | Some c =>
      match poll_mint io d c with
      | None => (false, d)
      | Some (c, d) =>
          let '(d, imagePath, _) := poll_save io d c in
          let d := poll_append io d c imagePath in
          let d := poll_adopt d c imagePath in
          if Concealed c then (true, d) else (true, publishSSH d c (d_origin d) "")
      end
  end.

(** ** [Restore], phase by phase *)

(** The file of an image entry: in the store by name, elsewhere by [io_readFile]. *)
Definition read_image (io : phase_io) (d : Daemon) (path : string) : option string :=
  if bool_decide (path = image_path imagesDir (Base path)) then img_bytes <$> (images (d_store d) !! Base path)
  else io_readFile io.

(** Looking the entry up and writing the clipboard: the clip, still without an
    ID, and whether the write worked. *)
Definition restore_write (io : phase_io) (d : Daemon) (id : string) :
    result string (HistoryEntry * Content * bool * Daemon) :=
  found ← EntryByID id (d_store d);
  match found with
  | None => Err "history entry not found"
  | Some e =>
      if bool_decide (e_Kind e = "image") then
        match read_image io d (ImagePath e) with
        | None => Err "read image"
        | Some body =>
            Ok (e, New KindImage body (io_now io), io_write_ok io,
                if io_write_ok io then emit d (OutWriteImage body (ImagePath e)) else d)
        end
      else
        Ok (e, New KindText (Text e) (io_now io), io_write_ok io,
            if io_write_ok io then emit d (OutWriteText (Text e)) else d)
  end.

Definition restore_path (e : HistoryEntry) : string :=
  if bool_decide (e_Kind e = "image") then ImagePath e else "".

Definition restore_mint (io : phase_io) (d : Daemon) (e : HistoryEntry) (c : Content) (wrote : bool) :
    option (Content * Daemon) :=
  let id := NewClipID (io_rand io) in
  if bool_decide (id = "") then None
  else
    let c := with_id c id in
    let d := with_seen d (add (d_seen d) id) (TS c) in
    Some (c,
      if wrote then
        if bool_decide (e_Kind e = "image") then
          with_current d (MkCurrent id KindImage (Hash c) (ImagePath e) c (d_origin d) true)
        else with_current d (MkCurrent id KindText (Hash c) "" c (d_origin d) true)
      else d).

Definition Restore (io : phase_io) (d : Daemon) (id : string) : result string () * Daemon :=
  match restore_write io d id with
  | Err e => (Err e, d)
  | Ok (e, c, wrote, d) =>
      match restore_mint io d e c wrote with
      | None => (Ok (), d)
      | Some (c, d) =>
          let d := append_logged io d c (d_origin d) (restore_path e) in
          (Ok (), publishSSH d c (d_origin d) "")
      end
  end.

(** ** Handlers interleaving *)

(** What is left of a running handler, and the collector. *)
Inductive thread :=
| RecvStart (c : Content) (origin : string)
| RecvAdmit (c : Content) (origin : string)
| RecvSave (c : Content) (origin : string)
| RecvAppend (c : Content) (origin imagePath : string)
| RecvAdopt (c : Content) (origin imagePath : string)
| RecvPublish (c : Content) (origin : string)
| PollStart (read : option Content)
| PollMint (c : Content)
| PollSave (c : Content)
| PollAppend (c : Content) (imagePath : string)
| PollAdopt (c : Content) (imagePath : string)
| PollPublish (c : Content)
| RestoreStart (id : string)
| RestoreMint (e : HistoryEntry) (c : Content) (wrote : bool)
| RestoreAppend (e : HistoryEntry) (c : Content)
| RestorePublish (c : Content)
| Collect.

Definition collector (spawned : bool) : list thread := if spawned then [Collect] else [].

(** One phase of one thread: the daemon, what the thread goes on to, and the ID
    it put in the seen set, if any, with whether it came from a peer. *)
Definition run_phase (io : phase_io) (t : thread) (d : Daemon) : Daemon * list thread * option (bool * string) :=
  match t with
  | RecvStart c origin => (d, if recv_check d c then [RecvAdmit c origin] else [], None)
  | RecvAdmit c origin =>
      let '(admitted, d') := recv_admit d c in
      if admitted then (recordRecv d' origin (io_now io), [RecvSave c origin], Some (true, ID c))
      else (d', [], if negb (has (d_seen d) (ID c)) && Concealed c then Some (true, ID c) else None)
  | RecvSave c origin =>
      match recv_save io d c with
      | None => (d, [], None)
      | Some (d, p, spawned) => (d, collector spawned ++ [RecvAppend c origin p], None)
      end
  | RecvAppend c origin p => (recv_append io d c origin p, [RecvAdopt c origin p], None)
  | RecvAdopt c origin p => (recv_adopt io d c origin p, [RecvPublish c origin], None)
  | RecvPublish c origin => (publishSSH d c origin origin, [], None)
  | PollStart read => (d, match poll_check d read with Some c => [PollMint c] | None => [] end, None)
  | PollMint c =>
      match poll_mint io d c with
      | Some (c, d) => (d, [PollSave c], Some (false, ID c))
      | None => (d, [], None)
      end
  | PollSave c =>
      let '(d, p, spawned) := poll_save io d c in
      (d, collector spawned ++ [PollAppend c p], None)
  | PollAppend c p => (poll_append io d c p, [PollAdopt c p], None)
  | PollAdopt c p => (poll_adopt d c p, if Concealed c then [] else [PollPublish c], None)
  | PollPublish c => (publishSSH d c (d_origin d) "", [], None)
  | RestoreStart id =>
      match restore_write io d id with
      | Err _ => (d, [], None)
      | Ok (e, c, wrote, d) => (d, [RestoreMint e c wrote], None)
      end
  | RestoreMint e c wrote =>
      match restore_mint io d e c wrote with
      | None => (d, [], None)
      | Some (c, d) => (d, [RestoreAppend e c], Some (false, ID c))
      end
  | RestoreAppend e c => (append_logged io d c (d_origin d) (restore_path e), [RestorePublish c], None)
  | RestorePublish c => (publishSSH d c (d_origin d) "", [], None)
  | Collect => (with_store d (gc (io_loaded io) (io_rm_ok io) (io_sorted io) (d_store d)), [], None)
  end.

(** The daemon with its running threads; [sys_added] is a record, kept for the
    statements only, of every ID put in the seen set, oldest first. *)
Record System := MkSystem {
  sys_daemon : Daemon;
  sys_threads : list thread;
  sys_added : list (bool * string);
}.

(** A handler as it starts; clips off the wire and off the clipboard carry the
    hash of their bytes. *)
Definition starts (t : thread) : Prop :=
  match t with
  | RecvStart c _ => hashed c
  | PollStart (Some c) => hashed c
  | PollStart None => True
  | RestoreStart _ => True
  | _ => False
  end.

Inductive sys_step : System → System → Prop :=
| step_start d ts added t :
    starts t → sys_step (MkSystem d ts added) (MkSystem d (ts ++ [t]) added)
| step_run d ts1 t ts2 added io d' next log :
    run_phase io t d = (d', next, log) →
    sys_step (MkSystem d (ts1 ++ t :: ts2) added)
             (MkSystem d' (ts1 ++ next ++ ts2) (added ++ option_list log)).

Definition initial_daemon (origin : string) (safeMode sshSync : bool) (lastTS : time) (st : Store) (f : StateFiles) : Daemon :=
  MkDaemon origin safeMode sshSync newSeenSet lastTS zero_current ∅ st f [].

Definition reachable (d0 : Daemon) (s : System) : Prop := rtc sys_step (MkSystem d0 [] []) s.

End daemon.

(** What [Run] does with the first read of the clipboard. *)
Definition startup (d : Daemon) (read : option Content) : Daemon :=
  match read with
  | None => d
  | Some c =>
      if bool_decide (Bytes c = "") then d
      else
        let kind := if bool_decide (ckind c = KindImage) then KindImage else KindText in
        with_current (with_seen d (d_seen d) (TS c)) (MkCurrent "startup" kind (Hash c) "" zero_content "" false)
  end.

(** ** Invariants *)

Section invariants.
Context `{Crypto} (imagesDir : string).

(** A clip fit to leave the host. *)
Definition clean (c : Content) : Prop := Concealed c = false ∧ ID c ≠ "" ∧ hashed c.

Definition out_ok (o : Output) : Prop :=
  match o with OutPublish c _ _ => clean c | _ => True end.

Record daemon_ok (d : Daemon) : Prop := {
  ok_out : Forall out_ok (d_out d);
  ok_current : cc_visible (d_current d) = true → clean (cc_content (d_current d));
  ok_store : store_wf (d_store d);
}.

(** What holds of a handler between two of its phases. *)
Definition thread_ok (t : thread) : Prop :=
  match t with
  | RecvStart c _ => hashed c
  | RecvAdmit c _ => hashed c ∧ ID c ≠ ""
  | RecvSave c _ | RecvAppend c _ _ | RecvAdopt c _ _ | RecvPublish c _ => clean c
  | PollStart read => match read with Some c => hashed c | None => True end
  | PollMint c => hashed c
  | PollSave c | PollAppend c _ | PollAdopt c _ => hashed c ∧ ID c ≠ ""
  | PollPublish c => clean c
  | RestoreStart _ => True
  | RestoreMint _ c _ => hashed c ∧ Concealed c = false
  | RestoreAppend _ c | RestorePublish c => clean c
  | Collect => True
  end.

Definition added_ok (d : Daemon) (added : list (bool * string)) : Prop :=
  d_seen d = add_all newSeenSet added.*2 ∧
  ∀ pre id post, added = pre ++ (true, id) :: post → id ∉ Window.push_all [] pre.*2.

Record system_ok (s : System) : Prop := {
  sys_daemon_ok : daemon_ok (sys_daemon s);
  sys_threads_ok : Forall thread_ok (sys_threads s);
  sys_added_ok : added_ok (sys_daemon s) (sys_added s);
}.

Lemma publish_ok d c o k : daemon_ok d → clean c → daemon_ok (publishSSH d c o k).
Proof.
  intros [Ho Hc Hs] Hcl. unfold publishSSH. repeat case_match; try done. split; simpl; try done.
  apply Forall_app. split; [done|]. by constructor.
Qed.

Lemma append_ok io d c o p : daemon_ok d → daemon_ok (append_logged io d c o p).
Proof.
  intros [Ho Hc Hs]. unfold append_logged. destruct (AppendHistory _ _ _ _ _ _) as [st|] eqn:Ha; [|done].
  split; simpl; try done. by eapply (apply_op_wf (io_append_ok io) (OpAppend (io_loaded io) c o p)).
Qed.

Lemma SaveImage_hist dir io body st p st' sp : SaveImage dir io body st = Ok (p, st', sp) → hist st' = hist st.
Proof. unfold SaveImage. intros Hs. go_cases; done. Qed.

Lemma store_wf_hist st st' : hist st' = hist st → store_wf st → store_wf st'.
Proof. unfold store_wf, readHistory. by intros ->. Qed.

Lemma gc_hist loaded rm sorted st : hist (gc loaded rm sorted st) = hist st.
Proof. unfold gc. by case_match. Qed.

Lemma set_store_ok d st : daemon_ok d → store_wf st → daemon_ok (with_store d st).
Proof. by intros [Ho Hc Hs]. Qed.

Lemma set_current_ok d c : daemon_ok d → (cc_visible c = true → clean (cc_content c)) → daemon_ok (with_current d c).
Proof. by intros [Ho Hc Hs]. Qed.

Lemma emit_ok d o : daemon_ok d → out_ok o → daemon_ok (emit d o).
Proof. intros [Ho Hc Hs] Hout. split; simpl; try done. apply Forall_app. split; [done|]. by constructor. Qed.

Lemma seen_ok d s ts : daemon_ok d → daemon_ok (with_seen d s ts).
Proof. by intros [Ho Hc Hs]. Qed.

Lemma peers_ok d p : daemon_ok d → daemon_ok (with_peerStatus d p).
Proof. by intros [Ho Hc Hs]. Qed.

Lemma files_ok d f : daemon_ok d → daemon_ok (with_files d f).
Proof. by intros [Ho Hc Hs]. Qed.

Lemma save_image_ok d io body p st sp :
  daemon_ok d → SaveImage imagesDir io body (d_store d) = Ok (p, st, sp) → daemon_ok (with_store d st).
Proof. intros Hd Hs. apply set_store_ok; [done|]. eapply store_wf_hist; [by eapply SaveImage_hist|]. apply Hd. Qed.

Lemma collector_ok sp : Forall thread_ok (collector sp).
Proof. by destruct sp; repeat constructor. Qed.

Lemma recv_adopt_ok io d c o p : daemon_ok d → clean c → daemon_ok (recv_adopt io d c o p).
Proof.
  intros Hd Hc. unfold recv_adopt. apply emit_ok; [|done]. destruct (io_write_ok io); [|done].
  case_match; apply set_current_ok; try (by intros _); by apply emit_ok.
Qed.

Lemma restore_write_ok io d id e c w d' :
  daemon_ok d → restore_write imagesDir io d id = Ok (e, c, w, d') → daemon_ok d' ∧ hashed c ∧ Concealed c = false.
Proof.
  intros Hd. unfold restore_write. intros Hr. apply bind_Ok in Hr as ([e'|] & _ & Hr); [|done].
  case_bool_decide; [destruct (read_image _ _ _ _) as [body|]; [|done]|]; injection Hr as <- <- <- <-;
    (split; [|done]); destruct (io_write_ok io); try done; by apply emit_ok.
Qed.

Lemma with_id_clean c id : hashed c → Concealed c = false → id ≠ "" → clean (with_id c id).
Proof. done. Qed.

Lemma restore_mint_ok io d e c w c' d' :
  daemon_ok d → hashed c → Concealed c = false → restore_mint io d e c w = Some (c', d') → daemon_ok d' ∧ clean c'.
Proof.
  intros Hd Hh Hn. unfold restore_mint. case_bool_decide as Hid; [done|]. intros [= <- <-].
  pose proof (with_id_clean c _ Hh Hn Hid) as Hclean. split; [|done]. apply seen_ok with (s := add (d_seen d) (NewClipID (io_rand io))) (ts := TS c) in Hd.
  destruct w; [|done]. case_match; by apply set_current_ok.
Qed.

(** Every phase of every handler keeps the invariants, whatever the world does. *)
Lemma run_phase_ok io t d d' next log :
  daemon_ok d → thread_ok t → run_phase imagesDir io t d = (d', next, log) → daemon_ok d' ∧ Forall thread_ok next.
Proof.
  intros Hd Ht Hrun. destruct t; cbn [run_phase thread_ok] in *.
  - injection Hrun as <- <- <-. split; [done|]. destruct (recv_check d c) eqn:Hc; [|constructor].
    constructor; [|constructor]. split; [done|]. unfold recv_check in Hc. bool_prop. done.
  - destruct Ht as [Hh Hid]. unfold recv_admit in Hrun.
    destruct (has _ _); [by injection Hrun as <- <- <-|].
    destruct (Concealed c) eqn:Hcon; [injection Hrun as <- <- <-; split; [by apply seen_ok|constructor]|].
    destruct (_ && _); injection Hrun as <- <- <-; [by split; [|constructor]|].
    split; [by apply peers_ok, seen_ok|]. by apply Forall_singleton.
  - destruct (recv_save _ _ _ _) as [[[d1 p] sp]|] eqn:Hs; injection Hrun as <- <- <-; [|by split; [|constructor]].
    unfold recv_save in Hs. case_bool_decide.
    + destruct (SaveImage _ _ _ _) as [[[p' st] sp']|] eqn:Hsave; [|done]. injection Hs as <- <- <-.
      split; [by eapply save_image_ok|]. apply Forall_app. split; [apply collector_ok|]. by apply Forall_singleton.
    + injection Hs as <- <- <-. split; [done|]. by apply Forall_singleton.
  - injection Hrun as <- <- <-. split; [|by apply Forall_singleton]. by apply append_ok, files_ok.
  - injection Hrun as <- <- <-. split; [|by apply Forall_singleton]. by apply recv_adopt_ok.
  - injection Hrun as <- <- <-. split; [|constructor]. by apply publish_ok.
  - injection Hrun as <- <- <-. split; [done|]. destruct (poll_check d read) as [c|] eqn:Hc; [|constructor].
    constructor; [|constructor]. unfold poll_check in Hc. destruct read as [c0|]; go_cases; done.
  - destruct (poll_mint io d c) as [[c1 d1]|] eqn:Hm; injection Hrun as <- <- <-; [|by split; [|constructor]].
    unfold poll_mint in Hm. case_bool_decide; [done|]. injection Hm as <- <-. split; [by apply seen_ok|].
    by apply Forall_singleton.
  - destruct (poll_save _ _ _ _) as [[d1 p] sp] eqn:Hs. injection Hrun as <- <- <-. unfold poll_save in Hs.
    assert (daemon_ok d1 ∧ (sp = sp)) as [Hd1 _].
    { split; [|done]. destruct (_ && _); [|by injection Hs as <- _ _].
      destruct (SaveImage _ _ _ _) as [[[p' st] sp']|] eqn:Hsave; injection Hs as <- _ _; [by eapply save_image_ok|done]. }
    split; [done|]. apply Forall_app. split; [apply collector_ok|]. by apply Forall_singleton.
  - injection Hrun as <- <- <-. split; [|by apply Forall_singleton]. unfold poll_append. destruct (Concealed c); [done|].
    by apply append_ok.
  - injection Hrun as <- <- <-. destruct Ht as [Hh Hid]. split.
    + apply set_current_ok; [done|]. simpl. intros Hv%negb_true_iff. done.
    + destruct (Concealed c) eqn:Hcon; [constructor|by apply Forall_singleton].
  - injection Hrun as <- <- <-. split; [|constructor]. by apply publish_ok.
  - destruct (restore_write _ _ _ _) as [[[[e c] w] d1]|] eqn:Hr; injection Hrun as <- <- <-; [|by split; [|constructor]].
    destruct (restore_write_ok _ _ _ _ _ _ _ Hd Hr) as (? & ? & ?). split; [done|]. by apply Forall_singleton.
  - destruct (restore_mint _ _ _ _ _) as [[c1 d1]|] eqn:Hr; injection Hrun as <- <- <-; [|by split; [|constructor]].
    destruct Ht as [Hh Hn]. destruct (restore_mint_ok _ _ _ _ _ _ _ Hd Hh Hn Hr). split; [done|]. by apply Forall_singleton.
  - injection Hrun as <- <- <-. split; [by apply append_ok|]. by apply Forall_singleton.
  - injection Hrun as <- <- <-. split; [by apply publish_ok|constructor].
  - injection Hrun as <- <- <-. split; [|constructor]. apply set_store_ok; [done|].
    eapply store_wf_hist; [apply gc_hist|]. apply Hd.
Qed.

Lemma append_seen io d c o p : d_seen (append_logged io d c o p) = d_seen d.
Proof. unfold append_logged. by case_match. Qed.

Lemma publish_seen d c o k : d_seen (publishSSH d c o k) = d_seen d.
Proof. unfold publishSSH. by repeat case_match. Qed.

(** The only way into the seen set is a logged addition, and a peer's ID is only
    added when it was not there. *)
Lemma run_phase_seen io t d d' next log :
  run_phase imagesDir io t d = (d', next, log) →
  d_seen d' = add_all (d_seen d) (option_list log).*2 ∧
  ∀ id, log = Some (true, id) → has (d_seen d) id = false.
Proof.
  intros Hrun. destruct t; cbn [run_phase] in Hrun.
  all: try (injection Hrun as <- <- <-; split; [|done]; simpl; done).
  - unfold recv_admit in Hrun. destruct (has (d_seen d) (ID c)) eqn:Hh; [by injection Hrun as <- <- <-|].
    destruct (Concealed c) eqn:Hcon; [injection Hrun as <- <- <-; split; [done|naive_solver]|].
    destruct (_ && _); injection Hrun as <- <- <-; [done|]. split; [done|naive_solver].
  - unfold recv_save in Hrun. go_cases; done.
  - injection Hrun as <- <- <-. split; [|done]. unfold recv_append. by rewrite append_seen.
  - injection Hrun as <- <- <-. split; [|done]. unfold recv_adopt. simpl. by repeat case_match.
  - injection Hrun as <- <- <-. split; [|done]. by rewrite publish_seen.
  - unfold poll_mint in Hrun. case_bool_decide; injection Hrun as <- <- <-; done.
  - unfold poll_save in Hrun. go_cases; done.
  - injection Hrun as <- <- <-. split; [|done]. unfold poll_append. case_match; [done|]. by rewrite append_seen.
  - injection Hrun as <- <- <-. split; [|done]. by rewrite publish_seen.
  - destruct (restore_write _ _ _ _) as [[[[e c] w] d1]|] eqn:Hr; injection Hrun as <- <- <-; [|done].
    split; [|done]. unfold restore_write in Hr. apply bind_Ok in Hr as ([e'|] & _ & Hr); [|done].
    case_bool_decide; [destruct (read_image _ _ _ _); [|done]|]; injection Hr as <- <- <- <-;
      by destruct (io_write_ok io).
  - unfold restore_mint in Hrun. case_bool_decide; [by injection Hrun as <- <- <-|].
    injection Hrun as <- <- <-. split; [|done]. by repeat case_match.
  - injection Hrun as <- <- <-. split; [|done]. by rewrite append_seen.
  - injection Hrun as <- <- <-. split; [|done]. by rewrite publish_seen.
Qed.
End invariants.

Section system.
Context `{Crypto} (imagesDir : string).

Lemma added_ok_app d d' added log :
  added_ok d added → d_seen d' = add_all (d_seen d) (option_list log).*2 →
  (∀ id, log = Some (true, id) → has (d_seen d) id = false) → added_ok d' (added ++ option_list log).
Proof.
  intros [Hs Hun] Hd' Hnew. split.
  - rewrite Hd', Hs, fmap_app. unfold add_all. by rewrite foldl_app.
  - intros pre id post Heq. destruct log as [x|]; simpl in Heq; [|rewrite app_nil_r in Heq; eauto].
    destruct (decide (post = [])) as [->|Hpost].
    + apply app_inj_tail in Heq as [-> ->]. specialize (Hnew id eq_refl).
      rewrite Hs, has_false, add_all_push in Hnew by (apply add_all_wf || idtac; apply newSeenSet_wf). done.
    + destruct (exists_last Hpost) as (post' & y & ->).
      rewrite app_comm_cons, app_assoc in Heq. apply app_inj_tail in Heq as [-> _]. eauto.
Qed.

Lemma sys_step_ok s s' : sys_step imagesDir s s' → system_ok s → system_ok s'.
Proof.
  intros Hstep [Hd Ht Ha]. inversion Hstep as [d ts added t Hst|d ts1 t ts2 added io d' next log Hrun]; subst; simpl in *.
  - split; simpl; [done| |done]. apply Forall_app. split; [done|]. apply Forall_singleton.
    by destruct t.
  - apply Forall_app in Ht as [Ht1 Ht2]. apply Forall_cons in Ht2 as [Ht Ht2].
    destruct (run_phase_ok _ _ _ _ _ _ _ Hd Ht Hrun) as [Hd' Hnext].
    destruct (run_phase_seen _ _ _ _ _ _ _ Hrun) as [Hseen Hnew].
    split; simpl; [done| |by eapply added_ok_app]. by rewrite !Forall_app.
Qed.

Lemma reachable_ok d0 s :
  daemon_ok d0 → d_seen d0 = newSeenSet → reachable imagesDir d0 s → system_ok s.
Proof.
  intros Hd Hs Hr. assert (Hinit : system_ok (MkSystem d0 [] [])).
  { split; simpl; [done|constructor|]. split; [done|]. intros [|] id post Heq; done. }
  revert Hinit. induction Hr as [|x y z Hxy Hyz IH]; [done|]. intros Hx. apply IH. by eapply sys_step_ok.
Qed.

(** ** Lemmas: running one handler without interruption *)

Lemma run_here d t d' next log added io ts1 ts2 :
  run_phase imagesDir io t d = (d', next, log) →
  sys_step imagesDir (MkSystem d (ts1 ++ t :: ts2) added) (MkSystem d' (ts1 ++ next ++ ts2) (added ++ option_list log)).
Proof. apply step_run. Qed.

(** A thread alone beside waiting collectors. *)
Inductive runs (io : phase_io) : thread → Daemon → Daemon → list thread → list (bool * string) → Prop :=
| runs_stop t d d' log :
    run_phase imagesDir io t d = (d', [], log) → runs io t d d' [] (option_list log)
| runs_more t d d' gcs next log d'' left log' :
    run_phase imagesDir io t d = (d', gcs ++ [next], log) →
    runs io next d' d'' left log' → runs io t d d'' (gcs ++ left) (option_list log ++ log').

Lemma runs_reach io t d d' left log ts added :
  runs io t d d' left log → rtc (sys_step imagesDir) (MkSystem d (ts ++ [t]) added) (MkSystem d' (ts ++ left) (added ++ log)).
Proof.
  intros Hr. revert ts added. induction Hr as [t d d' log Hrun|t d d1 gcs next log d'' left log' Hrun Hr IH]; intros ts added.
  - apply rtc_once. exact (run_here d t d' [] log added io ts [] Hrun).
  - pose proof (run_here d t d1 _ log added io ts [] Hrun) as Hs. rewrite app_nil_r, app_assoc in Hs.
    eapply rtc_l; [exact Hs|]. rewrite !app_assoc. apply IH.
Qed.

Lemma onReceive_runs io d c origin :
  ∃ left log, runs io (RecvStart c origin) d (onReceive imagesDir io d c origin) left log ∧ left ⊆ [Collect].
Proof.
  unfold onReceive. destruct (recv_check d c) eqn:Hc; simpl.
  2: { eexists _, _. split; [apply runs_stop; simpl; by rewrite Hc|apply list_subseteq_nil]. }
  destruct (recv_admit d c) as [[] d1] eqn:Ha; simpl.
  2: { eexists _, _. split; [|apply list_subseteq_nil]. eapply (runs_more _ _ _ _ [] (RecvAdmit c origin)); [simpl; by rewrite Hc|].
       apply runs_stop. simpl. by rewrite Ha. }
  destruct (recv_save imagesDir io _ c) as [[[d2 p] sp]|] eqn:Hs; simpl.
  2: { eexists _, _. split.
       - eapply (runs_more _ _ _ _ [] (RecvAdmit c origin)); [simpl; by rewrite Hc|].
         eapply (runs_more _ _ _ _ [] (RecvSave c origin)); [simpl; by rewrite Ha|].
         apply runs_stop. simpl. by rewrite Hs.
       - apply list_subseteq_nil. }
  eexists _, _. split.
  - eapply (runs_more _ _ _ _ [] (RecvAdmit c origin)); [simpl; by rewrite Hc|].
    eapply (runs_more _ _ _ _ [] (RecvSave c origin)); [simpl; by rewrite Ha|].
    eapply (runs_more _ _ _ _ (collector sp) (RecvAppend c origin p)); [simpl; by rewrite Hs|].
    eapply (runs_more _ _ _ _ [] (RecvAdopt c origin p)); [done|].
    eapply (runs_more _ _ _ _ [] (RecvPublish c origin)); [done|]. by apply runs_stop.
  - simpl. rewrite app_nil_r. by destruct sp; [|apply list_subseteq_nil].
Qed.

Lemma pollOnce_runs io d read :
  ∃ left log, runs io (PollStart read) d (pollOnce imagesDir io d read).2 left log ∧ left ⊆ [Collect].
Proof.
  unfold pollOnce. destruct (poll_check d read) as [c|] eqn:Hc; simpl.
  2: { eexists _, _. split; [apply runs_stop; simpl; by rewrite Hc|apply list_subseteq_nil]. }
  destruct (poll_mint io d c) as [[c1 d1]|] eqn:Hm; simpl.
  2: { eexists _, _. split; [|apply list_subseteq_nil]. eapply (runs_more _ _ _ _ [] (PollMint c)); [simpl; by rewrite Hc|].
       apply runs_stop. simpl. by rewrite Hm. }
  destruct (poll_save imagesDir io d1 c1) as [[d2 p] sp] eqn:Hs.
  assert (Hhead : ∀ d3 left log, runs io (PollAdopt c1 p) (poll_append io d2 c1 p) d3 left log →
    ∃ log', runs io (PollStart read) d d3 (collector sp ++ left) log').
  { intros d3 left log Hr. eexists.
    eapply (runs_more _ _ _ _ [] (PollMint c)); [simpl; by rewrite Hc|].
    eapply (runs_more _ _ _ _ [] (PollSave c1)); [simpl; by rewrite Hm|].
    eapply (runs_more _ _ _ _ (collector sp) (PollAppend c1 p)); [simpl; by rewrite Hs|].
    eapply (runs_more _ _ _ _ [] (PollAdopt c1 p)); [done|exact Hr]. }
  destruct (Concealed c1) eqn:Hcon; simpl.
  - edestruct Hhead as [log' Hr]; [apply runs_stop; simpl; rewrite Hcon; reflexivity|].
    eexists _, _. split; [exact Hr|]. rewrite app_nil_r. by destruct sp; [|apply list_subseteq_nil].
  - edestruct Hhead as [log' Hr].
    { eapply (runs_more _ _ _ _ [] (PollPublish c1)); [simpl; rewrite Hcon; reflexivity|]. by apply runs_stop. }
    eexists _, _. split; [exact Hr|]. rewrite app_nil_r. by destruct sp; [|apply list_subseteq_nil].
Qed.

Lemma Restore_runs io d id :
  ∃ left log, runs io (RestoreStart id) d (Restore imagesDir io d id).2 left log ∧ left ⊆ [Collect].
Proof.
  unfold Restore. destruct (restore_write imagesDir io d id) as [[[[e c] w] d1]|] eqn:Hr; simpl.
  2: { eexists _, _. split; [apply runs_stop; simpl; by rewrite Hr|apply list_subseteq_nil]. }
  destruct (restore_mint io d1 e c w) as [[c1 d2]|] eqn:Hm; simpl.
  2: { eexists _, _. split; [|apply list_subseteq_nil]. eapply (runs_more _ _ _ _ [] (RestoreMint e c w)); [simpl; by rewrite Hr|].
       apply runs_stop. simpl. by rewrite Hm. }
  eexists _, _. split.
  - eapply (runs_more _ _ _ _ [] (RestoreMint e c w)); [simpl; by rewrite Hr|].
    eapply (runs_more _ _ _ _ [] (RestoreAppend e c1)); [simpl; by rewrite Hm|].
    eapply (runs_more _ _ _ _ [] (RestorePublish c1)); [done|]. by apply runs_stop.
  - apply list_subseteq_nil.
Qed.
End system.

(** ** Lemmas: echoes *)

(** The clip just written comes back, as itself or as the path of its image. *)
Definition reads_back (c read : Content) (imagePath : string) : Prop :=
  (ckind read = ckind c ∧ Bytes read = Bytes c) ∨
  (ckind c = KindImage ∧ ckind read = KindText ∧ TrimSpace (Bytes read) = imagePath).

Lemma append_current `{Crypto} io d c o p : d_current (append_logged io d c o p) = d_current d.
Proof. unfold append_logged. by case_match. Qed.

Lemma publish_current d c o k : d_current (publishSSH d c o k) = d_current d.
Proof. unfold publishSSH. by repeat case_match. Qed.

(** The clip a running handler holds. *)
Definition carries (t : thread) : option Content :=
  match t with
  | RecvStart c _ | RecvAdmit c _ | RecvSave c _ | RecvAppend c _ _ | RecvAdopt c _ _ | RecvPublish c _ => Some c
  | PollStart read => read
  | PollMint c | PollSave c | PollAppend c _ | PollAdopt c _ | PollPublish c => Some c
  | RestoreMint _ c _ | RestoreAppend _ c | RestorePublish c => Some c
  | RestoreStart _ | Collect => None
  end.

(** ** Properties *)

(** C3. A concealed clip never leaves. In every state the daemon reaches, under
    any interleaving of its handlers and any outcome of its I/O: every clip it
    has published is unconcealed, has an ID and carries the hash of its bytes;
    so does the clip [currentHandler] serves; and a step of a handler that holds
    a concealed clip publishes nothing, writes nothing to clipboard, tmux, state
    files, history or image store, and makes nothing visible. *)
Theorem no_concealed_leak `{Crypto} imagesDir d0 s
    (Hd0 : daemon_ok d0) (Hseen : d_seen d0 = newSeenSet) (Hreach : reachable imagesDir d0 s) :
  let d := sys_daemon s in
  Forall out_ok (d_out d) ∧
  (HasCurrent (currentHandler d) = true → clean (cc_content (d_current d))) ∧
  ∀ t c io d' next log, t ∈ sys_threads s → carries t = Some c → Concealed c = true →
    run_phase imagesDir io t d = (d', next, log) →
    d_out d' = d_out d ∧ d_files d' = d_files d ∧ d_store d' = d_store d ∧
    (cc_visible (d_current d') = true → d_current d' = d_current d).
Proof.
  intros d. destruct (reachable_ok _ _ _ Hd0 Hseen Hreach) as [[Hout Hcur _] Hts _]. split; [done|]. split.
  - intros Hp. apply Hcur. unfold currentHandler in Hp. destruct (cc_visible _); [done|]. done.
  - intros t c io d' next log Hin Hc Hcon Hrun. rewrite Forall_forall in Hts. specialize (Hts t Hin).
    destruct t; cbn [carries run_phase thread_ok] in *; try discriminate Hc;
      first [injection Hc as -> | subst read]; try (destruct Hts; congruence).
    + by injection Hrun as <- _ _.
    + unfold recv_admit in Hrun. rewrite Hcon in Hrun. destruct (has _ _); by injection Hrun as <- _ _.
    + by injection Hrun as <- _ _.
    + unfold poll_mint in Hrun. case_bool_decide; by injection Hrun as <- _ _.
    + unfold poll_save in Hrun. rewrite Hcon in Hrun. by injection Hrun as <- _ _.
    + unfold poll_append in Hrun. rewrite Hcon in Hrun. by injection Hrun as <- _ _.
    + injection Hrun as <- _ _. simpl. by rewrite Hcon.
Qed.

(** C20. No clip is taken from the peers twice. Whatever interleaves, an ID that
    came from a peer is only put in the seen set when it is not one of the last
    256 distinct IDs put there before it. *)
Theorem received_once `{Crypto} imagesDir d0 s pre id post
    (Hd0 : daemon_ok d0) (Hseen : d_seen d0 = newSeenSet) (Hreach : reachable imagesDir d0 s)
    (Hadded : sys_added s = pre ++ (true, id) :: post) :
  id ∉ Window.push_all [] pre.*2 ∧
  has (d_seen (sys_daemon s)) id = bool_decide (id ∈ Window.push_all [] (sys_added s).*2).
Proof.
  destruct (reachable_ok _ _ _ Hd0 Hseen Hreach) as [_ _ [Hs Hun]]. split; [by eapply Hun|].
  rewrite Hs, has_order, add_all_push; [done|apply newSeenSet_wf|apply add_all_wf, newSeenSet_wf].
Qed.

(** The handlers as functions are runs of the interleaved system: a handler
    started and run without interruption reaches exactly the daemon that its
    function computes, with at most a collector left over. *)
Theorem handlers_are_runs `{Crypto} imagesDir io d t d'
    (Ht : match t with
          | RecvStart c origin => hashed c ∧ d' = onReceive imagesDir io d c origin
          | PollStart read => match read with Some c => hashed c | None => True end ∧ d' = (pollOnce imagesDir io d read).2
          | RestoreStart id => d' = (Restore imagesDir io d id).2
          | _ => False
          end) ts added :
  ∃ left log, left ⊆ [Collect] ∧
    rtc (sys_step imagesDir) (MkSystem d ts added) (MkSystem d' (ts ++ left) (added ++ log)).
Proof.
  assert (Hruns : starts t ∧ ∃ left log, runs imagesDir io t d d' left log ∧ left ⊆ [Collect]).
  { destruct t; try done.
    - destruct Ht as [Hh ->]. split; [done|]. apply onReceive_runs.
    - destruct Ht as [Hh ->]. split; [done|]. apply pollOnce_runs.
    - subst d'. split; [done|]. apply Restore_runs. }
  destruct Hruns as (Hst & left & log & Hr & Hl). exists left, log. split; [done|].
  eapply rtc_l; [by apply step_start|]. by eapply runs_reach.
Qed.

(** C35. No echo. After a received clip was accepted and written to the local
    clipboard, reading the clipboard back is not a new copy: a poll that reads
    the same clip, or for an image the path of its file in any white space,
    changes nothing and publishes nothing; and so is the same content arriving
    again under any clip ID and from any origin. *)
Theorem no_echo `{Crypto} imagesDir io io' d c origin imagePath sp d1 read origin'
    (Hcheck : recv_check d c = true) (Hadmit : (recv_admit d c).1 = true) (Hwrite : io_write_ok io = true)
    (Hkind : ckind c = KindText ∨ ckind c = KindImage) (Hhash : hashed c) (Hread : hashed read)
    (Hsave : recv_save imagesDir io (recordRecv (recv_admit d c).2 origin (io_now io)) c = Some (d1, imagePath, sp))
    (Hback : reads_back c read imagePath) :
  let d' := onReceive imagesDir io d c origin in
  pollOnce imagesDir io' d' (Some read) = (false, d') ∧ onReceive imagesDir io' d' read origin' = d'.
Proof.
  intros d'. assert (Hid : ID c ≠ "") by (unfold recv_check in Hcheck; by bool_prop).
  assert (Hcur : d_current d' = MkCurrent (ID c) (ckind c) (Hash c) imagePath c origin true ∨
                 (ckind c = KindText ∧ d_current d' = MkCurrent (ID c) KindText (Hash c) "" c origin true)).
  { subst d'. unfold onReceive. rewrite Hcheck. cbn [negb]. destruct (recv_admit d c) as [adm d0]. simpl in Hadmit, Hsave.
    subst adm. cbn [negb]. rewrite Hsave. rewrite publish_current. unfold recv_adopt. rewrite Hwrite.
    destruct Hkind as [Hk|Hk]; rewrite Hk.
    - rewrite (bool_decide_eq_false_2 (KindText = KindImage)) by done. right. done.
    - rewrite (bool_decide_eq_true_2 (KindImage = KindImage)) by done. left. done. }
  assert (Hecho : isEcho d' read = true).
  { assert (Hkr : ckind read = ckind c → Bytes read = Bytes c → Hash read = Hash c).
    { unfold hashed in *. intros _ Hb. by rewrite Hread, Hhash, Hb. }
    unfold isEcho. destruct Hback as [[H1 H2]|(H1 & H2 & H3)].
    - destruct Hcur as [-> |[Hk ->]]; cbn [cc_id cc_kind cc_hash]; rewrite (bool_decide_eq_false_2 (ID c = "")) by done;
        rewrite (Hkr H1 H2), H1, ?Hk, !bool_decide_eq_true_2 by done; done.
    - destruct Hcur as [-> |[Hk _]]; [|rewrite H1 in Hk; discriminate]. cbn [cc_id cc_kind cc_hash cc_imagePath].
      rewrite (bool_decide_eq_false_2 (ID c = "")) by done. rewrite H1, H2.
      rewrite (bool_decide_eq_false_2 (KindText = KindImage)), (bool_decide_eq_true_2 (KindImage = KindImage)),
        (bool_decide_eq_true_2 (KindText = KindText)) by done. cbn [andb]. by apply bool_decide_eq_true_2. }
  split.
  - unfold pollOnce. assert (poll_check d' (Some read) = None) as ->; [|done].
    unfold poll_check. rewrite Hecho. by repeat case_match.
  - unfold onReceive. assert (recv_check d' read = false) as ->; [|done].
    unfold recv_check. by rewrite Hecho, !andb_false_r.
Qed.

(** A clip a daemon would take: not one it has seen, not concealed, not older
    than the clip it last processed, and not its own clip coming back. *)
Definition acceptable (d : Daemon) (c : Content) : Prop :=
  d_safeMode d = false ∧ ID c ≠ "" ∧ isEcho d c = false ∧
  (ckind c = KindText → IsImageStorePath (Bytes c) (d_store d) = false) ∧
  has (d_seen d) (ID c) = false ∧ Concealed c = false ∧ (d_lastTS d = zero_time ∨ (d_lastTS d ≤ TS c)%Z).

Lemma recv_check_true d c :
  recv_check d c = true ↔
  d_safeMode d = false ∧ (ckind c = KindText → IsImageStorePath (Bytes c) (d_store d) = false) ∧
  isEcho d c = false ∧ ID c ≠ "".
Proof.
  unfold recv_check. rewrite !andb_true_iff, !negb_true_iff, andb_false_iff, !bool_decide_eq_false.
  destruct (decide (ckind c = KindText)); naive_solver.
Qed.

Lemma recv_admit_true d c :
  (recv_admit d c).1 = true ↔
  has (d_seen d) (ID c) = false ∧ Concealed c = false ∧ (d_lastTS d = zero_time ∨ (d_lastTS d ≤ TS c)%Z).
Proof.
  unfold recv_admit, IsZero, Before, zero_time. destruct (has _ _); [naive_solver|].
  destruct (Concealed c); [naive_solver|]. case_bool_decide as Hz; simpl; [naive_solver|].
  destruct (TS c <? d_lastTS d)%Z eqn:E; simpl; bool_prop; naive_solver lia.
Qed.

Lemma recv_save_keeps `{Crypto} dir io d c d1 p sp :
  recv_save dir io d c = Some (d1, p, sp) → d1 = with_store d (d_store d1).
Proof.
  unfold recv_save. case_bool_decide; [destruct (SaveImage _ _ _ _) as [[[]]|]; [|done]|]; intros [= <- _ _]; by destruct d.
Qed.

Lemma onReceive_admitted `{Crypto} dir io d c origin :
  acceptable d c →
  let admitted := recordRecv (with_seen d (add (d_seen d) (ID c)) (TS c)) origin (io_now io) in
  d_safeMode d = false ∧
  onReceive dir io d c origin =
    match recv_save dir io admitted c with
    | None => admitted
    | Some (d1, p, _) => publishSSH (recv_adopt io (recv_append io d1 c origin p) c origin p) c origin origin
    end.
Proof.
  intros (Hs & Hid & He & Hi & Hh & Hc & Ht). cbv zeta. split; [done|]. unfold onReceive.
  rewrite (proj2 (recv_check_true d c)) by done. cbn [negb].
  pose proof (proj2 (recv_admit_true d c) (conj Hh (conj Hc Ht))) as Ha.
  assert (Hd : (recv_admit d c).2 = with_seen d (add (d_seen d) (ID c)) (TS c)).
  { revert Ha. unfold recv_admit. rewrite Hh, Hc. by destruct (_ && _). }
  destruct (recv_admit d c) as [adm d0]. simpl in Ha, Hd. subst adm d0. done.
Qed.

(** What receiving a clip does, on every branch. A clip that is not
    acceptable changes nothing, except that a new concealed one is remembered as
    seen. An acceptable clip is remembered, becomes the newest, marks its origin
    as heard from and no other peer, and if its image can be saved: it is written
    to the clipboard, loaded into tmux and published once to all but its origin,
    in that order; the state files and the history record it; and it is the
    current clip exactly if the clipboard write worked. *)
Theorem onReceive_spec `{Crypto} imagesDir io d c origin :
  let d' := onReceive imagesDir io d c origin in
  let admitted := recordRecv (with_seen d (add (d_seen d) (ID c)) (TS c)) origin (io_now io) in
  let is_img := bool_decide (ckind c = KindImage) in
  (¬ acceptable d c →
    d' = d ∨ (Concealed c = true ∧ d' = with_seen d (add (d_seen d) (ID c)) (d_lastTS d))) ∧
  (acceptable d c → recv_save imagesDir io admitted c = None → d' = admitted) ∧
  (acceptable d c → ∀ d1 imagePath sp, recv_save imagesDir io admitted c = Some (d1, imagePath, sp) →
    let payload := if is_img then imagePath else Bytes c in
    d_seen d' = add (d_seen d) (ID c) ∧ d_lastTS d' = TS c ∧
    (∀ h, d_peerStatus d' !! h = d_peerStatus admitted !! h) ∧
    d_out d' = d_out d ++
      (if io_write_ok io then [if is_img then OutWriteImage (Bytes c) imagePath else OutWriteText (Bytes c)] else []) ++
      [OutTmux payload] ++ (if d_sshSync d then [OutPublish c origin origin] else []) ∧
    d_files d' = (SaveState (io_state io)
      (if is_img then MkState "image" (TS c) imagePath else MkState "text" (TS c) "") payload (d_files d)).1 ∧
    Ok (d_store d') = match AppendHistory (io_append_ok io) (io_loaded io) c origin imagePath (d_store d1) with
                      | Ok st => Ok st
                      | Err _ => @Ok string _ (d_store d1)
                      end ∧
    (io_write_ok io = false → d_current d' = d_current d) ∧
    (io_write_ok io = true → cc_visible (d_current d') = true ∧ cc_content (d_current d') = c ∧
      cc_origin (d_current d') = origin ∧ cc_imagePath (d_current d') = imagePath)).
Proof.
  intros d' admitted is_img. split; [|split].
  - intros Hno. subst d'. unfold onReceive. destruct (recv_check d c) eqn:Hc; [|by left]. cbn [negb].
    destruct (recv_admit d c) as [[] d0] eqn:Ha; cbn [negb].
    + exfalso. apply Hno. apply recv_check_true in Hc. pose proof (recv_admit_true d c) as Ht. rewrite Ha in Ht.
      unfold acceptable. naive_solver.
    + unfold recv_admit in Ha. destruct (has _ _); [injection Ha as <-; by left|].
      destruct (Concealed c); [injection Ha as <-; by right|]. destruct (_ && _); [|done]. injection Ha as <-. by left.
  - intros Hacc Hs. subst d'. destruct (onReceive_admitted imagesDir io d c origin Hacc) as [_ ->]. fold admitted. by rewrite Hs.
  - intros Hacc d1 imagePath sp Hs payload. subst d'. destruct (onReceive_admitted imagesDir io d c origin Hacc) as [Hsafe ->].
    fold admitted. rewrite Hs. pose proof (recv_save_keeps _ _ _ _ _ _ _ Hs) as Hd1.
    assert (Himg : is_img = false → imagePath = "").
    { unfold recv_save, is_img in *. intros Hi. rewrite Hi in Hs. congruence. }
    assert (Hf : d_safeMode d1 = false ∧ d_sshSync d1 = d_sshSync d ∧ d_out d1 = d_out d ∧ d_seen d1 = add (d_seen d) (ID c) ∧
      d_lastTS d1 = TS c ∧ d_current d1 = d_current d ∧ d_peerStatus d1 = d_peerStatus admitted ∧ d_files d1 = d_files d)
      by (rewrite Hd1; done).
    clear Hd1 Hs Hacc. clearbody admitted. destruct d1 as [o1 safe1 ssh1 seen1 ts1 cur1 ps1 st1 f1 out1]. simpl in Hf.
    destruct Hf as (-> & -> & -> & -> & -> & -> & -> & ->).
    unfold recv_append, recv_payload. fold is_img. fold payload. unfold append_logged. cbn [d_store with_files].
    unfold recv_adopt, recv_payload. fold is_img. fold payload.
    destruct (AppendHistory _ _ _ _ _ _) as [st2|]; destruct (io_write_ok io), is_img eqn:Hi; unfold publishSSH;
      cbn; destruct (d_sshSync d); cbn; rewrite <- ?app_assoc; cbn; split_and!; try done; try (by rewrite Himg).
Qed.

Lemma isEcho_written_text d id h c o read :
  d_current d = MkCurrent id KindText h "" c o true → id ≠ "" → ckind read = KindText → Hash read = h →
  isEcho d read = true.
Proof.
  intros Hd Hid Hk Hh. unfold isEcho. rewrite Hd. cbn. rewrite Hk, Hh, bool_decide_eq_false_2 by done.
  rewrite !bool_decide_eq_true_2 by done. done.
Qed.

(** Restoring a text entry makes it the current clip of the fleet: it is
    written to the clipboard, gets a fresh ID that is remembered as seen, is
    recorded in the history and published to every peer; if the write worked it
    is the visible current clip with the entry's text, and reading it back is not
    a new copy.  A missing entry, an unreadable history or image file is an error
    that changes nothing. *)
Theorem Restore_spec `{Crypto} imagesDir io io' d id :
  (∀ e b, EntryByID id (d_store d) = Ok (Some e) → e_Kind e ≠ "image" → io_rand io = Some b → b ≠ "" →
    let c := with_id (New KindText (Text e) (io_now io)) (hex_encode b) in
    let '(r, d') := Restore imagesDir io d id in
    r = Ok () ∧ d_seen d' = add (d_seen d) (ID c) ∧ d_lastTS d' = io_now io ∧
    d_out d' = d_out d ++ (if io_write_ok io then [OutWriteText (Text e)] else []) ++
      (if negb (d_safeMode d) && d_sshSync d then [OutPublish c (d_origin d) ""] else []) ∧
    Ok (d_store d') = match AppendHistory (io_append_ok io) (io_loaded io) c (d_origin d) "" (d_store d) with
                      | Ok st => Ok st
                      | Err _ => @Ok string _ (d_store d)
                      end ∧
    (io_write_ok io = true →
      currentHandler d' = CurrentPayloadFromContent c (d_origin d) ∧
      ∀ read, ckind read = KindText → Bytes read = Text e → hashed read → pollOnce imagesDir io' d' (Some read) = (false, d'))) ∧
  (∀ err, (Restore imagesDir io d id).1 = Err err → (Restore imagesDir io d id).2 = d) ∧
  (EntryByID id (d_store d) = Ok None → Restore imagesDir io d id = (Err "history entry not found", d)).
Proof.
  split; [|split].
  - intros e b He Hk Hb Hbne c. unfold Restore, restore_write. rewrite He. cbn [mbind result_bind].
    rewrite (bool_decide_eq_false_2 (e_Kind e = "image")) by done.
    unfold restore_mint, NewClipID. rewrite Hb, (bool_decide_eq_false_2 (hex_encode b = "")) by by apply hex_encode_nonempty.
    unfold restore_path. rewrite (bool_decide_eq_false_2 (e_Kind e = "image")) by done. fold c.
    unfold append_logged, publishSSH.
    assert (Hid : ID c ≠ "") by by apply hex_encode_nonempty.
    destruct (io_write_ok io); cbn; destruct (AppendHistory _ _ _ _ _ _) as [st|]; cbn;
      destruct (d_safeMode d) eqn:Hsafe, (d_sshSync d) eqn:Hsync; cbn; rewrite ?app_nil_r, <- ?app_assoc; cbn.
    all: split_and!; try done.
    all: intros _; split; [unfold currentHandler; cbn; by rewrite bool_decide_eq_false_2|].
    all: intros read Hkr Hbr Hh; unfold pollOnce, poll_check; cbn; rewrite ?Hsafe; try done.
    all: rewrite (isEcho_written_text _ (hex_encode b) (sha256 (Text e)) c (d_origin d)) by (done || congruence);
      by repeat case_match.
  - intros err. unfold Restore. destruct (restore_write _ _ _ _) as [[[[e c] w] d1]|]; [|done].
    by destruct (restore_mint _ _ _ _ _) as [[]|].
  - intros Hn. unfold Restore, restore_write. by rewrite Hn.
Qed.

(** ** Witnesses *)

Definition demo_daemon : Daemon :=
  initial_daemon "studio" false true zero_time demo_store (MkStateFiles FileMissing FileMissing).

Definition demo_phase_io : phase_io :=
  MkPhaseIO (20 * second)%Z (Some "0123456789abcdef") (MkSaveIO true true true 7) (MkStateIO true true true) true None true None
    (λ _, true) [].

Definition demo_image : Content := MkContent "img1" KindImage "png" (pad32 "png") (10 * second)%Z false.

Lemma demo_daemon_ok : @daemon_ok toy_crypto demo_daemon.
Proof.
  split; [constructor|discriminate|]. intros l Hl. vm_compute in Hl. injection Hl as <-. apply demo_store_wf.
Qed.

Definition demo_secret : Content := MkContent "s1" KindText "secret" (pad32 "secret") (10 * second)%Z true.

Definition demo_text : Content := MkContent "t1" KindText "hello" (pad32 "hello") (10 * second)%Z false.

(** A received clip between its critical section and the rest of its handler. *)
Definition demo_system (c : Content) : System :=
  MkSystem (recordRecv (with_seen demo_daemon (add newSeenSet (ID c)) (TS c)) "mac" (20 * second)%Z) [RecvSave c "mac"] [(true, ID c)].

Lemma demo_reachable : @reachable toy_crypto "/img" demo_daemon (demo_system demo_text).
Proof.
  eapply rtc_l; [apply (@step_start toy_crypto "/img" demo_daemon [] [] (RecvStart demo_text "mac")); reflexivity|].
  eapply rtc_l; [eapply (@step_run toy_crypto "/img" demo_daemon [] (RecvStart demo_text "mac") [] [] demo_phase_io); vm_compute; reflexivity|].
  eapply rtc_l; [eapply (@step_run toy_crypto "/img" _ [] (RecvAdmit demo_text "mac") [] [] demo_phase_io); vm_compute; reflexivity|].
  apply rtc_refl.
Qed.

Lemma demo_reachable_secret :
  @reachable toy_crypto "/img" demo_daemon (MkSystem demo_daemon [RecvAdmit demo_secret "mac"] []).
Proof.
  eapply rtc_l; [apply (@step_start toy_crypto "/img" demo_daemon [] [] (RecvStart demo_secret "mac")); reflexivity|].
  eapply rtc_l; [eapply (@step_run toy_crypto "/img" demo_daemon [] (RecvStart demo_secret "mac") [] [] demo_phase_io); vm_compute; reflexivity|].
  apply rtc_refl.
Qed.

Lemma no_concealed_leak_witness :
  ∃ d' next log, @run_phase toy_crypto "/img" demo_phase_io (RecvAdmit demo_secret "mac") demo_daemon = (d', next, log) ∧
    d_out d' = [] ∧ d_store d' = demo_store.
Proof.
  destruct (@run_phase toy_crypto "/img" demo_phase_io (RecvAdmit demo_secret "mac") demo_daemon) as [[d' next] log] eqn:Hr.
  exists d', next, log. split; [reflexivity|].
  destruct (@no_concealed_leak toy_crypto "/img" demo_daemon _ demo_daemon_ok eq_refl demo_reachable_secret) as (_ & _ & Hstep).
  destruct (Hstep (RecvAdmit demo_secret "mac") demo_secret demo_phase_io d' next log) as (Ho & _ & Hs & _).
  - left.
  - reflexivity.
  - reflexivity.
  - exact Hr.
  - split; [exact Ho|exact Hs].
Defined.

Lemma received_once_witness :
  "t1" ∉ Window.push_all [] [] ∧ has (d_seen (sys_daemon (demo_system demo_text))) "t1" = true.
Proof.
  destruct (@received_once toy_crypto "/img" demo_daemon (demo_system demo_text) [] "t1" [] demo_daemon_ok eq_refl demo_reachable eq_refl)
    as [Hno Hhas].
  split; [exact Hno|]. rewrite Hhas. vm_compute. reflexivity.
Defined.

Lemma handlers_are_runs_witness :
  ∃ left log, left ⊆ [Collect] ∧
    rtc (@sys_step toy_crypto "/img") (MkSystem demo_daemon [] [])
      (MkSystem (@onReceive toy_crypto "/img" demo_phase_io demo_daemon demo_image "mac") left log).
Proof.
  apply (@handlers_are_runs toy_crypto "/img" demo_phase_io demo_daemon (RecvStart demo_image "mac") _
    (conj eq_refl eq_refl) [] []).
Defined.

Lemma no_echo_witness :
  let d' := @onReceive toy_crypto "/img" demo_phase_io demo_daemon demo_image "mac" in
  let path := @image_path "/img" (@image_name toy_crypto "png") in
  @pollOnce toy_crypto "/img" demo_phase_io d' (Some (@New toy_crypto KindText (path +:+ nl) (30 * second)%Z)) = (false, d').
Proof.
  intros d' path.
  destruct (@recv_save toy_crypto "/img" demo_phase_io (recordRecv (recv_admit demo_daemon demo_image).2 "mac" (io_now demo_phase_io)) demo_image)
    as [[[d1 p] sp]|] eqn:Hs; [|vm_compute in Hs; discriminate].
  apply (@no_echo toy_crypto "/img" demo_phase_io demo_phase_io demo_daemon demo_image "mac" p sp d1
    (@New toy_crypto KindText (path +:+ nl) (30 * second)%Z) "mac").
  - vm_compute. reflexivity.
  - vm_compute. reflexivity.
  - reflexivity.
  - right. reflexivity.
  - reflexivity.
  - reflexivity.
  - exact Hs.
  - right. split; [reflexivity|]. split; [reflexivity|].
    vm_compute in Hs. injection Hs as _ <- _. vm_compute. reflexivity.
Defined.

(** A text read back when the image in front of it has no path, because the
    clipboard held it at start or it could not be saved: white space is taken for
    the image's path, so a copied blank text is not synced. *)
Lemma blank_text_after_unsaved_image `{Crypto} imagesDir io d img blank
    (Himg : ckind img = KindImage) (Hbytes : Bytes img ≠ "") (Hblank : ckind blank = KindText) (Htrim : TrimSpace (Bytes blank) = "") :
  let d' := startup d (Some img) in
  pollOnce imagesDir io d' (Some blank) = (false, d').
Proof.
  intros d'. unfold pollOnce. assert (poll_check d' (Some blank) = None) as ->; [|done].
  unfold poll_check. assert (isEcho d' blank = true) as ->; [|by repeat case_match].
  unfold isEcho, d', startup. rewrite (bool_decide_eq_false_2 (Bytes img = "")) by done. cbn.
  rewrite Himg, Hblank, Htrim. rewrite (bool_decide_eq_true_2 (KindImage = KindImage)) by done. cbn.
  done.
Qed.
