(* ===== verification/NetIP.v ===== *)
(** * Addresses: what the code uses of net and net/netip

    [net.SplitHostPort], [net.ParseIP] (through [netip.ParseAddr]) and
    [IP.IsLoopback], on which the server's guard for local endpoints
    (transport/server.go, [isLoopbackRemote]) and the listener plan
    (config/listener.go) decide.  An address is its list of 16 bytes, an IPv4
    address in the mapped form. *)
From S2P Require Import Prelude GoStrings Encoding.
From Stdlib Require Import Ascii String.
From stdpp Require Import strings.

#[local] Arguments String.append !_ _ / : simpl nomatch.

(** ** net.SplitHostPort *)

(** The position of the first [c], and of the last. *)
Fixpoint index_byte (c : ascii) (s : string) : option nat :=
  match s with
  | EmptyString => None
  | String a s' => if bool_decide (a = c) then Some 0 else S <$> index_byte c s'
  end.

Fixpoint last_index_byte (c : ascii) (s : string) : option nat :=
  match s with
  | EmptyString => None
  | String a s' =>
      match last_index_byte c s' with
      | Some i => Some (S i)
      | None => if bool_decide (a = c) then Some 0 else None
      end
  end.

(** The slice [s[i:j]], and [s[i:]]. *)
Definition slice (i j : nat) (s : string) : string := String.substring i (j - i) s.

Definition slice_from (i : nat) (s : string) : string := String.substring i (len s - i) s.

(** Host and port; [None] for every error. *)
Definition SplitHostPort (hostport : string) : option (string * string) :=
  match last_index_byte ":" hostport with
  | None => None
  | Some i =>
      let checked (host : string) (j k : nat) :=
        if has_byte "[" (slice_from j hostport) then None
        else if has_byte "]" (slice_from k hostport) then None
        else Some (host, slice_from (S i) hostport) in
      if HasPrefix hostport "[" then
        match index_byte "]" hostport with
        | None => None
        | Some e => if (S e =? i)%nat then checked (slice 1 e hostport) 1 (S e) else None
        end
      else
        let host := slice 0 i hostport in
        if has_byte ":" host then None else checked host 0 0
  end.

(** ** netip.ParseAddr *)

Definition digit_value (a : ascii) : Z := Z.of_nat (nat_of_ascii a - nat_of_ascii "0").

(** The loop of [parseIPv4Fields]: [prev] is the byte before [s], [fields] the
    octets already stored, [val] and [digLen] the octet being read. *)
Fixpoint parseIPv4Fields (prev : option ascii) (fields : list Z) (val : Z) (digLen : nat) (s : string) : option (list Z) :=
  match s with
  | EmptyString => if (length fields <? 3)%nat then None else Some (fields ++ [val])
  | String c s' =>
      if is_digit c then
        if (digLen =? 1)%nat && (val =? 0)%Z then None
        else
          let val := (val * 10 + digit_value c)%Z in
          if (255 <? val)%Z then None else parseIPv4Fields (Some c) fields val (S digLen) s'
      else if bool_decide (c = "."%char) then
        if bool_decide (prev = None) || bool_decide (s' = "") || bool_decide (prev = Some "."%char) then None
        else if (length fields =? 3)%nat then None
        else parseIPv4Fields (Some c) (fields ++ [val]) 0 0 s'
      else None
  end.

Definition v4_prefix : list Z := replicate 10 0%Z ++ [255; 255]%Z.

Definition parseIPv4 (s : string) : option (list Z) := (λ f, v4_prefix ++ f) <$> parseIPv4Fields None [] 0 0 s.

(** The hex digits at the start of [s]: how many, their value, and the rest. *)
Fixpoint hex_group (off : nat) (acc : Z) (s : string) : option (nat * Z * string) :=
  match s with
  | EmptyString => Some (off, acc, EmptyString)
  | String c s' =>
      match hex_value c with
      | None => Some (off, acc, s)
      | Some v =>
          let acc := (acc * 16 + Z.of_nat v)%Z in
          if (3 <? off)%nat then None else if (65535 <? acc)%Z then None else hex_group (S off) acc s'
      end
  end.

(** The loop of [parseIPv6], two bytes a turn, so at most eight turns: the bytes,
    the position of the ellipsis and what is left of the text. *)
Fixpoint ipv6_groups (turns : nat) (ip : list Z) (ellipsis : option nat) (s : string) : option (list Z * option nat * string) :=
  match turns with
  | 0 => Some (ip, ellipsis, s)
  | S turns =>
      match hex_group 0 0 s with
      | None => None
      | Some (off, acc, rest) =>
          if (off =? 0)%nat then None
          else if HasPrefix rest "." then
            if bool_decide (ellipsis = None) && negb (length ip =? 12)%nat then None
            else if (16 <? length ip + 4)%nat then None
            else
              match parseIPv4Fields None [] 0 0 s with
              | None => None
              | Some f => Some (ip ++ f, ellipsis, EmptyString)
              end
          else
            let ip := ip ++ [acc / 256; acc mod 256]%Z in
            match rest with
            | EmptyString => Some (ip, ellipsis, EmptyString)
            | String c rest =>
                if negb (bool_decide (c = ":"%char)) then None
                else
                  match rest with
                  | EmptyString => None
                  | String c2 rest2 =>
                      if bool_decide (c2 = ":"%char) then
                        if bool_decide (is_Some ellipsis) then None
                        else if bool_decide (rest2 = "") then Some (ip, Some (length ip), EmptyString)
                        else ipv6_groups turns ip (Some (length ip)) rest2
                      else ipv6_groups turns ip ellipsis rest
                  end
            end
      end
  end.

(** Fill the ellipsis with zeros. *)
Definition expand (ip : list Z) (ellipsis : option nat) : option (list Z) :=
  if (length ip <? 16)%nat then
    match ellipsis with
    | None => None
    | Some e => Some (take e ip ++ replicate (16 - length ip) 0%Z ++ drop e ip)
    end
  else if bool_decide (is_Some ellipsis) then None else Some ip.

(** The address and its zone. *)
Definition parseIPv6 (s : string) : option (list Z * string) :=
  let body := before_sep "%" s in
  let zone := slice_from (S (len body)) s in
  if has_byte "%" s && bool_decide (zone = "") then None
  else
    let leading := HasPrefix body "::" in
    if bool_decide (body = "::") then Some (replicate 16 0%Z, zone)
    else
      '(ip, ellipsis, rest) ← ipv6_groups 8 [] (if leading then Some 0 else None) (if leading then slice_from 2 body else body);
      if negb (bool_decide (rest = "")) then None
      else ip ← expand ip ellipsis; Some (ip, zone).

(** The first of ".", ":" and "%" decides which form the text has. *)
Fixpoint addr_kind (s : string) : option ascii :=
  match s with
  | EmptyString => None
  | String a s' => if bool_decide (a ∈ ["."; ":"; "%"]%char) then Some a else addr_kind s'
  end.

Definition ParseAddr (s : string) : option (list Z * string) :=
  match addr_kind s with
  | Some "."%char => (λ ip, (ip, "")) <$> parseIPv4 s
  | Some ":"%char => parseIPv6 s
  | _ => None
  end.

(** [net.ParseIP]: no zones. *)
Definition ParseIP (s : string) : option (list Z) :=
  match ParseAddr s with
  | Some (ip, zone) => if bool_decide (zone = "") then Some ip else None
  | None => None
  end.

Definition is_v4 (ip : list Z) : bool := bool_decide (take 12 ip = v4_prefix).

Definition IsLoopback (ip : list Z) : bool :=
  if is_v4 ip then bool_decide (ip !! 12 = Some 127%Z) else bool_decide (ip = replicate 15 0%Z ++ [1%Z]).

(** [IP.String]: dotted for an IPv4 address; otherwise groups of hex digits with
    the first longest run of at least two zero groups as the ellipsis. *)
Definition hex_of (z : Z) : string :=
  let digits := [z / 4096; (z / 256) mod 16; (z / 16) mod 16; z mod 16]%Z in
  let fix drop_zeros (l : list Z) := match l with 0%Z :: ((_ :: _) as l') => drop_zeros l' | _ => l end in
  foldr (λ d s, String (hex_digit (Z.to_nat d)) s) "" (drop_zeros digits).

Fixpoint groups_of (ip : list Z) : list Z :=
  match ip with a :: b :: ip => (a * 256 + b)%Z :: groups_of ip | _ => [] end.

Fixpoint lead_zeros (l : list Z) : nat :=
  match l with 0%Z :: l => S (lead_zeros l) | _ => 0 end.

Definition longest_zeros (g : list Z) : nat * nat :=
  foldl (λ '(s, n) i, let l := lead_zeros (drop i g) in if (2 <=? l)%nat && (n <? l)%nat then (i, l) else (s, n)) (0, 0) (seq 0 8).

Definition IP_String (ip : list Z) : string :=
  if is_v4 ip then GoStrings.Join "." (format_int <$> drop 12 ip)
  else
    let g := groups_of ip in
    let '(s, n) := longest_zeros g in
    if (n =? 0)%nat then GoStrings.Join ":" (hex_of <$> g)
    else GoStrings.Join ":" (hex_of <$> take s g) +:+ "::" +:+ GoStrings.Join ":" (hex_of <$> drop (s + n) g).

(** ** Examples *)

Example ip_strings :
  (λ s, IP_String <$> ParseIP s) <$> ["127.0.0.1"; "::1"; "2001:DB8:0:0:1:0:0:1"; "::"; "fe80:0:0:1::"; "::ffff:10.0.0.1"; "1:0:2:3:4:5:6:7"] =
  [Some "127.0.0.1"; Some "::1"; Some "2001:db8::1:0:0:1"; Some "::"; Some "fe80:0:0:1::"; Some "10.0.0.1"; Some "1:0:2:3:4:5:6:7"].
Proof. vm_compute. reflexivity. Qed.

Example split_v4 : SplitHostPort "127.0.0.1:7853" = Some ("127.0.0.1", "7853").
Proof. reflexivity. Qed.

Example split_v6 : SplitHostPort "[::1]:80" = Some ("::1", "80") ∧ SplitHostPort "::1:80" = None ∧
  SplitHostPort "[::1]" = None ∧ SplitHostPort "[::1]x:80" = None ∧ SplitHostPort ":80" = Some ("", "80") ∧
  SplitHostPort "a]:80" = None ∧ SplitHostPort "[a[b]:80" = None.
Proof. repeat split. Qed.

Example parse_ips :
  (IsLoopback <$> ParseIP "127.0.0.1", IsLoopback <$> ParseIP "::1", IsLoopback <$> ParseIP "::ffff:127.1.2.3",
   IsLoopback <$> ParseIP "10.0.0.1", ParseIP "127.0.0.01", ParseIP "1.2.3", ParseIP "256.0.0.1", ParseIP "::1%lo",
   IsLoopback <$> ParseIP "0:0:0:0:0:0:0:1", IsLoopback <$> ParseIP "fe80::1") =
  (Some true, Some true, Some true, Some false, None, None, None, None, Some true, Some false).
Proof. vm_compute. reflexivity. Qed.

(** ** Lemmas: splitting *)

Lemma last_index_none c s : has_byte c s = false → last_index_byte c s = None.
Proof.
  induction s as [|a s IH]; [done|]. change (has_byte c (String a s)) with (bool_decide (a = c) || has_byte c s).
  intros [Ha Hs]%orb_false_iff. simpl. by rewrite (IH Hs), Ha.
Qed.

Lemma last_index_app c (a b : string) : has_byte c b = false → last_index_byte c (a +:+ String c b) = Some (len a).
Proof.
  intros Hb. induction a as [|x a IH]; simpl; [by rewrite last_index_none, bool_decide_eq_true_2|]. by rewrite IH.
Qed.

Lemma has_byte_prefix c s : has_byte c s = false → HasPrefix s (String c "") = false.
Proof.
  destruct s as [|a s]; [done|]. change (has_byte c (String a s)) with (bool_decide (a = c) || has_byte c s).
  intros [Ha%bool_decide_eq_false _]%orb_false_iff. unfold HasPrefix. simpl.
  destruct (ascii_dec c a); [congruence|done].
Qed.

Lemma slice_from_0 s : slice_from 0 s = s.
Proof.
  unfold slice_from. rewrite Nat.sub_0_r. pose proof (substring_app_l s "") as H. by rewrite sapp_nil_r in H.
Qed.

Lemma slice_from_app (a b : string) : slice_from (len a) (a +:+ b) = b.
Proof. unfold slice_from. rewrite len_app. replace (len a + len b - len a) with (len b) by lia. apply substring_app_r. Qed.

Lemma slice_from_S_app (a b : string) c : slice_from (S (len a)) (a +:+ String c b) = b.
Proof.
  pose proof (slice_from_app (a +:+ String c "") b) as H. rewrite len_app in H. simpl in H.
  rewrite sapp_assoc in H. replace (S (len a)) with (len a + 1) by lia. exact H.
Qed.

Lemma slice_0_app (a b : string) : slice 0 (len a) (a +:+ b) = a.
Proof. unfold slice. rewrite Nat.sub_0_r. apply substring_app_l. Qed.

(** A host without brackets and colons, and a port, split as written. *)
Lemma SplitHostPort_plain host port :
  has_byte ":" host = false → has_byte "[" host = false → has_byte "]" host = false →
  has_byte ":" port = false → has_byte "[" port = false → has_byte "]" port = false →
  SplitHostPort (host +:+ ":" +:+ port) = Some (host, port).
Proof.
  intros Hc Hl Hr Hpc Hpl Hpr. change (":" +:+ port) with (String ":" port). unfold SplitHostPort. rewrite last_index_app by done.
  assert (Hb : ∀ c, has_byte c host = false → has_byte c port = false → c ≠ ":"%char → has_byte c (host +:+ String ":" port) = false).
  { intros c H1 H2 H3. rewrite has_byte_app, H1. simpl. change (bool_decide (":"%char = c) || has_byte c port = false).
    rewrite H2, bool_decide_eq_false_2 by congruence. done. }
  rewrite (has_byte_prefix "[") by (by apply Hb). rewrite slice_0_app, Hc, !slice_from_0, slice_from_S_app.
  by rewrite !Hb.
Qed.

(** ** Lemmas: IPv4 *)

Definition octet (z : Z) : Prop := (0 ≤ z ≤ 255)%Z.

(** Reading the decimal digits of an octet. *)
Lemma octet_read (n : nat) prev fields rest :
  n < 256 → ∃ c k, is_digit c = true ∧
    parseIPv4Fields prev fields 0 0 (format_uint (N.of_nat n) +:+ rest) = parseIPv4Fields (Some c) fields (Z.of_nat n) k rest.
Proof.
  intros Hn. do 256 (destruct n as [|n]; [eexists _, _; split; [|reflexivity]; reflexivity|]). lia.
Qed.

Definition quad (a b c d : nat) : string :=
  format_uint (N.of_nat a) +:+ "." +:+ format_uint (N.of_nat b) +:+ "." +:+ format_uint (N.of_nat c) +:+ "." +:+ format_uint (N.of_nat d).

Lemma dot_step prev fields val k s :
  is_digit prev = true → s ≠ "" → length fields < 3 →
  parseIPv4Fields (Some prev) fields val k ("." +:+ s) = parseIPv4Fields (Some "."%char) (fields ++ [val]) 0 0 s.
Proof.
  intros Hp Hs Hl. cbn [String.append parseIPv4Fields is_digit]. change (is_digit "."%char) with false. cbn iota.
  rewrite bool_decide_eq_true_2 by done. rewrite (bool_decide_eq_false_2 (Some prev = None)) by done.
  rewrite (bool_decide_eq_false_2 (s = "")) by done.
  rewrite (bool_decide_eq_false_2 (Some prev = Some _)) by (intros [= ->]; done).
  rewrite (proj2 (Nat.eqb_neq _ _)) by lia. done.
Qed.

Lemma sapp_nonempty (s t : string) : s ≠ "" → s +:+ t ≠ "".
Proof. by destruct s. Qed.

Lemma parseIPv4_quad a b c d :
  a < 256 → b < 256 → c < 256 → d < 256 →
  parseIPv4Fields None [] 0 0 (quad a b c d) = Some [Z.of_nat a; Z.of_nat b; Z.of_nat c; Z.of_nat d].
Proof.
  intros Ha Hb Hc Hd. unfold quad.
  destruct (octet_read a None [] ("." +:+ format_uint (N.of_nat b) +:+ "." +:+ format_uint (N.of_nat c) +:+ "." +:+ format_uint (N.of_nat d)) Ha)
    as (p & k & Hp & ->). rewrite dot_step; [|done|apply sapp_nonempty, format_uint_nonempty|simpl; lia].
  destruct (octet_read b (Some "."%char) ([] ++ [Z.of_nat a]) ("." +:+ format_uint (N.of_nat c) +:+ "." +:+ format_uint (N.of_nat d)) Hb)
    as (p2 & k2 & Hp2 & ->). rewrite dot_step; [|done|apply sapp_nonempty, format_uint_nonempty|simpl; lia].
  destruct (octet_read c (Some "."%char) (([] ++ [Z.of_nat a]) ++ [Z.of_nat b]) ("." +:+ format_uint (N.of_nat d)) Hc)
    as (p3 & k3 & Hp3 & ->). rewrite dot_step; [|done|apply format_uint_nonempty|simpl; lia].
  destruct (octet_read d (Some "."%char) ((([] ++ [Z.of_nat a]) ++ [Z.of_nat b]) ++ [Z.of_nat c]) "" Hd) as (p4 & k4 & Hp4 & H4).
  rewrite sapp_nil_r in H4. rewrite H4. done.
Qed.

Lemma addr_kind_app s t : forall_bytes is_digit s = true → addr_kind (s +:+ "." +:+ t) = Some "."%char.
Proof.
  induction s as [|x s IH]; [done|]. simpl. intros [Hx Hs]%andb_true_iff. rewrite bool_decide_eq_false_2; [by apply IH|].
  intros Hin. rewrite !elem_of_cons, elem_of_nil in Hin. by destruct Hin as [->|[->|[->|[]]]].
Qed.

Lemma ParseIP_quad a b c d :
  a < 256 → b < 256 → c < 256 → d < 256 →
  ParseIP (quad a b c d) = Some (v4_prefix ++ [Z.of_nat a; Z.of_nat b; Z.of_nat c; Z.of_nat d]).
Proof.
  intros Ha Hb Hc Hd. unfold ParseIP, ParseAddr. unfold quad at 1. rewrite addr_kind_app by apply format_uint_digits.
  fold (quad a b c d). unfold parseIPv4. rewrite parseIPv4_quad by done. reflexivity.
Qed.

Lemma quad_clean a b c d ch : num_byte ch = false → ch ≠ "."%char → has_byte ch (quad a b c d) = false.
Proof.
  intros Hn Hd. unfold quad.
  assert (Hone : ∀ n, has_byte ch (format_uint n) = false).
  { intros n. eapply has_byte_forall; [apply format_uint_digits|]. unfold num_byte in Hn. by apply orb_false_iff in Hn as [-> _]. }
  assert (Hdot : has_byte ch "." = false) by (unfold has_byte; simpl; by rewrite bool_decide_eq_false_2).
  by rewrite !has_byte_app, !Hone, !Hdot.
Qed.

(** ** Lemmas: parsed addresses are sixteen bytes *)

Lemma parseIPv4Fields_wf s prev fields val k f :
  parseIPv4Fields prev fields val k s = Some f → length fields ≤ 3 → Forall octet fields → octet val →
  length f = 4 ∧ Forall octet f.
Proof.
  revert prev fields val k. induction s as [|c s IH]; intros prev fields val k; cbn [parseIPv4Fields].
  - destruct (_ <? _)%nat eqn:E; [done|]. apply Nat.ltb_ge in E. intros [= <-] Hl Hf Hv. rewrite length_app. simpl.
    split; [lia|]. rewrite Forall_app. by rewrite Forall_singleton.
  - destruct (is_digit c) eqn:Hdig.
    + destruct (_ && _); [done|]. destruct (_ <? _)%Z eqn:E; [done|]. apply Z.ltb_ge in E. intros Hp Hl Hf Hv.
      eapply IH; [exact Hp|done|done|]. unfold octet in *. unfold digit_value in *. lia.
    + destruct (bool_decide (c = _)); [|done]. destruct (_ || _); [done|]. destruct (_ =? _)%nat eqn:E; [done|].
      apply Nat.eqb_neq in E. intros Hp Hl Hf Hv. eapply IH; [exact Hp| | |by unfold octet].
      * rewrite length_app. simpl. lia.
      * rewrite Forall_app. by rewrite Forall_singleton.
Qed.

Lemma hex_group_bound s off acc o v r :
  hex_group off acc s = Some (o, v, r) → (0 ≤ acc ≤ 65535)%Z → (0 ≤ v ≤ 65535)%Z.
Proof.
  revert off acc. induction s as [|c s IH]; intros off acc; cbn [hex_group]; [by intros [= _ <- _]|].
  destruct (hex_value c) as [x|]; [|by intros [= _ <- _]].
  destruct (3 <? off)%nat; [done|]. destruct (_ <? _)%Z eqn:E; [done|]. apply Z.ltb_ge in E. intros Hh Hacc.
  eapply IH; [exact Hh|]. lia.
Qed.

Lemma ipv6_groups_wf turns ip ellipsis s ip' ell' rest :
  ipv6_groups turns ip ellipsis s = Some (ip', ell', rest) →
  length ip + 2 * turns ≤ 16 → Forall octet ip → (∀ e, ellipsis = Some e → e ≤ length ip) →
  length ip' ≤ 16 ∧ Forall octet ip' ∧ (∀ e, ell' = Some e → e ≤ length ip').
Proof.
  revert ip ellipsis s. induction turns as [|turns IH]; intros ip ellipsis s; cbn [ipv6_groups].
  { intros [= <- <- _] Hl Hf He. split; [lia|]. by split. }
  destruct (hex_group 0 0 s) as [[[off acc] r]|] eqn:Hg; [|done]. destruct (off =? 0)%nat; [done|].
  destruct (HasPrefix r ".").
  - destruct (_ && _); [done|]. destruct (16 <? _)%nat eqn:E; [done|]. apply Nat.ltb_ge in E.
    destruct (parseIPv4Fields None [] 0 0 s) as [f|] eqn:Hf4; [|done]. intros [= <- <- _] Hl Hf He.
    destruct (parseIPv4Fields_wf _ _ _ _ _ _ Hf4) as [H4 Ho]; [simpl; lia|by apply Forall_nil|by unfold octet|].
    rewrite length_app, Forall_app. split; [lia|]. split; [done|]. intros e Hee%He. lia.
  - apply hex_group_bound in Hg; [|lia].
    assert (Hpair : Forall octet [acc / 256; acc mod 256]%Z).
    { rewrite Forall_cons, Forall_singleton. unfold octet. Z.to_euclidean_division_equations; lia. }
    intros Hres Hl Hf He. assert (Hf2 : Forall octet (ip ++ [acc / 256; acc mod 256]%Z)) by (by apply Forall_app).
    assert (Hl2 : length (ip ++ [acc / 256; acc mod 256]%Z) = length ip + 2) by (by rewrite length_app).
    set (ip2 := ip ++ [acc / 256; acc mod 256]%Z) in *.
    assert (He2 : ∀ e, ellipsis = Some e → e ≤ length ip2) by (intros e Hee%He; lia).
    assert (He3 : ∀ e, Some (length ip2) = Some e → e ≤ length ip2) by (intros e [= <-]; lia).
    destruct r as [|c r]; [injection Hres as <- <- _; split; [lia|done]|].
    destruct (negb _); [done|]. destruct r as [|c2 r2]; [done|].
    destruct (bool_decide (c2 = _)).
    + destruct (bool_decide (is_Some _)); [done|].
      destruct (bool_decide (r2 = "")); [injection Hres as <- <- _; split; [lia|done]|]. eapply IH; [exact Hres|lia|done|done].
    + eapply IH; [exact Hres|lia|done|done].
Qed.

Lemma octet_zeros n : Forall octet (replicate n 0%Z).
Proof. apply Forall_replicate. by unfold octet. Qed.

Lemma expand_wf ip ell ip' :
  expand ip ell = Some ip' → length ip ≤ 16 → Forall octet ip → length ip' = 16 ∧ Forall octet ip'.
Proof.
  unfold expand. destruct (length ip <? 16)%nat eqn:E; [apply Nat.ltb_lt in E|apply Nat.ltb_ge in E].
  - destruct ell as [e|]; [|done]. intros [= <-] Hl Hf. rewrite !length_app, length_replicate. split.
    + rewrite length_take, length_drop. lia.
    + rewrite !Forall_app. split; [by apply Forall_take|]. split; [apply octet_zeros|by apply Forall_drop].
  - case_bool_decide; [done|]. intros [= <-] ??. split; [lia|done].
Qed.

Lemma parseIPv6_wf s ip zone : parseIPv6 s = Some (ip, zone) → length ip = 16 ∧ Forall octet ip.
Proof.
  unfold parseIPv6. destruct (_ && _); [done|]. destruct (bool_decide (before_sep "%" s = "::")).
  { intros [= <- _]. split; [done|apply (octet_zeros 16)]. }
  destruct (ipv6_groups _ _ _ _) as [[[g ell] rest]|] eqn:Hg; [|done]. simpl. destruct (negb _); [done|].
  destruct (expand g ell) as [x|] eqn:Hx; [|done]. simpl. intros [= <- _].
  apply ipv6_groups_wf in Hg as (Hl & Hf & _); [by eapply expand_wf|simpl; lia|by apply Forall_nil|].
  intros e. destruct (HasPrefix _ _); [|done]. intros [= <-]. simpl. lia.
Qed.

Lemma ParseIP_wf s ip : ParseIP s = Some ip → length ip = 16 ∧ Forall octet ip.
Proof.
  unfold ParseIP. destruct (ParseAddr s) as [[ip' zone]|] eqn:H; [|done]. case_bool_decide; [|done]. intros [= ->].
  unfold ParseAddr in H. destruct (addr_kind s) as [a|]; [|done].
  assert (Ha : parseIPv4 s = Some ip ∨ parseIPv6 s = Some (ip, zone)).
  { destruct a as [[] [] [] [] [] [] [] []]; try done; first [right; exact H|left; destruct (parseIPv4 s); simpl in H; congruence]. }
  destruct Ha as [H4|H6]; [|by eapply parseIPv6_wf]. unfold parseIPv4 in H4.
  destruct (parseIPv4Fields _ _ _ _ s) as [f|] eqn:Hf; [|done].
  assert (Hip : ip = v4_prefix ++ f) by (symmetry; by injection H4). rewrite Hip.
  apply parseIPv4Fields_wf in Hf as [Hl Ho]; [|simpl; lia|by apply Forall_nil|by unfold octet].
  split; [by rewrite (length_app v4_prefix f), Hl|]. apply (Forall_app _ v4_prefix f). split; [|done].
  unfold v4_prefix. apply Forall_app. split; [apply (octet_zeros 10)|]. rewrite Forall_cons, Forall_singleton. by unfold octet.
Qed.
