(* ===== verification/Paths.v ===== *)
(** * Package path, regular expressions and time syntax: what the code uses

    [path.Clean] and [path.Join], the three character-class patterns of
    config/ssh.go as byte predicates with a length range, and the texts
    [time.Parse(time.RFC3339, s)] accepts. *)
From S2P Require Import Prelude GoStrings NetIP.
From Stdlib Require Import Ascii String.
From stdpp Require Import strings.

#[local] Arguments String.append !_ _ / : simpl nomatch.

(** ** path.Clean *)

(** Resolve the segments of a path from left to right; [stack] is in reverse. *)
Fixpoint clean_segments (rooted : bool) (stack segs : list string) : list string :=
  match segs with
  | [] => reverse stack
  | seg :: segs =>
      if bool_decide (seg = "") || bool_decide (seg = ".") then clean_segments rooted stack segs
      else if bool_decide (seg = "..") then
        match stack with
        | top :: stack' =>
            if bool_decide (top = "..") then clean_segments rooted (seg :: stack) segs else clean_segments rooted stack' segs
        | [] => clean_segments rooted (if rooted then [] else [seg]) segs
        end
      else clean_segments rooted (seg :: stack) segs
  end.

Definition Clean (p : string) : string :=
  let rooted := HasPrefix p "/" in
  let body := GoStrings.Join "/" (clean_segments rooted [] (Split "/" p)) in
  if rooted then "/" +:+ body else if bool_decide (body = "") then "." else body.

(** [path.Join] of two elements: the empty ones are left out. *)
Definition path_join (a b : string) : string :=
  match filter (λ e, e ≠ "") [a; b] with
  | [] => ""
  | l => Clean (GoStrings.Join "/" l)
  end.

(** ** Patterns *)

Definition matches (class : ascii → bool) (lo hi : nat) (s : string) : bool :=
  (lo <=? len s)%nat && (len s <=? hi)%nat && forall_bytes class s.

(** ** time.Parse(time.RFC3339, s) *)

Definition two_digits (s : string) : option (Z * string) :=
  match s with
  | String a (String b s') => if is_digit a && is_digit b then Some ((digit_value a * 10 + digit_value b)%Z, s') else None
  | _ => None
  end.

(** [getnum(s, false)]: one or two digits. *)
Definition one_or_two_digits (s : string) : option (Z * string) :=
  match two_digits s with
  | Some r => Some r
  | None => match s with String a s' => if is_digit a then Some (digit_value a, s') else None | _ => None end
  end.

Definition eat (c : ascii) (s : string) : option string :=
  match s with String a s' => if bool_decide (a = c) then Some s' else None | EmptyString => None end.

Definition leap (y : Z) : bool := ((y mod 4 =? 0) && (negb (y mod 100 =? 0) || (y mod 400 =? 0)))%Z.

Definition daysIn (m y : Z) : Z :=
  if (m =? 2)%Z then (if leap y then 29 else 28)%Z else if bool_decide (m ∈ [4; 6; 9; 11]%Z) then 30%Z else 31%Z.

(** Drop a fraction: a point or comma with at least one digit. *)
Fixpoint drop_digits (s : string) : string :=
  match s with String a s' => if is_digit a then drop_digits s' else s | EmptyString => EmptyString end.

Definition drop_fraction (s : string) : string :=
  match s with
  | String p (String d s') => if bool_decide (p ∈ ["."; ","]%char) && is_digit d then drop_digits s' else s
  | _ => s
  end.

Definition zone_ok (s : string) : bool :=
  match s with
  | String "Z" "" => true
  | String g s1 =>
      bool_decide (g ∈ ["+"; "-"]%char) &&
      match two_digits s1 with
      | Some (h, s2) =>
          match eat ":" s2 with
          | Some s3 => match two_digits s3 with Some (m, "") => (h <=? 24)%Z && (m <=? 60)%Z | _ => false end
          | None => false
          end
      | None => false
      end
  | EmptyString => false
  end.

Definition rfc3339_ok (s : string) : bool :=
  match (y1 ← two_digits s; y2 ← two_digits y1.2; s ← eat "-" y2.2; mo ← two_digits s; s ← eat "-" mo.2; d ← two_digits s;
         s ← eat "T" d.2; h ← one_or_two_digits s; s ← eat ":" h.2; mi ← two_digits s; s ← eat ":" mi.2; se ← two_digits s;
         Some ((y1.1 * 100 + y2.1)%Z, mo.1, d.1, h.1, mi.1, se.1, se.2)) with
  | Some (y, mo, d, h, mi, se, rest) =>
      (1 <=? mo)%Z && (mo <=? 12)%Z && (1 <=? d)%Z && (d <=? daysIn mo y)%Z && (h <? 24)%Z && (mi <? 60)%Z && (se <? 60)%Z
      && zone_ok (drop_fraction rest)
  | None => false
  end.

(** ** Examples *)

Example clean_paths :
  Clean <$> ["/a/b"; "/a//b/"; "/a/./b"; "/a/../b"; "/.."; "a/../.."; ""; "/"; "/a/b/../../../c"] =
  ["/a/b"; "/a/b"; "/a/b"; "/b"; "/"; ".."; "."; "/"; "/c"].
Proof. vm_compute. reflexivity. Qed.

Example joins : (path_join "/home/me" ".ssh/id", path_join "" "", path_join "/h" "../x") = ("/home/me/.ssh/id", "", "/x").
Proof. vm_compute. reflexivity. Qed.

Example times :
  rfc3339_ok <$> ["2024-02-29T10:00:00Z"; "2023-02-29T10:00:00Z"; "2024-01-02T03:04:05.123+02:00"; "2024-01-02T3:04:05Z"; "2024-01-02 03:04:05Z"; "2024-13-02T03:04:05Z"] =
  [true; false; true; true; false; false].
Proof. vm_compute. reflexivity. Qed.

(** ** Lemmas: clean paths *)

Definition plain_segment (seg : string) : bool :=
  negb (bool_decide (seg = "")) && negb (bool_decide (seg = ".")) && negb (bool_decide (seg = "..")).

Lemma clean_segments_plain rooted stack segs :
  forallb plain_segment segs = true → clean_segments rooted stack segs = reverse stack ++ segs.
Proof.
  revert stack. induction segs as [|seg segs IH]; intros stack; cbn [forallb clean_segments]; [by rewrite app_nil_r|].
  intros [Hseg Hsegs]%andb_true_iff. unfold plain_segment in Hseg. bool_prop. rewrite !bool_decide_eq_false_2 by done. cbn [orb].
  by rewrite IH, reverse_cons, <- app_assoc.
Qed.

(** What cleaning a rooted path leaves has plain segments only. *)
Lemma clean_segments_rooted stack segs :
  forallb plain_segment stack = true → forallb plain_segment (clean_segments true stack segs) = true.
Proof.
  revert stack. induction segs as [|seg segs IH]; intros stack Hst; cbn [clean_segments].
  { apply forallb_forall. intros x Hx. rewrite forallb_forall in Hst. apply Hst. by apply list_elem_of_In, elem_of_reverse, list_elem_of_In. }
  destruct (bool_decide (seg = "")) eqn:H1, (bool_decide (seg = ".")) eqn:H2; cbn [orb]; try by apply IH.
  destruct (bool_decide (seg = "..")) eqn:H3.
  - destruct stack as [|top stack]; [by apply IH|]. cbn [forallb] in Hst. apply andb_true_iff in Hst as [Htop Hst].
    unfold plain_segment in Htop. bool_prop. rewrite bool_decide_eq_false_2 by done. by apply IH.
  - apply IH. cbn [forallb]. unfold plain_segment at 1. by rewrite H1, H2, H3.
Qed.

Lemma clean_segments_incl rooted stack segs P :
  P ".." → Forall P stack → Forall P segs → Forall P (clean_segments rooted stack segs).
Proof.
  intros Hdots. revert stack. induction segs as [|seg segs IH]; intros stack Hst Hsegs; cbn [clean_segments]; [by apply Forall_reverse|].
  apply Forall_cons in Hsegs as [Hseg Hsegs]. destruct (_ || _); [by apply IH|].
  destruct (bool_decide (seg = "..")).
  - destruct stack as [|top stack]; [destruct rooted; apply IH; [done|done|by apply Forall_singleton|done]|].
    apply Forall_cons in Hst as [Htop Hst]. destruct (bool_decide (top = "..")); apply IH; try done. by repeat constructor.
  - apply IH; [by constructor|done].
Qed.

(** The rooted paths that cleaning leaves alone: the root, and those whose
    segments are neither empty nor dots. *)
Lemma Clean_fixed t :
  Clean (String "/" t) = String "/" t ↔ t = "" ∨ forallb plain_segment (Split "/" t) = true.
Proof.
  assert (Hc : Clean (String "/" t) = String "/" (GoStrings.Join "/" (clean_segments true [] (Split "/" t)))).
  { unfold Clean. change (HasPrefix (String "/" t) "/") with (HasPrefix ("/" +:+ t) "/"). rewrite HasPrefix_app. cbv zeta.
    cbn [Split]. rewrite bool_decide_eq_true_2 by done. cbn [clean_segments]. by rewrite bool_decide_eq_true_2. }
  rewrite Hc. split.
  - intros [= Ht]. pose proof (clean_segments_rooted [] (Split "/" t) eq_refl) as Hplain.
    pose proof (clean_segments_incl true [] (Split "/" t) (λ w, has_byte "/" w = false) eq_refl (Forall_nil_2 _) (Split_clean _ _)) as Hno.
    destruct (decide (clean_segments true [] (Split "/" t) = [])) as [He|He]; [left; by rewrite He in Ht|right].
    rewrite <- Ht. by rewrite Split_Join.
  - intros [->|Hplain]; [done|]. rewrite clean_segments_plain by done. change (reverse [] ++ Split "/" t) with (Split "/" t).
    by rewrite (Join_Split "/" t).
Qed.
