(* ===== verification/Config.v ===== *)
(** * Configuration data: config/config.go, config/ssh.go, config/listener.go

    The configuration record and its SSH part, the defaults, and the enumerations
    of migration states and proofs. *)
From S2P Require Import Prelude GoStrings.
From Stdlib Require Import Ascii String.
From stdpp Require Import strings.

Definition TransportSSH : string := "ssh".

Definition MigrationStateLoopbackUnprovisioned : string := "loopback_unprovisioned".

Definition MigrationStateSSHMaterialStaged : string := "ssh_material_staged".

Definition MigrationStateSharedKeyWrittenUnverified : string := "shared_key_written_unverified".

Definition MigrationStateSSHKeysReady : string := "ssh_keys_ready".

Definition MigrationStateProvisionFailed : string := "provision_failed".

Definition ProofVerifiedByLocalFile : string := "local_file".

Definition ProofVerifiedByRegularSSH : string := "regular_ssh".

Definition ProofVerifiedByTailscaleSSH : string := "tailscale_ssh".

Inductive ProofDirection := DirectionAccept | DirectionConnect.

Record SSHProof := MkSSHProof {
  AcceptKeyID : string;
  AcceptGatewayPath : string;
  AcceptVerifiedAt : string;
  AcceptVerifiedBy : string;
  ConnectKeyID : string;
  ConnectGatewayPath : string;
  ConnectVerifiedAt : string;
  ConnectVerifiedBy : string;
}.

Record SSHPeer := MkSSHPeer {
  peer_ID : string;
  SSHHost : string;
  SSHUser : string;
  SSHPort : Z;
  InstallPath : string;
  GatewayPath : string;
  Enabled : bool;
  Accept : bool;
  Connect : bool;
  Persistent : bool;
  OnDemand : bool;
  MigrationState : string;
  Proof_ : SSHProof;
}.

Record SSHConfig := MkSSHConfig {
  SyncKey : string;
  KnownHosts : string;
  MaxSessions : Z;
  MaxSessionsPerPeer : Z;
  LogLimitBytes : Z;
  Peers : list SSHPeer;
}.

Record Config := MkConfig {
  ConfigVersion : option Z;
  ConfigRevision : option Z;
  Listen : string;
  SharedKey : string;
  Discovery : string;
  StaticPeers : list string;
  Hostname : string;
  Transport : string;
  SSH : option SSHConfig;
  Port : Z;
  MaxHistory : Z;
}.

#[export] Instance proof_eq_dec : EqDecision SSHProof.
Proof. solve_decision. Defined.

#[export] Instance peer_eq_dec : EqDecision SSHPeer.
Proof. solve_decision. Defined.

(** ** config/ssh.go, the enumerations *)

Definition validMigrationState (state : string) : bool :=
  bool_decide (state ∈ [""; MigrationStateLoopbackUnprovisioned; MigrationStateSSHMaterialStaged;
    MigrationStateSharedKeyWrittenUnverified; MigrationStateSSHKeysReady; MigrationStateProvisionFailed]).

Definition hasDirectionalProof (proof : SSHProof) (direction : ProofDirection) : bool :=
  match direction with
  | DirectionAccept =>
      negb (bool_decide (AcceptKeyID proof = "")) || negb (bool_decide (AcceptGatewayPath proof = ""))
      || negb (bool_decide (AcceptVerifiedAt proof = "")) || negb (bool_decide (AcceptVerifiedBy proof = ""))
  | DirectionConnect =>
      negb (bool_decide (ConnectKeyID proof = "")) || negb (bool_decide (ConnectGatewayPath proof = ""))
      || negb (bool_decide (ConnectVerifiedAt proof = "")) || negb (bool_decide (ConnectVerifiedBy proof = ""))
  end.

(** ** config/listener.go and config/config.go, the defaults *)

Definition defaultPort : Z := 7853%Z.

Definition legacyDefaultListen : string := ":7853".

Definition loopbackHost : string := "127.0.0.1".

Definition defaultMaxHistory : Z := 200%Z.

Definition DefaultListen (loopbackDefault : bool) (port : Z) : string :=
  if negb loopbackDefault then legacyDefaultListen
  else
    let port := if (port =? 0)%Z then defaultPort else port in
    loopbackHost +:+ ":" +:+ format_int port.

Definition withDefaultsForGeneratedListen (c : Config) (loopbackDefault : bool) : Config :=
  let port := if (Port c =? 0)%Z then 7853%Z else Port c in
  let listen := if bool_decide (Listen c = "") then DefaultListen loopbackDefault port else Listen c in
  let discovery := if bool_decide (Discovery c = "") then "tailscale" else Discovery c in
  let maxHistory := if (MaxHistory c =? 0)%Z then defaultMaxHistory else MaxHistory c in
  MkConfig (ConfigVersion c) (ConfigRevision c) listen (SharedKey c) discovery (StaticPeers c) (Hostname c) (Transport c)
    (SSH c) port maxHistory.

Definition isLegacyGeneratedListen (listen : string) : bool :=
  bool_decide (listen ∈ [legacyDefaultListen; "0.0.0.0:7853"; "[::]:7853"]).

(** [ApplyGeneratedListenMigration]: the config and whether it changed. *)
Definition ApplyGeneratedListenMigration (c : Config) (enabled : bool) : Config * bool :=
  if negb enabled || negb (isLegacyGeneratedListen (Listen c)) then (c, false)
  else
    (MkConfig (ConfigVersion c) (ConfigRevision c) (DefaultListen true defaultPort) (SharedKey c) (Discovery c)
       (StaticPeers c) (Hostname c) (Transport c) (SSH c) (if (Port c =? 0)%Z then defaultPort else Port c) (MaxHistory c), true).

(** ** Lemmas *)

Lemma withDefaults_idemp c b :
  withDefaultsForGeneratedListen (withDefaultsForGeneratedListen c b) b = withDefaultsForGeneratedListen c b.
Proof.
  unfold withDefaultsForGeneratedListen. simpl. f_equal.
  - destruct (bool_decide (Listen c = "")) eqn:E; [|by rewrite E].
    rewrite bool_decide_eq_false_2; [done|]. by destruct b.
  - by destruct (bool_decide (Discovery c = "")) eqn:E; [|rewrite E].
  - by destruct (Port c =? 0)%Z eqn:E; [|rewrite E].
  - by destruct (MaxHistory c =? 0)%Z eqn:E; [|rewrite E].
Qed.

(** The migration runs at most once. *)
Lemma listen_migration_once c b :
  (ApplyGeneratedListenMigration (ApplyGeneratedListenMigration c b).1 b).2 = false.
Proof.
  unfold ApplyGeneratedListenMigration. destruct b; simpl; [|done].
  destruct (isLegacyGeneratedListen (Listen c)) eqn:E; simpl; [done|]. by rewrite E.
Qed.
