(* ===== verification/Listener.v ===== *)
(** * The listener plan: config/listener.go

    Which address the daemon binds.  With the listener boundary on, only a
    loopback listener starts the daemon as configured; anything else puts it in
    safe mode on a loopback repair port. *)
From S2P Require Import Prelude GoStrings NetIP Config.
From Stdlib Require Import Ascii String.
From stdpp Require Import strings.

#[local] Arguments String.append !_ _ / : simpl nomatch.

Record ListenerPlan := MkListenerPlan {
  ConfiguredListen : string;
  BindListen : string;
  EffectiveRepairListen : string;
  ParseError : string;
  SafeMode : bool;
  PeerSyncStarted : bool;
}.

Definition GeneratedLoopbackDefaultsEnabled : bool := true.

Definition validPort (port : Z) : bool := (1 <=? port)%Z && (port <=? 65535)%Z.

Definition splitListenHostPort (listen : string) : option (string * Z) :=
  match SplitHostPort (TrimSpace listen) with
  | None => None
  | Some (host, portText) =>
      match ParseInt portText with
      | None => None
      | Some port => if validPort port then Some (host, port) else None
      end
  end.

Definition isLoopbackHost (host : string) : bool :=
  if EqualFold host "localhost" then true
  else match ParseIP host with Some ip => IsLoopback ip | None => false end.

Definition PlanListener (c : Config) (listenerBoundaryEnabled : bool) : ListenerPlan :=
  let listen := if bool_decide (Listen c = "") then DefaultListen listenerBoundaryEnabled (Port c) else Listen c in
  let plan bind := MkListenerPlan listen bind "" "" false true in
  if negb listenerBoundaryEnabled then plan listen
  else if isLegacyGeneratedListen listen then plan (DefaultListen true defaultPort)
  else
    let safe repairPort parseError :=
      MkListenerPlan listen (DefaultListen true repairPort) (DefaultListen true repairPort) parseError true false in
    match splitListenHostPort listen with
    | Some (host, port) => if isLoopbackHost host then plan (DefaultListen true port) else safe port ""
    | None => if validPort (Port c) then safe (Port c) "" else safe defaultPort "invalid_listen_port"
    end.

Definition with_listen (c : Config) (listen : string) : Config :=
  MkConfig (ConfigVersion c) (ConfigRevision c) listen (SharedKey c) (Discovery c) (StaticPeers c) (Hostname c) (Transport c)
    (SSH c) (Port c) (MaxHistory c).

(** ** Examples *)

Example fold_localhost :
  (isLoopbackHost "LocalHost", isLoopbackHost ("localho" +:+ long_s +:+ "t"), isLoopbackHost "::1", isLoopbackHost "0.0.0.0") =
  (true, true, true, false).
Proof. vm_compute. reflexivity. Qed.

Definition demo_listen (listen : string) (port : Z) : Config :=
  MkConfig None None listen "" "" [] "" "" None port 0.

Example plans :
  (λ l, let p := PlanListener (demo_listen l 0) true in (BindListen p, SafeMode p)) <$>
    ["0.0.0.0:7853"; "0.0.0.0:80"; "[::1]:99"; "localhost:0"; " 127.0.0.1:80 "] =
  [("127.0.0.1:7853", false); ("127.0.0.1:80", true); ("127.0.0.1:99", false); ("127.0.0.1:7853", true); ("127.0.0.1:80", false)].
Proof. vm_compute. reflexivity. Qed.

(** ** Lemmas *)

Definition starts_with (f : ascii → bool) (s : string) : bool :=
  match s with EmptyString => false | String a _ => f a end.

Lemma strip_left_digit ws n s :
  starts_with is_digit s = true → forallb (starts_with (λ a, negb (is_digit a))) ws = true → strip_left ws n s = s.
Proof.
  intros Hs Hws. apply strip_left_id. apply Forall_forall. intros w Hw%list_elem_of_In.
  rewrite forallb_forall in Hws. specialize (Hws _ Hw). destruct w as [|b w], s as [|a s]; try done. simpl in Hs, Hws |- *.
  destruct (ascii_dec b a) as [->|]; [|done]. by rewrite Hs in Hws.
Qed.

(** A text between two digits has no space to trim. *)
Lemma TrimSpace_id s :
  starts_with is_digit s = true → starts_with is_digit (String.rev s) = true → TrimSpace s = s.
Proof.
  intros Hs Hr. unfold TrimSpace. rewrite (strip_left_digit space_runes) by (done || vm_compute; reflexivity).
  rewrite strip_left_digit; [apply srev_rev|done|vm_compute; reflexivity].
Qed.

Lemma rev_digits s : s ≠ "" → forall_bytes is_digit s = true → starts_with is_digit (String.rev s) = true.
Proof.
  induction s as [|a s IH]; [done|]. intros _. simpl. intros [Ha Hs]%andb_true_iff. rewrite srev_cons.
  destruct s as [|b s]; [done|]. specialize (IH ltac:(done) Hs). by destruct (String.rev (String b s)).
Qed.

Definition loopback_listen (port : Z) : string := loopbackHost +:+ ":" +:+ format_int port.

Lemma DefaultListen_loopback port : port ≠ 0%Z → DefaultListen true port = loopback_listen port.
Proof. intros Hp. unfold DefaultListen. simpl. by rewrite (proj2 (Z.eqb_neq _ _)). Qed.

Lemma validPort_spec port : validPort port = true ↔ (1 ≤ port ≤ 65535)%Z.
Proof. unfold validPort. rewrite andb_true_iff, !Z.leb_le. done. Qed.

Lemma format_int_pos z : (0 ≤ z)%Z → format_int z = format_uint (Z.to_N z).
Proof. by destruct z. Qed.

(** A loopback listen address with a valid port splits into its parts. *)
Lemma split_loopback port :
  validPort port = true → splitListenHostPort (loopback_listen port) = Some (loopbackHost, port).
Proof.
  intros Hp. pose proof (proj1 (validPort_spec _) Hp) as Hp'. unfold splitListenHostPort.
  assert (Hrev : starts_with is_digit (String.rev (loopback_listen port)) = true).
  { unfold loopback_listen. rewrite !srev_app, format_int_pos by lia.
    pose proof (rev_digits (format_uint (Z.to_N port)) (format_uint_nonempty _) (format_uint_digits _)) as H.
    destruct (String.rev (format_uint _)); [done|]. exact H. }
  rewrite TrimSpace_id by done. unfold loopback_listen.
  rewrite SplitHostPort_plain; [|done|done|done|by apply format_int_clean|by apply format_int_clean|by apply format_int_clean].
  rewrite ParseInt_format by (unfold max_int64; lia). by rewrite Hp.
Qed.

Lemma loopback_not_legacy port : isLegacyGeneratedListen (loopback_listen port) = false.
Proof.
  unfold isLegacyGeneratedListen. apply bool_decide_eq_false. rewrite !elem_of_cons, elem_of_nil.
  by intros [|[|[|[]]]].
Qed.

(** Every plan under the boundary binds loopback on a valid port. *)
Lemma plan_bind c :
  let p := PlanListener c true in
  ∃ port, validPort port = true ∧ BindListen p = loopback_listen port ∧
    PeerSyncStarted p = negb (SafeMode p) ∧ (SafeMode p = true → EffectiveRepairListen p = BindListen p).
Proof.
  unfold PlanListener. cbn [negb]. set (listen := if bool_decide (Listen c = "") then _ else _). clearbody listen.
  assert (Hdef : ∀ port, validPort port = true → DefaultListen true port = loopback_listen port).
  { intros port Hp%validPort_spec. apply DefaultListen_loopback. lia. }
  destruct (isLegacyGeneratedListen listen); [by exists defaultPort|].
  destruct (splitListenHostPort listen) as [[host port]|] eqn:Hsplit.
  - assert (Hport : validPort port = true).
    { unfold splitListenHostPort in Hsplit. destruct (SplitHostPort _) as [[h t]|]; [|done].
      destruct (ParseInt t); [|done]. destruct (validPort z) eqn:E; [|done]. congruence. }
    exists port. destruct (isLoopbackHost host); rewrite Hdef by done; done.
  - destruct (validPort (Port c)) eqn:Hp; [exists (Port c)|exists defaultPort]; rewrite Hdef by done; done.
Qed.

(** A loopback listener is started as it is. *)
Lemma plan_loopback c port :
  validPort port = true → Listen c = loopback_listen port → PlanListener c true = MkListenerPlan (loopback_listen port) (loopback_listen port) "" "" false true.
Proof.
  intros Hport Hl. unfold PlanListener. cbn [negb]. rewrite Hl, (bool_decide_eq_false_2 (loopback_listen port = "")) by done.
  rewrite loopback_not_legacy, split_loopback by done.
  assert (isLoopbackHost loopbackHost = true) as -> by (vm_compute; reflexivity). rewrite DefaultListen_loopback; [done|].
  apply validPort_spec in Hport. lia.
Qed.

(** ** Properties *)

(** With the listener boundary on, whatever the configuration says, the
    daemon binds the loopback address on a port from 1 to 65535; the sync with
    peers starts exactly outside safe mode; and the plan is stable: a
    configuration repaired to the address that was bound is started as it is,
    outside safe mode, on that same address. *)
Theorem listener_boundary (c : Config) :
  let p := PlanListener c true in
  (∃ port, (1 ≤ port ≤ 65535)%Z ∧ BindListen p = loopbackHost +:+ ":" +:+ format_int port) ∧
  PeerSyncStarted p = negb (SafeMode p) ∧
  PlanListener (with_listen c (BindListen p)) true = MkListenerPlan (BindListen p) (BindListen p) "" "" false true.
Proof.
  intros p. destruct (plan_bind c) as (port & Hport & Hbind & Hsync & _). fold p in Hbind, Hsync. rewrite Hbind.
  split; [exists port; by rewrite <- validPort_spec|]. split; [done|].
  by apply plan_loopback.
Qed.

(** Safe mode starts exactly when the configured listener (the default one
    when none is configured) is neither a generated default nor a loopback host
    with a valid port; without the boundary the configured listener is bound as
    it is. *)
Theorem safe_mode_exactly (c : Config) :
  let listen := if bool_decide (Listen c = "") then DefaultListen true (Port c) else Listen c in
  (SafeMode (PlanListener c true) = false ↔
     listen ∈ [":7853"; "0.0.0.0:7853"; "[::]:7853"] ∨
     ∃ host portText port ip, SplitHostPort (TrimSpace listen) = Some (host, portText) ∧ ParseInt portText = Some port ∧
       (1 ≤ port ≤ 65535)%Z ∧ (EqualFold host "localhost" = true ∨ ParseIP host = Some ip ∧ IsLoopback ip = true)) ∧
  PlanListener c false =
    MkListenerPlan (if bool_decide (Listen c = "") then ":7853" else Listen c)
      (if bool_decide (Listen c = "") then ":7853" else Listen c) "" "" false true.
Proof.
  intros listen. split; [|done]. unfold PlanListener. cbn [negb]. fold listen. clearbody listen.
  unfold isLegacyGeneratedListen. case_bool_decide as Hleg; [cbn [SafeMode]; tauto|]. unfold legacyDefaultListen in Hleg.
  unfold splitListenHostPort, isLoopbackHost.
  destruct (SplitHostPort (TrimSpace listen)) as [[host portText]|]; [|destruct (validPort (Port c)); cbn [SafeMode]; naive_solver].
  destruct (ParseInt portText) as [port|] eqn:Hp; [|destruct (validPort (Port c)); cbn [SafeMode]; naive_solver].
  destruct (validPort port) eqn:Hport.
  - apply validPort_spec in Hport. destruct (EqualFold host "localhost") eqn:Hf; cbn [SafeMode].
    + split; [|done]. intros _. right. exists host, portText, port, []. naive_solver.
    + destruct (ParseIP host) as [ip|] eqn:Hip; cbn [SafeMode].
      * destruct (IsLoopback ip) eqn:Hl; cbn [SafeMode]; [|naive_solver]. split; [|done]. intros _. right. exists host, portText, port, ip.
        naive_solver.
      * naive_solver.
  - assert (¬ (1 ≤ port ≤ 65535)%Z) by (rewrite <- validPort_spec; congruence).
    destruct (validPort (Port c)); cbn [SafeMode]; naive_solver.
Qed.
