(* ===== verification/Json.v ===== *)
(** * encoding/json: what the code uses of it

    The syntax of JSON texts as the scanner accepts it, the unquoting and quoting
    of strings, and the decoding of an object into the fields of a struct: names
    match up to case, the last occurrence counts, [null] leaves the field alone, a
    value of another type is an error.  Request bodies are decoded with it
    (transport/server.go). *)
From S2P Require Import Prelude GoStrings Utf8 Encoding NetIP.
From Stdlib Require Import Ascii String.
From stdpp Require Import strings.

Inductive json :=
| VNull
| VBool (b : bool)
| VNumber (literal : string)
| VString (s : string)
| VArray (l : list json)
| VObject (l : list (string * json)).

Definition quote_byte : ascii := ascii_of_nat 34.

Definition backslash : ascii := ascii_of_nat 92.

(** ** Scanning *)

Definition is_space (a : ascii) : bool := bool_decide (nat_of_ascii a ∈ [32; 9; 13; 10]).

Fixpoint skip_space (s : string) : string :=
  match s with
  | String a s' => if is_space a then skip_space s' else s
  | EmptyString => EmptyString
  end.

(** The raw text of a string up to its closing quote, and what follows. *)
Fixpoint scan_string (s : string) : option (string * string) :=
  let push (pre : list ascii) (r : option (string * string)) :=
    (λ '(raw, rest), (foldr String raw pre, rest)) <$> r in
  match s with
  | EmptyString => None
  | String a s1 =>
      if bool_decide (a = quote_byte) then Some (EmptyString, s1)
      else if bool_decide (a = backslash) then
        match s1 with
        | EmptyString => None
        | String e s2 =>
            if bool_decide (e = "u"%char) then
              match s2 with
              | String h1 (String h2 (String h3 (String h4 s3))) =>
                  if forallb (λ h, bool_decide (is_Some (hex_value h))) [h1; h2; h3; h4] then push [a; e; h1; h2; h3; h4] (scan_string s3)
                  else None
              | _ => None
              end
            else if bool_decide (e ∈ [quote_byte; backslash; "/"; "b"; "f"; "n"; "r"; "t"]%char) then push [a; e] (scan_string s2)
            else None
        end
      else if (nat_of_ascii a <? 32)%nat then None
      else push [a] (scan_string s1)
  end.

(** The longest run of digits. *)
Fixpoint scan_digits (s : string) : string * string :=
  match s with
  | String a s' => if is_digit a then let '(d, r) := scan_digits s' in (String a d, r) else (EmptyString, s)
  | EmptyString => (EmptyString, EmptyString)
  end.

Definition scan_fraction (s : string) : option (string * string) :=
  match s with
  | String "." s' => let '(d, r) := scan_digits s' in if bool_decide (d = "") then None else Some (String "." d, r)
  | _ => Some (EmptyString, s)
  end.

Definition scan_exponent (s : string) : option (string * string) :=
  match s with
  | String e s' =>
      if bool_decide (e ∈ ["e"; "E"]%char) then
        let '(sign, s2) := match s' with
          | String g s2 => if bool_decide (g ∈ ["+"; "-"]%char) then (String g "", s2) else (EmptyString, s')
          | EmptyString => (EmptyString, s')
          end in
        let '(d, r) := scan_digits s2 in if bool_decide (d = "") then None else Some (String e (sign +:+ d), r)
      else Some (EmptyString, s)
  | EmptyString => Some (EmptyString, s)
  end.

(** A number literal: sign, integer part without leading zeros, fraction, exponent. *)
Definition scan_number (s : string) : option (string * string) :=
  let '(sign, s1) := match s with String "-" s1 => ("-", s1) | _ => ("", s) end in
  '(int, s2) ← match s1 with
    | String "0" s2 => Some ("0", s2)
    | _ => let '(d, r) := scan_digits s1 in if bool_decide (d = "") then None else Some (d, r)
    end;
  '(frac, s3) ← scan_fraction s2;
  '(exp, s4) ← scan_exponent s3;
  Some (sign +:+ int +:+ frac +:+ exp, s4).

(** ** Unquoting *)

Definition hex4 (h1 h2 h3 h4 : ascii) : Z :=
  let v h := Z.of_nat (default 0 (hex_value h)) in (v h1 * 4096 + v h2 * 256 + v h3 * 16 + v h4)%Z.

Definition byte (z : Z) : ascii := ascii_of_nat (Z.to_nat z).

(** [utf8.EncodeRune]; surrogates and values out of range give U+FFFD. *)
Definition encode_rune (r : Z) : string :=
  (if r <? 128 then String (byte r) ""
   else if r <? 2048 then String (byte (192 + r / 64)) (String (byte (128 + r mod 64)) "")
   else if (1114111 <? r) || ((55296 <=? r) && (r <=? 57343)) then replacement
   else if r <? 65536 then
     String (byte (224 + r / 4096)) (String (byte (128 + (r / 64) mod 64)) (String (byte (128 + r mod 64)) ""))
   else
     String (byte (240 + r / 262144)) (String (byte (128 + (r / 4096) mod 64))
       (String (byte (128 + (r / 64) mod 64)) (String (byte (128 + r mod 64)) ""))))%Z.

Definition escape_value (e : ascii) : ascii :=
  if bool_decide (e = "b"%char) then ascii_of_nat 8
  else if bool_decide (e = "f"%char) then ascii_of_nat 12
  else if bool_decide (e = "n"%char) then ascii_of_nat 10
  else if bool_decide (e = "r"%char) then ascii_of_nat 13
  else if bool_decide (e = "t"%char) then ascii_of_nat 9
  else e.

(** The second half of a surrogate pair and the text behind it. *)
Definition low_surrogate (s : string) : option (Z * string) :=
  match s with
  | String b (String "u" (String h1 (String h2 (String h3 (String h4 rest))))) =>
      let r := hex4 h1 h2 h3 h4 in
      if bool_decide (b = backslash) && (56320 <=? r)%Z && (r <=? 57343)%Z then Some (r, rest) else None
  | _ => None
  end.

(** [unquoteBytes] on a scanned text: bytes that are not UTF-8 become U+FFFD. *)
Fixpoint unquote (fuel : nat) (s : string) : string :=
  match fuel, s with
  | S fuel, String a s1 =>
      if bool_decide (a = backslash) then
        match s1 with
        | String "u" (String h1 (String h2 (String h3 (String h4 rest)))) =>
            let r := hex4 h1 h2 h3 h4 in
            if (55296 <=? r)%Z && (r <=? 56319)%Z then
              match low_surrogate rest with
              | Some (r2, rest2) => encode_rune ((r - 55296) * 1024 + (r2 - 56320) + 65536)%Z +:+ unquote fuel rest2
              | None => replacement +:+ unquote fuel rest
              end
            else encode_rune r +:+ unquote fuel rest
        | String e rest => String (escape_value e) (unquote fuel rest)
        | EmptyString => EmptyString
        end
      else
        match rune_width s with
        | Some w => first_bytes w s +:+ unquote fuel (drop_bytes w s)
        | None => replacement +:+ unquote fuel s1
        end
  | _, _ => EmptyString
  end.

(** ** Values *)

(** [scanner.maxNestingDepth] *)
Definition maxNestingDepth : nat := N.to_nat 10000.

Fixpoint parse_value (fuel depth : nat) (s : string) {struct fuel} : option (json * string) :=
  match fuel with
  | 0 => None
  | S fuel =>
      match skip_space s with
      | EmptyString => None
      | String a s1 =>
          if bool_decide (a = "{"%char) then
            match depth with
            | 0 => None
            | S depth =>
                match skip_space s1 with
                | String "}" rest => Some (VObject [], rest)
                | _ => '(l, rest) ← parse_members fuel depth s1; Some (VObject l, rest)
                end
            end
          else if bool_decide (a = "["%char) then
            match depth with
            | 0 => None
            | S depth =>
                match skip_space s1 with
                | String "]" rest => Some (VArray [], rest)
                | _ => '(l, rest) ← parse_elements fuel depth s1; Some (VArray l, rest)
                end
            end
          else if bool_decide (a = quote_byte) then
            '(raw, rest) ← scan_string s1; Some (VString (unquote (len raw) raw), rest)
          else if HasPrefix (String a s1) "true" then Some (VBool true, slice_from 4 (String a s1))
          else if HasPrefix (String a s1) "false" then Some (VBool false, slice_from 5 (String a s1))
          else if HasPrefix (String a s1) "null" then Some (VNull, slice_from 4 (String a s1))
          else '(n, rest) ← scan_number (String a s1); Some (VNumber n, rest)
      end
  end
with parse_members (fuel depth : nat) (s : string) {struct fuel} : option (list (string * json) * string) :=
  match fuel with
  | 0 => None
  | S fuel =>
      match skip_space s with
      | String a s1 =>
          if bool_decide (a = quote_byte) then
            '(raw, s2) ← scan_string s1;
            match skip_space s2 with
            | String ":" s3 =>
                '(v, s4) ← parse_value fuel depth s3;
                let kv := (unquote (len raw) raw, v) in
                match skip_space s4 with
                | String "}" rest => Some ([kv], rest)
                | String "," s5 => '(l, rest) ← parse_members fuel depth s5; Some (kv :: l, rest)
                | _ => None
                end
            | _ => None
            end
          else None
      | EmptyString => None
      end
  end
with parse_elements (fuel depth : nat) (s : string) {struct fuel} : option (list json * string) :=
  match fuel with
  | 0 => None
  | S fuel =>
      '(v, s1) ← parse_value fuel depth s;
      match skip_space s1 with
      | String "]" rest => Some ([v], rest)
      | String "," s2 => '(l, rest) ← parse_elements fuel depth s2; Some (v :: l, rest)
      | _ => None
      end
  end.

(** A whole text.  Every call below [parse_value] but the first consumes a byte,
    and an element takes two calls, so twice the length is fuel enough. *)
Definition parse (s : string) : option json :=
  '(v, rest) ← parse_value (2 * len s + 2) maxNestingDepth s;
  if bool_decide (skip_space rest = "") then Some v else None.

(** ** Decoding into a struct *)

(** The values of the fields with this name (lower-case letters), up to case. *)
Fixpoint struct_field (name : string) (l : list (string * json)) : list json :=
  match l with
  | [] => []
  | (k, v) :: l => if EqualFold k name then v :: struct_field name l else struct_field name l
  end.

(** Assign the occurrences of one field in turn; an error is kept to the end. *)
Fixpoint assign {A} (conv : json → option (option A)) (cur : A) (ok : bool) (l : list json) : A * bool :=
  match l with
  | [] => (cur, ok)
  | v :: l =>
      match conv v with
      | Some (Some a) => assign conv a ok l
      | Some None => assign conv cur ok l
      | None => assign conv cur false l
      end
  end.

Definition as_string (v : json) : option (option string) :=
  match v with VString s => Some (Some s) | VNull => Some None | _ => None end.

Definition as_bool (v : json) : option (option bool) :=
  match v with VBool b => Some (Some b) | VNull => Some None | _ => None end.

Definition as_int (v : json) : option (option Z) :=
  match v with
  | VNumber n => match ParseInt n with Some z => Some (Some z) | None => None end
  | VNull => Some None
  | _ => None
  end.

(** The members a struct is decoded from; [null] decodes into nothing. *)
Definition struct_members (body : string) : option (list (string * json)) :=
  match parse body with
  | Some (VObject l) => Some l
  | Some VNull => Some []
  | _ => None
  end.

(** ** Quoting *)

Definition hex_escape (n : nat) : string :=
  String backslash ("u00" +:+ String (hex_digit (n / 16)) (String (hex_digit (n mod 16)) "")).

Definition quote_ascii (a : ascii) : string :=
  let n := nat_of_ascii a in
  if bool_decide (a = quote_byte) || bool_decide (a = backslash) then String backslash (String a "")
  else if (n =? 8)%nat then String backslash "b"
  else if (n =? 12)%nat then String backslash "f"
  else if (n =? 10)%nat then String backslash "n"
  else if (n =? 13)%nat then String backslash "r"
  else if (n =? 9)%nat then String backslash "t"
  else if (n <? 32)%nat || bool_decide (a ∈ ["<"; ">"; "&"]%char) then hex_escape n
  else String a "".

(** [appendString] after the coercion to UTF-8: the line separators U+2028 and
    U+2029 are escaped. *)
Fixpoint quote_bytes (s : string) : string :=
  match s with
  | EmptyString => EmptyString
  | String a s' =>
      match a, s' with
      | a, String b (String c s2) =>
          if bool_decide ((nat_of_ascii a, nat_of_ascii b) = (226, 128)) && bool_decide (nat_of_ascii c ∈ [168; 169]) then
            String backslash ("u202" +:+ String (if (nat_of_ascii c =? 168)%nat then "8" else "9")%char "") +:+ quote_bytes s2
          else quote_ascii a +:+ quote_bytes s'
      | _, _ => quote_ascii a +:+ quote_bytes s'
      end
  end.

Definition quote (s : string) : string := String quote_byte (quote_bytes (json_text s)) +:+ String quote_byte "".

(** ** Writing *)

Definition less_key (a b : string * json) : bool := String.ltb a.1 b.1.

(** A Go map as it is written: one entry per key, the keys in order. *)
Definition json_map (l : list (string * json)) : json :=
  VObject (stable_sort less_key (map_to_list (foldl (λ (m : gmap string json) kv, <[kv.1 := kv.2]> m) ∅ l))).

(** The later entries replace the earlier ones. *)
Definition json_merge (base : json) (l : list (string * json)) : json :=
  match base with VObject b => json_map (b ++ l) | _ => json_map l end.

(** [json.Marshal]: compact, the members of an object as they come. *)
Fixpoint print (v : json) : string :=
  match v with
  | VNull => "null"
  | VBool b => if b then "true" else "false"
  | VNumber n => n
  | VString s => quote s
  | VArray l => "[" +:+ GoStrings.Join "," (map print l) +:+ "]"
  | VObject l => "{" +:+ GoStrings.Join "," (map (λ kv, quote kv.1 +:+ ":" +:+ print kv.2) l) +:+ "}"
  end.

Definition json_int (z : Z) : json := VNumber (format_int z).

(** ** Examples *)

Example print_map :
  print (json_map [("type", VString "error"); ("code", VString "x"); ("code", VString "y")]) =
  "{" +:+ quote "code" +:+ ":" +:+ quote "y" +:+ "," +:+ quote "type" +:+ ":" +:+ quote "error" +:+ "}".
Proof. vm_compute. reflexivity. Qed.

Example parse_object :
  parse (" {" +:+ quote "id" +:+ " : " +:+ quote "a/b" +:+ ", " +:+ quote "n" +:+ ":[-1.5e3, 0,true,null ,{}]} ") =
  Some (VObject [("id", VString "a/b");
    ("n", VArray [VNumber "-1.5e3"; VNumber "0"; VBool true; VNull; VObject []])]).
Proof. vm_compute. reflexivity. Qed.

Example parse_rejects :
  parse <$> ["01"; "1."; "{"; "[1,]"; "{1:2}"; "nul"; "true x"; ""; "-"; "1e"] = replicate 10 None.
Proof. vm_compute. reflexivity. Qed.

Example quote_round :
  (λ s, parse (quote s)) <$> ["plain"; "a<b&c>d"; String quote_byte "x"; String backslash (String (ascii_of_nat 10) "y"); of_bytes [226; 128; 168; 65]] =
  (λ s, Some (VString s)) <$> ["plain"; "a<b&c>d"; String quote_byte "x"; String backslash (String (ascii_of_nat 10) "y"); of_bytes [226; 128; 168; 65]].
Proof. vm_compute. reflexivity. Qed.

Example parse_surrogates :
  parse (String quote_byte (String backslash "ud83d" +:+ String backslash "ude00" +:+ String backslash "ud800" +:+ String quote_byte "")) =
  Some (VString (of_bytes [240; 159; 152; 128] +:+ replacement)).
Proof. vm_compute. reflexivity. Qed.
