(* ===== verification/Session.v ===== *)
(** * Persistent SSH sessions: daemon/ssh_session.go

    The manager keeps, per peer, the newest clip that peer has not confirmed
    ([m_pending]), the session that carries it and a runtime status.  A session is
    an object with identity: goroutines hold a pointer to theirs and every update
    first checks that the manager still has that very session.  Sessions live in
    a heap [m_heap] and [m_sessions] maps peer IDs to addresses.  One connection
    attempt ([runPeerOnce]) is a state machine over the events its [select] takes:
    an acknowledgement, a clip from the session's channel, an error, the timer. *)
From S2P Require Import Prelude GoStrings Clip Hostnames Nonce Auth Stream Config.
From Stdlib Require Import Ascii String.
From stdpp Require Import strings.

Record sshSyncPeer := MkSyncPeer {
  sp_id : string;
  sp_user : string;
  sp_host : string;
  sp_port : Z;
  sp_privateKeyPath : string;
  sp_knownHostsPath : string;
  sp_gatewayPath : string;
  sp_connectKeyID : string;
  sp_directGateway : bool;
}.

#[export] Instance sync_peer_eq_dec : EqDecision sshSyncPeer.
Proof. solve_decision. Defined.

Record sshOutboundState := MkOutbound {
  ob_content : Content;
  ob_origin : string;
}.

#[export] Instance outbound_eq_dec : EqDecision sshOutboundState.
Proof. solve_decision. Defined.

(** [send] is a channel of capacity one. *)
Record sshPeerSession := MkSession {
  ss_peer : sshSyncPeer;
  ss_send : option sshOutboundState;
  ss_canceled : bool;
}.

Record SSHPeerRuntimeState := MkRuntime {
  rt_PeerID : string;
  rt_Active : bool;
  rt_Pending : bool;
  rt_Status : string;
  rt_LastConnectTS : time;
  rt_LastAckTS : time;
  rt_LastRecvTS : time;
  rt_LastError : string;
  rt_LastErrorTS : time;
}.

Definition zero_runtime : SSHPeerRuntimeState :=
  MkRuntime "" false false "" zero_time zero_time zero_time "" zero_time.

Record Manager := MkManager {
  m_localID : string;
  m_peers : list sshSyncPeer;
  m_heap : gmap nat sshPeerSession;
  m_sessions : gmap string nat;
  m_pending : gmap string sshOutboundState;
  m_runtime : gmap string SSHPeerRuntimeState;
  m_started : bool;
}.

Definition with_peers (m : Manager) (peers : list sshSyncPeer) : Manager :=
  MkManager (m_localID m) peers (m_heap m) (m_sessions m) (m_pending m) (m_runtime m) (m_started m).

Definition with_heap (m : Manager) (h : gmap nat sshPeerSession) : Manager :=
  MkManager (m_localID m) (m_peers m) h (m_sessions m) (m_pending m) (m_runtime m) (m_started m).

Definition with_sessions (m : Manager) (s : gmap string nat) : Manager :=
  MkManager (m_localID m) (m_peers m) (m_heap m) s (m_pending m) (m_runtime m) (m_started m).

Definition with_pending (m : Manager) (p : gmap string sshOutboundState) : Manager :=
  MkManager (m_localID m) (m_peers m) (m_heap m) (m_sessions m) p (m_runtime m) (m_started m).

Definition with_runtime (m : Manager) (r : gmap string SSHPeerRuntimeState) : Manager :=
  MkManager (m_localID m) (m_peers m) (m_heap m) (m_sessions m) (m_pending m) r (m_started m).

Definition with_started (m : Manager) : Manager :=
  MkManager (m_localID m) (m_peers m) (m_heap m) (m_sessions m) (m_pending m) (m_runtime m) true.

(** ** Peers from the configuration *)

Definition usable_peer (peer : SSHPeer) : bool :=
  Enabled peer && Connect peer && Persistent peer && bool_decide (MigrationState peer = MigrationStateSSHKeysReady).

Definition sync_peer (ssh : SSHConfig) (peer : SSHPeer) : sshSyncPeer :=
  let gatewayPath := if bool_decide (GatewayPath peer = "") then ConnectGatewayPath (Proof_ peer) else GatewayPath peer in
  MkSyncPeer (peer_ID peer) (SSHUser peer) (SSHHost peer) (SSHPort peer) (SyncKey ssh) (KnownHosts ssh) gatewayPath
    (ConnectKeyID (Proof_ peer)) (bool_decide (ConnectVerifiedBy (Proof_ peer) = ProofVerifiedByTailscaleSSH)).

(** The loop: [n] peers are taken so far. *)
Fixpoint sync_peers (ssh : SSHConfig) (n : nat) (peers : list SSHPeer) : list sshSyncPeer :=
  match peers with
  | [] => []
  | peer :: peers =>
      if negb (usable_peer peer) then sync_peers ssh n peers
      else if (0 <? MaxSessions ssh)%Z && (MaxSessions ssh <=? Z.of_nat n)%Z then []
      else sync_peer ssh peer :: sync_peers ssh (S n) peers
  end.

Definition sshSyncPeersFromConfig (cfg : option Config) : list sshSyncPeer :=
  match cfg with
  | None => []
  | Some cfg =>
      if negb (bool_decide (Transport cfg = TransportSSH)) then []
      else
        match SSH cfg with
        | None => []
        | Some ssh =>
            if bool_decide (SyncKey ssh = "") || bool_decide (KnownHosts ssh = "") then []
            else sync_peers ssh 0 (Peers ssh)
        end
  end.

Definition newSSHSyncManager (cfg : option Config) (localID : string) : Manager :=
  MkManager localID (sshSyncPeersFromConfig cfg) ∅ ∅ ∅ ∅ false.

(** ** Runtime status *)

Definition sshPeerRuntimeStatus (state : SSHPeerRuntimeState) : string :=
  if rt_Active state then (if rt_Pending state then "syncing" else "live")
  else if bool_decide (rt_Status state = "connecting") then "connecting"
  else if negb (bool_decide (rt_LastError state = "")) then "attention"
  else "waiting".

Definition pendingContainsLocked (m : Manager) (peerID : string) : bool := bool_decide (is_Some (m_pending m !! peerID)).

Definition ensurePeerRuntimeLocked (m : Manager) (peerID : string) : SSHPeerRuntimeState :=
  let state := default zero_runtime (m_runtime m !! peerID) in
  if bool_decide (rt_PeerID state = "") then
    MkRuntime peerID (rt_Active state) (rt_Pending state) (rt_Status state) (rt_LastConnectTS state) (rt_LastAckTS state)
      (rt_LastRecvTS state) (rt_LastError state) (rt_LastErrorTS state)
  else state.

Definition set_status (state : SSHPeerRuntimeState) (status : string) : SSHPeerRuntimeState :=
  MkRuntime (rt_PeerID state) (rt_Active state) (rt_Pending state) status (rt_LastConnectTS state) (rt_LastAckTS state)
    (rt_LastRecvTS state) (rt_LastError state) (rt_LastErrorTS state).

Definition set_flags (state : SSHPeerRuntimeState) (active pending : bool) : SSHPeerRuntimeState :=
  MkRuntime (rt_PeerID state) active pending (rt_Status state) (rt_LastConnectTS state) (rt_LastAckTS state)
    (rt_LastRecvTS state) (rt_LastError state) (rt_LastErrorTS state).

Definition markPeerConnectingLocked (m : Manager) (peerID : string) : Manager :=
  let state := ensurePeerRuntimeLocked m peerID in
  let state := set_flags state false (pendingContainsLocked m peerID) in
  with_runtime m (<[peerID := set_status state "connecting"]> (m_runtime m)).

(** The three "it works" marks: they set one timestamp and clear the error. *)
Inductive mark := MarkConnected | MarkAcked | MarkReceived.

Definition mark_time (k : mark) (now : time) (state : SSHPeerRuntimeState) : SSHPeerRuntimeState :=
  MkRuntime (rt_PeerID state) (rt_Active state) (rt_Pending state) (rt_Status state)
    (match k with MarkConnected => now | _ => rt_LastConnectTS state end)
    (match k with MarkAcked => now | _ => rt_LastAckTS state end)
    (match k with MarkReceived => now | _ => rt_LastRecvTS state end)
    "" zero_time.

Definition mark_peer (k : mark) (m : Manager) (peerID : string) (now : time) : Manager :=
  let state := ensurePeerRuntimeLocked m peerID in
  let state := set_flags state true (pendingContainsLocked m peerID) in
  let state := mark_time k now state in
  with_runtime m (<[peerID := set_status state (sshPeerRuntimeStatus state)]> (m_runtime m)).

Definition markPeerConnectedLocked : Manager → string → time → Manager := mark_peer MarkConnected.

Definition markPeerAckedLocked : Manager → string → time → Manager := mark_peer MarkAcked.

Definition markPeerReceivedLocked : Manager → string → time → Manager := mark_peer MarkReceived.

Definition markPeerPendingLocked (m : Manager) (peerID : string) (pending : bool) : Manager :=
  let state := ensurePeerRuntimeLocked m peerID in
  let state := set_flags state (rt_Active state) (pending || pendingContainsLocked m peerID) in
  with_runtime m (<[peerID := set_status state (sshPeerRuntimeStatus state)]> (m_runtime m)).

Definition markPeerErrorLocked (m : Manager) (peerID : string) (err : option string) (now : time) : Manager :=
  let state := ensurePeerRuntimeLocked m peerID in
  let state := set_flags state false (pendingContainsLocked m peerID) in
  let state :=
    match err with
    | Some e =>
        MkRuntime (rt_PeerID state) (rt_Active state) (rt_Pending state) (rt_Status state) (rt_LastConnectTS state)
          (rt_LastAckTS state) (rt_LastRecvTS state) e now
    | None => state
    end in
  with_runtime m (<[peerID := set_status state "attention"]> (m_runtime m)).

(** [Snapshot]: the status of every configured peer. *)
Definition snapshot_peer (m : Manager) (peer : sshSyncPeer) : SSHPeerRuntimeState :=
  let state := default zero_runtime (m_runtime m !! sp_id peer) in
  let state :=
    MkRuntime (sp_id peer) (rt_Active state) (rt_Pending state || pendingContainsLocked m (sp_id peer)) (rt_Status state)
      (rt_LastConnectTS state) (rt_LastAckTS state) (rt_LastRecvTS state) (rt_LastError state) (rt_LastErrorTS state) in
  set_status state (sshPeerRuntimeStatus state).

Definition Snapshot (m : Manager) : gmap string SSHPeerRuntimeState :=
  foldl (λ out peer, <[sp_id peer := snapshot_peer m peer]> out) ∅ (m_peers m).

(** ** Sessions *)

(** [m.sessions[session.peer.id] == session], for the session at address [a]. *)
Definition session_current (m : Manager) (a : nat) : bool :=
  match m_heap m !! a with
  | None => false
  | Some s => bool_decide (m_sessions m !! sp_id (ss_peer s) = Some a)
  end.

Definition session_peer_id (m : Manager) (a : nat) : string :=
  match m_heap m !! a with Some s => sp_id (ss_peer s) | None => "" end.

(** A guarded update: nothing happens for a session the manager has replaced. *)
Definition if_current (m : Manager) (a : nat) (f : Manager → Manager) : Manager * bool :=
  if session_current m a then (f m, true) else (m, false).

Definition startPeerLocked (m : Manager) (peer : sshSyncPeer) : Manager :=
  let a := fresh (dom (m_heap m)) in
  let m := with_heap m (<[a := MkSession peer None false]> (m_heap m)) in
  let m := with_sessions m (<[sp_id peer := a]> (m_sessions m)) in
  markPeerConnectingLocked m (sp_id peer).

Definition Start (m : Manager) : Manager :=
  if m_started m then m
  else
    let m := with_started m in
    foldl startPeerLocked m (m_peers m).

Definition cancel_session (m : Manager) (a : nat) : Manager :=
  with_heap m (alter (λ s, MkSession (ss_peer s) (ss_send s) true) a (m_heap m)).

(** One turn of the first loop of [Refresh]. *)
Definition refresh_session (nextByID : gmap string sshSyncPeer) (m : Manager) (x : string * nat) : Manager :=
  let '(peerID, a) := x in
  let next := nextByID !! peerID in
  let same :=
    match next, m_heap m !! a with
    | Some p, Some s => bool_decide (ss_peer s = p)
    | _, _ => false
    end in
  if same then m
  else
    let m := cancel_session m a in
    let m := with_sessions m (delete peerID (m_sessions m)) in
    match next with
    | Some _ => m
    | None => with_runtime (with_pending m (delete peerID (m_pending m))) (delete peerID (m_runtime m))
    end.

Definition refresh_start (m : Manager) (peer : sshSyncPeer) : Manager :=
  match m_sessions m !! sp_id peer with
  | Some _ => m
  | None => startPeerLocked m peer
  end.

(** [Refresh], for the order in which Go ranges over the sessions. *)
Definition Refresh (order : list (string * nat)) (m : Manager) (cfg : option Config) : Manager :=
  let nextPeers := sshSyncPeersFromConfig cfg in
  let nextByID := foldl (λ acc p, <[sp_id p := p]> acc) ∅ nextPeers in
  let m := with_peers m nextPeers in
  let m := foldl (refresh_session nextByID) m order in
  if m_started m then foldl refresh_start m nextPeers else m.

(** [enqueueLatestSSHState] when nothing else touches the channel. *)
Definition enqueueLatestSSHState (m : Manager) (a : nat) (state : sshOutboundState) : Manager :=
  with_heap m (alter (λ s, MkSession (ss_peer s) (Some state) (ss_canceled s)) a (m_heap m)).

Definition drainQueuedDuplicateSSHState (m : Manager) (a : nat) (state : sshOutboundState) : Manager :=
  with_heap m
    (alter (λ s,
       MkSession (ss_peer s)
         (match ss_send s with
          | Some queued => if bool_decide (ID (ob_content queued) = ID (ob_content state)) then None else Some queued
          | None => None
          end) (ss_canceled s)) a (m_heap m)).

Definition publish_to (state : sshOutboundState) (m : Manager) (peerID : string) : Manager :=
  let m := with_pending m (<[peerID := state]> (m_pending m)) in
  let m := markPeerPendingLocked m peerID true in
  match m_sessions m !! peerID with
  | Some a => enqueueLatestSSHState m a state
  | None => m
  end.

Definition skipped (skipOrigin peerID : string) : bool :=
  negb (bool_decide (skipOrigin = "")) && HostsMatch peerID skipOrigin.

(** [Publish]: every configured peer, then every session left that is not one. *)
Definition Publish (order : list (string * nat)) (m : Manager) (content : Content) (origin skipOrigin : string) : Manager :=
  if (MaxSSHStreamPayloadBytes <? Z.of_nat (len (Bytes content)))%Z then m
  else
    let state := MkOutbound content origin in
    let targets := filter (λ p, skipped skipOrigin p = false) (sp_id <$> m_peers m) in
    let m := foldl (publish_to state) m targets in
    let others := filter (λ p, p ∉ targets ∧ skipped skipOrigin p = false) order.*1 in
    foldl (publish_to state) m others.

(** ** Acknowledgements *)

Definition qualifyingSSHStreamAck (ack : SSHStreamAckResult) (state : sshOutboundState) : bool :=
  if bool_decide (ID (ob_content state) = "") then
    bool_decide (ar_ID ack = "") && bool_decide (ar_Status ack = "no_state")
  else if negb (bool_decide (ar_ID ack = ID (ob_content state))) then false
  else bool_decide (ar_Status ack ∈ ["applied"; "ignored_seen"; "ignored_echo"]).

(** Forget the pending clip if it is still the one that was sent. *)
Definition clear_pending (m : Manager) (peerID : string) (state : sshOutboundState) : Manager :=
  match m_pending m !! peerID with
  | Some pending =>
      if bool_decide (ID (ob_content pending) = ID (ob_content state)) then
        markPeerPendingLocked (with_pending m (delete peerID (m_pending m))) peerID false
      else m
  | None => m
  end.

Definition clearPendingAndMarkAckedIfSessionCurrent (m : Manager) (a : nat) (state : sshOutboundState) (now : time) : Manager :=
  (if_current m a (λ m, markPeerAckedLocked (clear_pending m (session_peer_id m a) state) (session_peer_id m a) now)).1.

Definition clearPendingIfSessionCurrent (m : Manager) (a : nat) (state : sshOutboundState) : Manager :=
  (if_current m a (λ m, clear_pending m (session_peer_id m a) state)).1.

Definition rememberPendingIfSessionCurrent (m : Manager) (a : nat) (state : sshOutboundState) : Manager :=
  (if_current m a (λ m,
     let peerID := session_peer_id m a in
     match m_pending m !! peerID with
     | Some pending =>
         if bool_decide (ID (ob_content pending) = ID (ob_content state))
         then with_pending m (<[peerID := state]> (m_pending m)) else m
     | None => with_pending m (<[peerID := state]> (m_pending m))
     end)).1.

(** The manager, the frames in flight and whether one was removed. *)
Definition handleSSHStreamAck (m : Manager) (a : nat) (inflight : gmap Z sshOutboundState) (ack : SSHStreamAckResult) (now : time) :
    Manager * gmap Z sshOutboundState * bool :=
  match inflight !! ar_Seq ack with
  | None => (m, inflight, false)
  | Some state =>
      let inflight := delete (ar_Seq ack) inflight in
      if qualifyingSSHStreamAck ack state then (clearPendingAndMarkAckedIfSessionCurrent m a state now, inflight, true)
      else if bool_decide (ar_Status ack = "rejected") && bool_decide (ar_ID ack = ID (ob_content state)) then
        (clearPendingIfSessionCurrent m a state, inflight, true)
      else (m, inflight, true)
  end.

(** ** One connection attempt *)

Record Attempt := MkAttempt {
  at_seq : Z;
  at_inflight : gmap Z sshOutboundState;
  at_timer : bool;
}.

Inductive AttemptError := AttemptCanceled | AttemptWrite | AttemptRead | AckTimeout.

(** [sendState]: the frame it writes as (sequence number, clip) unless the write
    fails or the session was replaced. *)
Definition sendState (m : Manager) (a : nat) (att : Attempt) (state : sshOutboundState) (wok : bool) :
    Manager * Attempt * list (Z * sshOutboundState) * option AttemptError :=
  let currentSeq := ((at_seq att + 1) mod 2 ^ 64)%Z in
  let wasIdle := bool_decide (at_inflight att = ∅) in
  let att := MkAttempt currentSeq (at_inflight att) (at_timer att) in
  let '(m, current) := if_current m a (λ m, markPeerPendingLocked m (session_peer_id m a) true) in
  if negb current then (m, att, [], Some AttemptCanceled)
  else if negb wok then (rememberPendingIfSessionCurrent m a state, att, [], Some AttemptWrite)
  else
    let inflight := <[currentSeq := state]> (at_inflight att) in
    (* [armAckTimerIfIdle] *)
    let timer := at_timer att || wasIdle in
    (m, MkAttempt currentSeq inflight timer, [(currentSeq, state)], None).

Inductive attempt_event :=
| EvAck (ack : SSHStreamAckResult)
| EvReadError
| EvSend (wok : bool)
| EvTimeout
| EvCancel.

(** One turn of the [select] loop.  A case that is not ready (an empty channel,
    an unarmed timer) leaves everything as it is. *)
Definition attempt_step (now : time) (m : Manager) (a : nat) (att : Attempt) (ev : attempt_event) :
    Manager * Attempt * list (Z * sshOutboundState) * option AttemptError :=
  match ev with
  | EvAck ack =>
      let '(m, inflight, removed) := handleSSHStreamAck m a (at_inflight att) ack now in
      (* [resetAckTimerAfterAck] *)
      let timer := if removed then negb (bool_decide (inflight = ∅)) else at_timer att in
      (m, MkAttempt (at_seq att) inflight timer, [], None)
  | EvReadError => (m, att, [], Some AttemptRead)
  | EvSend wok =>
      match m_heap m !! a with
      | Some s =>
          match ss_send s with
          | Some state =>
              let m := with_heap m (<[a := MkSession (ss_peer s) None (ss_canceled s)]> (m_heap m)) in
              sendState m a att state wok
          | None => (m, att, [], None)
          end
      | None => (m, att, [], None)
      end
  | EvTimeout => if at_timer att then (m, att, [], Some AckTimeout) else (m, att, [], None)
  | EvCancel => (m, att, [], Some AttemptCanceled)
  end.

Definition new_attempt : Attempt := MkAttempt 0 ∅ false.

(** The attempt from the handshake on: mark the peer connected, send what is
    pending, drop the channel's copy of it. *)
Definition attempt_start (now : time) (m : Manager) (a : nat) (wok : bool) :
    Manager * Attempt * list (Z * sshOutboundState) * option AttemptError :=
  let '(m, current) := if_current m a (λ m, markPeerConnectedLocked m (session_peer_id m a) now) in
  if negb current then (m, new_attempt, [], Some AttemptCanceled)
  else
    match m_pending m !! session_peer_id m a with
    | None => (m, new_attempt, [], None)
    | Some state =>
        let '(m, att, out, err) := sendState m a new_attempt state wok in
        match err with
        | Some e => (m, att, out, Some e)
        | None => (drainQueuedDuplicateSSHState m a state, att, out, None)
        end
    end.

(** ** What a peer sends *)

(** [receiveContentIfSessionCurrent]: the clip to hand to [onReceive], if any. *)
Definition receiveContentIfSessionCurrent (m : Manager) (a : nat) (now : time) : Manager * bool :=
  if_current m a (λ m, markPeerReceivedLocked m (session_peer_id m a) now).

Inductive PeerAction :=
| DeliverAndAck (c : Content) (origin : string) (seq : Z) (id status : string)
| AckOnly (seq : Z) (id status : string)
| ForwardAck (ack : SSHStreamAckResult)
| StopReading (canceled : bool).

(** One turn of [readPeerEvents]. *)
Definition readPeerEvent (m : Manager) (a : nat) (ev : SSHStreamEvent) (now : time) : Manager * PeerAction :=
  match ev with
  | EventState result =>
      if bool_decide (sr_NullReason result = "") then
        let '(m, current) := receiveContentIfSessionCurrent m a now in
        if negb current then (m, StopReading true)
        else (m, DeliverAndAck (sr_Content result) (sr_Origin result) (sr_Seq result) (ID (sr_Content result)) "applied")
      else (m, AckOnly (sr_Seq result) "" "no_state")
  | EventAck ack => (m, ForwardAck ack)
  | EventError _ => (m, StopReading false)
  end.

(** ** A connection and everything that happens beside it *)

Record Conn := MkConn {
  cn_m : Manager;
  cn_att : Attempt;
  cn_refused : list string;
}.

(** What can happen while the attempt of a session runs.  [cn_refused] is a
    record, kept for the statements, of the clip IDs the peer answered without
    confirming or rejecting them. *)
Inductive conn_op :=
| CoPublish (order : list (string * nat)) (content : Content) (origin skipOrigin : string)
| CoEvent (now : time) (ev : attempt_event)
| CoPeer (now : time) (ev : SSHStreamEvent).

Definition refused_id (att : Attempt) (ev : attempt_event) : list string :=
  match ev with
  | EvAck ack =>
      match at_inflight att !! ar_Seq ack with
      | Some state =>
          if qualifyingSSHStreamAck ack state || (bool_decide (ar_Status ack = "rejected") && bool_decide (ar_ID ack = ID (ob_content state)))
          then [] else [ID (ob_content state)]
      | None => []
      end
  | _ => []
  end.

(** One step; [None] when the attempt ends.  The frames it writes come with it. *)
Definition conn_do (a : nat) (c : Conn) (op : conn_op) : option (Conn * list (Z * sshOutboundState)) :=
  match op with
  | CoPublish order content origin skipOrigin =>
      Some (MkConn (Publish order (cn_m c) content origin skipOrigin) (cn_att c) (cn_refused c), [])
  | CoEvent now ev =>
      let '(m, att, out, err) := attempt_step now (cn_m c) a (cn_att c) ev in
      match err with
      | Some _ => None
      | None => Some (MkConn m att (cn_refused c ++ refused_id (cn_att c) ev), out)
      end
  | CoPeer now ev => Some (MkConn (readPeerEvent (cn_m c) a ev now).1 (cn_att c) (cn_refused c), [])
  end.

Fixpoint conn_run (a : nat) (c : Conn) (ops : list conn_op) : option (Conn * list (Z * sshOutboundState)) :=
  match ops with
  | [] => Some (c, [])
  | op :: ops =>
      match conn_do a c op with
      | None => None
      | Some (c, out) =>
          match conn_run a c ops with
          | None => None
          | Some (c, out') => Some (c, out ++ out')
          end
      end
  end.

(** ** Invariants *)

(** Every session the manager has is in the heap under its own peer's ID. *)
Definition manager_wf (m : Manager) : Prop :=
  ∀ p a, m_sessions m !! p = Some a → ∃ s, m_heap m !! a = Some s ∧ sp_id (ss_peer s) = p.

(** The clip a peer still has to confirm is on its way: queued, in flight, or
    answered without being confirmed. *)
Definition covered (a : nat) (c : Conn) : Prop :=
  ∀ s state, m_heap (cn_m c) !! a = Some s → m_pending (cn_m c) !! sp_id (ss_peer s) = Some state →
    ss_send s = Some state ∨
    (∃ q state', at_inflight (cn_att c) !! q = Some state' ∧ ID (ob_content state') = ID (ob_content state)) ∨
    ID (ob_content state) ∈ cn_refused c.

Record conn_ok (a : nat) (c : Conn) : Prop := {
  co_wf : manager_wf (cn_m c);
  co_current : session_current (cn_m c) a = true;
  co_covered : covered a c;
  co_timer : at_timer (cn_att c) = negb (bool_decide (at_inflight (cn_att c) = ∅));
  co_seq : (0 ≤ at_seq (cn_att c))%Z;
  co_inflight q : is_Some (at_inflight (cn_att c) !! q) → (q ≤ at_seq (cn_att c))%Z;
}.

(** ** Lemmas: manager updates *)

(** Updates that only change pending clips and statuses. *)
Definition same_sessions (m m' : Manager) : Prop :=
  m_heap m' = m_heap m ∧ m_sessions m' = m_sessions m ∧ m_peers m' = m_peers m ∧ m_started m' = m_started m.

Lemma same_sessions_wf m m' : same_sessions m m' → manager_wf m → manager_wf m'.
Proof. intros (Hh & Hs & _) Hwf p a. rewrite Hh, Hs. apply Hwf. Qed.

Lemma same_sessions_current m m' a : same_sessions m m' → session_current m' a = session_current m a.
Proof. intros (Hh & Hs & _). unfold session_current. by rewrite Hh, Hs. Qed.

Lemma same_sessions_id m m' a : same_sessions m m' → session_peer_id m' a = session_peer_id m a.
Proof. intros (Hh & _). unfold session_peer_id. by rewrite Hh. Qed.

Lemma clear_pending_same m p st : same_sessions m (clear_pending m p st).
Proof. unfold clear_pending. by repeat case_match. Qed.

Definition same_clip (pending : option sshOutboundState) (st : sshOutboundState) : bool :=
  match pending with Some s => bool_decide (ID (ob_content s) = ID (ob_content st)) | None => false end.

Lemma clear_pending_lookup m p st q :
  m_pending (clear_pending m p st) !! q =
  if bool_decide (q = p) && same_clip (m_pending m !! p) st then None else m_pending m !! q.
Proof.
  unfold clear_pending, same_clip. destruct (m_pending m !! p) as [s|] eqn:Hp; [|by rewrite andb_false_r].
  case_bool_decide as Hid; [|by rewrite andb_false_r]. rewrite andb_true_r. simpl.
  case_bool_decide as Hq; [subst; apply lookup_delete_eq|by apply lookup_delete_ne].
Qed.

Lemma handle_ack_same m a inflight ack now :
  same_sessions m (handleSSHStreamAck m a inflight ack now).1.1.
Proof.
  unfold handleSSHStreamAck, clearPendingAndMarkAckedIfSessionCurrent, clearPendingIfSessionCurrent, if_current.
  repeat case_match; try done; apply clear_pending_same.
Qed.

Lemma publish_to_frame state m p :
  m_sessions (publish_to state m p) = m_sessions m ∧ m_peers (publish_to state m p) = m_peers m ∧
  m_pending (publish_to state m p) = <[p := state]> (m_pending m) ∧
  ∀ a, m_heap (publish_to state m p) !! a =
    match m_heap m !! a with
    | Some s => Some (if bool_decide (m_sessions m !! p = Some a) then MkSession (ss_peer s) (Some state) (ss_canceled s) else s)
    | None => None
    end.
Proof.
  unfold publish_to. simpl. destruct (m_sessions m !! p) as [b|] eqn:Hb; simpl; split_and!; try done; intros a.
  - destruct (decide (b = a)) as [->|Hne].
    + rewrite lookup_alter_eq. destruct (m_heap m !! a); simpl; [|done]. by rewrite bool_decide_eq_true_2.
    + rewrite lookup_alter_ne by done. destruct (m_heap m !! a); [|done]. rewrite bool_decide_eq_false_2; [done|congruence].
  - by destruct (m_heap m !! a).
Qed.

Lemma publish_all_frame state l m :
  m_sessions (foldl (publish_to state) m l) = m_sessions m ∧ m_peers (foldl (publish_to state) m l) = m_peers m ∧
  (∀ p, m_pending (foldl (publish_to state) m l) !! p = if bool_decide (p ∈ l) then Some state else m_pending m !! p) ∧
  ∀ a, m_heap (foldl (publish_to state) m l) !! a =
    match m_heap m !! a with
    | Some s => Some (if existsb (λ p, bool_decide (m_sessions m !! p = Some a)) l
                      then MkSession (ss_peer s) (Some state) (ss_canceled s) else s)
    | None => None
    end.
Proof.
  revert m. induction l as [|q l IH]; intros m; simpl.
  { split_and!; try done. intros a. by destruct (m_heap m !! a). }
  destruct (publish_to_frame state m q) as (Hs & Hp & Hpend & Hheap).
  destruct (IH (publish_to state m q)) as (IHs & IHp & IHpend & IHheap).
  split_and!; [by rewrite IHs|by rewrite IHp| |].
  - intros p. rewrite IHpend, Hpend. destruct (decide (p = q)) as [->|Hne].
    + rewrite lookup_insert_eq, (bool_decide_eq_true_2 (q ∈ q :: l)) by left. by case_match.
    + rewrite lookup_insert_ne by done. erewrite (bool_decide_ext (p ∈ q :: l)); [done|]. set_solver.
  - intros a. rewrite IHheap, Hheap, Hs. destruct (m_heap m !! a) as [s|]; [|done].
    destruct (bool_decide (m_sessions m !! q = Some a)); simpl; by destruct (existsb _ l).
Qed.

(** The peers a publication is for. *)
Definition publish_targets (order : list (string * nat)) (m : Manager) (skipOrigin : string) : list string :=
  let targets := filter (λ p, skipped skipOrigin p = false) (sp_id <$> m_peers m) in
  targets ++ filter (λ p, p ∉ targets ∧ skipped skipOrigin p = false) order.*1.

Lemma Publish_all order m content origin skipOrigin :
  Publish order m content origin skipOrigin =
  if (MaxSSHStreamPayloadBytes <? Z.of_nat (len (Bytes content)))%Z then m
  else foldl (publish_to (MkOutbound content origin)) m (publish_targets order m skipOrigin).
Proof. unfold Publish, publish_targets. case_match; [done|]. by rewrite foldl_app. Qed.

Lemma publish_targets_elem order m skipOrigin p :
  p ∈ publish_targets order m skipOrigin ↔
  skipped skipOrigin p = false ∧ (p ∈ sp_id <$> m_peers m ∨ p ∈ order.*1).
Proof.
  unfold publish_targets. rewrite elem_of_app, !list_elem_of_filter.
  destruct (decide (p ∈ sp_id <$> m_peers m)); naive_solver.
Qed.

Lemma wf_unique m p q a : manager_wf m → m_sessions m !! p = Some a → m_sessions m !! q = Some a → p = q.
Proof. intros Hwf (s & Hs & <-)%Hwf (s' & Hs' & <-)%Hwf. congruence. Qed.

Lemma current_inv m a :
  session_current m a = true ↔ ∃ s, m_heap m !! a = Some s ∧ m_sessions m !! sp_id (ss_peer s) = Some a.
Proof.
  unfold session_current. destruct (m_heap m !! a); [rewrite bool_decide_eq_true|]; naive_solver.
Qed.

(** ** Lemmas: the connection *)

Lemma covered_weaken a c m att ref :
  covered a c → m_heap m !! a = m_heap (cn_m c) !! a → (∀ s, m_heap (cn_m c) !! a = Some s →
    ∀ st, m_pending m !! sp_id (ss_peer s) = Some st →
      m_pending (cn_m c) !! sp_id (ss_peer s) = Some st ∧
      ∀ q st', at_inflight (cn_att c) !! q = Some st' → ID (ob_content st') = ID (ob_content st) →
        (∃ q' st'', at_inflight att !! q' = Some st'' ∧ ID (ob_content st'') = ID (ob_content st)) ∨
        ID (ob_content st) ∈ ref) →
  (∀ id, id ∈ cn_refused c → id ∈ ref) → covered a (MkConn m att ref).
Proof.
  intros Hcov Hheap Hpend Href s st Hs Hst. simpl in *. rewrite Hheap in Hs.
  destruct (Hpend s Hs st Hst) as [Hst' Hin]. destruct (Hcov s st Hs Hst') as [?|[(q & st' & Hq & Hid)|?]]; eauto.
Qed.

Lemma publish_conn_ok a c order content origin skipOrigin :
  conn_ok a c → conn_ok a (MkConn (Publish order (cn_m c) content origin skipOrigin) (cn_att c) (cn_refused c)).
Proof.
  intros [Hwf Hcur Hcov Htimer Hseq Hfl]. rewrite Publish_all. destruct (_ <? _)%Z; [by destruct c|].
  set (l := publish_targets _ _ _). set (state := MkOutbound content origin).
  destruct (publish_all_frame state l (cn_m c)) as (Hs & Hp & Hpend & Hheap).
  assert (Hwf' : manager_wf (foldl (publish_to state) (cn_m c) l)).
  { intros p b. rewrite Hs. intros Hb. destruct (Hwf p b Hb) as (s & Hsb & Hid). rewrite Hheap, Hsb.
    eexists. split; [done|]. by destruct (existsb _ _). }
  apply current_inv in Hcur as (s & Hsa & Hcur).
  split; simpl; [done| | |done|done|done].
  - apply current_inv. rewrite Hheap, Hsa, Hs. eexists. split; [done|]. by destruct (existsb _ _).
  - intros s' st. simpl. rewrite Hheap, Hsa, Hpend. intros [= <-].
    destruct (existsb (λ p, bool_decide (m_sessions (cn_m c) !! p = Some a)) l) eqn:Hex; simpl.
    + destruct (bool_decide (sp_id (ss_peer s) ∈ l)) eqn:Hin; [intros [= ->]; by left|]. intros _. exfalso.
      apply bool_decide_eq_false in Hin. apply existsb_exists in Hex as (p & Hpl%list_elem_of_In & Hpa%bool_decide_eq_true).
      apply Hin. by rewrite (wf_unique _ _ _ _ Hwf Hcur Hpa).
    + rewrite bool_decide_eq_false_2; [by apply Hcov|]. intros Hin.
      assert (existsb (λ p, bool_decide (m_sessions (cn_m c) !! p = Some a)) l = true); [|congruence].
      apply existsb_exists. exists (sp_id (ss_peer s)). split; [by apply list_elem_of_In|]. by apply bool_decide_eq_true.
Qed.

Lemma peer_conn_ok a c now ev :
  conn_ok a c → conn_ok a (MkConn (readPeerEvent (cn_m c) a ev now).1 (cn_att c) (cn_refused c)).
Proof.
  intros [Hwf Hcur Hcov Htimer Hseq Hfl].
  assert (same_sessions (cn_m c) (readPeerEvent (cn_m c) a ev now).1 ∧
    m_pending (readPeerEvent (cn_m c) a ev now).1 = m_pending (cn_m c)) as [Hsame Hpend].
  { unfold same_sessions, readPeerEvent, receiveContentIfSessionCurrent, if_current.
    repeat case_match; simplify_eq/=; split_and!; done. }
  split; simpl; [by eapply same_sessions_wf|by rewrite (same_sessions_current _ _ _ Hsame)| |done|done|done].
  destruct c as [m att ref]; simpl in *. eapply covered_weaken; [exact Hcov| | |done]; simpl.
  - by destruct Hsame as (-> & _).
  - intros s Hs st Hst. rewrite Hpend in Hst. split; [done|]. intros q st' Hq Hid. left. by exists q, st'.
Qed.

(** What an acknowledgement does to the pending clip of the session's peer. *)
Lemma handle_ack_pending m a inflight ack now s st :
  session_current m a = true → m_heap m !! a = Some s →
  m_pending (handleSSHStreamAck m a inflight ack now).1.1 !! sp_id (ss_peer s) = Some st →
  m_pending m !! sp_id (ss_peer s) = Some st ∧
  ∀ state0, inflight !! ar_Seq ack = Some state0 → ID (ob_content state0) = ID (ob_content st) →
    qualifyingSSHStreamAck ack state0 = false ∧
    bool_decide (ar_Status ack = "rejected") && bool_decide (ar_ID ack = ID (ob_content state0)) = false.
Proof.
  intros Hcur Hs. unfold handleSSHStreamAck. destruct (inflight !! ar_Seq ack) as [state0|] eqn:Hq; [|naive_solver].
  assert (Hclear : ∀ b, m_pending (clear_pending m (session_peer_id m a) state0) !! sp_id (ss_peer s) = Some b →
    m_pending m !! sp_id (ss_peer s) = Some b ∧ ID (ob_content state0) ≠ ID (ob_content b)).
  { intros b. rewrite clear_pending_lookup. unfold session_peer_id. rewrite Hs, bool_decide_eq_true_2 by done. simpl.
    unfold same_clip. destruct (m_pending m !! sp_id (ss_peer s)) as [b'|]; [|done]. case_bool_decide; [done|].
    intros [= ->]. split; [done|]. congruence. }
  destruct (qualifyingSSHStreamAck ack state0) eqn:Hqual; simpl.
  - unfold clearPendingAndMarkAckedIfSessionCurrent, if_current. rewrite Hcur. simpl. intros [? Hne]%Hclear.
    split; [done|]. naive_solver.
  - destruct (bool_decide _ && bool_decide _) eqn:Hrej; simpl.
    + unfold clearPendingIfSessionCurrent, if_current. rewrite Hcur. simpl. intros [? Hne]%Hclear.
      split; [done|]. naive_solver.
    + intros Hst. split; [done|]. naive_solver.
Qed.

Lemma ack_conn_ok a c now ack :
  conn_ok a c →
  let '(m, inflight, removed) := handleSSHStreamAck (cn_m c) a (at_inflight (cn_att c)) ack now in
  conn_ok a (MkConn m
    (MkAttempt (at_seq (cn_att c)) inflight (if removed then negb (bool_decide (inflight = ∅)) else at_timer (cn_att c)))
    (cn_refused c ++ refused_id (cn_att c) (EvAck ack))).
Proof.
  intros [Hwf Hcur Hcov Htimer Hseq Hfl]. pose proof (handle_ack_same (cn_m c) a (at_inflight (cn_att c)) ack now) as Hsame.
  apply current_inv in Hcur as Hcur'. destruct Hcur' as (s & Hs & _).
  pose proof (λ st, handle_ack_pending _ _ (at_inflight (cn_att c)) ack now s st Hcur Hs) as Hpend.
  assert (Hshape : (handleSSHStreamAck (cn_m c) a (at_inflight (cn_att c)) ack now).1.2 =
      match at_inflight (cn_att c) !! ar_Seq ack with Some _ => delete (ar_Seq ack) (at_inflight (cn_att c)) | None => at_inflight (cn_att c) end ∧
    (handleSSHStreamAck (cn_m c) a (at_inflight (cn_att c)) ack now).2 = bool_decide (is_Some (at_inflight (cn_att c) !! ar_Seq ack))).
  { unfold handleSSHStreamAck. destruct (_ !! ar_Seq ack); [|done]. by repeat case_match. }
  destruct (handleSSHStreamAck _ _ _ _ _) as [[m inflight] removed]. simpl in Hsame, Hpend, Hshape. destruct Hshape as [-> ->].
  split; cbn [cn_m cn_att at_seq at_inflight at_timer].
  - by eapply same_sessions_wf.
  - by rewrite (same_sessions_current _ _ _ Hsame).
  - eapply covered_weaken; [exact Hcov|by destruct Hsame as (-> & _)| |intros; apply elem_of_app; by left].
    intros s' Hs' st Hst. assert (s' = s) as -> by congruence. destruct (Hpend st Hst) as [Hst' Hans]. split; [done|].
    intros q st' Hq Hid. simpl. destruct (at_inflight (cn_att c) !! ar_Seq ack) as [state0|] eqn:Hack; [|eauto].
    destruct (decide (q = ar_Seq ack)) as [->|Hne]; [|left; exists q, st'; by rewrite lookup_delete_ne].
    right. assert (st' = state0) as -> by congruence. destruct (Hans state0 eq_refl Hid) as [-> ->].
    apply elem_of_app. right. rewrite Hid. by left.
  - destruct (_ !! ar_Seq ack); simpl; [done|]. exact Htimer.
  - done.
  - intros q Hq. apply Hfl. destruct (_ !! ar_Seq ack); [|done].
    destruct Hq as [x Hx]. apply lookup_delete_Some in Hx as [_ Hx]. eauto.
Qed.

(** Queueing or unqueueing on the session's own channel keeps the rest. *)
Lemma set_send_ok m a s send :
  m_heap m !! a = Some s → manager_wf m → session_current m a = true →
  let m' := with_heap m (<[a := MkSession (ss_peer s) send (ss_canceled s)]> (m_heap m)) in
  manager_wf m' ∧ session_current m' a = true.
Proof.
  intros Hs Hwf Hcur m'. split.
  - intros p b Hb. destruct (Hwf p b Hb) as (s' & Hs' & Hid). simpl. destruct (decide (b = a)) as [->|Hne].
    + exists (MkSession (ss_peer s) send (ss_canceled s)). rewrite lookup_insert_eq. split; [done|]. simpl. congruence.
    + exists s'. by rewrite lookup_insert_ne.
  - apply current_inv in Hcur as (s' & Hs' & Hcur). apply current_inv. simpl. rewrite lookup_insert_eq.
    eexists. split; [done|]. simpl. congruence.
Qed.

Lemma send_event_ok a c s state wok m att out :
  conn_ok a c → (at_seq (cn_att c) + 1 < 2 ^ 64)%Z → m_heap (cn_m c) !! a = Some s → ss_send s = Some state →
  sendState (with_heap (cn_m c) (<[a := MkSession (ss_peer s) None (ss_canceled s)]> (m_heap (cn_m c)))) a (cn_att c) state wok
    = (m, att, out, None) →
  conn_ok a (MkConn m att (cn_refused c)) ∧ at_seq att = (at_seq (cn_att c) + 1)%Z ∧ out = [((at_seq (cn_att c) + 1)%Z, state)].
Proof.
  intros Hok Hlt Hs Hstate Hsend. destruct (Hok) as [Hwf Hcur Hcov Htimer Hseq Hfl].
  destruct (set_send_ok (cn_m c) a s None Hs Hwf Hcur) as [Hwf' Hcur'].
  set (m0 := with_heap (cn_m c) _) in *.
  assert (Hsend' : same_sessions m0 m ∧ m_pending m = m_pending m0 ∧ out = [((at_seq (cn_att c) + 1)%Z, state)] ∧
    at_seq att = (at_seq (cn_att c) + 1)%Z ∧ at_inflight att = <[(at_seq (cn_att c) + 1)%Z := state]> (at_inflight (cn_att c)) ∧
    at_timer att = true).
  { unfold sendState, if_current in Hsend. rewrite Hcur' in Hsend. rewrite Z.mod_small in Hsend by lia. cbn [negb] in Hsend.
    destruct wok; [|done]. cbn [negb] in Hsend. injection Hsend as <- <- <-. simpl. split_and!; try done.
    rewrite Htimer. by case_bool_decide. }
  destruct Hsend' as (Hsame & Hpend & -> & Hseq' & Hinf & Htm). split; [|done].
  split; cbn [cn_m cn_att cn_refused].
  - by eapply same_sessions_wf.
  - by rewrite (same_sessions_current _ _ _ Hsame).
  - intros s' st. cbn [cn_m cn_att cn_refused]. destruct Hsame as (Hheap & _). rewrite Hheap, Hpend. subst m0. simpl.
    rewrite lookup_insert_eq. intros [= <-] Hst. simpl in *. right. rewrite Hinf.
    destruct (Hcov s st Hs Hst) as [Hch|[(q & st' & Hq & Hid)|Href]]; [left|left|by right].
    + exists (at_seq (cn_att c) + 1)%Z, state. rewrite lookup_insert_eq. split; [done|congruence].
    + exists q, st'. rewrite lookup_insert_ne; [done|]. assert (q ≤ at_seq (cn_att c))%Z by (apply Hfl; eauto). lia.
  - rewrite Htm, Hinf. rewrite bool_decide_eq_false_2; [done|]. apply insert_non_empty.
  - lia.
  - intros q. rewrite Hinf, Hseq'. intros [x [[<- _]|[_ Hx]]%lookup_insert_Some]; [lia|].
    assert (q ≤ at_seq (cn_att c))%Z by (apply Hfl; eauto). lia.
Qed.

Lemma conn_do_ok a c op c' out :
  conn_ok a c → (at_seq (cn_att c) + 1 < 2 ^ 64)%Z → conn_do a c op = Some (c', out) →
  conn_ok a c' ∧ at_seq (cn_att c') = (at_seq (cn_att c) + Z.of_nat (length out))%Z ∧
  out.*1 = seqZ (at_seq (cn_att c) + 1) (Z.of_nat (length out)).
Proof.
  intros Hok Hlt Hdo. destruct op as [order content origin skipOrigin|now ev|now ev]; simpl in Hdo.
  - injection Hdo as <- <-. split; [by apply publish_conn_ok|]. simpl. split; [lia|done].
  - destruct ev as [ack| |wok| |]; simpl in Hdo.
    + pose proof (ack_conn_ok a c now ack Hok) as Hack. destruct (handleSSHStreamAck _ _ _ _ _) as [[m inflight] removed].
      injection Hdo as <- <-. split; [exact Hack|]. simpl. split; [lia|done].
    + done.
    + destruct (m_heap (cn_m c) !! a) as [s|] eqn:Hs; [|exfalso].
      * destruct (ss_send s) as [state|] eqn:Hstate.
        -- destruct (sendState _ a (cn_att c) state wok) as [[[m att] out'] [e|]] eqn:Hsend; [done|].
           injection Hdo as <- <-. destruct (send_event_ok _ _ _ _ _ _ _ _ Hok Hlt Hs Hstate Hsend) as (H1 & H2 & ->).
           rewrite app_nil_r. split; [done|]. simpl. split; [lia|done].
        -- injection Hdo as <- <-. simpl. rewrite app_nil_r. split; [by destruct c|]. split; [lia|done].
      * destruct Hok as [_ Hcur _ _ _ _]. unfold session_current in Hcur. by rewrite Hs in Hcur.
    + destruct (at_timer (cn_att c)); [done|]. injection Hdo as <- <-. simpl. rewrite app_nil_r.
      split; [by destruct c|]. split; [lia|done].
    + done.
  - injection Hdo as <- <-. split; [by apply peer_conn_ok|]. simpl. split; [lia|done].
Qed.

Lemma conn_out_one a c op c' out : conn_do a c op = Some (c', out) → length out ≤ 1.
Proof.
  destruct op as [| now ev|]; simpl; try (intros [= _ <-]; simpl; lia).
  destruct ev as [ack| |wok| |]; simpl; try done.
  - destruct (handleSSHStreamAck _ _ _ _ _) as [[]]. intros [= _ <-]. simpl. lia.
  - destruct (m_heap (cn_m c) !! a) as [s|]; [|intros [= _ <-]; simpl; lia].
    destruct (ss_send s) as [state|]; [|intros [= _ <-]; simpl; lia].
    unfold sendState, if_current. repeat case_match; simplify_eq/=; intros; simplify_eq/=; lia.
  - destruct (at_timer (cn_att c)); [done|]. intros [= _ <-]. simpl. lia.
Qed.

Lemma conn_run_ok a ops c c' out :
  conn_ok a c → (at_seq (cn_att c) + Z.of_nat (length ops) < 2 ^ 64)%Z → conn_run a c ops = Some (c', out) →
  conn_ok a c' ∧ out.*1 = seqZ (at_seq (cn_att c) + 1) (Z.of_nat (length out)).
Proof.
  revert c out. induction ops as [|op ops IH]; intros c out Hok Hlt Hrun; simpl in Hrun.
  { injection Hrun as <- <-. done. }
  destruct (conn_do a c op) as [[c1 out1]|] eqn:Hdo; [|done].
  destruct (conn_run a c1 ops) as [[c2 out2]|] eqn:Hrest; [|done]. injection Hrun as <- <-. simpl in Hlt.
  destruct (conn_do_ok _ _ _ _ _ Hok ltac:(lia) Hdo) as (Hok1 & Hseq1 & Hout1).
  pose proof (conn_out_one _ _ _ _ _ Hdo).
  destruct (IH c1 out2 Hok1 ltac:(lia) Hrest) as (Hok2 & Hout2). split; [done|].
  rewrite fmap_app, Hout1, Hout2, Hseq1, length_app, Nat2Z.inj_add. rewrite seqZ_app by lia. f_equal. f_equal. lia.
Qed.

Lemma attempt_start_ok now m a m' att out :
  manager_wf m → attempt_start now m a true = (m', att, out, None) →
  conn_ok a (MkConn m' att []) ∧ at_seq att = Z.of_nat (length out) ∧
  out = match m_pending m !! session_peer_id m a with Some st => [(1%Z, st)] | None => [] end ∧
  m_pending m' = m_pending m.
Proof.
  intros Hwf. unfold attempt_start, if_current. destruct (session_current m a) eqn:Hcur; [|done]. cbn [negb].
  set (m1 := markPeerConnectedLocked m (session_peer_id m a) now).
  assert (Hsame1 : same_sessions m m1 ∧ m_pending m1 = m_pending m) by done. destruct Hsame1 as [Hsame1 Hp1].
  assert (Hid1 : session_peer_id m1 a = session_peer_id m a) by done. rewrite Hid1, Hp1.
  apply current_inv in Hcur as Hcur0. destruct Hcur0 as (s & Hs & Hsess).
  assert (Hid : session_peer_id m a = sp_id (ss_peer s)) by (unfold session_peer_id; by rewrite Hs).
  destruct (m_pending m !! session_peer_id m a) as [st|] eqn:Hpend.
  - unfold sendState, if_current. assert (Hcur1 : session_current m1 a = true) by done. rewrite Hcur1. cbn [negb].
    change ((at_seq new_attempt + 1) mod 2 ^ 64)%Z with 1%Z. intros [= <- <- <-].
    set (m2 := markPeerPendingLocked m1 (session_peer_id m1 a) true).
    assert (Hheap2 : m_heap m2 = m_heap m) by done. assert (Hsess2 : m_sessions m2 = m_sessions m) by done.
    assert (Hp2 : m_pending m2 = m_pending m) by done.
    set (send' := match ss_send s with
                  | Some queued => if bool_decide (ID (ob_content queued) = ID (ob_content st)) then None else Some queued
                  | None => None end).
    assert (Hdrain : drainQueuedDuplicateSSHState m2 a st = with_heap m2 (<[a := MkSession (ss_peer s) send' (ss_canceled s)]> (m_heap m2))).
    { unfold drainQueuedDuplicateSSHState. f_equal. apply map_eq. intros b. destruct (decide (b = a)) as [->|Hne].
      - rewrite lookup_alter_eq, lookup_insert_eq, Hheap2, Hs. done.
      - by rewrite lookup_alter_ne, lookup_insert_ne. }
    rewrite Hdrain. assert (Hs2 : m_heap m2 !! a = Some s) by done.
    destruct (set_send_ok m2 a s send' Hs2) as [Hwf' Hcur']; [exact Hwf|done|].
    split; [|done]. split; cbn [cn_m cn_att cn_refused at_timer at_inflight at_seq]; [done|done| |done|done|].
    + intros s' st' Hs' Hst'. cbn [cn_m] in *. simpl in Hs'. rewrite lookup_insert_eq in Hs'. injection Hs' as <-. simpl in Hst'.
      right. left. exists 1%Z, st. simpl. rewrite lookup_insert_eq. split; [done|]. rewrite Hid in Hpend. congruence.
    + intros q [x Hx]. simpl in Hx. apply lookup_insert_Some in Hx as [[<- _]|[_ Hx]]; [lia|]. by rewrite lookup_empty in Hx.
  - intros [= <- <- <-]. split; [|done]. split; cbn [cn_m cn_att cn_refused]; [done|done| |done|done|].
    + intros s' st' Hs' Hst'. cbn [cn_m] in *. exfalso. change (m_heap m !! a = Some s') in Hs'. rewrite Hs in Hs'.
      injection Hs' as <-. rewrite Hid in Hpend. change (m_pending m !! sp_id (ss_peer s) = Some st') in Hst'. congruence.
    + intros q [x Hx]. simpl in Hx. by rewrite lookup_empty in Hx.
Qed.

(** ** Lemmas: refreshing *)

(** The session at [a] survives a refresh with these peers. *)
Definition unchanged (nextByID : gmap string sshSyncPeer) (s : sshPeerSession) : bool :=
  bool_decide (nextByID !! sp_id (ss_peer s) = Some (ss_peer s)).

Definition cancel (s : sshPeerSession) : sshPeerSession := MkSession (ss_peer s) (ss_send s) true.

Lemma refresh_session_one nextByID m q b s :
  m_heap m !! b = Some s → sp_id (ss_peer s) = q →
  let m' := refresh_session nextByID m (q, b) in
  m_peers m' = m_peers m ∧ m_started m' = m_started m ∧
  m_sessions m' = (if unchanged nextByID s then m_sessions m else delete q (m_sessions m)) ∧
  m_heap m' = (if unchanged nextByID s then m_heap m else <[b := cancel s]> (m_heap m)) ∧
  m_pending m' = (if bool_decide (is_Some (nextByID !! q)) then m_pending m else delete q (m_pending m)).
Proof.
  intros Hs Hq m'. subst m'. unfold refresh_session, unchanged. rewrite Hs, Hq.
  assert (Halter : alter (λ s, MkSession (ss_peer s) (ss_send s) true) b (m_heap m) = <[b:=cancel s]> (m_heap m)).
  { apply map_eq. intros k. destruct (decide (k = b)) as [->|Hne]; [by rewrite lookup_alter_eq, lookup_insert_eq, Hs|].
    by rewrite lookup_alter_ne, lookup_insert_ne. }
  destruct (nextByID !! q) as [p|] eqn:Hn.
  - rewrite (bool_decide_eq_true_2 (is_Some _)) by done. destruct (decide (ss_peer s = p)) as [->|Hne].
    + by rewrite !bool_decide_eq_true_2.
    + rewrite !bool_decide_eq_false_2 by congruence. simpl. by rewrite Halter.
  - rewrite !bool_decide_eq_false_2 by (try done; by intros []). simpl. by rewrite Halter.
Qed.

Lemma refresh_sessions_spec nextByID l m :
  NoDup l.*1 → (∀ p a, (p, a) ∈ l → ∃ s, m_heap m !! a = Some s ∧ sp_id (ss_peer s) = p) →
  let m' := foldl (refresh_session nextByID) m l in
  m_peers m' = m_peers m ∧ m_started m' = m_started m ∧
  m_sessions m' ⊆ m_sessions m ∧
  (∀ p a s, (p, a) ∈ l → m_heap m !! a = Some s → unchanged nextByID s = false → m_sessions m' !! p = None) ∧
  (∀ p, (∀ a s, (p, a) ∈ l → m_heap m !! a = Some s → unchanged nextByID s = true) → m_sessions m' !! p = m_sessions m !! p) ∧
  (∀ a, m_heap m' !! a =
    match m_heap m !! a with
    | Some s => Some (if bool_decide ((sp_id (ss_peer s), a) ∈ l) && negb (unchanged nextByID s) then cancel s else s)
    | None => None
    end) ∧
  (∀ p, m_pending m' !! p = if bool_decide (p ∈ l.*1 ∧ nextByID !! p = None) then None else m_pending m !! p).
Proof.
  revert m. induction l as [|[q b] l IH]; intros m Hnd Hl; cbn [foldl].
  { split_and!; try done; [by intros ????%elem_of_nil|intros a; by destruct (m_heap m !! a)]. }
  apply NoDup_cons in Hnd as [Hq Hnd]. destruct (Hl q b) as (s & Hs & Hid); [by left|].
  destruct (refresh_session_one nextByID m q b s Hs Hid) as (Hp1 & Hst1 & Hse1 & Hh1 & Hpe1).
  set (m1 := refresh_session nextByID m (q, b)) in *.
  assert (Hpeer : ∀ a, ss_peer <$> m_heap m1 !! a = ss_peer <$> m_heap m !! a).
  { intros a. rewrite Hh1. destruct (unchanged _ _); [done|]. destruct (decide (a = b)) as [->|Hne];
      [by rewrite lookup_insert_eq, Hs|by rewrite lookup_insert_ne]. }
  assert (Hother : ∀ p a, (p, a) ∈ l → a ≠ b ∧ p ≠ q).
  { intros p a Hin. assert (p ≠ q); [|split; [|done]].
    - intros ->. apply Hq. apply list_elem_of_fmap. by exists (q, a).
    - intros ->. destruct (Hl p b) as (s' & Hs' & Hid'); [by right|]. congruence. }
  assert (Hheap1 : ∀ a, a ≠ b → m_heap m1 !! a = m_heap m !! a).
  { intros a Hne. rewrite Hh1. destruct (unchanged _ _); [done|]. by rewrite lookup_insert_ne. }
  assert (Hl1 : ∀ p a, (p, a) ∈ l → ∃ s, m_heap m1 !! a = Some s ∧ sp_id (ss_peer s) = p).
  { intros p a Hin. rewrite Hheap1 by (by eapply Hother). apply Hl. by right. }
  destruct (IH m1 Hnd Hl1) as (Hp & Hst & Hsub & Hgone & Hkept & Hh & Hpe).
  set (m' := foldl (refresh_session nextByID) m1 l) in *. split_and!.
  - by rewrite Hp.
  - by rewrite Hst.
  - etrans; [exact Hsub|]. rewrite Hse1. destruct (unchanged _ _); [done|apply delete_subseteq].
  - intros p a s' [[= -> ->]|Hin]%elem_of_cons Hs' Hun.
    + assert (s' = s) as -> by congruence. eapply lookup_weaken_None; [|exact Hsub].
      rewrite Hse1, Hun. apply lookup_delete_eq.
    + eapply Hgone; [done| |done]. rewrite Hheap1; [done|]. by eapply Hother.
  - intros p Hall. rewrite Hkept.
    + rewrite Hse1. destruct (unchanged nextByID s) eqn:Hun; [done|]. apply lookup_delete_ne. intros <-.
      rewrite (Hall b s) in Hun; [done|by left|done].
    + intros a s' Hin Hs'. destruct (Hother p a Hin) as [Hab _]. rewrite Hheap1 in Hs' by done. eapply Hall; [by right|done].
  - intros a. rewrite Hh. destruct (decide (a = b)) as [->|Hne].
    + rewrite Hs, Hid. rewrite (bool_decide_eq_true_2 ((q, b) ∈ (q, b) :: l)) by left. rewrite Hh1.
      destruct (unchanged nextByID s) eqn:Hun; simpl; [rewrite Hs|rewrite lookup_insert_eq]; simpl; rewrite Hid.
      * rewrite Hun, andb_false_r. done.
      * rewrite bool_decide_eq_false_2; [done|]. intros Hin. by destruct (Hother q b Hin).
    + rewrite Hheap1 by done. destruct (m_heap m !! a) as [s'|]; [|done]. f_equal.
      erewrite (bool_decide_ext (_ ∈ (q, b) :: l)); [done|]. rewrite elem_of_cons. naive_solver.
  - intros p. change (((q, b) :: l).*1) with (q :: l.*1). rewrite Hpe, Hpe1. destruct (decide (p = q)) as [->|Hne].
    + rewrite (bool_decide_eq_false_2 (q ∈ l.*1 ∧ _)) by tauto. destruct (nextByID !! q) eqn:Hn.
      * rewrite bool_decide_eq_true_2 by done. rewrite bool_decide_eq_false_2; [done|]. by intros [].
      * rewrite bool_decide_eq_false_2 by (by intros []). rewrite lookup_delete_eq.
        rewrite bool_decide_eq_true_2; [done|]. split; [by left|done].
    + erewrite (bool_decide_ext (p ∈ q :: l.*1 ∧ _) (p ∈ l.*1 ∧ nextByID !! p = None)) by (rewrite elem_of_cons; naive_solver).
      destruct (bool_decide (p ∈ _ ∧ _)); [done|]. destruct (bool_decide (is_Some _)); [done|]. by rewrite lookup_delete_ne.
Qed.

Lemma startPeer_spec m peer :
  let a := fresh (dom (m_heap m)) in
  let m' := startPeerLocked m peer in
  m_heap m !! a = None ∧ m_heap m' = <[a := MkSession peer None false]> (m_heap m) ∧
  m_sessions m' = <[sp_id peer := a]> (m_sessions m) ∧ m_pending m' = m_pending m ∧ m_peers m' = m_peers m.
Proof. intros a m'. split; [|done]. apply not_elem_of_dom. apply is_fresh. Qed.

Lemma refresh_starts_spec l m :
  let m' := foldl refresh_start m l in
  m_peers m' = m_peers m ∧ m_pending m' = m_pending m ∧ m_sessions m ⊆ m_sessions m' ∧ m_heap m ⊆ m_heap m' ∧
  (∀ peer, peer ∈ l → is_Some (m_sessions m' !! sp_id peer)) ∧
  (∀ p a, m_sessions m' !! p = Some a → m_sessions m !! p = Some a ∨
     ∃ peer, peer ∈ l ∧ sp_id peer = p ∧ m_heap m' !! a = Some (MkSession peer None false)).
Proof.
  revert m. induction l as [|peer l IH]; intros m; simpl.
  { split_and!; try done; [by intros ? ?%elem_of_nil|by left]. }
  assert (Hone : m_peers (refresh_start m peer) = m_peers m ∧ m_pending (refresh_start m peer) = m_pending m ∧
    m_sessions m ⊆ m_sessions (refresh_start m peer) ∧ m_heap m ⊆ m_heap (refresh_start m peer) ∧
    is_Some (m_sessions (refresh_start m peer) !! sp_id peer) ∧
    ∀ p a, m_sessions (refresh_start m peer) !! p = Some a → m_sessions m !! p = Some a ∨
      sp_id peer = p ∧ m_heap (refresh_start m peer) !! a = Some (MkSession peer None false)).
  { unfold refresh_start. destruct (m_sessions m !! sp_id peer) as [b|] eqn:Hb; [split_and!; eauto|].
    destruct (startPeer_spec m peer) as (Hfresh & Hh & Hse & Hpe & Hp). rewrite Hh, Hse, Hpe, Hp. split_and!; try done.
    - by apply insert_subseteq.
    - by apply insert_subseteq.
    - rewrite lookup_insert_eq. by eexists.
    - intros p a [[<- <-]|[_ ?]]%lookup_insert_Some; [right|by left]. split; [done|]. apply lookup_insert_eq. }
  destruct Hone as (Hp & Hpe & Hse & Hh & Hme & Hnew).
  destruct (IH (refresh_start m peer)) as (IHp & IHpe & IHse & IHh & IHme & IHnew). split_and!.
  - by rewrite IHp.
  - by rewrite IHpe.
  - by etrans.
  - by etrans.
  - intros x [->|Hx]%elem_of_cons; [|by apply IHme]. destruct Hme as [a Ha]. exists a. by eapply lookup_weaken.
  - intros p a Ha. destruct (IHnew p a Ha) as [Hold|(x & Hx & ? & ?)]; [|right; exists x; split; [by right|done]].
    destruct (Hnew p a Hold) as [?|[<- Hs]]; [by left|right]. exists peer. split; [by left|]. split; [done|].
    by eapply lookup_weaken.
Qed.

Lemma nextByID_lookup (l : list sshSyncPeer) (acc : gmap string sshSyncPeer) :
  NoDup (sp_id <$> l) →
  (∀ peer, peer ∈ l → foldl (λ acc p, <[sp_id p := p]> acc) acc l !! sp_id peer = Some peer) ∧
  (∀ p, p ∉ sp_id <$> l → foldl (λ acc p, <[sp_id p := p]> acc) acc l !! p = acc !! p).
Proof.
  revert acc. induction l as [|x l IH]; intros acc Hnd; simpl; [split; [by intros ? ?%elem_of_nil|done]|].
  apply NoDup_cons in Hnd as [Hx Hnd]. destruct (IH (<[sp_id x := x]> acc) Hnd) as [Hin Hout]. split.
  - intros peer [->|Hp]%elem_of_cons; [|by apply Hin]. rewrite Hout by done. apply lookup_insert_eq.
  - intros p Hp. rewrite not_elem_of_cons in Hp. rewrite Hout by tauto. apply lookup_insert_ne. naive_solver.
Qed.

(** The first loop of a refresh, for the whole table of sessions. *)
Lemma refresh_drop_spec order m (next : list sshSyncPeer) :
  manager_wf m → order ≡ₚ map_to_list (m_sessions m) → NoDup (sp_id <$> next) →
  let m1 := foldl (refresh_session (foldl (λ acc p, <[sp_id p := p]> acc) ∅ next)) (with_peers m next) order in
  m_peers m1 = next ∧ m_started m1 = m_started m ∧ m_sessions m1 ⊆ m_sessions m ∧
  (∀ p a s, m_sessions m !! p = Some a → m_heap m !! a = Some s →
     (ss_peer s ∈ next → m_sessions m1 !! p = Some a ∧ m_heap m1 !! a = Some s) ∧
     (ss_peer s ∉ next → m_sessions m1 !! p = None ∧ m_heap m1 !! a = Some (cancel s))) ∧
  (∀ p, m_pending m1 !! p =
     if bool_decide (p ∉ sp_id <$> next ∧ is_Some (m_sessions m !! p)) then None else m_pending m !! p).
Proof.
  intros Hwf Horder Hnd m1. destruct (nextByID_lookup next ∅ Hnd) as [Hin Hout].
  set (byID := foldl _ ∅ next) in *.
  assert (Hnone : ∀ p, byID !! p = None ↔ p ∉ sp_id <$> next).
  { intros p. split; [|apply Hout]. intros Hp (x & -> & Hx)%list_elem_of_fmap. rewrite (Hin x Hx) in Hp. done. }
  assert (Hun : ∀ s, unchanged byID s = true ↔ ss_peer s ∈ next).
  { intros s. unfold unchanged. rewrite bool_decide_eq_true. split; [|apply Hin]. intros Hs.
    destruct (decide (sp_id (ss_peer s) ∈ sp_id <$> next)) as [(x & Hid & Hx)%list_elem_of_fmap|Hno].
    - rewrite Hid, (Hin x Hx) in Hs. congruence.
    - apply Hnone in Hno. congruence. }
  assert (Hord : ∀ p a, (p, a) ∈ order ↔ m_sessions m !! p = Some a) by (intros; rewrite Horder; apply elem_of_map_to_list).
  assert (Hkeys : NoDup order.*1) by (rewrite Horder; apply NoDup_fst_map_to_list).
  assert (Hmem : ∀ p, p ∈ order.*1 ↔ is_Some (m_sessions m !! p)).
  { intros p. rewrite list_elem_of_fmap. split; [intros ([q a] & -> & ?%Hord); by exists a|].
    intros [a Ha]. exists (p, a). split; [done|]. by apply Hord. }
  destruct (refresh_sessions_spec byID order (with_peers m next) Hkeys) as (Hp & Hst & Hsub & Hgone & Hkept & Hh & Hpe).
  { intros p a Ha%Hord. by apply Hwf. }
  fold m1 in Hp, Hst, Hsub, Hgone, Hkept, Hh, Hpe. split_and!; [done|done|done| |].
  - intros p a s Ha Hs. destruct (Hwf p a Ha) as (s' & Hs' & Hid). assert (s' = s) as -> by congruence.
    specialize (Hh a). simpl in Hh. rewrite Hs, Hid, bool_decide_eq_true_2 in Hh by (by apply Hord). rewrite Hh. split.
    + intros Hpn%Hun. rewrite Hpn. split; [|done]. rewrite Hkept; [done|]. intros b s2 Hb%Hord Hs2. simpl in Hs2. congruence.
    + intros Hpn. rewrite <- Hun in Hpn. apply not_true_is_false in Hpn. rewrite Hpn. split; [|done].
      eapply Hgone; [by apply Hord|done|done].
  - intros p. rewrite Hpe. simpl. erewrite bool_decide_ext; [done|]. rewrite Hmem, Hnone. tauto.
Qed.

(** ** The channel, one [select] at a time *)

(** [enqueueLatestSSHState] runs under the manager's lock, [drainQueuedDuplicateSSHState]
    in the session's goroutine without it: the two can interleave between their
    [select] statements. *)
Module Channel.
Inductive proc :=
| EnqSend1 (st : sshOutboundState)
| EnqDrop (st : sshOutboundState)
| EnqSend2 (st : sshOutboundState)
| DrainRecv (st : sshOutboundState)
| DrainSend (queued : sshOutboundState)
| Done.

(** One [select] with a [default] on a channel of capacity one. *)
Definition step (ch : option sshOutboundState) (p : proc) : option sshOutboundState * proc :=
  match p with
  | EnqSend1 st => match ch with None => (Some st, Done) | Some _ => (ch, EnqDrop st) end
  | EnqDrop st => (None, EnqSend2 st)
  | EnqSend2 st => match ch with None => (Some st, Done) | Some _ => (ch, Done) end
  | DrainRecv st =>
      match ch with
      | Some queued =>
          if bool_decide (ID (ob_content queued) = ID (ob_content st)) then (None, Done) else (None, DrainSend queued)
      | None => (None, Done)
      end
  | DrainSend queued => match ch with None => (Some queued, Done) | Some _ => (ch, Done) end
  | Done => (ch, Done)
  end.

(** A schedule picks the process that moves next: [true] the publisher. *)
Fixpoint run (ch : option sshOutboundState) (pub ses : proc) (schedule : list bool) : option sshOutboundState * proc * proc :=
  match schedule with
  | [] => (ch, pub, ses)
  | true :: schedule => let '(ch, pub) := step ch pub in run ch pub ses schedule
  | false :: schedule => let '(ch, ses) := step ch ses in run ch pub ses schedule
  end.
End Channel.

Lemma startPeer_wf m peer : manager_wf m → manager_wf (startPeerLocked m peer).
Proof.
  intros Hwf p a. destruct (startPeer_spec m peer) as (Hfresh & Hh & Hse & _ & _). rewrite Hh, Hse.
  intros [[<- <-]|[_ Ha]]%lookup_insert_Some; [eexists; split; [apply lookup_insert_eq|done]|].
  destruct (Hwf p a Ha) as (s & Hs & Hid). exists s. split; [|done]. rewrite lookup_insert_ne; [done|congruence].
Qed.

Lemma foldl_start_wf l m : manager_wf m → manager_wf (foldl startPeerLocked m l).
Proof. revert m. induction l as [|x l IH]; intros m Hwf; simpl; [done|]. by apply IH, startPeer_wf. Qed.

(** A manager fresh from its configuration, started, keeps its sessions under
    their peers' IDs. *)
Lemma Start_wf cfg localID : manager_wf (Start (newSSHSyncManager cfg localID)).
Proof. apply foldl_start_wf. by intros p a Ha. Qed.

Lemma Publish_wf order m content origin skipOrigin : manager_wf m → manager_wf (Publish order m content origin skipOrigin).
Proof.
  intros Hwf p a. rewrite Publish_all. destruct (_ <? _)%Z; [apply Hwf|].
  destruct (publish_all_frame (MkOutbound content origin) (publish_targets order m skipOrigin) m) as (Hs & _ & _ & Hh).
  rewrite Hs. intros Ha. destruct (Hwf p a Ha) as (s & Hs' & Hid). rewrite Hh, Hs'. eexists. split; [done|]. by destruct (existsb _ _).
Qed.

(** ** A concrete fleet of two peers *)

Definition demo_ssh_peer (id : string) : SSHPeer :=
  MkSSHPeer id (id ++ ".local") "me" 22 "" "/gw" true true true true false MigrationStateSSHKeysReady
    (MkSSHProof "k1" "/gw" "" "" "k2" "/gw" "" ProofVerifiedByRegularSSH).

Definition demo_config (ids : list string) : option Config :=
  Some (MkConfig None None "" "key" "" [] "studio" TransportSSH
    (Some (MkSSHConfig "/key" "/known_hosts" 0 0 0 (demo_ssh_peer <$> ids))) 7331 50).

Definition demo_manager : Manager := Start (newSSHSyncManager (demo_config ["alpha"; "beta"]) "studio").

Definition demo_clip (id : string) : Content := MkContent id KindText "hello" "h" zero_time false.

Definition demo_pending : Manager := Publish [] demo_manager (demo_clip "c1") "studio" "".

Lemma demo_pending_wf : manager_wf demo_pending.
Proof. apply Publish_wf, Start_wf. Qed.

Definition demo_ack (seq : Z) (id status : string) : SSHStreamAckResult := MkAckResult seq id status "".

(** The start of the attempt for alpha's session, then: a second clip is
    published, sent, and the first one acknowledged. *)
Definition demo_attempt : Manager * Attempt * list (Z * sshOutboundState) * option AttemptError :=
  attempt_start zero_time demo_pending 0 true.

Definition demo_ops : list conn_op :=
  [CoPublish (map_to_list (m_sessions demo_manager)) (demo_clip "c2") "studio" ""; CoEvent zero_time (EvSend true);
   CoEvent zero_time (EvAck (demo_ack 1 "c1" "applied"))].

(** ** Properties *)



(** Nothing but an answer of the peer makes a connection forget a clip: if a
    step of a connection leaves no pending clip for a peer that had one, it
    handled an acknowledgement of that very clip, which was in flight under the
    acknowledged number, and the answer confirmed or rejected it. *)
Theorem pending_dropped_only_when_answered a c op c' out p st
    (Hdo : conn_do a c op = Some (c', out))
    (Hbefore : m_pending (cn_m c) !! p = Some st) (Hafter : m_pending (cn_m c') !! p = None) :
  ∃ now ack state0, op = CoEvent now (EvAck ack) ∧ p = session_peer_id (cn_m c) a ∧
    at_inflight (cn_att c) !! ar_Seq ack = Some state0 ∧ ID (ob_content state0) = ID (ob_content st) ∧
    (qualifyingSSHStreamAck ack state0 = true ∨ (ar_Status ack = "rejected" ∧ ar_ID ack = ID (ob_content state0))).
Proof.
  destruct op as [order content origin skipOrigin|now ev|now ev]; simpl in Hdo.
  - injection Hdo as <- _. simpl in Hafter. rewrite Publish_all in Hafter. destruct (_ <? _)%Z; [congruence|].
    destruct (publish_all_frame (MkOutbound content origin) (publish_targets order (cn_m c) skipOrigin) (cn_m c)) as (_ & _ & Hp & _).
    rewrite Hp in Hafter. destruct (bool_decide _); congruence.
  - destruct ev as [ack| |wok| |]; simpl in Hdo; try done.
    + exists now, ack. unfold handleSSHStreamAck in Hdo. destruct (at_inflight (cn_att c) !! ar_Seq ack) as [state0|] eqn:Hq;
        [|injection Hdo as <- _; simpl in Hafter; congruence].
      exists state0. split; [done|].
      assert (Hclear : m_pending (clear_pending (cn_m c) (session_peer_id (cn_m c) a) state0) !! p = None →
        p = session_peer_id (cn_m c) a ∧ ID (ob_content state0) = ID (ob_content st)).
      { rewrite clear_pending_lookup. destruct (bool_decide (p = _)) eqn:Hid; simpl; [|congruence].
        apply bool_decide_eq_true in Hid. subst p. unfold same_clip. rewrite Hbefore.
        destruct (decide (ID (ob_content st) = ID (ob_content state0))); [intros _; split; [done|congruence]|].
        rewrite bool_decide_eq_false_2; [congruence|done]. }
      destruct (qualifyingSSHStreamAck ack state0) eqn:Hqual.
      * injection Hdo as <- _. cbn [cn_m] in Hafter. unfold clearPendingAndMarkAckedIfSessionCurrent, if_current in Hafter.
        destruct (session_current _ _); [|simpl in Hafter; congruence]. simpl in Hafter. destruct (Hclear Hafter). naive_solver.
      * destruct (bool_decide _ && bool_decide _) eqn:Hrej; injection Hdo as <- _; cbn [cn_m] in Hafter; [|congruence].
        unfold clearPendingIfSessionCurrent, if_current in Hafter.
        destruct (session_current _ _); [|simpl in Hafter; congruence]. simpl in Hafter. destruct (Hclear Hafter).
        apply andb_true_iff in Hrej as [?%bool_decide_eq_true ?%bool_decide_eq_true]. naive_solver.
    + exfalso. destruct (m_heap (cn_m c) !! a) as [s|]; [|injection Hdo as <- _; simpl in Hafter; congruence].
      destruct (ss_send s) as [state|]; [|injection Hdo as <- _; simpl in Hafter; congruence].
      unfold sendState, if_current in Hdo.
      destruct (session_current _ _); cbn [negb] in Hdo; [|done]. destruct wok; cbn [negb] in Hdo; [|done].
      injection Hdo as <- _. simpl in Hafter. congruence.
    + destruct (at_timer _); [done|]. injection Hdo as <- _. simpl in Hafter. congruence.
  - exfalso. injection Hdo as <- _. simpl in Hafter. revert Hafter. unfold readPeerEvent, receiveContentIfSessionCurrent, if_current.
    repeat case_match; simplify_eq/=; congruence.
Qed.

Lemma pending_dropped_only_when_answered_witness :
  let c := MkConn demo_attempt.1.1.1 demo_attempt.1.1.2 [] in
  ∃ state0, at_inflight (cn_att c) !! 1%Z = Some state0 ∧ ID (ob_content state0) = "c1".
Proof.
  pose proof (pending_dropped_only_when_answered 0 (MkConn demo_attempt.1.1.1 demo_attempt.1.1.2 [])
    (CoEvent zero_time (EvAck (demo_ack 1 "c1" "applied")))) as H.
  destruct (conn_do _ _ _) as [[c' out]|] eqn:Hdo; [|vm_compute in Hdo; discriminate Hdo].
  destruct (H c' out "alpha" (MkOutbound (demo_clip "c1") "studio") eq_refl ltac:(vm_compute; reflexivity)) as
    (now & ack & state0 & Hop & _ & Hin & Hid & _).
  { vm_compute in Hdo. injection Hdo as <- _. vm_compute. reflexivity. }
  injection Hop as _ <-. exists state0. split; [exact Hin|exact Hid].
Defined.

(** Publishing reaches everyone but the origin, once: afterwards the clip is
    the pending one of every configured peer and every session that is not the
    skipped origin and waits in its channel in place of anything older; every
    other peer keeps its pending clip and its channel; a clip above the payload
    limit changes nothing. *)
Theorem Publish_spec order m content origin skipOrigin
    (Hwf : manager_wf m) (Horder : order ≡ₚ map_to_list (m_sessions m)) :
  let m' := Publish order m content origin skipOrigin in
  let st := MkOutbound content origin in
  ((MaxSSHStreamPayloadBytes < Z.of_nat (len (Bytes content)))%Z → m' = m) ∧
  ((Z.of_nat (len (Bytes content)) ≤ MaxSSHStreamPayloadBytes)%Z → ∀ p,
    let wanted := (p ∈ sp_id <$> m_peers m ∨ is_Some (m_sessions m !! p)) ∧
                  (skipOrigin = "" ∨ HostsMatch p skipOrigin = false) in
    (wanted → m_pending m' !! p = Some st) ∧ (¬ wanted → m_pending m' !! p = m_pending m !! p) ∧
    ∀ a s, m_sessions m !! p = Some a → m_heap m !! a = Some s →
      ∃ s', m_heap m' !! a = Some s' ∧ ss_peer s' = ss_peer s ∧
        (wanted → ss_send s' = Some st) ∧ (¬ wanted → ss_send s' = ss_send s)).
Proof.
  intros m' st. subst m'. rewrite Publish_all. split.
  - intros Hbig. by rewrite (proj2 (Z.ltb_lt _ _)).
  - intros Hfit p wanted. rewrite (proj2 (Z.ltb_ge _ _)) by done.
    destruct (publish_all_frame st (publish_targets order m skipOrigin) m) as (_ & _ & Hp & Hh).
    assert (Hw : p ∈ publish_targets order m skipOrigin ↔ wanted).
    { rewrite publish_targets_elem. unfold wanted, skipped.
      assert (Ho : p ∈ order.*1 ↔ is_Some (m_sessions m !! p)).
      { rewrite Horder, list_elem_of_fmap. split.
        - intros ([q a] & -> & Hin%elem_of_map_to_list). by exists a.
        - intros [a Ha]. exists (p, a). split; [done|]. by apply elem_of_map_to_list. }
      rewrite Ho, andb_false_iff, negb_false_iff, bool_decide_eq_true. tauto. }
    split; [|split].
    + intros Hin. rewrite Hp, bool_decide_eq_true_2; [done|]. by apply Hw.
    + intros Hin. rewrite Hp, bool_decide_eq_false_2; [done|]. by rewrite Hw.
    + intros a s Ha Hs. rewrite Hh, Hs. eexists. split; [done|].
      destruct (existsb (λ q, bool_decide (m_sessions m !! q = Some a)) (publish_targets order m skipOrigin)) eqn:Hex; simpl.
      * apply existsb_exists in Hex as (q & Hq%list_elem_of_In & Hqa%bool_decide_eq_true).
        rewrite (wf_unique _ _ _ _ Hwf Hqa Ha) in Hq. split; [done|]. split; [done|]. intros Hno. exfalso. by apply Hno, Hw.
      * split; [done|]. split; [|done]. intros Hin. exfalso.
        assert (existsb (λ q, bool_decide (m_sessions m !! q = Some a)) (publish_targets order m skipOrigin) = true); [|congruence].
        apply existsb_exists. exists p. split; [by apply list_elem_of_In, Hw|]. by apply bool_decide_eq_true.
Qed.

Lemma Publish_spec_witness :
  m_pending (Publish (map_to_list (m_sessions demo_pending)) demo_pending (demo_clip "c2") "alpha" "alpha") !! "alpha" =
    Some (MkOutbound (demo_clip "c1") "studio") ∧
  m_pending (Publish (map_to_list (m_sessions demo_pending)) demo_pending (demo_clip "c2") "alpha" "alpha") !! "beta" =
    Some (MkOutbound (demo_clip "c2") "alpha").
Proof.
  destruct (Publish_spec (map_to_list (m_sessions demo_pending)) demo_pending (demo_clip "c2") "alpha" "alpha"
    demo_pending_wf (reflexivity _)) as [_ H].
  pose proof (H ltac:(vm_compute; discriminate)) as H'. split.
  - destruct (H' "alpha") as (_ & Hno & _). rewrite Hno; [vm_compute; reflexivity|].
    intros [_ [Hs|Hs]]; [discriminate Hs|vm_compute in Hs; discriminate Hs].
  - destruct (H' "beta") as (Hyes & _ & _). apply Hyes. split; [left; apply (bool_decide_unpack _); vm_compute; exact I|].
    right. vm_compute. reflexivity.
Defined.

(** The sessions after a refresh are for peers of the configuration. *)
Lemma refresh_sessions order m cfg p a :
  manager_wf m → order ≡ₚ map_to_list (m_sessions m) → m_started m = true → NoDup (sp_id <$> sshSyncPeersFromConfig cfg) →
  m_sessions (Refresh order m cfg) !! p = Some a →
  ∃ s, m_heap (Refresh order m cfg) !! a = Some s ∧ ss_peer s ∈ sshSyncPeersFromConfig cfg ∧ sp_id (ss_peer s) = p.
Proof.
  intros Hwf Horder Hstarted Hdistinct. destruct (refresh_drop_spec order m _ Hwf Horder Hdistinct) as (Hpeers & Hst & Hsub & Hold & Hpe).
  set (next := sshSyncPeersFromConfig cfg) in *. set (m1 := foldl _ (with_peers m next) order) in *.
  assert (Hm' : Refresh order m cfg = foldl refresh_start m1 next) by (unfold Refresh; fold next m1; by rewrite Hst, Hstarted).
  destruct (refresh_starts_spec next m1) as (_ & _ & Hse2 & Hh2 & _ & Hnew). rewrite <- Hm' in *. generalize dependent (Refresh order m cfg). intros m' _ Hse2 Hh2 Hnew.
  intros [Ha|(peer & Hpeer & <- & Hs)]%Hnew; [|by eexists]. destruct (Hwf p a) as (s & Hs & <-); [by eapply lookup_weaken|].
  destruct (Hold _ a s (lookup_weaken _ _ _ _ Ha Hsub) Hs) as [Hin Hno]. destruct (decide (ss_peer s ∈ next)) as [Hs2|Hs2]; [|destruct (Hno Hs2); congruence].
  exists s. split; [|done]. eapply lookup_weaken; [by apply Hin|done].
Qed.

(** What a configuration change does to the sessions. With distinct peer IDs,
    a refresh of a started manager leaves exactly one session per configured peer,
    for that peer as it is configured now; a session whose peer has not changed is
    the very same object, channel included; any other session is cancelled and is
    no longer the manager's, so none of its guarded updates acts; and a pending
    clip is forgotten only with the session of a peer that was removed. *)
Theorem Refresh_spec order m cfg
    (Hwf : manager_wf m) (Horder : order ≡ₚ map_to_list (m_sessions m)) (Hstarted : m_started m = true)
    (Hdistinct : NoDup (sp_id <$> sshSyncPeersFromConfig cfg)) :
  let next := sshSyncPeersFromConfig cfg in
  let m' := Refresh order m cfg in
  (∀ peer, peer ∈ next → ∃ a s, m_sessions m' !! sp_id peer = Some a ∧ m_heap m' !! a = Some s ∧ ss_peer s = peer) ∧
  (∀ p a, m_sessions m' !! p = Some a → p ∈ sp_id <$> next) ∧
  (∀ p a s, m_sessions m !! p = Some a → m_heap m !! a = Some s →
     (ss_peer s ∈ next → m_sessions m' !! p = Some a ∧ m_heap m' !! a = Some s) ∧
     (ss_peer s ∉ next → m_heap m' !! a = Some (cancel s) ∧ session_current m' a = false)) ∧
  (∀ p, m_pending m' !! p =
     if bool_decide (p ∉ sp_id <$> next ∧ is_Some (m_sessions m !! p)) then None else m_pending m !! p) ∧
  manager_wf m'.
Proof.
  intros next m'. pose proof (λ p a, refresh_sessions order m cfg p a Hwf Horder Hstarted Hdistinct) as Hcore. fold next m' in Hcore.
  destruct (refresh_drop_spec order m next Hwf Horder Hdistinct) as (Hpeers & Hst & Hsub & Hold & Hpe).
  set (m1 := foldl _ (with_peers m next) order) in *.
  assert (Hm' : m' = foldl refresh_start m1 next) by (unfold m', Refresh; fold next m1; by rewrite Hst, Hstarted).
  destruct (refresh_starts_spec next m1) as (_ & Hpe2 & Hse2 & Hh2 & Hall & Hnew). rewrite <- Hm' in *. clearbody m'. clear Hm'.
  assert (Huniq : ∀ x y, x ∈ next → y ∈ next → sp_id x = sp_id y → x = y).
  { intros x y Hx Hy Hid. destruct (nextByID_lookup next ∅ Hdistinct) as [Hl _].
    pose proof (Hl x Hx) as H1. rewrite Hid, (Hl y Hy) in H1. congruence. }
  split_and!.
  - intros peer Hpeer. destruct (Hall peer Hpeer) as [a Ha]. destruct (Hcore _ _ Ha) as (s & Hs & Hin & Hid).
    exists a, s. split; [done|]. split; [done|]. by apply Huniq.
  - intros p a (s & _ & Hin & <-)%Hcore. apply list_elem_of_fmap. by exists (ss_peer s).
  - intros p a s Ha Hs. destruct (Hold p a s Ha Hs) as [Hin Hno]. split.
    + intros [Hs1 Hh1]%Hin. split; by eapply lookup_weaken.
    + intros [Hs1 Hh1]%Hno. assert (Hc : m_heap m' !! a = Some (cancel s)) by (by eapply lookup_weaken). split; [done|].
      destruct (Hwf p a Ha) as (s' & Hs' & Hid). assert (s' = s) as -> by congruence.
      unfold session_current. rewrite Hc. apply bool_decide_eq_false. simpl. rewrite Hid.
      intros [?|(x & _ & _ & Hx)]%Hnew; [congruence|]. rewrite Hc in Hx. by injection Hx.
  - intros p. by rewrite Hpe2, Hpe.
  - intros p a (s & Hs & _ & Hid)%Hcore. by exists s.
Qed.

Lemma Refresh_spec_witness :
  let m' := Refresh (map_to_list (m_sessions demo_pending)) demo_pending (demo_config ["beta"; "gamma"]) in
  m_pending m' !! "alpha" = None ∧ m_pending m' !! "beta" = Some (MkOutbound (demo_clip "c1") "studio") ∧
  session_current m' 0 = false ∧ m_sessions m' !! "beta" = Some 1 ∧ is_Some (m_sessions m' !! "gamma").
Proof.
  destruct (Refresh_spec (map_to_list (m_sessions demo_pending)) demo_pending (demo_config ["beta"; "gamma"])
    demo_pending_wf (reflexivity _) eq_refl) as (Hall & _ & Hold & Hpe & _).
  { apply (bool_decide_unpack _). vm_compute. exact I. }
  intros m'. split; [|split; [|split; [|split]]].
  - rewrite Hpe. vm_compute. reflexivity.
  - rewrite Hpe. vm_compute. reflexivity.
  - destruct (m_heap demo_pending !! 0) as [s|] eqn:Hs; [|vm_compute in Hs; discriminate Hs].
    apply (Hold "alpha" 0 s); [vm_compute; reflexivity|exact Hs|].
    apply (bool_decide_unpack _). vm_compute in Hs. injection Hs as <-. vm_compute. exact I.
  - destruct (m_heap demo_pending !! 1) as [s|] eqn:Hs; [|vm_compute in Hs; discriminate Hs].
    apply (Hold "beta" 1 s); [vm_compute; reflexivity|exact Hs|].
    apply (bool_decide_unpack _). vm_compute in Hs. injection Hs as <-. vm_compute. exact I.
  - destruct (Hall (MkSyncPeer "gamma" "me" "gamma.local" 22 "/key" "/known_hosts" "/gw" "k2" false)) as (a & s & Ha & _).
    + apply (bool_decide_unpack _). vm_compute. exact I.
    + exists a. exact Ha.
Defined.

(** The lost clip. Run without interruption, a publication always leaves its
    clip in the channel; but the session's clean-up of duplicates takes the
    channel without the manager's lock, and there is a schedule in which it puts
    an older clip back between the publisher's two attempts, so that the newest
    clip is in no channel although it is pending. *)
Theorem channel_race (old new sent : sshOutboundState)
    (Hother : ID (ob_content old) ≠ ID (ob_content sent)) :
  (∀ ch ses, Channel.run ch (Channel.EnqSend1 new) ses [true; true; true] = (Some new, Channel.Done, ses)) ∧
  Channel.run (Some old) (Channel.EnqSend1 new) (Channel.DrainRecv sent) [true; false; true; false; true] =
    (Some old, Channel.Done, Channel.Done).
Proof.
  split; [by intros [] ses|]. simpl. by rewrite bool_decide_eq_false_2.
Qed.

Lemma channel_race_witness :
  Channel.run (Some (MkOutbound (demo_clip "old") "a")) (Channel.EnqSend1 (MkOutbound (demo_clip "new") "a"))
    (Channel.DrainRecv (MkOutbound (demo_clip "sent") "a")) [true; false; true; false; true] =
  (Some (MkOutbound (demo_clip "old") "a"), Channel.Done, Channel.Done).
Proof.
  apply (channel_race (MkOutbound (demo_clip "old") "a") (MkOutbound (demo_clip "new") "a") (MkOutbound (demo_clip "sent") "a")).
  discriminate.
Defined.
