(* ===== verification/SSHConfig.v ===== *)
(** * Validation of the SSH configuration: config/ssh.go

    What a configuration must be before the daemon acts on it.  An error is the
    text of the code up to its first colon; what follows it is detail. *)
From S2P Require Import Prelude GoStrings NetIP Paths Hostnames Config Clip Session.
From Stdlib Require Import Ascii String.
From stdpp Require Import strings.

(** ** Patterns *)

Definition alnum (a : ascii) : bool := is_upper a || is_lower a || is_digit a.

Definition key_id_byte (a : ascii) : bool := alnum a || bool_decide (a ∈ ["."; "_"; "-"]%char).

Definition path_byte (a : ascii) : bool := alnum a || bool_decide (a ∈ ["."; "_"; "/"; "@"; "+"; "-"]%char).

Definition proofKeyIDPattern (s : string) : bool := matches key_id_byte 8 64 s.

Definition sshPathPattern (s : string) : bool := negb (bool_decide (s = "")) && forall_bytes path_byte s.

Definition sshUserPattern (s : string) : bool := matches key_id_byte 1 64 s.

(** ** Paths, users and hosts *)

Definition path_controls : string := of_bytes [0; 10; 13; 9].

Definition ValidateSafeAbsolutePath (value : string) : result string () :=
  if bool_decide (value = "") then Err "empty"
  else if negb (HasPrefix value "/") then Err "relative"
  else if ContainsAny value path_controls then Err "invalid characters"
  else if negb (bool_decide (Clean value = value)) then Err "not canonical"
  else if existsb (λ part, bool_decide (part = "..")) (Split "/" value) then Err "parent traversal"
  else Ok ().

Definition ValidateSSHExecutablePath (value : string) : result string () :=
  match ValidateSafeAbsolutePath value with
  | Err _ => Err "invalid_ssh_path"
  | Ok _ => if sshPathPattern value then Ok () else Err "invalid_ssh_path"
  end.

Definition ValidateSSHUser (value : string) : result string () :=
  if negb (sshUserPattern value) then Err "invalid_ssh_user"
  else if HasPrefix value "-" then Err "invalid_ssh_user"
  else Ok ().

Definition host_metacharacters : string :=
  "@/" +:+ of_bytes [92; 34] +:+ "'`$;&|<>(){}[]*?!".

Definition isASCII (value : string) : bool := forall_bytes (λ a, (nat_of_ascii a <? 128)%nat) value.

Definition dns_byte (a : ascii) : bool := is_lower a || is_digit a || bool_decide (a = "-"%char).

Definition dns_label (label : string) : result string () :=
  if bool_decide (label = "") then Err "empty label"
  else if (63 <? len label)%nat then Err "label too long"
  else if HasPrefix label "-" || HasSuffix label "-" then Err "invalid label hyphen"
  else if forall_bytes dns_byte label then Ok () else Err "invalid dns label".

Fixpoint dns_labels (labels : list string) : result string () :=
  match labels with
  | [] => Ok ()
  | label :: labels => _ ← dns_label label; dns_labels labels
  end.

Definition CanonicalSSHHost (value : string) : result string string :=
  if bool_decide (value = "") then Err "empty"
  else if (253 <? len value)%nat then Err "too long"
  else if negb (bool_decide (TrimSpace value = value)) then Err "contains whitespace"
  else if HasPrefix value "-" then Err "starts with hyphen"
  else if ContainsAny value host_metacharacters then Err "contains invalid character"
  else
    match ParseIP value with
    | Some ip => if Contains value "%" then Err "scoped ipv6 is unsupported" else Ok (ToLower (IP_String ip))
    | None =>
        if Contains value ":" then Err "contains port suffix"
        else if negb (isASCII value) then Err "non-ascii host"
        else
          let host := ToLower (TrimSuffix value ".") in
          if bool_decide (host = "") then Err "empty"
          else if (253 <? len host)%nat then Err "too long"
          else _ ← dns_labels (Split "." host); Ok host
    end.

(** ** Proofs *)

Definition validateProofFields (keyID gatewayPath verifiedAt verifiedBy : string) : result string () :=
  if negb (proofKeyIDPattern keyID) then Err "invalid_proof_key_id"
  else if negb (is_ok (ValidateSSHExecutablePath gatewayPath)) then Err "invalid_proof_gateway_path"
  else if negb (rfc3339_ok verifiedAt) then Err "invalid_proof_verified_at"
  else if bool_decide (verifiedBy ∈ [ProofVerifiedByLocalFile; ProofVerifiedByRegularSSH; ProofVerifiedByTailscaleSSH]) then Ok ()
  else Err "invalid_proof_verified_by".

Definition direction_fields (proof : SSHProof) (direction : ProofDirection) : result string () :=
  match direction with
  | DirectionAccept => validateProofFields (AcceptKeyID proof) (AcceptGatewayPath proof) (AcceptVerifiedAt proof) (AcceptVerifiedBy proof)
  | DirectionConnect =>
      validateProofFields (ConnectKeyID proof) (ConnectGatewayPath proof) (ConnectVerifiedAt proof) (ConnectVerifiedBy proof)
  end.

Definition ValidateDirectionalProof (peer : SSHPeer) (direction : ProofDirection) : result string () :=
  let wanted := match direction with DirectionAccept => Accept peer | DirectionConnect => Connect peer end in
  if negb (Enabled peer) || negb wanted then Ok () else direction_fields (Proof_ peer) direction.

(** A check whose error gets a code of its own. *)
Definition wrap {A} (r : result string A) (code : string) : result string () :=
  match r with Ok _ => Ok () | Err _ => Err code end.

Definition optional_path (value code : string) : result string () :=
  if bool_decide (value = "") then Ok () else wrap (ValidateSSHExecutablePath value) code.

Definition connect_locator (peer : SSHPeer) : result string () :=
  if Connect peer then
    if bool_decide (SSHHost peer = "") || bool_decide (SSHUser peer = "") || (SSHPort peer =? 0)%Z then Err "missing_connect_locator"
    else
      _ ← wrap (ValidateSSHUser (SSHUser peer)) "invalid_ssh_user";
      wrap (CanonicalSSHHost (SSHHost peer)) "invalid_ssh_host"
  else if Persistent peer || OnDemand peer then Err "invalid_accept_only_peer_outbound_mode"
  else Ok ().

Definition given_proof (peer : SSHPeer) (direction : ProofDirection) (code : string) : result string () :=
  if hasDirectionalProof (Proof_ peer) direction then wrap (direction_fields (Proof_ peer) direction) code else Ok ().

Definition validateSSHPeer (localHostID : string) (peer : SSHPeer) (activeSSH : bool) : result string () :=
  match ValidateHostID (peer_ID peer) with
  | Err _ => Err "invalid_ssh_peer_id"
  | Ok _ =>
      if negb (bool_decide (localHostID = "")) && bool_decide (peer_ID peer = localHostID) then Err "ssh_peer_id_is_local_host"
      else if (SSHPort peer <? 0)%Z || (65535 <? SSHPort peer)%Z then Err "invalid_ssh_port"
      else
        _ ← optional_path (InstallPath peer) "invalid_install_path";
        _ ← optional_path (GatewayPath peer) "invalid_gateway_path";
        if negb activeSSH then Ok ()
        else if negb (validMigrationState (MigrationState peer)) then Err "invalid_migration_state"
        else
          _ ← connect_locator peer;
          _ ← given_proof peer DirectionAccept "invalid_accept_proof";
          _ ← given_proof peer DirectionConnect "invalid_connect_proof";
          if bool_decide (MigrationState peer = MigrationStateSSHKeysReady) then
            _ ← ValidateDirectionalProof peer DirectionAccept;
            ValidateDirectionalProof peer DirectionConnect
          else Ok ()
  end.

(** ** The whole configuration *)

Definition nul_byte : string := of_bytes [0].

Definition target_key (user host : string) (port : Z) : string := user +:+ nul_byte +:+ host +:+ nul_byte +:+ format_int port.

Fixpoint validate_peers (localHostID : string) (activeSSH : bool) (seen : gset string) (targets : gmap string string) (peers : list SSHPeer) :
    result string () :=
  match peers with
  | [] => Ok ()
  | peer :: peers =>
      _ ← validateSSHPeer localHostID peer activeSSH;
      if bool_decide (peer_ID peer ∈ seen) then Err "duplicate_ssh_peer_id"
      else
        let seen := {[peer_ID peer]} ∪ seen in
        if activeSSH && Enabled peer && Connect peer then
          match CanonicalSSHHost (SSHHost peer) with
          | Err _ => Err "invalid_ssh_host"
          | Ok host =>
              let key := target_key (SSHUser peer) host (SSHPort peer) in
              if negb (bool_decide (default "" (targets !! key) = "")) then Err "duplicate_ssh_target"
              else validate_peers localHostID activeSSH seen (<[key := peer_ID peer]> targets) peers
          end
        else validate_peers localHostID activeSSH seen targets peers
  end.

Definition ValidateSSHTransportConfig (cfg : Config) : result string () :=
  if negb (bool_decide (Transport cfg ∈ [""; TransportSSH])) then Err "invalid_transport"
  else
    let activeSSH := bool_decide (Transport cfg = TransportSSH) in
    match SSH cfg with
    | None => Ok ()
    | Some ssh =>
        if (MaxSessions ssh <? 0)%Z then Err "invalid_ssh_max_sessions"
        else if (MaxSessionsPerPeer ssh <? 0)%Z then Err "invalid_ssh_max_sessions_per_peer"
        else if (0 <? MaxSessions ssh)%Z && (MaxSessions ssh <? MaxSessionsPerPeer ssh)%Z then Err "invalid_ssh_max_sessions_per_peer"
        else if (LogLimitBytes ssh <? 0)%Z then Err "invalid_ssh_log_limit_bytes"
        else
          _ ← optional_path (SyncKey ssh) "invalid_sync_key";
          _ ← optional_path (KnownHosts ssh) "invalid_known_hosts";
          validate_peers (Hostname cfg) activeSSH ∅ ∅ (Peers ssh)
    end.

(** ** Paths under the home directory *)

Definition needsHomeExpansion (value : string) : bool := bool_decide (value = "~") || HasPrefix value "~/".

Definition ExpandLocalSSHPath (value homeDir : string) : string :=
  if bool_decide (value = "~") then homeDir
  else if HasPrefix value "~/" then path_join homeDir (TrimPrefix value "~/")
  else value.

(** [homeDir]: [None] when the home directory is unknown. *)
Definition NormalizeLocalSSHPaths (homeDir : option string) (cfg : Config) : result string Config :=
  match SSH cfg with
  | None => Ok cfg
  | Some ssh =>
      if negb (needsHomeExpansion (SyncKey ssh)) && negb (needsHomeExpansion (KnownHosts ssh)) then Ok cfg
      else
        match homeDir with
        | None => Err "home_dir_unavailable"
        | Some home =>
            let ssh := MkSSHConfig (ExpandLocalSSHPath (SyncKey ssh) home) (ExpandLocalSSHPath (KnownHosts ssh) home)
              (MaxSessions ssh) (MaxSessionsPerPeer ssh) (LogLimitBytes ssh) (Peers ssh) in
            Ok (MkConfig (ConfigVersion cfg) (ConfigRevision cfg) (Listen cfg) (SharedKey cfg) (Discovery cfg) (StaticPeers cfg)
              (Hostname cfg) (Transport cfg) (Some ssh) (Port cfg) (MaxHistory cfg))
        end
  end.

(** ** Examples *)

Example hosts :
  (λ h, match CanonicalSSHHost h with Ok c => c | Err e => "! " +:+ e end) <$>
    ["Studio.Local."; "10.0.0.1"; "2001:DB8::1"; "a..b"; "-x"; "a b"; "host:22"; "fe80::1%lo"; "x;rm"] =
  ["studio.local"; "10.0.0.1"; "2001:db8::1"; "! empty label"; "! starts with hyphen"; "! invalid dns label"; "! contains port suffix";
   "! contains port suffix"; "! contains invalid character"].
Proof. vm_compute. reflexivity. Qed.

(** ** Lemmas: the checks *)

Lemma wrap_Ok {A} (r : result string A) code : wrap r code = Ok () ↔ is_ok r = true.
Proof. by destruct r. Qed.

(** An executable path: rooted, no empty, dot or parent segment, safe bytes. *)
Definition executable_path (v : string) : Prop :=
  ∃ t, v = String "/" t ∧ (t = "" ∨ forallb plain_segment (Split "/" t) = true) ∧ forall_bytes path_byte v = true.

Lemma executable_path_Ok v : ValidateSSHExecutablePath v = Ok () → executable_path v.
Proof.
  unfold ValidateSSHExecutablePath, ValidateSafeAbsolutePath. case_bool_decide as Hne; [done|].
  destruct (HasPrefix v "/") eqn:Hp; cbn [negb]; [|done]. destruct (ContainsAny _ _); [done|].
  case_bool_decide as Hclean; cbn [negb]; [|done]. destruct (existsb _ _); [done|].
  unfold sshPathPattern. destruct (negb _ && _) eqn:Hpat; [|done]. intros _. apply andb_true_iff in Hpat as [_ Hpat].
  apply sprefix_spec in Hp as [t ->]. exists t. split; [done|]. split; [|done]. by apply Clean_fixed.
Qed.

Lemma optional_path_Ok v code : optional_path v code = Ok () → v ≠ "" → executable_path v.
Proof.
  unfold optional_path. intros Ho Hne. rewrite bool_decide_eq_false_2 in Ho by done. apply wrap_Ok in Ho.
  apply executable_path_Ok. by destruct (ValidateSSHExecutablePath v) as [[]|].
Qed.

Lemma user_Ok u : ValidateSSHUser u = Ok () → matches key_id_byte 1 64 u = true ∧ HasPrefix u "-" = false.
Proof.
  unfold ValidateSSHUser, sshUserPattern. destruct (matches _ _ _ u); [|done]. cbn [negb]. by destruct (HasPrefix u "-").
Qed.

Lemma host_Ok h c :
  CanonicalSSHHost h = Ok c → h ≠ "" ∧ len h ≤ 253 ∧ HasPrefix h "-" = false ∧ ContainsAny h host_metacharacters = false.
Proof.
  unfold CanonicalSSHHost. case_bool_decide; [done|]. destruct (253 <? len h)%nat eqn:Hl; [done|]. bool_prop.
  destruct (negb _); [done|]. destruct (HasPrefix h "-"); [done|]. by destruct (ContainsAny h host_metacharacters).
Qed.

Lemma proof_fields_Ok k g t v :
  validateProofFields k g t v = Ok () →
  proofKeyIDPattern k = true ∧ executable_path g ∧ rfc3339_ok t = true ∧
  v ∈ [ProofVerifiedByLocalFile; ProofVerifiedByRegularSSH; ProofVerifiedByTailscaleSSH].
Proof.
  unfold validateProofFields. destruct (proofKeyIDPattern k); [|done]. cbn [negb].
  destruct (ValidateSSHExecutablePath g) as [[]|] eqn:Hg; [|done]. cbn [is_ok negb].
  destruct (rfc3339_ok t); [|done]. cbn [negb]. case_bool_decide; [|done]. intros _. by apply executable_path_Ok in Hg.
Qed.

(** What a validated peer is, as far as a session uses it. *)
Lemma peer_Ok loc peer :
  validateSSHPeer loc peer true = Ok () →
  ValidateHostID (peer_ID peer) = Ok () ∧ (loc = "" ∨ peer_ID peer ≠ loc) ∧ (0 ≤ SSHPort peer ≤ 65535)%Z ∧
  (GatewayPath peer ≠ "" → executable_path (GatewayPath peer)) ∧
  (Connect peer = true → (SSHPort peer ≠ 0)%Z ∧ ValidateSSHUser (SSHUser peer) = Ok () ∧ ∃ c, CanonicalSSHHost (SSHHost peer) = Ok c) ∧
  (MigrationState peer = MigrationStateSSHKeysReady → Enabled peer = true → Connect peer = true →
    direction_fields (Proof_ peer) DirectionConnect = Ok ()).
Proof.
  unfold validateSSHPeer. destruct (ValidateHostID (peer_ID peer)) as [[]|]; [|done].
  destruct (_ && _) eqn:Hloc; [done|]. destruct (_ || _) eqn:Hport; [done|].
  intros Hok. apply bind_Ok in Hok as ([] & _ & Hok). apply bind_Ok in Hok as ([] & Hgw & Hok). cbn [negb] in Hok.
  destruct (negb (validMigrationState _)); [done|]. apply bind_Ok in Hok as ([] & Hconn & Hok).
  apply bind_Ok in Hok as ([] & _ & Hok). apply bind_Ok in Hok as ([] & _ & Hready).
  split; [done|]. split.
  { apply andb_false_iff in Hloc as [Hl|Hl]; bool_prop; [by left|by right]. }
  bool_prop. split; [lia|]. split; [by apply (optional_path_Ok _ "invalid_gateway_path")|]. split.
  - intros Hc. unfold connect_locator in Hconn. rewrite Hc in Hconn. destruct (_ || _) eqn:Hloc2; [done|]. bool_prop.
    apply bind_Ok in Hconn as ([] & Hu%wrap_Ok & Hh%wrap_Ok). split; [done|]. split; [by destruct (ValidateSSHUser _) as [[]|]|].
    destruct (CanonicalSSHHost _); [by eexists|done].
  - intros Hm He Hc. rewrite bool_decide_eq_true_2 in Hready by done. apply bind_Ok in Hready as ([] & _ & Hcon).
    unfold ValidateDirectionalProof in Hcon. by rewrite He, Hc in Hcon.
Qed.

Definition host_of (peer : SSHPeer) : string := match CanonicalSSHHost (SSHHost peer) with Ok h => h | Err _ => "" end.

Definition dials (peer : SSHPeer) : bool := Enabled peer && Connect peer.

Definition key_of (peer : SSHPeer) : string := target_key (SSHUser peer) (host_of peer) (SSHPort peer).

Lemma validate_peers_Ok loc seen targets l :
  validate_peers loc true seen targets l = Ok () → (∀ k id, targets !! k = Some id → id ≠ "") →
  Forall (λ p, validateSSHPeer loc p true = Ok ()) l ∧
  NoDup (peer_ID <$> l) ∧ (∀ p, p ∈ l → peer_ID p ∉ seen) ∧
  NoDup (key_of <$> filter (λ p, dials p = true) l) ∧ (∀ p, p ∈ l → dials p = true → targets !! key_of p = None).
Proof.
  revert seen targets. induction l as [|p l IH]; intros seen targets; cbn [validate_peers].
  { intros _ _. split; [done|]. split; [constructor|]. split; [by intros ? ?%elem_of_nil|]. split; [constructor|by intros ? ?%elem_of_nil]. }
  intros Hok Hne. apply bind_Ok in Hok as ([] & Hp & Hok). case_bool_decide as Hseen; [done|]. cbn [andb] in Hok.
  destruct (peer_Ok _ _ Hp) as (Hid & _). assert (Hpid : peer_ID p ≠ "") by (intros He; by rewrite He in Hid).
  assert (Hgoal : ∃ targets', (∀ k id, targets' !! k = Some id → id ≠ "") ∧ (∀ k, targets' !! k = None → targets !! k = None) ∧
      (dials p = true → targets !! key_of p = None ∧ is_Some (targets' !! key_of p)) ∧
      validate_peers loc true ({[peer_ID p]} ∪ seen) targets' l = Ok ()).
  { revert Hok. unfold dials, key_of, host_of. destruct (Enabled p && Connect p); [|intros Hok; by exists targets].
    destruct (CanonicalSSHHost (SSHHost p)) as [h|]; [|done]. case_bool_decide as Hk; [|done]. cbn [negb]. intros Hok.
    exists (<[target_key (SSHUser p) h (SSHPort p) := peer_ID p]> targets). split.
    { intros k id [[_ <-]|[_ ?]]%lookup_insert_Some; [done|eauto]. }
    split; [by intros k [? _]%lookup_insert_None|]. split; [|done]. intros _. rewrite lookup_insert_eq. split; [|by eexists].
    destruct (targets !! _) as [id|] eqn:E; [|done]. simpl in Hk. by apply Hne in E. }
  destruct Hgoal as (targets' & Hne' & Hsub & Hkey & Hrest). destruct (IH _ _ Hrest Hne') as (Hall & Hids & Hns & Hkeys & Hnt).
  split; [by constructor|]. split.
  { constructor; [|done]. intros (q & Hq & Hin)%list_elem_of_fmap. apply Hns in Hin. apply Hin. rewrite <- Hq. set_solver. }
  split. { intros q [->|Hin]%elem_of_cons; [done|]. apply Hns in Hin. set_solver. }
  split.
  - rewrite filter_cons. case_decide as Hd; [|done]. destruct (Hkey Hd) as [_ [x Hx]]. constructor; [|done].
    intros (q & Hq & [Hdq Hin]%list_elem_of_filter)%list_elem_of_fmap. pose proof (Hnt q Hin Hdq) as Hnone.
    rewrite <- Hq in Hnone. congruence.
  - intros q [->|Hin]%elem_of_cons Hd; [by apply Hkey|]. by apply Hsub, Hnt.
Qed.

Lemma sync_peers_sub ssh n peers :
  ∃ l, l `sublist_of` peers ∧ Forall (λ p, usable_peer p = true) l ∧ sync_peers ssh n peers = sync_peer ssh <$> l.
Proof.
  revert n. induction peers as [|p peers IH]; intros n; cbn [sync_peers]; [by exists []|].
  destruct (usable_peer p) eqn:Hu; cbn [negb].
  - destruct (_ && _); [exists []; split_and!; [apply sublist_nil_l|by constructor|done]|]. destruct (IH (S n)) as (l & Hsub & Hl & ->).
    exists (p :: l). split; [by apply sublist_skip|]. by split; [constructor|].
  - destruct (IH n) as (l & Hsub & Hl & ->). exists l. split; [by apply sublist_cons|done].
Qed.

(** What the daemon may rely on for a peer it dials. *)
Record session_safe (cfg : Config) (q : sshSyncPeer) : Prop := {
  ss_id : ValidateHostID (sp_id q) = Ok () ∧ (Hostname cfg = "" ∨ sp_id q ≠ Hostname cfg);
  ss_port : (1 ≤ sp_port q ≤ 65535)%Z;
  ss_user : matches key_id_byte 1 64 (sp_user q) = true ∧ HasPrefix (sp_user q) "-" = false;
  ss_host : HasPrefix (sp_host q) "-" = false ∧ ContainsAny (sp_host q) host_metacharacters = false ∧ is_ok (CanonicalSSHHost (sp_host q)) = true;
  ss_paths : executable_path (sp_privateKeyPath q) ∧ executable_path (sp_knownHostsPath q) ∧ executable_path (sp_gatewayPath q);
  ss_key : proofKeyIDPattern (sp_connectKeyID q) = true;
}.

Lemma filter_sublist_mono {A} (P : A → Prop) `{∀ x, Decision (P x)} (l k : list A) :
  l `sublist_of` k → filter P l `sublist_of` filter P k.
Proof.
  induction 1 as [|x l k Hs IH|x l k Hs IH]; [done| |]; rewrite ?filter_cons; repeat case_decide; try done;
    [by apply sublist_skip|by apply sublist_cons].
Qed.

Lemma filter_all {A} (P : A → Prop) `{∀ x, Decision (P x)} (l : list A) : Forall P l → filter P l = l.
Proof. induction 1 as [|x l Hx Hl IH]; [done|]. rewrite filter_cons, decide_True by done. by rewrite IH. Qed.

(** The peers a validated configuration gives sessions to. *)
Lemma sessions_of cfg :
  ValidateSSHTransportConfig cfg = Ok () → sshSyncPeersFromConfig (Some cfg) = [] ∨
  ∃ ssh l, executable_path (SyncKey ssh) ∧ executable_path (KnownHosts ssh) ∧
    Forall (λ p, validateSSHPeer (Hostname cfg) p true = Ok () ∧ usable_peer p = true) l ∧
    NoDup (peer_ID <$> l) ∧ NoDup (key_of <$> l) ∧ sshSyncPeersFromConfig (Some cfg) = sync_peer ssh <$> l.
Proof.
  unfold ValidateSSHTransportConfig, sshSyncPeersFromConfig. destruct (negb _); [done|].
  destruct (bool_decide (Transport cfg = TransportSSH)); [|by left]. cbn [negb].
  destruct (SSH cfg) as [ssh|]; [|by left]. destruct (MaxSessions ssh <? 0)%Z; [done|]. destruct (MaxSessionsPerPeer ssh <? 0)%Z; [done|].
  destruct (_ && _); [done|]. destruct (LogLimitBytes ssh <? 0)%Z; [done|]. intros Hok.
  apply bind_Ok in Hok as ([] & Hkey & Hok). apply bind_Ok in Hok as ([] & Hknown & Hok).
  destruct (_ || _) eqn:Hempty; [by left|]. bool_prop. right.
  destruct (validate_peers_Ok _ _ _ _ Hok) as (Hall & Hids & _ & Hkeys & _); [intros k id; by rewrite lookup_empty|].
  destruct (sync_peers_sub ssh 0 (Peers ssh)) as (l & Hsub & Hl & ->). exists ssh, l.
  assert (Hd : Forall (λ p, dials p = true) l).
  { eapply Forall_impl; [exact Hl|]. intros p. unfold usable_peer, dials. rewrite !andb_true_iff. tauto. }
  split_and!; [by eapply optional_path_Ok|by eapply optional_path_Ok| | | |done].
  - apply Forall_and. split; [by eapply Forall_sublist|done].
  - eapply sublist_NoDup; [exact Hids|by apply sublist_fmap].
  - eapply sublist_NoDup; [exact Hkeys|apply sublist_fmap]. rewrite <- (filter_all (λ p, dials p = true) l Hd).
    by apply filter_sublist_mono.
Qed.

Lemma session_safe_of cfg ssh p :
  executable_path (SyncKey ssh) → executable_path (KnownHosts ssh) →
  validateSSHPeer (Hostname cfg) p true = Ok () → usable_peer p = true → session_safe cfg (sync_peer ssh p).
Proof.
  intros Hkey Hknown Hp Hu. destruct (peer_Ok _ _ Hp) as (Hid & Hloc & Hport & Hgw & Hconn & Hproof).
  unfold usable_peer in Hu. bool_prop.
  destruct Hconn as (Hport0 & Huser & c & Hhost); [done|]. apply user_Ok in Huser. pose proof (host_Ok _ _ Hhost) as (_ & _ & Hh1 & Hh2).
  specialize (Hproof ltac:(done) ltac:(done) ltac:(done)). apply proof_fields_Ok in Hproof as (Hk & Hg & _).
  split; cbn [sync_peer sp_id sp_port sp_user sp_host sp_privateKeyPath sp_knownHostsPath sp_gatewayPath sp_connectKeyID].
  - done.
  - lia.
  - done.
  - by rewrite Hhost.
  - split; [done|]. split; [done|]. case_bool_decide; [done|by apply Hgw].
  - done.
Qed.

Lemma sessions_distinct cfg : ValidateSSHTransportConfig cfg = Ok () → NoDup (sp_id <$> sshSyncPeersFromConfig (Some cfg)).
Proof.
  intros Hok. destruct (sessions_of cfg Hok) as [Hnil|(ssh & l & Hkey & Hknown & Hl & Hids & Hkeys & Heq)]; [rewrite Hnil; constructor|].
  rewrite Heq. by rewrite <- list_fmap_compose.
Qed.

(** ** Properties *)

(** C29. From a configuration that validates, the daemon dials only what is safe to
    put on ssh's command line: every session has a valid host ID that is not the
    local one, a port from 1 to 65535, a user and a host without a leading hyphen
    and without shell metacharacters, absolute canonical paths of safe bytes for
    the key, the known hosts and the gateway, and the key ID of a verified proof;
    the sessions have distinct IDs, and no two dial the same user, host and port. *)
Theorem validated_sessions cfg (Hok : ValidateSSHTransportConfig cfg = Ok ()) :
  let peers := sshSyncPeersFromConfig (Some cfg) in
  Forall (session_safe cfg) peers ∧ NoDup (sp_id <$> peers) ∧
  NoDup ((λ q, (sp_user q, CanonicalSSHHost (sp_host q), sp_port q)) <$> peers).
Proof.
  intros peers. destruct (sessions_of cfg Hok) as [Hnil|(ssh & l & Hkey & Hknown & Hl & Hids & Hkeys & Heq)]; unfold peers.
  { rewrite Hnil. split; [done|]. split; constructor. }
  split; [rewrite Heq|split; [by apply sessions_distinct|rewrite Heq]].
  - apply Forall_fmap. eapply Forall_impl; [exact Hl|]. intros p [Hp Hu]. by apply session_safe_of.
  - rewrite <- list_fmap_compose.
    apply (NoDup_fmap_1 (λ x : string * result string string * Z,
      target_key x.1.1 (match x.1.2 with Ok h => h | Err _ => "" end) x.2)).
    by rewrite <- list_fmap_compose.
Qed.

(** ** A concrete configuration *)

Definition demo_proof : SSHProof :=
  MkSSHProof "accept-01" "/usr/bin/clipfan" "2024-01-02T03:04:05Z" ProofVerifiedByLocalFile
    "connect-01" "/usr/bin/clipfan" "2024-01-02T03:04:05Z" ProofVerifiedByRegularSSH.

Definition ready_peer (id : string) : SSHPeer :=
  MkSSHPeer id (id +:+ ".local") "me" 22 "" "" true true true true false MigrationStateSSHKeysReady demo_proof.

Definition ready_config (ids : list string) : Config :=
  MkConfig None None "" "key" "" [] "studio" TransportSSH
    (Some (MkSSHConfig "/home/me/.ssh/clipfan" "/home/me/.ssh/known_hosts" 0 0 0 (ready_peer <$> ids))) 7853 50.

Lemma validated_sessions_witness :
  (sp_id <$> sshSyncPeersFromConfig (Some (ready_config ["alpha"; "beta"]))) = ["alpha"; "beta"] ∧
  Forall (session_safe (ready_config ["alpha"; "beta"])) (sshSyncPeersFromConfig (Some (ready_config ["alpha"; "beta"]))).
Proof.
  split; [vm_compute; reflexivity|].
  apply (validated_sessions (ready_config ["alpha"; "beta"])). vm_compute. reflexivity.
Defined.

(** Two peers under one ID, the local host as a peer, and two IDs for one target
    are refused. *)
Example refused_configs :
  ValidateSSHTransportConfig (ready_config ["alpha"; "alpha"]) = Err "duplicate_ssh_peer_id" ∧
  ValidateSSHTransportConfig (ready_config ["studio"]) = Err "ssh_peer_id_is_local_host" ∧
  ValidateSSHTransportConfig (ready_config ["alpha"; "ALPHA"]) = Err "duplicate_ssh_target".
Proof. repeat split; vm_compute; reflexivity. Qed.
