(* ===== verification/Fleet.v ===== *)
(** * Views of the fleet: daemon/daemon.go, fleet_snapshot.go, fleet_aggregate.go

    The peer snapshot of the daemon merges three tables by host name: discovered
    peers, configured SSH peers with their session status, and the origins clips
    came from.  Go ranges over the tables in any order: [iter] gives the order in
    which the rows known so far are searched, another argument the order of the
    origins.  The fleet view puts the snapshots of all hosts together. *)
From S2P Require Import Prelude GoStrings Json Hostnames Config Clip Session Daemon.
From Stdlib Require Import Ascii String.
From stdpp Require Import strings.

#[local] Notation rows := (gmap string PeerState).

(** ** Rows *)

Definition with_port (s : PeerState) (port : Z) : PeerState :=
  MkPeerState (ps_Hostname s) port (ps_LastPushTS s) (ps_LastPushOK s) (ps_LastPushErr s) (ps_LastRecvTS s) (ps_Transport s) (ps_SSHHost s)
    (ps_SSHPort s) (ps_SSHUser s) (ps_SSHActive s) (ps_SSHPending s) (ps_SSHStatus s) (ps_SSHLastConnectTS s) (ps_SSHLastAckTS s)
    (ps_SSHLastError s) (ps_SSHLastErrorTS s).

Definition with_push (s : PeerState) (ts : time) (ok : bool) (err : string) : PeerState :=
  MkPeerState (ps_Hostname s) (ps_Port s) ts ok err (ps_LastRecvTS s) (ps_Transport s) (ps_SSHHost s)
    (ps_SSHPort s) (ps_SSHUser s) (ps_SSHActive s) (ps_SSHPending s) (ps_SSHStatus s) (ps_SSHLastConnectTS s) (ps_SSHLastAckTS s)
    (ps_SSHLastError s) (ps_SSHLastErrorTS s).

Definition with_ssh (s : PeerState) (peer : SSHPeer) : PeerState :=
  MkPeerState (ps_Hostname s) (ps_Port s) (ps_LastPushTS s) (ps_LastPushOK s) (ps_LastPushErr s) (ps_LastRecvTS s) TransportSSH (SSHHost peer)
    (SSHPort peer) (SSHUser peer) (ps_SSHActive s) (ps_SSHPending s) "waiting" (ps_SSHLastConnectTS s) (ps_SSHLastAckTS s)
    (ps_SSHLastError s) (ps_SSHLastErrorTS s).

Definition mergeSSHRuntimeState (row : PeerState) (state : SSHPeerRuntimeState) : PeerState :=
  MkPeerState (ps_Hostname row) (ps_Port row) (ps_LastPushTS row) (ps_LastPushOK row) (ps_LastPushErr row)
    (if negb (IsZero (rt_LastRecvTS state)) && IsZero (ps_LastRecvTS row) then rt_LastRecvTS state else ps_LastRecvTS row)
    (ps_Transport row) (ps_SSHHost row) (ps_SSHPort row) (ps_SSHUser row) (rt_Active state) (rt_Pending state)
    (if bool_decide (rt_Status state = "") then ps_SSHStatus row else rt_Status state)
    (if IsZero (rt_LastConnectTS state) then ps_SSHLastConnectTS row else rt_LastConnectTS state)
    (if IsZero (rt_LastAckTS state) then ps_SSHLastAckTS row else rt_LastAckTS state)
    (rt_LastError state)
    (if IsZero (rt_LastErrorTS state) then ps_SSHLastErrorTS row else rt_LastErrorTS state).

Definition sshPeerVisibleInSnapshot (peer : SSHPeer) : bool :=
  if negb (Enabled peer) || negb (bool_decide (MigrationState peer = MigrationStateSSHKeysReady)) then false
  else Accept peer || Connect peer.

(** The first row known under a name of this host. *)
Definition matching (keys : list string) (host : string) : option string :=
  snd <$> list_find (λ existing, HostsMatch existing host = true) keys.

Section snapshot.
Context (iter : rows → list string).

(** The rows and the key of the candidate's row. *)
Definition mergeSnapshotPeer (known : rows) (candidate : PeerState) : rows * string :=
  let target := default (ps_Hostname candidate) (matching (iter known) (ps_Hostname candidate)) in
  let row := default (new_peer_row (ps_Hostname candidate) (ps_Port candidate)) (known !! target) in
  let row := if (ps_Port row =? 0)%Z then with_port row (ps_Port candidate) else row in
  (<[target := row]> known, target).

Definition add_ssh_peer (origin : string) (port : Z) (runtime : gmap string SSHPeerRuntimeState) (known : rows) (peer : SSHPeer) : rows :=
  if negb (sshPeerVisibleInSnapshot peer) then known
  else if HostsMatch (peer_ID peer) origin then known
  else
    let '(known, target) := mergeSnapshotPeer known (new_peer_row (peer_ID peer) port) in
    alter (λ row,
      let row := with_ssh row peer in
      match runtime !! peer_ID peer with Some state => mergeSSHRuntimeState row state | None => row end) target known.

Definition addConfiguredSSHPeersToSnapshot (cfg : option Config) (origin : string) (known : rows)
    (runtime : gmap string SSHPeerRuntimeState) : rows :=
  match cfg with
  | None => known
  | Some cfg =>
      if negb (bool_decide (Transport cfg = TransportSSH)) then known
      else
        match SSH cfg with
        | None => known
        | Some ssh =>
            let port := if (Port cfg =? 0)%Z then 7853%Z else Port cfg in
            foldl (add_ssh_peer origin port runtime) known (Peers ssh)
        end
  end.

(** One turn of the loop over the origins. *)
Definition add_status (origin : string) (known : rows) (x : string * PeerState) : rows :=
  let '(h, s) := x in
  if HostsMatch h origin then known
  else
    let target := default h (matching (iter known) h) in
    let k := default (new_peer_row (ps_Hostname s) (ps_Port s)) (known !! target) in
    let k := if IsZero (ps_LastPushTS s) then k else with_push k (ps_LastPushTS s) (ps_LastPushOK s) (ps_LastPushErr s) in
    let k := if IsZero (ps_LastRecvTS s) then k else with_recv k (ps_LastRecvTS s) in
    <[target := k]> known.

Definition add_discovered (known : rows) (p : Peer) : rows :=
  if p_Self p then known else <[p_Hostname p := new_peer_row (p_Hostname p) (p_Port p)]> known.

(** [discovered] is [None] when discovery failed; [order] is the order of the
    origins. *)
Definition snapshot_rows (discovered : option (list Peer)) (runtime : gmap string SSHPeerRuntimeState) (cfg : option Config)
    (origin : string) (order : list (string * PeerState)) : rows :=
  let known := foldl add_discovered ∅ (default [] discovered) in
  let known := addConfiguredSSHPeersToSnapshot cfg origin known runtime in
  foldl (add_status origin) known order.

Definition less_host (a b : PeerState) : bool := String.ltb (ps_Hostname a) (ps_Hostname b).

Definition Snapshot (discovered : option (list Peer)) (runtime : gmap string SSHPeerRuntimeState) (cfg : option Config)
    (origin : string) (order : list (string * PeerState)) : list PeerState :=
  stable_sort less_host ((map_to_list (snapshot_rows discovered runtime cfg origin order)).*2).
End snapshot.

(** ** The fleet snapshot of one host *)

Record FleetSnapshotPeer := MkFleetPeer {
  fp_ID : string;
  fp_SSHHost : string;
  fp_SSHPort : Z;
  fp_SSHUser : string;
  fp_MigrationState : string;
  fp_SSHStatus : string;
  fp_SSHActive : bool;
  fp_LastRecvTS : time;
  fp_SSHLastAckTS : time;
  fp_SSHLastConnectTS : time;
}.

Record FleetSnapshot := MkFleetSnapshot {
  fs_Origin : string;
  fs_Version : string;
  fs_Peers : list FleetSnapshotPeer;
}.

Definition fleet_peer (live : rows) (peer : SSHPeer) : FleetSnapshotPeer :=
  match live !! peer_ID peer with
  | Some state =>
      MkFleetPeer (peer_ID peer) (SSHHost peer) (SSHPort peer) (SSHUser peer) (MigrationState peer) (ps_SSHStatus state) (ps_SSHActive state)
        (ps_LastRecvTS state) (ps_SSHLastAckTS state) (ps_SSHLastConnectTS state)
  | None =>
      MkFleetPeer (peer_ID peer) (SSHHost peer) (SSHPort peer) (SSHUser peer) (MigrationState peer) "" false zero_time zero_time zero_time
  end.

Definition BuildFleetSnapshot (version : string) (cfg : option Config) (origin : string) (peers : list PeerState) : FleetSnapshot :=
  let live := foldl (λ (m : rows) p, <[ps_Hostname p := p]> m) ∅ peers in
  match cfg with
  | None => MkFleetSnapshot origin version []
  | Some cfg =>
      match SSH cfg with
      | None => MkFleetSnapshot origin version []
      | Some ssh => MkFleetSnapshot origin version (fleet_peer live <$> Peers ssh)
      end
  end.

(** ** The view of the fleet *)

Record FleetViewHost := MkFleetHost {
  fh_ID : string;
  fh_Reachable : bool;
  fh_Snapshot : option FleetSnapshot;
  fh_Error : string;
}.

Record FleetView := MkFleetView {
  fv_Origin : string;
  fv_Version : string;
  fv_Hosts : list FleetViewHost;
}.

Record CommandOutput := MkOutput {
  co_Stdout : string;
  co_Stderr : string;
  co_StdoutTruncated : bool;
  co_StderrTruncated : bool;
}.

Definition decode_fleet_peer (as_time : json → option (option time)) (v : json) : option FleetSnapshotPeer :=
  match v with
  | VNull => Some (MkFleetPeer "" "" 0 "" "" "" false zero_time zero_time zero_time)
  | VObject l =>
      let '(id, ok1) := assign as_string "" true (struct_field "id" l) in
      let '(host, ok2) := assign as_string "" true (struct_field "ssh_host" l) in
      let '(port, ok3) := assign as_int 0%Z true (struct_field "ssh_port" l) in
      let '(user, ok4) := assign as_string "" true (struct_field "ssh_user" l) in
      let '(state, ok5) := assign as_string "" true (struct_field "migration_state" l) in
      let '(status, ok6) := assign as_string "" true (struct_field "ssh_status" l) in
      let '(active, ok7) := assign as_bool false true (struct_field "ssh_active" l) in
      let '(recv, ok8) := assign as_time zero_time true (struct_field "last_recv_ts" l) in
      let '(ack, ok9) := assign as_time zero_time true (struct_field "ssh_last_ack_ts" l) in
      let '(connect, ok10) := assign as_time zero_time true (struct_field "ssh_last_connect_ts" l) in
      if forallb (λ b, b) [ok1; ok2; ok3; ok4; ok5; ok6; ok7; ok8; ok9; ok10]
      then Some (MkFleetPeer id host port user state status active recv ack connect) else None
  | _ => None
  end.

Definition as_fleet_peers (as_time : json → option (option time)) (v : json) : option (option (list FleetSnapshotPeer)) :=
  match v with
  | VNull => Some (Some [])
  | VArray l => Some <$> mapM (decode_fleet_peer as_time) l
  | _ => None
  end.

(** [decodeFleetSnapshot]; an error is its text up to the first colon. *)
Definition decodeFleetSnapshot (as_time : json → option (option time)) (output : CommandOutput) : result string FleetSnapshot :=
  if co_StdoutTruncated output || co_StderrTruncated output then Err "fleet_snapshot_output_truncated"
  else if negb (bool_decide (TrimSpace (co_Stderr output) = "")) then Err "fleet_snapshot_stderr_not_empty"
  else
    let text := co_Stdout output in
    match parse_value (2 * len text + 2) maxNestingDepth text with
    | None => Err "fleet_snapshot_malformed_json"
    | Some (v, rest) =>
        match (match v with VObject l => Some l | VNull => Some [] | _ => None end) with
        | None => Err "fleet_snapshot_malformed_json"
        | Some l =>
            let '(origin, ok1) := assign as_string "" true (struct_field "origin" l) in
            let '(version, ok2) := assign as_string "" true (struct_field "version" l) in
            let '(peers, ok3) := assign (as_fleet_peers as_time) [] true (struct_field "peers" l) in
            if negb (ok1 && ok2 && ok3) then Err "fleet_snapshot_malformed_json"
            else if bool_decide (skip_space rest = "") then
              if bool_decide (origin = "") then Err "fleet_snapshot_missing_origin" else Ok (MkFleetSnapshot origin version peers)
            else if bool_decide (is_Some (parse_value (2 * len rest + 2) maxNestingDepth rest)) then Err "fleet_snapshot_trailing_json"
            else Err "fleet_snapshot_malformed_json"
        end
    end.

(** A peer to ask: its command, or why there is none; and what running it gave. *)
Record fleetPeerTarget := MkTarget {
  ft_ID : string;
  ft_Run : result string (result string CommandOutput);
}.

Definition gatherPeerSnapshot (as_time : json → option (option time)) (target : fleetPeerTarget) : FleetViewHost :=
  let unreachable err := MkFleetHost (ft_ID target) false None err in
  match ft_Run target with
  | Err e => unreachable e
  | Ok (Err e) => unreachable e
  | Ok (Ok output) =>
      match decodeFleetSnapshot as_time output with
      | Err e => unreachable e
      | Ok snapshot => MkFleetHost (ft_ID target) true (Some snapshot) ""
      end
  end.

Definition less_id (a b : FleetViewHost) : bool := String.ltb (fh_ID a) (fh_ID b).

(** The results come in the order of the targets whatever order they finish in;
    [sort.Slice] is not stable, so hosts of one ID may come in any order:
    [stable_sort] is one of them. *)
Definition gatherFleetView (as_time : json → option (option time)) (local : FleetSnapshot) (targets : list fleetPeerTarget) : FleetView :=
  let hosts := MkFleetHost (fs_Origin local) true (Some local) "" :: (gatherPeerSnapshot as_time <$> targets) in
  MkFleetView (fs_Origin local) (fs_Version local) (stable_sort less_id hosts).

Definition fleetViewCacheTTL : Z := (8 * second)%Z.

(** The cached view and when it was fetched. *)
Definition fleetView (cached : FleetView) (fetchedAt now : time) (gather : FleetView) (done : time) : FleetView * (FleetView * time) :=
  if negb (IsZero fetchedAt) && (now - fetchedAt <? fleetViewCacheTTL)%Z then (cached, (cached, fetchedAt))
  else (gather, (gather, done)).

(** ** Lemmas: the rows *)

(** Every row stands under its own name. *)
Definition rows_named (known : rows) : Prop := ∀ k row, known !! k = Some row → ps_Hostname row = k.

(** A row that stands for [host]. *)
Definition stands_for (k host : string) : Prop := k = host ∨ HostsMatch k host = true.

Lemma matching_stands keys host : stands_for (default host (matching keys host)) host.
Proof.
  unfold matching. destruct (list_find _ keys) as [[i k]|] eqn:Hf; [|by left]. apply list_find_Some in Hf as (_ & Hk & _). by right.
Qed.

Lemma matching_known (iter : rows → list string) known host k :
  iter known ≡ₚ (map_to_list known).*1 → matching (iter known) host = Some k → is_Some (known !! k).
Proof.
  intros Hiter. unfold matching. destruct (list_find _ (iter known)) as [[i k']|] eqn:Hf; [|done]. intros [= <-].
  apply list_find_Some in Hf as (Hi & _). apply list_elem_of_lookup_2 in Hi. rewrite Hiter in Hi.
  apply list_elem_of_fmap in Hi as ([k2 row] & -> & Hin%elem_of_map_to_list). by exists row.
Qed.

(** A step from one table of rows to the next that only adds or updates rows: a
    row stays an SSH row, and a new row has a name [P] allows. *)
Definition extends (P : string → Prop) (known known' : rows) : Prop :=
  (∀ k row, known !! k = Some row → ∃ row', known' !! k = Some row' ∧ (ps_Transport row = TransportSSH → ps_Transport row' = TransportSSH)) ∧
  (∀ k, is_Some (known' !! k) → is_Some (known !! k) ∨ P k).

Lemma extends_refl P known : extends P known known.
Proof. split; [|by left]. intros k row Hk. by exists row. Qed.

Lemma extends_trans P Q a b c : extends P a b → extends Q b c → extends (λ k, P k ∨ Q k) a c.
Proof.
  intros (Hk1 & Ho1) (Hk2 & Ho2). split.
  - intros k row Hk. destruct (Hk1 k row Hk) as (row1 & Hrow1 & Ht1). destruct (Hk2 k row1 Hrow1) as (row2 & Hrow2 & Ht2). eauto.
  - intros k [Hb|Hin]%Ho2; [apply Ho1 in Hb as [?|?]|]; auto.
Qed.

Lemma extends_weaken (P Q : string → Prop) a b : (∀ k, P k → Q k) → extends P a b → extends Q a b.
Proof. intros HPQ [Hk Ho]. split; [done|]. intros k [?|?]%Ho; auto. Qed.

(** What every row of the snapshot is: under its own name, and an SSH row only
    with the address of one of [peers] it stands for. *)
Definition rows_backed (peers : list SSHPeer) (known : rows) : Prop :=
  rows_named known ∧
  (∀ k row, known !! k = Some row → ps_Transport row = TransportSSH →
   ∃ peer, peer ∈ peers ∧ sshPeerVisibleInSnapshot peer = true ∧ stands_for k (peer_ID peer) ∧
     ps_SSHHost row = SSHHost peer ∧ ps_SSHPort row = SSHPort peer ∧ ps_SSHUser row = SSHUser peer).

(** Writing one row that is named by its key. *)
Lemma extends_insert (P : string → Prop) known k row :
  is_Some (known !! k) ∨ P k → (∀ old, known !! k = Some old → ps_Transport old = TransportSSH → ps_Transport row = TransportSSH) →
  extends P known (<[k := row]> known).
Proof.
  intros HP Ht. split.
  - intros j r Hj. destruct (decide (k = j)) as [->|Hne].
    + exists row. rewrite lookup_insert_eq. split; [done|]. by apply Ht.
    + exists r. by rewrite lookup_insert_ne.
  - intros j [r [[<- _]|[_ Hj]]%lookup_insert_Some]; [done|left; by exists r].
Qed.

Lemma rows_backed_insert peers known k row :
  rows_backed peers known → ps_Hostname row = k →
  (ps_Transport row = TransportSSH →
   ∃ peer, peer ∈ peers ∧ sshPeerVisibleInSnapshot peer = true ∧ stands_for k (peer_ID peer) ∧
     ps_SSHHost row = SSHHost peer ∧ ps_SSHPort row = SSHPort peer ∧ ps_SSHUser row = SSHUser peer) →
  rows_backed peers (<[k := row]> known).
Proof.
  intros [Hn Hb] Hname Hssh. split.
  - intros j r [[<- <-]|[_ Hj]]%lookup_insert_Some; [done|by apply Hn].
  - intros j r [[<- <-]|[_ Hj]]%lookup_insert_Some; [done|by eapply Hb].
Qed.

(** A loop over [l] that extends the rows, every turn of which leaves a row with a
    property that lasts. *)
Lemma extends_fold {A} (step : rows → A → rows) (P : A → string → Prop) (I : rows → Prop) (Q : A → rows → Prop) l known :
  (∀ known x, x ∈ l → I known → extends (P x) known (step known x) ∧ I (step known x) ∧ Q x (step known x)) →
  (∀ x a b P', extends P' a b → Q x a → Q x b) → I known →
  extends (λ k, ∃ x, x ∈ l ∧ P x k) known (foldl step known l) ∧ I (foldl step known l) ∧ ∀ x, x ∈ l → Q x (foldl step known l).
Proof.
  intros Hstep Hlast. revert known. induction l as [|x l IH]; intros known HI; simpl.
  { split; [apply extends_refl|]. split; [done|]. by intros x Hx%not_elem_of_nil. }
  destruct (Hstep known x) as (He & HI' & HQ); [by left|done|].
  destruct (IH (λ known y Hy, Hstep known y (list_elem_of_further _ _ _ Hy)) _ HI') as (He' & HI'' & HQ').
  split; [|split; [done|]].
  - eapply extends_weaken; [|by eapply extends_trans]. intros k [?|(y & Hy & ?)]; [exists x|exists y]; (split; [|done]); [by left|by right].
  - intros y [->|Hy]%elem_of_cons; [by eapply Hlast|by apply HQ'].
Qed.

(** A row named [k] that stands for [host], and is an SSH row if [ssh]. *)
Definition has_row (ssh : bool) (host : string) (known : rows) : Prop :=
  ∃ k row, stands_for k host ∧ known !! k = Some row ∧ (ssh = true → ps_Transport row = TransportSSH).

Lemma has_row_extends ssh host P a b : extends P a b → has_row ssh host a → has_row ssh host b.
Proof.
  intros [Hk _] (k & row & Hs & Hrow & Ht). destruct (Hk k row Hrow) as (row' & Hrow' & Ht'). exists k, row'. auto.
Qed.

(** ** Lemmas: the three loops *)

Lemma discovered_extends (l : list Peer) :
  extends (λ k, ∃ p, p ∈ l ∧ (p_Self p = false ∧ k = p_Hostname p)) ∅ (foldl add_discovered ∅ l) ∧
  rows_backed [] (foldl add_discovered ∅ l) ∧
  ∀ p, p ∈ l → p_Self p = false → is_Some (foldl add_discovered ∅ l !! p_Hostname p).
Proof.
  apply (extends_fold add_discovered _ (rows_backed []) (λ p m, p_Self p = false → is_Some (m !! p_Hostname p))).
  - intros known p _ Hb. unfold add_discovered. destruct (p_Self p) eqn:Hself; [split; [apply extends_refl|done]|].
    split; [|split].
    + apply extends_insert; [by right|]. intros old Ho Hs. destruct Hb as [_ Hb]. destruct (Hb _ _ Ho Hs) as (q & Hq & _). by apply not_elem_of_nil in Hq.
    + by apply rows_backed_insert.
    + intros _. rewrite lookup_insert_eq. by eexists.
  - intros p a b P' [Hk _] HQ Hself. destruct (HQ Hself) as [row Hrow]. destruct (Hk _ _ Hrow) as (row' & Hrow' & _). by exists row'.
  - split; intros ? ? ?%lookup_empty_Some; done.
Qed.

Section rows_facts.
Context (iter : rows → list string) (Hiter : ∀ m, iter m ≡ₚ (map_to_list m).*1).

(** The row a host's data goes to is known, or new and named after the host. *)
Lemma target_row known host :
  let target := default host (matching (iter known) host) in is_Some (known !! target) ∨ target = host.
Proof.
  destruct (matching (iter known) host) as [t|] eqn:Hm; simpl; [|by right]. left. by eapply matching_known.
Qed.

Lemma target_named known host row :
  rows_named known → ps_Hostname row = host →
  let target := default host (matching (iter known) host) in ps_Hostname (default row (known !! target)) = target.
Proof.
  intros Hn Hrow target. destruct (known !! target) as [old|] eqn:Ho; [by apply Hn|].
  destruct (target_row known host) as [Hs|Ht]; [|simpl; unfold target; congruence]. unfold target in Ho. rewrite Ho in Hs. by destruct Hs.
Qed.

Lemma add_status_extends peers origin known h s :
  ps_Hostname s = h → rows_backed peers known →
  extends (λ k, HostsMatch h origin = false ∧ k = h) known (add_status iter origin known (h, s)) ∧
  rows_backed peers (add_status iter origin known (h, s)) ∧
  (HostsMatch h origin = false → has_row false h (add_status iter origin known (h, s))).
Proof.
  intros Hs Hb. pose proof Hb as [Hn _]. unfold add_status. destruct (HostsMatch h origin); [split; [apply extends_refl|done]|].
  pose proof (target_row known h) as Ht. pose proof (target_named known h (new_peer_row (ps_Hostname s) (ps_Port s)) Hn Hs) as Hname.
  pose proof (matching_stands (iter known) h) as Hst. cbv zeta in Ht, Hname. revert Ht Hname Hst.
  generalize (default h (matching (iter known) h)). intros target Ht Hname Hst.
  set (k := default _ (known !! target)) in *. set (row := if IsZero (ps_LastRecvTS s) then _ else _).
  assert (Hrow : ps_Hostname row = ps_Hostname k ∧ ps_Transport row = ps_Transport k ∧ ps_SSHHost row = ps_SSHHost k ∧
    ps_SSHPort row = ps_SSHPort k ∧ ps_SSHUser row = ps_SSHUser k).
  { unfold row. by destruct (IsZero (ps_LastRecvTS s)), (IsZero (ps_LastPushTS s)). }
  destruct Hrow as (Hrn & Hrt & Hr1 & Hr2 & Hr3). assert (Hold : ∀ old, known !! target = Some old → k = old).
  { unfold k. by intros old ->. }
  split; [|split].
  - apply extends_insert; [destruct Ht as [?| ->]; [by left|by right]|]. intros old Ho Hos. by rewrite Hrt, (Hold old Ho).
  - apply rows_backed_insert; [done|congruence|]. rewrite Hrt, Hr1, Hr2, Hr3. destruct Hb as [_ Hb]. unfold k.
    destruct (known !! target) as [old|] eqn:Ho; [by apply (Hb target old Ho)|done].
  - intros _. exists target, row. rewrite lookup_insert_eq. done.
Qed.

Lemma add_ssh_peer_extends peers origin port runtime known peer :
  peer ∈ peers → rows_backed peers known →
  let known' := add_ssh_peer iter origin port runtime known peer in
  let shown := sshPeerVisibleInSnapshot peer = true ∧ HostsMatch (peer_ID peer) origin = false in
  extends (λ k, shown ∧ k = peer_ID peer) known known' ∧ rows_backed peers known' ∧ (shown → has_row true (peer_ID peer) known').
Proof.
  intros Hin Hb. pose proof Hb as [Hn _]. unfold add_ssh_peer. cbv zeta.
  destruct (sshPeerVisibleInSnapshot peer) eqn:Hvis; [|split; [apply extends_refl|]; split; [done|by intros []]].
  destruct (HostsMatch (peer_ID peer) origin); [split; [apply extends_refl|]; split; [done|by intros []]|]. cbn [negb]. unfold mergeSnapshotPeer.
  cbn [new_peer_row ps_Hostname ps_Port]. fold (new_peer_row (peer_ID peer) port).
  pose proof (target_row known (peer_ID peer)) as Ht.
  pose proof (target_named known (peer_ID peer) (new_peer_row (peer_ID peer) port) Hn eq_refl) as Hname.
  pose proof (matching_stands (iter known) (peer_ID peer)) as Hst. cbv zeta in Ht, Hname. revert Ht Hname Hst.
  generalize (default (peer_ID peer) (matching (iter known) (peer_ID peer))). intros target Ht Hname Hst.
  set (row0 := default _ (known !! target)) in *. set (row1 := if (ps_Port row0 =? 0)%Z then _ else _).
  set (f := λ row, let row := with_ssh row peer in match runtime !! peer_ID peer with Some state => mergeSSHRuntimeState row state | None => row end).
  assert (Heq : alter f target (<[target := row1]> known) = <[target := f row1]> known) by apply alter_insert_eq.
  rewrite Heq. assert (Hf : ps_Hostname (f row1) = ps_Hostname row0 ∧ ps_Transport (f row1) = TransportSSH ∧
    ps_SSHHost (f row1) = SSHHost peer ∧ ps_SSHPort (f row1) = SSHPort peer ∧ ps_SSHUser (f row1) = SSHUser peer).
  { unfold f, row1. by destruct (runtime !! peer_ID peer), (ps_Port row0 =? 0)%Z. }
  destruct Hf as (Hfn & Hft & Hf'). split; [|split].
  - apply extends_insert; [destruct Ht as [?| ->]; [by left|by right]|done].
  - apply rows_backed_insert; [done|congruence|]. intros _. exists peer. done.
  - intros _. exists target, (f row1). by rewrite lookup_insert_eq.
Qed.
End rows_facts.

(** The configured peers the snapshot considers. *)
Definition snapshot_peers (cfg : option Config) : list SSHPeer :=
  match cfg with
  | Some cfg => if bool_decide (Transport cfg = TransportSSH) then match SSH cfg with Some ssh => Peers ssh | None => [] end else []
  | None => []
  end.

Lemma addConfigured_loop iter cfg origin known runtime :
  ∃ port, addConfiguredSSHPeersToSnapshot iter cfg origin known runtime = foldl (add_ssh_peer iter origin port runtime) known (snapshot_peers cfg).
Proof.
  unfold addConfiguredSSHPeersToSnapshot, snapshot_peers. destruct cfg as [cfg|]; [|by exists 0%Z].
  case_bool_decide; [|by exists 0%Z]. simpl. destruct (SSH cfg) as [ssh|]; [|by exists 0%Z]. by eexists.
Qed.

Lemma rows_backed_nil peers known : rows_backed [] known → rows_backed peers known.
Proof.
  intros [Hn Hb]. split; [done|]. intros k row Hk Ht. destruct (Hb k row Hk Ht) as (p & Hp & _). by apply not_elem_of_nil in Hp.
Qed.

(** Where a row of the snapshot may come from. *)
Definition row_source (discovered : option (list Peer)) (cfg : option Config) (origin : string) (order : list (string * PeerState)) (k : string) : Prop :=
  (∃ p, p ∈ default [] discovered ∧ p_Self p = false ∧ k = p_Hostname p) ∨
  (∃ peer, peer ∈ snapshot_peers cfg ∧ sshPeerVisibleInSnapshot peer = true ∧ HostsMatch (peer_ID peer) origin = false ∧ k = peer_ID peer) ∨
  (∃ s, (k, s) ∈ order ∧ HostsMatch k origin = false).

Lemma snapshot_rows_facts iter discovered runtime cfg origin order :
  (∀ m, iter m ≡ₚ (map_to_list m).*1) → Forall (λ x, ps_Hostname x.2 = x.1) order →
  let known := snapshot_rows iter discovered runtime cfg origin order in
  rows_backed (snapshot_peers cfg) known ∧
  (∀ k, is_Some (known !! k) → row_source discovered cfg origin order k) ∧
  (∀ p, p ∈ default [] discovered → p_Self p = false → is_Some (known !! p_Hostname p)) ∧
  (∀ peer, peer ∈ snapshot_peers cfg → sshPeerVisibleInSnapshot peer = true → HostsMatch (peer_ID peer) origin = false → has_row true (peer_ID peer) known) ∧
  (∀ h s, (h, s) ∈ order → HostsMatch h origin = false → has_row false h known).
Proof.
  intros Hiter Hnames. unfold snapshot_rows. cbv zeta. destruct (discovered_extends (default [] discovered)) as (He1 & Hb1 & Hq1).
  revert He1 Hb1 Hq1. generalize (foldl add_discovered ∅ (default [] discovered)). intros m1 He1 Hb1 Hq1.
  destruct (addConfigured_loop iter cfg origin m1 runtime) as [port ->].
  destruct (extends_fold (add_ssh_peer iter origin port runtime)
    (λ peer k, (sshPeerVisibleInSnapshot peer = true ∧ HostsMatch (peer_ID peer) origin = false) ∧ k = peer_ID peer) (rows_backed (snapshot_peers cfg))
    (λ peer m, sshPeerVisibleInSnapshot peer = true ∧ HostsMatch (peer_ID peer) origin = false → has_row true (peer_ID peer) m)
    (snapshot_peers cfg) m1) as (He2 & Hb2 & Hq2); [|eauto using has_row_extends|by apply rows_backed_nil|].
  { intros known peer Hin Hb. by apply add_ssh_peer_extends. }
  revert He2 Hb2 Hq2. generalize (foldl (add_ssh_peer iter origin port runtime) m1 (snapshot_peers cfg)). intros m2 He2 Hb2 Hq2.
  destruct (extends_fold (add_status iter origin) (λ x k, HostsMatch x.1 origin = false ∧ k = x.1) (rows_backed (snapshot_peers cfg))
    (λ x m, HostsMatch x.1 origin = false → has_row false x.1 m) order m2) as (He3 & Hb3 & Hq3); [|eauto using has_row_extends|done|].
  { intros known [h s] Hin Hb. apply add_status_extends; [done| |done]. rewrite Forall_forall in Hnames. by apply (Hnames (h, s)). }
  split; [done|]. split; [|split; [|split]].
  - intros k Hk. destruct (proj2 He3 k Hk) as [Hk2|([h s] & Hin & Hno & ->)]; [|right; right; by exists s].
    destruct (proj2 He2 k Hk2) as [Hk1|(peer & Hin & [Hvis Hno] & ->)]; [|right; left; by exists peer].
    destruct (proj2 He1 k Hk1) as [Hk0|(p & Hin & Hself & ->)]; [|left; by exists p]. by apply lookup_empty_is_Some in Hk0.
  - intros p Hin Hself. destruct (Hq1 p Hin Hself) as [r1 Hr1]. destruct (proj1 He2 _ _ Hr1) as (r2 & Hr2 & _).
    destruct (proj1 He3 _ _ Hr2) as (r3 & Hr3 & _). by exists r3.
  - intros peer Hin Hvis Hno. by eapply has_row_extends; [exact He3|apply Hq2].
  - intros h s Hin Hno. by apply (Hq3 (h, s)).
Qed.

Lemma Snapshot_elem iter discovered runtime cfg origin order :
  rows_named (snapshot_rows iter discovered runtime cfg origin order) →
  ∀ row, row ∈ Snapshot iter discovered runtime cfg origin order ↔
    snapshot_rows iter discovered runtime cfg origin order !! ps_Hostname row = Some row.
Proof.
  intros Hn row. unfold Snapshot. rewrite stable_sort_perm, list_elem_of_fmap. split.
  - intros ([k r] & -> & Hin%elem_of_map_to_list). simpl. by rewrite (Hn _ _ Hin).
  - intros Hrow. exists (ps_Hostname row, row). split; [done|]. by apply elem_of_map_to_list.
Qed.

Lemma Snapshot_names iter discovered runtime cfg origin order :
  rows_named (snapshot_rows iter discovered runtime cfg origin order) →
  ps_Hostname <$> Snapshot iter discovered runtime cfg origin order ≡ₚ (map_to_list (snapshot_rows iter discovered runtime cfg origin order)).*1.
Proof.
  intros Hn. unfold Snapshot. rewrite stable_sort_perm, <- list_fmap_compose. rewrite (list_fmap_ext (ps_Hostname ∘ snd) fst); [done|].
  intros i [k r] Hi. apply Hn. apply elem_of_map_to_list. by eapply list_elem_of_lookup_2.
Qed.

(** ** Properties *)

(** The peer snapshot, whatever order the tables are ranged over in: one row
    per host name, sorted; every discovered host but this one has its row; every
    visible configured SSH peer other than this host has an SSH row that stands for
    it; every origin other than this host has a row that stands for it; a row is
    named by a discovered peer, a configured peer or an origin of this kind, and an
    SSH row shows the address of a visible configured peer it stands for. *)
Theorem Snapshot_covers iter discovered runtime cfg origin order :
  (∀ m, iter m ≡ₚ (map_to_list m).*1) → Forall (λ x, ps_Hostname x.2 = x.1) order →
  let out := Snapshot iter discovered runtime cfg origin order in
  NoDup (ps_Hostname <$> out) ∧ ordered less_host out ∧
  (∀ p, p ∈ default [] discovered → p_Self p = false → ∃ row, row ∈ out ∧ ps_Hostname row = p_Hostname p) ∧
  (∀ peer, peer ∈ snapshot_peers cfg → sshPeerVisibleInSnapshot peer = true → HostsMatch (peer_ID peer) origin = false →
   ∃ row, row ∈ out ∧ stands_for (ps_Hostname row) (peer_ID peer) ∧ ps_Transport row = TransportSSH) ∧
  (∀ h s, (h, s) ∈ order → HostsMatch h origin = false → ∃ row, row ∈ out ∧ stands_for (ps_Hostname row) h) ∧
  (∀ row, row ∈ out → row_source discovered cfg origin order (ps_Hostname row) ∧
   (ps_Transport row = TransportSSH → ∃ peer, peer ∈ snapshot_peers cfg ∧ sshPeerVisibleInSnapshot peer = true ∧
    stands_for (ps_Hostname row) (peer_ID peer) ∧ ps_SSHHost row = SSHHost peer ∧ ps_SSHPort row = SSHPort peer ∧ ps_SSHUser row = SSHUser peer)).
Proof.
  intros Hiter Hnames out. destruct (snapshot_rows_facts iter discovered runtime cfg origin order Hiter Hnames) as ([Hn Hb] & Hsrc & Hd & Hp & Ho).
  pose proof (Snapshot_elem _ _ _ _ _ _ Hn) as Hel. fold out in Hel. split; [|split; [|split; [|split; [|split]]]].
  - unfold out. rewrite Snapshot_names by done. apply NoDup_fst_map_to_list.
  - apply stable_sort_ordered; [intros x y z; apply ltb_trans|intros x y; apply ltb_asym].
  - intros p Hin Hself. destruct (Hd p Hin Hself) as [row Hrow]. exists row. by rewrite Hel, (Hn _ _ Hrow).
  - intros peer Hin Hvis Hno. destruct (Hp peer Hin Hvis Hno) as (k & row & Hs & Hrow & Ht). exists row. rewrite Hel, (Hn _ _ Hrow). auto.
  - intros h s Hin Hno. destruct (Ho h s Hin Hno) as (k & row & Hs & Hrow & _). exists row. by rewrite Hel, (Hn _ _ Hrow).
  - intros row Hrow%Hel. split; [apply Hsrc; by exists row|]. by apply (Hb _ _ Hrow).
Qed.

(** What the fleet snapshot may tell of a configured peer. *)
Definition peer_public (p : SSHPeer) : string * string * Z * string * string :=
  (peer_ID p, SSHHost p, SSHPort p, SSHUser p, MigrationState p).

Definition public_peers (cfg : option Config) : list (string * string * Z * string * string) :=
  match cfg with Some cfg => match SSH cfg with Some ssh => peer_public <$> Peers ssh | None => [] end | None => [] end.

(** What it may tell of a live row. *)
Definition row_public (s : PeerState) : string * string * bool * (time * time * time) :=
  (ps_Hostname s, ps_SSHStatus s, ps_SSHActive s, (ps_LastRecvTS s, ps_SSHLastAckTS s, ps_SSHLastConnectTS s)).

Lemma live_public (l l' : list PeerState) (m m' : rows) :
  row_public <$> l = row_public <$> l' → row_public <$> m = row_public <$> m' →
  row_public <$> foldl (λ (m : rows) p, <[ps_Hostname p := p]> m) m l = row_public <$> foldl (λ (m : rows) p, <[ps_Hostname p := p]> m) m' l'.
Proof.
  revert l' m m'. induction l as [|x l IH]; intros [|x' l'] m m' Hl Hm; try done. simpl in Hl |- *. injection Hl as H1 H2 H3 H4 H5 H6 Hl.
  apply IH; [done|]. rewrite !fmap_insert, Hm, H1. f_equal. unfold row_public. congruence.
Qed.

(** The fleet snapshot a host hands to its peers is redacted: it depends on the
    configuration only through the public part of its peers and on the rows only
    through their public part, so configurations that differ in the shared key, the
    sync key, key ids, proofs or paths give the same snapshot. *)
Theorem BuildFleetSnapshot_redacted version cfg cfg' origin peers peers' :
  public_peers cfg = public_peers cfg' → row_public <$> peers = row_public <$> peers' →
  BuildFleetSnapshot version cfg origin peers = BuildFleetSnapshot version cfg' origin peers'.
Proof.
  intros Hcfg Hpeers.
  assert (Hcommon : ∀ c ps, BuildFleetSnapshot version c origin ps = MkFleetSnapshot origin version
    (fleet_peer (foldl (λ (m : rows) p, <[ps_Hostname p := p]> m) ∅ ps) <$>
     match c with Some c => match SSH c with Some ssh => Peers ssh | None => [] end | None => [] end)).
  { intros c ps. unfold BuildFleetSnapshot. destruct c as [c|]; [|done]. by destruct (SSH c). }
  rewrite !Hcommon. f_equal. pose proof (live_public peers peers' ∅ ∅ Hpeers eq_refl) as Hlive. revert Hlive.
  generalize (foldl (λ (m : rows) p, <[ps_Hostname p := p]> m) ∅ peers) (foldl (λ (m : rows) p, <[ps_Hostname p := p]> m) ∅ peers').
  intros m m' Hlive. assert (Hlists : ∀ l l' : list SSHPeer, peer_public <$> l = peer_public <$> l' → fleet_peer m <$> l = fleet_peer m' <$> l').
  { induction l as [|p l IH]; intros [|p' l'] Hl; try done. simpl in Hl |- *. injection Hl as H1 H2 H3 H4 H5 Hl. f_equal; [|by apply IH].
    assert (Hrow : row_public <$> m !! peer_ID p = row_public <$> m' !! peer_ID p') by (rewrite <- !lookup_fmap, Hlive; congruence).
    unfold fleet_peer. destruct (m !! peer_ID p), (m' !! peer_ID p'); simpl in Hrow; try done; unfold row_public in Hrow; congruence. }
  unfold public_peers in Hcfg. destruct cfg as [c|], cfg' as [c'|]; try destruct (SSH c) as [s|]; try destruct (SSH c') as [s'|]; auto.
Qed.

(** The fleet view shows this host, reachable with its own snapshot, and each
    peer asked once, sorted by id; a peer is shown reachable exactly when its command
    was built and run and printed one untruncated snapshot with an origin and nothing
    on stderr, else with the reason and no snapshot. *)
Theorem gatherFleetView_spec as_time local targets :
  let view := gatherFleetView as_time local targets in
  fv_Origin view = fs_Origin local ∧ ordered less_id (fv_Hosts view) ∧
  (∃ hosts, fv_Hosts view ≡ₚ MkFleetHost (fs_Origin local) true (Some local) "" :: hosts ∧
   Forall2 (λ target host,
     fh_ID host = ft_ID target ∧
     match fh_Snapshot host with
     | Some snapshot =>
         fh_Reachable host = true ∧ fh_Error host = "" ∧ fs_Origin snapshot ≠ "" ∧
         ∃ output, ft_Run target = Ok (Ok output) ∧ decodeFleetSnapshot as_time output = Ok snapshot ∧
           co_StdoutTruncated output = false ∧ co_StderrTruncated output = false ∧ TrimSpace (co_Stderr output) = ""
     | None =>
         fh_Reachable host = false ∧
         (ft_Run target = Err (fh_Error host) ∨ ft_Run target = Ok (Err (fh_Error host)) ∨
          ∃ output, ft_Run target = Ok (Ok output) ∧ decodeFleetSnapshot as_time output = Err (fh_Error host))
     end) targets hosts).
Proof.
  intros view. split; [done|]. split; [apply stable_sort_ordered; [intros x y z; apply ltb_trans|intros x y; apply ltb_asym]|].
  exists (gatherPeerSnapshot as_time <$> targets). split; [apply stable_sort_perm|]. clear view. induction targets as [|target l IH]; [constructor|].
  constructor; [|done]. unfold gatherPeerSnapshot. destruct (ft_Run target) as [[output|e]|e] eqn:Hrun; simpl; auto.
  destruct (decodeFleetSnapshot as_time output) as [snapshot|e] eqn:Hdec; simpl; [|eauto 10].
  split; [done|]. split; [done|]. split; [done|]. pose proof Hdec as Hok. unfold decodeFleetSnapshot in Hok.
  destruct (co_StdoutTruncated output) eqn:H1; [done|]. destruct (co_StderrTruncated output) eqn:H2; [done|]. cbn [orb] in Hok.
  destruct (decide (TrimSpace (co_Stderr output) = "")) as [H3|H3]; [|by rewrite bool_decide_eq_false_2 in Hok].
  split; [|by exists output]. rewrite bool_decide_eq_true_2 in Hok by done. cbn [negb] in Hok.
  destruct (parse_value _ _ _) as [[v rest]|]; [|done].
  destruct (match v with VObject l => Some l | VNull => Some [] | _ => None end) as [fields|]; [|done].
  destruct (assign _ _ _ _) as [origin ok1]. destruct (assign _ _ _ _) as [version ok2]. destruct (assign _ _ _ _) as [ps ok3].
  destruct (negb _); [done|]. destruct (bool_decide (skip_space rest = "")); [|by destruct (bool_decide _)].
  destruct (decide (origin = "")) as [?|Horigin]; [by rewrite bool_decide_eq_true_2 in Hok|]. rewrite bool_decide_eq_false_2 in Hok by done.
  by injection Hok as <-.
Qed.

(** The view is fetched again only when there is none or it is [fleetViewCacheTTL] old. *)
Lemma fleetView_cached cached fetchedAt now gather done :
  (fleetView cached fetchedAt now gather done).1 = cached ∧ fetchedAt ≠ zero_time ∧ (now - fetchedAt < fleetViewCacheTTL)%Z ∨
  (fleetView cached fetchedAt now gather done) = (gather, (gather, done)).
Proof.
  unfold fleetView, IsZero. destruct (decide (fetchedAt = 0%Z)) as [->|Hne]; [right; by rewrite bool_decide_eq_true_2|].
  rewrite bool_decide_eq_false_2 by done. cbn [negb andb]. destruct (now - fetchedAt <? fleetViewCacheTTL)%Z eqn:Hlt; [left|by right].
  by apply Z.ltb_lt in Hlt.
Qed.

(** ** Witnesses and examples *)

Definition insertion (m : rows) : list string := (map_to_list m).*1.

Definition edge (id : string) (key : string) : SSHPeer :=
  MkSSHPeer id (id +:+ ".example") "me" 22 "" "" true true true true false MigrationStateSSHKeysReady (MkSSHProof key "" "" "" key "" "" "").

Definition mesh (key : string) (ids : list string) : Config :=
  MkConfig None None "" key "static" [] "hub" TransportSSH (Some (MkSSHConfig key "" 0 0 0 ((λ id, edge id key) <$> ids))) 7853 50.

Lemma Snapshot_covers_witness :
  ∃ row, row ∈ Snapshot insertion (Some [MkPeer "alice-studio" 7853 false; MkPeer "hub" 7853 true]) ∅ (Some (mesh "k" ["studio"; "laptop"])) "hub"
      [("hub", new_peer_row "hub" 0); ("desktop", new_peer_row "desktop" 0)] ∧
    stands_for (ps_Hostname row) "laptop" ∧ ps_Transport row = TransportSSH.
Proof.
  apply (Snapshot_covers insertion (Some [MkPeer "alice-studio" 7853 false; MkPeer "hub" 7853 true]) ∅ (Some (mesh "k" ["studio"; "laptop"])) "hub"
      [("hub", new_peer_row "hub" 0); ("desktop", new_peer_row "desktop" 0)]) with (peer := edge "laptop" "k").
  - intros m. reflexivity.
  - repeat constructor.
  - right. left.
  - vm_compute. reflexivity.
  - vm_compute. reflexivity.
Defined.

(** The discovered row takes the configured peer, this host has no row. *)
Example snapshot_names :
  ps_Hostname <$> Snapshot insertion (Some [MkPeer "alice-studio" 7853 false; MkPeer "hub" 7853 true]) ∅ (Some (mesh "k" ["studio"; "laptop"])) "hub"
      [("hub", new_peer_row "hub" 0); ("desktop", new_peer_row "desktop" 0)] = ["alice-studio"; "desktop"; "laptop"].
Proof. vm_compute. reflexivity. Qed.

Lemma BuildFleetSnapshot_redacted_witness :
  let rows := [with_recv (new_peer_row "alpha" 7853) second] in
  BuildFleetSnapshot "1" (Some (mesh "key1" ["alpha"; "beta"])) "hub" rows = BuildFleetSnapshot "1" (Some (mesh "key2" ["alpha"; "beta"])) "hub" rows ∧
  (fp_ID <$> fs_Peers (BuildFleetSnapshot "1" (Some (mesh "key1" ["alpha"; "beta"])) "hub" rows)) = ["alpha"; "beta"].
Proof.
  split; [|vm_compute; reflexivity].
  apply (BuildFleetSnapshot_redacted "1" (Some (mesh "key1" ["alpha"; "beta"])) (Some (mesh "key2" ["alpha"; "beta"])) "hub"); vm_compute; reflexivity.
Defined.

(** When two rows could stand for an origin, the order of the map decides which of
    them shows when it was last heard of. *)
Lemma snapshot_order_matters :
  let discovered := Some [MkPeer "alice-studio" 7853 false; MkPeer "bob-studio" 7853 false] in
  let order := [("studio", with_recv (new_peer_row "studio" 0) second)] in
  let heard iter := (λ row, (ps_Hostname row, ps_LastRecvTS row)) <$> Snapshot iter discovered ∅ None "hub" order in
  heard insertion ≠ heard (λ m, reverse (insertion m)).
Proof. vm_compute. intros [=]. Qed.

Definition sample_output (stderr : string) (tail : string) (cut : bool) : CommandOutput :=
  MkOutput (Json.print (VObject [("origin", VString "alpha"); ("version", VString "1");
    ("peers", VArray [VObject [("id", VString "hub"); ("migration_state", VString "ssh-keys-ready"); ("ssh_active", VBool true)]])]) +:+ tail) stderr cut false.

Definition fleet_hosts (outputs : list (string * result string (result string CommandOutput))) : list (string * bool * string) :=
  (λ h, (fh_ID h, fh_Reachable h, fh_Error h)) <$>
  fv_Hosts (gatherFleetView (λ _, Some (Some zero_time)) (MkFleetSnapshot "hub" "1" []) ((λ x, MkTarget x.1 x.2) <$> outputs)).

Example fleet_view :
  fleet_hosts [("zeta", Ok (Ok (sample_output "" "" false))); ("cut", Ok (Ok (sample_output "" "" true)));
    ("noise", Ok (Ok (sample_output "warning" "" false))); ("twice", Ok (Ok (sample_output "" " {}" false)));
    ("half", Ok (Ok (sample_output "" " {" false))); ("down", Ok (Err "exit status 255")); ("bad", Err "user_invalid")] =
  [("bad", false, "user_invalid"); ("cut", false, "fleet_snapshot_output_truncated"); ("down", false, "exit status 255");
   ("half", false, "fleet_snapshot_malformed_json"); ("hub", true, ""); ("noise", false, "fleet_snapshot_stderr_not_empty");
   ("twice", false, "fleet_snapshot_trailing_json"); ("zeta", true, "")].
Proof. vm_compute. reflexivity. Qed.
