(* ===== verification/Server.v ===== *)
(** * The HTTP server: transport/server.go

    Routing, the gate every signed request passes (headers, clock, body, signature,
    nonce), every handler, and the signed replies.  The daemon behind the callbacks
    is a state [W]; a callback the daemon has not wired is [None].  Handlers take
    the server, the request, the clock and the daemon's state and give the reply,
    the nonce cache and the daemon's state.

    What the request carries is what net/http hands over: the path as the decoded
    segments of a clean path (the mux redirects any other by itself), the query as
    a list.  [contentType] is what the code sets: empty when it leaves it to
    net/http.  The text form of a time in JSON is an argument. *)
From S2P Require Import Prelude GoStrings Encoding Json NetIP Clip Nonce Auth Stream.
From Stdlib Require Import Ascii String.
From stdpp Require Import strings.

Record Request := MkRequest {
  Method : string;
  r_segments : list string;
  r_RequestURI : string;
  r_query : list (string * string);
  r_headers : SignedHeaders;
  r_body : string;
  r_bodyErr : option string;
  RemoteAddr : string;
}.

(** [r.URL.Path] *)
Definition URL_Path (r : Request) : string := "/" +:+ GoStrings.Join "/" (r_segments r).

(** [r.URL.Query().Get(k)] *)
Definition query_get (r : Request) (k : string) : string :=
  match list_find (λ kv : string * string, kv.1 = k) (r_query r) with Some (_, kv) => kv.2 | None => "" end.

Record Response := MkResponse {
  status : Z;
  contentType : string;
  respAuthVersion : string;
  respSig : string;
  respBody : string;
}.

(** A call of a nil callback panics; net/http then drops the connection. *)
Inductive outcome := Respond (r : Response) | Panic.

Definition text_plain : string := "text/plain; charset=utf-8".

Definition http_error (msg : string) (code : Z) : Response := MkResponse code text_plain "" "" (msg +:+ nl).

Record HandlerError := MkHandlerError {
  he_Status : Z;
  he_Code : string;
}.

Definition httpStatus (e : HandlerError) : Z := if (he_Status e =? 0)%Z then 500%Z else he_Status e.

Record SafeModeInfo := MkSafeModeInfo {
  si_Origin : string;
  si_Hostname : string;
  si_ConfiguredListen : string;
  si_EffectiveRepairListen : string;
  si_ParseError : string;
  si_PeerSyncStarted : bool;
  si_ConfigVersion : option Z;
  si_ConfigRevision : option Z;
  si_Port : Z;
  si_StaticPeers : list string;
}.

Record signedPayload := MkSigned {
  sp_body : string;
  sp_nonce : string;
  sp_authVersion : string;
  sp_receivedAt : time;
}.

Section gate.
Context `{Crypto} {W : Type}.

(** Callbacks that answer a config request: with a JSON value or an error. *)
Definition config_read : Type := W → result HandlerError json.

Definition config_write : Type := string → W → result HandlerError json * W.

Definition peer_write : Type := string → string → W → result HandlerError json * W.

Record Server := MkServer {
  auth : option Auth;
  peersFn : option (W → json);
  versionFn : option (W → json);
  currentFn : option (W → CurrentPayload);
  currentApplyFn : option (Content → string → W → result string () * W);
  fleetFn : option (W → json);
  historyFn : option (Z → W → result string json);
  restoreFn : option (string → W → result string () * W);
  pinFn : option (string → bool → W → result string () * W);
  deleteFn : option (string → bool → W → result string () * W);
  configFn : option (Z → W → result string () * W);
  listenerRepairReadFn : option config_read;
  listenerRepairPatchFn : option config_write;
  sshPeerReadFn : option (string → W → result HandlerError json);
  sshPeerPutFn : option peer_write;
  sshPeerProofPatchFn : option peer_write;
  sshPeerTransitionFn : option peer_write;
  sshPeerDisableFn : option peer_write;
  sshPeerDeleteFn : option peer_write;
  hostRemoveFn : option peer_write;
  localRequiredAuthVer : string;
  safeMode : bool;
  safeInfo : SafeModeInfo;
  nonces : nonceCache;
}.

(** ** Signed replies *)

Definition writeSignedBody (s : Server) (ct : string) (signed : signedPayload) (code : Z) (body : string) : Response :=
  match SignResponseWithAuthVersion (auth s) (sp_nonce signed) body (sp_authVersion signed) with
  | Err _ => MkResponse 401 text_plain (sp_authVersion signed) "" ("unsupported auth version" +:+ nl)
  | Ok sig => MkResponse code ct (sp_authVersion signed) sig body
  end.

(** Marshalling fails only for a time it cannot write. *)
Definition writeSignedJSONStatus (s : Server) (signed : signedPayload) (code : Z) (v : result string json) : Response :=
  match v with
  | Err e => http_error e 500
  | Ok v => writeSignedBody s "application/json" signed code (print v)
  end.

Definition writeSignedJSON (s : Server) (signed : signedPayload) (v : json) : Response :=
  writeSignedJSONStatus s signed 200 (Ok v).

Definition writeSignedError (s : Server) (signed : signedPayload) (code : Z) (err : string) : Response :=
  writeSignedBody s "application/json" signed code
    (print (json_map [("type", VString "error"); ("code", VString err)]) +:+ nl).

Definition writeSafeModeError (code : Z) (err : string) : Response :=
  let q := String quote_byte "" in
  MkResponse code "application/json" "" ""
    ("{" +:+ q +:+ "type" +:+ q +:+ ":" +:+ q +:+ "error" +:+ q +:+ "," +:+ q +:+ "code" +:+ q +:+ ":" +:+ q +:+ err +:+ q +:+ "}" +:+ nl).

(** ** The gate *)

Definition isLoopbackRemote (remoteAddr : string) : bool :=
  let host := match SplitHostPort remoteAddr with Some (host, _) => host | None => remoteAddr end in
  match ParseIP host with Some ip => IsLoopback ip | None => false end.

(** [io.ReadAll(io.LimitReader(r.Body, n))]: the first [n] bytes; a failure of the
    body shows only when it comes before the limit. *)
Definition read_limited (n : Z) (r : Request) : result string string :=
  if (n <=? Z.of_nat (len (r_body r)))%Z then Ok (String.substring 0 (Z.to_nat n) (r_body r))
  else match r_bodyErr r with Some e => Err e | None => Ok (r_body r) end.

Definition verify_message (e : AuthError) : string :=
  match e with
  | ErrAuthVersionMismatch => "auth_version_mismatch"
  | ErrBadSignature => "bad_signature"
  | _ => "bad signature"
  end.

Definition readSignedWithRequiredAuthVersion (s : Server) (r : Request) (now : time) (maxBody : Z) (requiredAuthVersion : string) :
    result Response signedPayload * nonceCache :=
  let h := r_headers r in
  let refuse msg code := (Err (http_error msg code), nonces s) in
  if bool_decide (h_sig h = "") then refuse "missing X-Clipfan-Sig" 401%Z
  else if bool_decide (h_ts h = "") then refuse "missing X-Clipfan-Ts" 401%Z
  else if bool_decide (h_nonce h = "") then refuse "missing X-Clipfan-Nonce" 401%Z
  else
    match ParseInt (h_ts h) with
    | None => refuse "bad timestamp" 401%Z
    | Some unixTs =>
        let requestTime := time_Unix unixTs in
        if Before requestTime (now - signatureSkew)%Z || After requestTime (now + signatureSkew)%Z
        then refuse "stale timestamp" 401%Z
        else
          match read_limited (maxBody + 1) r with
          | Err e => refuse e 400%Z
          | Ok body =>
              if (maxBody <? Z.of_nat (len body))%Z then refuse "request body too large" 413%Z
              else
                let verified :=
                  if bool_decide (requiredAuthVersion = "") then
                    VerifyRequestWithAuthVersion (auth s) (Method r) (r_RequestURI r) (h_ts h) (h_nonce h) body (h_sig h) (h_authVersion h)
                  else
                    VerifyRequestRequiredAuthVersion (auth s) (Method r) (r_RequestURI r) (h_ts h) (h_nonce h) body (h_sig h)
                      (h_authVersion h) requiredAuthVersion in
                match verified with
                | Err e => refuse (verify_message e) 401%Z
                | Ok _ =>
                    let '(ok, nonces) := accept (nonces s) (h_nonce h) now in
                    if ok then (Ok (MkSigned body (h_nonce h) (h_authVersion h) now), nonces)
                    else (Err (http_error "replayed nonce" 401), nonces)
                end
          end
    end.

Definition readSigned (s : Server) (r : Request) (now : time) (maxBody : Z) : result Response signedPayload * nonceCache :=
  readSignedWithRequiredAuthVersion s r now maxBody "".

Definition readSignedLocalWithRequiredAuthVersionMax (s : Server) (r : Request) (now : time) (required : string) (maxBody : Z) :
    result Response signedPayload * nonceCache :=
  if negb (isLoopbackRemote (RemoteAddr r)) then (Err (http_error "loopback required" 403), nonces s)
  else readSignedWithRequiredAuthVersion s r now maxBody required.

Definition maxRequestBody : Z := (2 ^ 20)%Z.

Definition readSignedLocalWithRequiredAuthVersion (s : Server) (r : Request) (now : time) (required : string) :
    result Response signedPayload * nonceCache :=
  readSignedLocalWithRequiredAuthVersionMax s r now required maxRequestBody.

Definition readSignedLocal (s : Server) (r : Request) (now : time) : result Response signedPayload * nonceCache :=
  readSignedLocalWithRequiredAuthVersion s r now (localRequiredAuthVer s).

(** [if signed == nil { return }], then the rest of the handler. *)
Definition with_signed (w : W) (read : result Response signedPayload * nonceCache) (k : signedPayload → outcome * W) :
    outcome * nonceCache * W :=
  match read with
  | (Err resp, nonces) => (Respond resp, nonces, w)
  | (Ok signed, nonces) => let '(o, w) := k signed in (o, nonces, w)
  end.

Definition with_nonces (s : Server) (n : nonceCache) : Server :=
  MkServer (auth s) (peersFn s) (versionFn s) (currentFn s) (currentApplyFn s) (fleetFn s) (historyFn s) (restoreFn s) (pinFn s)
    (deleteFn s) (configFn s) (listenerRepairReadFn s) (listenerRepairPatchFn s) (sshPeerReadFn s) (sshPeerPutFn s)
    (sshPeerProofPatchFn s) (sshPeerTransitionFn s) (sshPeerDisableFn s) (sshPeerDeleteFn s) (hostRemoveFn s)
    (localRequiredAuthVer s) (safeMode s) (safeInfo s) n.

Definition NewServer (a : option Auth) (peersFn : option (W → json)) : Server :=
  MkServer a peersFn None None None None None None None None None None None None None None None None None None "" false
    (MkSafeModeInfo "" "" "" "" "" false None None 0 []) (newNonceCache nonceRetention).

(** ** The specification of the gate *)

(** What a request must be to pass it. *)
Record admits (s : Server) (r : Request) (now : time) (required : string) (maxBody : Z) : Prop := {
  ad_sig_present : h_sig (r_headers r) ≠ "";
  ad_time : ∃ ts, ParseInt (h_ts (r_headers r)) = Some ts ∧ (now - signatureSkew ≤ time_Unix ts ≤ now + signatureSkew)%Z;
  ad_body : (Z.of_nat (len (r_body r)) ≤ maxBody)%Z ∧ r_bodyErr r = None;
  ad_sig : VerifyRequestWithAuthVersion (auth s) (Method r) (r_RequestURI r) (h_ts (r_headers r)) (h_nonce (r_headers r))
             (r_body r) (h_sig (r_headers r)) (h_authVersion (r_headers r)) = Ok ();
  ad_version : required = "" ∨ h_authVersion (r_headers r) = required;
  ad_nonce : (accept (nonces s) (h_nonce (r_headers r)) now).1 = true;
}.

Definition unsigned (o : outcome) : Prop := ∃ resp, o = Respond resp ∧ respSig resp = "".

(** A reply to [signed] that carries a signature verifies at the caller. *)
Definition reply_ok (s : Server) (signed : signedPayload) (o : outcome) : Prop :=
  match o with
  | Panic => True
  | Respond resp => respSig resp = "" ∨ respAuthVersion resp = sp_authVersion signed ∧
      VerifyResponseWithAuthVersion (auth s) (sp_nonce signed) (respBody resp) (respSig resp) (respAuthVersion resp) = Ok ()
  end.

End gate.

#[global] Arguments Server W : clear implicits.
#[global] Arguments config_read W : clear implicits.
#[global] Arguments config_write W : clear implicits.
#[global] Arguments peer_write W : clear implicits.

Section handlers.
Context `{Crypto} {W : Type}.
Context (time_json : time → result string json) (as_time : json → option (option time)) (format_rfc3339 : time → string).

(** ** Handlers *)

Definition not_wired (msg : string) (code : Z) (w : W) : outcome * W := (Respond (http_error msg code), w).

Definition reply_json (s : Server W) (signed : signedPayload) (v : json) (w : W) : outcome * W :=
  (Respond (writeSignedJSON s signed v), w).

Definition getPeers (s : Server W) (r : Request) (now : time) (w : W) : outcome * nonceCache * W :=
  with_signed w (readSignedLocal s r now) (λ signed,
    match peersFn s with
    | None => not_wired "peers endpoint not wired" 501 w
    | Some f => reply_json s signed (f w) w
    end).

Definition getFleet (s : Server W) (r : Request) (now : time) (w : W) : outcome * nonceCache * W :=
  with_signed w (readSignedLocal s r now) (λ signed,
    match fleetFn s with
    | None => not_wired "fleet endpoint not wired" 501 w
    | Some f => reply_json s signed (f w) w
    end).

Definition getVersion (s : Server W) (r : Request) (now : time) (w : W) : outcome * nonceCache * W :=
  with_signed w (readSigned s r now maxRequestBody) (λ signed,
    match versionFn s with
    | None => not_wired "version endpoint not wired" 501 w
    | Some f => reply_json s signed (f w) w
    end).

Definition json_string_field (k s : string) : list (string * json) :=
  if bool_decide (s = "") then [] else [(k, VString s)].

(** [json.Marshal] of a [CurrentPayload]: the fields in the struct's order; the
    body in base64; [omitempty] does not drop a time. *)
Definition current_json (p : CurrentPayload) : result string json :=
  ts ← time_json (cp_TS p);
  Ok (VObject ([("has_current", VBool (HasCurrent p))] ++ json_string_field "null_reason" (NullReason p) ++
    json_string_field "id" (cp_ID p) ++ json_string_field "kind" (cp_Kind p) ++
    json_string_field "body" (b64_encode (cp_Body p)) ++ [("ts", ts)] ++ json_string_field "origin" (cp_Origin p))).

Definition getCurrent (s : Server W) (r : Request) (now : time) (w : W) : outcome * nonceCache * W :=
  with_signed w (readSignedLocal s r now) (λ signed,
    match currentFn s with
    | None => not_wired "current endpoint not wired" 503 w
    | Some f => (Respond (writeSignedJSONStatus s signed 200 (current_json (f w))), w)
    end).

(** [[]byte]: base64 text, or an array of small numbers. *)
Definition as_byte (v : json) : option ascii :=
  match v with
  | VNull => Some (ascii_of_nat 0)
  | VNumber n => match ParseUint n with Some k => if (k <=? 255)%N then Some (ascii_of_N k) else None | None => None end
  | _ => None
  end.

Definition as_bytes (v : json) : option (option string) :=
  match v with
  | VNull => Some (Some "")
  | VString s => match b64_decode s with Some b => Some (Some b) | None => None end
  | VArray l => match mapM as_byte l with Some b => Some (Some (foldr String "" b)) | None => None end
  | _ => None
  end.

Definition decode_current (body : string) : option CurrentPayload :=
  match struct_members body with
  | None => None
  | Some l =>
      let '(has, ok1) := assign as_bool false true (struct_field "has_current" l) in
      let '(reason, ok2) := assign as_string "" true (struct_field "null_reason" l) in
      let '(id, ok3) := assign as_string "" true (struct_field "id" l) in
      let '(kind, ok4) := assign as_string "" true (struct_field "kind" l) in
      let '(b, ok5) := assign as_bytes "" true (struct_field "body" l) in
      let '(ts, ok6) := assign as_time zero_time true (struct_field "ts" l) in
      let '(origin, ok7) := assign as_string "" true (struct_field "origin" l) in
      if forallb (λ b, b) [ok1; ok2; ok3; ok4; ok5; ok6; ok7] then Some (MkCurrentPayload has reason id kind b ts origin) else None
  end.

Definition postCurrent (s : Server W) (r : Request) (now : time) (w : W) : outcome * nonceCache * W :=
  with_signed w (readSignedLocalWithRequiredAuthVersionMax s r now AuthVersionRequestHMAC MaxSSHStreamFrameBytes) (λ signed,
    match currentApplyFn s with
    | None => (Respond (writeSignedError s signed 501 "current_apply_not_wired"), w)
    | Some apply =>
        match decode_current (sp_body signed) with
        | None => (Respond (writeSignedError s signed 400 "bad_json"), w)
        | Some payload =>
            match payload_Content payload with
            | Ok (content, true) =>
                if bool_decide (cp_Origin payload = "") then (Respond (writeSignedError s signed 400 "invalid_current_payload"), w)
                else
                  match apply content (cp_Origin payload) w with
                  | (Err _, w) => (Respond (writeSignedError s signed 409 "current_apply_failed"), w)
                  | (Ok _, w) => reply_json s signed (json_map [("status", VString "ok")]) w
                  end
            | _ => (Respond (writeSignedError s signed 400 "invalid_current_payload"), w)
            end
        end
    end).

Definition getHistory (s : Server W) (r : Request) (now : time) (w : W) : outcome * nonceCache * W :=
  with_signed w (readSignedLocal s r now) (λ signed,
    match historyFn s with
    | None => not_wired "history disabled" 503 w
    | Some f =>
        let v := query_get r "limit" in
        let limit := if bool_decide (v = "") then 0%Z else default 0%Z (ParseInt v) in
        match f limit w with
        | Err e => (Respond (http_error e 500), w)
        | Ok out => reply_json s signed (json_map [("entries", out)]) w
        end
    end).

(** A callback that changes the history or the clipboard: an empty signed reply,
    the error's text, or the panic of a nil callback. *)
Definition run_change (s : Server W) (signed : signedPayload) (call : option (W → result string () * W)) (w : W) : outcome * W :=
  match call with
  | None => (Panic, w)
  | Some f =>
      match f w with
      | (Err e, w) => (Respond (http_error e 500), w)
      | (Ok _, w) => (Respond (writeSignedBody s "" signed 200 ""), w)
      end
  end.

Definition bad_json (w : W) : outcome * W := (Respond (http_error "bad json" 400), w).

Definition deleteHistory (s : Server W) (r : Request) (now : time) (w : W) : outcome * nonceCache * W :=
  with_signed w (readSignedLocal s r now) (λ signed,
    match struct_members (sp_body signed) with
    | None => bad_json w
    | Some l =>
        let '(id, ok1) := assign as_string "" true (struct_field "id" l) in
        let '(allUnpinned, ok2) := assign as_bool false true (struct_field "all_unpinned" l) in
        if ok1 && ok2 then run_change s signed ((λ f, f id allUnpinned) <$> deleteFn s) w else bad_json w
    end).

Definition postRestore (s : Server W) (r : Request) (now : time) (w : W) : outcome * nonceCache * W :=
  with_signed w (readSignedLocal s r now) (λ signed,
    match struct_members (sp_body signed) with
    | None => bad_json w
    | Some l =>
        let '(id, ok) := assign as_string "" true (struct_field "id" l) in
        if ok then run_change s signed ((λ f, f id) <$> restoreFn s) w else bad_json w
    end).

Definition postPin (s : Server W) (r : Request) (now : time) (w : W) : outcome * nonceCache * W :=
  with_signed w (readSignedLocal s r now) (λ signed,
    match struct_members (sp_body signed) with
    | None => bad_json w
    | Some l =>
        let '(id, ok1) := assign as_string "" true (struct_field "id" l) in
        let '(pinned, ok2) := assign as_bool false true (struct_field "pinned" l) in
        if ok1 && ok2 then run_change s signed ((λ f, f id pinned) <$> pinFn s) w else bad_json w
    end).

Definition postConfig (s : Server W) (r : Request) (now : time) (w : W) : outcome * nonceCache * W :=
  with_signed w (readSignedLocal s r now) (λ signed,
    match configFn s with
    | None => not_wired "config endpoint not wired" 503 w
    | Some f =>
        match struct_members (sp_body signed) with
        | None => bad_json w
        | Some l =>
            let '(maxHistory, ok) := assign as_int 0%Z true (struct_field "max_history" l) in
            if negb ok then bad_json w
            else
              match f maxHistory w with
              | (Err e, w) => (Respond (writeSignedBody s "" signed 400 (e +:+ nl)), w)
              | (Ok _, w) => (Respond (writeSignedBody s "" signed 200 ""), w)
              end
        end
    end).

(** The endpoints of the config documents: the path's last wildcard and the body
    go to the callback. *)
Definition reply_config (s : Server W) (signed : signedPayload) (res : result HandlerError json) : outcome :=
  match res with
  | Err e => Respond (writeSignedError s signed (httpStatus e) (he_Code e))
  | Ok payload => Respond (writeSignedJSON s signed payload)
  end.

Definition config_endpoint (call : Server W → option (peer_write W)) (unavailable : string)
    (s : Server W) (id : string) (r : Request) (now : time) (w : W) : outcome * nonceCache * W :=
  with_signed w (readSignedLocalWithRequiredAuthVersion s r now AuthVersionRequestHMAC) (λ signed,
    match call s with
    | None => (Respond (writeSignedError s signed 503 unavailable), w)
    | Some f => let '(res, w) := f id (sp_body signed) w in (reply_config s signed res, w)
    end).

Definition getSSHPeerConfig (s : Server W) (id : string) (r : Request) (now : time) (w : W) : outcome * nonceCache * W :=
  with_signed w (readSignedLocalWithRequiredAuthVersion s r now AuthVersionRequestHMAC) (λ signed,
    match sshPeerReadFn s with
    | None => (Respond (writeSignedError s signed 503 "ssh_peer_config_unavailable"), w)
    | Some f => (reply_config s signed (f id w), w)
    end).

Definition putSSHPeerConfig := config_endpoint sshPeerPutFn "ssh_peer_config_unavailable".

Definition deleteHostConfig := config_endpoint hostRemoveFn "host_remove_unavailable".

Definition patchSSHPeerConfigProof := config_endpoint sshPeerProofPatchFn "ssh_peer_config_unavailable".

Definition postSSHPeerConfigTransition := config_endpoint sshPeerTransitionFn "ssh_peer_config_unavailable".

Definition postSSHPeerConfigDisable := config_endpoint sshPeerDisableFn "ssh_peer_config_unavailable".

Definition deleteSSHPeerConfig := config_endpoint sshPeerDeleteFn "ssh_peer_config_unavailable".

(** ** Safe mode *)

Definition json_opt_int (z : option Z) : json := match z with Some z => json_int z | None => VNull end.

Definition safeModeVersionPayload (s : Server W) (v : json) : json :=
  json_merge (match v with VObject l => VObject l | v => VObject [("version", v)] end)
    [("safe_mode", VBool true); ("config_version", json_opt_int (si_ConfigVersion (safeInfo s)));
     ("config_revision", json_opt_int (si_ConfigRevision (safeInfo s)))].

Definition safeModeListenerStatusFields : list (string * json) :=
  [("listener_repair_status", VString "needs_repair"); ("last_failure_phase", VString "listener_safe_mode");
   ("safe_mode_logs_available", VBool true); ("safe_mode_schema", VString "safe_mode_v1")].

Definition safeModePeerSetupSuggestions (s : Server W) : json :=
  VArray ((λ peer, json_map [("hostname", VString peer); ("source", VString "static_peers"); ("status", VString "ssh_setup_required")])
    <$> filter (λ peer, peer ≠ "") (si_StaticPeers (safeInfo s))).

Definition safeModePeerSetupRows (s : Server W) : json :=
  VArray ((λ peer, json_map [("hostname", VString peer); ("port", json_int (si_Port (safeInfo s))); ("last_push_ok", VBool false);
      ("source", VString "static_peers"); ("status", VString "ssh_setup_required")])
    <$> filter (λ peer, peer ≠ "") (si_StaticPeers (safeInfo s))).

(** The log identifiers of the non-empty static peers, numbered by position. *)
Definition static_peer_logs (s : Server W) : list string :=
  (λ ip : nat * string, "static-peer-setup-" +:+ format_int (Z.of_nat ip.1)) <$>
    filter (λ ip, ip.2 ≠ "") (imap (λ i peer, (i, peer)) (si_StaticPeers (safeInfo s))).

Definition safeModeLogIDs (s : Server W) : json := VArray (VString <$> "safe-mode-listener" :: static_peer_logs s).

Definition safeModeStatusPayload (s : Server W) : json :=
  let i := safeInfo s in
  json_map (safeModeListenerStatusFields ++
    [("status", VString "safe_mode_signed_repair"); ("hostname", VString (si_Hostname i));
     ("configured_listen", VString (si_ConfiguredListen i)); ("effective_repair_listen", VString (si_EffectiveRepairListen i));
     ("parse_error", VString (si_ParseError i)); ("safe_mode", VBool true); ("safe_mode_schema", VString "safe_mode_v1");
     ("peer_sync_started", VBool (si_PeerSyncStarted i)); ("config_version", json_opt_int (si_ConfigVersion i));
     ("config_revision", json_opt_int (si_ConfigRevision i)); ("peer_setup_suggestions", safeModePeerSetupSuggestions s);
     ("log_ids", safeModeLogIDs s)]).

Definition safeModeVersionString (s : Server W) (w : W) : string :=
  match versionFn s with
  | None => ""
  | Some f =>
      match f w with
      | VObject l => match list_find (λ kv, kv.1 = "version") l with Some (_, (_, VString v)) => v | _ => "" end
      | VString v => v
      | _ => ""
      end
  end.

Definition safeModePeersPayload (s : Server W) (w : W) : json :=
  json_merge (safeModeStatusPayload s)
    [("origin", VString (si_Origin (safeInfo s))); ("version", VString (safeModeVersionString s w)); ("peers", safeModePeerSetupRows s)].

Definition log_entry (ts source log_id phase code message : string) : json :=
  json_map [("ts", VString ts); ("source", VString source); ("durable", VBool false); ("log_id", VString log_id);
            ("phase", VString phase); ("code", VString code); ("message", VString message)].

Definition safeModeLogEntries (s : Server W) (now : time) : json :=
  let parse := si_ParseError (safeInfo s) in
  let code := if bool_decide (parse = "") then "public_listen_requires_confirmation" else parse in
  VArray (log_entry (format_rfc3339 now) "listener_repair" "safe-mode-listener" "listener_safe_mode" code
            "Configured listener requires local repair before peer sync can start." ::
    ((λ log, log_entry (format_rfc3339 now) "remediation" log "static_peer_setup" "ssh_setup_required"
               "Static peer requires SSH setup before sync.") <$> static_peer_logs s)).

Definition getSafeModeLogs (s : Server W) (r : Request) (now : time) (signed : signedPayload) : Response :=
  let peerID := query_get r "peer" in
  if negb (bool_decide (peerID = "")) && negb (bool_decide (peerID = "local")) then
    writeSignedJSONStatus s signed 503 (Ok (json_map (safeModeListenerStatusFields ++
      [("type", VString "error"); ("code", VString "ssh_peer_logs_unavailable_before_schema"); ("peer_id", VString peerID);
       ("safe_mode", VBool true); ("entries", VArray [])])))
  else
    writeSignedJSON s signed (json_map (safeModeListenerStatusFields ++
      [("peer_id", VString "local"); ("safe_mode", VBool true); ("entries", safeModeLogEntries s now); ("truncated", VBool false)])).

Definition getSafeModeVersion (s : Server W) (r : Request) (now : time) (w : W) : outcome * nonceCache * W :=
  with_signed w (readSignedLocalWithRequiredAuthVersion s r now AuthVersionRequestHMAC) (λ signed,
    match versionFn s with
    | None => (Respond (writeSignedError s signed 503 "safe_mode_status_unavailable_before_schema"), w)
    | Some f => reply_json s signed (safeModeVersionPayload s (f w)) w
    end).

Definition getSafeModeReadOnly (s : Server W) (r : Request) (now : time) (w : W) : outcome * nonceCache * W :=
  with_signed w (readSignedLocalWithRequiredAuthVersion s r now AuthVersionRequestHMAC) (λ signed,
    if bool_decide (URL_Path r = "/v1/status") then reply_json s signed (safeModeStatusPayload s) w
    else if bool_decide (URL_Path r = "/v1/peers") then reply_json s signed (safeModePeersPayload s w) w
    else if bool_decide (URL_Path r = "/v1/ssh/logs") then (Respond (getSafeModeLogs s r now signed), w)
    else (Respond (writeSignedError s signed 404 "not_found"), w)).

Definition handleSafeModeListenerRepair (s : Server W) (r : Request) (now : time) (w : W) : outcome * nonceCache * W :=
  with_signed w (readSignedLocalWithRequiredAuthVersion s r now AuthVersionRequestHMAC) (λ signed,
    let unavailable := (Respond (writeSignedError s signed 503 "listener_repair_unavailable"), w) in
    if bool_decide (Method r = "GET") then
      match listenerRepairReadFn s with
      | None => unavailable
      | Some f => (reply_config s signed (f w), w)
      end
    else if bool_decide (Method r = "PATCH") then
      match listenerRepairPatchFn s with
      | None => unavailable
      | Some f => let '(res, w) := f (sp_body signed) w in (reply_config s signed res, w)
      end
    else (Respond (writeSignedError s signed 405 "method_not_allowed"), w)).

Definition health : Response := MkResponse 200 "" "" "" ("ok" +:+ nl).

Definition safeModeRoute (s : Server W) (r : Request) (now : time) (w : W) : outcome * nonceCache * W :=
  let is_get := bool_decide (Method r = "GET") in
  if is_get && bool_decide (URL_Path r = "/v1/health") then (Respond health, nonces s, w)
  else if is_get && bool_decide (URL_Path r = "/v1/version") then getSafeModeVersion s r now w
  else if is_get && bool_decide (URL_Path r ∈ ["/v1/status"; "/v1/peers"; "/v1/ssh/logs"]) then getSafeModeReadOnly s r now w
  else if (is_get || bool_decide (Method r = "PATCH")) && bool_decide (URL_Path r = "/v1/config/listener") then
    handleSafeModeListenerRepair s r now w
  else (Respond (writeSafeModeError 409 "public_listen_requires_confirmation"), nonces s, w).

(** ** Routes *)

Inductive endpoint :=
| EPeers | EFleet | EVersion | EGetCurrent | EPostCurrent | EHealth | EHistory | EDeleteHistory | ERestore | EPin | EConfig
| EDeleteHost | EGetPeer | EPutPeer | EDeletePeer | EProof | ETransition | EDisable.

(** A pattern's segments; [None] is a wildcard. *)
Definition routes : list (string * list (option string) * endpoint) :=
  [("GET", [Some "v1"; Some "peers"], EPeers); ("GET", [Some "v1"; Some "fleet"], EFleet);
   ("GET", [Some "v1"; Some "version"], EVersion); ("GET", [Some "v1"; Some "current"], EGetCurrent);
   ("POST", [Some "v1"; Some "current"], EPostCurrent); ("GET", [Some "v1"; Some "health"], EHealth);
   ("GET", [Some "v1"; Some "history"], EHistory); ("DELETE", [Some "v1"; Some "history"], EDeleteHistory);
   ("POST", [Some "v1"; Some "restore"], ERestore); ("POST", [Some "v1"; Some "history"; Some "pin"], EPin);
   ("POST", [Some "v1"; Some "config"], EConfig);
   ("DELETE", [Some "v1"; Some "config"; Some "peers"; None], EDeleteHost);
   ("GET", [Some "v1"; Some "config"; Some "ssh"; Some "peers"; None], EGetPeer);
   ("PUT", [Some "v1"; Some "config"; Some "ssh"; Some "peers"; None], EPutPeer);
   ("DELETE", [Some "v1"; Some "config"; Some "ssh"; Some "peers"; None], EDeletePeer);
   ("PATCH", [Some "v1"; Some "config"; Some "ssh"; Some "peers"; None; Some "proof"], EProof);
   ("POST", [Some "v1"; Some "config"; Some "ssh"; Some "peers"; None; Some "transition"], ETransition);
   ("POST", [Some "v1"; Some "config"; Some "ssh"; Some "peers"; None; Some "disable"], EDisable)].

(** The wildcards' values when the path matches; a wildcard takes no empty segment. *)
Fixpoint path_match (pat : list (option string)) (segs : list string) : option (list string) :=
  match pat, segs with
  | [], [] => Some []
  | Some p :: pat, x :: segs => if bool_decide (p = x) then path_match pat segs else None
  | None :: pat, x :: segs => if bool_decide (x = "") then None else cons x <$> path_match pat segs
  | _, _ => None
  end.

(** A pattern for GET also takes HEAD. *)
Definition method_match (pat method : string) : bool :=
  bool_decide (pat = method) || (bool_decide (pat = "GET") && bool_decide (method = "HEAD")).

Inductive routed := Routed (e : endpoint) (id : string) | MethodNotAllowed | NotFound.

Fixpoint find_route (l : list (string * list (option string) * endpoint)) (method : string) (segs : list string) (path_seen : bool) :
    routed :=
  match l with
  | [] => if path_seen then MethodNotAllowed else NotFound
  | (m, pat, e) :: l =>
      match path_match pat segs with
      | Some ids => if method_match m method then Routed e (default "" (head ids)) else find_route l method segs true
      | None => find_route l method segs path_seen
      end
  end.

Definition run_endpoint (s : Server W) (e : endpoint) (id : string) (r : Request) (now : time) (w : W) : outcome * nonceCache * W :=
  match e with
  | EPeers => getPeers s r now w
  | EFleet => getFleet s r now w
  | EVersion => getVersion s r now w
  | EGetCurrent => getCurrent s r now w
  | EPostCurrent => postCurrent s r now w
  | EHealth => (Respond health, nonces s, w)
  | EHistory => getHistory s r now w
  | EDeleteHistory => deleteHistory s r now w
  | ERestore => postRestore s r now w
  | EPin => postPin s r now w
  | EConfig => postConfig s r now w
  | EDeleteHost => deleteHostConfig s id r now w
  | EGetPeer => getSSHPeerConfig s id r now w
  | EPutPeer => putSSHPeerConfig s id r now w
  | EDeletePeer => deleteSSHPeerConfig s id r now w
  | EProof => patchSSHPeerConfigProof s id r now w
  | ETransition => postSSHPeerConfigTransition s id r now w
  | EDisable => postSSHPeerConfigDisable s id r now w
  end.

(** [Handler]: the mux in safe mode and out of it. *)
Definition Handler (s : Server W) (r : Request) (now : time) (w : W) : outcome * nonceCache * W :=
  if safeMode s then safeModeRoute s r now w
  else
    match find_route routes (Method r) (r_segments r) false with
    | Routed e id => run_endpoint s e id r now w
    | MethodNotAllowed => (Respond (http_error "Method Not Allowed" 405), nonces s, w)
    | NotFound => (Respond (http_error "404 page not found" 404), nonces s, w)
    end.

(** Requests handled one after the other, each at its time. *)
Fixpoint serve (s : Server W) (w : W) (l : list (Request * time)) : Server W * W :=
  match l with
  | [] => (s, w)
  | (r, now) :: l => let '(_, n, w) := Handler s r now w in serve (with_nonces s n) w l
  end.

(** ** The policy of the endpoints *)

(** Who may call what: whether the caller must be local, the auth version it must
    use (any when empty) and the largest body; [None] for the open endpoints. *)
Definition endpoint_policy (s : Server W) (e : endpoint) : option (bool * string * Z) :=
  match e with
  | EHealth => None
  | EVersion => Some (false, "", maxRequestBody)
  | EPostCurrent => Some (true, AuthVersionRequestHMAC, MaxSSHStreamFrameBytes)
  | EDeleteHost | EGetPeer | EPutPeer | EDeletePeer | EProof | ETransition | EDisable =>
      Some (true, AuthVersionRequestHMAC, maxRequestBody)
  | EPeers | EFleet | EGetCurrent | EHistory | EDeleteHistory | ERestore | EPin | EConfig =>
      Some (true, localRequiredAuthVer s, maxRequestBody)
  end.

Definition safe_endpoint (r : Request) : bool :=
  bool_decide (Method r = "GET") && bool_decide (URL_Path r ∈ ["/v1/version"; "/v1/status"; "/v1/peers"; "/v1/ssh/logs"; "/v1/config/listener"])
  || bool_decide (Method r = "PATCH") && bool_decide (URL_Path r = "/v1/config/listener").

Definition policy (s : Server W) (r : Request) : option (bool * string * Z) :=
  if safeMode s then if safe_endpoint r then Some (true, AuthVersionRequestHMAC, maxRequestBody) else None
  else
    match find_route routes (Method r) (r_segments r) false with
    | Routed e _ => endpoint_policy s e
    | _ => None
    end.

Definition read_policy (s : Server W) (r : Request) (now : time) (p : bool * string * Z) : result Response signedPayload * nonceCache :=
  let '(local, required, maxBody) := p in
  if local && negb (isLoopbackRemote (RemoteAddr r)) then (Err (http_error "loopback required" 403), nonces s)
  else readSignedWithRequiredAuthVersion s r now maxBody required.

End handlers.

(** ** Lemmas: the gate *)

Section gate_facts.
Context `{Crypto} {W : Type}.
Implicit Types s : Server W.

Lemma accept_true c n now :
  (accept c n now).1 = true ↔ n ≠ "" ∧ ∀ t, seen c !! n = Some t → (t + ttl c ≤ now)%Z.
Proof.
  unfold accept, After. case_bool_decide as Hn; [naive_solver|]. simpl.
  destruct (filter _ (seen c) !! n) as [t|] eqn:Hf.
  - apply map_lookup_filter_Some in Hf as [Ht Hlive]. simpl in Hlive. bool_prop.
    rewrite (proj2 (Z.ltb_lt _ _)) by lia. simpl. split; [done|]. intros [_ H']. specialize (H' _ Ht). lia.
  - simpl. split; [|done]. intros _. split; [done|]. intros t Ht. apply map_lookup_filter_None in Hf as [Hf|Hf]; [by pose proof (eq_trans (eq_sym Ht) Hf)|].
    specialize (Hf _ Ht). simpl in Hf. apply not_true_is_false in Hf. bool_prop. lia.
Qed.

(** An acceptance is remembered until it expires, whatever comes in between. *)
Lemma accept_remembers c n now : (accept c n now).1 = true → seen (accept c n now).2 !! n = Some now.
Proof.
  unfold accept, After. case_bool_decide; [done|]. simpl. case_match; [case_match; [done|]|]; intros _; apply lookup_insert_eq.
Qed.

Lemma accept_retains c n t m now :
  seen c !! n = Some t → (now < t + ttl c)%Z → seen (accept c m now).2 !! n = Some t.
Proof.
  intros Ht Hlt. unfold accept, After. case_bool_decide; [done|]. simpl.
  assert (Hf : filter (λ e : string * time, (now - ttl c <? e.2)%Z = true) (seen c) !! n = Some t).
  { apply map_lookup_filter_Some. split; [done|]. apply Z.ltb_lt. simpl. lia. }
  destruct (decide (m = n)) as [->|Hne].
  - rewrite Hf. rewrite (proj2 (Z.ltb_lt _ _)) by lia. done.
  - case_match; [case_match; [done|]|]; simpl; by rewrite lookup_insert_ne.
Qed.

Lemma accept_ttl c n now : ttl (accept c n now).2 = ttl c.
Proof. unfold accept. by repeat case_match. Qed.

Lemma read_limited_fits n r :
  (0 ≤ n)%Z →
  (∃ body, read_limited (n + 1) r = Ok body ∧ (n <? Z.of_nat (len body))%Z = false) ↔
  (Z.of_nat (len (r_body r)) ≤ n)%Z ∧ r_bodyErr r = None.
Proof.
  intros Hn. unfold read_limited. destruct (n + 1 <=? _)%Z eqn:E; bool_prop.
  - split; [|lia]. intros (body & [= <-] & Hl). bool_prop. rewrite len_substring in Hl. lia.
  - destruct (r_bodyErr r); [naive_solver|]. split; [|intros _; eexists; split; [done|]; apply Z.ltb_ge; lia].
    intros _. split; [lia|done].
Qed.

Lemma read_limited_whole n r body :
  (0 ≤ n)%Z → read_limited (n + 1) r = Ok body → (n <? Z.of_nat (len body))%Z = false → body = r_body r.
Proof.
  intros Hn. unfold read_limited. destruct (n + 1 <=? _)%Z eqn:E; bool_prop; [|destruct (r_bodyErr r); by intros [= ]].
  intros [= <-] Hl. bool_prop. rewrite len_substring in Hl. lia.
Qed.

(** The gate, exactly. *)
Lemma gate_admits s r now maxBody required :
  (0 ≤ maxBody)%Z →
  match readSignedWithRequiredAuthVersion s r now maxBody required with
  | (Ok signed, n) => admits s r now required maxBody ∧ n = (accept (nonces s) (h_nonce (r_headers r)) now).2 ∧
      signed = MkSigned (r_body r) (h_nonce (r_headers r)) (h_authVersion (r_headers r)) now
  | (Err resp, n) => ¬ admits s r now required maxBody ∧ respSig resp = "" ∧
      (n = nonces s ∨ n = (accept (nonces s) (h_nonce (r_headers r)) now).2)
  end.
Proof.
  intros Hmax. unfold readSignedWithRequiredAuthVersion.
  case_bool_decide as Hsig; [split; [intros []; done|by eauto]|].
  case_bool_decide as Hts. { split; [|by eauto]. intros [_ (ts & Hp & _) _ _ _ _]. by rewrite Hts in Hp. }
  case_bool_decide as Hn. { split; [|by eauto]. intros [_ _ _ _ _ Ha%accept_true]. naive_solver. }
  destruct (ParseInt (h_ts (r_headers r))) as [ts|] eqn:Hp; [|split; [intros [_ (ts & ? & _) _ _ _ _]; congruence|by eauto]].
  unfold Before, After. destruct (_ || _) eqn:Hskew.
  { split; [|by eauto]. intros [_ (ts' & Hp' & Ht) _ _ _ _]. apply orb_true_iff in Hskew as [?%Z.ltb_lt|?%Z.ltb_lt];
      assert (ts' = ts) as -> by congruence; lia. }
  destruct (read_limited (maxBody + 1) r) as [body|e] eqn:Hread.
  2: { split; [|by eauto]. intros [_ _ Hb _ _ _]. apply read_limited_fits in Hb as (b & Hb & _); [|done]. congruence. }
  destruct (maxBody <? _)%Z eqn:Hlen.
  { split; [|by eauto]. intros [_ _ Hb _ _ _]. apply read_limited_fits in Hb as (b & Hb & ?); [|done]. congruence. }
  pose proof (read_limited_whole _ _ _ Hmax Hread Hlen) as ->.
  destruct (proj1 (read_limited_fits maxBody r Hmax)) as [Hfit Herr]; [by eauto|].
  assert (Hver : (if bool_decide (required = "")
      then VerifyRequestWithAuthVersion (auth s) (Method r) (r_RequestURI r) (h_ts (r_headers r)) (h_nonce (r_headers r)) (r_body r)
             (h_sig (r_headers r)) (h_authVersion (r_headers r))
      else VerifyRequestRequiredAuthVersion (auth s) (Method r) (r_RequestURI r) (h_ts (r_headers r)) (h_nonce (r_headers r)) (r_body r)
             (h_sig (r_headers r)) (h_authVersion (r_headers r)) required) = Ok () ↔
      VerifyRequestWithAuthVersion (auth s) (Method r) (r_RequestURI r) (h_ts (r_headers r)) (h_nonce (r_headers r)) (r_body r)
             (h_sig (r_headers r)) (h_authVersion (r_headers r)) = Ok () ∧ (required = "" ∨ h_authVersion (r_headers r) = required)).
  { case_bool_decide as Hreq; [naive_solver|]. unfold VerifyRequestRequiredAuthVersion. case_bool_decide; simpl; [|naive_solver].
    destruct (VerifyRequestWithAuthVersion _ _ _ _ _ _ _ _) as [[]|]; naive_solver. }
  destruct (if bool_decide (required = "") then _ else _) as [[]|e].
  2: { split; [|by eauto]. intros [_ _ _ Hv Hq _]. discriminate (proj2 Hver (conj Hv Hq)). }
  destruct (proj1 Hver eq_refl) as [Hv Hq]. apply orb_false_iff in Hskew as [Hlo Hhi]. bool_prop.
  destruct (accept (nonces s) (h_nonce (r_headers r)) now) as [[] n] eqn:Hacc.
  - split; [|done]. split; [done| |done|done|done|by rewrite Hacc]. exists ts. split; [done|lia].
  - split; [|by eauto]. intros [_ _ _ _ _ Ha]. by rewrite Hacc in Ha.
Qed.

Lemma writeSignedBody_ok s ct signed code body : reply_ok s signed (Respond (writeSignedBody s ct signed code body)).
Proof.
  unfold writeSignedBody, SignResponseWithAuthVersion.
  destruct (requestSigningKey (auth s) (sp_authVersion signed)) as [k|e] eqn:Hk; [|by left].
  right. split; [done|]. apply VerifyResponse_Ok. exists k. split; [exact Hk|]. apply hex_decode_encode.
Qed.

Lemma http_error_ok s signed msg code : reply_ok s signed (Respond (http_error msg code)).
Proof. by left. Qed.

Lemma writeSignedJSONStatus_ok s signed code v : reply_ok s signed (Respond (writeSignedJSONStatus s signed code v)).
Proof. destruct v; [apply writeSignedBody_ok|apply http_error_ok]. Qed.

Lemma writeSignedError_ok s signed code e : reply_ok s signed (Respond (writeSignedError s signed code e)).
Proof. apply writeSignedBody_ok. Qed.

Lemma reply_config_ok s signed res : reply_ok s signed (reply_config s signed res).
Proof. destruct res; [apply writeSignedJSONStatus_ok|apply writeSignedError_ok]. Qed.

Lemma run_change_ok s signed call w : reply_ok s signed (run_change s signed call w).1.
Proof.
  unfold run_change. destruct call as [f|]; [|done]. destruct (f w) as [[u|e] w']; [apply writeSignedBody_ok|apply http_error_ok].
Qed.

Definition policy_max (p : bool * string * Z) : Prop := (0 ≤ p.2)%Z.

Lemma policy_max_ok s r p : policy s r = Some p → policy_max p.
Proof.
  unfold policy. destruct (safeMode s); [destruct (safe_endpoint r); by intros [= <-]|].
  destruct (find_route _ _ _ _) as [e id| |]; [|done|done]. by destruct e; intros [= <-].
Qed.

Lemma read_policy_admits s r now local required maxBody :
  (0 ≤ maxBody)%Z →
  match read_policy s r now (local, required, maxBody) with
  | (Ok signed, n) => (local = true → isLoopbackRemote (RemoteAddr r) = true) ∧ admits s r now required maxBody ∧
      n = (accept (nonces s) (h_nonce (r_headers r)) now).2 ∧
      signed = MkSigned (r_body r) (h_nonce (r_headers r)) (h_authVersion (r_headers r)) now
  | (Err resp, n) => ((local = true ∧ isLoopbackRemote (RemoteAddr r) = false) ∨ ¬ admits s r now required maxBody) ∧ respSig resp = "" ∧
      (n = nonces s ∨ n = (accept (nonces s) (h_nonce (r_headers r)) now).2)
  end.
Proof.
  intros Hmax. unfold read_policy. destruct local, (isLoopbackRemote (RemoteAddr r)) eqn:Hlo; cbn [andb negb]; [|naive_solver| |];
    pose proof (gate_admits s r now maxBody required Hmax) as Hg;
    destruct (readSignedWithRequiredAuthVersion s r now maxBody required) as [[signed|resp] n]; naive_solver.
Qed.

Lemma read_policy_nonces s r now p resp n :
  policy_max p → read_policy s r now p = (resp, n) → n = nonces s ∨ n = (accept (nonces s) (h_nonce (r_headers r)) now).2.
Proof.
  destruct p as [[local required] maxBody]. intros Hmax Hr. pose proof (read_policy_admits s r now local required maxBody Hmax) as H'.
  rewrite Hr in H'. destruct resp; naive_solver.
Qed.

Lemma unix_of_floor t : (t - second < time_Unix (unix_of t) ≤ t)%Z.
Proof.
  unfold time_Unix, unix_of, second. pose proof (Z.div_mod t 1000000000 ltac:(lia)).
  pose proof (Z.mod_pos_bound t 1000000000 ltac:(lia)). lia.
Qed.

End gate_facts.

(** ** Lemmas: the handlers *)

Section handler_facts.
Context `{Crypto} {W : Type}.
Context (time_json : time → result string json) (as_time : json → option (option time)) (format_rfc3339 : time → string).
Implicit Types s : Server W.

#[local] Notation handle := (Handler time_json as_time format_rfc3339).
#[local] Notation serve_all := (serve time_json as_time format_rfc3339).
#[local] Notation safe_route := (safeModeRoute format_rfc3339).
#[local] Notation run_at := (run_endpoint time_json as_time).
#[local] Notation logs_at := (getSafeModeLogs format_rfc3339).

Lemma getSafeModeLogs_ok s r now signed : reply_ok s signed (Respond (logs_at s r now signed)).
Proof. unfold getSafeModeLogs. cbv zeta. destruct (_ && _); apply writeSignedJSONStatus_ok. Qed.

Ltac reply_solve :=
  intros; unfold reply_json, not_wired, bad_json in *; cbv zeta in *;
  repeat match goal with
  | |- reply_ok _ _ (fst (match ?x with _ => _ end)) => destruct x
  end;
  first [apply writeSignedBody_ok | apply http_error_ok | apply writeSignedJSONStatus_ok | apply writeSignedError_ok
        | apply reply_config_ok | apply run_change_ok | apply getSafeModeLogs_ok].

(** Every endpoint is the gate its policy names, followed by a handler. *)
Lemma endpoint_gated s e id r now w :
  match endpoint_policy s e with
  | None => run_at s e id r now w = (Respond health, nonces s, w)
  | Some p => ∃ k, run_at s e id r now w = with_signed w (read_policy s r now p) k ∧
      ∀ signed, reply_ok s signed (k signed).1
  end.
Proof. destruct e; cbn [endpoint_policy]; first [reflexivity | eexists; split; [reflexivity|reply_solve]]. Qed.

(** Evaluate the comparisons of closed strings. *)
Ltac closed_tests :=
  repeat match goal with
  | |- context [bool_decide (?a ∈ ?l)] => is_ground a; let b := eval vm_compute in (bool_decide (a ∈ l)) in change (bool_decide (a ∈ l)) with b
  | |- context [bool_decide (@eq string ?a ?c)] =>
      is_ground a; let b := eval vm_compute in (bool_decide (a = c)) in change (bool_decide (a = c)) with b
  end; cbn [andb orb].

Lemma safe_gated s r now (w : W) :
  if safe_endpoint r then
    ∃ k, safe_route s r now w = with_signed w (read_policy s r now (true, AuthVersionRequestHMAC, maxRequestBody)) k ∧
      ∀ signed, reply_ok s signed (k signed).1
  else safe_route s r now w =
    (Respond (if bool_decide (Method r = "GET") && bool_decide (URL_Path r = "/v1/health") then health
              else writeSafeModeError 409 "public_listen_requires_confirmation"), nonces s, w).
Proof.
  unfold safeModeRoute, safe_endpoint.
  destruct (decide (URL_Path r ∈ ["/v1/health"; "/v1/version"; "/v1/status"; "/v1/peers"; "/v1/ssh/logs"; "/v1/config/listener"])) as [Hp|Hp].
  - destruct (decide (Method r = "GET")) as [Hm|Hm]; [|destruct (decide (Method r = "PATCH")) as [Hm'|Hm']].
    + rewrite !Hm. rewrite !elem_of_cons, elem_of_nil in Hp.
      destruct Hp as [->|[->|[->|[->|[->|[->|[]]]]]]]; closed_tests; first [reflexivity | eexists; split; [reflexivity|reply_solve]].
    + rewrite !Hm'. rewrite !elem_of_cons, elem_of_nil in Hp.
      destruct Hp as [->|[->|[->|[->|[->|[->|[]]]]]]]; closed_tests; first [reflexivity | eexists; split; [reflexivity|reply_solve]].
    + rewrite (bool_decide_eq_false_2 (Method r = "GET")), (bool_decide_eq_false_2 (Method r = "PATCH")) by done. cbn [andb orb]. reflexivity.
  - rewrite !not_elem_of_cons in Hp. destruct Hp as (H1 & H2 & H3 & H4 & H5 & H6 & _).
    rewrite (bool_decide_eq_false_2 (URL_Path r ∈ [_; _; _; _; _])) by (rewrite !not_elem_of_cons; split_and!; [done..|apply not_elem_of_nil]).
    rewrite (bool_decide_eq_false_2 (URL_Path r ∈ [_; _; _])) by (rewrite !not_elem_of_cons; split_and!; [done..|apply not_elem_of_nil]).
    rewrite (bool_decide_eq_false_2 (URL_Path r = "/v1/health")), (bool_decide_eq_false_2 (URL_Path r = "/v1/version")),
      (bool_decide_eq_false_2 (URL_Path r = "/v1/config/listener")), !andb_false_r by done. cbn [orb]. reflexivity.
Qed.

(** Every request: what its policy says happens before any handler runs. *)
Lemma Handler_gated s r now w :
  match policy s r with
  | None => ∃ resp, handle s r now w = (Respond resp, nonces s, w) ∧ respSig resp = ""
  | Some p => ∃ k, handle s r now w = with_signed w (read_policy s r now p) k ∧ ∀ signed, reply_ok s signed (k signed).1
  end.
Proof.
  unfold policy, Handler. destruct (safeMode s).
  - pose proof (safe_gated s r now w) as Hs. destruct (safe_endpoint r); [done|]. rewrite Hs. eexists. split; [reflexivity|].
    by destruct (_ && _).
  - destruct (find_route _ _ _ _) as [e id| |]; [|by eexists|by eexists].
    pose proof (endpoint_gated s e id r now w) as He. destruct (endpoint_policy s e); [done|]. rewrite He. by eexists.
Qed.

Lemma with_signed_nonces (w : W) read k : (with_signed w read k).1.2 = read.2.
Proof. destruct read as [[signed|] n]; [|done]. simpl. by destruct (k signed). Qed.

Lemma Handler_nonces s r now w :
  (handle s r now w).1.2 = nonces s ∨ (handle s r now w).1.2 = (accept (nonces s) (h_nonce (r_headers r)) now).2.
Proof.
  pose proof (Handler_gated s r now w) as Hg. destruct (policy s r) as [p|] eqn:Hp.
  - destruct Hg as (k & -> & _). rewrite with_signed_nonces. destruct (read_policy s r now p) as [resp n] eqn:Hr.
    by apply (read_policy_nonces _ _ _ _ _ _ (policy_max_ok _ _ _ Hp) Hr).
  - destruct Hg as (resp & -> & _). by left.
Qed.

(** The nonce of an admitted request stays known while other requests are served. *)
Lemma serve_retains l s w n t :
  seen (nonces s) !! n = Some t → Forall (λ x, x.2 < t + ttl (nonces s))%Z l →
  seen (nonces (serve_all s w l).1) !! n = Some t ∧ ttl (nonces (serve_all s w l).1) = ttl (nonces s).
Proof.
  revert s w. induction l as [|[r now] l IH]; intros s w Ht Hl; [done|]. apply Forall_cons in Hl as [Hnow Hl].
  cbn [serve]. pose proof (Handler_nonces s r now w) as Hn. destruct (handle s r now w) as [[o n'] w']. simpl in Hn.
  assert (seen n' !! n = Some t ∧ ttl n' = ttl (nonces s)) as [Ht' Httl].
  { destruct Hn as [->| ->]; [done|]. split; [|apply accept_ttl]. by apply accept_retains. }
  destruct (IH (with_nonces s n') w' Ht') as [H1 H2]; [by rewrite <- Httl in Hl|]. split; [exact H1|]. by rewrite H2.
Qed.

(** A request with a nonce that is still known does nothing. *)
Lemma known_nonce_inert s r now w t :
  seen (nonces s) !! h_nonce (r_headers r) = Some t → (now < t + ttl (nonces s))%Z →
  (handle s r now w).2 = w ∧ unsigned (handle s r now w).1.1.
Proof.
  intros Ht Hlt. pose proof (Handler_gated s r now w) as Hg. destruct (policy s r) as [[[local required] maxBody]|] eqn:Hp.
  - destruct Hg as (k & -> & _). pose proof (read_policy_admits s r now local required maxBody (policy_max_ok _ _ _ Hp)) as Hr.
    destruct (read_policy _ _ _ _) as [[signed|resp] n].
    + destruct Hr as (_ & [_ _ _ _ _ Ha%accept_true] & _). destruct Ha as [_ Ha]. specialize (Ha _ Ht). lia.
    + destruct Hr as (_ & Hsig & _). split; [done|]. by exists resp.
  - destruct Hg as (resp & -> & Hsig). split; [done|]. by exists resp.
Qed.

Lemma safe_mode_writes s r now w :
  safeMode s = true → (handle s r now w).2 ≠ w →
  Method r = "PATCH" ∧ URL_Path r = "/v1/config/listener" ∧ policy s r = Some (true, AuthVersionRequestHMAC, maxRequestBody).
Proof.
  unfold Handler, policy. intros ->. unfold safeModeRoute.
  assert (Hkeep : ∀ read (k : signedPayload → outcome), (with_signed w read (λ signed, (k signed, w))).2 = w).
  { intros [[signed|] n] k; done. }
  destruct (bool_decide (Method r = "GET")) eqn:HG; cbn [andb orb].
  - intros Hw. exfalso. apply Hw. bool_prop.
    destruct (bool_decide (URL_Path r = "/v1/health")); [done|].
    destruct (bool_decide (URL_Path r = "/v1/version")).
    { unfold getSafeModeVersion, with_signed. destruct (readSignedLocalWithRequiredAuthVersion _ _ _ _) as [[signed|] n]; [|done].
      by destruct (versionFn s). }
    destruct (bool_decide (URL_Path r ∈ _)).
    { unfold getSafeModeReadOnly, with_signed. destruct (readSignedLocalWithRequiredAuthVersion _ _ _ _) as [[signed|] n]; [|done].
      by repeat case_bool_decide. }
    destruct (bool_decide (URL_Path r = "/v1/config/listener")); [|done].
    unfold handleSafeModeListenerRepair, with_signed. destruct (readSignedLocalWithRequiredAuthVersion _ _ _ _) as [[signed|] n]; [|done].
    rewrite HG. cbv zeta. rewrite (bool_decide_eq_true_2 ("GET" = "GET")) by done. by destruct (listenerRepairReadFn s).
  - destruct (bool_decide (Method r = "PATCH")) eqn:HP; cbn [andb]; [|done].
    destruct (bool_decide (URL_Path r = "/v1/config/listener")) eqn:HL; [|done]. intros _. unfold safe_endpoint. rewrite HG, HP, HL.
    bool_prop. done.
Qed.

(** ** Properties *)

(** C2. What the daemon does over HTTP, it does for callers that passed the gate.
    For every request, in safe mode and out of it: an endpoint that is open (the
    health check, an unknown route, a refusal of safe mode) leaves the daemon and
    the nonces alone and is not signed; any other endpoint either found the
    request admissible, as its policy says (local caller, clock, body size, auth
    version, signature over method, URI, time, nonce and body, nonce not seen),
    and consumed its nonce, or it changed nothing in the daemon and replied
    unsigned. And every signature the server sends verifies at the caller, for
    the nonce of that request. *)
Theorem effects_gated s r now w :
  let '(o, n, w') := handle s r now w in
  match policy s r with
  | None => w' = w ∧ n = nonces s ∧ unsigned o
  | Some (local, required, maxBody) =>
      let ok := (local = true → isLoopbackRemote (RemoteAddr r) = true) ∧ admits s r now required maxBody in
      ok ∧ n = (accept (nonces s) (h_nonce (r_headers r)) now).2 ∨ ¬ ok ∧ w' = w ∧ unsigned o
  end ∧
  ∀ resp, o = Respond resp → respSig resp ≠ "" →
    respAuthVersion resp = h_authVersion (r_headers r) ∧
    VerifyResponseWithAuthVersion (auth s) (h_nonce (r_headers r)) (respBody resp) (respSig resp) (respAuthVersion resp) = Ok ().
Proof.
  pose proof (Handler_gated s r now w) as Hg. destruct (policy s r) as [[[local required] maxBody]|] eqn:Hp.
  2: { destruct Hg as (resp & -> & Hsig). split; [split; [done|]; split; [done|]; by exists resp|]. by intros ? [= <-]. }
  destruct Hg as (k & -> & Hk). pose proof (read_policy_admits s r now local required maxBody (policy_max_ok _ _ _ Hp)) as Hr.
  destruct (read_policy _ _ _ _) as [[signed|resp] n]; cbn [with_signed].
  - destruct Hr as (Hlo & Had & -> & ->). set (signed := MkSigned _ _ _ _) in *. specialize (Hk signed).
    destruct (k signed) as [o w']. split; [by left|]. intros resp -> Hsig. cbn [fst reply_ok] in Hk. destruct Hk as [?|[Hv Hok]]; [done|].
    split; [exact Hv|exact Hok].
  - destruct Hr as (Hno & Hsig & _). split; [right; split; [|split; [done|by exists resp]]|].
    { intros [Hl Ha]. destruct Hno as [[Ht Hf]|Hno]; [by rewrite (Hl Ht) in Hf|done]. }
    by intros ? [= <-].
Qed.


(** Safe mode confines the daemon: whatever is sent, only a local and
    admissible PATCH of /v1/config/listener, signed with the derived request key,
    can change it. *)
Theorem safe_mode_confines s r now w (Hsafe : safeMode s = true) (Hchange : (handle s r now w).2 ≠ w) :
  Method r = "PATCH" ∧ URL_Path r = "/v1/config/listener" ∧ isLoopbackRemote (RemoteAddr r) = true ∧
  admits s r now AuthVersionRequestHMAC maxRequestBody.
Proof.
  destruct (safe_mode_writes s r now w Hsafe Hchange) as (Hm & Hpath & Hpol). split; [done|]. split; [done|].
  pose proof (Handler_gated s r now w) as Hg. rewrite Hpol in Hg. destruct Hg as (k & Hk & _). rewrite Hk in Hchange.
  pose proof (read_policy_admits s r now true AuthVersionRequestHMAC maxRequestBody (policy_max_ok _ _ _ Hpol)) as Hr.
  destruct (read_policy _ _ _ _) as [[signed|resp] n]; [|done]. destruct Hr as (Hlo & Had & _). split; [by apply Hlo|done].
Qed.

End handler_facts.

Section gate_properties.
Context `{Crypto} {W : Type}.
Implicit Types s : Server W.

(** The one instant the two expiries leave open: a request stamped exactly
    the skew ahead of the clock it was first admitted at is admitted a second
    time exactly the retention time later, because the nonce expires strictly
    before and the timestamp strictly after that instant. *)
Theorem replay_at_boundary s r now required maxBody ts
    (Hok : admits s r now required maxBody) (Httl : ttl (nonces s) = nonceRetention)
    (Hts : ParseInt (h_ts (r_headers r)) = Some ts) (Hahead : time_Unix ts = (now + signatureSkew)%Z) :
  let s1 := with_nonces s (accept (nonces s) (h_nonce (r_headers r)) now).2 in
  admits s1 r (now + nonceRetention)%Z required maxBody.
Proof.
  intros s1. destruct Hok as [H1 _ H3 H4 H5 H6]. split; [done| |done|done|done|].
  - exists ts. split; [done|]. rewrite Hahead. unfold nonceRetention, signatureSkew, minute, second. lia.
  - apply accept_true. split; [by apply accept_true in H6 as []|]. intros t Ht. simpl in Ht.
    pose proof (eq_trans (eq_sym (accept_remembers _ _ _ H6)) Ht) as E. injection E as <-. simpl. rewrite accept_ttl, Httl. reflexivity.
Qed.

(** The client's requests come through: a request sent with the headers
    [SignedRequestHeaders] makes is admitted, its body and nonce are what the
    handler sees, and its reply will be signed with the version the client chose,
    provided the clocks agree within the skew (one second is lost to rounding on
    the past side), the nonce is not a live one, the body fits and the endpoint
    accepts the version and the caller. *)
Theorem client_request_admitted `{!CryptoLaws} s r now sent rand opts local required maxBody
    (Hsign : SignedRequestHeaders (auth s) sent rand (Method r) (r_RequestURI r) (r_body r) opts = Ok (r_headers r))
    (Hpolicy : policy s r = Some (local, required, maxBody)) (Hlocal : local = true → isLoopbackRemote (RemoteAddr r) = true)
    (Hversion : required = "" ∨ so_AuthVersion opts = required)
    (Hclock : let t := if IsZero (so_Timestamp opts) then sent else so_Timestamp opts in
      (0 ≤ unix_of t ≤ max_int64)%Z ∧ (now - signatureSkew + second ≤ t ≤ now + signatureSkew)%Z)
    (Hfresh : ∀ t, seen (nonces s) !! h_nonce (r_headers r) = Some t → (t + ttl (nonces s) ≤ now)%Z)
    (Hbody : (Z.of_nat (len (r_body r)) ≤ maxBody)%Z) (Hread : r_bodyErr r = None) :
  read_policy s r now (local, required, maxBody) =
    (Ok (MkSigned (r_body r) (h_nonce (r_headers r)) (so_AuthVersion opts) now),
     (accept (nonces s) (h_nonce (r_headers r)) now).2).
Proof.
  unfold SignedRequestHeaders in Hsign. set (t := if IsZero (so_Timestamp opts) then sent else so_Timestamp opts) in *.
  set (nonce := if bool_decide (so_Nonce opts = "") then _ else _) in *. case_bool_decide as Hn; [done|].
  apply bind_Ok in Hsign as (sig & Hs & [= Hh]). cbv zeta in Hclock. destruct Hclock as [Hrange Hclock].
  unfold SignRequestWithAuthVersion in Hs. apply bind_Ok in Hs as (k & Hk & [= Hsig]).
  assert (Hf : h_sig (r_headers r) = sig ∧ h_ts (r_headers r) = format_int (unix_of t) ∧ h_nonce (r_headers r) = nonce ∧
    h_authVersion (r_headers r) = so_AuthVersion opts) by (by rewrite <- Hh).
  destruct Hf as (Hf1 & Hf2 & Hf3 & Hf4).
  assert (Had : admits s r now required maxBody).
  { split; rewrite ?Hf1, ?Hf2, ?Hf3, ?Hf4.
    - rewrite <- Hsig. apply hex_encode_nonempty. intros Hz. pose proof (hmac_len k (canonicalRequestWithAuthVersion
        (Method r) (r_RequestURI r) (format_int (unix_of t)) nonce (r_body r) (so_AuthVersion opts))) as Hl. by rewrite Hz in Hl.
    - exists (unix_of t). split; [apply ParseInt_format; unfold max_int64 in *; lia|]. pose proof (unix_of_floor t). lia.
    - done.
    - apply VerifyRequest_Ok. exists k. split; [done|]. rewrite <- Hsig. apply hex_decode_encode.
    - done.
    - apply accept_true. split; [done|]. by rewrite <- Hf3. }
  pose proof (read_policy_admits s r now local required maxBody ltac:(lia)) as Hr.
  destruct (read_policy s r now (local, required, maxBody)) as [[signed|resp] n].
  - destruct Hr as (_ & _ & -> & ->). by rewrite Hf4.
  - destruct Hr as [[[? ?]|?] _]; [|done]. specialize (Hlocal ltac:(done)). congruence.
Qed.

End gate_properties.

(** The guard for local endpoints lets an IPv4 caller in exactly when its
    address is in 127.0.0.0/8, whatever its port. *)
Theorem loopback_v4 (a b c d : nat) (port : Z) (Hquad : a < 256 ∧ b < 256 ∧ c < 256 ∧ d < 256) :
  isLoopbackRemote (quad a b c d +:+ ":" +:+ format_int port) = bool_decide (a = 127).
Proof.
  destruct Hquad as (Ha & Hb & Hc & Hd). unfold isLoopbackRemote.
  rewrite SplitHostPort_plain by (done || by apply quad_clean || by apply format_int_clean).
  rewrite ParseIP_quad by done. unfold IsLoopback.
  assert (is_v4 (v4_prefix ++ [Z.of_nat a; Z.of_nat b; Z.of_nat c; Z.of_nat d]) = true) as ->.
  { unfold is_v4. apply bool_decide_eq_true_2. reflexivity. }
  change ((v4_prefix ++ [Z.of_nat a; Z.of_nat b; Z.of_nat c; Z.of_nat d]) !! 12) with (Some (Z.of_nat a)).
  apply bool_decide_ext. split; [intros [= H]; lia|by intros ->].
Qed.

(** ** A concrete server: its daemon is the list of what was asked of it *)

Definition demo_time_json (t : time) : result string json := Ok (VString (format_int t)).

Definition demo_as_time (v : json) : option (option time) :=
  match v with VString s => Some <$> ParseInt s | VNull => Some None | _ => None end.

Definition demo_server (safe : bool) : Server (list string) :=
  MkServer (Some demo_auth) None (Some (λ _, VObject [("version", VString "1.0")])) None None None None
    (Some (λ id w, (Ok (), w ++ [id]))) None None None None (Some (λ body w, (Ok VNull, w ++ [body]))) None None None None None None None
    "" safe (MkSafeModeInfo "" "" "" "" "" false None None 0 []) (newNonceCache nonceRetention).

Definition restore_body : string := "{" +:+ quote "id" +:+ ":" +:+ quote "e1" +:+ "}".

(** A request as the client makes it, stamped [t]. *)
Definition demo_headers (method uri body : string) (t : time) : SignedHeaders :=
  match @SignedRequestHeaders toy_crypto (Some demo_auth) t None method uri body (MkSignedRequestOptions t "n1" AuthVersionRequestHMAC) with
  | Ok h => h
  | Err _ => MkSignedHeaders "" "" "" ""
  end.

Definition demo_request (method : string) (segs : list string) (t : time) : Request :=
  let uri := "/" +:+ GoStrings.Join "/" segs in
  MkRequest method segs uri [] (demo_headers method uri restore_body t) restore_body None "127.0.0.1:4000".

Definition demo_restore (t : time) : Request := demo_request "POST" ["v1"; "restore"] t.

Definition demo_serve := @serve toy_crypto (list string) demo_time_json demo_as_time format_int.

Definition demo_handle := @Handler toy_crypto (list string) demo_time_json demo_as_time format_int.

Example restored : (demo_handle (demo_server false) (demo_restore demo_now) demo_now []).2 = ["e1"].
Proof. vm_compute. reflexivity. Qed.

Lemma demo_admits safe method segs t now :
  (now - signatureSkew <=? t)%Z = true → (t <=? now + signatureSkew)%Z = true →
  (exists sec, t = time_Unix sec /\ ParseInt (h_ts (r_headers (demo_request method segs t))) = Some sec) →
  h_nonce (r_headers (demo_request method segs t)) = "n1" →
  h_sig (r_headers (demo_request method segs t)) ≠ "" →
  h_authVersion (r_headers (demo_request method segs t)) = AuthVersionRequestHMAC →
  @VerifyRequestWithAuthVersion toy_crypto (Some demo_auth) method ("/" +:+ GoStrings.Join "/" segs)
    (h_ts (r_headers (demo_request method segs t))) "n1" restore_body
    (h_sig (r_headers (demo_request method segs t))) AuthVersionRequestHMAC = Ok () →
  @admits toy_crypto (list string) (demo_server safe) (demo_request method segs t) now AuthVersionRequestHMAC maxRequestBody.
Proof.
  intros Hlo Hhi (sec & -> & Hts) Hn Hs Hv Hver. apply Z.leb_le in Hlo, Hhi. split.
  - exact Hs.
  - exists sec. split; [exact Hts|]. split; assumption.
  - split; [vm_compute; discriminate|reflexivity].
  - rewrite Hn, Hv. exact Hver.
  - right. exact Hv.
  - rewrite Hn. vm_compute. reflexivity.
Qed.

Lemma demo_restore_admits safe :
  @admits toy_crypto (list string) (demo_server safe) (demo_restore demo_now) demo_now "" maxRequestBody.
Proof.
  destruct (demo_admits safe "POST" ["v1"; "restore"] demo_now demo_now) as [H1 H2 H3 H4 H5 H6];
    try (vm_compute; first [reflexivity | discriminate]); [exists 1700000000%Z; split; vm_compute; reflexivity|].
  split; [exact H1|exact H2|exact H3|exact H4|left; reflexivity|exact H6].
Qed.


Lemma replay_at_boundary_witness :
  let r := demo_restore (demo_now + signatureSkew)%Z in
  let s1 := with_nonces (demo_server false) (accept (nonces (demo_server false)) (h_nonce (r_headers r)) demo_now).2 in
  @admits toy_crypto (list string) s1 r (demo_now + nonceRetention)%Z AuthVersionRequestHMAC maxRequestBody.
Proof.
  apply (@replay_at_boundary toy_crypto (list string) (demo_server false) (demo_restore (demo_now + signatureSkew)%Z) demo_now
    AuthVersionRequestHMAC maxRequestBody 1700000120%Z); [|reflexivity|vm_compute; reflexivity|vm_compute; reflexivity].
  apply (demo_admits false "POST" ["v1"; "restore"]); try (vm_compute; first [reflexivity | discriminate]).
  exists 1700000120%Z. split; vm_compute; reflexivity.
Defined.

Lemma client_request_admitted_witness :
  (@read_policy toy_crypto (list string) (demo_server false) (demo_restore demo_now) (demo_now + minute)%Z (true, "", maxRequestBody)).1 =
  Ok (MkSigned restore_body "n1" AuthVersionRequestHMAC (demo_now + minute)%Z).
Proof.
  rewrite (@client_request_admitted toy_crypto (list string) toy_laws (demo_server false) (demo_restore demo_now) (demo_now + minute)%Z demo_now None
    (MkSignedRequestOptions demo_now "n1" AuthVersionRequestHMAC) true "" maxRequestBody).
  - vm_compute. reflexivity.
  - vm_compute. reflexivity.
  - reflexivity.
  - intros _. vm_compute. reflexivity.
  - left. reflexivity.
  - vm_compute. repeat split; discriminate.
  - intros t Ht. vm_compute in Ht. discriminate Ht.
  - vm_compute. discriminate.
  - reflexivity.
Defined.

Lemma safe_mode_confines_witness :
  let r := demo_request "PATCH" ["v1"; "config"; "listener"] demo_now in
  (demo_handle (demo_server true) r demo_now []).2 = [restore_body] ∧ isLoopbackRemote (RemoteAddr r) = true.
Proof.
  assert (Hw : (demo_handle (demo_server true) (demo_request "PATCH" ["v1"; "config"; "listener"] demo_now) demo_now []).2 = [restore_body])
    by (vm_compute; reflexivity).
  destruct (@safe_mode_confines toy_crypto (list string) demo_time_json demo_as_time format_int (demo_server true)
    (demo_request "PATCH" ["v1"; "config"; "listener"] demo_now) demo_now [] eq_refl) as (_ & _ & Hlo & _).
  - fold demo_handle. rewrite Hw. discriminate.
  - split; [exact Hw|exact Hlo].
Defined.

Lemma loopback_v4_witness :
  isLoopbackRemote "127.1.2.3:80" = true ∧ isLoopbackRemote "10.1.2.3:80" = false.
Proof.
  split; [apply (loopback_v4 127 1 2 3 80); lia|apply (loopback_v4 10 1 2 3 80); lia].
Defined.
