(* ===== verification/Words.v ===== *)
(** * Words of a line: what the line-based files and commands are read with

    [strings.Fields], [strings.Cut], [strings.ReplaceAll] and
    [strings.TrimLeftFunc], unpadded base64, and a reference reading of the
    quoting of a POSIX shell, for the commands sent to a remote host. *)
From S2P Require Import Prelude GoStrings Encoding.
From Stdlib Require Import Ascii String.
From stdpp Require Import strings.

#[local] Arguments String.append !_ _ / : simpl nomatch.

(** ** strings.ToLower

    As far as ASCII goes: the two letters beyond ASCII whose lower case is an ASCII letter,
    the Kelvin sign and the dotted capital I; what else is beyond ASCII stays. *)
Fixpoint lower_text (s : string) : string :=
  match s with
  | EmptyString => EmptyString
  | String a t =>
      match t with
      | String b u =>
          if (nat_of_ascii a =? 196)%nat && (nat_of_ascii b =? 176)%nat then String "i" (lower_text u)
          else
            match u with
            | String c v =>
                if (nat_of_ascii a =? 226)%nat && (nat_of_ascii b =? 132)%nat && (nat_of_ascii c =? 170)%nat then String "k" (lower_text v) else String (lower_byte a) (lower_text t)
            | EmptyString => String (lower_byte a) (lower_text t)
            end
      | EmptyString => String (lower_byte a) EmptyString
      end
  end.

(** ** strings.Fields *)

(** Width of the space rune the text starts with.  No space rune starts with a
    byte that can continue another rune, so looking at every byte that is not
    inside a space finds the same spaces as looking at every rune. *)
Definition space_width (s : string) : option nat :=
  (λ x, len x.2) <$> list_find (λ w, Is_true (String.prefix w s)) space_runes.

Definition cons_word (w : string) (ws : list string) : list string := if bool_decide (w = "") then ws else w :: ws.

(** The word the text starts with and the words behind it; [skip] bytes of a space
    rune are still to be passed over. *)
Fixpoint fields_from (skip : nat) (s : string) : string * list string :=
  match s with
  | EmptyString => ("", [])
  | String a s' =>
      match skip with
      | S skip => fields_from skip s'
      | 0 =>
          match space_width s with
          | Some w => let '(word, words) := fields_from (pred w) s' in ("", cons_word word words)
          | None => let '(word, words) := fields_from 0 s' in (String a word, words)
          end
      end
  end.

Definition Fields (s : string) : list string := let '(word, words) := fields_from 0 s in cons_word word words.

(** ** strings.Cut, ReplaceAll, TrimLeftFunc for one byte *)

(** Before and after the first [c]. *)
Fixpoint Cut (c : ascii) (s : string) : option (string * string) :=
  match s with
  | EmptyString => None
  | String a s' => if bool_decide (a = c) then Some ("", s') else (λ '(l, r), (String a l, r)) <$> Cut c s'
  end.

Fixpoint ReplaceAll (c : ascii) (new s : string) : string :=
  match s with
  | EmptyString => EmptyString
  | String a s' => if bool_decide (a = c) then new +:+ ReplaceAll c new s' else String a (ReplaceAll c new s')
  end.

Fixpoint trim_left (f : ascii → bool) (s : string) : string :=
  match s with
  | String a s' => if f a then trim_left f s' else s
  | EmptyString => EmptyString
  end.

(** ** base64.RawStdEncoding *)

Fixpoint b64_raw_quanta (s : string) : option string :=
  match s with
  | EmptyString => Some EmptyString
  | String c1 (String c2 EmptyString) =>
      v1 ← b64_value c1; v2 ← b64_value c2; Some (String (ascii_of_nat (v1 * 4 + v2 / 16)) EmptyString)
  | String c1 (String c2 (String c3 EmptyString)) =>
      v1 ← b64_value c1; v2 ← b64_value c2; v3 ← b64_value c3;
      Some (String (ascii_of_nat (v1 * 4 + v2 / 16)) (String (ascii_of_nat (v2 mod 16 * 16 + v3 / 4)) EmptyString))
  | String c1 (String c2 (String c3 (String c4 s'))) =>
      v1 ← b64_value c1; v2 ← b64_value c2; v3 ← b64_value c3; v4 ← b64_value c4; rest ← b64_raw_quanta s';
      Some (String (ascii_of_nat (v1 * 4 + v2 / 16)) (String (ascii_of_nat (v2 mod 16 * 16 + v3 / 4))
        (String (ascii_of_nat (v3 mod 4 * 64 + v4)) rest)))
  | _ => None
  end.

Definition b64_raw_decode (s : string) : option string := b64_raw_quanta (drop_newlines s).

(** ** The quoting of a POSIX shell

    A reference for what a shell makes of a line of blanks, single-quoted parts
    and escaped bytes: the words.  A byte with a meaning of its own outside quotes
    is not read ([None]); neither is a quote left open. *)

Definition shell_plain (a : ascii) : bool :=
  is_upper a || is_lower a || is_digit a || bool_decide (a ∈ ["/"; "."; "_"; "-"; "+"; ":"; "@"; "%"; ","]%char).

Definition tick : ascii := ascii_of_nat 39.

Definition slash_back : ascii := ascii_of_nat 92.

(** [word]: the word read so far, [None] between words. *)
Fixpoint shell_words (quoted : bool) (word : option string) (s : string) : option (list string) :=
  let more (a : ascii) := Some (default "" word +:+ String a "") in
  match s with
  | EmptyString => if quoted then None else Some (match word with Some w => [w] | None => [] end)
  | String a s' =>
      if quoted then
        if bool_decide (a = tick) then shell_words false word s' else shell_words true (more a) s'
      else if bool_decide (a = tick) then shell_words true (Some (default "" word)) s'
      else if bool_decide (a = slash_back) then
        match s' with
        | String b s2 => if bool_decide (b = ascii_of_nat 10) then None else shell_words false (more b) s2
        | EmptyString => None
        end
      else if bool_decide (a = " "%char) then
        match word with Some w => (w ::.) <$> shell_words false None s' | None => shell_words false None s' end
      else if shell_plain a then shell_words false (more a) s'
      else None
  end.

Definition shell_read (s : string) : option (list string) := shell_words false None s.

(** ** Lemmas: plain words *)

(** A byte that is printable and no space. *)
Definition visible (a : ascii) : bool := byte_in "!" "~" a.

Definition plain_word (s : string) : bool := forall_bytes visible s.

Lemma forall_bytes_cat f a b : forall_bytes f (a +:+ b) = forall_bytes f a && forall_bytes f b.
Proof. induction a as [|x a IH]; simpl; [done|]. by rewrite IH, andb_assoc. Qed.

Lemma visible_no_space a s : visible a = true → Forall (λ w, String.prefix w (String a s) = false) space_runes.
Proof. intros Ha. unfold space_runes. destruct a as [[] [] [] [] [] [] [] []]; vm_compute in Ha; try discriminate Ha; repeat constructor. Qed.

Lemma visible_no_space_rev a s :
  visible a = true → Forall (λ w, String.prefix w (String a s) = false) (String.rev <$> space_runes).
Proof. intros Ha. destruct a as [[] [] [] [] [] [] [] []]; vm_compute in Ha; try discriminate Ha; repeat constructor. Qed.

Lemma visible_width a s : visible a = true → space_width (String a s) = None.
Proof.
  intros Ha. unfold space_width. assert (list_find (λ w, Is_true (String.prefix w (String a s))) space_runes = None) as ->; [|done].
  apply list_find_None. eapply Forall_impl; [by apply visible_no_space|]. simpl. intros w ->. auto.
Qed.

Lemma fields_word w s : plain_word w = true → fields_from 0 (w +:+ s) = let '(word, words) := fields_from 0 s in (w +:+ word, words).
Proof.
  induction w as [|a w IH]; [intros _; change ("" +:+ s) with s; by destruct (fields_from 0 s)|]. intros [Ha Hw]%andb_true_iff.
  change (String a w +:+ s) with (String a (w +:+ s)). cbn [fields_from]. rewrite visible_width, IH by done.
  by destruct (fields_from 0 s).
Qed.

Lemma fields_space s : fields_from 0 (String " " s) = ("", Fields s).
Proof. cbn [fields_from]. assert (space_width (String " " s) = Some 1) as -> by by destruct s. unfold Fields. simpl pred. by destruct (fields_from 0 s). Qed.

Lemma Fields_cons w s : plain_word w = true → w ≠ "" → Fields (w +:+ String " " s) = w :: Fields s.
Proof.
  intros Hw Hne. unfold Fields at 1. rewrite fields_word, fields_space by done. rewrite sapp_nil_r. unfold cons_word.
  by rewrite bool_decide_eq_false_2.
Qed.

Lemma Fields_last w : plain_word w = true → w ≠ "" → Fields w = [w].
Proof.
  intros Hw Hne. rewrite <- (sapp_nil_r w) at 1. unfold Fields. rewrite fields_word by done. simpl. rewrite sapp_nil_r.
  unfold cons_word. by rewrite bool_decide_eq_false_2.
Qed.

(** A line of words parted by single spaces. *)
Lemma Fields_Join l : Forall (λ w, plain_word w = true ∧ w ≠ "") l → Fields (GoStrings.Join " " l) = l.
Proof.
  induction 1 as [|w l [Hw Hne] Hl IH]; [done|]. destruct (decide (l = [])) as [->|Hl0]; [by apply Fields_last|].
  rewrite Join_cons by done. change (" " +:+ GoStrings.Join " " l) with (String " " (GoStrings.Join " " l)).
  by rewrite Fields_cons, IH.
Qed.

Lemma rev_last a s : String.rev (s +:+ String a "") = String a (String.rev s).
Proof. by rewrite srev_app. Qed.

Lemma string_last s : s = "" ∨ ∃ t a, s = t +:+ String a "".
Proof.
  induction s as [|x s IH]; [by left|right]. destruct IH as [->|(t & a & ->)]; [by exists "", x|by exists (String x t), a].
Qed.

(** Nothing is trimmed from a text whose first and last bytes are visible. *)
Lemma TrimSpace_visible a s t b : String a s = t +:+ String b "" → visible a = true → visible b = true → TrimSpace (String a s) = String a s.
Proof.
  intros Heq Ha Hb. unfold TrimSpace. rewrite (strip_left_id space_runes) by by apply visible_no_space.
  rewrite Heq, rev_last. rewrite strip_left_id by by apply visible_no_space_rev. rewrite <- rev_last. apply srev_rev.
Qed.

Lemma TrimSpace_word s : plain_word s = true → TrimSpace s = s.
Proof.
  intros Hs. destruct (string_last s) as [->|(t & b & Heq)]; [done|]. destruct s as [|a s]; [done|].
  apply (TrimSpace_visible a s t b); [done|by apply andb_true_iff in Hs as [? _]|].
  unfold plain_word in Hs. rewrite Heq, forall_bytes_cat in Hs. simpl in Hs. by bool_prop.
Qed.

Lemma Cut_spec c s l r : Cut c s = Some (l, r) ↔ s = l +:+ String c r ∧ has_byte c l = false.
Proof.
  revert l r. induction s as [|a s IH]; intros l r; cbn [Cut].
  { split; [done|]. intros [Heq _]. by destruct l. }
  case_bool_decide as Ha.
  - subst a. split; [by intros [= <- <-]|]. intros [Heq Hl]. destruct l as [|x l]; [by injection Heq as <-|].
    injection Heq as <- _. rewrite has_byte_cons, bool_decide_eq_true_2 in Hl by done. done.
  - rewrite fmap_Some. split.
    + intros ([l' r'] & Hc & [= -> ->]). apply IH in Hc as [-> Hl]. split; [done|].
      rewrite has_byte_cons, bool_decide_eq_false_2; [done|congruence].
    + intros [Heq Hl]. destruct l as [|x l]; [by injection Heq as -> _|]. injection Heq as <- Heq.
      rewrite has_byte_cons in Hl. bool_prop. exists (l, r). split; [|done]. by apply IH.
Qed.

Lemma ReplaceAll_clean c new s : has_byte c s = false → ReplaceAll c new s = s.
Proof.
  induction s as [|a s IH]; [done|]. rewrite has_byte_cons. intros [Ha Hs]%orb_false_iff. cbn [ReplaceAll].
  bool_prop. rewrite bool_decide_eq_false_2 by done. by rewrite IH.
Qed.

(** ** Lemmas: the quoting *)

Definition tick_escape : string := of_bytes [39; 92; 39; 39].

(** Reading a quoted text adds it to the word. *)
Lemma shell_words_quoted w s rest :
  shell_words true (Some w) (ReplaceAll tick tick_escape s +:+ String tick rest) = shell_words false (Some (w +:+ s)) rest.
Proof.
  revert w. induction s as [|a s IH]; intros w; cbn [ReplaceAll].
  { change ("" +:+ String tick rest) with (String tick rest). cbn [shell_words]. rewrite bool_decide_eq_true_2 by done. by rewrite sapp_nil_r. }
  assert (Hstep : w +:+ String a s = (w +:+ String a "") +:+ s) by by rewrite sapp_assoc.
  case_bool_decide as Ha.
  - subst a. rewrite sapp_assoc. change (tick_escape +:+ ?x) with (String tick (String slash_back (String tick (String tick x)))).
    cbn [shell_words]. rewrite !(bool_decide_eq_true_2 (tick = tick)), (bool_decide_eq_false_2 (slash_back = tick)) by done.
    rewrite (bool_decide_eq_true_2 (slash_back = slash_back)), (bool_decide_eq_false_2 (tick = ascii_of_nat 10)) by done. cbn [default].
    by rewrite IH, Hstep.
  - change (String a (ReplaceAll tick tick_escape s) +:+ String tick rest) with (String a (ReplaceAll tick tick_escape s +:+ String tick rest)).
    cbn [shell_words]. rewrite bool_decide_eq_false_2 by done. cbn [default]. by rewrite IH, Hstep.
Qed.

(** ** Examples *)

Example fields_examples :
  Fields ("  a b" +:+ of_bytes [194; 160; 9] +:+ "c" +:+ of_bytes [13]) = ["a"; "b"; "c"] ∧ Fields "" = [] ∧ Fields " " = [].
Proof. vm_compute. done. Qed.

Example shell_read_examples :
  shell_read "'a b' c'd'  e" = Some ["a b"; "cd"; "e"] ∧ shell_read "''" = Some [""] ∧ shell_read "a; b" = None ∧ shell_read "'a" = None.
Proof. vm_compute. done. Qed.
