(* ===== verification/KnownHosts.v ===== *)
(** * Pinned host keys: sshprovision/known_hosts.go

    What a known_hosts file must say before a host is dialled: the pin of a host
    (its pattern, key type and key), the lines that concern it, the search for
    them and the edit that adds one.  The checks of files, directories and locks
    are in [SafeFile]. *)
From S2P Require Import Prelude GoStrings Encoding NetIP Paths Hostnames Config Clip Session SSHConfig Words.
From Stdlib Require Import Ascii String.
From stdpp Require Import strings.

#[local] Arguments String.append !_ _ / : simpl nomatch.

(** ** Public keys *)

Inductive KnownHostError := ErrInvalidKnownHostPin | ErrKnownHostMismatch | ErrKnownHostNotFound.

#[export] Instance known_host_error_eq_dec : EqDecision KnownHostError.
Proof. solve_decision. Defined.

(** The bytes no field of a line may hold: NUL, line breaks, tab, space. *)
Definition field_breaks : string := of_bytes [0; 13; 10; 9; 32].

Definition decodeKnownHostPublicKeyBlob (publicKey : string) : result KnownHostError string :=
  match (match b64_decode publicKey with Some blob => Some blob | None => b64_raw_decode publicKey end) with
  | None => Err ErrInvalidKnownHostPin
  | Some blob => if (len blob <? 4)%nat then Err ErrInvalidKnownHostPin else Ok blob
  end.

(** [binary.BigEndian.Uint32] *)
Definition be32 (b0 b1 b2 b3 : ascii) : N :=
  (((N_of_ascii b0 * 256 + N_of_ascii b1) * 256 + N_of_ascii b2) * 256 + N_of_ascii b3)%N.

(** The string a blob starts with. *)
Definition readSSHString (data : string) : option string :=
  match data with
  | String b0 (String b1 (String b2 (String b3 rest))) =>
      let size := be32 b0 b1 b2 b3 in
      if (size =? 0)%N || (N.of_nat (len rest) <? size)%N then None
      else
        let value := slice 0 (N.to_nat size) rest in
        if ContainsAny value field_breaks then None else Some value
  | _ => None
  end.

(** ** Pins *)

Record KnownHostPin := MkPin {
  pin_Pattern : string;
  pin_KeyType : string;
  pin_PublicKey : string;
}.

Definition KnownHostsPattern (host : string) (port : Z) : result KnownHostError string :=
  if (port <? 1)%Z || (65535 <? port)%Z then Err ErrInvalidKnownHostPin
  else
    match CanonicalSSHHost host with
    | Err _ => Err ErrInvalidKnownHostPin
    | Ok canonicalHost => if (port =? 22)%Z then Ok canonicalHost else Ok ("[" +:+ canonicalHost +:+ "]:" +:+ format_int port)
    end.

Definition key_type_byte (a : ascii) : bool :=
  is_upper a || is_lower a || is_digit a || bool_decide (a ∈ ["@"; "."; "_"; "+"; "-"]%char).

Definition knownHostKeyTypePattern (s : string) : bool :=
  match s with
  | String a s' => (is_upper a || is_lower a || is_digit a) && matches key_type_byte 0 127 s'
  | EmptyString => false
  end.

Definition validateKnownHostPattern (pattern : string) : result KnownHostError () :=
  if bool_decide (pattern = "") || negb (bool_decide (TrimSpace pattern = pattern)) then Err ErrInvalidKnownHostPin
  else if HasPrefix pattern "@" || ContainsAny pattern (field_breaks +:+ ",") then Err ErrInvalidKnownHostPin
  else Ok ().

Definition validateKnownHostPin (pin : KnownHostPin) : result KnownHostError () :=
  _ ← validateKnownHostPattern (pin_Pattern pin);
  if negb (knownHostKeyTypePattern (pin_KeyType pin)) || negb (bool_decide (TrimSpace (pin_KeyType pin) = pin_KeyType pin))
  then Err ErrInvalidKnownHostPin
  else if negb (bool_decide (TrimSpace (pin_PublicKey pin) = pin_PublicKey pin)) || ContainsAny (pin_PublicKey pin) field_breaks
  then Err ErrInvalidKnownHostPin
  else if bool_decide (pin_PublicKey pin = "") then Err ErrInvalidKnownHostPin
  else
    blob ← decodeKnownHostPublicKeyBlob (pin_PublicKey pin);
    match readSSHString blob with
    | None => Err ErrInvalidKnownHostPin
    | Some blobKeyType => if bool_decide (blobKeyType = pin_KeyType pin) then Ok () else Err ErrInvalidKnownHostPin
    end.

Definition NewKnownHostPin (host : string) (port : Z) (keyType publicKey : string) : result KnownHostError KnownHostPin :=
  pattern ← KnownHostsPattern host port;
  let pin := MkPin pattern keyType publicKey in
  _ ← validateKnownHostPin pin;
  Ok pin.

(** [KnownHostPin.Line] *)
Definition pin_Line (pin : KnownHostPin) : string := pin_Pattern pin +:+ " " +:+ pin_KeyType pin +:+ " " +:+ pin_PublicKey pin.

(** ** Entries *)

Record knownHostsEntry := MkEntry {
  ke_marker : string;
  ke_patterns : string;
  ke_keyType : string;
  ke_publicKey : string;
}.

Definition parseKnownHostsEntry (line : string) : option knownHostsEntry :=
  match Fields (TrimSpace line) with
  | [] => None
  | first :: fields =>
      if HasPrefix first "#" then None
      else if HasPrefix first "@" then
        match fields with f1 :: f2 :: f3 :: _ => Some (MkEntry first f1 f2 f3) | _ => None end
      else match fields with f1 :: f2 :: _ => Some (MkEntry "" first f1 f2) | _ => None end
  end.

Definition knownHostPatternListContains (list pattern : string) : bool :=
  existsb (λ candidate, bool_decide (candidate = pattern)) (Split "," list).

(** One row of the table of [openSSHKnownHostGlobMatches], from the row below: entry
    [j] says whether the glob from its [i]-th byte matches the value from its
    [j]-th. *)
Fixpoint glob_row (g : ascii) (value : string) (below : list bool) : list bool :=
  match value with
  | EmptyString => [if bool_decide (g = "*"%char) then default false (head below) else false]
  | String v value' =>
      let row := glob_row g value' (tail below) in
      (if bool_decide (g = "*"%char) then default false (head below) || default false (head row)
       else if bool_decide (g = "?"%char) then default false (head (tail below))
       else bool_decide (g = v) && default false (head (tail below))) :: row
  end.

Fixpoint glob_rows (glob value : string) : list bool :=
  match glob with
  | EmptyString => replicate (len value) false ++ [true]
  | String g glob' => glob_row g value (glob_rows glob' value)
  end.

Definition openSSHKnownHostGlobMatches (glob value : string) : bool := default false (head (glob_rows glob value)).

Definition knownHostPatternListMayMatch (list pattern : string) : bool :=
  existsb (λ candidate,
    if bool_decide (candidate = "") then false
    else if HasPrefix candidate "|" then true
    else
      let candidate := TrimPrefix candidate "!" in
      ContainsAny candidate "*?" && openSSHKnownHostGlobMatches candidate pattern) (Split "," list).

(** ParseKnownHostScanLine *)
Definition ParseKnownHostScanLine (host : string) (port : Z) (line : string) : result KnownHostError KnownHostPin :=
  pattern ← KnownHostsPattern host port;
  match Fields (TrimSpace line) with
  | f0 :: f1 :: f2 :: _ =>
      if HasPrefix f0 "@" then Err ErrInvalidKnownHostPin
      else if negb (knownHostPatternListContains f0 pattern) then Err ErrKnownHostMismatch
      else NewKnownHostPin host port f1 f2
  | _ => Err ErrInvalidKnownHostPin
  end.

(** ** Searching and editing a file *)

(** The loop over the lines; a [found] of [true] means a line with the key was met. *)
Fixpoint verify_lines (pin : KnownHostPin) (found : bool) (lines : list string) : result KnownHostError bool :=
  match lines with
  | [] => if found then Ok true else Err ErrKnownHostNotFound
  | rawLine :: lines =>
      match parseKnownHostsEntry rawLine with
      | None => verify_lines pin found lines
      | Some entry =>
          let contains := knownHostPatternListContains (ke_patterns entry) (pin_Pattern pin) in
          let mayMatch := knownHostPatternListMayMatch (ke_patterns entry) (pin_Pattern pin) in
          if negb (bool_decide (ke_marker entry = "")) && (contains || mayMatch) then Err ErrKnownHostMismatch
          else if mayMatch then Err ErrKnownHostMismatch
          else if negb contains then verify_lines pin found lines
          else if negb (bool_decide (ke_keyType entry = pin_KeyType pin)) then verify_lines pin found lines
          else if negb (bool_decide (ke_publicKey entry = pin_PublicKey pin)) then Err ErrKnownHostMismatch
          else verify_lines pin true lines
      end
  end.

Definition newline : ascii := ascii_of_nat 10.

Definition verifyKnownHostPinData (data : string) (pin : KnownHostPin) : result KnownHostError bool :=
  verify_lines pin false (Split newline data).

Definition appendKnownHostLine (data line : string) : string :=
  let data := if bool_decide (data = "") || HasSuffix data (String newline "") then data else data +:+ String newline "" in
  data +:+ line +:+ String newline "".

(** What [UpsertKnownHostPin] does under the lock, for the contents read (empty when
    there is no file): the contents to write, [None] when the pin is there. *)
Definition UpsertKnownHostPin (data : string) (pin : KnownHostPin) : result KnownHostError (option string) :=
  _ ← validateKnownHostPin pin;
  match verifyKnownHostPinData data pin with
  | Ok _ => Ok None
  | Err ErrKnownHostNotFound => Ok (Some (appendKnownHostLine data (pin_Line pin)))
  | Err e => Err e
  end.

(** [None]: there is no file. *)
Definition VerifyKnownHostPin (file : option string) (pin : KnownHostPin) : result KnownHostError () :=
  _ ← validateKnownHostPin pin;
  match file with
  | None => Err ErrKnownHostNotFound
  | Some data => _ ← verifyKnownHostPinData data pin; Ok ()
  end.

Definition AppendKnownHostsLinesLocked (data : string) (lines : list string) : result KnownHostError (option string) :=
  if bool_decide (lines = []) then Ok None
  else if existsb (λ line, ContainsAny line (of_bytes [10; 0])) lines then Err ErrInvalidKnownHostPin
  else Ok (Some (foldl appendKnownHostLine data lines)).

(** ** The glob matcher against its meaning *)

(** What an OpenSSH pattern means: a star stands for any text, a question mark for
    one byte, another byte for itself. *)
Inductive glob_matches : string → string → Prop :=
| glob_end : glob_matches "" ""
| glob_star_none g v : glob_matches g v → glob_matches (String "*" g) v
| glob_star_more g a v : glob_matches (String "*" g) v → glob_matches (String "*" g) (String a v)
| glob_any g a v : glob_matches g v → glob_matches (String "?" g) (String a v)
| glob_byte g a v : a ≠ "*"%char → a ≠ "?"%char → glob_matches g v → glob_matches (String a g) (String a v).

#[export] Hint Constructors glob_matches : clipfan.

Fixpoint suffixes (s : string) : list string :=
  match s with EmptyString => [""] | String _ s' => s :: suffixes s' end.

Definition row_ok (glob : string) (row : list bool) (value : string) : Prop :=
  Forall2 (λ b s, b = true ↔ glob_matches glob s) row (suffixes value).

Lemma row_head glob row value : row_ok glob row value → default false (head row) = true ↔ glob_matches glob value.
Proof. unfold row_ok. destruct value; inversion 1; done. Qed.

Lemma row_tail glob row a value : row_ok glob row (String a value) → row_ok glob (tail row) value.
Proof. by inversion 1. Qed.

Lemma glob_star g v : glob_matches (String "*" g) v ↔ glob_matches g v ∨ ∃ a v', v = String a v' ∧ glob_matches (String "*" g) v'.
Proof.
  split.
  - inversion 1; simplify_eq; eauto.
  - intros [?|(a & v' & -> & ?)]; eauto with clipfan.
Qed.

Lemma glob_byte_inv g glob s :
  g ≠ "*"%char → glob_matches (String g glob) s → ∃ v s', s = String v s' ∧ (g = "?"%char ∨ g = v) ∧ glob_matches glob s'.
Proof.
  intros Hg Hm. inversion Hm as [|g' v H|g' a v H|g' a v H|g' a v H1 H2 H]; subst.
  - by destruct Hg.
  - by destruct Hg.
  - exists a, v. auto.
  - exists g, v. auto.
Qed.

Lemma glob_row_ok g glob value below : row_ok glob below value → row_ok (String g glob) (glob_row g value below) value.
Proof.
  revert below. induction value as [|v value IH]; intros below Hb; cbn [glob_row].
  - constructor; [|constructor]. pose proof (row_head _ _ _ Hb) as Hh. case_bool_decide as Hg.
    + subst g. rewrite Hh, glob_star. naive_solver.
    + split; [done|]. intros (v & s' & Hv & _)%glob_byte_inv; [discriminate Hv|done].
  - pose proof (row_tail _ _ _ _ Hb) as Ht. specialize (IH _ Ht). constructor; [|exact IH].
    pose proof (row_head _ _ _ Hb) as Hh. pose proof (row_head _ _ _ Ht) as Hth. pose proof (row_head _ _ _ IH) as Hr.
    destruct (decide (g = "*"%char)) as [->|Hstar]; [|rewrite bool_decide_eq_false_2 by done].
    { rewrite bool_decide_eq_true_2, orb_true_iff, Hh, Hr, (glob_star glob (String v value)) by done.
      split; [intros [?|?]; eauto|intros [?|(a & v' & [= <- <-] & ?)]; eauto]. }
    destruct (decide (g = "?"%char)) as [->|Hany]; [|rewrite bool_decide_eq_false_2 by done].
    + rewrite bool_decide_eq_true_2, Hth by done. split; [eauto with clipfan|].
      intros (v' & s' & [= <- <-] & _ & Hm)%glob_byte_inv; [exact Hm|exact Hstar].
    + rewrite andb_true_iff, bool_decide_eq_true, Hth. split; [intros [-> ?]; by apply glob_byte|].
      intros (v' & s' & [= <- <-] & [?|?] & Hm)%glob_byte_inv; [contradiction|by split|exact Hstar].
Qed.

Lemma glob_rows_ok glob value : row_ok glob (glob_rows glob value) value.
Proof.
  induction glob as [|g glob IH]; cbn [glob_rows]; [|by apply glob_row_ok]. unfold row_ok.
  induction value as [|v value IH]; cbn [len String.length replicate suffixes app].
  - repeat constructor.
  - constructor; [|exact IH]. split; [done|]. by inversion 1.
Qed.

(** C37. The table of the glob matcher computes what the patterns of known_hosts mean:
    it accepts a value exactly when the pattern matches it. *)
Theorem glob_equivalence glob value : openSSHKnownHostGlobMatches glob value = true ↔ glob_matches glob value.
Proof. apply row_head, glob_rows_ok. Qed.

(** ** Lemmas: the bytes of hosts, types and keys *)

Definition host_byte (a : ascii) : bool := is_lower a || is_digit a || bool_decide (a ∈ ["-"; "."; ":"]%char).

Lemma forall_bytes_Join f sep l : forall_bytes f sep = true → Forall (λ s, forall_bytes f s = true) l → forall_bytes f (GoStrings.Join sep l) = true.
Proof.
  intros Hsep. induction 1 as [|s l Hs Hl IH]; [done|]. destruct (decide (l = [])) as [->|Hne]; [done|].
  by rewrite Join_cons, !forall_bytes_cat, Hs, Hsep, IH.
Qed.

Lemma hex_digit_host n : n < 16 → host_byte (hex_digit n) = true.
Proof. intros Hn. do 16 (destruct n as [|n]; [by vm_compute|]). lia. Qed.

Lemma hex_of_host z : (0 ≤ z < 65536)%Z → forall_bytes host_byte (hex_of z) = true ∧ hex_of z ≠ "".
Proof.
  intros Hz. unfold hex_of. cbv zeta.
  assert (Hd : Forall (λ d, (0 ≤ d < 16)%Z) [z / 4096; (z / 256) mod 16; (z / 16) mod 16; z mod 16]%Z).
  { repeat constructor; try (apply Z.mod_pos_bound; lia); try (apply Z.div_pos; lia); apply Z.div_lt_upper_bound; lia. }
  match goal with |- context [foldr _ _ ?c] =>
    assert (Hl : Forall (λ d, (0 ≤ d < 16)%Z) c ∧ c ≠ []); [|revert Hl; generalize c] end.
  { rewrite !Forall_cons in Hd. destruct Hd as (H1 & H2 & H3 & H4 & _). repeat case_match; (split; [repeat constructor; tauto|done]). }
  intros l [Hall Hne]. split; [|by destruct l]. clear -Hall. induction Hall as [|d l Hd Hl IH]; [done|]. simpl.
  rewrite IH, andb_true_r. apply hex_digit_host. lia.
Qed.

Lemma groups_bound ip : Forall octet ip → Forall (λ g, (0 ≤ g < 65536)%Z) (groups_of ip).
Proof.
  remember (length ip) as n eqn:Hn. revert ip Hn. induction (lt_wf n) as [n _ IH]. intros ip -> Hip.
  destruct ip as [|a [|b ip]]; [constructor|constructor|]. simpl.
  apply Forall_cons in Hip as [Ha Hip]. apply Forall_cons in Hip as [Hb Hip]. constructor; [unfold octet in *; lia|].
  eapply IH; [|done|done]. simpl. lia.
Qed.

Lemma digits_host s : forall_bytes is_digit s = true → forall_bytes host_byte s = true.
Proof. apply forall_bytes_impl. intros a Ha. unfold host_byte. by rewrite Ha, orb_true_r. Qed.

Lemma octet_text z : octet z → forall_bytes host_byte (format_int z) = true ∧ format_int z ≠ "".
Proof.
  unfold octet. intros Hz. split; [|apply format_int_nonempty]. destruct z; [done| |lia]. apply digits_host. apply format_uint_digits.
Qed.

Lemma Forall_fmap_texts {A} (f : A → string) (P : A → Prop) l :
  (∀ x, P x → forall_bytes host_byte (f x) = true ∧ f x ≠ "") → Forall P l → Forall (λ s, forall_bytes host_byte s = true) (f <$> l) ∧ Forall (λ s, s ≠ "") (f <$> l).
Proof. intros Hf Hl. rewrite !Forall_fmap. split; (eapply Forall_impl; [exact Hl|]); intros x Hx; by apply Hf. Qed.

Lemma IP_String_host ip : length ip = 16 → Forall octet ip → forall_bytes host_byte (IP_String ip) = true ∧ IP_String ip ≠ "".
Proof.
  intros Hlen Hip. unfold IP_String. destruct (is_v4 ip).
  - destruct (Forall_fmap_texts format_int octet (drop 12 ip) octet_text (Forall_drop _ _ _ Hip)) as [Hb Hn].
    split; [by apply forall_bytes_Join|]. apply Join_nonempty; [|done]. intros Hnil. apply (f_equal length) in Hnil.
    rewrite length_fmap, length_drop in Hnil. simpl in Hnil. lia.
  - pose proof (groups_bound ip Hip) as Hg. destruct (longest_zeros (groups_of ip)) as [s n].
    assert (Htexts : ∀ l, Forall (λ g, (0 ≤ g < 65536)%Z) l → forall_bytes host_byte (GoStrings.Join ":" (hex_of <$> l)) = true).
    { intros l Hl. apply forall_bytes_Join; [done|]. by apply (Forall_fmap_texts hex_of _ l hex_of_host). }
    destruct (n =? 0)%nat.
    + split; [by apply Htexts|]. apply Join_nonempty; [|by apply (Forall_fmap_texts hex_of _ _ hex_of_host)].
      destruct ip as [|a [|b ip]]; simpl in Hlen; [lia|lia|done].
    + rewrite !forall_bytes_cat, !Htexts by eauto using Forall_take, Forall_drop. split; [done|]. intros He.
      apply (f_equal len) in He. rewrite !len_app in He. simpl in He. lia.
Qed.

Lemma lower_fixed a : host_byte a = true → lower_byte a = a.
Proof. destruct a as [[] [] [] [] [] [] [] []]; vm_compute; done. Qed.

Lemma ToLower_host s : forall_bytes host_byte s = true → ToLower s = s.
Proof. induction s as [|a s IH]; [done|]. intros [Ha Hs]%andb_true_iff. simpl. by rewrite lower_fixed, IH. Qed.

Lemma dns_label_bytes l : dns_label l = Ok () → forall_bytes dns_byte l = true ∧ l ≠ "".
Proof.
  unfold dns_label. case_bool_decide; [done|]. destruct (_ <? _)%nat; [done|]. destruct (_ || _); [done|]. by destruct (forall_bytes dns_byte l).
Qed.

Lemma dns_labels_bytes l : dns_labels l = Ok () → Forall (λ s, forall_bytes host_byte s = true) l.
Proof.
  induction l as [|s l IH]; [constructor|]. cbn [dns_labels]. intros ([] & Hs & Hl)%bind_Ok. constructor; [|by apply IH].
  apply dns_label_bytes in Hs as [Hs _]. revert Hs. apply forall_bytes_impl. intros a. unfold dns_byte, host_byte.
  intros [?| ->%bool_decide_eq_true]%orb_true_iff; [apply orb_true_iff; by left|done].
Qed.

(** A canonical host is not empty and made of lower-case letters, digits, hyphens,
    dots and colons. *)
Lemma CanonicalSSHHost_bytes h c : CanonicalSSHHost h = Ok c → forall_bytes host_byte c = true ∧ c ≠ "".
Proof.
  unfold CanonicalSSHHost. destruct (bool_decide (h = "")); [done|]. destruct (_ <? _)%nat; [done|]. destruct (negb _); [done|].
  destruct (HasPrefix h "-"); [done|]. destruct (ContainsAny h host_metacharacters); [done|].
  destruct (ParseIP h) as [ip|] eqn:Hip.
  - destruct (Contains h "%"); [done|]. intros [= <-]. destruct (ParseIP_wf _ _ Hip) as [Hlen Hoct].
    destruct (IP_String_host ip Hlen Hoct) as [Hb Hn]. by rewrite ToLower_host.
  - destruct (Contains h ":"); [done|]. destruct (negb _); [done|]. set (host := ToLower _). case_bool_decide as Hne; [done|].
    destruct (_ <? _)%nat; [done|]. intros ([] & Hl & [= <-])%bind_Ok. split; [|done]. apply dns_labels_bytes in Hl.
    rewrite <- (Join_Split "." host). by apply forall_bytes_Join.
Qed.

Definition pattern_byte (a : ascii) : bool := host_byte a || bool_decide (a ∈ ["["; "]"]%char).

Lemma KnownHostsPattern_bytes h p pattern : KnownHostsPattern h p = Ok pattern → forall_bytes pattern_byte pattern = true ∧ pattern ≠ "".
Proof.
  unfold KnownHostsPattern. destruct (_ || _) eqn:Hp; [done|]. destruct (CanonicalSSHHost h) as [c|] eqn:Hc; [|done].
  apply CanonicalSSHHost_bytes in Hc as [Hb Hn].
  assert (Hpb : forall_bytes pattern_byte c = true).
  { revert Hb. apply forall_bytes_impl. intros a Ha. unfold pattern_byte. by rewrite Ha. }
  destruct (p =? 22)%Z; intros [= <-]; [done|]. split; [|done]. simpl. rewrite forall_bytes_cat, Hpb. simpl.
  generalize (format_int_bytes p). apply forall_bytes_impl. intros a. unfold num_byte, pattern_byte, host_byte.
  intros [Ha| ->%bool_decide_eq_true]%orb_true_iff; [|done]. by rewrite Ha, orb_true_r.
Qed.

(** The bytes of base64. *)
Definition b64_byte (a : ascii) : bool := is_upper a || is_lower a || is_digit a || bool_decide (a ∈ ["+"; "/"; "="]%char).

Lemma b64_value_byte a v : b64_value a = Some v → b64_byte a = true.
Proof. destruct a as [[] [] [] [] [] [] [] []]; vm_compute; done. Qed.

Lemma quanta_bytes s b : b64_decode_quanta s = Some b → forall_bytes b64_byte s = true.
Proof.
  remember (len s) as n eqn:Hn. revert s b Hn. induction (lt_wf n) as [n _ IH]. intros s b -> Hb.
  destruct s as [|c1 [|c2 [|c3 [|c4 s]]]]; try done. cbn [b64_decode_quanta] in Hb. cbn [forall_bytes].
  apply bind_Some in Hb as (v1 & H1%b64_value_byte & Hb). apply bind_Some in Hb as (v2 & H2%b64_value_byte & Hb). rewrite H1, H2. cbn [andb].
  case_bool_decide as H3; [subst c3|].
  { case_bool_decide as H4; [subst c4|done]. by destruct s. }
  apply bind_Some in Hb as (v3 & H3'%b64_value_byte & Hb). rewrite H3'. cbn [andb].
  case_bool_decide as H4; [subst c4; by destruct s|]. apply bind_Some in Hb as (v4 & H4'%b64_value_byte & Hb). rewrite H4'. cbn [andb].
  apply bind_Some in Hb as (rest & Hb & _). eapply (IH (len s)); [|done|exact Hb]. unfold len. simpl. lia.
Qed.

Lemma raw_quanta_bytes s b : b64_raw_quanta s = Some b → forall_bytes b64_byte s = true.
Proof.
  remember (len s) as n eqn:Hn. revert s b Hn. induction (lt_wf n) as [n _ IH]. intros s b -> Hb.
  destruct s as [|c1 [|c2 s]]; try done. cbn [b64_raw_quanta] in Hb. cbn [forall_bytes].
  destruct s as [|c3 [|c4 s]].
  - apply bind_Some in Hb as (v1 & H1%b64_value_byte & Hb). apply bind_Some in Hb as (v2 & H2%b64_value_byte & Hb). by rewrite H1, H2.
  - apply bind_Some in Hb as (v1 & H1%b64_value_byte & Hb). apply bind_Some in Hb as (v2 & H2%b64_value_byte & Hb).
    apply bind_Some in Hb as (v3 & H3%b64_value_byte & Hb). cbn [forall_bytes]. by rewrite H1, H2, H3.
  - apply bind_Some in Hb as (v1 & H1%b64_value_byte & Hb). apply bind_Some in Hb as (v2 & H2%b64_value_byte & Hb).
    apply bind_Some in Hb as (v3 & H3%b64_value_byte & Hb). apply bind_Some in Hb as (v4 & H4%b64_value_byte & Hb).
    apply bind_Some in Hb as (rest & Hb & _). cbn [forall_bytes]. rewrite H1, H2, H3, H4. cbn [andb].
    eapply (IH (len s)); [|done|exact Hb]. unfold len. simpl. lia.
Qed.

Lemma has_byte_flip a chars : exists_byte (λ c, bool_decide (a = c)) chars = has_byte a chars.
Proof.
  unfold has_byte. induction chars as [|c chars IH]; [done|]. cbn [exists_byte]. rewrite IH. f_equal. by apply bool_decide_ext.
Qed.

Lemma ContainsAny_cons a s chars : ContainsAny (String a s) chars = has_byte a chars || ContainsAny s chars.
Proof.
  unfold ContainsAny. cbn [exists_byte]. by rewrite has_byte_flip.
Qed.

Lemma no_breaks s : ContainsAny s field_breaks = false → drop_newlines s = s.
Proof.
  induction s as [|a s IH]; [done|]. rewrite ContainsAny_cons. intros [Ha Hs]%orb_false_iff. cbn [drop_newlines]. rewrite IH by done.
  unfold field_breaks, of_bytes in Ha. rewrite !has_byte_cons in Ha. bool_prop. rewrite !bool_decide_eq_false_2 by congruence. done.
Qed.

Lemma blob_bytes pk blob : ContainsAny pk field_breaks = false → decodeKnownHostPublicKeyBlob pk = Ok blob → forall_bytes b64_byte pk = true.
Proof.
  intros Hno. unfold decodeKnownHostPublicKeyBlob, b64_decode, b64_raw_decode. rewrite no_breaks by done.
  destruct (b64_decode_quanta pk) as [b|] eqn:Hb; [intros _; by eapply quanta_bytes|].
  destruct (b64_raw_quanta pk) as [b|] eqn:Hr; [intros _; by eapply raw_quanta_bytes|done].
Qed.

Lemma blob_visible pk blob : ContainsAny pk field_breaks = false → decodeKnownHostPublicKeyBlob pk = Ok blob → plain_word pk = true.
Proof.
  intros Hno Hb. pose proof (blob_bytes _ _ Hno Hb) as H. revert H. apply forall_bytes_impl. intros a. destruct a as [[] [] [] [] [] [] [] []]; vm_compute; done.
Qed.

Lemma key_type_visible kt : knownHostKeyTypePattern kt = true → plain_word kt = true ∧ kt ≠ "".
Proof.
  unfold knownHostKeyTypePattern. destruct kt as [|a kt]; [done|]. intros [Ha Hkt]%andb_true_iff. split; [|done].
  unfold matches in Hkt. apply andb_true_iff in Hkt as [_ Hkt]. apply andb_true_iff. split.
  - revert Ha. destruct a as [[] [] [] [] [] [] [] []]; vm_compute; done.
  - revert Hkt. apply forall_bytes_impl. intros b. destruct b as [[] [] [] [] [] [] [] []]; vm_compute; done.
Qed.

Lemma pattern_visible s : forall_bytes pattern_byte s = true → plain_word s = true.
Proof. apply forall_bytes_impl. intros b. destruct b as [[] [] [] [] [] [] [] []]; vm_compute; done. Qed.

(** ** Lemmas: pins *)

(** A pin whose line is read as what it says: its three fields are words, and its
    pattern is a plain host, no comment, marker, list, glob or hash. *)
Definition pin_plain (pin : KnownHostPin) : Prop :=
  forall_bytes pattern_byte (pin_Pattern pin) = true ∧ pin_Pattern pin ≠ "" ∧
  plain_word (pin_KeyType pin) = true ∧ pin_KeyType pin ≠ "" ∧ plain_word (pin_PublicKey pin) = true ∧ pin_PublicKey pin ≠ "".

Lemma valid_pin_words pin :
  validateKnownHostPin pin = Ok () → plain_word (pin_KeyType pin) = true ∧ pin_KeyType pin ≠ "" ∧ plain_word (pin_PublicKey pin) = true ∧ pin_PublicKey pin ≠ "".
Proof.
  unfold validateKnownHostPin. intros ([] & _ & Hv)%bind_Ok. destruct (_ || _) eqn:Hkt in Hv; [done|].
  apply orb_false_iff in Hkt as [Hkt%negb_false_iff _]. apply key_type_visible in Hkt as [Hkt Hktn].
  destruct (_ || _) eqn:Hpk in Hv; [done|]. apply orb_false_iff in Hpk as [_ Hpk]. case_bool_decide as Hpkn; [done|].
  apply bind_Ok in Hv as (blob & Hblob & _). split_and!; try done. by eapply blob_visible.
Qed.

Lemma new_pin_plain host port kt pk pin : NewKnownHostPin host port kt pk = Ok pin → validateKnownHostPin pin = Ok () ∧ pin_plain pin.
Proof.
  unfold NewKnownHostPin. intros (pattern & Hpat & ([] & Hv & [= <-])%bind_Ok)%bind_Ok. split; [done|].
  apply KnownHostsPattern_bytes in Hpat as [Hb Hn]. split; [done|]. split; [done|]. by apply valid_pin_words in Hv.
Qed.

Lemma pattern_no_byte c s : pattern_byte c = false → forall_bytes pattern_byte s = true → has_byte c s = false.
Proof. intros Hc Hs. by eapply has_byte_forall. Qed.

Lemma no_byte_prefix c s : has_byte c s = false → HasPrefix s (String c "") = false.
Proof. apply has_byte_prefix. Qed.

Lemma ContainsAny_no chars s : (∀ c, has_byte c chars = true → has_byte c s = false) → ContainsAny s chars = false.
Proof.
  intros Hno. unfold ContainsAny. induction s as [|a s IH]; [done|]. cbn [exists_byte]. apply orb_false_iff. split.
  - rewrite has_byte_flip. destruct (has_byte a chars) eqn:Ha; [|done].
    apply Hno in Ha. rewrite has_byte_cons, bool_decide_eq_true_2 in Ha by done. done.
  - apply IH. intros c Hc. apply Hno in Hc. rewrite has_byte_cons in Hc. by apply orb_false_iff in Hc as [_ ?].
Qed.

Lemma pin_line_entry pin : pin_plain pin → parseKnownHostsEntry (pin_Line pin) = Some (MkEntry "" (pin_Pattern pin) (pin_KeyType pin) (pin_PublicKey pin)).
Proof.
  intros (Hpat & Hpn & Hkt & Hktn & Hpk & Hpkn). unfold parseKnownHostsEntry.
  set (line := pin_Line pin). assert (Hline : line = GoStrings.Join " " [pin_Pattern pin; pin_KeyType pin; pin_PublicKey pin]) by done.
  assert (Htrim : TrimSpace line = line).
  { destruct (string_last (pin_PublicKey pin)) as [?|(t & b & Hb)]; [done|]. destruct (pin_Pattern pin) as [|a pat] eqn:Hp; [done|].
    unfold line, pin_Line. rewrite Hp, Hb. apply (TrimSpace_visible a _ (String a pat +:+ " " +:+ pin_KeyType pin +:+ " " +:+ t) b).
    - change (String a (pat +:+ ?x)) with (String a pat +:+ x). by rewrite !sapp_assoc.
    - apply pattern_visible in Hpat. by apply andb_true_iff in Hpat as [? _].
    - rewrite Hb in Hpk. unfold plain_word in Hpk. rewrite forall_bytes_cat in Hpk. simpl in Hpk. by bool_prop. }
  rewrite Htrim, Hline, Fields_Join by (repeat constructor; auto using pattern_visible).
  change "#" with (String "#" ""). change "@" with (String "@" "").
  rewrite !no_byte_prefix by (by eapply pattern_no_byte). done.
Qed.

Lemma pin_pattern_self pin : pin_plain pin →
  knownHostPatternListContains (pin_Pattern pin) (pin_Pattern pin) = true ∧ knownHostPatternListMayMatch (pin_Pattern pin) (pin_Pattern pin) = false.
Proof.
  intros (Hpat & Hpn & _). assert (Hsplit : Split "," (pin_Pattern pin) = [pin_Pattern pin]) by (apply Split_plain; by eapply pattern_no_byte).
  unfold knownHostPatternListContains, knownHostPatternListMayMatch. rewrite Hsplit. cbn [existsb]. rewrite bool_decide_eq_true_2 by done. split; [done|].
  rewrite orb_false_r. rewrite bool_decide_eq_false_2 by done. change "|" with (String "|" ""). rewrite no_byte_prefix by by eapply pattern_no_byte.
  unfold TrimPrefix. change "!" with (String "!" ""). rewrite no_byte_prefix by by eapply pattern_no_byte.
  rewrite ContainsAny_no; [done|]. intros c Hc. rewrite !has_byte_cons in Hc. apply orb_true_iff in Hc as [<-%bool_decide_eq_true|Hc]; [by eapply pattern_no_byte|].
  apply orb_true_iff in Hc as [<-%bool_decide_eq_true|Hc]; [by eapply pattern_no_byte|done].
Qed.

(** ** Lemmas: the search *)

(** The entry names the host of the pin itself. *)
Definition names (pin : KnownHostPin) (e : knownHostsEntry) : Prop := knownHostPatternListContains (ke_patterns e) (pin_Pattern pin) = true.

(** Nothing in the entry speaks against the pin: it is no glob or hash that could
    stand for the host, and where it names the host it carries no marker and, for
    this type, this very key. *)
Definition fits (pin : KnownHostPin) (e : knownHostsEntry) : Prop :=
  knownHostPatternListMayMatch (ke_patterns e) (pin_Pattern pin) = false ∧
  (names pin e → ke_marker e = "" ∧ (ke_keyType e = pin_KeyType pin → ke_publicKey e = pin_PublicKey pin)).

(** The entry is the pin. *)
Definition holds_pin (pin : KnownHostPin) (e : knownHostsEntry) : Prop :=
  names pin e ∧ ke_keyType e = pin_KeyType pin ∧ ke_publicKey e = pin_PublicKey pin.

Definition entries (data : string) : list knownHostsEntry := omap parseKnownHostsEntry (Split newline data).

Lemma verify_lines_spec pin found lines :
  let es := omap parseKnownHostsEntry lines in
  match verify_lines pin found lines with
  | Ok b => b = true ∧ Forall (fits pin) es ∧ (found = true ∨ Exists (holds_pin pin) es)
  | Err ErrKnownHostNotFound => Forall (fits pin) es ∧ found = false ∧ ¬ Exists (holds_pin pin) es
  | Err ErrKnownHostMismatch => Exists (λ e, ¬ fits pin e) es
  | Err ErrInvalidKnownHostPin => False
  end.
Proof.
  revert found. induction lines as [|raw lines IH]; intros found; cbn [verify_lines omap list_omap].
  { destruct found; [split_and!; auto|]. split_and!; [constructor|done|]. by inversion 1. }
  destruct (parseKnownHostsEntry raw) as [e|]; [|apply IH]. cbv zeta. specialize (IH : ∀ found, _).
  destruct (knownHostPatternListMayMatch (ke_patterns e) (pin_Pattern pin)) eqn:Hmay.
  { rewrite orb_true_r, andb_true_r. destruct (negb _); left; intros [? _]; congruence. }
  rewrite orb_false_r. destruct (knownHostPatternListContains (ke_patterns e) (pin_Pattern pin)) eqn:Hnames.
  2:{ rewrite andb_false_r. cbn [negb]. assert (Hfit : fits pin e) by (split; [done|intros H; unfold names in H; congruence]).
      assert (Hno : ¬ holds_pin pin e) by (intros [H _]; unfold names in H; congruence). specialize (IH found).
      destruct (verify_lines pin found lines) as [b|[]]; rewrite ?Forall_cons, ?Exists_cons; naive_solver. }
  rewrite andb_true_r. destruct (decide (ke_marker e = "")) as [Hm|Hm].
  2:{ rewrite bool_decide_eq_false_2 by done. left. intros [_ Hf]. by apply Hf in Hnames as [? _]. }
  rewrite bool_decide_eq_true_2 by done. cbn [negb]. destruct (decide (ke_keyType e = pin_KeyType pin)) as [Hk|Hk].
  2:{ rewrite bool_decide_eq_false_2 by done. cbn [negb]. assert (Hfit : fits pin e) by (split; [done|]; intros _; by split).
      assert (Hno : ¬ holds_pin pin e) by (by intros (_ & ? & _)). specialize (IH found).
      destruct (verify_lines pin found lines) as [b|[]]; rewrite ?Forall_cons, ?Exists_cons; naive_solver. }
  rewrite bool_decide_eq_true_2 by done. cbn [negb]. destruct (decide (ke_publicKey e = pin_PublicKey pin)) as [Hp|Hp].
  2:{ rewrite bool_decide_eq_false_2 by done. left. intros [_ Hf]. apply Hf in Hnames as [_ Hf']. auto. }
  rewrite bool_decide_eq_true_2 by done. cbn [negb]. assert (Hfit : fits pin e) by (split; [done|]; intros _; by split).
  assert (Hhold : holds_pin pin e) by done. specialize (IH true).
  destruct (verify_lines pin true lines) as [b|[]]; rewrite ?Forall_cons, ?Exists_cons; naive_solver.
Qed.

Lemma entries_append data line :
  has_byte newline line = false → entries (appendKnownHostLine data line) = entries data ++ omap parseKnownHostsEntry [line].
Proof.
  intros Hline. unfold entries, appendKnownHostLine. cbv zeta.
  assert (Hend : ∀ d, omap parseKnownHostsEntry (Split newline (d +:+ String newline line +:+ String newline "")) =
    omap parseKnownHostsEntry (Split newline d) ++ omap parseKnownHostsEntry [line]).
  { intros d. change (String newline line +:+ String newline "") with (String newline "" +:+ (line +:+ String newline "")).
    rewrite <- !sapp_assoc, Split_app by done. rewrite sapp_assoc. change (String newline "" +:+ line) with (String newline line).
    rewrite Split_app by done. rewrite !omap_app. change (omap parseKnownHostsEntry [""]) with (@nil knownHostsEntry). by rewrite app_nil_r. }
  destruct (bool_decide (data = "")) eqn:He; bool_prop.
  { subst data. cbn [orb]. change ("" +:+ ?x) with x. rewrite Split_app by done. rewrite Split_plain by done. rewrite omap_app.
    change (omap parseKnownHostsEntry [""]) with (@nil knownHostsEntry). by rewrite app_nil_r. }
  cbn [orb]. destruct (HasSuffix data (String newline "")) eqn:Hs.
  - apply HasSuffix_spec in Hs as [d ->]. rewrite sapp_assoc. change (String newline "" +:+ ?x) with (String newline x).
    change (String newline (line +:+ String newline "")) with (String newline line +:+ String newline ""). rewrite Hend.
    rewrite Split_app by done. rewrite omap_app. change (omap parseKnownHostsEntry [""]) with (@nil knownHostsEntry). by rewrite app_nil_r.
  - rewrite sapp_assoc. change (String newline "" +:+ ?x) with (String newline x).
    change (String newline (line +:+ String newline "")) with (String newline line +:+ String newline ""). apply Hend.
Qed.

Lemma pin_line_clean pin : pin_plain pin → has_byte newline (pin_Line pin) = false.
Proof.
  intros (Hpat & _ & Hkt & _ & Hpk & _). unfold pin_Line. rewrite !has_byte_app.
  rewrite (has_byte_forall newline visible) by (by apply pattern_visible || done).
  rewrite (has_byte_forall newline visible (pin_KeyType pin)) by done. by rewrite (has_byte_forall newline visible (pin_PublicKey pin)).
Qed.

Lemma verify_data_Ok data pin :
  verifyKnownHostPinData data pin = Ok true ↔ Exists (holds_pin pin) (entries data) ∧ Forall (fits pin) (entries data).
Proof.
  unfold verifyKnownHostPinData. pose proof (verify_lines_spec pin false (Split newline data)) as Hspec. cbv zeta in Hspec. fold (entries data) in Hspec.
  destruct (verify_lines pin false (Split newline data)) as [b|[]].
  - destruct Hspec as (-> & Hf & [?|He]); [done|]. naive_solver.
  - done.
  - split; [done|]. intros [_ Hf]. apply Exists_exists in Hspec as (e & Hin & Hno). rewrite Forall_forall in Hf. by apply Hf in Hin.
  - split; [done|]. intros [He _]. by destruct Hspec as (_ & _ & []).
Qed.

(** ** Properties *)

(** A file vouches for a pin exactly when one of its entries is the pin and none
    speaks against it: no glob or hashed entry could stand for the host, no marker
    (revoked, certificate authority) is on an entry that names it, and no entry
    names it with another key of the type. *)
Theorem verifyKnownHostPinData_spec data pin :
  verifyKnownHostPinData data pin = Ok true ↔ Exists (holds_pin pin) (entries data) ∧ Forall (fits pin) (entries data).
Proof.
  apply verify_data_Ok.
Qed.

(** Pinning a host, for a pin made from a host, a port, a key type and a key: the
    file is left alone when it vouches for the pin; when nothing speaks against the
    pin the one line of the pin is added behind everything else, every other entry
    stays, and the new file vouches for the pin and would be left alone; when an entry
    speaks against it the pin is refused. *)
Theorem UpsertKnownHostPin_spec host port kt pk pin data (Hpin : NewKnownHostPin host port kt pk = Ok pin) :
  match UpsertKnownHostPin data pin with
  | Ok None => VerifyKnownHostPin (Some data) pin = Ok ()
  | Ok (Some data') =>
      (∃ sep, data' = data +:+ sep +:+ pin_Line pin +:+ String newline "" ∧ sep ∈ [""; String newline ""]) ∧
      entries data' = entries data ++ [MkEntry "" (pin_Pattern pin) kt pk] ∧
      VerifyKnownHostPin (Some data') pin = Ok () ∧ UpsertKnownHostPin data' pin = Ok None
  | Err e => e = ErrKnownHostMismatch ∧ Exists (λ e, ¬ fits pin e) (entries data)
  end.
Proof.
  destruct (new_pin_plain _ _ _ _ _ Hpin) as [Hvalid Hplain]. unfold UpsertKnownHostPin, VerifyKnownHostPin, verifyKnownHostPinData.
  rewrite Hvalid. cbn [mbind result_bind]. pose proof (verify_lines_spec pin false (Split newline data)) as Hspec. cbv zeta in Hspec. fold (entries data) in Hspec.
  destruct (verify_lines pin false (Split newline data)) as [b|[]] eqn:Hv; [done|done|done|]. clear Hv.
  destruct Hspec as (Hfits & _ & Hno). set (data' := appendKnownHostLine data (pin_Line pin)).
  assert (Hentries : entries data' = entries data ++ [MkEntry "" (pin_Pattern pin) (pin_KeyType pin) (pin_PublicKey pin)]).
  { unfold data'. rewrite entries_append by by apply pin_line_clean. cbn [omap list_omap]. by rewrite pin_line_entry. }
  destruct (pin_pattern_self pin Hplain) as [Hself Hmay].
  assert (Hok : verify_lines pin false (Split newline data') = Ok true).
  { apply verify_data_Ok. rewrite Hentries. split.
    - apply Exists_app. right. left. done.
    - apply Forall_app. split; [done|]. constructor; [|constructor]. split; [done|]. intros _. done. }
  rewrite Hok. cbn [mbind result_bind]. split; [|split; [|done]].
  - unfold data', appendKnownHostLine. destruct (_ || _); [exists ""|exists (String newline "")]; (split; [|set_solver]); [done|].
    by rewrite !sapp_assoc.
  - rewrite Hentries. apply bind_Ok in Hpin as (pattern & _ & ([] & _ & [= <-])%bind_Ok). done.
Qed.

(** An Ed25519 key, as a line of known_hosts writes it. *)
Definition sample_key : string := "AAAAC3NzaC1lZDI1NTE5AAAAIAABAgMEBQYHCAkKCwwNDg8QERITFBUWFxgZGhscHR4f".

Lemma UpsertKnownHostPin_spec_witness :
  ∃ pin, NewKnownHostPin "Host-B.local" 2222 "ssh-ed25519" sample_key = Ok pin ∧
    pin_Line pin = "[host-b.local]:2222 ssh-ed25519 " +:+ sample_key ∧
    match UpsertKnownHostPin "# mine" pin with
    | Ok None => VerifyKnownHostPin (Some "# mine") pin = Ok ()
    | Ok (Some data') =>
        (∃ sep, data' = "# mine" +:+ sep +:+ pin_Line pin +:+ String newline "" ∧ sep ∈ [""; String newline ""]) ∧
        entries data' = entries "# mine" ++ [MkEntry "" (pin_Pattern pin) "ssh-ed25519" sample_key] ∧
        VerifyKnownHostPin (Some data') pin = Ok () ∧ UpsertKnownHostPin data' pin = Ok None
    | Err e => e = ErrKnownHostMismatch ∧ Exists (λ e, ¬ fits pin e) (entries "# mine")
    end.
Proof.
  exists (MkPin "[host-b.local]:2222" "ssh-ed25519" sample_key). assert (Hpin : NewKnownHostPin "Host-B.local" 2222 "ssh-ed25519" sample_key =
    Ok (MkPin "[host-b.local]:2222" "ssh-ed25519" sample_key)) by (vm_compute; reflexivity).
  split; [exact Hpin|]. split; [reflexivity|]. exact (UpsertKnownHostPin_spec _ _ _ _ _ "# mine" Hpin).
Defined.
