(* ===== verification/AuthorizedKeys.v ===== *)
(** * Managed lines of authorized_keys: sshprovision/authorized_keys.go

    The line that lets one peer in with one key and nothing but the gateway
    command, its reading back, and the edit that puts exactly one such line for a
    peer into the file.  The checks of files, directories and locks are in
    [SafeFile]. *)
From S2P Require Import Prelude GoStrings Utf8 Encoding NetIP Paths Hostnames Config Clip Session SSHConfig Words KnownHosts.
From Stdlib Require Import Ascii String.
From stdpp Require Import strings.

#[local] Arguments String.append !_ _ / : simpl nomatch.

Inductive AuthorizedKeyError := ErrInvalidAuthorizedKey | ErrAuthorizedKeyConflict | ErrAuthorizedKeyNotFound | ErrAuthorizedKeysUnsafe.

#[export] Instance authorized_key_error_eq_dec : EqDecision AuthorizedKeyError.
Proof. solve_decision. Defined.

Definition authorizedKeyMarkerPrefix : string := "clipfan-sync:".

Definition managedKeyType : string := "ssh-ed25519".

Definition authorizedKeyIDPattern (s : string) : bool := matches key_id_byte 8 64 s.

Record ManagedAuthorizedKey := MkManagedKey {
  mk_PeerID : string;
  mk_KeyID : string;
  mk_GatewayPath : string;
  mk_PublicKey : string;
}.

Record ManagedAuthorizedKeyMetadata := MkManagedMeta {
  mm_PeerID : string;
  mm_KeyID : string;
}.

#[export] Instance managed_meta_eq_dec : EqDecision ManagedAuthorizedKeyMetadata.
Proof. solve_decision. Defined.

Definition double_quote : ascii := ascii_of_nat 34.

Definition ValidateManagedAuthorizedKeyID (keyID : string) : bool := authorizedKeyIDPattern keyID.

Definition publicKeyType (publicKey : string) : result AuthorizedKeyError string :=
  if negb (bool_decide (TrimSpace publicKey = publicKey)) || ContainsAny publicKey field_breaks || bool_decide (publicKey = "")
  then Err ErrInvalidAuthorizedKey
  else
    match decodeKnownHostPublicKeyBlob publicKey with
    | Err _ => Err ErrInvalidAuthorizedKey
    | Ok blob => match readSSHString blob with Some keyType => Ok keyType | None => Err ErrInvalidAuthorizedKey end
    end.

Definition NewManagedAuthorizedKey (entry : ManagedAuthorizedKey) : result AuthorizedKeyError ManagedAuthorizedKey :=
  if negb (is_ok (ValidateHostID (mk_PeerID entry))) then Err ErrInvalidAuthorizedKey
  else if negb (ValidateManagedAuthorizedKeyID (mk_KeyID entry)) then Err ErrInvalidAuthorizedKey
  else if negb (is_ok (ValidateSSHExecutablePath (mk_GatewayPath entry))) then Err ErrInvalidAuthorizedKey
  else
    keyType ← publicKeyType (mk_PublicKey entry);
    if negb (bool_decide (keyType = managedKeyType)) then Err ErrInvalidAuthorizedKey else Ok entry.

Definition ForcedCommand (entry : ManagedAuthorizedKey) : string :=
  mk_GatewayPath entry +:+ " ssh-gateway --authorized-peer " +:+ mk_PeerID entry +:+ " --authorized-key-id " +:+ mk_KeyID entry.

Definition escapeAuthorizedKeyOption (value : string) : string :=
  let value := ReplaceAll slash_back (of_bytes [92; 92]) value in
  ReplaceAll double_quote (of_bytes [92; 34]) value.

(** [ManagedAuthorizedKey.Line] *)
Definition managed_Line (entry : ManagedAuthorizedKey) : string :=
  "no-agent-forwarding,no-X11-forwarding,no-port-forwarding,no-pty,no-user-rc,command=" +:+ String double_quote "" +:+
  escapeAuthorizedKeyOption (ForcedCommand entry) +:+ String double_quote "" +:+ " " +:+
  managedKeyType +:+ " " +:+ mk_PublicKey entry +:+ " " +:+ authorizedKeyMarkerPrefix +:+ mk_PeerID entry +:+ ":" +:+ mk_KeyID entry.

(** ** Reading a line *)

Definition isAuthorizedKeySpace (ch : ascii) : bool := bool_decide (ch ∈ [" "%char; ascii_of_nat 9]).

(** The loop of [readAuthorizedKeyField]; its special bytes are ASCII, so the bytes
    of a line decide what its runes do.  [None]: a quote is left open. *)
Fixpoint field_scan (inQuote escaped : bool) (line : string) : option (string * string) :=
  match line with
  | EmptyString => if inQuote then None else Some ("", "")
  | String ch line' =>
      let next (q e : bool) := (λ '(field, rest), (String ch field, rest)) <$> field_scan q e line' in
      if escaped then next inQuote false
      else if inQuote && bool_decide (ch = slash_back) then next inQuote true
      else if bool_decide (ch = double_quote) then next (negb inQuote) false
      else if negb inQuote && isAuthorizedKeySpace ch then
        Some ("", trim_left isAuthorizedKeySpace line)
      else next inQuote false
  end.

Definition readAuthorizedKeyField (line : string) : option (string * string) :=
  let line := trim_left isAuthorizedKeySpace line in
  if bool_decide (line = "") then None else field_scan false false line.

Definition authorizedKeyLineUsesPublicKey (line keyType publicKey : string) : bool :=
  let line := TrimSpace line in
  if bool_decide (line = "") || HasPrefix line "#" then false
  else
    match readAuthorizedKeyField line with
    | None => false
    | Some (first, rest) =>
        if bool_decide (first = keyType) then
          match readAuthorizedKeyField rest with
          | Some (candidateKey, _) => bool_decide (candidateKey = publicKey)
          | None => false
          end
        else
          match readAuthorizedKeyField rest with
          | None => false
          | Some (candidateType, rest) =>
              if negb (bool_decide (candidateType = keyType)) then false
              else
                match readAuthorizedKeyField rest with
                | Some (candidateKey, _) => bool_decide (candidateKey = publicKey)
                | None => false
                end
          end
    end.

Fixpoint unescape_option (escaped : bool) (value : string) : option string :=
  match value with
  | EmptyString => None
  | String ch value =>
      if escaped then String ch <$> unescape_option false value
      else if bool_decide (ch = slash_back) then unescape_option true value
      else if bool_decide (ch = double_quote) then Some ""
      else String ch <$> unescape_option false value
  end.

(** The runes read are written again, so a byte that is no UTF-8 comes out replaced. *)
Definition readAuthorizedKeyQuotedOption (value : string) : option string := unescape_option false (json_text value).

Definition command_option : string := "command=" +:+ String double_quote "".

Fixpoint parseAuthorizedKeyCommandOption (line : string) : option string :=
  match line with
  | EmptyString => None
  | String _ line' =>
      if HasPrefix line command_option then
        match readAuthorizedKeyQuotedOption (TrimPrefix line command_option) with
        | Some value => Some value
        | None => parseAuthorizedKeyCommandOption line'
        end
      else parseAuthorizedKeyCommandOption line'
  end.

Definition parseManagedAuthorizedKeyMarker (marker : string) : result AuthorizedKeyError ManagedAuthorizedKeyMetadata :=
  match Cut ":" (TrimPrefix marker authorizedKeyMarkerPrefix) with
  | None => Err ErrAuthorizedKeyConflict
  | Some (peerID, keyID) =>
      if negb (is_ok (ValidateHostID peerID)) then Err ErrAuthorizedKeyConflict
      else if negb (authorizedKeyIDPattern keyID) then Err ErrAuthorizedKeyConflict
      else Ok (MkManagedMeta peerID keyID)
  end.

Definition validateManagedAuthorizedKeyLine (line : string) (fields : list string) (markerIndex : nat)
    (metadata : ManagedAuthorizedKeyMetadata) : result AuthorizedKeyError () :=
  if (markerIndex <? 2)%nat || negb (bool_decide (fields !! (markerIndex - 2) = Some managedKeyType)) then Err ErrAuthorizedKeyConflict
  else
    match publicKeyType (default "" (fields !! (markerIndex - 1))) with
    | Err _ => Err ErrAuthorizedKeyConflict
    | Ok keyType =>
        if negb (bool_decide (keyType = managedKeyType)) then Err ErrAuthorizedKeyConflict
        else
          match parseAuthorizedKeyCommandOption line with
          | None => Err ErrAuthorizedKeyConflict
          | Some command =>
              let expectedSuffix := " ssh-gateway --authorized-peer " +:+ mm_PeerID metadata +:+ " --authorized-key-id " +:+ mm_KeyID metadata in
              if negb (HasSuffix command expectedSuffix) then Err ErrAuthorizedKeyConflict
              else if negb (is_ok (ValidateSSHExecutablePath (TrimSuffix command expectedSuffix))) then Err ErrAuthorizedKeyConflict
              else Ok ()
          end
    end.

(** [Ok None]: the line is not managed. *)
Definition ParseManagedAuthorizedKeyMetadata (line : string) : result AuthorizedKeyError (option ManagedAuthorizedKeyMetadata) :=
  let fields := Fields line in
  match list_find (λ field, Is_true (HasPrefix field authorizedKeyMarkerPrefix)) fields with
  | None => Ok None
  | Some (markerIndex, marker) =>
      metadata ← parseManagedAuthorizedKeyMarker marker;
      _ ← validateManagedAuthorizedKeyLine line fields markerIndex metadata;
      Ok (Some metadata)
  end.

(** ** Editing a file *)

Definition splitAuthorizedKeyLines (data : string) : list string * bool :=
  if bool_decide (data = "") then ([], true)
  else
    let trailingNewline := HasSuffix data (String newline "") in
    let trimmed := TrimSuffix data (String newline "") in
    if bool_decide (trimmed = "") then ([], trailingNewline) else (Split newline trimmed, trailingNewline).

Definition joinAuthorizedKeyLines (lines : list string) (trailingNewline : bool) : string :=
  if bool_decide (lines = []) then (if trailingNewline then String newline "" else "")
  else
    let out := GoStrings.Join (String newline "") lines in
    if trailingNewline then out +:+ String newline "" else out.

Fixpoint authorizedKeysHeaderLineCount (lines : list string) : nat :=
  match lines with
  | [] => 0
  | line :: lines =>
      let trimmed := TrimSpace line in
      if negb (bool_decide (trimmed = "")) && negb (HasPrefix trimmed "#") then 0 else S (authorizedKeysHeaderLineCount lines)
  end.

(** [take] and [drop] stop at the end of the list, as the clamping of the index does. *)
Definition insertManagedAuthorizedKeyLine (lines : list string) (index : nat) (line : string) : list string :=
  take index lines ++ line :: drop index lines.

(** The loop of [UpsertManagedAuthorizedKeyLine]: the lines that stay. *)
Fixpoint kept_lines (entry : ManagedAuthorizedKey) (lines : list string) : result AuthorizedKeyError (list string) :=
  match lines with
  | [] => Ok []
  | line :: lines =>
      managed ← ParseManagedAuthorizedKeyMetadata line;
      match managed with
      | None =>
          if authorizedKeyLineUsesPublicKey line managedKeyType (mk_PublicKey entry) then kept_lines entry lines
          else out ← kept_lines entry lines; Ok (line :: out)
      | Some metadata =>
          if bool_decide (mm_PeerID metadata = mk_PeerID entry) then kept_lines entry lines
          else if bool_decide (mm_KeyID metadata = mk_KeyID entry) then Err ErrAuthorizedKeyConflict
          else if authorizedKeyLineUsesPublicKey line managedKeyType (mk_PublicKey entry) then Err ErrAuthorizedKeyConflict
          else out ← kept_lines entry lines; Ok (line :: out)
      end
  end.

Definition UpsertManagedAuthorizedKeyLine (data : string) (entry : ManagedAuthorizedKey) : result AuthorizedKeyError string :=
  _ ← NewManagedAuthorizedKey entry;
  let '(lines, trailingNewline) := splitAuthorizedKeyLines data in
  let headerLineCount := authorizedKeysHeaderLineCount lines in
  out ← kept_lines entry lines;
  Ok (joinAuthorizedKeyLines (insertManagedAuthorizedKeyLine out headerLineCount (managed_Line entry)) trailingNewline).

(** What [UpsertManagedAuthorizedKeyFile] does under the lock, for the contents read
    (empty when there is no file): the contents to write, [None] when they are the
    ones read. *)
Definition UpsertManagedAuthorizedKeyFile (data : string) (entry : ManagedAuthorizedKey) : result AuthorizedKeyError (option string) :=
  _ ← NewManagedAuthorizedKey entry;
  updated ← UpsertManagedAuthorizedKeyLine data entry;
  Ok (if bool_decide (updated = data) then None else Some updated).

(** For the contents read; [None]: there is no file. *)
Definition VerifyManagedAuthorizedKeyFile (file : option string) (entry : ManagedAuthorizedKey) : result AuthorizedKeyError () :=
  _ ← NewManagedAuthorizedKey entry;
  match file with
  | None => Err ErrAuthorizedKeyNotFound
  | Some data =>
      updated ← UpsertManagedAuthorizedKeyLine data entry;
      if negb (bool_decide (updated = data)) then Err ErrAuthorizedKeyNotFound else Ok ()
  end.

(** ** A sample *)

Definition sample_entry : ManagedAuthorizedKey := MkManagedKey "host-b" "key-0001" "/usr/local/bin/clipfan" sample_key.

Example sample_line :
  ParseManagedAuthorizedKeyMetadata (managed_Line sample_entry) = Ok (Some (MkManagedMeta "host-b" "key-0001")) ∧
  authorizedKeyLineUsesPublicKey (managed_Line sample_entry) managedKeyType sample_key = true ∧
  parseAuthorizedKeyCommandOption (managed_Line sample_entry) =
    Some "/usr/local/bin/clipfan ssh-gateway --authorized-peer host-b --authorized-key-id key-0001".
Proof. vm_compute. done. Qed.

(** ** Lemmas: the line of an entry *)

Definition path_like (a : ascii) : bool := path_byte a || bool_decide (a ∈ [" "%char; "-"%char]).

(** What a valid entry is made of. *)
Record entry_ok (entry : ManagedAuthorizedKey) : Prop := {
  eo_peer : ValidateHostID (mk_PeerID entry) = Ok ();
  eo_peer_bytes : forall_bytes host_id_byte (mk_PeerID entry) = true;
  eo_peer_ne : mk_PeerID entry ≠ "";
  eo_key : authorizedKeyIDPattern (mk_KeyID entry) = true;
  eo_key_bytes : forall_bytes key_id_byte (mk_KeyID entry) = true;
  eo_gateway : ValidateSSHExecutablePath (mk_GatewayPath entry) = Ok ();
  eo_gateway_bytes : forall_bytes path_byte (mk_GatewayPath entry) = true;
  eo_public : publicKeyType (mk_PublicKey entry) = Ok managedKeyType;
  eo_public_bytes : forall_bytes b64_byte (mk_PublicKey entry) = true;
  eo_public_plain : plain_word (mk_PublicKey entry) = true;
  eo_public_ne : mk_PublicKey entry ≠ "";
  eo_public_breaks : ContainsAny (mk_PublicKey entry) field_breaks = false;
}.

Lemma public_key_plain pk kt : publicKeyType pk = Ok kt → forall_bytes b64_byte pk = true ∧ plain_word pk = true ∧ pk ≠ "" ∧ ContainsAny pk field_breaks = false.
Proof.
  unfold publicKeyType. destruct (_ || _) eqn:Hc; [done|]. apply orb_false_iff in Hc as [[_ Hb]%orb_false_iff Hne]. bool_prop.
  destruct (decodeKnownHostPublicKeyBlob pk) as [blob|] eqn:Hblob; [|done]. intros _. split_and!; try done; [by eapply blob_bytes|by eapply blob_visible].
Qed.

Lemma New_entry_ok entry e : NewManagedAuthorizedKey entry = Ok e → e = entry ∧ entry_ok entry.
Proof.
  unfold NewManagedAuthorizedKey, ValidateManagedAuthorizedKeyID. destruct (ValidateHostID _) as [[]|] eqn:Hp; [|done]. cbn [is_ok negb].
  destruct (authorizedKeyIDPattern _) eqn:Hk; [|done]. cbn [negb]. destruct (ValidateSSHExecutablePath _) as [[]|] eqn:Hg; [|done]. cbn [is_ok negb].
  intros (kt & Hpk & He)%bind_Ok. case_bool_decide as Hkt; [|done]. injection He as <-. subst kt. split; [done|].
  destruct (public_key_plain _ _ Hpk) as (? & ? & ? & ?). pose proof Hp as (Hl & _ & Hb)%ValidateHostID_Ok.
  pose proof (executable_path_Ok _ Hg) as (t & _ & _ & Hgb). split; try done.
  - intros Heq. rewrite Heq in Hl. simpl in Hl. lia.
  - unfold authorizedKeyIDPattern, matches in Hk. by apply andb_true_iff in Hk as [_ ?].
Qed.

Lemma entry_ok_New entry : entry_ok entry → NewManagedAuthorizedKey entry = Ok entry.
Proof.
  intros []. unfold NewManagedAuthorizedKey, ValidateManagedAuthorizedKeyID. rewrite eo_peer0, eo_key0, eo_gateway0, eo_public0.
  cbn [is_ok negb mbind result_bind]. by rewrite bool_decide_eq_true_2.
Qed.

Lemma plain_word_app a b : plain_word (a +:+ b) = plain_word a && plain_word b.
Proof. apply forall_bytes_cat. Qed.

(** Bytes of the command: none a quote, a backslash or beyond ASCII. *)
Definition command_byte (a : ascii) : bool := visible a && negb (bool_decide (a ∈ [double_quote; slash_back; "#"%char])) || bool_decide (a = " "%char).

Ltac all_bytes := let a := fresh "a" in intros a; destruct a as [[] [] [] [] [] [] [] []]; vm_compute; done.

Lemma path_command s : forall_bytes path_byte s = true → forall_bytes command_byte s = true.
Proof. apply forall_bytes_impl. all_bytes. Qed.

Lemma host_id_command s : forall_bytes host_id_byte s = true → forall_bytes command_byte s = true.
Proof. apply forall_bytes_impl. all_bytes. Qed.

Lemma key_id_command s : forall_bytes key_id_byte s = true → forall_bytes command_byte s = true.
Proof. apply forall_bytes_impl. all_bytes. Qed.

Lemma path_plain s : forall_bytes path_byte s = true → plain_word s = true.
Proof. apply forall_bytes_impl. all_bytes. Qed.

Lemma host_id_plain s : forall_bytes host_id_byte s = true → plain_word s = true.
Proof. apply forall_bytes_impl. all_bytes. Qed.

Lemma key_id_plain s : forall_bytes key_id_byte s = true → plain_word s = true.
Proof. apply forall_bytes_impl. all_bytes. Qed.

Lemma plain_ascii s : plain_word s = true → forall_bytes (in_range 0 127) s = true.
Proof. apply forall_bytes_impl. all_bytes. Qed.

Lemma command_ascii s : forall_bytes command_byte s = true → forall_bytes (in_range 0 127) s = true.
Proof. apply forall_bytes_impl. all_bytes. Qed.

Lemma command_bytes entry : entry_ok entry → forall_bytes command_byte (ForcedCommand entry) = true.
Proof.
  intros []. unfold ForcedCommand. rewrite !forall_bytes_cat, (path_command (mk_GatewayPath entry)), (host_id_command (mk_PeerID entry)), (key_id_command (mk_KeyID entry)) by done. done.
Qed.

Lemma escape_command s : forall_bytes command_byte s = true → escapeAuthorizedKeyOption s = s.
Proof.
  intros Hs. unfold escapeAuthorizedKeyOption. rewrite (ReplaceAll_clean slash_back) by (by eapply has_byte_forall).
  by rewrite ReplaceAll_clean by (by eapply has_byte_forall).
Qed.

(** The line in two parts: the options, and what follows them. *)
Definition option_prefix : string := "no-agent-forwarding,no-X11-forwarding,no-port-forwarding,no-pty,no-user-rc,".

Definition line_tail (entry : ManagedAuthorizedKey) : string :=
  managedKeyType +:+ " " +:+ mk_PublicKey entry +:+ " " +:+ authorizedKeyMarkerPrefix +:+ mk_PeerID entry +:+ ":" +:+ mk_KeyID entry.

Lemma line_parts entry :
  entry_ok entry →
  managed_Line entry = option_prefix +:+ command_option +:+ ForcedCommand entry +:+ String double_quote (String " " (line_tail entry)).
Proof. intros H. unfold managed_Line. rewrite escape_command by by apply command_bytes. done. Qed.

Lemma unescape_command s rest :
  forall_bytes command_byte s = true → unescape_option false (s +:+ String double_quote rest) = Some s.
Proof.
  induction s as [|a s IH]; [intros _; reflexivity|]. intros [Ha Hs]%andb_true_iff. change (String a s +:+ ?x) with (String a (s +:+ x)).
  cbn [unescape_option]. rewrite IH by done.
  rewrite !bool_decide_eq_false_2; [done| |]; intros ->; by vm_compute in Ha.
Qed.

Lemma tail_bytes entry : entry_ok entry → forall_bytes (in_range 0 127) (line_tail entry) = true.
Proof.
  intros []. unfold line_tail. rewrite !forall_bytes_cat, (plain_ascii (mk_PublicKey entry)), (plain_ascii (mk_PeerID entry)), (plain_ascii (mk_KeyID entry)) by auto using host_id_plain, key_id_plain. done.
Qed.

Lemma parse_command_skip a s :
  HasPrefix (String a s) command_option = false → parseAuthorizedKeyCommandOption (String a s) = parseAuthorizedKeyCommandOption s.
Proof. intros H. cbn [parseAuthorizedKeyCommandOption]. by rewrite H. Qed.

Lemma parse_command_line entry : entry_ok entry → parseAuthorizedKeyCommandOption (managed_Line entry) = Some (ForcedCommand entry).
Proof.
  intros He. rewrite line_parts by done. set (rest := ForcedCommand entry +:+ _).
  assert (Hskip : parseAuthorizedKeyCommandOption (option_prefix +:+ command_option +:+ rest) = parseAuthorizedKeyCommandOption (command_option +:+ rest)).
  { unfold option_prefix. cbn [String.append]. rewrite !parse_command_skip; [reflexivity|..]; reflexivity. }
  rewrite Hskip. change (command_option +:+ rest) with (String "c" ("ommand=" +:+ String double_quote rest)) at 1. cbn [parseAuthorizedKeyCommandOption].
  change (String "c" ("ommand=" +:+ String double_quote rest)) with (command_option +:+ rest). rewrite HasPrefix_app, TrimPrefix_app.
  unfold readAuthorizedKeyQuotedOption, rest. rewrite ascii_json_text.
  - by rewrite unescape_command by by apply command_bytes.
  - rewrite forall_bytes_cat, command_ascii by by apply command_bytes. simpl. by apply tail_bytes.
Qed.

Definition option_word (entry : ManagedAuthorizedKey) : string := option_prefix +:+ command_option +:+ mk_GatewayPath entry.

Definition marker_word (entry : ManagedAuthorizedKey) : string := authorizedKeyMarkerPrefix +:+ mk_PeerID entry +:+ ":" +:+ mk_KeyID entry.

Definition line_words (entry : ManagedAuthorizedKey) : list string :=
  [option_word entry; "ssh-gateway"; "--authorized-peer"; mk_PeerID entry; "--authorized-key-id"; mk_KeyID entry +:+ String double_quote "";
   managedKeyType; mk_PublicKey entry; marker_word entry].

Lemma line_join entry : entry_ok entry → managed_Line entry = GoStrings.Join " " (line_words entry).
Proof.
  intros He. rewrite line_parts by done. unfold ForcedCommand, line_tail, line_words, option_word, marker_word. cbn [GoStrings.Join].
  by rewrite !sapp_assoc.
Qed.

Lemma line_words_plain entry : entry_ok entry → Forall (λ w, plain_word w = true ∧ w ≠ "") (line_words entry).
Proof.
  intros []. unfold line_words, option_word, marker_word. repeat constructor; try done.
  - rewrite !plain_word_app, (path_plain (mk_GatewayPath entry)) by done. done.
  - by apply host_id_plain.
  - rewrite plain_word_app, (key_id_plain (mk_KeyID entry)) by done. done.
  - intros Hn. apply (f_equal len) in Hn. rewrite len_app in Hn. simpl in Hn. lia.
  - rewrite !plain_word_app, (host_id_plain (mk_PeerID entry)), (key_id_plain (mk_KeyID entry)) by done. done.
Qed.

Lemma line_fields entry : entry_ok entry → Fields (managed_Line entry) = line_words entry.
Proof. intros He. rewrite line_join by done. by apply Fields_Join, line_words_plain. Qed.

Lemma prefix_byte c s p : HasPrefix s p = true → has_byte c p = true → has_byte c s = true.
Proof. intros [q ->]%sprefix_spec Hp. by rewrite has_byte_app, Hp. Qed.

Lemma no_marker s : has_byte ":" s = false → ¬ Is_true (HasPrefix s authorizedKeyMarkerPrefix).
Proof. intros Hs Hp%Is_true_true. apply (prefix_byte ":") in Hp; [congruence|done]. Qed.

Lemma marker_parse peer key :
  ValidateHostID peer = Ok () → authorizedKeyIDPattern key = true →
  parseManagedAuthorizedKeyMarker (authorizedKeyMarkerPrefix +:+ peer +:+ ":" +:+ key) = Ok (MkManagedMeta peer key).
Proof.
  intros Hp Hk. unfold parseManagedAuthorizedKeyMarker. rewrite TrimPrefix_app.
  assert (Hc : Cut ":" (peer +:+ ":" +:+ key) = Some (peer, key)).
  { apply Cut_spec. split; [done|]. pose proof Hp as (_ & _ & Hb)%ValidateHostID_Ok. by eapply has_byte_forall. }
  rewrite Hc, Hp, Hk. done.
Qed.

Lemma line_metadata entry :
  entry_ok entry → ParseManagedAuthorizedKeyMetadata (managed_Line entry) = Ok (Some (MkManagedMeta (mk_PeerID entry) (mk_KeyID entry))).
Proof.
  intros He. pose proof He as []. unfold ParseManagedAuthorizedKeyMetadata. rewrite line_fields by done.
  assert (Hfind : list_find (λ field, Is_true (HasPrefix field authorizedKeyMarkerPrefix)) (line_words entry) = Some (8, marker_word entry)).
  { apply list_find_Some. split; [done|]. split; [unfold marker_word; rewrite HasPrefix_app; exact I|].
    intros j y Hj Hlt. apply no_marker. unfold line_words in Hj.
    destruct j as [|[|[|[|[|[|[|[|j]]]]]]]]; [..|lia]; injection Hj as <-; unfold option_word; rewrite ?has_byte_app;
      rewrite ?(has_byte_forall ":" path_byte (mk_GatewayPath entry)), ?(has_byte_forall ":" host_id_byte (mk_PeerID entry)),
        ?(has_byte_forall ":" key_id_byte (mk_KeyID entry)) by done; try done.
    by apply (has_byte_forall ":" b64_byte). }
  rewrite Hfind. unfold marker_word at 1. rewrite marker_parse by done. cbn [mbind result_bind]. unfold validateManagedAuthorizedKeyLine.
  change (line_words entry !! (8 - 2)) with (Some managedKeyType). change (line_words entry !! (8 - 1)) with (Some (mk_PublicKey entry)).
  rewrite bool_decide_eq_true_2 by done. cbn [negb orb Nat.ltb Nat.leb default]. unfold id at 1.
  rewrite eo_public0, bool_decide_eq_true_2, parse_command_line by done. cbn [negb mm_PeerID mm_KeyID].
  change (ForcedCommand entry) with (mk_GatewayPath entry +:+ (" ssh-gateway --authorized-peer " +:+ mk_PeerID entry +:+ " --authorized-key-id " +:+ mk_KeyID entry)).
  rewrite TrimSuffix_app, eo_gateway0. rewrite (proj2 (HasSuffix_spec _ _)) by eauto. done.
Qed.

Lemma line_clean entry : entry_ok entry → has_byte newline (managed_Line entry) = false.
Proof.
  intros He. rewrite line_parts by done. rewrite !has_byte_app. rewrite (has_byte_forall newline command_byte (ForcedCommand entry)) by (by apply command_bytes || done).
  rewrite !has_byte_cons. unfold line_tail. rewrite !has_byte_app. pose proof He as [].
  rewrite (has_byte_forall newline visible (mk_PublicKey entry)), (has_byte_forall newline host_id_byte (mk_PeerID entry)),
    (has_byte_forall newline key_id_byte (mk_KeyID entry)) by done. done.
Qed.

Lemma line_trimmed entry : entry_ok entry → TrimSpace (managed_Line entry) = managed_Line entry.
Proof.
  intros He. pose proof He as []. destruct (string_last (mk_KeyID entry)) as [Hn|(t & b & Hb)]; [by rewrite Hn in eo_key0|].
  assert (Hs : ∃ s, managed_Line entry = String "n" s) by (rewrite line_parts by done; eexists; reflexivity).
  assert (Ht : ∃ t', managed_Line entry = t' +:+ String b "").
  { rewrite line_parts by done. unfold line_tail. rewrite Hb. change (String double_quote (String " " ?x)) with (String double_quote " " +:+ x).
    rewrite <- !sapp_assoc. eexists. reflexivity. }
  destruct Hs as [s Hs], Ht as [t' Ht]. rewrite Hs. apply (TrimSpace_visible "n" s t' b); [congruence|done|].
  apply key_id_plain in eo_key_bytes0. rewrite Hb in eo_key_bytes0. unfold plain_word in eo_key_bytes0. rewrite forall_bytes_cat in eo_key_bytes0.
  simpl in eo_key_bytes0. by bool_prop.
Qed.

(** ** Lemmas: the key of the line *)

Lemma field_scan_plain w s :
  forall_bytes (λ a, visible a && negb (bool_decide (a = double_quote))) w = true →
  field_scan false false (w +:+ s) = (λ '(f, r), (w +:+ f, r)) <$> field_scan false false s.
Proof.
  induction w as [|a w IH]; [intros _; change ("" +:+ s) with s; by destruct (field_scan false false s) as [[]|]|].
  intros [[Ha Hq]%andb_true_iff Hw]%andb_true_iff. bool_prop. change (String a w +:+ s) with (String a (w +:+ s)). cbn [field_scan andb negb].
  rewrite bool_decide_eq_false_2 by done. unfold isAuthorizedKeySpace. rewrite bool_decide_eq_false_2.
  - rewrite IH by done. by destruct (field_scan false false s) as [[]|].
  - intros Hin. repeat (apply elem_of_cons in Hin as [->|Hin]; [by vm_compute in Ha|]). by apply elem_of_nil in Hin.
Qed.

Lemma field_scan_quoted w s :
  forall_bytes command_byte w = true → field_scan true false (w +:+ s) = (λ '(f, r), (w +:+ f, r)) <$> field_scan true false s.
Proof.
  induction w as [|a w IH]; [intros _; change ("" +:+ s) with s; by destruct (field_scan true false s) as [[]|]|].
  intros [Ha Hw]%andb_true_iff. change (String a w +:+ s) with (String a (w +:+ s)). cbn [field_scan andb negb].
  rewrite !bool_decide_eq_false_2; [| |]; [|intros ->; by vm_compute in Ha|intros ->; by vm_compute in Ha].
  rewrite IH by done. by destruct (field_scan true false s) as [[]|].
Qed.

Lemma field_scan_word w s :
  forall_bytes (λ a, visible a && negb (bool_decide (a = double_quote))) w = true →
  field_scan false false (w +:+ String " " s) = Some (w, trim_left isAuthorizedKeySpace s).
Proof.
  intros Hw.  rewrite field_scan_plain by done. cbn [field_scan andb negb]. change (isAuthorizedKeySpace " ") with true.
  rewrite bool_decide_eq_false_2 by done. cbn [fmap option_fmap option_map]. by rewrite sapp_nil_r.
Qed.

Lemma trim_left_visible a s : visible a = true → trim_left isAuthorizedKeySpace (String a s) = String a s.
Proof.
  intros Ha. cbn [trim_left]. unfold isAuthorizedKeySpace. rewrite bool_decide_eq_false_2; [done|].
  intros Hin. repeat (apply elem_of_cons in Hin as [->|Hin]; [by vm_compute in Ha|]). by apply elem_of_nil in Hin.
Qed.

Lemma read_field_word a w s :
  forall_bytes (λ a, visible a && negb (bool_decide (a = double_quote))) (String a w) = true →
  readAuthorizedKeyField (String a w +:+ String " " s) = Some (String a w, trim_left isAuthorizedKeySpace s).
Proof.
  intros Hw. unfold readAuthorizedKeyField. change (String a w +:+ ?x) with (String a (w +:+ x)).
  rewrite trim_left_visible by (by apply andb_true_iff in Hw as [[? _]%andb_true_iff _]).
  rewrite bool_decide_eq_false_2 by done. change (String a (w +:+ String " " s)) with (String a w +:+ String " " s). by apply field_scan_word.
Qed.

Lemma unquoted_bytes f s :
  (∀ a, f a = true → visible a && negb (bool_decide (a = double_quote)) = true) →
  forall_bytes f s = true → forall_bytes (λ a, visible a && negb (bool_decide (a = double_quote))) s = true.
Proof. intros Hf. by apply forall_bytes_impl. Qed.

Lemma options_field entry :
  entry_ok entry →
  readAuthorizedKeyField (managed_Line entry) =
    Some (option_prefix +:+ command_option +:+ ForcedCommand entry +:+ String double_quote "", line_tail entry).
Proof.
  intros He. rewrite line_parts by done. unfold readAuthorizedKeyField.
  assert (Htrim : ∀ s, trim_left isAuthorizedKeySpace (option_prefix +:+ s) = option_prefix +:+ s) by (intros s; reflexivity).
  rewrite Htrim. rewrite bool_decide_eq_false_2 by done.
  change (command_option +:+ ?x) with ("command=" +:+ String double_quote x). rewrite !field_scan_plain by reflexivity.
  cbn [field_scan andb negb]. rewrite bool_decide_eq_true_2 by done. rewrite field_scan_quoted by by apply command_bytes.
  cbn [field_scan andb negb]. rewrite (bool_decide_eq_false_2 (double_quote = slash_back)), (bool_decide_eq_true_2 (double_quote = double_quote)) by done.
  cbn [field_scan andb negb]. rewrite bool_decide_eq_false_2 by done.
  change (isAuthorizedKeySpace " ") with true. cbn [fmap option_fmap option_map].
  assert (Htail : trim_left isAuthorizedKeySpace (String " " (line_tail entry)) = line_tail entry) by reflexivity. by rewrite Htail.
Qed.

Lemma line_uses_key entry : entry_ok entry → authorizedKeyLineUsesPublicKey (managed_Line entry) managedKeyType (mk_PublicKey entry) = true.
Proof.
  intros He. unfold authorizedKeyLineUsesPublicKey. rewrite line_trimmed by done.
  assert (Hhead : ∃ s, managed_Line entry = String "n" s) by (rewrite line_parts by done; eexists; reflexivity). destruct Hhead as [s Hs].
  rewrite bool_decide_eq_false_2 by (by rewrite Hs). rewrite Hs at 1. cbn [orb HasPrefix String.prefix]. rewrite options_field by done.
  rewrite bool_decide_eq_false_2 by (intros Heq; apply (f_equal len) in Heq; rewrite len_app in Heq; vm_compute in Heq; lia).
  unfold line_tail. change (managedKeyType +:+ " " +:+ ?x) with (String "s" "sh-ed25519" +:+ String " " x). rewrite read_field_word by reflexivity.
  rewrite bool_decide_eq_true_2 by done. cbn [negb].
  pose proof He as []. destruct (mk_PublicKey entry) as [|a pk] eqn:Hpk; [done|].
  change (String a pk +:+ " " +:+ ?x) with (String a pk +:+ String " " x). rewrite <- Hpk.
  assert (Ha : visible a = true) by (by apply andb_true_iff in eo_public_plain0 as [? _]).
  rewrite Hpk. change (String a pk +:+ ?x) with (String a (pk +:+ x)) at 1. rewrite trim_left_visible by done.
  change (String a (pk +:+ ?x)) with (String a pk +:+ x).
  rewrite read_field_word by (revert eo_public_bytes0; apply unquoted_bytes; all_bytes). by apply bool_decide_eq_true_2.
Qed.

(** ** Lemmas: the lines of a file *)

(** A line sshd passes over: blank or a comment. *)
Definition header_line (line : string) : bool := bool_decide (TrimSpace line = "") || HasPrefix (TrimSpace line) "#".

Definition lines_of (data : string) : list string := (splitAuthorizedKeyLines data).1.

(** The peer a managed line lets in. *)
Definition owner (line : string) : option string :=
  match ParseManagedAuthorizedKeyMetadata line with Ok (Some metadata) => Some (mm_PeerID metadata) | _ => None end.

(** A line the edit keeps: of another peer, or of nobody's and with another key. *)
Definition stays (entry : ManagedAuthorizedKey) (line : string) : bool :=
  match ParseManagedAuthorizedKeyMetadata line with
  | Ok None => negb (authorizedKeyLineUsesPublicKey line managedKeyType (mk_PublicKey entry))
  | Ok (Some metadata) => negb (bool_decide (mm_PeerID metadata = mk_PeerID entry))
  | Err _ => false
  end.

(** A line the edit refuses: a damaged managed line, or one that lets another peer in
    with the id or the key of the entry. *)
Definition conflicts (entry : ManagedAuthorizedKey) (line : string) : bool :=
  match ParseManagedAuthorizedKeyMetadata line with
  | Ok None => false
  | Ok (Some metadata) =>
      negb (bool_decide (mm_PeerID metadata = mk_PeerID entry)) &&
      (bool_decide (mm_KeyID metadata = mk_KeyID entry) || authorizedKeyLineUsesPublicKey line managedKeyType (mk_PublicKey entry))
  | Err _ => true
  end.

(** A line that has nothing to do with the entry. *)
Definition stranger (entry : ManagedAuthorizedKey) (line : string) : Prop := stays entry line = true ∧ conflicts entry line = false.

Lemma metadata_error line e : ParseManagedAuthorizedKeyMetadata line = Err e → e = ErrAuthorizedKeyConflict.
Proof.
  unfold ParseManagedAuthorizedKeyMetadata, parseManagedAuthorizedKeyMarker, validateManagedAuthorizedKeyLine.
  destruct (list_find _ _) as [[i m]|]; [|done]. intros [He|([p k] & _ & [He|(? & _ & [=])]%bind_Err)]%bind_Err; repeat case_match; congruence.
Qed.

Lemma kept_lines_spec entry lines :
  match kept_lines entry lines with
  | Ok out => out = filter (λ l, stays entry l = true) lines ∧ Forall (λ l, conflicts entry l = false) lines
  | Err e => e = ErrAuthorizedKeyConflict ∧ Exists (λ l, conflicts entry l = true) lines
  end.
Proof.
  induction lines as [|line lines IH]; [done|]. cbn [kept_lines]. rewrite filter_cons.
  destruct (ParseManagedAuthorizedKeyMetadata line) as [[m|]|e] eqn:Hp; cbn [mbind result_bind].
  - destruct (decide (mm_PeerID m = mk_PeerID entry)) as [Hpe|Hpe].
    { rewrite bool_decide_eq_true_2 by done. assert (Hs : stays entry line = false) by (unfold stays; rewrite Hp, bool_decide_eq_true_2 by done; done).
      assert (Hc : conflicts entry line = false) by (unfold conflicts; rewrite Hp, bool_decide_eq_true_2 by done; done).
      rewrite decide_False by congruence. destruct (kept_lines entry lines) as [out|e].
      + destruct IH. split; [done|]. by constructor.
      + destruct IH. split; [done|]. by right. }
    rewrite bool_decide_eq_false_2 by done. assert (Hs : stays entry line = true) by (unfold stays; rewrite Hp, bool_decide_eq_false_2 by done; done).
    assert (Hc : conflicts entry line = bool_decide (mm_KeyID m = mk_KeyID entry) || authorizedKeyLineUsesPublicKey line managedKeyType (mk_PublicKey entry)).
    { unfold conflicts. rewrite Hp, (bool_decide_eq_false_2 (mm_PeerID m = _)) by done. done. }
    rewrite decide_True by done. destruct (bool_decide (mm_KeyID m = mk_KeyID entry)); [split; [done|]; by left|].
    destruct (authorizedKeyLineUsesPublicKey _ _ _); [split; [done|]; by left|].
    destruct (kept_lines entry lines) as [out|e]; cbn [mbind result_bind].
    + destruct IH as [-> ?]. split; [done|]. by constructor.
    + destruct IH. split; [done|]. by right.
  - assert (Hc : conflicts entry line = false) by (unfold conflicts; by rewrite Hp).
    assert (Hs : stays entry line = negb (authorizedKeyLineUsesPublicKey line managedKeyType (mk_PublicKey entry))) by (unfold stays; by rewrite Hp).
    destruct (authorizedKeyLineUsesPublicKey _ _ _); cbn [negb] in Hs.
    + rewrite decide_False by congruence. destruct (kept_lines entry lines) as [out|e]; destruct IH; (split; [done|]); [by constructor|by right].
    + rewrite decide_True by done. destruct (kept_lines entry lines) as [out|e]; cbn [mbind result_bind].
      * destruct IH as [-> ?]. split; [done|]. by constructor.
      * destruct IH. split; [done|]. by right.
  - split; [by eapply metadata_error|]. left. unfold conflicts. by rewrite Hp.
Qed.

Lemma header_count_spec lines :
  let n := authorizedKeysHeaderLineCount lines in
  n ≤ length lines ∧ Forall (λ l, header_line l = true) (take n lines) ∧
  match drop n lines with [] => True | l :: _ => header_line l = false end.
Proof.
  induction lines as [|line lines IH]; [done|]. cbn [authorizedKeysHeaderLineCount].
  assert (Hh : header_line line = negb (negb (bool_decide (TrimSpace line = "")) && negb (HasPrefix (TrimSpace line) "#"))).
  { unfold header_line. by rewrite negb_andb, !negb_involutive. }
  cbv zeta in *. destruct (_ && _); cbn [negb] in Hh.
  - cbn [take drop length]. split_and!; [lia|constructor|done].
  - destruct IH as (? & ? & ?). cbn [take drop length]. split_and!; [lia|by constructor|done].
Qed.

Lemma header_count_app hdr line rest :
  Forall (λ l, header_line l = true) hdr → header_line line = false → authorizedKeysHeaderLineCount (hdr ++ line :: rest) = length hdr.
Proof.
  intros Hh Hl. assert (Hneg : ∀ l, negb (bool_decide (TrimSpace l = "")) && negb (HasPrefix (TrimSpace l) "#") = negb (header_line l)).
  { intros l. unfold header_line. by rewrite negb_orb. }
  induction Hh as [|l hdr Hx Hh IH]; cbn [app authorizedKeysHeaderLineCount length]; rewrite Hneg; [by rewrite Hl|]. rewrite Hx. cbn [negb]. by rewrite IH.
Qed.

Lemma split_join data : data ≠ "" → data ≠ String newline "" → let '(lines, t) := splitAuthorizedKeyLines data in joinAuthorizedKeyLines lines t = data ∧ lines ≠ [].
Proof.
  intros Hne Hnl. unfold splitAuthorizedKeyLines. rewrite bool_decide_eq_false_2 by done.
  assert (Htrim : TrimSuffix data (String newline "") ≠ "").
  { destruct (HasSuffix data (String newline "")) eqn:Hs; [|by rewrite TrimSuffix_none]. apply HasSuffix_spec in Hs as [d ->]. rewrite TrimSuffix_app.
    by intros ->. }
  rewrite bool_decide_eq_false_2 by done. split; [|apply Split_nonnil]. unfold joinAuthorizedKeyLines.
  rewrite bool_decide_eq_false_2 by apply Split_nonnil. rewrite Join_Split. destruct (HasSuffix data (String newline "")) eqn:Hs.
  - apply HasSuffix_spec in Hs as [d ->]. by rewrite TrimSuffix_app.
  - by rewrite TrimSuffix_none.
Qed.

Lemma lines_clean data : Forall (λ l, has_byte newline l = false) (lines_of data).
Proof.
  unfold lines_of, splitAuthorizedKeyLines. destruct (bool_decide _); [constructor|]. destruct (bool_decide _); [constructor|]. apply Split_clean.
Qed.

(** Lines joined and split again are the lines, but for a blank last line without a
    line break of its own. *)
Lemma split_joined L t :
  Forall (λ l, has_byte newline l = false) L → Exists (λ l, l ≠ "") L →
  splitAuthorizedKeyLines (joinAuthorizedKeyLines L t) = (L, t) ∨
  ∃ L', t = false ∧ L = L' ++ [""] ∧ splitAuthorizedKeyLines (joinAuthorizedKeyLines L t) = (L', true).
Proof.
  assert (Htrue : ∀ L, Forall (λ l, has_byte newline l = false) L → Exists (λ l, l ≠ "") L →
    splitAuthorizedKeyLines (GoStrings.Join (String newline "") L +:+ String newline "") = (L, true)).
  { clear L. intros L HL Hex. assert (Hne : L ≠ []) by (by intros ->; inversion Hex).
    assert (HJ : GoStrings.Join (String newline "") L ≠ "").
    { intros HJ. apply (f_equal (Split newline)) in HJ. rewrite Split_Join in HJ by done. subst L.
      inversion Hex as [? ? Hx|? ? Hx]; [done|inversion Hx]. }
    unfold splitAuthorizedKeyLines. rewrite bool_decide_eq_false_2 by (intros He; apply (f_equal len) in He; rewrite len_app in He; simpl in He; lia).
    rewrite TrimSuffix_app, bool_decide_eq_false_2, Split_Join by done. f_equal. apply HasSuffix_spec. eauto. }
  intros HL Hex. assert (Hne : L ≠ []) by (by intros ->; inversion Hex). unfold joinAuthorizedKeyLines. rewrite bool_decide_eq_false_2 by done.
  destruct t; [left; by apply Htrue|]. destruct (exists_last Hne) as (L' & s & ->). destruct (decide (s = "")) as [->|Hs].
  - right. exists L'. split; [done|]. split; [done|]. apply Forall_app in HL as [HL _]. apply Exists_app in Hex as [Hex|Hex].
    2:{ inversion Hex as [? ? Hx|? ? Hx]; [done|inversion Hx]. }
    rewrite Join_snoc by (by intros ->; inversion Hex). rewrite sapp_nil_r. by apply Htrue.
  - left. assert (Hend : ∃ x, GoStrings.Join (String newline "") (L' ++ [s]) = x +:+ s).
    { destruct (decide (L' = [])) as [->|HL']; [by exists ""|]. rewrite Join_snoc by done. rewrite <- sapp_assoc. eauto. }
    assert (Hsuf : HasSuffix (GoStrings.Join (String newline "") (L' ++ [s])) (String newline "") = false).
    { destruct Hend as [x Hx]. apply not_true_iff_false. intros [q Hq]%HasSuffix_spec. rewrite Hx in Hq.
      destruct (string_last s) as [->|(u & b & ->)]; [done|]. rewrite <- sapp_assoc in Hq.
      apply (f_equal String.rev) in Hq. rewrite !rev_last in Hq. injection Hq as -> _.
      apply Forall_app in HL as [_ HL]. apply Forall_cons in HL as [HL _]. by rewrite has_byte_app, has_byte_cons, bool_decide_eq_true_2, orb_true_r in HL by done. }
    unfold splitAuthorizedKeyLines. rewrite Hsuf, TrimSuffix_none by done.
    assert (Hj : GoStrings.Join (String newline "") (L' ++ [s]) ≠ "").
    { destruct Hend as [x ->]. intros He. apply (f_equal len) in He. rewrite len_app in He. destruct s; [done|]. simpl in He. lia. }
    rewrite !bool_decide_eq_false_2 by done. by rewrite Split_Join.
Qed.

(** ** Lemmas: the edit *)

Lemma line_header entry : entry_ok entry → header_line (managed_Line entry) = false.
Proof.
  intros He. unfold header_line. rewrite line_trimmed by done.
  assert (Hs : ∃ s, managed_Line entry = String "n" s) by (rewrite line_parts by done; eexists; reflexivity). destruct Hs as [s ->]. done.
Qed.

Lemma line_owner entry : entry_ok entry → owner (managed_Line entry) = Some (mk_PeerID entry).
Proof. intros He. unfold owner. by rewrite line_metadata. Qed.

Lemma line_stays entry : entry_ok entry → stays entry (managed_Line entry) = false ∧ conflicts entry (managed_Line entry) = false.
Proof.
  intros He. unfold stays, conflicts. rewrite line_metadata by done. cbn [mm_PeerID]. by rewrite bool_decide_eq_true_2.
Qed.

Lemma stays_owner entry line : stays entry line = true → owner line ≠ Some (mk_PeerID entry).
Proof.
  unfold stays, owner. destruct (ParseManagedAuthorizedKeyMetadata line) as [[m|]|]; [|done|done]. case_bool_decide; [done|]. congruence.
Qed.

Lemma blank_stranger entry : stranger entry "".
Proof. split; reflexivity. Qed.

Lemma header_stays entry line :
  header_line line = true → conflicts entry line = false → owner line ≠ Some (mk_PeerID entry) → stays entry line = true.
Proof.
  intros Hh Hc Ho. unfold stays, conflicts, owner in *. destruct (ParseManagedAuthorizedKeyMetadata line) as [[m|]|]; [|..|done].
  - rewrite bool_decide_eq_false_2 by congruence. done.
  - unfold authorizedKeyLineUsesPublicKey. unfold header_line in Hh. by rewrite Hh.
Qed.

Definition settled (entry : ManagedAuthorizedKey) (lines : list string) : Prop :=
  ∃ before after, lines = before ++ managed_Line entry :: after ∧ Forall (λ l, header_line l = true) before ∧
    Forall (stranger entry) (before ++ after).

Lemma kept_strangers entry lines : Forall (stranger entry) lines → kept_lines entry lines = Ok lines.
Proof.
  intros Hl. pose proof (kept_lines_spec entry lines) as Hk. destruct (kept_lines entry lines) as [out|e].
  - destruct Hk as [-> _]. f_equal. apply filter_all. eapply Forall_impl; [exact Hl|]. by intros ? [].
  - destruct Hk as [_ Hex]. apply Exists_exists in Hex as (l & Hin & Hc). rewrite Forall_forall in Hl. apply Hl in Hin as [_ ?]. congruence.
Qed.

Lemma kept_settled entry before after :
  entry_ok entry → Forall (stranger entry) (before ++ after) → kept_lines entry (before ++ managed_Line entry :: after) = Ok (before ++ after).
Proof.
  intros He Hl. pose proof (kept_lines_spec entry (before ++ managed_Line entry :: after)) as Hk. destruct (line_stays entry He) as [Hs Hc].
  apply Forall_app in Hl as [Hb Ha]. destruct (kept_lines _ _) as [out|e].
  - destruct Hk as [-> _]. rewrite filter_app, filter_cons_False by congruence. f_equal. f_equal; apply filter_all.
    + eapply Forall_impl; [exact Hb|]. by intros ? [].
    + eapply Forall_impl; [exact Ha|]. by intros ? [].
  - destruct Hk as [_ Hex]. apply Exists_exists in Hex as (l & Hin & Hcl). rewrite Forall_forall in Hb, Ha.
    apply elem_of_app in Hin as [Hin|Hin]; [by apply Hb in Hin as [_ ?]; congruence|]. apply elem_of_cons in Hin as [->|Hin]; [congruence|].
    apply Ha in Hin as [_ ?]. congruence.
Qed.

(** What the edit makes of lines. *)
Definition edited (entry : ManagedAuthorizedKey) (lines out : list string) : list string :=
  insertManagedAuthorizedKeyLine out (authorizedKeysHeaderLineCount lines) (managed_Line entry).

Lemma edited_settled entry before after :
  entry_ok entry → Forall (λ l, header_line l = true) before →
  edited entry (before ++ managed_Line entry :: after) (before ++ after) = before ++ managed_Line entry :: after.
Proof.
  intros He Hb. unfold edited, insertManagedAuthorizedKeyLine. rewrite header_count_app by (by apply line_header || done).
  by rewrite take_app_length, drop_app_length.
Qed.

Lemma edited_fixed entry lines out :
  entry_ok entry → kept_lines entry lines = Ok out → edited entry lines out = lines → settled entry lines.
Proof.
  intros He Hk Hfix. pose proof (kept_lines_spec entry lines) as Hspec. rewrite Hk in Hspec. destruct Hspec as [Hout Hconf].
  destruct (header_count_spec lines) as (Hn & Hhdr & Hnext). set (n := authorizedKeysHeaderLineCount lines) in *.
  unfold edited, insertManagedAuthorizedKeyLine in Hfix. fold n in Hfix.
  assert (Hle : n ≤ length out).
  { destruct (decide (n ≤ length out)) as [|Hgt]; [done|]. assert (Hlen : length lines = S (length out)).
    { rewrite <- Hfix at 1. rewrite length_app, length_take, length_cons, length_drop. lia. }
    rewrite take_ge in Hhdr by lia. rewrite <- Hfix in Hhdr. apply Forall_app in Hhdr as [_ Hhdr]. apply Forall_cons in Hhdr as [Hh _].
    by rewrite line_header in Hh. }
  exists (take n out), (drop n out). rewrite take_drop. split; [done|].
  assert (Hhdr' : Forall (λ l, header_line l = true) (take n out)).
  { rewrite <- Hfix in Hhdr at 1. rewrite take_app_le in Hhdr by (rewrite length_take; lia). rewrite take_take in Hhdr. by rewrite Nat.min_id in Hhdr. }
  split; [done|]. rewrite Forall_forall. intros l Hl. split.
  - rewrite Hout in Hl. by apply list_elem_of_filter in Hl as [? _].
  - rewrite Forall_forall in Hconf. apply Hconf. rewrite Hout in Hl. by apply list_elem_of_filter in Hl as [_ ?].
Qed.

Lemma edited_nonblank entry lines out : entry_ok entry → Exists (λ l, l ≠ "") (edited entry lines out).
Proof.
  intros He. apply Exists_exists. exists (managed_Line entry). split.
  - unfold edited, insertManagedAuthorizedKeyLine. apply elem_of_app. right. by left.
  - intros Heq. pose proof (line_header entry He) as Hh. by rewrite Heq in Hh.
Qed.

Lemma edited_clean entry lines out :
  entry_ok entry → Forall (λ l, has_byte newline l = false) out → Forall (λ l, has_byte newline l = false) (edited entry lines out).
Proof.
  intros He Hout. unfold edited, insertManagedAuthorizedKeyLine. apply Forall_app. split; [by apply Forall_take|].
  constructor; [by apply line_clean|by apply Forall_drop].
Qed.

(** The edit leaves a file alone exactly when its lines are settled. *)
Lemma upsert_fixed entry data :
  entry_ok entry → UpsertManagedAuthorizedKeyLine data entry = Ok data ↔ settled entry (lines_of data).
Proof.
  intros He. unfold UpsertManagedAuthorizedKeyLine, lines_of. rewrite (entry_ok_New _ He). cbn [mbind result_bind].
  pose proof (lines_clean data) as Hclean. unfold lines_of in Hclean.
  destruct (splitAuthorizedKeyLines data) as [lines t] eqn:Hsp. cbn [fst] in *. split.
  - intros (out & Hk & [= Hj])%bind_Ok. fold (edited entry lines out) in Hj.
    assert (Hout : Forall (λ l, has_byte newline l = false) out).
    { pose proof (kept_lines_spec entry lines) as Hspec. rewrite Hk in Hspec. destruct Hspec as [-> _].
      rewrite Forall_forall in Hclean |- *. intros l Hl. apply list_elem_of_filter in Hl as [_ Hl]. auto. }
    eapply edited_fixed; [done|done|].
    destruct (split_joined (edited entry lines out) t) as [Heq|(L' & -> & HL & Heq)]; [by apply edited_clean|by apply edited_nonblank|..];
      rewrite Hj, Hsp in Heq; congruence.
  - intros (before & after & -> & Hb & Hs). rewrite kept_settled by done. cbn [mbind result_bind]. f_equal.
    fold (edited entry (before ++ managed_Line entry :: after) (before ++ after)). rewrite edited_settled by done.
    assert (Hd : data ≠ "" ∧ data ≠ String newline "") by (split; intros ->; vm_compute in Hsp; by destruct before).
    destruct Hd as [Hd1 Hd2]. pose proof (split_join data Hd1 Hd2) as Hj. rewrite Hsp in Hj. by destruct Hj.
Qed.

Lemma verify_Ok entry data :
  entry_ok entry → VerifyManagedAuthorizedKeyFile (Some data) entry = Ok () ↔ settled entry (lines_of data).
Proof.
  intros He. rewrite <- upsert_fixed by done. unfold VerifyManagedAuthorizedKeyFile. rewrite (entry_ok_New _ He). cbn [mbind result_bind]. split.
  - intros (updated & Hu & Hc)%bind_Ok. case_bool_decide; [by subst updated|done].
  - intros ->. cbn [mbind result_bind]. by rewrite bool_decide_eq_true_2.
Qed.

Lemma settled_joined entry L t :
  entry_ok entry → Forall (λ l, has_byte newline l = false) L → settled entry L → settled entry (lines_of (joinAuthorizedKeyLines L t)).
Proof.
  intros He HL Hset. assert (Hex : Exists (λ l, l ≠ "") L).
  { destruct Hset as (b & a & -> & _). apply Exists_app. right. left. intros Heq. pose proof (line_header entry He) as Hh. by rewrite Heq in Hh. }
  unfold lines_of. destruct (split_joined L t HL Hex) as [->|(L' & -> & -> & ->)]; [done|]. cbn [fst].
  destruct Hset as (b & a & Heq & Hb & Hs). destruct (decide (a = [])) as [->|Ha].
  { apply app_inj_tail in Heq as [_ Heq]. pose proof (line_header entry He) as Hh. by rewrite <- Heq in Hh. }
  destruct (exists_last Ha) as (a' & x & ->). rewrite app_comm_cons, app_assoc in Heq. apply app_inj_tail in Heq as [-> _].
  exists b, a'. split; [done|]. split; [done|]. rewrite app_assoc in Hs. by apply Forall_app in Hs as [? _].
Qed.

(** Where no comment before the first key is a managed line of the peer, the header
    survives the edit and the lines come out settled. *)
Lemma edited_is_settled entry lines out :
  entry_ok entry → kept_lines entry lines = Ok out →
  Forall (λ l, header_line l = true → owner l ≠ Some (mk_PeerID entry)) lines → settled entry (edited entry lines out).
Proof.
  intros He Hk Hno. pose proof (kept_lines_spec entry lines) as Hspec. rewrite Hk in Hspec. destruct Hspec as [Hout Hconf].
  destruct (header_count_spec lines) as (Hn & Hhdr & _). unfold edited, insertManagedAuthorizedKeyLine.
  set (n := authorizedKeysHeaderLineCount lines) in *.
  assert (Hhead : filter (λ l, stays entry l = true) (take n lines) = take n lines).
  { apply filter_all. apply Forall_forall. intros l Hl. rewrite Forall_forall in Hhdr, Hno, Hconf.
    assert (Hin : l ∈ lines) by (rewrite <- (take_drop n lines); apply elem_of_app; by left). apply header_stays; auto. }
  assert (Hsplit : out = take n lines ++ filter (λ l, stays entry l = true) (drop n lines)).
  { rewrite Hout. rewrite <- (take_drop n lines) at 1. rewrite filter_app. by rewrite Hhead. }
  assert (Htake : take n out = take n lines) by (rewrite Hsplit; rewrite take_app_le by (rewrite length_take; lia); by rewrite take_take, Nat.min_id).
  exists (take n out), (drop n out). split; [done|]. split; [by rewrite Htake|]. rewrite take_drop, Hout. apply Forall_forall.
  intros l [Hs Hl]%list_elem_of_filter. split; [done|]. rewrite Forall_forall in Hconf. auto.
Qed.

Lemma filter_nil_forall {A} (P : A → Prop) `{∀ x, Decision (P x)} (l : list A) : Forall (λ x, ¬ P x) l → filter P l = [].
Proof. induction 1 as [|x l Hx Hl IH]; [done|]. by rewrite filter_cons_False. Qed.

(** ** Properties *)

(** The managed line of a valid entry reads back as what it was made of: its peer
    and key id, the forced command between the quotes exactly, the key; it is one
    line, and no comment. *)
Theorem managed_line_roundtrip entry (Hentry : NewManagedAuthorizedKey entry = Ok entry) :
  ParseManagedAuthorizedKeyMetadata (managed_Line entry) = Ok (Some (MkManagedMeta (mk_PeerID entry) (mk_KeyID entry))) ∧
  parseAuthorizedKeyCommandOption (managed_Line entry) = Some (ForcedCommand entry) ∧
  readAuthorizedKeyField (managed_Line entry) = Some (option_prefix +:+ command_option +:+ ForcedCommand entry +:+ String double_quote "", line_tail entry) ∧
  authorizedKeyLineUsesPublicKey (managed_Line entry) managedKeyType (mk_PublicKey entry) = true ∧
  has_byte newline (managed_Line entry) = false ∧ header_line (managed_Line entry) = false.
Proof.
  apply New_entry_ok in Hentry as [_ He]. split_and!; auto using line_metadata, parse_command_line, options_field, line_uses_key, line_clean, line_header.
Qed.

(** A file is accepted for an entry exactly when its line is the first that counts,
    nothing but blanks and comments before it, and every other line is a stranger: no
    other line of the peer, no other line with its key or key id, no damaged managed
    line. *)
Theorem VerifyManagedAuthorizedKeyFile_spec entry data (Hentry : NewManagedAuthorizedKey entry = Ok entry) :
  VerifyManagedAuthorizedKeyFile (Some data) entry = Ok () ↔
  ∃ before after, lines_of data = before ++ managed_Line entry :: after ∧ Forall (λ l, header_line l = true) before ∧
    Forall (stranger entry) (before ++ after).
Proof. apply New_entry_ok in Hentry as [_ He]. by apply verify_Ok. Qed.

(** Editing the file for a valid entry: it is refused exactly when a line conflicts
    with the entry; it is left alone only when it is accepted; otherwise the new file
    holds one line of the peer, the entry's, and the lines that stay, in order, and it
    is accepted (so a second edit leaves it alone) unless a comment before the first
    key was a managed line of the peer. *)
Theorem UpsertManagedAuthorizedKeyFile_spec entry data (Hentry : NewManagedAuthorizedKey entry = Ok entry) :
  match UpsertManagedAuthorizedKeyFile data entry with
  | Ok None => VerifyManagedAuthorizedKeyFile (Some data) entry = Ok ()
  | Ok (Some data') =>
      Forall (λ l, conflicts entry l = false) (lines_of data) ∧
      (∃ before after t, data' = joinAuthorizedKeyLines (before ++ managed_Line entry :: after) t ∧
        before ++ after = filter (λ l, stays entry l = true) (lines_of data) ∧
        filter (λ l, owner l = Some (mk_PeerID entry)) (before ++ managed_Line entry :: after) = [managed_Line entry]) ∧
      (Forall (λ l, header_line l = true → owner l ≠ Some (mk_PeerID entry)) (lines_of data) →
        VerifyManagedAuthorizedKeyFile (Some data') entry = Ok () ∧ UpsertManagedAuthorizedKeyFile data' entry = Ok None)
  | Err e => e = ErrAuthorizedKeyConflict ∧ Exists (λ l, conflicts entry l = true) (lines_of data)
  end.
Proof.
  pose proof Hentry as [_ He]%New_entry_ok. unfold UpsertManagedAuthorizedKeyFile. rewrite Hentry. cbn [mbind result_bind].
  destruct (UpsertManagedAuthorizedKeyLine data entry) as [data'|e] eqn:Hu; cbn [mbind result_bind].
  - case_bool_decide as Heq; [subst data'; by apply verify_Ok, upsert_fixed|]. pose proof (lines_clean data) as Hclean.
    unfold UpsertManagedAuthorizedKeyLine in Hu. rewrite Hentry in Hu. cbn [mbind result_bind] in Hu.
    unfold lines_of in *. destruct (splitAuthorizedKeyLines data) as [lines t] eqn:Hsp. cbn [fst] in *.
    apply bind_Ok in Hu as (out & Hk & [= Hj]). pose proof (kept_lines_spec entry lines) as Hspec. rewrite Hk in Hspec. destruct Hspec as [Hout Hconf].
    split; [done|]. set (n := authorizedKeysHeaderLineCount lines) in *.
    assert (Hstays : Forall (λ l, stays entry l = true) out) by (rewrite Hout; apply Forall_forall; by intros l [? _]%list_elem_of_filter).
    split.
    + exists (take n out), (drop n out), t. rewrite take_drop. split; [done|]. split; [done|].
      rewrite filter_app, filter_cons_True by by apply line_owner. rewrite <- (take_drop n out) in Hstays. apply Forall_app in Hstays as [H1 H2].
      rewrite !filter_nil_forall; [done|..]; (eapply Forall_impl; [eassumption|]); intros l; apply stays_owner.
    + intros Hhdr. assert (Hset : settled entry (lines_of data')).
      { rewrite <- Hj. fold (edited entry lines out). apply settled_joined; [done|apply edited_clean; [done|]|].
        - rewrite Hout. apply Forall_forall. intros l [_ Hl]%list_elem_of_filter. rewrite Forall_forall in Hclean. auto.
        - by apply (edited_is_settled entry lines out). }
      split; [by apply verify_Ok|]. apply upsert_fixed in Hset as ->; [|done]. cbn [mbind result_bind]. by rewrite bool_decide_eq_true_2.
  - unfold UpsertManagedAuthorizedKeyLine in Hu. rewrite Hentry in Hu. cbn [mbind result_bind] in Hu. unfold lines_of.
    destruct (splitAuthorizedKeyLines data) as [lines t]. cbn [fst]. apply bind_Err in Hu as [Hk|(? & _ & [=])].
    pose proof (kept_lines_spec entry lines) as Hspec. by rewrite Hk in Hspec.
Qed.

(** A file with a comment and a key of the user's own, and what the edit makes of it. *)
Definition sample_file : string := "# mine" +:+ String newline "" +:+ "ssh-rsa AAAA me" +:+ String newline "".

Definition sample_edited : string :=
  "# mine" +:+ String newline "" +:+ managed_Line sample_entry +:+ String newline "" +:+ "ssh-rsa AAAA me" +:+ String newline "".

Lemma sample_valid : NewManagedAuthorizedKey sample_entry = Ok sample_entry.
Proof. vm_compute. reflexivity. Qed.

Lemma sample_upsert : UpsertManagedAuthorizedKeyFile sample_file sample_entry = Ok (Some sample_edited).
Proof. vm_compute. reflexivity. Qed.

Lemma sample_header : Forall (λ l, header_line l = true → owner l ≠ Some (mk_PeerID sample_entry)) (lines_of sample_file).
Proof.
  assert (Hl : lines_of sample_file = ["# mine"; "ssh-rsa AAAA me"]) by (vm_compute; reflexivity). rewrite Hl.
  repeat constructor; intros _.
  - assert (Ho : owner "# mine" = None) by (vm_compute; reflexivity). by rewrite Ho.
  - assert (Ho : owner "ssh-rsa AAAA me" = None) by (vm_compute; reflexivity). by rewrite Ho.
Qed.

Lemma managed_line_roundtrip_witness :
  NewManagedAuthorizedKey sample_entry = Ok sample_entry ∧
  ParseManagedAuthorizedKeyMetadata (managed_Line sample_entry) = Ok (Some (MkManagedMeta (mk_PeerID sample_entry) (mk_KeyID sample_entry))).
Proof. split; [exact sample_valid|]. exact (proj1 (managed_line_roundtrip sample_entry sample_valid)). Defined.

Lemma VerifyManagedAuthorizedKeyFile_spec_witness :
  NewManagedAuthorizedKey sample_entry = Ok sample_entry ∧
  (VerifyManagedAuthorizedKeyFile (Some sample_edited) sample_entry = Ok () ↔
    ∃ before after, lines_of sample_edited = before ++ managed_Line sample_entry :: after ∧ Forall (λ l, header_line l = true) before ∧
      Forall (stranger sample_entry) (before ++ after)).
Proof. split; [exact sample_valid|]. exact (VerifyManagedAuthorizedKeyFile_spec sample_entry sample_edited sample_valid). Defined.

Lemma UpsertManagedAuthorizedKeyFile_spec_witness :
  UpsertManagedAuthorizedKeyFile sample_file sample_entry = Ok (Some sample_edited) ∧
  VerifyManagedAuthorizedKeyFile (Some sample_edited) sample_entry = Ok ().
Proof.
  split; [exact sample_upsert|]. pose proof (UpsertManagedAuthorizedKeyFile_spec sample_entry sample_file sample_valid) as Hs.
  rewrite sample_upsert in Hs. destruct Hs as (_ & _ & Hs). exact (proj1 (Hs sample_header)).
Defined.

(** A comment before the first key that is a managed line of the peer counts for the
    place of the new line and is then removed, so the line lands behind the next key
    and the file just written is not accepted. *)
Theorem commented_line_not_idempotent :
  let data := "#" +:+ managed_Line sample_entry +:+ String newline "" +:+ "ssh-rsa AAAA me" +:+ String newline "" in
  let data' := "ssh-rsa AAAA me" +:+ String newline "" +:+ managed_Line sample_entry +:+ String newline "" in
  UpsertManagedAuthorizedKeyFile data sample_entry = Ok (Some data') ∧
  VerifyManagedAuthorizedKeyFile (Some data') sample_entry = Err ErrAuthorizedKeyNotFound.
Proof. split; vm_compute; reflexivity. Qed.
