(* ===== verification/SSHCommand.v ===== *)
(** * The ssh commands: sshprovision/ssh_command.go

    The commands the daemon and the provisioning dial a host with, and a reference
    reading of them: what ssh takes as options, as the destination and as the remote
    command, and what the remote shell makes of that command. *)
From S2P Require Import Prelude GoStrings Encoding NetIP Paths Hostnames Config Clip Session SSHConfig Words KnownHosts AuthorizedKeys.
From Stdlib Require Import Ascii String.
From stdpp Require Import strings.

#[local] Arguments String.append !_ _ / : simpl nomatch.

Inductive SSHCommandError := ErrInvalidPinnedSSHCommand | ErrInvalidRegularSSHCommand.

(** ** The specs *)

Record PinnedSSHCommand := MkPinned {
  pc_User : string;
  pc_Host : string;
  pc_Port : Z;
  pc_PrivateKeyPath : string;
  pc_KnownHostsPath : string;
  pc_GatewayPath : string;
  pc_AuthorizedPeer : string;
  pc_AuthorizedKeyID : string;
  pc_DirectGateway : bool;
}.

Record SSHCommand := MkCommand {
  c_Args : list string;
  c_Stdin : string;
}.

Record SSHKeyscanSpec := MkKeyscan {
  ks_Host : string;
  ks_Port : Z;
  ks_TimeoutSeconds : Z;
}.

Record SSHConfigSpec := MkConfigSpec {
  cs_User : string;
  cs_Host : string;
  cs_Port : Z;
}.

Record RegularSSHInstallAuthorizedKeySpec := MkInstallKey {
  ia_User : string;
  ia_Host : string;
  ia_Port : Z;
  ia_KnownHostsPath : string;
  ia_InstallPath : string;
  ia_GatewayPath : string;
  ia_PeerID : string;
  ia_KeyID : string;
  ia_PublicKey : string;
}.

Record RegularSSHEnsureSyncKeySpec := MkEnsureKey {
  ek_User : string;
  ek_Host : string;
  ek_Port : Z;
  ek_KnownHostsPath : string;
  ek_InstallPath : string;
  ek_HostID : string;
  ek_KeyPath : string;
}.

Record RegularSSHInstallKnownHostSpec := MkInstallHost {
  ih_User : string;
  ih_Host : string;
  ih_Port : Z;
  ih_KnownHostsPath : string;
  ih_InstallPath : string;
  ih_TargetKnownHostsPath : string;
  ih_TargetHost : string;
  ih_TargetPort : Z;
  ih_KeyType : string;
  ih_PublicKey : string;
}.

Record RegularSSHRunProbeSpec := MkRunProbe {
  rp_User : string;
  rp_Host : string;
  rp_Port : Z;
  rp_KnownHostsPath : string;
  rp_InstallPath : string;
  rp_Probe : PinnedSSHCommand;
  rp_ExpectPeerID : string;
  rp_ExpectKeyID : string;
}.

Record RegularSSHRosterReadSpec := MkRosterRead {
  rr_User : string;
  rr_Host : string;
  rr_Port : Z;
  rr_KnownHostsPath : string;
  rr_InstallPath : string;
}.

Record RegularSSHShellSpec := MkShell {
  sh_User : string;
  sh_Host : string;
  sh_Port : Z;
  sh_KnownHostsPath : string;
  sh_Script : string;
}.

Record RegularSSHApplyDirectConfigSpec := MkApplyDirect {
  ad_User : string;
  ad_Host : string;
  ad_Port : Z;
  ad_KnownHostsPath : string;
  ad_InstallPath : string;
  ad_PayloadBase64 : string;
}.

Record regularSSHRemoteSpec := MkRemote {
  rs_User : string;
  rs_Host : string;
  rs_Port : Z;
  rs_KnownHostsPath : string;
  rs_RemoteArgs : list string;
}.

(** ** Quoting *)

Definition shellQuoteArg (arg : string) : string :=
  if bool_decide (arg = "") then of_bytes [39; 39]
  else String tick "" +:+ ReplaceAll tick tick_escape arg +:+ String tick "".

Definition shellQuoteCommand (args : list string) : string := GoStrings.Join " " (shellQuoteArg <$> args).

(** ** Normalising a spec *)

Definition port_ok (port : Z) : bool := negb ((port <? 1)%Z || (65535 <? port)%Z).

Definition normalizePinnedSSHCommand (spec : PinnedSSHCommand) : result SSHCommandError PinnedSSHCommand :=
  let bad := ErrInvalidPinnedSSHCommand in
  _ ← recode (ValidateSSHUser (pc_User spec)) bad;
  host ← recode (CanonicalSSHHost (pc_Host spec)) bad;
  _ ← ensure (port_ok (pc_Port spec)) bad;
  _ ← recode (ValidateSSHExecutablePath (pc_KnownHostsPath spec)) bad;
  _ ← (if pc_DirectGateway spec then
         _ ← recode (ValidateSSHExecutablePath (pc_GatewayPath spec)) bad;
         _ ← recode (ValidateHostID (pc_AuthorizedPeer spec)) bad;
         ensure (ValidateManagedAuthorizedKeyID (pc_AuthorizedKeyID spec)) bad
       else recode (ValidateSSHExecutablePath (pc_PrivateKeyPath spec)) bad);
  Ok (MkPinned (pc_User spec) host (pc_Port spec) (pc_PrivateKeyPath spec) (pc_KnownHostsPath spec) (pc_GatewayPath spec)
    (pc_AuthorizedPeer spec) (pc_AuthorizedKeyID spec) (pc_DirectGateway spec)).

Definition normalizeSSHKeyscanSpec (spec : SSHKeyscanSpec) : result SSHCommandError SSHKeyscanSpec :=
  let bad := ErrInvalidRegularSSHCommand in
  host ← recode (CanonicalSSHHost (ks_Host spec)) bad;
  _ ← ensure (port_ok (ks_Port spec)) bad;
  let timeout := if (ks_TimeoutSeconds spec =? 0)%Z then 5%Z else ks_TimeoutSeconds spec in
  if (timeout <? 1)%Z || (60 <? timeout)%Z then Err bad else Ok (MkKeyscan host (ks_Port spec) timeout).

Definition normalizeSSHConfigSpec (spec : SSHConfigSpec) : result SSHCommandError SSHConfigSpec :=
  let bad := ErrInvalidRegularSSHCommand in
  _ ← recode (ValidateSSHUser (cs_User spec)) bad;
  host ← recode (CanonicalSSHHost (cs_Host spec)) bad;
  _ ← ensure (port_ok (cs_Port spec)) bad;
  Ok (MkConfigSpec (cs_User spec) host (cs_Port spec)).

Definition normalizeRegularSSHTarget (user host : string) (port : Z) (knownHostsPath : string) : result SSHCommandError (string * string) :=
  let bad := ErrInvalidRegularSSHCommand in
  _ ← recode (ValidateSSHUser user) bad;
  canonicalHost ← recode (CanonicalSSHHost host) bad;
  _ ← ensure (port_ok port) bad;
  _ ← recode (ValidateSSHExecutablePath knownHostsPath) bad;
  Ok (user, canonicalHost).

Definition normalizeRegularSSHInstallAuthorizedKeySpec (spec : RegularSSHInstallAuthorizedKeySpec) :
    result SSHCommandError RegularSSHInstallAuthorizedKeySpec :=
  let bad := ErrInvalidRegularSSHCommand in
  '(user, host) ← normalizeRegularSSHTarget (ia_User spec) (ia_Host spec) (ia_Port spec) (ia_KnownHostsPath spec);
  _ ← recode (ValidateSSHExecutablePath (ia_InstallPath spec)) bad;
  _ ← recode (NewManagedAuthorizedKey (MkManagedKey (ia_PeerID spec) (ia_KeyID spec) (ia_GatewayPath spec) (ia_PublicKey spec))) bad;
  Ok (MkInstallKey user host (ia_Port spec) (ia_KnownHostsPath spec) (ia_InstallPath spec) (ia_GatewayPath spec) (ia_PeerID spec)
    (ia_KeyID spec) (ia_PublicKey spec)).

Definition ValidateSyncKeyPath (value : string) : result string () := ValidateSafeAbsolutePath value.

Definition normalizeRegularSSHEnsureSyncKeySpec (spec : RegularSSHEnsureSyncKeySpec) : result SSHCommandError RegularSSHEnsureSyncKeySpec :=
  let bad := ErrInvalidRegularSSHCommand in
  '(user, host) ← normalizeRegularSSHTarget (ek_User spec) (ek_Host spec) (ek_Port spec) (ek_KnownHostsPath spec);
  _ ← recode (ValidateSSHExecutablePath (ek_InstallPath spec)) bad;
  _ ← recode (ValidateHostID (ek_HostID spec)) bad;
  _ ← recode (ValidateSyncKeyPath (ek_KeyPath spec)) bad;
  Ok (MkEnsureKey user host (ek_Port spec) (ek_KnownHostsPath spec) (ek_InstallPath spec) (ek_HostID spec) (ek_KeyPath spec)).

Definition normalizeRegularSSHInstallKnownHostSpec (spec : RegularSSHInstallKnownHostSpec) :
    result SSHCommandError (RegularSSHInstallKnownHostSpec * KnownHostPin) :=
  let bad := ErrInvalidRegularSSHCommand in
  '(user, host) ← normalizeRegularSSHTarget (ih_User spec) (ih_Host spec) (ih_Port spec) (ih_KnownHostsPath spec);
  _ ← recode (ValidateSSHExecutablePath (ih_InstallPath spec)) bad;
  _ ← recode (ValidateSSHExecutablePath (ih_TargetKnownHostsPath spec)) bad;
  pin ← recode (NewKnownHostPin (ih_TargetHost spec) (ih_TargetPort spec) (ih_KeyType spec) (ih_PublicKey spec)) bad;
  let target := TrimPrefix (TrimSuffix (pin_Pattern pin) ("]:" +:+ format_int (ih_TargetPort spec))) "[" in
  Ok (MkInstallHost user host (ih_Port spec) (ih_KnownHostsPath spec) (ih_InstallPath spec) (ih_TargetKnownHostsPath spec) target
    (ih_TargetPort spec) (ih_KeyType spec) (ih_PublicKey spec), pin).

Definition normalizeRegularSSHRunProbeSpec (spec : RegularSSHRunProbeSpec) : result SSHCommandError RegularSSHRunProbeSpec :=
  let bad := ErrInvalidRegularSSHCommand in
  '(user, host) ← normalizeRegularSSHTarget (rp_User spec) (rp_Host spec) (rp_Port spec) (rp_KnownHostsPath spec);
  _ ← recode (ValidateSSHExecutablePath (rp_InstallPath spec)) bad;
  probe ← recode (normalizePinnedSSHCommand (rp_Probe spec)) bad;
  _ ← recode (ValidateHostID (rp_ExpectPeerID spec)) bad;
  _ ← ensure (ValidateManagedAuthorizedKeyID (rp_ExpectKeyID spec)) bad;
  Ok (MkRunProbe user host (rp_Port spec) (rp_KnownHostsPath spec) (rp_InstallPath spec) probe (rp_ExpectPeerID spec) (rp_ExpectKeyID spec)).

Definition normalizeRegularSSHRosterReadSpec (spec : RegularSSHRosterReadSpec) : result SSHCommandError RegularSSHRosterReadSpec :=
  '(user, host) ← normalizeRegularSSHTarget (rr_User spec) (rr_Host spec) (rr_Port spec) (rr_KnownHostsPath spec);
  _ ← recode (ValidateSSHExecutablePath (rr_InstallPath spec)) ErrInvalidRegularSSHCommand;
  Ok (MkRosterRead user host (rr_Port spec) (rr_KnownHostsPath spec) (rr_InstallPath spec)).

(** Every byte of a rune that is not ASCII is refused, so the bytes decide. *)
Definition validProvisionPayloadBase64 (value : string) : bool :=
  negb (bool_decide (value = "") || (131072 <? N.of_nat (len value))%N) &&
  forall_bytes (λ a, is_upper a || is_lower a || is_digit a || bool_decide (a ∈ ["+"; "/"; "="]%char)) value.

Definition normalizeRegularSSHApplyDirectConfigSpec (spec : RegularSSHApplyDirectConfigSpec) :
    result SSHCommandError RegularSSHApplyDirectConfigSpec :=
  let bad := ErrInvalidRegularSSHCommand in
  '(user, host) ← normalizeRegularSSHTarget (ad_User spec) (ad_Host spec) (ad_Port spec) (ad_KnownHostsPath spec);
  _ ← recode (ValidateSSHExecutablePath (ad_InstallPath spec)) bad;
  _ ← ensure (validProvisionPayloadBase64 (ad_PayloadBase64 spec)) bad;
  Ok (MkApplyDirect user host (ad_Port spec) (ad_KnownHostsPath spec) (ad_InstallPath spec) (ad_PayloadBase64 spec)).

(** ** Commands from the daemon to its peers *)

Definition SSHGatewayProbeCommand : string := "probe-authorized-key".

Definition SSHGatewaySyncStreamCommand : string := "sync-stream".

Definition SSHGatewayFleetSnapshotCommand : string := "fleet-snapshot".

Definition pinned_options (knownHostsPath : string) : list string :=
  ["ssh"; "-F"; "/dev/null"; "-o"; "BatchMode=yes"; "-o"; "IdentitiesOnly=yes"; "-o"; "IdentityFile=none"; "-o"; "IdentityAgent=none";
   "-o"; "ConnectTimeout=5"; "-o"; "ConnectionAttempts=1"; "-o"; "StrictHostKeyChecking=yes";
   "-o"; "UserKnownHostsFile=" +:+ knownHostsPath; "-o"; "GlobalKnownHostsFile=/dev/null"; "-o"; "ProxyCommand=none";
   "-o"; "ProxyJump=none"; "-o"; "PermitLocalCommand=no"; "-o"; "RequestTTY=no"; "-o"; "ClearAllForwardings=yes"; "-o"; "LogLevel=ERROR"].

Definition directSSHGatewayCommand (normalized : PinnedSSHCommand) (remoteCommand : string) : result SSHCommandError SSHCommand :=
  if bool_decide (remoteCommand ∈ [SSHGatewayProbeCommand; SSHGatewaySyncStreamCommand; SSHGatewayFleetSnapshotCommand]) then
    Ok (MkCommand
      (pinned_options (pc_KnownHostsPath normalized) ++
       ["-p"; format_int (pc_Port normalized);
        pc_User normalized +:+ "@" +:+ pc_Host normalized;
        shellQuoteCommand
          [pc_GatewayPath normalized; "ssh-gateway"; "--authorized-peer"; pc_AuthorizedPeer normalized;
           "--authorized-key-id"; pc_AuthorizedKeyID normalized; "--direct-command"; remoteCommand]]) "")
  else Err ErrInvalidPinnedSSHCommand.

Definition pinnedSSHGatewayCommand (spec : PinnedSSHCommand) (remoteCommand : string) : result SSHCommandError SSHCommand :=
  normalized ← normalizePinnedSSHCommand spec;
  if pc_DirectGateway normalized then directSSHGatewayCommand normalized remoteCommand
  else
    Ok (MkCommand
      (pinned_options (pc_KnownHostsPath normalized) ++
       ["-i"; pc_PrivateKeyPath normalized; "-p"; format_int (pc_Port normalized);
        pc_User normalized +:+ "@" +:+ pc_Host normalized; remoteCommand]) "").

Definition PinnedSSHProbeCommand (spec : PinnedSSHCommand) := pinnedSSHGatewayCommand spec SSHGatewayProbeCommand.

Definition PinnedSSHSyncStreamCommand (spec : PinnedSSHCommand) := pinnedSSHGatewayCommand spec SSHGatewaySyncStreamCommand.

Definition PinnedSSHFleetSnapshotCommand (spec : PinnedSSHCommand) := pinnedSSHGatewayCommand spec SSHGatewayFleetSnapshotCommand.

(** How the daemon fills the spec for a session: runPeerOnce in daemon/ssh_session.go
    and buildFleetPeerTargets in daemon/fleet_aggregate.go. *)
Definition peer_command (localID : string) (p : sshSyncPeer) : PinnedSSHCommand :=
  MkPinned (sp_user p) (sp_host p) (sp_port p) (sp_privateKeyPath p) (sp_knownHostsPath p) (sp_gatewayPath p) localID (sp_connectKeyID p)
    (sp_directGateway p).

Definition buildFleetPeerTargets (peers : list sshSyncPeer) (localID : string) : list (string * result SSHCommandError SSHCommand) :=
  (λ p, (sp_id p, PinnedSSHFleetSnapshotCommand (peer_command localID p))) <$> peers.

(** ** Commands of the provisioning *)

Definition SSHKeyscanCommand (spec : SSHKeyscanSpec) : result SSHCommandError SSHCommand :=
  normalized ← normalizeSSHKeyscanSpec spec;
  Ok (MkCommand ["ssh-keyscan"; "-T"; format_int (ks_TimeoutSeconds normalized); "-p"; format_int (ks_Port normalized); ks_Host normalized] "").

Definition appendRegularSSHPortArgs (args : list string) (port : Z) : list string :=
  if (port =? 22)%Z then args else args ++ ["-p"; format_int port].

Definition RegularSSHConfigCommand (spec : SSHConfigSpec) : result SSHCommandError SSHCommand :=
  normalized ← normalizeSSHConfigSpec spec;
  let args := ["ssh"; "-G"; "-l"; cs_User normalized] in
  let args := if negb (cs_Port normalized =? 22)%Z then args ++ ["-p"; format_int (cs_Port normalized)] else args in
  Ok (MkCommand (args ++ [cs_Host normalized]) "").

Definition regular_options (knownHostsPath : string) : list string :=
  ["ssh"; "-o"; "BatchMode=yes"; "-o"; "StrictHostKeyChecking=yes"; "-o"; "UserKnownHostsFile=" +:+ knownHostsPath;
   "-o"; "GlobalKnownHostsFile=/dev/null"; "-o"; "PermitLocalCommand=no"; "-o"; "RequestTTY=no"; "-o"; "ClearAllForwardings=yes";
   "-o"; "LogLevel=ERROR"].

Definition regularSSHRemoteCommand (spec : regularSSHRemoteSpec) : SSHCommand :=
  let args := appendRegularSSHPortArgs (regular_options (rs_KnownHostsPath spec)) (rs_Port spec) in
  MkCommand (args ++ [rs_User spec +:+ "@" +:+ rs_Host spec; shellQuoteCommand (rs_RemoteArgs spec)]) "".

Definition RegularSSHInstallAuthorizedKeyCommand (spec : RegularSSHInstallAuthorizedKeySpec) : result SSHCommandError SSHCommand :=
  normalized ← normalizeRegularSSHInstallAuthorizedKeySpec spec;
  let remoteCommand := shellQuoteCommand
    [ia_InstallPath normalized; "ssh-install-authorized-key"; "--peer"; ia_PeerID normalized; "--key-id"; ia_KeyID normalized;
     "--gateway-path"; ia_GatewayPath normalized; "--public-key"; ia_PublicKey normalized] in
  let args := appendRegularSSHPortArgs (regular_options (ia_KnownHostsPath normalized)) (ia_Port normalized) in
  Ok (MkCommand (args ++ [ia_User normalized +:+ "@" +:+ ia_Host normalized; remoteCommand]) "").

Definition RegularSSHEnsureSyncKeyCommand (spec : RegularSSHEnsureSyncKeySpec) : result SSHCommandError SSHCommand :=
  normalized ← normalizeRegularSSHEnsureSyncKeySpec spec;
  Ok (regularSSHRemoteCommand
    (MkRemote (ek_User normalized) (ek_Host normalized) (ek_Port normalized) (ek_KnownHostsPath normalized)
      [ek_InstallPath normalized; "ssh-ensure-sync-key"; "--host-id"; ek_HostID normalized; "--key-path"; ek_KeyPath normalized])).

Definition RegularSSHInstallKnownHostCommand (spec : RegularSSHInstallKnownHostSpec) : result SSHCommandError SSHCommand :=
  '(normalized, pin) ← normalizeRegularSSHInstallKnownHostSpec spec;
  Ok (regularSSHRemoteCommand
    (MkRemote (ih_User normalized) (ih_Host normalized) (ih_Port normalized) (ih_KnownHostsPath normalized)
      [ih_InstallPath normalized; "ssh-install-known-host"; "--known-hosts"; ih_TargetKnownHostsPath normalized;
       "--host"; ih_TargetHost normalized; "--port"; format_int (ih_TargetPort normalized); "--key-type"; pin_KeyType pin;
       "--public-key"; pin_PublicKey pin])).

Definition RegularSSHRunProbeCommand (spec : RegularSSHRunProbeSpec) : result SSHCommandError SSHCommand :=
  normalized ← normalizeRegularSSHRunProbeSpec spec;
  let probe := rp_Probe normalized in
  let remoteArgs := [rp_InstallPath normalized; "ssh-run-probe"; "--user"; pc_User probe; "--host"; pc_Host probe; "--port"; format_int (pc_Port probe)] in
  let remoteArgs := remoteArgs ++
    (if pc_DirectGateway probe then ["--gateway-path"; pc_GatewayPath probe; "--direct-gateway"] else ["--private-key"; pc_PrivateKeyPath probe]) in
  let remoteArgs := remoteArgs ++
    ["--known-hosts"; pc_KnownHostsPath probe; "--expect-peer"; rp_ExpectPeerID normalized; "--expect-key-id"; rp_ExpectKeyID normalized] in
  Ok (regularSSHRemoteCommand
    (MkRemote (rp_User normalized) (rp_Host normalized) (rp_Port normalized) (rp_KnownHostsPath normalized) remoteArgs)).

Definition RegularSSHRosterReadCommand (spec : RegularSSHRosterReadSpec) : result SSHCommandError SSHCommand :=
  normalized ← normalizeRegularSSHRosterReadSpec spec;
  Ok (regularSSHRemoteCommand
    (MkRemote (rr_User normalized) (rr_Host normalized) (rr_Port normalized) (rr_KnownHostsPath normalized)
      [rr_InstallPath normalized; "roster-read"])).

Definition RegularSSHShellCommand (spec : RegularSSHShellSpec) : result SSHCommandError SSHCommand :=
  '(user, host) ← normalizeRegularSSHTarget (sh_User spec) (sh_Host spec) (sh_Port spec) (sh_KnownHostsPath spec);
  if bool_decide (sh_Script spec = "") then Err ErrInvalidRegularSSHCommand
  else Ok (regularSSHRemoteCommand (MkRemote user host (sh_Port spec) (sh_KnownHostsPath spec) ["sh"; "-c"; sh_Script spec])).

Definition RegularSSHApplyDirectConfigCommand (spec : RegularSSHApplyDirectConfigSpec) : result SSHCommandError SSHCommand :=
  normalized ← normalizeRegularSSHApplyDirectConfigSpec spec;
  let command := regularSSHRemoteCommand
    (MkRemote (ad_User normalized) (ad_Host normalized) (ad_Port normalized) (ad_KnownHostsPath normalized)
      [ad_InstallPath normalized; "ssh-apply-direct-config"; "--payload-stdin"]) in
  Ok (MkCommand (c_Args command) (ad_PayloadBase64 normalized)).

(** ** A reference reading of a command

    ssh takes options up to the first argument that is none, then the destination;
    what follows is the remote command, handed to a shell of the other host. *)

Definition takes_value (a : string) : bool := bool_decide (a ∈ ["-o"; "-F"; "-i"; "-p"; "-l"; "-T"]).

(** The options with their values (an empty one for a flag), and what follows them. *)
Fixpoint read_options (args : list string) : list (string * string) * list string :=
  match args with
  | a :: rest =>
      if takes_value a then
        match rest with
        | v :: rest => let '(opts, tail) := read_options rest in ((a, v) :: opts, tail)
        | [] => ([], args)
        end
      else if HasPrefix a "-" then let '(opts, tail) := read_options rest in ((a, "") :: opts, tail)
      else ([], args)
  | [] => ([], [])
  end.

Record reading := MkReading {
  rd_program : string;
  rd_options : list (string * string);
  rd_destination : string;
  rd_remote : option (list string);
}.

Definition read_command (c : SSHCommand) : option reading :=
  match c_Args c with
  | program :: args =>
      match read_options args with
      | (opts, [destination]) => Some (MkReading program opts destination None)
      | (opts, [destination; remote]) => argv ← shell_read remote; Some (MkReading program opts destination (Some argv))
      | _ => None
      end
  | [] => None
  end.

(** What no command lacks: the host key must be known, from the file given and no
    other, nothing is asked for, nothing is forwarded or run locally. *)
Definition strict_options (knownHostsPath : string) : list (string * string) :=
  [("-o", "BatchMode=yes"); ("-o", "StrictHostKeyChecking=yes"); ("-o", "UserKnownHostsFile=" +:+ knownHostsPath);
   ("-o", "GlobalKnownHostsFile=/dev/null"); ("-o", "PermitLocalCommand=no"); ("-o", "RequestTTY=no"); ("-o", "ClearAllForwardings=yes");
   ("-o", "LogLevel=ERROR")].

(** No user's configuration, agent, default key or proxy is used either. *)
Definition isolated_options (knownHostsPath : string) : list (string * string) :=
  [("-F", "/dev/null"); ("-o", "BatchMode=yes"); ("-o", "IdentitiesOnly=yes"); ("-o", "IdentityFile=none"); ("-o", "IdentityAgent=none");
   ("-o", "ConnectTimeout=5"); ("-o", "ConnectionAttempts=1"); ("-o", "StrictHostKeyChecking=yes");
   ("-o", "UserKnownHostsFile=" +:+ knownHostsPath); ("-o", "GlobalKnownHostsFile=/dev/null"); ("-o", "ProxyCommand=none");
   ("-o", "ProxyJump=none"); ("-o", "PermitLocalCommand=no"); ("-o", "RequestTTY=no"); ("-o", "ClearAllForwardings=yes"); ("-o", "LogLevel=ERROR")].

Definition port_options (port : Z) : list (string * string) := if (port =? 22)%Z then [] else [("-p", format_int port)].

(** ** Lemmas: quoting *)

Lemma shell_words_arg arg rest : shell_words false None (shellQuoteArg arg +:+ rest) = shell_words false (Some arg) rest.
Proof.
  unfold shellQuoteArg. case_bool_decide as Ha.
  - subst arg. change (of_bytes [39; 39] +:+ rest) with (String tick (String tick rest)). cbn [shell_words].
    rewrite bool_decide_eq_true_2 by done. cbn [default]. done.
  - rewrite !sapp_assoc. change (String tick "" +:+ ?x) with (String tick x) at 1. cbn [shell_words]. rewrite bool_decide_eq_true_2 by done.
    change (String tick "" +:+ rest) with (String tick rest). cbn [default]. by rewrite shell_words_quoted.
Qed.

Lemma shell_words_quote args : args ≠ [] → shell_words false None (shellQuoteCommand args) = Some args.
Proof.
  unfold shellQuoteCommand. induction args as [|arg args IH]; [done|]. intros _. cbn [fmap list_fmap].
  destruct (decide (args = [])) as [->|Hne].
  - cbn [fmap list_fmap GoStrings.Join]. rewrite <- (sapp_nil_r (shellQuoteArg arg)), shell_words_arg. done.
  - rewrite Join_cons by by destruct args. rewrite shell_words_arg. change (" " +:+ ?x) with (String " " x). cbn [shell_words].
    rewrite !bool_decide_eq_false_2 by done. rewrite bool_decide_eq_true_2 by done. unfold fmap in IH |- *. rewrite IH by done. done.
Qed.

Lemma shell_read_quote args : args ≠ [] → shell_read (shellQuoteCommand args) = Some args.
Proof. apply shell_words_quote. Qed.

(** ** Lemmas: reading the commands *)

(** A destination ssh takes as one: a user, an at sign and a host. *)
Record destination_ok (user host : string) : Prop := {
  do_user : matches key_id_byte 1 64 user = true;
  do_hyphen : HasPrefix user "-" = false;
  do_host : forall_bytes host_byte host = true;
  do_host_ne : host ≠ "";
}.

Lemma destination_of user h host : ValidateSSHUser user = Ok () → CanonicalSSHHost h = Ok host → destination_ok user host.
Proof. intros [Hm Hh]%user_Ok [Hb Hn]%CanonicalSSHHost_bytes. by split. Qed.

Lemma destination_no_option user host : destination_ok user host → takes_value (user +:+ "@" +:+ host) = false ∧ HasPrefix (user +:+ "@" +:+ host) "-" = false.
Proof.
  intros [Hm Hh _ _]. destruct user as [|a user]; [done|].
  assert (Ha : a ≠ "-"%char).
  { intros ->. by destruct user. }
  split; cbn [String.append].
  - apply bool_decide_eq_false_2. intros Hin. repeat (apply elem_of_cons in Hin as [Heq|Hin]; [injection Heq as ? _; congruence|]).
    by apply elem_of_nil in Hin.
  - cbn [HasPrefix String.prefix]. by destruct (ascii_dec "-" a).
Qed.

Lemma read_options_stop a rest : takes_value a = false → HasPrefix a "-" = false → read_options (a :: rest) = ([], a :: rest).
Proof. intros H1 H2. cbn [read_options]. by rewrite H1, H2. Qed.

Lemma read_value a v rest : takes_value a = true → read_options (a :: v :: rest) = let '(opts, t) := read_options rest in ((a, v) :: opts, t).
Proof. intros H. cbn [read_options]. by rewrite H. Qed.

Lemma read_pinned kh rest :
  read_options (tail (pinned_options kh) ++ rest) = let '(opts, t) := read_options rest in (isolated_options kh ++ opts, t).
Proof. destruct (read_options rest) as [opts t] eqn:Hr. cbn [pinned_options tail app]. rewrite !read_value by reflexivity. by rewrite Hr. Qed.

Lemma read_regular kh rest :
  read_options (tail (regular_options kh) ++ rest) = let '(opts, t) := read_options rest in (strict_options kh ++ opts, t).
Proof. destruct (read_options rest) as [opts t] eqn:Hr. cbn [regular_options tail app]. rewrite !read_value by reflexivity. by rewrite Hr. Qed.

(** A command of the provisioning, read. *)
Lemma read_regular_command kh port user host argv stdin :
  destination_ok user host → argv ≠ [] →
  read_command (MkCommand (appendRegularSSHPortArgs (regular_options kh) port ++ [user +:+ "@" +:+ host; shellQuoteCommand argv]) stdin) =
    Some (MkReading "ssh" (strict_options kh ++ port_options port) (user +:+ "@" +:+ host) (Some argv)).
Proof.
  intros [Hd1 Hd2]%destination_no_option Hargv. unfold read_command, appendRegularSSHPortArgs, port_options. cbn [c_Args].
  assert (Hopts : ∀ l, regular_options kh ++ l = "ssh" :: tail (regular_options kh) ++ l) by done.
  destruct (port =? 22)%Z.
  - rewrite Hopts, read_regular, read_options_stop by done. by rewrite shell_read_quote.
  - rewrite <- app_assoc, Hopts, read_regular. cbn [app]. rewrite (read_value "-p") by done. rewrite read_options_stop by done. by rewrite shell_read_quote.
Qed.

Lemma target_Ok user h port kh u host :
  normalizeRegularSSHTarget user h port kh = Ok (u, host) →
  u = user ∧ CanonicalSSHHost h = Ok host ∧ destination_ok user host ∧ port_ok port = true ∧ ValidateSSHExecutablePath kh = Ok ().
Proof.
  unfold normalizeRegularSSHTarget. intros ([] & Hu%recode_Ok & H)%bind_Ok. apply bind_Ok in H as (c & Hc%recode_Ok & H).
  apply bind_Ok in H as ([] & Hp%ensure_Ok & H). apply bind_Ok in H as ([] & Hk%recode_Ok & [= <- <-]).
  split_and!; try done. by eapply destination_of.
Qed.

Lemma executable_path_valid v : executable_path v → ValidateSSHExecutablePath v = Ok ().
Proof.
  intros (t & -> & Ht & Hb). unfold ValidateSSHExecutablePath, ValidateSafeAbsolutePath, sshPathPattern. rewrite bool_decide_eq_false_2 by done.
  change (HasPrefix (String "/" t) "/") with (HasPrefix ("/" +:+ t) "/"). rewrite HasPrefix_app. cbn [negb].
  rewrite ContainsAny_no.
  2:{ intros c Hc. apply (has_byte_forall c path_byte); [done|]. unfold path_controls, of_bytes in Hc. rewrite !has_byte_cons in Hc.
      repeat (apply orb_true_iff in Hc as [<-%bool_decide_eq_true|Hc]; [done|]). done. }
  rewrite bool_decide_eq_true_2 by by apply Clean_fixed. cbn [negb].
  assert (Hdots : existsb (λ part, bool_decide (part = "..")) (Split "/" (String "/" t)) = false).
  { apply not_true_iff_false. intros (x & Hx & Heq%bool_decide_eq_true)%existsb_exists. subst x. cbn [Split] in Hx. rewrite bool_decide_eq_true_2 in Hx by done.
    destruct Hx as [Hx|Hx]; [done|]. destruct Ht as [->|Ht]; [by destruct Hx|]. rewrite forallb_forall in Ht. by apply Ht in Hx. }
  rewrite Hdots, Hb. done.
Qed.

(** ** The commands of the provisioning, as one kind of request *)

Inductive Request :=
| InstallAuthorizedKey (spec : RegularSSHInstallAuthorizedKeySpec)
| EnsureSyncKey (spec : RegularSSHEnsureSyncKeySpec)
| InstallKnownHost (spec : RegularSSHInstallKnownHostSpec)
| RunProbe (spec : RegularSSHRunProbeSpec)
| RosterRead (spec : RegularSSHRosterReadSpec)
| Shell (spec : RegularSSHShellSpec)
| ApplyDirectConfig (spec : RegularSSHApplyDirectConfigSpec).

Definition request_command (r : Request) : result SSHCommandError SSHCommand :=
  match r with
  | InstallAuthorizedKey spec => RegularSSHInstallAuthorizedKeyCommand spec
  | EnsureSyncKey spec => RegularSSHEnsureSyncKeyCommand spec
  | InstallKnownHost spec => RegularSSHInstallKnownHostCommand spec
  | RunProbe spec => RegularSSHRunProbeCommand spec
  | RosterRead spec => RegularSSHRosterReadCommand spec
  | Shell spec => RegularSSHShellCommand spec
  | ApplyDirectConfig spec => RegularSSHApplyDirectConfigCommand spec
  end.

(** User, host, port and known hosts of the host that is dialled. *)
Definition request_target (r : Request) : string * string * Z * string :=
  match r with
  | InstallAuthorizedKey spec => (ia_User spec, ia_Host spec, ia_Port spec, ia_KnownHostsPath spec)
  | EnsureSyncKey spec => (ek_User spec, ek_Host spec, ek_Port spec, ek_KnownHostsPath spec)
  | InstallKnownHost spec => (ih_User spec, ih_Host spec, ih_Port spec, ih_KnownHostsPath spec)
  | RunProbe spec => (rp_User spec, rp_Host spec, rp_Port spec, rp_KnownHostsPath spec)
  | RosterRead spec => (rr_User spec, rr_Host spec, rr_Port spec, rr_KnownHostsPath spec)
  | Shell spec => (sh_User spec, sh_Host spec, sh_Port spec, sh_KnownHostsPath spec)
  | ApplyDirectConfig spec => (ad_User spec, ad_Host spec, ad_Port spec, ad_KnownHostsPath spec)
  end.

Definition canonical (h : string) : string := match CanonicalSSHHost h with Ok host => host | Err _ => "" end.

(** What is meant to run on the other host. *)
Definition request_argv (r : Request) : list string :=
  match r with
  | InstallAuthorizedKey spec =>
      [ia_InstallPath spec; "ssh-install-authorized-key"; "--peer"; ia_PeerID spec; "--key-id"; ia_KeyID spec;
       "--gateway-path"; ia_GatewayPath spec; "--public-key"; ia_PublicKey spec]
  | EnsureSyncKey spec => [ek_InstallPath spec; "ssh-ensure-sync-key"; "--host-id"; ek_HostID spec; "--key-path"; ek_KeyPath spec]
  | InstallKnownHost spec =>
      [ih_InstallPath spec; "ssh-install-known-host"; "--known-hosts"; ih_TargetKnownHostsPath spec; "--host"; canonical (ih_TargetHost spec);
       "--port"; format_int (ih_TargetPort spec); "--key-type"; ih_KeyType spec; "--public-key"; ih_PublicKey spec]
  | RunProbe spec =>
      let probe := rp_Probe spec in
      [rp_InstallPath spec; "ssh-run-probe"; "--user"; pc_User probe; "--host"; canonical (pc_Host probe); "--port"; format_int (pc_Port probe)] ++
      (if pc_DirectGateway probe then ["--gateway-path"; pc_GatewayPath probe; "--direct-gateway"] else ["--private-key"; pc_PrivateKeyPath probe]) ++
      ["--known-hosts"; pc_KnownHostsPath probe; "--expect-peer"; rp_ExpectPeerID spec; "--expect-key-id"; rp_ExpectKeyID spec]
  | RosterRead spec => [rr_InstallPath spec; "roster-read"]
  | Shell spec => ["sh"; "-c"; sh_Script spec]
  | ApplyDirectConfig spec => [ad_InstallPath spec; "ssh-apply-direct-config"; "--payload-stdin"]
  end.

Definition request_stdin (r : Request) : string := match r with ApplyDirectConfig spec => ad_PayloadBase64 spec | _ => "" end.

(** A command of the provisioning comes from a target that was checked and from
    arguments put between quotes. *)
Definition regular_shape (c : SSHCommand) (user h : string) (port : Z) (kh : string) (argv : list string) (stdin : string) : Prop :=
  ∃ host, CanonicalSSHHost h = Ok host ∧ destination_ok user host ∧ port_ok port = true ∧ ValidateSSHExecutablePath kh = Ok () ∧
    c = MkCommand (appendRegularSSHPortArgs (regular_options kh) port ++ [user +:+ "@" +:+ host; shellQuoteCommand argv]) stdin.

Lemma pattern_target h port host pattern :
  CanonicalSSHHost h = Ok host → KnownHostsPattern h port = Ok pattern → TrimPrefix (TrimSuffix pattern ("]:" +:+ format_int port)) "[" = host.
Proof.
  intros Hc Hp. unfold KnownHostsPattern in Hp. rewrite Hc in Hp. destruct (_ || _); [done|].
  apply CanonicalSSHHost_bytes in Hc as [Hb _].
  assert (Hno : ∀ c, host_byte c = false → has_byte c host = false) by (intros c Hc; by eapply has_byte_forall).
  destruct (port =? 22)%Z; injection Hp as Hp.
  - subst pattern. rewrite TrimSuffix_none.
    + unfold TrimPrefix. by rewrite (has_byte_prefix "[") by by apply Hno.
    + apply not_true_iff_false. intros [q Hq]%HasSuffix_spec. assert (H : has_byte "]" host = false) by by apply Hno.
      rewrite Hq, has_byte_app in H. change ("]:" +:+ ?x) with (String "]" (":" +:+ x)) in H.
      rewrite has_byte_cons, bool_decide_eq_true_2, orb_true_r in H by done. done.
  - assert (Hpat : pattern = ("[" +:+ host) +:+ ("]:" +:+ format_int port)) by (rewrite <- Hp; symmetry; exact (sapp_assoc "[" host _)).
    rewrite Hpat, TrimSuffix_app. apply TrimPrefix_app.
Qed.

Lemma normalize_pinned_Ok spec n :
  normalizePinnedSSHCommand spec = Ok n →
  ∃ host, CanonicalSSHHost (pc_Host spec) = Ok host ∧ destination_ok (pc_User spec) host ∧ port_ok (pc_Port spec) = true ∧
    ValidateSSHExecutablePath (pc_KnownHostsPath spec) = Ok () ∧
    n = MkPinned (pc_User spec) host (pc_Port spec) (pc_PrivateKeyPath spec) (pc_KnownHostsPath spec) (pc_GatewayPath spec)
      (pc_AuthorizedPeer spec) (pc_AuthorizedKeyID spec) (pc_DirectGateway spec).
Proof.
  unfold normalizePinnedSSHCommand. cbv zeta. intros ([] & Hu%recode_Ok & H)%bind_Ok. apply bind_Ok in H as (host & Hh%recode_Ok & H).
  apply bind_Ok in H as ([] & Hp%ensure_Ok & H). apply bind_Ok in H as ([] & Hk%recode_Ok & H). apply bind_Ok in H as ([] & _ & [= <-]).
  exists host. split_and!; try done. by eapply destination_of.
Qed.

Lemma request_shape r c :
  request_command r = Ok c →
  let '(user, h, port, kh) := request_target r in regular_shape c user h port kh (request_argv r) (request_stdin r).
Proof.
  destruct r as [spec|spec|spec|spec|spec|spec|spec]; cbn [request_command request_target request_argv request_stdin]; intros Hc.
  - apply bind_Ok in Hc as (n & Hn & [= <-]). apply bind_Ok in Hn as ([u host] & (-> & Hh & Hd & Hp & Hk)%target_Ok & Hn).
    apply bind_Ok in Hn as ([] & _ & Hn). apply bind_Ok in Hn as (? & _ & [= <-]). by exists host.
  - apply bind_Ok in Hc as (n & Hn & [= <-]). apply bind_Ok in Hn as ([u host] & (-> & Hh & Hd & Hp & Hk)%target_Ok & Hn).
    apply bind_Ok in Hn as ([] & _ & Hn). apply bind_Ok in Hn as ([] & _ & Hn). apply bind_Ok in Hn as ([] & _ & [= <-]). by exists host.
  - apply bind_Ok in Hc as ([n pin] & Hn & [= <-]). apply bind_Ok in Hn as ([u host] & (-> & Hh & Hd & Hp & Hk)%target_Ok & Hn).
    apply bind_Ok in Hn as ([] & _ & Hn). apply bind_Ok in Hn as ([] & _ & Hn). apply bind_Ok in Hn as (pin' & Hpin%recode_Ok & [= <- <-]).
    exists host. split_and!; try done. apply bind_Ok in Hpin as (pattern & Hpat & Hpin). apply bind_Ok in Hpin as ([] & _ & [= <-]).
    pose proof Hpat as Hpat'. unfold KnownHostsPattern in Hpat'. destruct (_ || _); [done|].
    destruct (CanonicalSSHHost (ih_TargetHost spec)) as [th|] eqn:Hth; [|done]. clear Hpat'.
    unfold regularSSHRemoteCommand, canonical. cbn [rs_KnownHostsPath rs_Port rs_User rs_Host rs_RemoteArgs ih_KnownHostsPath ih_Port ih_User ih_Host
      ih_InstallPath ih_TargetKnownHostsPath ih_TargetHost ih_TargetPort pin_KeyType pin_PublicKey pin_Pattern].
    rewrite Hth. change (String "]" (String ":" ?x)) with ("]:" +:+ x). by rewrite (pattern_target _ _ _ _ Hth Hpat).
  - apply bind_Ok in Hc as (n & Hn & [= <-]). apply bind_Ok in Hn as ([u host] & (-> & Hh & Hd & Hp & Hk)%target_Ok & Hn).
    apply bind_Ok in Hn as ([] & _ & Hn). apply bind_Ok in Hn as (probe & Hprobe%recode_Ok & Hn). apply bind_Ok in Hn as ([] & _ & Hn).
    apply bind_Ok in Hn as ([] & _ & [= <-]). apply normalize_pinned_Ok in Hprobe as (ph & Hph & _ & _ & _ & ->).
    exists host. split_and!; try done. unfold regularSSHRemoteCommand, canonical.
    cbn [rs_KnownHostsPath rs_Port rs_User rs_Host rs_RemoteArgs rp_KnownHostsPath rp_Port rp_User rp_Host rp_InstallPath rp_Probe
      rp_ExpectPeerID rp_ExpectKeyID pc_User pc_Host pc_Port pc_GatewayPath pc_PrivateKeyPath pc_KnownHostsPath pc_DirectGateway].
    rewrite Hph. by destruct (pc_DirectGateway (rp_Probe spec)).
  - apply bind_Ok in Hc as (n & Hn & [= <-]). apply bind_Ok in Hn as ([u host] & (-> & Hh & Hd & Hp & Hk)%target_Ok & Hn).
    apply bind_Ok in Hn as ([] & _ & [= <-]). by exists host.
  - apply bind_Ok in Hc as ([u host] & (-> & Hh & Hd & Hp & Hk)%target_Ok & Hc). case_bool_decide; [done|]. injection Hc as <-. by exists host.
  - apply bind_Ok in Hc as (n & Hn & [= <-]). apply bind_Ok in Hn as ([u host] & (-> & Hh & Hd & Hp & Hk)%target_Ok & Hn).
    apply bind_Ok in Hn as ([] & _ & Hn). apply bind_Ok in Hn as ([] & _ & [= <-]). by exists host.
Qed.

Lemma request_argv_nonempty r : request_argv r ≠ [].
Proof. by destruct r. Qed.

Lemma read_pinned_command kh rest opts destination remote argv stdin :
  read_options rest = (opts, [destination; remote]) → shell_read remote = Some argv →
  read_command (MkCommand (pinned_options kh ++ rest) stdin) = Some (MkReading "ssh" (isolated_options kh ++ opts) destination (Some argv)).
Proof.
  intros Hrest Hremote. assert (Hopts : pinned_options kh ++ rest = "ssh" :: tail (pinned_options kh) ++ rest) by done.
  unfold read_command. cbn [c_Args]. rewrite Hopts, read_pinned, Hrest. by rewrite Hremote.
Qed.

(** A command to the gateway of a peer, read. *)
Lemma pinned_reads spec remote c :
  remote ∈ [SSHGatewayProbeCommand; SSHGatewaySyncStreamCommand; SSHGatewayFleetSnapshotCommand] →
  pinnedSSHGatewayCommand spec remote = Ok c →
  ∃ host, CanonicalSSHHost (pc_Host spec) = Ok host ∧ destination_ok (pc_User spec) host ∧
    read_command c = Some (MkReading "ssh"
      (isolated_options (pc_KnownHostsPath spec) ++
       (if pc_DirectGateway spec then [] else [("-i", pc_PrivateKeyPath spec)]) ++ [("-p", format_int (pc_Port spec))])
      (pc_User spec +:+ "@" +:+ host)
      (Some (if pc_DirectGateway spec then
               [pc_GatewayPath spec; "ssh-gateway"; "--authorized-peer"; pc_AuthorizedPeer spec; "--authorized-key-id"; pc_AuthorizedKeyID spec;
                "--direct-command"; remote]
             else [remote]))).
Proof.
  intros Hremote (n & Hn & Hc)%bind_Ok. apply normalize_pinned_Ok in Hn as (host & Hh & Hd & _ & _ & ->). exists host. split; [done|]. split; [done|].
  destruct (destination_no_option _ _ Hd) as [Hd1 Hd2]. cbn [pc_DirectGateway] in Hc. destruct (pc_DirectGateway spec).
  - unfold directSSHGatewayCommand in Hc. rewrite bool_decide_eq_true_2 in Hc by done. injection Hc as <-.
    eapply read_pinned_command; [|by apply shell_read_quote]. rewrite (read_value "-p"), read_options_stop by done. done.
  - injection Hc as <-. eapply read_pinned_command.
    + rewrite (read_value "-i"), (read_value "-p"), read_options_stop by done. done.
    + repeat (apply elem_of_cons in Hremote as [->|Hremote]; [reflexivity|]). by apply elem_of_nil in Hremote.
Qed.

Lemma pinned_builds spec remote :
  remote ∈ [SSHGatewayProbeCommand; SSHGatewaySyncStreamCommand; SSHGatewayFleetSnapshotCommand] →
  is_ok (normalizePinnedSSHCommand spec) = true → is_ok (pinnedSSHGatewayCommand spec remote) = true.
Proof.
  intros Hremote Hn. unfold pinnedSSHGatewayCommand. destruct (normalizePinnedSSHCommand spec) as [n|]; [|done]. cbn [mbind result_bind].
  destruct (pc_DirectGateway n); [|done]. unfold directSSHGatewayCommand. by rewrite bool_decide_eq_true_2.
Qed.

Lemma session_normalizes cfg localID p :
  session_safe cfg p → ValidateHostID localID = Ok () → is_ok (normalizePinnedSSHCommand (peer_command localID p)) = true.
Proof.
  intros [_ Hport [Hu Hu'] (_ & _ & Hh) (Hkey & Hkh & Hgw) Hid] Hloc. unfold normalizePinnedSSHCommand, peer_command.
  cbn [pc_User pc_Host pc_Port pc_PrivateKeyPath pc_KnownHostsPath pc_GatewayPath pc_AuthorizedPeer pc_AuthorizedKeyID pc_DirectGateway].
  unfold ValidateSSHUser, sshUserPattern. rewrite Hu, Hu'. cbn [negb recode mbind result_bind].
  destruct (CanonicalSSHHost (sp_host p)) as [host|]; [|done]. cbn [recode mbind result_bind].
  assert (Hport' : port_ok (sp_port p) = true).
  { unfold port_ok. apply negb_true_iff, orb_false_iff. split; apply Z.ltb_ge; lia. }
  rewrite Hport', (executable_path_valid _ Hkh). cbn [ensure recode mbind result_bind].
  destruct (sp_directGateway p).
  - rewrite (executable_path_valid _ Hgw), Hloc. cbn [recode mbind result_bind]. unfold ValidateManagedAuthorizedKeyID, authorizedKeyIDPattern, proofKeyIDPattern in *.
    by rewrite Hid.
  - by rewrite (executable_path_valid _ Hkey).
Qed.

(** ** Properties *)


(** From a configuration that validates, under a valid local ID, the commands to the
    gateways of the sessions are all built, and each reads as ssh cut off from the
    user's configuration, agent, keys and proxies, trusting only the pinned host
    keys, with the sync key alone unless the peer's gateway is asked directly, to the
    peer, and running the gateway command and nothing else. *)
Theorem validated_commands cfg localID remote
    (Hok : ValidateSSHTransportConfig cfg = Ok ()) (Hlocal : ValidateHostID localID = Ok ())
    (Hremote : remote ∈ [SSHGatewayProbeCommand; SSHGatewaySyncStreamCommand; SSHGatewayFleetSnapshotCommand]) :
  Forall (λ p, ∃ c, pinnedSSHGatewayCommand (peer_command localID p) remote = Ok c ∧
    read_command c = Some (MkReading "ssh"
      (isolated_options (sp_knownHostsPath p) ++
       (if sp_directGateway p then [] else [("-i", sp_privateKeyPath p)]) ++ [("-p", format_int (sp_port p))])
      (sp_user p +:+ "@" +:+ canonical (sp_host p))
      (Some (if sp_directGateway p then
               [sp_gatewayPath p; "ssh-gateway"; "--authorized-peer"; localID; "--authorized-key-id"; sp_connectKeyID p; "--direct-command"; remote]
             else [remote])))) (sshSyncPeersFromConfig (Some cfg)).
Proof.
  assert (Hall : Forall (session_safe cfg) (sshSyncPeersFromConfig (Some cfg))).
  { destruct (sessions_of cfg Hok) as [->|(ssh & l & Hkey & Hknown & Hl & _ & _ & ->)]; [constructor|].
    apply Forall_fmap. eapply Forall_impl; [exact Hl|]. intros p [Hp Hu]. by apply session_safe_of. }
  eapply Forall_impl; [exact Hall|]. intros p Hp. pose proof (session_normalizes _ _ _ Hp Hlocal) as Hn.
  pose proof (pinned_builds _ remote Hremote Hn) as Hb. destruct (pinnedSSHGatewayCommand _ _) as [c|] eqn:Hc; [|done].
  exists c. split; [done|]. destruct (pinned_reads _ _ _ Hremote Hc) as (host & Hh & _ & Hr).
  cbn [peer_command pc_Host pc_DirectGateway pc_KnownHostsPath pc_User pc_Port pc_PrivateKeyPath pc_GatewayPath pc_AuthorizedPeer pc_AuthorizedKeyID] in Hh, Hr.
  unfold canonical. by rewrite Hh.
Qed.

Definition sample_shell : RegularSSHShellSpec :=
  MkShell "me" "Host-B.local" 2222 "/home/me/.ssh/known_hosts" ("echo 'hi'; rm -- '$x'" +:+ String newline "" +:+ "exit").


Lemma validated_commands_witness :
  sp_id <$> sshSyncPeersFromConfig (Some (ready_config ["alpha"; "beta"])) = ["alpha"; "beta"] ∧
  Forall (λ p, ∃ c, pinnedSSHGatewayCommand (peer_command "studio" p) SSHGatewaySyncStreamCommand = Ok c) (sshSyncPeersFromConfig (Some (ready_config ["alpha"; "beta"]))).
Proof.
  split; [vm_compute; reflexivity|].
  eapply Forall_impl; [apply (validated_commands (ready_config ["alpha"; "beta"]) "studio" SSHGatewaySyncStreamCommand)|].
  - vm_compute. reflexivity.
  - vm_compute. reflexivity.
  - right. left.
  - intros p (c & Hc & _). exists c. exact Hc.
Defined.
