(* ===== verification/Pairing.v ===== *)
(** * Pairing hosts: sshprovision/pair_plan.go, pair_executor.go, ssh_server_mode.go

    The plan of a pair and of a mesh, and the run of the provisioner over a driver
    that dials the hosts.  A driver is a record of operations whose outcomes may
    depend on everything called before, so a theorem about the run holds for every
    driver.  An error is the text of the code up to its first colon. *)
From S2P Require Import Prelude GoStrings Encoding NetIP Paths Hostnames Config Clip Session SSHConfig Words KnownHosts AuthorizedKeys SSHCommand.
From Stdlib Require Import Ascii String.
From stdpp Require Import strings.

#[local] Arguments String.append !_ _ / : simpl nomatch.

(** ** Hosts *)

Definition SSHServerModeOpenSSH : string := "".

Definition SSHServerModeTailscaleSSH : string := "tailscale_ssh".

Definition NormalizeSSHServerMode (value : string) : result string string :=
  if bool_decide (TrimSpace value = SSHServerModeOpenSSH) then Ok SSHServerModeOpenSSH
  else if bool_decide (TrimSpace value = SSHServerModeTailscaleSSH) then Ok SSHServerModeTailscaleSSH
  else Err "invalid_ssh_server_mode".

Definition ProofVerifiedByForSSHServerMode (mode : string) : string :=
  if bool_decide (mode = SSHServerModeTailscaleSSH) then ProofVerifiedByTailscaleSSH else ProofVerifiedByRegularSSH.

Record DirectPairHost := MkHost {
  dh_ID : string;
  dh_SSHHost : string;
  dh_SSHUser : string;
  dh_SSHPort : Z;
  dh_InstallPath : string;
  dh_GatewayPath : string;
  dh_SSHServerMode : string;
}.

Definition normalizeDirectPairHost (host : DirectPairHost) : result string DirectPairHost :=
  _ ← recode (ValidateHostID (dh_ID host)) "invalid_host_id";
  sshHost ← recode (CanonicalSSHHost (dh_SSHHost host)) "invalid ssh host";
  _ ← recode (ValidateSSHUser (dh_SSHUser host)) "invalid ssh user";
  _ ← ensure (port_ok (dh_SSHPort host)) "invalid ssh port";
  _ ← recode (ValidateSSHExecutablePath (dh_InstallPath host)) "invalid install path";
  _ ← recode (ValidateSSHExecutablePath (dh_GatewayPath host)) "invalid gateway path";
  mode ← NormalizeSSHServerMode (dh_SSHServerMode host);
  Ok (MkHost (dh_ID host) sshHost (dh_SSHUser host) (dh_SSHPort host) (dh_InstallPath host) (dh_GatewayPath host) mode).

(** ** Plans *)

Inductive DirectPairStepKind :=
| StepConfirmHostKey
| StepUpsertKnownHostPin
| StepEnsureConnectorSyncKey
| StepInstallAcceptorAuthorizedKey
| StepProbeForcedCommand
| StepWriteConnectorPeerConfig
| StepWriteAcceptorPeerConfig
| StepPatchDirectionalProofs
| StepTransitionSSHMaterialStaged
| StepTransitionSSHKeysReady.

Record DirectPairStep := MkStep {
  st_Kind : DirectPairStepKind;
  st_ConfigWrite : bool;
}.

Record DirectPairConfigWrite := MkWrite {
  cw_TargetHostID : string;
  cw_PeerID : string;
  cw_SSHHost : string;
  cw_SSHUser : string;
  cw_SSHPort : Z;
  cw_InstallPath : string;
  cw_GatewayPath : string;
  cw_TargetGatewayPath : string;
  cw_Enabled : bool;
  cw_Accept : bool;
  cw_Connect : bool;
  cw_Persistent : bool;
  cw_OnDemand : bool;
  cw_MigrationState : string;
  cw_AcceptVerifiedBy : string;
  cw_ConnectVerifiedBy : string;
}.

Record DirectPairPlan := MkPlan {
  pl_PairID : string;
  pl_ConnectHostID : string;
  pl_AcceptHostID : string;
  pl_Steps : list DirectPairStep;
  pl_ConfigWrites : list DirectPairConfigWrite;
}.

Definition reciprocalPeerConfigWrite (target peer : DirectPairHost) : DirectPairConfigWrite :=
  {| cw_TargetHostID := dh_ID target;
     cw_PeerID := dh_ID peer;
     cw_SSHHost := dh_SSHHost peer;
     cw_SSHUser := dh_SSHUser peer;
     cw_SSHPort := dh_SSHPort peer;
     cw_InstallPath := dh_InstallPath peer;
     cw_GatewayPath := dh_GatewayPath peer;
     cw_TargetGatewayPath := dh_GatewayPath target;
     cw_Enabled := true;
     cw_Accept := true;
     cw_Connect := true;
     cw_Persistent := true;
     cw_OnDemand := false;
     cw_MigrationState := MigrationStateLoopbackUnprovisioned;
     cw_AcceptVerifiedBy := ProofVerifiedByForSSHServerMode (dh_SSHServerMode target);
     cw_ConnectVerifiedBy := ProofVerifiedByForSSHServerMode (dh_SSHServerMode peer) |}.

Definition plan_steps : list DirectPairStep :=
  [MkStep StepConfirmHostKey false; MkStep StepUpsertKnownHostPin false; MkStep StepEnsureConnectorSyncKey false;
   MkStep StepInstallAcceptorAuthorizedKey false; MkStep StepProbeForcedCommand false; MkStep StepWriteConnectorPeerConfig true;
   MkStep StepWriteAcceptorPeerConfig true; MkStep StepPatchDirectionalProofs true; MkStep StepTransitionSSHMaterialStaged true;
   MkStep StepTransitionSSHKeysReady true].

Definition BuildDirectPairPlan (Local Remote : DirectPairHost) : result string DirectPairPlan :=
  loc ← recode (normalizeDirectPairHost Local) "invalid local host";
  remote ← recode (normalizeDirectPairHost Remote) "invalid remote host";
  if bool_decide (dh_ID loc = dh_ID remote) then Err "duplicate host id"
  else
    let '(connector, acceptor) := if String.ltb (dh_ID remote) (dh_ID loc) then (remote, loc) else (loc, remote) in
    Ok (MkPlan (dh_ID connector +:+ "--" +:+ dh_ID acceptor) (dh_ID connector) (dh_ID acceptor) plan_steps
      [reciprocalPeerConfigWrite connector acceptor; reciprocalPeerConfigWrite acceptor connector]).

Fixpoint normalize_hosts (hosts : list DirectPairHost) : result string (list DirectPairHost) :=
  match hosts with
  | [] => Ok []
  | host :: hosts => next ← recode (normalizeDirectPairHost host) "invalid host"; rest ← normalize_hosts hosts; Ok (next :: rest)
  end.

Definition less_host (a b : DirectPairHost) : bool := String.ltb (dh_ID a) (dh_ID b).

(** Two neighbours of one ID. *)
Fixpoint adjacent_duplicate (hosts : list DirectPairHost) : bool :=
  match hosts with
  | a :: ((b :: _) as rest) => bool_decide (dh_ID a = dh_ID b) || adjacent_duplicate rest
  | _ => false
  end.

Fixpoint build_with (host : DirectPairHost) (rest : list DirectPairHost) : result string (list DirectPairPlan) :=
  match rest with
  | [] => Ok []
  | other :: rest => plan ← BuildDirectPairPlan host other; plans ← build_with host rest; Ok (plan :: plans)
  end.

Fixpoint build_pairs (hosts : list DirectPairHost) : result string (list DirectPairPlan) :=
  match hosts with
  | [] => Ok []
  | host :: rest => plans ← build_with host rest; more ← build_pairs rest; Ok (plans ++ more)
  end.

(** [sort.Slice] is not stable, but hosts of one ID end the planning whatever their
    order. *)
Definition BuildDirectMeshPlan (hosts : list DirectPairHost) : result string (list DirectPairPlan) :=
  normalized ← normalize_hosts hosts;
  let normalized := stable_sort less_host normalized in
  if adjacent_duplicate normalized then Err "duplicate host id" else build_pairs normalized.

(** ** The provisioner *)

Record DirectPairProvisionHost := MkProvisionHost {
  ph_Host : DirectPairHost;
  ph_AdminHost : DirectPairHost;
  ph_KnownHostsPath : string;
  ph_SyncKeyPath : string;
}.

Record SyncKeyMaterial := MkMaterial {
  sk_PrivateKeyPath : string;
  sk_PublicKey : string;
  sk_KeyID : string;
}.

Record DirectPairConfigMutation := MkMutation {
  mu_Plan : DirectPairPlan;
  mu_Writes : list DirectPairConfigWrite;
  mu_SharedKey : string;
  mu_SyncKeys : gmap string SyncKeyMaterial;
  mu_KnownHostsPaths : gmap string string;
  mu_ConnectorSyncKey : SyncKeyMaterial;
  mu_ConnectorKnownHostsPath : string;
}.

Record DirectPairProvisionResult := MkProvisioned {
  pr_Plan : option DirectPairPlan;
  pr_CompletedSteps : list DirectPairStepKind;
  pr_ConfigWrites : list DirectPairConfigWrite;
  pr_KnownHostPins : gmap string KnownHostPin;
  pr_KnownHostPin : option KnownHostPin;
  pr_SyncKeys : gmap string SyncKeyMaterial;
  pr_ConnectorSyncKey : option SyncKeyMaterial;
}.

Definition no_provision : DirectPairProvisionResult := MkProvisioned None [] [] ∅ None ∅ None.

(** The calls of [DirectPairProvisionDriver]. *)
Inductive DriverCall :=
| CallConfirmHostKey (host : DirectPairHost)
| CallUpsertKnownHostPin (source target : DirectPairHost) (path : string) (pin : KnownHostPin)
| CallEnsureSyncKey (host : DirectPairProvisionHost)
| CallInstallAuthorizedKey (host : DirectPairHost) (key : ManagedAuthorizedKey)
| CallRunProbe (probe : PinnedSSHCommand) (connector : DirectPairProvisionHost) (expectPeerID expectKeyID : string)
| CallWriteConfig (mutation : DirectPairConfigMutation).

(** What the hosts answer, after the calls made so far (the last first). *)
Record Driver := MkDriver {
  dv_ConfirmHostKey : list DriverCall → DirectPairHost → result string string;
  dv_UpsertKnownHostPin : list DriverCall → DirectPairHost → DirectPairHost → string → KnownHostPin → result string ();
  dv_EnsureSyncKey : list DriverCall → DirectPairProvisionHost → result string SyncKeyMaterial;
  dv_InstallAuthorizedKey : list DriverCall → DirectPairHost → ManagedAuthorizedKey → result string ();
  dv_RunProbe : list DriverCall → PinnedSSHCommand → DirectPairProvisionHost → string → string → result string ();
  dv_WriteConfig : list DriverCall → DirectPairConfigMutation → result string ();
}.

Definition SharedKeyIsStandard32Bytes (value : string) : bool :=
  if bool_decide (value = "") then false
  else
    match b64_decode value with
    | Some decoded => (len decoded =? 32)%nat && bool_decide (b64_encode decoded = value)
    | None => false
    end.

Definition validateSyncKeyMaterial (key : SyncKeyMaterial) : result string () :=
  _ ← recode (ValidateSSHExecutablePath (sk_PrivateKeyPath key)) "invalid sync private key path";
  _ ← ensure (ValidateManagedAuthorizedKeyID (sk_KeyID key)) "invalid_authorized_key_id";
  keyType ← recode (publicKeyType (sk_PublicKey key)) "invalid_authorized_key";
  if negb (bool_decide (keyType = managedKeyType)) then Err "invalid_authorized_key" else Ok ().

Definition normalizeDirectPairProvisionHost (host : DirectPairProvisionHost) : result string DirectPairProvisionHost :=
  normalizedHost ← normalizeDirectPairHost (ph_Host host);
  normalizedAdminHost ←
    (if negb (bool_decide (dh_ID (ph_AdminHost host) = "")) then
       admin ← recode (normalizeDirectPairHost (ph_AdminHost host)) "invalid admin host";
       if negb (bool_decide (dh_ID admin = dh_ID normalizedHost)) then Err "admin host id mismatch" else Ok admin
     else Ok normalizedHost);
  _ ← recode (ValidateSSHExecutablePath (ph_KnownHostsPath host)) "invalid known_hosts path";
  _ ← recode (ValidateSyncKeyPath (ph_SyncKeyPath host)) "invalid sync key path";
  _ ← recode (ValidateSSHExecutablePath (ph_SyncKeyPath host)) "invalid sync key ssh path";
  Ok (MkProvisionHost normalizedHost normalizedAdminHost (ph_KnownHostsPath host) (ph_SyncKeyPath host)).

Definition directPairProvisionHostByID (Local Remote : DirectPairProvisionHost) (hostID : string) : result string DirectPairProvisionHost :=
  if bool_decide (hostID = dh_ID (ph_Host Local)) then Ok Local
  else if bool_decide (hostID = dh_ID (ph_Host Remote)) then Ok Remote
  else Err "missing provision host".

Definition knownHostsPathsByHost (hosts : list DirectPairProvisionHost) : gmap string string :=
  foldl (λ out host, <[dh_ID (ph_Host host) := ph_KnownHostsPath host]> out) ∅ hosts.

(** A run: the calls made (the last first) and the result so far, which an error
    leaves as it is. *)
Definition run (A : Type) : Type := list DriverCall * DirectPairProvisionResult → (list DriverCall * DirectPairProvisionResult) * result string A.

#[export] Instance run_ret : MRet run := λ A a s, (s, Ok a).

#[export] Instance run_bind : MBind run := λ A B f m s,
  let '(s, r) := m s in match r with Ok a => f a s | Err e => (s, Err e) end.

Definition fail {A} (e : string) : run A := λ s, (s, Err e).

Definition lift {A} (r : result string A) : run A := λ s, (s, r).

Definition record_result (f : DirectPairProvisionResult → DirectPairProvisionResult) : run () := λ s, ((s.1, f s.2), Ok ()).

Definition results : run DirectPairProvisionResult := λ s, (s, Ok s.2).

Definition call {A} (c : DriverCall) (outcome : list DriverCall → result string A) : run A := λ s, ((c :: s.1, s.2), outcome s.1).

Fixpoint each {X} (l : list X) (f : X → run ()) : run () :=
  match l with
  | [] => mret ()
  | x :: l => _ ← f x; each l f
  end.

Definition complete (kind : DirectPairStepKind) (r : DirectPairProvisionResult) : DirectPairProvisionResult :=
  MkProvisioned (pr_Plan r) (pr_CompletedSteps r ++ [kind]) (pr_ConfigWrites r) (pr_KnownHostPins r) (pr_KnownHostPin r) (pr_SyncKeys r)
    (pr_ConnectorSyncKey r).

Section provision.
Context (driver : Driver).

Definition confirm (acceptorID : string) (target : DirectPairProvisionHost) : run () :=
  let host := ph_Host target in
  line ← call (CallConfirmHostKey host) (λ seen, dv_ConfirmHostKey driver seen host);
  pin ← lift (recode (ParseKnownHostScanLine (dh_SSHHost host) (dh_SSHPort host) line) "invalid_known_host");
  record_result (λ r, MkProvisioned (pr_Plan r) (pr_CompletedSteps r) (pr_ConfigWrites r) (<[dh_ID host := pin]> (pr_KnownHostPins r))
    (if bool_decide (dh_ID host = acceptorID) then Some pin else pr_KnownHostPin r) (pr_SyncKeys r) (pr_ConnectorSyncKey r)).

(** A map read of a missing key gives the zero value. *)
Definition zero_pin : KnownHostPin := MkPin "" "" "".

Definition zero_material : SyncKeyMaterial := MkMaterial "" "" "".

Definition pin_at (source target : DirectPairProvisionHost) : run () :=
  r ← results;
  let pin := default zero_pin (pr_KnownHostPins r !! dh_ID (ph_Host target)) in
  call (CallUpsertKnownHostPin (ph_Host source) (ph_Host target) (ph_KnownHostsPath source) pin)
    (λ seen, dv_UpsertKnownHostPin driver seen (ph_Host source) (ph_Host target) (ph_KnownHostsPath source) pin).

Definition ensure_key (connectorID : string) (host : DirectPairProvisionHost) : run () :=
  key ← call (CallEnsureSyncKey host) (λ seen, dv_EnsureSyncKey driver seen host);
  _ ← lift (validateSyncKeyMaterial key);
  record_result (λ r, MkProvisioned (pr_Plan r) (pr_CompletedSteps r) (pr_ConfigWrites r) (pr_KnownHostPins r) (pr_KnownHostPin r)
    (<[dh_ID (ph_Host host) := key]> (pr_SyncKeys r))
    (if bool_decide (dh_ID (ph_Host host) = connectorID) then Some key else pr_ConnectorSyncKey r)).

Definition install_key (source target : DirectPairProvisionHost) : run () :=
  r ← results;
  let key := default zero_material (pr_SyncKeys r !! dh_ID (ph_Host source)) in
  authKey ← lift (recode (NewManagedAuthorizedKey
    (MkManagedKey (dh_ID (ph_Host source)) (sk_KeyID key) (dh_GatewayPath (ph_Host target)) (sk_PublicKey key))) "invalid_authorized_key");
  call (CallInstallAuthorizedKey (ph_Host target) authKey) (λ seen, dv_InstallAuthorizedKey driver seen (ph_Host target) authKey).

Definition probe_of (source target : DirectPairProvisionHost) (key : SyncKeyMaterial) : PinnedSSHCommand :=
  MkPinned (dh_SSHUser (ph_Host target)) (dh_SSHHost (ph_Host target)) (dh_SSHPort (ph_Host target)) (sk_PrivateKeyPath key)
    (ph_KnownHostsPath source) (dh_GatewayPath (ph_Host target)) (dh_ID (ph_Host source)) (sk_KeyID key)
    (bool_decide (dh_SSHServerMode (ph_Host target) = SSHServerModeTailscaleSSH)).

Definition probe (source target : DirectPairProvisionHost) : run () :=
  r ← results;
  let key := default zero_material (pr_SyncKeys r !! dh_ID (ph_Host source)) in
  call (CallRunProbe (probe_of source target key) source (dh_ID (ph_Host source)) (sk_KeyID key))
    (λ seen, dv_RunProbe driver seen (probe_of source target key) source (dh_ID (ph_Host source)) (sk_KeyID key)).

Definition write_config (plan : DirectPairPlan) (connector acceptor : DirectPairProvisionHost) (sharedKey : string) : run () :=
  r ← results;
  let mutation := MkMutation plan (pl_ConfigWrites plan) sharedKey (pr_SyncKeys r) (knownHostsPathsByHost [connector; acceptor])
    (default zero_material (pr_ConnectorSyncKey r)) (ph_KnownHostsPath connector) in
  call (CallWriteConfig mutation) (λ seen, dv_WriteConfig driver seen mutation).

(** The phases, once the hosts of the plan are known. *)
Definition provision_phases (plan : DirectPairPlan) (connector acceptor : DirectPairProvisionHost) (sharedKey : string) : run () :=
  let directions := [(connector, acceptor); (acceptor, connector)] in
  let hosts := [connector; acceptor] in
  _ ← each directions (λ d, confirm (dh_ID (ph_Host acceptor)) d.2);
  _ ← record_result (complete StepConfirmHostKey);
  _ ← each directions (λ d, pin_at d.1 d.2);
  _ ← record_result (complete StepUpsertKnownHostPin);
  _ ← each hosts (ensure_key (dh_ID (ph_Host connector)));
  _ ← record_result (complete StepEnsureConnectorSyncKey);
  _ ← each directions (λ d, install_key d.1 d.2);
  _ ← record_result (complete StepInstallAcceptorAuthorizedKey);
  _ ← each directions (λ d, probe d.1 d.2);
  _ ← record_result (complete StepProbeForcedCommand);
  _ ← write_config plan connector acceptor sharedKey;
  each (filter (λ s, st_ConfigWrite s = true) (pl_Steps plan)) (λ s, record_result (complete (st_Kind s))).

(** [Provision], for the gate that allows config writes. *)
Definition Provision (gate : bool) (Local Remote : DirectPairProvisionHost) (SharedKey : string) : run () :=
  loc ← lift (recode (normalizeDirectPairProvisionHost Local) "invalid local host");
  remote ← lift (recode (normalizeDirectPairProvisionHost Remote) "invalid remote host");
  plan ← lift (BuildDirectPairPlan (ph_Host loc) (ph_Host remote));
  _ ← record_result (λ _, MkProvisioned (Some plan) [] (pl_ConfigWrites plan) ∅ None ∅ None);
  connector ← lift (directPairProvisionHostByID loc remote (pl_ConnectHostID plan));
  acceptor ← lift (directPairProvisionHostByID loc remote (pl_AcceptHostID plan));
  if negb (SharedKeyIsStandard32Bytes SharedKey) then fail "invalid_shared_key"
  else if negb gate then fail "config_v2_writes_disabled"
  else provision_phases plan connector acceptor SharedKey.
End provision.

(** [Provisioner.Provision]: a provisioner without a driver is not ready.  The calls
    made, in order, the result and the error. *)
Definition run_provision (driver : option Driver) (gate : bool) (Local Remote : DirectPairProvisionHost) (SharedKey : string) :
    list DriverCall * DirectPairProvisionResult * result string () :=
  match driver with
  | None => ([], no_provision, Err "direct_pair_provisioner_not_ready")
  | Some driver => let '((calls, r), outcome) := Provision driver gate Local Remote SharedKey ([], no_provision) in (reverse calls, r, outcome)
  end.

(** ** Sync keys from the config package *)

Section sync_key.
Context `{Crypto}.

(** The result of creating a key: its id may be missing. *)
Record SyncKeyCreateResult := MkCreated {
  kr_PrivateKeyPath : string;
  kr_PublicKey : string;
  kr_KeyID : string;
}.

Definition syncKeyIDFromPublicBlob (blob : string) : string := hex_encode (slice 0 8 (sha256 blob)).

Definition SyncKeyMaterialFromConfig (created : SyncKeyCreateResult) : result string SyncKeyMaterial :=
  match Fields (kr_PublicKey created) with
  | kind :: key :: _ =>
      if negb (bool_decide (kind = managedKeyType)) then Err "invalid_authorized_key"
      else
        blob ← recode (decodeKnownHostPublicKeyBlob key) "invalid_authorized_key";
        let derivedKeyID := syncKeyIDFromPublicBlob blob in
        if negb (bool_decide (kr_KeyID created = "")) && negb (bool_decide (kr_KeyID created = derivedKeyID)) then Err "invalid_authorized_key"
        else
          let material := MkMaterial (kr_PrivateKeyPath created) key derivedKeyID in
          _ ← validateSyncKeyMaterial material;
          Ok material
  | _ => Err "invalid_authorized_key"
  end.
End sync_key.

(** ** Lemmas: plans *)

Lemma normalize_host_Ok host n :
  normalizeDirectPairHost host = Ok n →
  dh_ID n = dh_ID host ∧ ValidateHostID (dh_ID host) = Ok () ∧ CanonicalSSHHost (dh_SSHHost host) = Ok (dh_SSHHost n) ∧
  dh_SSHUser n = dh_SSHUser host ∧ dh_SSHPort n = dh_SSHPort host ∧ dh_GatewayPath n = dh_GatewayPath host.
Proof.
  unfold normalizeDirectPairHost. intros ([] & Hid%recode_Ok & H)%bind_Ok. apply bind_Ok in H as (h & Hh%recode_Ok & H).
  do 4 apply bind_Ok in H as ([] & _ & H). apply bind_Ok in H as (mode & _ & [= <-]). done.
Qed.

Lemma normalize_hosts_ids hosts l : normalize_hosts hosts = Ok l → dh_ID <$> l = dh_ID <$> hosts.
Proof.
  revert l. induction hosts as [|h hosts IH]; intros l; cbn [normalize_hosts]; [by intros [= <-]|].
  intros (n & (Hn & _)%recode_Ok%normalize_host_Ok & (rest & Hr & [= <-])%bind_Ok)%bind_Ok. cbn [fmap list_fmap]. f_equal; [done|]. by apply IH.
Qed.

(** What a plan for two hosts says. *)
Definition plan_of (plan : DirectPairPlan) (a b : string) : Prop :=
  pl_ConnectHostID plan = a ∧ pl_AcceptHostID plan = b ∧ pl_PairID plan = a +:+ "--" +:+ b ∧ pl_Steps plan = plan_steps ∧
  (λ w, (cw_TargetHostID w, cw_PeerID w)) <$> pl_ConfigWrites plan = [(a, b); (b, a)].

Lemma pair_plan_Ok a b plan :
  BuildDirectPairPlan a b = Ok plan →
  dh_ID a ≠ dh_ID b ∧
  if String.ltb (dh_ID b) (dh_ID a) then plan_of plan (dh_ID b) (dh_ID a) else plan_of plan (dh_ID a) (dh_ID b).
Proof.
  unfold BuildDirectPairPlan. intros (l & (Hl & _)%recode_Ok%normalize_host_Ok & (r & (Hr & _)%recode_Ok%normalize_host_Ok & H)%bind_Ok)%bind_Ok.
  rewrite Hl, Hr in H. case_bool_decide as Hne; [done|]. split; [done|].
  destruct (String.ltb (dh_ID b) (dh_ID a)); injection H as <-; unfold plan_of; cbn [pl_ConnectHostID pl_AcceptHostID pl_PairID pl_Steps
    pl_ConfigWrites fmap list_fmap reciprocalPeerConfigWrite cw_TargetHostID cw_PeerID]; rewrite ?Hl, ?Hr; done.
Qed.

Definition pair_ids (plan : DirectPairPlan) : string * string := (pl_ConnectHostID plan, pl_AcceptHostID plan).

Fixpoint all_pairs (ids : list string) : list (string * string) :=
  match ids with [] => [] | a :: rest => ((λ b, (a, b)) <$> rest) ++ all_pairs rest end.

Definition strictly (ids : list string) : Prop := StronglySorted (λ a b, String.ltb a b = true) ids.

Lemma ltb_irrefl a : String.ltb a a = false.
Proof. destruct (String.ltb a a) eqn:E; [|done]. by rewrite (ltb_asym _ _ E) in E. Qed.

Lemma ltb_total a b : String.ltb a b = false → a ≠ b → String.ltb b a = true.
Proof.
  unfold String.ltb. rewrite (Strings.String.compare_antisym b a). destruct (Strings.String.compare a b) eqn:E; cbn [CompOpp]; [|done|done].
  apply Strings.String.compare_eq_iff in E. congruence.
Qed.

Lemma ltb_lt_trans a b c : String.ltb a b = true → String.ltb b c = true → String.ltb a c = true.
Proof.
  intros Hab Hbc. apply ltb_total.
  - apply (ltb_trans a b c); by apply ltb_asym.
  - intros ->. apply ltb_asym in Hab. congruence.
Qed.

Lemma sorted_strict l : ordered less_host l → adjacent_duplicate l = false → strictly (dh_ID <$> l).
Proof.
  intros Hord. induction Hord as [|x l Hl IH Hx]; [constructor|]. intros Hadj. cbn [fmap list_fmap].
  destruct l as [|y l]; [repeat constructor|]. cbn [adjacent_duplicate] in Hadj. apply orb_false_iff in Hadj as [Hxy Hadj]. bool_prop.
  specialize (IH Hadj). constructor; [done|]. apply Forall_cons in Hx as [Hxy' _].
  assert (Hlt : String.ltb (dh_ID x) (dh_ID y) = true) by (apply ltb_total; [exact Hxy'|congruence]).
  cbn [fmap list_fmap] in IH |- *. constructor; [done|]. apply StronglySorted_inv in IH as [_ IH]. eapply Forall_impl; [exact IH|].
  intros z Hz. by eapply ltb_lt_trans.
Qed.

Lemma build_with_ids host rest plans :
  Forall (λ b, String.ltb (dh_ID host) (dh_ID b) = true) rest → build_with host rest = Ok plans →
  Forall2 (λ plan b, plan_of plan (dh_ID host) (dh_ID b)) plans rest.
Proof.
  intros Hlt. revert plans. induction Hlt as [|b rest Hb Hrest IH]; intros plans; cbn [build_with]; [intros [= <-]; constructor|].
  intros (plan & Hplan & (more & Hm & [= <-])%bind_Ok)%bind_Ok. constructor; [|by apply IH].
  apply pair_plan_Ok in Hplan as [_ Hplan]. by rewrite (ltb_asym _ _ Hb) in Hplan.
Qed.

Lemma build_pairs_ids hosts plans :
  strictly (dh_ID <$> hosts) → build_pairs hosts = Ok plans →
  pair_ids <$> plans = all_pairs (dh_ID <$> hosts) ∧ Forall (λ plan, plan_of plan (pl_ConnectHostID plan) (pl_AcceptHostID plan)) plans.
Proof.
  revert plans. induction hosts as [|h hosts IH]; intros plans Hs; cbn [build_pairs]; [by intros [= <-]|].
  intros (ps & Hps & (more & Hm & [= <-])%bind_Ok)%bind_Ok. apply StronglySorted_inv in Hs as [Hs Hh].
  destruct (IH _ Hs Hm) as [IH1 IH2]. cbn [fmap list_fmap all_pairs]. rewrite fmap_app. fold (fmap (M := list) dh_ID hosts).
  assert (H2 : Forall2 (λ plan b, plan_of plan (dh_ID h) (dh_ID b)) ps hosts) by (apply build_with_ids; [by apply Forall_fmap in Hh|done]).
  split.
  - f_equal; [|exact IH1]. clear -H2. rewrite <- list_fmap_compose.
    induction H2 as [|p b ps hs (H1 & H1' & _) H2 IH]; [done|]. cbn [fmap list_fmap]. f_equal; [|exact IH]. unfold pair_ids. by rewrite H1, H1'.
  - apply Forall_app. split; [|done]. clear -H2. induction H2 as [|p b ps hs H1 H2 IH]; [constructor|]. constructor; [|done].
    destruct H1 as (H1 & H1' & H). by rewrite H1, H1'.
Qed.

Lemma all_pairs_spec ids a b : strictly ids → (a, b) ∈ all_pairs ids ↔ a ∈ ids ∧ b ∈ ids ∧ String.ltb a b = true.
Proof.
  induction 1 as [|x ids Hs IH Hx]; cbn [all_pairs]; [by rewrite !elem_of_nil; tauto|].
  rewrite elem_of_app, IH, list_elem_of_fmap, !elem_of_cons. rewrite Forall_forall in Hx. split.
  - intros [(y & [= -> ->] & Hy)|(Ha & Hb & Hlt)]; [|by auto]. auto.
  - intros ([->|Ha] & [->|Hb] & Hlt).
    + by rewrite ltb_irrefl in Hlt.
    + left. by exists b.
    + apply Hx in Ha. by rewrite (ltb_asym _ _ Ha) in Hlt.
    + by right.
Qed.

Lemma strictly_NoDup ids : strictly ids → NoDup ids.
Proof.
  induction 1 as [|x ids Hs IH Hx]; [constructor|]. constructor; [|done]. intros Hin. rewrite Forall_forall in Hx. apply Hx in Hin.
  by rewrite ltb_irrefl in Hin.
Qed.

Lemma all_pairs_NoDup ids : strictly ids → NoDup (all_pairs ids).
Proof.
  intros H. pose proof (strictly_NoDup _ H) as Hnd. induction H as [|x ids Hs IH Hx]; cbn [all_pairs]; [constructor|].
  apply NoDup_cons in Hnd as [Hnin Hnd]. apply NoDup_app. split_and!.
  - apply NoDup_fmap_2; [|done]. by intros ? ? [= ->].
  - intros [a b] (y & [= -> ->] & Hy)%list_elem_of_fmap Hin. apply all_pairs_spec in Hin as (Hin & _); [|done]. done.
  - by apply IH.
Qed.

(** The plan of a mesh has one pair for every two hosts and no other: the host of
    the lesser ID connects, each host writes the other as its peer, and the steps are
    the ten of the plan; a mesh with two hosts of one ID is refused. *)
Theorem mesh_plan_complete hosts plans (Hplan : BuildDirectMeshPlan hosts = Ok plans) :
  NoDup (dh_ID <$> hosts) ∧ NoDup (pair_ids <$> plans) ∧
  (∀ a b, (a, b) ∈ pair_ids <$> plans ↔ a ∈ dh_ID <$> hosts ∧ b ∈ dh_ID <$> hosts ∧ String.ltb a b = true) ∧
  Forall (λ plan, plan_of plan (pl_ConnectHostID plan) (pl_AcceptHostID plan)) plans.
Proof.
  unfold BuildDirectMeshPlan in Hplan. apply bind_Ok in Hplan as (l & Hl%normalize_hosts_ids & Hplan).
  destruct (adjacent_duplicate _) eqn:Hadj; [done|]. pose proof (stable_sort_perm less_host l) as Hperm.
  apply (fmap_Permutation dh_ID) in Hperm. rewrite Hl in Hperm.
  assert (Hs : strictly (dh_ID <$> stable_sort less_host l)).
  { apply sorted_strict; [|done]. apply stable_sort_ordered; intros x y; [intros z; apply ltb_trans|apply ltb_asym]. }
  destruct (build_pairs_ids _ _ Hs Hplan) as [-> Hall]. split_and!; try done.
  - rewrite <- Hperm. by apply strictly_NoDup.
  - by apply all_pairs_NoDup.
  - intros a b. rewrite all_pairs_spec by done. by rewrite Hperm.
Qed.

(** ** Lemmas: runs *)

Inductive CallKind := KConfirm | KPin | KKey | KInstall | KProbe | KWrite.

Definition kind_of (c : DriverCall) : CallKind :=
  match c with
  | CallConfirmHostKey _ => KConfirm
  | CallUpsertKnownHostPin _ _ _ _ => KPin
  | CallEnsureSyncKey _ => KKey
  | CallInstallAuthorizedKey _ _ => KInstall
  | CallRunProbe _ _ _ _ => KProbe
  | CallWriteConfig _ => KWrite
  end.

(** Whether the driver answers a call well, after the calls [seen]. *)
Definition call_ok (driver : Driver) (seen : list DriverCall) (c : DriverCall) : bool :=
  match c with
  | CallConfirmHostKey h => is_ok (dv_ConfirmHostKey driver seen h)
  | CallUpsertKnownHostPin s t p pin => is_ok (dv_UpsertKnownHostPin driver seen s t p pin)
  | CallEnsureSyncKey h => is_ok (dv_EnsureSyncKey driver seen h)
  | CallInstallAuthorizedKey h k => is_ok (dv_InstallAuthorizedKey driver seen h k)
  | CallRunProbe p h a b => is_ok (dv_RunProbe driver seen p h a b)
  | CallWriteConfig m => is_ok (dv_WriteConfig driver seen m)
  end.

Fixpoint all_ok (driver : Driver) (calls : list DriverCall) : Prop :=
  match calls with [] => True | c :: seen => call_ok driver seen c = true ∧ all_ok driver seen end.

(** What a run does: calls and steps completed. *)
Definition event : Type := CallKind + DirectPairStepKind.

Definition calls_of (es : list event) : list CallKind := omap (λ e, match e with inl k => Some k | inr _ => None end) es.

Definition steps_of (es : list event) : list DirectPairStepKind := omap (λ e, match e with inl _ => None | inr s => Some s end) es.

(** A run goes through the events in order: to the end when it succeeds, and then
    every call was answered well; else it stops somewhere, every call but perhaps the
    last answered well. *)
Definition follows (driver : Driver) {A} (es : list event) (m : run A) : Prop :=
  ∀ tr r, all_ok driver tr →
    let '((tr', r'), outcome) := m (tr, r) in
    ∃ new es', tr' = new ++ tr ∧ reverse (kind_of <$> new) = calls_of es' ∧ pr_CompletedSteps r' = pr_CompletedSteps r ++ steps_of es' ∧
      match outcome with
      | Ok _ => es' = es ∧ all_ok driver tr'
      | Err _ => es' `prefix_of` es ∧ (all_ok driver tr' ∨ all_ok driver (tail new ++ tr) ∧ new ≠ [])
      end.

Lemma follows_bind driver {A B} es1 es2 (m : run A) (f : A → run B) :
  follows driver es1 m → (∀ a, follows driver es2 (f a)) → follows driver (es1 ++ es2) (m ≫= f).
Proof.
  intros Hm Hf tr r Htr. specialize (Hm tr r Htr). unfold mbind, run_bind. destruct (m (tr, r)) as [[tr1 r1] [a|e]].
  - destruct Hm as (new1 & es1' & -> & Hk1 & Hs1 & -> & Hok1). specialize (Hf a (new1 ++ tr) r1 Hok1).
    destruct (f a (new1 ++ tr, r1)) as [[tr2 r2] outcome]. destruct Hf as (new2 & es2' & -> & Hk2 & Hs2 & Hout).
    exists (new2 ++ new1), (es1 ++ es2'). rewrite app_assoc. split; [done|].
    unfold calls_of, steps_of in *. rewrite fmap_app, reverse_app, !omap_app, Hk1, Hk2, Hs2, Hs1, app_assoc. split; [done|]. split; [done|].
    destruct outcome as [b|e].
    + destruct Hout as [-> ?]. by rewrite app_assoc in *.
    + destruct Hout as [Hp Hout]. split; [by apply prefix_app|]. destruct Hout as [?|[? ?]]; [left; by rewrite <- app_assoc|right].
      destruct new2; [done|]. cbn [tail app] in *. by rewrite <- app_assoc.
  - destruct Hm as (new1 & es1' & -> & Hk1 & Hs1 & Hp & Hout). exists new1, es1'. split_and!; try done. by apply prefix_app_r.
Qed.

Lemma follows_ret driver {A} (a : A) : follows driver [] (mret a).
Proof. intros tr r Htr. exists [], []. cbn. by rewrite app_nil_r. Qed.

Lemma follows_lift driver {A} (x : result string A) : follows driver [] (lift x).
Proof. intros tr r Htr. exists [], []. cbn. rewrite app_nil_r. split_and!; try done. destruct x; [done|]. split; [done|]. by left. Qed.

Lemma follows_fail driver {A} es e : follows driver (A := A) es (fail e).
Proof. intros tr r Htr. exists [], []. cbn. rewrite app_nil_r. split_and!; try done; [apply prefix_nil|]. by left. Qed.

Lemma follows_results driver : follows driver [] results.
Proof. intros tr r Htr. exists [], []. cbn. by rewrite app_nil_r. Qed.

Lemma follows_record driver f : (∀ r, pr_CompletedSteps (f r) = pr_CompletedSteps r) → follows driver [] (record_result f).
Proof. intros Hf tr r Htr. exists [], []. cbn. by rewrite app_nil_r, Hf. Qed.

Lemma follows_complete driver k : follows driver [inr k] (record_result (complete k)).
Proof. intros tr r Htr. exists [], [inr k]. done. Qed.

Lemma follows_call driver {A} c (outcome : list DriverCall → result string A) :
  (∀ seen, is_ok (outcome seen) = call_ok driver seen c) → follows driver [inl (kind_of c)] (call c outcome).
Proof.
  intros Hc tr r Htr. unfold call. cbn [fst snd]. exists [c], [inl (kind_of c)]. cbn. rewrite app_nil_r. split_and!; try done. specialize (Hc tr).
  destruct (outcome tr) as [a|e]; cbn in Hc; [by rewrite <- Hc|]. split; [done|]. by right.
Qed.

Lemma follows_each driver {X} (l : list X) (f : X → run ()) es : (∀ x, follows driver es (f x)) → follows driver (concat (replicate (length l) es)) (each l f).
Proof.
  intros Hf. induction l as [|x l IH]; cbn [each length replicate concat]; [apply follows_ret|]. apply follows_bind; [done|]. intros []. done.
Qed.

(** The ten calls to the hosts, the write, and the steps as they are completed. *)
Definition provision_events : list event :=
  [inl KConfirm; inl KConfirm; inr StepConfirmHostKey; inl KPin; inl KPin; inr StepUpsertKnownHostPin;
   inl KKey; inl KKey; inr StepEnsureConnectorSyncKey; inl KInstall; inl KInstall; inr StepInstallAcceptorAuthorizedKey;
   inl KProbe; inl KProbe; inr StepProbeForcedCommand; inl KWrite; inr StepWriteConnectorPeerConfig; inr StepWriteAcceptorPeerConfig;
   inr StepPatchDirectionalProofs; inr StepTransitionSSHMaterialStaged; inr StepTransitionSSHKeysReady].

Lemma follows_confirm driver a t : follows driver [inl KConfirm] (confirm driver a t).
Proof.
  apply (follows_bind driver [inl KConfirm] []); [by apply (follows_call driver (CallConfirmHostKey (ph_Host t)))|]. intros line.
  apply (follows_bind driver [] []); [apply follows_lift|]. intros pin. by apply follows_record.
Qed.

Lemma follows_pin driver s t : follows driver [inl KPin] (pin_at driver s t).
Proof.
  apply (follows_bind driver [] [inl KPin]); [apply follows_results|]. intros r.
  by apply (follows_call driver (CallUpsertKnownHostPin (ph_Host s) (ph_Host t) (ph_KnownHostsPath s) _)).
Qed.

Lemma follows_key driver c h : follows driver [inl KKey] (ensure_key driver c h).
Proof.
  apply (follows_bind driver [inl KKey] []); [by apply (follows_call driver (CallEnsureSyncKey h))|]. intros key.
  apply (follows_bind driver [] []); [apply follows_lift|]. intros []. by apply follows_record.
Qed.

Lemma follows_install driver s t : follows driver [inl KInstall] (install_key driver s t).
Proof.
  apply (follows_bind driver [] [inl KInstall]); [apply follows_results|]. intros r.
  apply (follows_bind driver [] [inl KInstall]); [apply follows_lift|]. intros k. by apply (follows_call driver (CallInstallAuthorizedKey (ph_Host t) k)).
Qed.

Lemma follows_probe driver s t : follows driver [inl KProbe] (probe driver s t).
Proof.
  apply (follows_bind driver [] [inl KProbe]); [apply follows_results|]. intros r. by apply (follows_call driver (CallRunProbe _ s _ _)).
Qed.

Lemma follows_write driver plan c a k : follows driver [inl KWrite] (write_config driver plan c a k).
Proof. apply (follows_bind driver [] [inl KWrite]); [apply follows_results|]. intros r. by apply (follows_call driver (CallWriteConfig _)). Qed.

Lemma follows_phases driver plan c a k : pl_Steps plan = plan_steps → follows driver provision_events (provision_phases driver plan c a k).
Proof.
  intros Hsteps. unfold provision_phases. cbv zeta. rewrite Hsteps.
  apply (follows_bind driver [inl KConfirm; inl KConfirm]); [apply (follows_each driver [(c, a); (a, c)] _ [inl KConfirm]); intros d; apply follows_confirm|intros []].
  apply (follows_bind driver [inr StepConfirmHostKey]); [apply follows_complete|intros []].
  apply (follows_bind driver [inl KPin; inl KPin]); [apply (follows_each driver [(c, a); (a, c)] _ [inl KPin]); intros d; apply follows_pin|intros []].
  apply (follows_bind driver [inr StepUpsertKnownHostPin]); [apply follows_complete|intros []].
  apply (follows_bind driver [inl KKey; inl KKey]); [apply (follows_each driver [c; a] _ [inl KKey]); intros h; apply follows_key|intros []].
  apply (follows_bind driver [inr StepEnsureConnectorSyncKey]); [apply follows_complete|intros []].
  apply (follows_bind driver [inl KInstall; inl KInstall]); [apply (follows_each driver [(c, a); (a, c)] _ [inl KInstall]); intros d; apply follows_install|intros []].
  apply (follows_bind driver [inr StepInstallAcceptorAuthorizedKey]); [apply follows_complete|intros []].
  apply (follows_bind driver [inl KProbe; inl KProbe]); [apply (follows_each driver [(c, a); (a, c)] _ [inl KProbe]); intros d; apply follows_probe|intros []].
  apply (follows_bind driver [inr StepProbeForcedCommand]); [apply follows_complete|intros []].
  apply (follows_bind driver [inl KWrite]); [apply follows_write|intros []].
  do 5 (apply (follows_bind driver [inr _]); [apply follows_complete|intros []]). apply follows_ret.
Qed.

Lemma build_plan_steps a b plan : BuildDirectPairPlan a b = Ok plan → pl_Steps plan = plan_steps.
Proof. intros [_ H]%pair_plan_Ok. destruct (String.ltb _ _); by destruct H as (_ & _ & _ & ? & _). Qed.

(** Both orders of two hosts give one plan. *)
Lemma plan_swap a b plan : BuildDirectPairPlan a b = Ok plan → BuildDirectPairPlan b a = Ok plan.
Proof.
  intros H. pose proof (pair_plan_Ok _ _ _ H) as [Hne _]. revert H. unfold BuildDirectPairPlan.
  destruct (normalizeDirectPairHost a) as [na|] eqn:Ha; [|done]. destruct (normalizeDirectPairHost b) as [nb|] eqn:Hb; [|done].
  apply normalize_host_Ok in Ha as (Ha & _). apply normalize_host_Ok in Hb as (Hb & _). cbn [recode mbind result_bind].
  rewrite !bool_decide_eq_false_2 by congruence. destruct (String.ltb (dh_ID nb) (dh_ID na)) eqn:Hlt.
  - by rewrite (ltb_asym _ _ Hlt).
  - apply ltb_total in Hlt; [by rewrite Hlt|]. congruence.
Qed.

(** Before the phases no host is called. *)
Lemma provision_run driver gate L R K :
  let '((tr, r), outcome) := Provision driver gate L R K ([], no_provision) in
  (tr = [] ∧ pr_CompletedSteps r = [] ∧ is_ok outcome = false) ∨
  ∃ plan c a, pl_Steps plan = plan_steps ∧ gate = true ∧ SharedKeyIsStandard32Bytes K = true ∧
    BuildDirectPairPlan (ph_Host c) (ph_Host a) = Ok plan ∧ pl_ConnectHostID plan = dh_ID (ph_Host c) ∧ pl_AcceptHostID plan = dh_ID (ph_Host a) ∧
    (normalizeDirectPairProvisionHost L = Ok c ∧ normalizeDirectPairProvisionHost R = Ok a ∨
     normalizeDirectPairProvisionHost L = Ok a ∧ normalizeDirectPairProvisionHost R = Ok c) ∧
    provision_phases driver plan c a K ([], MkProvisioned (Some plan) [] (pl_ConfigWrites plan) ∅ None ∅ None) = ((tr, r), outcome).
Proof.
  unfold Provision, mbind, run_bind, lift, fail, record_result. destruct (normalizeDirectPairProvisionHost L) as [l|e] eqn:Hl; cbn [recode]; [|by left].
  destruct (normalizeDirectPairProvisionHost R) as [m|e] eqn:Hm; cbn [recode]; [|by left].
  destruct (BuildDirectPairPlan (ph_Host l) (ph_Host m)) as [plan|e] eqn:Hplan; [|by left]. cbn [fst snd].
  pose proof (build_plan_steps _ _ _ Hplan) as Hsteps. pose proof (pair_plan_Ok _ _ _ Hplan) as [Hne Hids]. unfold directPairProvisionHostByID.
  pose proof (plan_swap _ _ _ Hplan) as Hsym.
  destruct (String.ltb (dh_ID (ph_Host m)) (dh_ID (ph_Host l))) eqn:Hlt; destruct Hids as (-> & -> & _).
  - rewrite !(bool_decide_eq_false_2 (dh_ID (ph_Host m) = _)), !bool_decide_eq_true_2 by congruence.
    destruct (SharedKeyIsStandard32Bytes K) eqn:HK; cbn [negb]; [|by left]. destruct gate; cbn [negb]; [|by left].
    destruct (provision_phases _ _ _ _ _ _) as [[tr r] outcome] eqn:Hrun. right. exists plan, m, l.
    pose proof (pair_plan_Ok _ _ _ Hsym) as [_ H]. rewrite (ltb_asym _ _ Hlt) in H. destruct H as (? & ? & _). split_and!; auto.
  - rewrite (bool_decide_eq_true_2 (dh_ID (ph_Host l) = dh_ID (ph_Host l))), (bool_decide_eq_false_2 (dh_ID (ph_Host m) = _)), bool_decide_eq_true_2 by congruence.
    destruct (SharedKeyIsStandard32Bytes K) eqn:HK; cbn [negb]; [|by left]. destruct gate; cbn [negb]; [|by left].
    destruct (provision_phases _ _ _ _ _ _) as [[tr r] outcome] eqn:Hrun. right. exists plan, l, m.
    pose proof (pair_plan_Ok _ _ _ Hplan) as [_ H]. rewrite Hlt in H. destruct H as (? & ? & _). split_and!; auto.
Qed.

Lemma tail_all_ok driver calls : all_ok driver calls → all_ok driver (tail calls).
Proof. by destruct calls as [|c calls]; [|intros [_ ?]]. Qed.

(** C36. Whatever the hosts answer, provisioning a pair goes through its phases in order
    and stops at the first call that fails: both host keys are confirmed, then both
    pinned, both sync keys ensured, both installed, both directions probed, and only
    then the configurations written; a step counts as completed only after all its
    calls, and all ten are when it succeeds. *)
Theorem provision_order driver gate L R K :
  let '(calls, r, outcome) := run_provision (Some driver) gate L R K in
  ∃ es, es `prefix_of` provision_events ∧ kind_of <$> calls = calls_of es ∧ pr_CompletedSteps r = steps_of es ∧
    all_ok driver (tail (reverse calls)) ∧
    (is_ok outcome = true → es = provision_events ∧ all_ok driver (reverse calls) ∧ pr_CompletedSteps r = st_Kind <$> plan_steps).
Proof.
  unfold run_provision. pose proof (provision_run driver gate L R K) as Hrun.
  destruct (Provision driver gate L R K ([], no_provision)) as [[tr r] outcome].
  destruct Hrun as [(-> & Hr & Ho)|(plan & c & a & Hsteps & _ & _ & _ & _ & _ & _ & Hrun)].
  - exists []. rewrite Hr, Ho. split_and!; try done. apply prefix_nil.
  - pose proof (follows_phases driver plan c a K Hsteps [] (MkProvisioned (Some plan) [] (pl_ConfigWrites plan) ∅ None ∅ None) I) as Hf.
    rewrite Hrun in Hf. destruct Hf as (new & es & Htr & Hk & Hs & Hout). rewrite app_nil_r in Htr. subst new. cbn [pr_CompletedSteps app] in Hs.
    exists es. rewrite fmap_reverse, Hk, Hs, reverse_involutive. destruct outcome as [[]|e]; cbn [is_ok].
    + destruct Hout as [-> Hok]. split_and!; try done. by apply tail_all_ok.
    + destruct Hout as [Hp Hout]. split_and!; try done. destruct Hout as [?|[? _]]; [by apply tail_all_ok|]. by rewrite app_nil_r in *.
Qed.

(** ** Lemmas: what a run that succeeds did *)

Lemma run_bind_Ok {A B} (m : run A) (f : A → run B) s s' b :
  (m ≫= f) s = (s', Ok b) ↔ ∃ s1 a, m s = (s1, Ok a) ∧ f a s1 = (s', Ok b).
Proof. unfold mbind, run_bind. destruct (m s) as [s1 [a|e]]; naive_solver. Qed.

Lemma confirm_Ok driver acc t tr r s' :
  confirm driver acc t (tr, r) = (s', Ok ()) →
  ∃ line pin, ParseKnownHostScanLine (dh_SSHHost (ph_Host t)) (dh_SSHPort (ph_Host t)) line = Ok pin ∧
    s' = (CallConfirmHostKey (ph_Host t) :: tr,
      MkProvisioned (pr_Plan r) (pr_CompletedSteps r) (pr_ConfigWrites r) (<[dh_ID (ph_Host t) := pin]> (pr_KnownHostPins r))
        (if bool_decide (dh_ID (ph_Host t) = acc) then Some pin else pr_KnownHostPin r) (pr_SyncKeys r) (pr_ConnectorSyncKey r)).
Proof.
  unfold confirm. cbv zeta. intros (s1 & line & Hc & H)%run_bind_Ok. injection Hc as <- _. cbn [fst snd] in H.
  apply run_bind_Ok in H as (s2 & pin & Hp & H). injection Hp as <- Hp%recode_Ok. exists line, pin. split; [done|]. by injection H as <-.
Qed.

Lemma pin_at_Ok driver s t tr r s' :
  pin_at driver s t (tr, r) = (s', Ok ()) →
  s' = (CallUpsertKnownHostPin (ph_Host s) (ph_Host t) (ph_KnownHostsPath s) (default zero_pin (pr_KnownHostPins r !! dh_ID (ph_Host t))) :: tr, r).
Proof. intros (s1 & r1 & [= <- <-] & H)%run_bind_Ok. by injection H as <- _. Qed.

Lemma ensure_key_Ok driver cid h tr r s' :
  ensure_key driver cid h (tr, r) = (s', Ok ()) →
  ∃ key, validateSyncKeyMaterial key = Ok () ∧
    s' = (CallEnsureSyncKey h :: tr,
      MkProvisioned (pr_Plan r) (pr_CompletedSteps r) (pr_ConfigWrites r) (pr_KnownHostPins r) (pr_KnownHostPin r)
        (<[dh_ID (ph_Host h) := key]> (pr_SyncKeys r))
        (if bool_decide (dh_ID (ph_Host h) = cid) then Some key else pr_ConnectorSyncKey r)).
Proof.
  unfold ensure_key. intros (s1 & key & Hc & H)%run_bind_Ok. injection Hc as <- _. cbn [fst snd] in H.
  apply run_bind_Ok in H as (s2 & [] & Hp & H). injection Hp as <- Hp. exists key. split; [done|]. by injection H as <-.
Qed.

Lemma install_key_Ok driver s t tr r s' :
  install_key driver s t (tr, r) = (s', Ok ()) →
  let key := default zero_material (pr_SyncKeys r !! dh_ID (ph_Host s)) in
  let entry := MkManagedKey (dh_ID (ph_Host s)) (sk_KeyID key) (dh_GatewayPath (ph_Host t)) (sk_PublicKey key) in
  NewManagedAuthorizedKey entry = Ok entry ∧ s' = (CallInstallAuthorizedKey (ph_Host t) entry :: tr, r).
Proof.
  intros (s1 & r1 & [= <- <-] & H)%run_bind_Ok key entry. apply run_bind_Ok in H as (s2 & e & Hp & H).
  injection Hp as <- Hp%recode_Ok. pose proof Hp as [-> _]%New_entry_ok. split; [done|]. by injection H as <- _.
Qed.

Lemma probe_Ok driver s t tr r s' :
  probe driver s t (tr, r) = (s', Ok ()) →
  let key := default zero_material (pr_SyncKeys r !! dh_ID (ph_Host s)) in
  s' = (CallRunProbe (probe_of s t key) s (dh_ID (ph_Host s)) (sk_KeyID key) :: tr, r).
Proof. intros (s1 & r1 & [= <- <-] & H)%run_bind_Ok. by injection H as <- _. Qed.

Lemma write_config_Ok driver plan c a k tr r s' :
  write_config driver plan c a k (tr, r) = (s', Ok ()) →
  s' = (CallWriteConfig (MkMutation plan (pl_ConfigWrites plan) k (pr_SyncKeys r) (knownHostsPathsByHost [c; a])
    (default zero_material (pr_ConnectorSyncKey r)) (ph_KnownHostsPath c)) :: tr, r).
Proof. intros (s1 & r1 & [= <- <-] & H)%run_bind_Ok. by injection H as <- _. Qed.

Lemma complete_Ok k tr r s' : record_result (complete k) (tr, r) = (s', Ok ()) → s' = (tr, complete k r).
Proof. by intros [= <-]. Qed.

Lemma each2_Ok {X} (f : X → run ()) x y s s' : each [x; y] f s = (s', Ok ()) → ∃ s1, f x s = (s1, Ok ()) ∧ f y s1 = (s', Ok ()).
Proof.
  intros (s1 & [] & Hx & H)%run_bind_Ok. apply run_bind_Ok in H as (s2 & [] & Hy & H). injection H as ->. eauto.
Qed.

(** Recording completed steps makes no call. *)
Lemma records_only (l : list DirectPairStep) tr r tr' r' :
  each l (λ s, record_result (complete (st_Kind s))) (tr, r) = ((tr', r'), Ok ()) → tr' = tr.
Proof.
  revert tr r. induction l as [|x l IH]; intros tr r; [by intros [= <- _]|]. intros (s1 & [] & [= <-] & H)%run_bind_Ok. by apply IH in H.
Qed.

(** The calls of a run that succeeds: what each phase is given comes from the phases
    before it. *)
Definition provision_calls (plan : DirectPairPlan) (c a : DirectPairProvisionHost) (K : string) (pinA pinC : KnownHostPin) (keyC keyA : SyncKeyMaterial) :
    list DriverCall :=
  let idC := dh_ID (ph_Host c) in let idA := dh_ID (ph_Host a) in
  [CallConfirmHostKey (ph_Host a); CallConfirmHostKey (ph_Host c);
   CallUpsertKnownHostPin (ph_Host c) (ph_Host a) (ph_KnownHostsPath c) pinA; CallUpsertKnownHostPin (ph_Host a) (ph_Host c) (ph_KnownHostsPath a) pinC;
   CallEnsureSyncKey c; CallEnsureSyncKey a;
   CallInstallAuthorizedKey (ph_Host a) (MkManagedKey idC (sk_KeyID keyC) (dh_GatewayPath (ph_Host a)) (sk_PublicKey keyC));
   CallInstallAuthorizedKey (ph_Host c) (MkManagedKey idA (sk_KeyID keyA) (dh_GatewayPath (ph_Host c)) (sk_PublicKey keyA));
   CallRunProbe (probe_of c a keyC) c idC (sk_KeyID keyC); CallRunProbe (probe_of a c keyA) a idA (sk_KeyID keyA);
   CallWriteConfig (MkMutation plan (pl_ConfigWrites plan) K (<[idA := keyA]> (<[idC := keyC]> ∅)) (knownHostsPathsByHost [c; a]) keyC (ph_KnownHostsPath c))].

Lemma phases_success driver plan c a K r0 tr r :
  dh_ID (ph_Host c) ≠ dh_ID (ph_Host a) → pr_KnownHostPins r0 = ∅ → pr_SyncKeys r0 = ∅ →
  provision_phases driver plan c a K ([], r0) = ((tr, r), Ok ()) →
  ∃ lineA lineC pinA pinC keyC keyA,
    ParseKnownHostScanLine (dh_SSHHost (ph_Host a)) (dh_SSHPort (ph_Host a)) lineA = Ok pinA ∧
    ParseKnownHostScanLine (dh_SSHHost (ph_Host c)) (dh_SSHPort (ph_Host c)) lineC = Ok pinC ∧
    validateSyncKeyMaterial keyC = Ok () ∧ validateSyncKeyMaterial keyA = Ok () ∧
    reverse tr = provision_calls plan c a K pinA pinC keyC keyA.
Proof.
  intros Hne Hp0 Hk0. unfold provision_phases. cbv zeta.
  intros ([tr1 r1] & [] & ([t1 q1] & (lineA & pinA & HA & H1)%confirm_Ok & (lineC & pinC & HC & H2)%confirm_Ok)%each2_Ok & H)%run_bind_Ok.
  apply run_bind_Ok in H as ([tr2 r2] & [] & Hc%complete_Ok & H).
  apply run_bind_Ok in H as ([tr3 r3] & [] & ([t3 q3] & H3%pin_at_Ok & H4%pin_at_Ok)%each2_Ok & H).
  apply run_bind_Ok in H as ([tr4 r4] & [] & Hc4%complete_Ok & H).
  apply run_bind_Ok in H as ([tr5 r5] & [] & ([t5 q5] & (keyC & HkC & H5)%ensure_key_Ok & (keyA & HkA & H6)%ensure_key_Ok)%each2_Ok & H).
  apply run_bind_Ok in H as ([tr6 r6] & [] & Hc6%complete_Ok & H).
  apply run_bind_Ok in H as ([tr7 r7] & [] & ([t7 q7] & H7%install_key_Ok & H8%install_key_Ok)%each2_Ok & H).
  apply run_bind_Ok in H as ([tr8 r8] & [] & Hc8%complete_Ok & H).
  apply run_bind_Ok in H as ([tr9 r9] & [] & ([t9 q9] & H9%probe_Ok & H10%probe_Ok)%each2_Ok & H).
  apply run_bind_Ok in H as ([tr10 r10] & [] & Hc10%complete_Ok & H).
  apply run_bind_Ok in H as ([tr11 r11] & [] & H11%write_config_Ok & H). cbv zeta in *. cbn [fst snd] in *.
  injection H1 as -> ->. injection H2 as -> ->. injection Hc as -> ->. injection H3 as -> ->. injection H4 as -> ->. injection Hc4 as -> ->.
  injection H5 as -> ->. injection H6 as -> ->. injection Hc6 as -> ->. destruct H7 as [_ H7], H8 as [_ H8]. injection H7 as -> ->.
  injection H8 as -> ->. injection Hc8 as -> ->. injection H9 as -> ->. injection H10 as -> ->. injection Hc10 as -> ->. injection H11 as -> ->.
  exists lineA, lineC, pinA, pinC, keyC, keyA. split_and!; try done.
  assert (Htr : tr = CallWriteConfig _ :: _) by (apply records_only in H; exact H). rewrite Htr.
  cbn [complete pr_KnownHostPins pr_SyncKeys pr_ConnectorSyncKey pr_KnownHostPin pr_Plan pr_CompletedSteps pr_ConfigWrites].
  rewrite Hp0, Hk0. rewrite !lookup_insert_eq, !(lookup_insert_ne _ (dh_ID (ph_Host c)) (dh_ID (ph_Host a))), !(lookup_insert_ne _ (dh_ID (ph_Host a)) (dh_ID (ph_Host c))) by congruence.
  rewrite !lookup_insert_eq, (bool_decide_eq_false_2 (dh_ID (ph_Host a) = dh_ID (ph_Host c))), bool_decide_eq_true_2 by congruence. done.
Qed.

(** A run that succeeds made exactly these eleven calls, in this order: the host of
    the lesser ID connects; each host is given the pin parsed from the line confirmed
    for the other and lets in the key the other ensured, for its own gateway; both
    directions are probed with that pin file, key and gateway; and what is written is
    the plan with those keys. *)
Theorem provision_success driver gate L R K calls r (Hrun : run_provision (Some driver) gate L R K = (calls, r, Ok ())) :
  gate = true ∧ SharedKeyIsStandard32Bytes K = true ∧
  ∃ c a plan lineA lineC pinA pinC keyC keyA,
    (normalizeDirectPairProvisionHost L = Ok c ∧ normalizeDirectPairProvisionHost R = Ok a ∨
     normalizeDirectPairProvisionHost L = Ok a ∧ normalizeDirectPairProvisionHost R = Ok c) ∧
    String.ltb (dh_ID (ph_Host c)) (dh_ID (ph_Host a)) = true ∧ plan_of plan (dh_ID (ph_Host c)) (dh_ID (ph_Host a)) ∧
    ParseKnownHostScanLine (dh_SSHHost (ph_Host a)) (dh_SSHPort (ph_Host a)) lineA = Ok pinA ∧
    ParseKnownHostScanLine (dh_SSHHost (ph_Host c)) (dh_SSHPort (ph_Host c)) lineC = Ok pinC ∧
    validateSyncKeyMaterial keyC = Ok () ∧ validateSyncKeyMaterial keyA = Ok () ∧
    calls = provision_calls plan c a K pinA pinC keyC keyA.
Proof.
  unfold run_provision in Hrun. pose proof (provision_run driver gate L R K) as H.
  destruct (Provision driver gate L R K ([], no_provision)) as [[tr r1] outcome]. injection Hrun as <- <- ->.
  destruct H as [(_ & _ & [=])|(plan & c & a & _ & Hg & HK & Hplan & Hc & Ha & Hnorm & Hph)]. split; [done|]. split; [done|].
  pose proof (pair_plan_Ok _ _ _ Hplan) as [Hne Hp].
  assert (Hlt : String.ltb (dh_ID (ph_Host a)) (dh_ID (ph_Host c)) = false).
  { destruct (String.ltb (dh_ID (ph_Host a)) (dh_ID (ph_Host c))); [|done]. destruct Hp as (Hp & _). congruence. }
  rewrite Hlt in Hp. apply phases_success in Hph as (lineA & lineC & pinA & pinC & keyC & keyA & H); [|done..].
  exists c, a, plan, lineA, lineC, pinA, pinC, keyC, keyA. split_and!; try tauto; by apply ltb_total.
Qed.

(** ** A concrete pair *)

Definition sample_host (id : string) : DirectPairHost := MkHost id (id +:+ ".Local") "me" 22 "/opt/clipfan" "/opt/clipfan" "".

Definition sample_provision (id : string) : DirectPairProvisionHost :=
  MkProvisionHost (sample_host id) (MkHost "" "" "" 0 "" "" "") "/home/me/.ssh/known_hosts" "/home/me/.ssh/clipfan".

(** Hosts that answer everything well. *)
Definition sample_driver : Driver :=
  MkDriver (λ _ h, Ok (dh_SSHHost h +:+ " ssh-ed25519 " +:+ sample_key)) (λ _ _ _ _ _, Ok ())
    (λ _ _, Ok (MkMaterial "/home/me/.ssh/clipfan" sample_key "key-0001")) (λ _ _ _, Ok ()) (λ _ _ _ _ _, Ok ()) (λ _ _, Ok ()).

Definition sample_secret : string := b64_encode (of_bytes (seq 0 32)).

Lemma mesh_plan_complete_witness :
  ∃ plans, BuildDirectMeshPlan (sample_host <$> ["beta"; "alpha"; "gamma"]) = Ok plans ∧
    pair_ids <$> plans = [("alpha", "beta"); ("alpha", "gamma"); ("beta", "gamma")] ∧ NoDup (pair_ids <$> plans).
Proof.
  eexists. split; [vm_compute; reflexivity|]. split; [reflexivity|]. eapply (mesh_plan_complete (sample_host <$> ["beta"; "alpha"; "gamma"])).
  vm_compute. reflexivity.
Defined.

Lemma run_ok_triple {A B} (t : A * B * result string ()) : is_ok t.2 = true → ∃ x y, t = (x, y, Ok ()).
Proof. destruct t as [[x y] [[]|e]]; [by eauto|done]. Qed.

Lemma provision_success_witness :
  ∃ calls r c a plan lineA lineC pinA pinC keyC keyA,
    run_provision (Some sample_driver) true (sample_provision "beta") (sample_provision "alpha") sample_secret = (calls, r, Ok ()) ∧
    String.ltb (dh_ID (ph_Host c)) (dh_ID (ph_Host a)) = true ∧ plan_of plan (dh_ID (ph_Host c)) (dh_ID (ph_Host a)) ∧
    ParseKnownHostScanLine (dh_SSHHost (ph_Host a)) (dh_SSHPort (ph_Host a)) lineA = Ok pinA ∧
    ParseKnownHostScanLine (dh_SSHHost (ph_Host c)) (dh_SSHPort (ph_Host c)) lineC = Ok pinC ∧
    calls = provision_calls plan c a sample_secret pinA pinC keyC keyA.
Proof.
  destruct (run_ok_triple (run_provision (Some sample_driver) true (sample_provision "beta") (sample_provision "alpha") sample_secret)) as (calls & r & Hrun);
    [vm_compute; reflexivity|].
  destruct (provision_success sample_driver true (sample_provision "beta") (sample_provision "alpha") sample_secret calls r Hrun)
    as (_ & _ & c & a & plan & lineA & lineC & pinA & pinC & keyC & keyA & _ & Hlt & Hplan & HA & HC & _ & _ & Hcalls).
  exists calls, r, c, a, plan, lineA, lineC, pinA, pinC, keyC, keyA.
  exact (conj Hrun (conj Hlt (conj Hplan (conj HA (conj HC Hcalls))))).
Defined.
