(* ===== verification/RawJson.v ===== *)
(** * Raw objects and typed configurations: what config/ makes of JSON values

    A [map[string]json.RawMessage] is a map from keys to values; a raw message is
    kept as the value it spells, whose spelling the code never looks at.  Decoding
    into the configuration's structs follows encoding/json: every key that matches a
    field up to case is decoded in turn into what is there already. *)
From S2P Require Import Prelude GoStrings Utf8 Encoding NetIP Json Config.
From Stdlib Require Import Ascii String.
From stdpp Require Import strings.

#[local] Arguments String.append !_ _ / : simpl nomatch.

(** ** Induction on values *)

Lemma json_nested_ind (P : json → Prop)
    (Hnull : P VNull) (Hbool : ∀ b, P (VBool b)) (Hnum : ∀ n, P (VNumber n)) (Hstr : ∀ s, P (VString s))
    (Harr : ∀ l, Forall P l → P (VArray l)) (Hobj : ∀ l, Forall (λ kv, P kv.2) l → P (VObject l)) v : P v.
Proof.
  revert v. fix IH 1. intros [|b|n|s|l|l]; [done..| |].
  - apply Harr. induction l as [|x l IHl]; constructor; [apply IH|exact IHl].
  - apply Hobj. induction l as [|[k x] l IHl]; constructor; [apply IH|exact IHl].
Qed.

(** ** Raw objects *)

Notation raw_object := (gmap string json).

(** Later members replace earlier ones of the same key. *)
Definition raw_of (l : list (string * json)) : raw_object := foldl (λ (m : raw_object) kv, <[kv.1 := kv.2]> m) ∅ l.

(** [json.Marshal] of the map: the keys in order. *)
Definition members (raw : raw_object) : list (string * json) := stable_sort less_key (map_to_list raw).

Definition json_object (raw : raw_object) : json := VObject (members raw).

(** [json.Marshal] of a string: what is not UTF-8 is replaced. *)
Definition json_string (s : string) : json := VString (json_text s).

Definition isJSONNull (v : json) : bool := match v with VNull => true | _ => false end.

(** [json.Unmarshal] into a fresh [map[string]json.RawMessage]; [None] inside: the
    map is nil. *)
Definition unmarshal_object (v : json) : option (option raw_object) :=
  match v with VObject l => Some (Some (raw_of l)) | VNull => Some None | _ => None end.

(** [json.Unmarshal] into a fresh string, a fresh bool and a fresh int. *)
Definition unmarshal_string (v : json) : option string :=
  match v with VString s => Some s | VNull => Some "" | _ => None end.

Definition unmarshal_bool (v : json) : option bool :=
  match v with VBool b => Some b | VNull => Some false | _ => None end.

Definition unmarshal_int (v : json) : option Z :=
  match v with VNumber n => ParseInt n | VNull => Some 0%Z | _ => None end.

(** [json.Unmarshal] into a fresh [[]json.RawMessage]. *)
Definition unmarshal_array (v : json) : option (list json) :=
  match v with VArray l => Some l | VNull => Some [] | _ => None end.

(** [json.Unmarshal] into a fresh [[]map[string]json.RawMessage]; a null element is a
    nil map, which reads as the empty one. *)
Definition unmarshal_objects (v : json) : option (list raw_object) :=
  match v with
  | VArray l => mapM (λ e, default ∅ <$> unmarshal_object e) l
  | VNull => Some []
  | _ => None
  end.

(** Setting a member to a marshalled value, and to one that is there. *)
Notation setRaw raw key value := (<[key := value]> (raw : raw_object)) (only parsing).

Definition setRawPointer (raw : raw_object) (key : string) (value : option json) : raw_object :=
  match value with Some v => <[key := v]> raw | None => raw end.

Definition setRawIf (raw : raw_object) (key : string) (value : json) (include : bool) : raw_object :=
  if include then <[key := value]> raw else delete key raw.

Definition hasRaw (raw : raw_object) (key : string) : bool := bool_decide (is_Some (raw !! key)).

(** ** Decoding into structs *)

(** A field: the values of its key, up to case, one after the other. *)
Definition decode_field {A} (conv : A → json → option A) (name : string) (l : list (string * json)) (cur : A) : option A :=
  foldl (λ acc v, acc ≫= λ a, conv a v) (Some cur) (struct_field name l).

Definition into_string (cur : string) (v : json) : option string :=
  match v with VString s => Some s | VNull => Some cur | _ => None end.

Definition into_bool (cur : bool) (v : json) : option bool :=
  match v with VBool b => Some b | VNull => Some cur | _ => None end.

Definition into_int (cur : Z) (v : json) : option Z :=
  match v with VNumber n => ParseInt n | VNull => Some cur | _ => None end.

Definition into_uint (cur : Z) (v : json) : option Z :=
  match v with VNumber n => Z.of_N <$> ParseUint n | VNull => Some cur | _ => None end.

(** The elements of a slice are decoded into what the slice holds at their index, and
    the slice ends with them.  (What an earlier, longer decoding left behind its end is
    not looked at.) *)
Fixpoint into_elements {A} (conv : A → json → option A) (zero : A) (cur : list A) (l : list json) : option (list A) :=
  match l with
  | [] => Some []
  | v :: l => a ← conv (default zero (head cur)) v; rest ← into_elements conv zero (tail cur) l; Some (a :: rest)
  end.

(** [None]: the slice is nil. *)
Definition into_slice {A} (conv : A → json → option A) (zero : A) (cur : option (list A)) (v : json) : option (option (list A)) :=
  match v with
  | VArray l => Some <$> into_elements conv zero (default [] cur) l
  | VNull => Some None
  | _ => None
  end.

Definition into_struct {A} (decode : A → list (string * json) → option A) (cur : A) (v : json) : option A :=
  match v with VObject l => decode cur l | VNull => Some cur | _ => None end.

(** [None]: the pointer is nil. *)
Definition into_pointer {A} (decode : A → json → option A) (zero : A) (cur : option A) (v : json) : option (option A) :=
  match v with VNull => Some None | _ => Some <$> decode (default zero cur) v end.

Definition decode_SSHProof (cur : SSHProof) (l : list (string * json)) : option SSHProof :=
  ak ← decode_field into_string "accept_key_id" l (AcceptKeyID cur);
  ag ← decode_field into_string "accept_gateway_path" l (AcceptGatewayPath cur);
  at_ ← decode_field into_string "accept_verified_at" l (AcceptVerifiedAt cur);
  ab ← decode_field into_string "accept_verified_by" l (AcceptVerifiedBy cur);
  ck ← decode_field into_string "connect_key_id" l (ConnectKeyID cur);
  cg ← decode_field into_string "connect_gateway_path" l (ConnectGatewayPath cur);
  ct ← decode_field into_string "connect_verified_at" l (ConnectVerifiedAt cur);
  cb ← decode_field into_string "connect_verified_by" l (ConnectVerifiedBy cur);
  Some (MkSSHProof ak ag at_ ab ck cg ct cb).

Definition zero_proof : SSHProof := MkSSHProof "" "" "" "" "" "" "" "".

Definition decode_SSHPeer (cur : SSHPeer) (l : list (string * json)) : option SSHPeer :=
  id ← decode_field into_string "id" l (peer_ID cur);
  host ← decode_field into_string "ssh_host" l (SSHHost cur);
  user ← decode_field into_string "ssh_user" l (SSHUser cur);
  port ← decode_field into_int "ssh_port" l (SSHPort cur);
  install ← decode_field into_string "install_path" l (InstallPath cur);
  gateway ← decode_field into_string "gateway_path" l (GatewayPath cur);
  enabled ← decode_field into_bool "enabled" l (Enabled cur);
  accept ← decode_field into_bool "accept" l (Accept cur);
  connect ← decode_field into_bool "connect" l (Connect cur);
  persistent ← decode_field into_bool "persistent" l (Persistent cur);
  on_demand ← decode_field into_bool "on_demand" l (OnDemand cur);
  state ← decode_field into_string "migration_state" l (MigrationState cur);
  proof ← decode_field (into_struct decode_SSHProof) "proof" l (Proof_ cur);
  Some (MkSSHPeer id host user port install gateway enabled accept connect persistent on_demand state proof).

Definition zero_peer : SSHPeer := MkSSHPeer "" "" "" 0 "" "" false false false false false "" zero_proof.

(** An SSHConfig as Go has it: its peers with whether the slice is nil. *)
Definition go_ssh : Type := SSHConfig * option (list SSHPeer).

Definition decode_SSHConfig (cur : go_ssh) (l : list (string * json)) : option go_ssh :=
  key ← decode_field into_string "sync_key" l (SyncKey cur.1);
  known ← decode_field into_string "known_hosts" l (KnownHosts cur.1);
  sessions ← decode_field into_int "max_sessions" l (MaxSessions cur.1);
  per_peer ← decode_field into_int "max_sessions_per_peer" l (MaxSessionsPerPeer cur.1);
  limit ← decode_field into_int "log_limit_bytes" l (LogLimitBytes cur.1);
  peers ← decode_field (into_slice (into_struct decode_SSHPeer) zero_peer) "peers" l cur.2;
  Some (MkSSHConfig key known sessions per_peer limit (default [] peers), peers).

Definition zero_ssh : go_ssh := (MkSSHConfig "" "" 0 0 0 [], None).

(** A Config as Go has it: with whether its static peers and the peers under ssh are
    slices that are not nil. *)
Record go_config := MkGoConfig {
  gc_config : Config;
  gc_static : bool;
  gc_peers : bool;
}.

(** Into the fields of a fresh Config. *)
Definition decode_Config (l : list (string * json)) : option go_config :=
  version ← decode_field (into_pointer into_int 0%Z) "config_version" l None;
  revision ← decode_field (into_pointer into_uint 0%Z) "config_revision" l None;
  listen ← decode_field into_string "listen" l "";
  shared ← decode_field into_string "shared_key" l "";
  discovery ← decode_field into_string "discovery" l "";
  static ← decode_field (into_slice into_string "") "static_peers" l None;
  hostname ← decode_field into_string "hostname" l "";
  transport ← decode_field into_string "transport" l "";
  ssh ← decode_field (into_pointer (into_struct decode_SSHConfig) zero_ssh) "ssh" l None;
  port ← decode_field into_int "port" l 0%Z;
  history ← decode_field into_int "max_history" l 0%Z;
  Some (MkGoConfig
    (MkConfig version revision listen shared discovery (default [] static) hostname transport (fst <$> ssh) port history)
    (bool_decide (is_Some static)) (bool_decide (is_Some (ssh ≫= snd)))).

#[export] Instance SSHConfig_eq_dec : EqDecision SSHConfig.
Proof. solve_decision. Defined.

(** ** Encoding *)

(** A member left out when it is empty. *)
Definition omit_empty (key : string) (v : json) (empty : bool) : list (string * json) := if empty then [] else [(key, v)].

Definition string_member (key s : string) : list (string * json) := omit_empty key (json_string s) (bool_decide (s = "")).

Definition int_member (key : string) (z : Z) : list (string * json) := omit_empty key (json_int z) (z =? 0)%Z.

Definition bool_member (key : string) (b : bool) : list (string * json) := omit_empty key (VBool b) (negb b).

Definition encode_SSHProof (p : SSHProof) : json :=
  VObject (string_member "accept_key_id" (AcceptKeyID p) ++ string_member "accept_gateway_path" (AcceptGatewayPath p) ++
    string_member "accept_verified_at" (AcceptVerifiedAt p) ++ string_member "accept_verified_by" (AcceptVerifiedBy p) ++
    string_member "connect_key_id" (ConnectKeyID p) ++ string_member "connect_gateway_path" (ConnectGatewayPath p) ++
    string_member "connect_verified_at" (ConnectVerifiedAt p) ++ string_member "connect_verified_by" (ConnectVerifiedBy p)).

(** A struct is never empty: the proof is always there. *)
Definition encode_SSHPeer (p : SSHPeer) : json :=
  VObject ([("id", json_string (peer_ID p))] ++ string_member "ssh_host" (SSHHost p) ++ string_member "ssh_user" (SSHUser p) ++
    int_member "ssh_port" (SSHPort p) ++ string_member "install_path" (InstallPath p) ++ string_member "gateway_path" (GatewayPath p) ++
    bool_member "enabled" (Enabled p) ++ bool_member "accept" (Accept p) ++ bool_member "connect" (Connect p) ++
    bool_member "persistent" (Persistent p) ++ bool_member "on_demand" (OnDemand p) ++
    string_member "migration_state" (MigrationState p) ++ [("proof", encode_SSHProof (Proof_ p))]).

Definition encode_SSHConfig (s : SSHConfig) : json :=
  VObject (string_member "sync_key" (SyncKey s) ++ string_member "known_hosts" (KnownHosts s) ++ int_member "max_sessions" (MaxSessions s) ++
    int_member "max_sessions_per_peer" (MaxSessionsPerPeer s) ++ int_member "log_limit_bytes" (LogLimitBytes s) ++
    omit_empty "peers" (VArray (encode_SSHPeer <$> Peers s)) (bool_decide (Peers s = []))).

(** ** Examples *)

Definition sample_ssh_raw : json :=
  VObject [("Sync_Key", VString "/k"); ("peers", VArray [VObject [("id", VString "a"); ("enabled", VBool true)]]);
    ("PEERS", VArray [VObject [("ssh_port", VNumber "22")]; VNull])].

(** The second spelling of "peers" is decoded over the first. *)
Example decode_twice :
  decode_Config [("ssh", sample_ssh_raw); ("port", VNumber "7")] =
  Some (MkGoConfig (MkConfig None None "" "" "" [] "" "" (Some (MkSSHConfig "/k" "" 0 0 0
    [MkSSHPeer "a" "" "" 22 "" "" true false false false false "" zero_proof; zero_peer])) 7 0) false true).
Proof. vm_compute. reflexivity. Qed.

Example decode_errors :
  decode_Config [("port", VNumber "1.0")] = None ∧ decode_Config [("ssh", VArray [])] = None ∧ decode_Config [("listen", VBool true)] = None.
Proof. repeat split; vm_compute; reflexivity. Qed.

(** ** Lemmas: raw objects *)

Lemma members_perm raw : members raw ≡ₚ map_to_list raw.
Proof. apply stable_sort_perm. Qed.

Lemma elem_of_members raw k v : (k, v) ∈ members raw ↔ raw !! k = Some v.
Proof. rewrite members_perm. apply elem_of_map_to_list. Qed.

Lemma members_NoDup raw : NoDup (members raw).*1.
Proof. rewrite members_perm. apply NoDup_fst_map_to_list. Qed.

Lemma raw_of_snoc l k v : raw_of (l ++ [(k, v)]) = <[k := v]> (raw_of l).
Proof. unfold raw_of. by rewrite foldl_app. Qed.

Lemma raw_of_lookup l k v : NoDup l.*1 → (k, v) ∈ l → raw_of l !! k = Some v.
Proof.
  induction l as [|[k' v'] l IH] using rev_ind; [intros _ H; by apply elem_of_nil in H|]. rewrite fmap_app, raw_of_snoc. cbn [fmap list_fmap fst].
  intros (Hnd & Hnin & _)%NoDup_app [Hin|Hin]%elem_of_app.
  - assert (k ≠ k'). { intros ->. eapply Hnin; [|by left]. by apply (list_elem_of_fmap_2 fst) in Hin. }
    rewrite lookup_insert_ne by done. by apply IH.
  - apply list_elem_of_singleton in Hin. injection Hin as -> ->. by rewrite lookup_insert_eq.
Qed.

Lemma raw_of_elem l k v : raw_of l !! k = Some v → (k, v) ∈ l.
Proof.
  induction l as [|[k' v'] l IH] using rev_ind; [done|]. rewrite raw_of_snoc, elem_of_app. destruct (decide (k = k')) as [->|Hne].
  - rewrite lookup_insert_eq. intros [= ->]. right. by left.
  - rewrite lookup_insert_ne by done. intros H. left. auto.
Qed.

(** A map survives being marshalled and unmarshalled. *)
Lemma raw_of_members raw : raw_of (members raw) = raw.
Proof.
  apply map_eq. intros k. apply option_eq. intros v. split.
  - intros H%raw_of_elem. by apply elem_of_members.
  - intros H. apply raw_of_lookup; [apply members_NoDup|by apply elem_of_members].
Qed.

Lemma unmarshal_json_object raw : unmarshal_object (json_object raw) = Some (Some raw).
Proof. unfold unmarshal_object, json_object. by rewrite raw_of_members. Qed.

Lemma unmarshal_json_objects l : unmarshal_objects (VArray (json_object <$> l)) = Some l.
Proof.
  unfold unmarshal_objects. induction l as [|raw l IH]; [done|]. cbn [fmap list_fmap mapM]. rewrite unmarshal_json_object. cbn [fmap option_fmap option_map default mbind option_bind].
  by rewrite IH.
Qed.

(** ** Lemmas: fields *)

Lemma struct_field_app name l k : struct_field name (l ++ k) = struct_field name l ++ struct_field name k.
Proof. induction l as [|[key v] l IH]; [done|]. cbn [struct_field app]. destruct (EqualFold key name); [|done]. by rewrite IH. Qed.

Lemma struct_field_omit name key v b l :
  struct_field name (omit_empty key v b ++ l) = (if EqualFold key name && negb b then [v] else []) ++ struct_field name l.
Proof. destruct b; cbn [omit_empty app struct_field]; destruct (EqualFold key name); done. Qed.

Lemma struct_field_omit_last name key v b :
  struct_field name (omit_empty key v b) = if EqualFold key name && negb b then [v] else [].
Proof. pose proof (struct_field_omit name key v b []) as H. cbn [struct_field] in H. by rewrite !app_nil_r in H. Qed.

Lemma struct_field_cons name key v l :
  struct_field name ((key, v) :: l) = (if EqualFold key name then [v] else []) ++ struct_field name l.
Proof. cbn [struct_field]. by destruct (EqualFold key name). Qed.

(** No other spelling of a field's name among the keys. *)
Definition plain_key (raw : raw_object) (name : string) : Prop := ∀ k, is_Some (raw !! k) → EqualFold k name = true → k = name.

Lemma struct_field_plain l name :
  NoDup l.*1 → (∀ k v, (k, v) ∈ l → EqualFold k name = true → k = name) → EqualFold name name = true →
  struct_field name l = option_list ((λ x, x.2.2) <$> list_find (λ kv, kv.1 = name) l).
Proof.
  intros Hnd Hplain Hrefl. induction l as [|[k v] l IH]; [done|]. apply NoDup_cons in Hnd as [Hnin Hnd]. cbn [struct_field list_find].
  assert (IH' : struct_field name l = option_list ((λ x, x.2.2) <$> list_find (λ kv, kv.1 = name) l)).
  { apply IH; [done|]. intros k' v' H. apply (Hplain k' v'). by right. }
  destruct (EqualFold k name) eqn:E.
  - assert (k = name) as -> by (apply (Hplain k v); [by left|done]). rewrite decide_True by done. cbn [fmap option_fmap option_map option_list].
    f_equal. rewrite IH'. destruct (list_find _ l) as [[i [k' v']]|] eqn:F; [|done]. apply list_find_Some in F as (F & <- & _).
    exfalso. apply Hnin. apply (list_elem_of_fmap_2 fst l (k', v')). by apply list_elem_of_lookup_2 in F.
  - rewrite decide_False. 2: { intros Hk. cbn [fst] in Hk. congruence. }
    rewrite IH'. destruct (list_find _ l) as [[i [k' v']]|]; done.
Qed.

Lemma struct_field_members raw name :
  plain_key raw name → EqualFold name name = true → struct_field name (members raw) = option_list (raw !! name).
Proof.
  intros Hplain Hrefl. rewrite struct_field_plain; [|apply members_NoDup| |done].
  - destruct (list_find _ _) as [[i [k v]]|] eqn:F; cbn [fmap option_fmap option_map option_list].
    + apply list_find_Some in F as (F & <- & _). apply list_elem_of_lookup_2, elem_of_members in F. cbn [fst snd]. by rewrite F.
    + apply list_find_None in F. destruct (raw !! name) as [v|] eqn:E; [|done]. apply elem_of_members in E. rewrite Forall_forall in F. by destruct (F _ E).
  - intros k v H%elem_of_members. apply Hplain. eauto.
Qed.

(** ** Lemmas: what is encoded is decoded again *)

Definition text_ok (s : string) : Prop := json_text s = s.

Definition int_ok (z : Z) : Prop := (- max_int64 - 1 ≤ z ≤ max_int64)%Z.

Definition proof_ok (p : SSHProof) : Prop :=
  Forall text_ok [AcceptKeyID p; AcceptGatewayPath p; AcceptVerifiedAt p; AcceptVerifiedBy p;
    ConnectKeyID p; ConnectGatewayPath p; ConnectVerifiedAt p; ConnectVerifiedBy p].

Definition peer_ok (p : SSHPeer) : Prop :=
  Forall text_ok [peer_ID p; SSHHost p; SSHUser p; InstallPath p; GatewayPath p; MigrationState p] ∧ int_ok (SSHPort p) ∧ proof_ok (Proof_ p).

Definition ssh_ok (s : SSHConfig) : Prop :=
  Forall text_ok [SyncKey s; KnownHosts s] ∧ Forall int_ok [MaxSessions s; MaxSessionsPerPeer s; LogLimitBytes s] ∧ Forall peer_ok (Peers s).

(** The values of one field against what it decodes to. *)
Lemma decode_string name l s :
  struct_field name l = (if bool_decide (s = "") then [] else [json_string s]) → text_ok s → decode_field into_string name l "" = Some s.
Proof. intros H Hs. unfold decode_field. rewrite H. case_bool_decide as Hd; [by subst|]. cbn. by rewrite Hs. Qed.

Lemma decode_int name l z :
  struct_field name l = (if (z =? 0)%Z then [] else [json_int z]) → int_ok z → decode_field into_int name l 0%Z = Some z.
Proof. intros H Hz. unfold decode_field. rewrite H. destruct (z =? 0)%Z eqn:E; [apply Z.eqb_eq in E; by subst|]. cbn [foldl mbind option_bind into_int json_int]. by rewrite ParseInt_format. Qed.

Lemma decode_bool name l (b : bool) :
  struct_field name l = (if b then [VBool b] else []) → decode_field into_bool name l false = Some b.
Proof. intros H. unfold decode_field. rewrite H. by destruct b. Qed.

(** Compute the fields of an encoded struct. *)
Ltac fields :=
  unfold string_member, int_member, bool_member;
  repeat (rewrite struct_field_omit || rewrite struct_field_omit_last || rewrite struct_field_cons || rewrite struct_field_app);
  repeat match goal with
  | |- context [EqualFold ?a ?b] => let v := eval vm_compute in (EqualFold a b) in change (EqualFold a b) with v
  end; cbn [andb negb app].

Ltac texts := match goal with |- text_ok ?x => match goal with H : Forall text_ok _ |- _ => rewrite Forall_forall in H; apply H; set_solver end end.

Ltac field_string name s := rewrite (decode_string name _ s); [cbn [mbind option_bind]|by (fields; case_bool_decide)|assumption].

Ltac field_int name z := rewrite (decode_int name _ z); [cbn [mbind option_bind]|by (fields; destruct (z =? 0)%Z)|assumption].

Ltac field_bool name b := rewrite (decode_bool name _ b); [cbn [mbind option_bind]|by (fields; destruct b)].

Lemma decode_encode_proof p : proof_ok p → into_struct decode_SSHProof zero_proof (encode_SSHProof p) = Some p.
Proof.
  intros H. destruct p as [a b c d e f g h]. unfold proof_ok in H. cbn in H. unfold encode_SSHProof, into_struct, decode_SSHProof.
  cbn [AcceptKeyID AcceptGatewayPath AcceptVerifiedAt AcceptVerifiedBy ConnectKeyID ConnectGatewayPath ConnectVerifiedAt ConnectVerifiedBy zero_proof].
  rewrite !Forall_cons in H. destruct H as (?&?&?&?&?&?&?&?&_).
  field_string "accept_key_id" a. field_string "accept_gateway_path" b. field_string "accept_verified_at" c. field_string "accept_verified_by" d. field_string "connect_key_id" e. field_string "connect_gateway_path" f. field_string "connect_verified_at" g. field_string "connect_verified_by" h. done.
Qed.

(** A single value of a field. *)
Lemma decode_single {A} (conv : A → json → option A) name l cur v :
  struct_field name l = [v] → decode_field conv name l cur = conv cur v.
Proof. intros H. unfold decode_field. by rewrite H. Qed.

Lemma decode_encode_peer p : peer_ok p → into_struct decode_SSHPeer zero_peer (encode_SSHPeer p) = Some p.
Proof.
  destruct p as [id host user port inst gw en ac co pe od st pr]. intros (H & Hp & Hpr). cbn in H, Hp, Hpr. rewrite !Forall_cons in H. destruct H as (?&?&?&?&?&?&_).
  unfold encode_SSHPeer, into_struct, decode_SSHPeer.
  cbn [peer_ID SSHHost SSHUser SSHPort InstallPath GatewayPath Enabled Accept Connect Persistent OnDemand MigrationState Proof_ zero_peer].
  rewrite (decode_single into_string "id" _ _ (json_string id)) by (by fields). cbn [into_string json_string mbind option_bind].
  replace (json_text id) with id by done.
  field_string "ssh_host" host. field_string "ssh_user" user. field_int "ssh_port" port. field_string "install_path" inst. field_string "gateway_path" gw. field_bool "enabled" en. field_bool "accept" ac. field_bool "connect" co. field_bool "persistent" pe. field_bool "on_demand" od. field_string "migration_state" st.
  rewrite (decode_single _ "proof" _ _ (encode_SSHProof pr)) by (by fields). by rewrite decode_encode_proof.
Qed.

Lemma decode_encode_peers l : Forall peer_ok l → into_elements (into_struct decode_SSHPeer) zero_peer [] (encode_SSHPeer <$> l) = Some l.
Proof.
  induction 1 as [|p l Hp Hl IH]; [done|]. cbn [fmap list_fmap into_elements head default tail]. rewrite decode_encode_peer by done. cbn [mbind option_bind]. by rewrite IH.
Qed.

(** An ssh section written from the struct is read back as it was; the slice of its
    peers is nil when there is none. *)
Lemma decode_encode_ssh s :
  ssh_ok s → into_struct decode_SSHConfig zero_ssh (encode_SSHConfig s) = Some (s, if bool_decide (Peers s = []) then None else Some (Peers s)).
Proof.
  destruct s as [key known n per lim peers]. intros (H & Hi & Hp). cbn in H, Hi, Hp. rewrite !Forall_cons in H. rewrite !Forall_cons in Hi. destruct H as (?&?&_), Hi as (?&?&?&_).
  unfold encode_SSHConfig, into_struct, decode_SSHConfig. cbn [SyncKey KnownHosts MaxSessions MaxSessionsPerPeer LogLimitBytes Peers zero_ssh fst snd].
  field_string "sync_key" key. field_string "known_hosts" known. field_int "max_sessions" n. field_int "max_sessions_per_peer" per. field_int "log_limit_bytes" lim.
  destruct (decide (peers = [])) as [->|Hne].
  - unfold decode_field at 1. fields. done.
  - rewrite bool_decide_eq_false_2 by done. rewrite (decode_single _ "peers" _ _ (VArray (encode_SSHPeer <$> peers))).
    2: { by fields. }
    unfold into_slice, default. rewrite (decode_encode_peers peers) by done. done.
Qed.
