(* ===== verification/JsonText.v ===== *)
(** * Texts written by encoding/json read back

    [parse_print]: a value whose strings are UTF-8, whose numbers are number literals
    and whose nesting is within the scanner's limit is what its text parses to. *)
From S2P Require Import Prelude GoStrings Utf8 Encoding NetIP Auth Json RawJson.
From Stdlib Require Import Ascii String.
From stdpp Require Import strings.

#[local] Arguments String.append !_ _ / : simpl nomatch.

(** ** What survives *)

Definition number_literal (n : string) : bool := bool_decide (scan_number n = Some (n, "")).

Fixpoint json_ok (v : json) : bool :=
  match v with
  | VNull | VBool _ => true
  | VNumber n => number_literal n
  | VString s => valid_utf8 s
  | VArray l => forallb json_ok l
  | VObject l => forallb (λ kv, valid_utf8 kv.1 && json_ok kv.2) l
  end.

Fixpoint json_depth (v : json) : nat :=
  match v with
  | VArray l => S (foldr (λ v, max (json_depth v)) 0 l)
  | VObject l => S (foldr (λ kv, max (json_depth kv.2)) 0 l)
  | _ => 0
  end.

(** ** Strings *)

Definition pushed (p : string) (r : option (string * string)) : option (string * string) := (λ '(raw, rest), (p +:+ raw, rest)) <$> r.

(** A piece the scanner takes whole. *)
Definition piece (p : string) : Prop := ∀ t, scan_string (p +:+ t) = pushed p (scan_string t).

Lemma piece_app p q : piece p → piece q → piece (p +:+ q).
Proof.
  intros Hp Hq t. rewrite sapp_assoc, Hp, Hq. unfold pushed. destruct (scan_string t) as [[raw rest]|]; [|done].
  cbn. by rewrite sapp_assoc.
Qed.

Lemma piece_nil : piece "".
Proof. intros t. cbn [String.append]. unfold pushed. by destruct (scan_string t) as [[]|]. Qed.

(** A property of every byte, by evaluation at each. *)
Definition all_bytes (P : ascii → bool) : bool := forallb (λ n, P (ascii_of_nat n)) (seq 0 256).

Lemma all_bytes_spec P a : all_bytes P = true → P a = true.
Proof.
  unfold all_bytes. intros H. rewrite forallb_forall in H. specialize (H (nat_of_ascii a)). rewrite ascii_nat_embedding in H.
  apply H, in_seq. pose proof (nat_ascii_bounded a). lia.
Qed.

(** The bytes of an escaped byte: one plain byte, a letter after a backslash, or a number. *)
Definition plain_byte (a : ascii) : bool := negb (bool_decide (a = quote_byte)) && negb (bool_decide (a = backslash)) && negb (nat_of_ascii a <? 32).

Definition simple_escape (e : ascii) : bool := bool_decide (e ∈ [quote_byte; backslash; "/"; "b"; "f"; "n"; "r"; "t"]%char).

Definition escaped (a : ascii) (p : string) : bool :=
  match p with
  | String c "" => plain_byte c && bool_decide (c = a)
  | String c (String e "") => bool_decide (c = backslash) && simple_escape e && bool_decide (escape_value e = a)
  | String c (String u (String h1 (String h2 (String h3 (String h4 ""))))) =>
      bool_decide (c = backslash) && bool_decide (u = "u"%char) && forallb (λ h, bool_decide (is_Some (hex_value h))) [h1; h2; h3; h4] &&
      (hex4 h1 h2 h3 h4 <? 128)%Z && bool_decide (byte (hex4 h1 h2 h3 h4) = a)
  | _ => false
  end.

Lemma quote_ascii_escaped a : escaped a (quote_ascii a) = true.
Proof. by apply (all_bytes_spec (λ a, escaped a (quote_ascii a)) a). Qed.

Lemma escaped_cases a p (P : string → Prop) : escaped a p = true →
  (plain_byte a = true → P (String a "")) →
  (∀ e, simple_escape e = true → escape_value e = a → P (String backslash (String e ""))) →
  (∀ h1 h2 h3 h4, forallb (λ h, bool_decide (is_Some (hex_value h))) [h1; h2; h3; h4] = true → (hex4 h1 h2 h3 h4 < 128)%Z →
     byte (hex4 h1 h2 h3 h4) = a → P (String backslash (String "u" (String h1 (String h2 (String h3 (String h4 "")))))))%char → P p.
Proof.
  intros He H1 H2 H3. destruct p as [|c [|e [|h1 [|h2 [|h3 [|h4 [|? ?]]]]]]]; cbn [escaped] in He; try discriminate He.
  - apply andb_true_iff in He as [Hc ->%bool_decide_eq_true]. by apply H1.
  - rewrite !andb_true_iff, !bool_decide_eq_true in He. destruct He as [[-> He] Hv]. by apply H2.
  - rewrite !andb_true_iff, !bool_decide_eq_true in He. destruct He as [[[[-> ->] Hh] Hl%Z.ltb_lt] Hv]. by apply H3.
Qed.

Lemma plain_byte_spec a : plain_byte a = true → a ≠ quote_byte ∧ a ≠ backslash ∧ (nat_of_ascii a <? 32)%nat = false.
Proof. unfold plain_byte. rewrite !andb_true_iff, !negb_true_iff, !bool_decide_eq_false. tauto. Qed.

Lemma escaped_piece a p : escaped a p = true → piece p.
Proof.
  intros He. apply (escaped_cases _ _ piece He).
  - intros (H1 & H2 & H3)%plain_byte_spec t. cbn [String.append scan_string]. rewrite !bool_decide_eq_false_2, H3 by done. unfold pushed.
    by destruct (scan_string t) as [[]|].
  - intros e Hs _ t. assert (e ≠ "u"%char) as Hu by (intros ->; vm_compute in Hs; discriminate Hs).
    cbn [String.append scan_string]. rewrite (bool_decide_eq_false_2 (backslash = quote_byte)) by done.
    rewrite (bool_decide_eq_true_2 (backslash = backslash)) by done. rewrite (bool_decide_eq_false_2 (e = "u"%char)) by done.
    unfold simple_escape in Hs. rewrite Hs. unfold pushed. by destruct (scan_string t) as [[]|].
  - intros h1 h2 h3 h4 Hh _ _ t. cbn [String.append scan_string]. rewrite (bool_decide_eq_false_2 (backslash = quote_byte)) by done.
    rewrite (bool_decide_eq_true_2 (backslash = backslash)), (bool_decide_eq_true_2 ("u"%char = "u"%char)), Hh by done. unfold pushed.
    by destruct (scan_string t) as [[]|].
Qed.

Definition separator (c : ascii) : string := String backslash ("u202" +:+ String c "").

Lemma separator_piece c : c ∈ ["8"; "9"]%char → piece (separator c).
Proof.
  intros Hc t. unfold separator. cbn [String.append scan_string]. rewrite (bool_decide_eq_false_2 (backslash = quote_byte)) by done.
  rewrite (bool_decide_eq_true_2 (backslash = backslash)), (bool_decide_eq_true_2 ("u"%char = "u"%char)) by done.
  rewrite !elem_of_cons in Hc. destruct Hc as [-> |[-> |Hc]]; [| |by apply not_elem_of_nil in Hc];
    (match goal with |- context [forallb ?f ?l] => change (forallb f l) with true end; unfold pushed; by destruct (scan_string t) as [[]|]).
Qed.

Lemma quote_bytes_piece s : piece (quote_bytes s).
Proof.
  induction s as [s IH] using (induction_ltof1 _ len). unfold ltof in IH. destruct s as [|a s']; [apply piece_nil|].
  assert (Hstep : piece (quote_ascii a +:+ quote_bytes s')).
  { apply piece_app; [eapply escaped_piece, quote_ascii_escaped|]. apply IH. unfold len. simpl. lia. }
  destruct s' as [|b [|c s2]]; [exact Hstep|exact Hstep|]. cbn [quote_bytes]. destruct (_ && _) eqn:E; [|exact Hstep].
  apply piece_app; [|apply IH; unfold len; simpl; lia].
  apply (separator_piece (if (nat_of_ascii c =? 168)%nat then "8" else "9")%char). destruct (nat_of_ascii c =? 168)%nat; [by left|by right; left].
Qed.

Lemma quote_bytes_scanned s t : scan_string (quote_bytes s +:+ String quote_byte t) = Some (quote_bytes s, t).
Proof.
  rewrite quote_bytes_piece. cbn [scan_string]. rewrite (bool_decide_eq_true_2 (quote_byte = quote_byte)) by done. unfold pushed. cbn. by rewrite sapp_nil_r.
Qed.

(** ** Unquoting what was quoted *)

Lemma quote_bytes_other a s : nat_of_ascii a ≠ 226 → quote_bytes (String a s) = quote_ascii a +:+ quote_bytes s.
Proof.
  intros Ha. destruct s as [|b [|c s]]; try reflexivity. cbn [quote_bytes]. rewrite bool_decide_eq_false_2; [reflexivity|]. by intros [= H _].
Qed.

Lemma quote_ascii_high a : 128 ≤ nat_of_ascii a → quote_ascii a = String a "".
Proof.
  intros H. assert (Hall : ((nat_of_ascii a <? 128)%nat || String.eqb (quote_ascii a) (String a "")) = true).
  { by apply (all_bytes_spec (λ a, (nat_of_ascii a <? 128)%nat || String.eqb (quote_ascii a) (String a "")) a). }
  apply orb_true_iff in Hall as [Hl%Nat.ltb_lt|He%String.eqb_eq]; [lia|done].
Qed.

Lemma unquote_escaped a p fuel t : nat_of_ascii a < 128 → escaped a p = true → unquote (S fuel) (p +:+ t) = String a (unquote fuel t).
Proof.
  intros Ha He. apply (escaped_cases _ _ (λ p, unquote (S fuel) (p +:+ t) = String a (unquote fuel t)) He).
  - intros (_ & H2 & _)%plain_byte_spec. cbn [String.append unquote]. rewrite (bool_decide_eq_false_2 (a = backslash)) by done.
    assert (rune_width (String a t) = Some 1) as ->; [|cbn; by destruct t].
    cbn [rune_width]. unfold in_range. by rewrite (proj2 (Nat.leb_le 0 _)), (proj2 (Nat.leb_le _ 127)) by lia.
  - intros e Hs Hv. assert (e ≠ "u"%char) as Hu by (intros ->; vm_compute in Hs; discriminate Hs).
    cbn [String.append unquote]. rewrite (bool_decide_eq_true_2 (backslash = backslash)) by done. rewrite Hv.
    destruct e as [[] [] [] [] [] [] [] []]; first [reflexivity | by destruct Hu].
  - intros h1 h2 h3 h4 _ Hl Hb. cbn [String.append unquote]. rewrite (bool_decide_eq_true_2 (backslash = backslash)) by done.
    rewrite (proj2 (Z.leb_gt 55296 _)) by lia. cbn [andb]. unfold encode_rune. rewrite (proj2 (Z.ltb_lt _ 128)) by lia. cbn. by rewrite Hb.
Qed.

Lemma substring_none s : String.substring 0 0 s = "".
Proof. by destruct s. Qed.

Ltac take_bytes := unfold first_bytes; cbn [String.substring]; rewrite ?substring_none; cbn [String.append].

(** The bytes of a rune that is not ASCII are written as they are, the separators excepted. *)
Lemma quote_bytes_rune s w t : rune_width s = Some w → 1 < w →
  (quote_bytes (first_bytes w s +:+ t) = first_bytes w s +:+ quote_bytes t) ∨
  (∃ c, c ∈ [168; 169] ∧ w = 3 ∧ first_bytes w s = of_bytes [226; 128; c] ∧
     quote_bytes (first_bytes w s +:+ t) = separator (if (c =? 168)%nat then "8" else "9")%char +:+ quote_bytes t).
Proof.
  intros Hw H1. assert (Hhigh : ∀ a s, 128 ≤ nat_of_ascii a → nat_of_ascii a ≠ 226 → quote_bytes (String a s) = String a (quote_bytes s)).
  { intros a s' Ha Hne. by rewrite quote_bytes_other, quote_ascii_high. }
  assert (Hcont : ∀ lo a s, 128 ≤ lo → in_range lo 191 a = true → quote_bytes (String a s) = String a (quote_bytes s)).
  { intros lo a s' Hlo. unfold in_range. rewrite andb_true_iff, !Nat.leb_le. intros [Ha Hb]. apply Hhigh; lia. }
  assert (Hsecond : ∀ a b s, second_ok a b = true → quote_bytes (String b s) = String b (quote_bytes s)).
  { intros a b s'. unfold second_ok, cont, in_range. repeat case_match; rewrite andb_true_iff, !Nat.leb_le; intros [Ha Hb]; apply Hhigh; lia. }
  destruct s as [|a [|b [|c [|d s]]]]; cbn [rune_width] in Hw; try discriminate Hw;
    destruct (in_range 0 127 a) eqn:Ea; try discriminate Hw; try (injection Hw as <-; lia).
  all: destruct (in_range 194 223 a) eqn:E2.
  all: try (destruct (cont b) eqn:Eb; [|discriminate Hw]; injection Hw as <-; left; take_bytes;
    unfold in_range in E2; rewrite andb_true_iff, !Nat.leb_le in E2; rewrite Hhigh by lia; by rewrite (Hcont 128 b) by done).
  all: destruct (second_ok a b) eqn:Eb; cbn [negb] in Hw; [|discriminate Hw].
  all: try discriminate Hw.
  all: destruct (in_range 224 239 a) eqn:E3.
  2: discriminate Hw || (destruct (in_range 240 244 a); discriminate Hw).
  3: { destruct (in_range 240 244 a) eqn:E4; [|discriminate Hw]. destruct (cont c && cont d) eqn:Ec; [|discriminate Hw]. injection Hw as <-. left.
    apply andb_true_iff in Ec as [Ec Ed]. take_bytes. unfold in_range in E4. rewrite andb_true_iff, !Nat.leb_le in E4.
    rewrite Hhigh by lia. rewrite (Hsecond a b) by done. rewrite (Hcont 128 c), (Hcont 128 d) by (lia || done). reflexivity. }
  all: destruct (cont c) eqn:Ec; [|discriminate Hw]; injection Hw as <-; take_bytes.
  all: destruct (bool_decide ((nat_of_ascii a, nat_of_ascii b) = (226, 128)) && bool_decide (nat_of_ascii c ∈ [168; 169])) eqn:Es.
  all: unfold in_range in E3; rewrite andb_true_iff, !Nat.leb_le in E3.
  1,3: right; exists (nat_of_ascii c); pose proof Es as [Eab%bool_decide_eq_true Ecc%bool_decide_eq_true]%andb_true_iff; injection Eab as Ea' Eb';
    split_and!; [done|done| |cbn [quote_bytes]; rewrite Es; reflexivity];
    rewrite <- (ascii_nat_embedding a), <- (ascii_nat_embedding b), <- (ascii_nat_embedding c), Ea', Eb';
    rewrite !elem_of_cons in Ecc; destruct Ecc as [-> |[-> |Ecc]]; [reflexivity|reflexivity|by apply not_elem_of_nil in Ecc].
  all: left; assert (quote_bytes (String a (String b (String c t))) = quote_ascii a +:+ quote_bytes (String b (String c t))) as ->
    by (cbn [quote_bytes]; by rewrite Es); rewrite quote_ascii_high by lia; cbn [String.append]; rewrite (Hsecond a b) by done; by rewrite (Hcont 128 c) by done.
Qed.

Lemma len_first_bytes n s : n ≤ len s → len (first_bytes n s) = n.
Proof. intros H. unfold first_bytes. rewrite len_substring. lia. Qed.

Lemma valid_rune s : valid_utf8 s = true → s = "" ∨ ∃ w, rune_width s = Some w ∧ valid_utf8 (drop_bytes w s) = true.
Proof.
  unfold valid_utf8. rewrite bool_decide_eq_true. intros H. destruct s as [|a s]; [by left|right].
  destruct (rune_width (String a s)) as [w|] eqn:Hw.
  - exists w. split; [done|]. apply bool_decide_eq_true. rewrite (json_text_rune _ _ Hw) in H.
    rewrite <- (first_drop w (String a s)) in H at 3. by apply app_inj_l in H.
  - rewrite (json_text_bad _ _ Hw) in H. pose proof (rune_width_app replacement 3 (json_text s) eq_refl) as Hr.
    change (first_bytes 3 replacement) with replacement in Hr. by rewrite H, Hw in Hr.
Qed.

Lemma unquote_quoted s : valid_utf8 s = true → ∀ fuel, len (quote_bytes s) ≤ fuel → unquote fuel (quote_bytes s) = s.
Proof.
  induction s as [s IH] using (induction_ltof1 _ len). unfold ltof in IH. intros Hv fuel Hf.
  destruct (valid_rune _ Hv) as [->|(w & Hw & Hd)]; [by destruct fuel|]. pose proof (rune_width_pos _ _ Hw) as Hpos.
  assert (Hrest : ∀ fuel, len (quote_bytes (drop_bytes w s)) ≤ fuel → unquote fuel (quote_bytes (drop_bytes w s)) = drop_bytes w s).
  { apply IH; [rewrite len_drop_bytes; lia|done]. }
  pose proof (first_drop w s) as Hs. rewrite <- Hs in Hf |- *. destruct (decide (w = 1)) as [->|Hne].
  - destruct s as [|a s']; [cbn in Hpos; lia|]. cbn [drop_bytes] in *. revert Hf Hrest Hw. take_bytes. intros Hf Hrest Hw.
    assert (Ha : nat_of_ascii a < 128).
    { cbn [rune_width] in Hw. destruct (in_range 0 127 a) eqn:E; [|repeat case_match; discriminate Hw].
      unfold in_range in E. rewrite andb_true_iff, !Nat.leb_le in E. lia. }
    rewrite quote_bytes_other in Hf |- * by lia. rewrite len_app in Hf. pose proof (quote_ascii_escaped a) as He.
    assert (0 < len (quote_ascii a)) by (destruct (quote_ascii a); [discriminate He|unfold len; simpl; lia]).
    destruct fuel as [|fuel]; [lia|]. rewrite (unquote_escaped a) by done. f_equal. apply Hrest. lia.
  - assert (Hkeep : ∀ fuel, len (first_bytes w s +:+ quote_bytes (drop_bytes w s)) ≤ fuel →
      unquote fuel (first_bytes w s +:+ quote_bytes (drop_bytes w s)) = first_bytes w s +:+ drop_bytes w s).
    { intros f Hlen. rewrite len_app, len_first_bytes in Hlen by lia. destruct f as [|f]; [lia|].
      pose proof (rune_width_app _ _ (quote_bytes (drop_bytes w s)) Hw) as Hw'. pose proof (first_first w s (quote_bytes (drop_bytes w s)) ltac:(lia)) as Hff.
      pose proof (drop_first w s (quote_bytes (drop_bytes w s)) ltac:(lia)) as Hdf.
      destruct (first_bytes w s +:+ quote_bytes (drop_bytes w s)) as [|a k] eqn:Ek; [discriminate Hw'|]. cbn [unquote].
      rewrite bool_decide_eq_false_2; [|intros ->; cbn in Hw'; by injection Hw' as <-]. rewrite Hw', Hff, Hdf. f_equal. apply Hrest. lia. }
    destruct (quote_bytes_rune s w (drop_bytes w s) Hw ltac:(lia)) as [Hq|(c & Hc & H3 & Hfb & Hq)]; rewrite Hq in Hf |- *; [by apply Hkeep|].
    rewrite Hfb. rewrite !elem_of_cons in Hc. rewrite len_app in Hf. unfold len in Hf at 1.
    destruct fuel as [|fuel]; [cbn in Hf; lia|].
    destruct Hc as [-> |[-> |Hc]]; [| |by apply not_elem_of_nil in Hc]; cbn in Hf;
      (match goal with |- unquote _ (separator ?c +:+ ?t) = _ =>
         change (unquote (S fuel) (separator c +:+ t)) with (encode_rune (hex4 "2" "0" "2" c) +:+ unquote fuel t) end;
       rewrite Hrest by lia; reflexivity).
Qed.

(** ** Numbers *)

(** What follows a value in a text. *)
Definition stops (rest : string) : Prop := rest = "" ∨ ∃ a r, rest = String a r ∧ a ∈ [","; "]"; "}"]%char.

Lemma scan_digits_app rest s d r : stops rest → scan_digits s = (d, r) → scan_digits (s +:+ rest) = (d, r +:+ rest).
Proof.
  intros Hstop. revert d r. induction s as [|a s IH]; intros d r; cbn [scan_digits String.append].
  - intros [= <- <-]. destruct Hstop as [->|(a & t & -> & Ha)]; [done|]. cbn [scan_digits String.append].
    rewrite !elem_of_cons in Ha. destruct Ha as [-> |[-> |[-> |Ha]]]; [done|done|done|by apply not_elem_of_nil in Ha].
  - destruct (is_digit a).
    + destruct (scan_digits s) as [d' r'] eqn:E. intros [= <- <-]. by rewrite (IH _ _ eq_refl).
    + by intros [= <- <-].
Qed.

Lemma stops_not c rest : c ∉ [","; "]"; "}"]%char → stops rest → ∀ r, rest ≠ String c r.
Proof. intros Hc [->|(a & t & -> & Ha)] r; [done|]. by intros [= -> _]. Qed.

Lemma scan_fraction_app rest s d r : stops rest → scan_fraction s = Some (d, r) → scan_fraction (s +:+ rest) = Some (d, r +:+ rest).
Proof.
  intros Hstop. destruct s as [|a s].
  - cbn. intros [= <- <-]. destruct Hstop as [->|(a & t & -> & Ha)]; [done|]. rewrite !elem_of_cons in Ha.
    destruct Ha as [-> |[-> |[-> |Ha]]]; [done|done|done|by apply not_elem_of_nil in Ha].
  - cbn [String.append]. destruct (decide (a = "."%char)) as [->|Hne].
    + cbn [scan_fraction]. destruct (scan_digits s) as [d' r'] eqn:E. rewrite (scan_digits_app _ _ _ _ Hstop E).
      case_bool_decide; [done|]. by intros [= <- <-].
    + assert (Hk : ∀ t, scan_fraction (String a t) = Some ("", String a t)).
      { intros t. destruct a as [[] [] [] [] [] [] [] []]; try reflexivity. by destruct Hne. }
      rewrite !Hk. by intros [= <- <-].
Qed.

Lemma scan_exponent_app rest s d r : stops rest → scan_exponent s = Some (d, r) → scan_exponent (s +:+ rest) = Some (d, r +:+ rest).
Proof.
  intros Hstop. destruct s as [|a s].
  - cbn [scan_exponent String.append]. intros [= <- <-]. destruct Hstop as [->|(a & t & -> & Ha)]; [done|]. rewrite !elem_of_cons in Ha.
    destruct Ha as [-> |[-> |[-> |Ha]]]; [done|done|done|by apply not_elem_of_nil in Ha].
  - cbn [scan_exponent String.append]. destruct (bool_decide (a ∈ ["e"; "E"]%char)); [|by intros [= <- <-]].
    destruct s as [|g s].
    + cbn [scan_digits]. case_bool_decide; done.
    + cbn [String.append]. destruct (bool_decide (g ∈ ["+"; "-"]%char)).
      * destruct (scan_digits s) as [d' r'] eqn:E. rewrite (scan_digits_app _ _ _ _ Hstop E). case_bool_decide; [done|]. by intros [= <- <-].
      * change (String g (s +:+ rest)) with (String g s +:+ rest). destruct (scan_digits (String g s)) as [d' r'] eqn:E. rewrite (scan_digits_app _ (String g s) _ _ Hstop E). case_bool_decide; [done|]. by intros [= <- <-].
Qed.

(** A sign that is there or not, and a first digit that is zero or not. *)
Lemma sign_app s rest : s ≠ "" → (match s +:+ rest with String "-" s1 => ("-", s1) | _ => ("", s +:+ rest) end) =
  (let '(g, s1) := match s with String "-" s1 => ("-", s1) | _ => ("", s) end in (g, s1 +:+ rest)).
Proof. destruct s as [|a s]; [done|]. intros _. cbn [String.append]. by destruct a as [[] [] [] [] [] [] [] []]. Qed.

Definition scan_integer (s : string) : option (string * string) :=
  match s with
  | String "0" s2 => Some ("0", s2)
  | _ => let '(d, r) := scan_digits s in if bool_decide (d = "") then None else Some (d, r)
  end.

Lemma scan_integer_app rest s d r : stops rest → scan_integer s = Some (d, r) → scan_integer (s +:+ rest) = Some (d, r +:+ rest).
Proof.
  intros Hstop Hs. destruct s as [|a s]; [cbn in Hs; by case_bool_decide|]. destruct (decide (a = "0"%char)) as [->|Hne].
  { cbn in Hs |- *. by injection Hs as <- <-. }
  assert (Hk : ∀ t, scan_integer (String a t) = let '(d, r) := scan_digits (String a t) in if bool_decide (d = "") then None else Some (d, r)).
  { intros t. destruct a as [[] [] [] [] [] [] [] []]; try reflexivity. by destruct Hne. }
  cbn [String.append]. rewrite Hk in Hs |- *. change (String a (s +:+ rest)) with (String a s +:+ rest). destruct (scan_digits (String a s)) as [d' r'] eqn:E.
  rewrite (scan_digits_app _ (String a s) _ _ Hstop E). case_bool_decide; [done|]. by injection Hs as <- <-.
Qed.

Lemma scan_number_app rest n d r : stops rest → scan_number n = Some (d, r) → scan_number (n +:+ rest) = Some (d, r +:+ rest).
Proof.
  intros Hstop Hn. assert (n ≠ "") as Hne by (intros ->; vm_compute in Hn; discriminate Hn).
  unfold scan_number in *. rewrite sign_app by done. destruct (match n with String "-" s1 => ("-", s1) | _ => ("", n) end) as [g s1].
  cbv zeta iota beta in *. fold (scan_integer s1) in Hn. fold (scan_integer (s1 +:+ rest)).
  destruct (scan_integer s1) as [[int s2]|] eqn:Ei; [|discriminate Hn]. rewrite (scan_integer_app _ _ _ _ Hstop Ei). cbn [mbind option_bind] in *.
  destruct (scan_fraction s2) as [[frac s3]|] eqn:Ef; [|discriminate Hn]. rewrite (scan_fraction_app _ _ _ _ Hstop Ef). cbn [mbind option_bind] in *.
  destruct (scan_exponent s3) as [[exp s4]|] eqn:Ee; [|discriminate Hn]. rewrite (scan_exponent_app _ _ _ _ Hstop Ee). cbn [mbind option_bind] in *.
  by injection Hn as <- <-.
Qed.

(** ** Values *)

Definition number_head (a : ascii) : bool := is_digit a || bool_decide (a = "-"%char).

Lemma scan_number_head n d r : scan_number n = Some (d, r) → ∃ a t, n = String a t ∧ number_head a = true.
Proof.
  destruct n as [|a t]; [intros H; vm_compute in H; discriminate H|]. intros H. exists a, t. split; [done|]. unfold number_head.
  destruct (is_digit a) eqn:E; [done|]. destruct (decide (a = "-"%char)) as [->|Hne]; [by rewrite bool_decide_eq_true_2|].
  assert (a ≠ "0"%char) as H0 by (by intros ->).
  unfold scan_number in H. assert ((match String a t with String "-" s1 => ("-", s1) | _ => ("", String a t) end) = ("", String a t)) as Hs.
  { destruct a as [[] [] [] [] [] [] [] []]; try reflexivity. by destruct Hne. }
  rewrite Hs in H. cbv iota beta in H. fold (scan_integer (String a t)) in H. assert (scan_integer (String a t) = None) as Hi.
  { unfold scan_integer. cbn [scan_digits]. rewrite E. destruct a as [[] [] [] [] [] [] [] []]; try reflexivity. by destruct H0. }
  rewrite Hi in H. discriminate H.
Qed.

(** The first byte of a value's text is no space and ends no list. *)
Definition head_ok (a : ascii) : bool := negb (is_space a) && negb (bool_decide (a ∈ ["]"; "}"]%char)).

Lemma print_head v : json_ok v = true → ∃ a t, print v = String a t ∧ head_ok a = true.
Proof.
  destruct v as [|[]|n|s|l|l]; cbn [json_ok print]; intros Hok; try (eexists _, _; split; [reflexivity|vm_compute; reflexivity]).
  apply bool_decide_eq_true in Hok. apply scan_number_head in Hok as (a & t & -> & Ha). exists a, t. split; [done|].
  revert Ha. apply implb_true_iff. apply (all_bytes_spec (λ a, implb (number_head a) (head_ok a)) a). vm_compute. reflexivity.
Qed.

Lemma head_ok_spec a : head_ok a = true → is_space a = false ∧ a ≠ "]"%char ∧ a ≠ "}"%char.
Proof.
  unfold head_ok. rewrite andb_true_iff, !negb_true_iff, bool_decide_eq_false, !elem_of_cons. naive_solver.
Qed.

Lemma skip_char a t : is_space a = false → skip_space (String a t) = String a t.
Proof. intros H. cbn [skip_space]. by rewrite H. Qed.

Lemma skip_head a t : head_ok a = true → skip_space (String a t) = String a t.
Proof. intros (H & _ & _)%head_ok_spec. by apply skip_char. Qed.

Lemma parse_number n fuel depth rest : number_literal n = true → stops rest → parse_value (S fuel) depth (n +:+ rest) = Some (VNumber n, rest).
Proof.
  intros Hn%bool_decide_eq_true Hstop. pose proof (scan_number_app _ _ _ _ Hstop Hn) as Hr. cbn [String.append] in Hr.
  apply scan_number_head in Hn as (a & t & -> & Ha). cbn [parse_value String.append] in *.
  assert (Hall : implb (number_head a) (head_ok a && negb (bool_decide (a ∈ ["{"; "["; quote_byte; "t"; "f"; "n"]%char))) = true).
  { apply (all_bytes_spec (λ a, implb (number_head a) (head_ok a && negb (bool_decide (a ∈ ["{"; "["; quote_byte; "t"; "f"; "n"]%char)))) a). vm_compute. reflexivity. }
  rewrite Ha in Hall. cbn [implb] in Hall. apply andb_true_iff in Hall as [Hh Hno]. rewrite (skip_head _ _ Hh).
  rewrite negb_true_iff, bool_decide_eq_false, !not_elem_of_cons in Hno. destruct Hno as (H1 & H2 & H3 & H4 & H5 & H6 & _).
  rewrite !bool_decide_eq_false_2 by done. unfold HasPrefix. cbn [String.prefix].
  destruct (ascii_dec "t" a) as [<-|]; [done|]. destruct (ascii_dec "f" a) as [<-|]; [done|]. destruct (ascii_dec "n" a) as [<-|]; [done|].
  by rewrite Hr.
Qed.

Lemma parse_quoted s fuel depth rest : valid_utf8 s = true → parse_value (S fuel) depth (quote s +:+ rest) = Some (VString s, rest).
Proof.
  intros Hs. pose proof Hs as Hj%bool_decide_eq_true. unfold quote. rewrite Hj, sapp_assoc. cbn [String.append parse_value].
  rewrite skip_char by reflexivity. rewrite (bool_decide_eq_false_2 (quote_byte = "{"%char)), (bool_decide_eq_false_2 (quote_byte = "["%char)) by done.
  rewrite (bool_decide_eq_true_2 (quote_byte = quote_byte)) by done. cbn [String.append]. rewrite quote_bytes_scanned. cbn [mbind option_bind].
  by rewrite unquote_quoted.
Qed.

Lemma slice_from_prefix p s : slice_from (len p) (p +:+ s) = s.
Proof. unfold slice_from. rewrite len_app. replace (len p + len s - len p)%nat with (len s) by lia. apply substring_app_r. Qed.

Lemma len_cons a s : len (String a s) = S (len s).
Proof. reflexivity. Qed.

Definition print_member (kv : string * json) : string := quote kv.1 +:+ ":" +:+ print kv.2.

(** A value with its text behind it. *)
Definition reads (v : json) : Prop := ∀ fuel depth rest, json_ok v = true → json_depth v ≤ depth → stops rest → 2 * len (print v) ≤ fuel →
  parse_value fuel depth (print v +:+ rest) = Some (v, rest).

Lemma print_nonempty v : json_ok v = true → 0 < len (print v).
Proof. intros (a & t & -> & _)%print_head. rewrite len_cons. lia. Qed.

Lemma len_Join_cons sep s l : len (GoStrings.Join sep (s :: l)) = len s + match l with [] => 0 | _ => len sep + len (GoStrings.Join sep l) end.
Proof. destruct l as [|s' l]; [change (GoStrings.Join sep [s]) with s; lia|]. rewrite Join_cons by done. rewrite !len_app. lia. Qed.

Lemma Join_app_cons sep s l rest : GoStrings.Join sep (s :: l) +:+ rest = s +:+ match l with [] => rest | _ => sep +:+ (GoStrings.Join sep l +:+ rest) end.
Proof. destruct l as [|s' l]; [done|]. rewrite Join_cons by done. by rewrite !sapp_assoc. Qed.

Lemma elements_read l fuel depth rest : l ≠ [] → Forall reads l → forallb json_ok l = true → Forall (λ v, json_depth v ≤ depth) l →
  2 * len (GoStrings.Join "," (map print l)) < fuel →
  parse_elements fuel depth (GoStrings.Join "," (map print l) +:+ String "]" rest) = Some (l, rest).
Proof.
  intros Hne Hr. revert fuel Hne. induction Hr as [|v l Hv Hr IH]; intros fuel Hne Hok Hd Hf; [done|]. cbn [forallb map] in *.
  apply andb_true_iff in Hok as [Hok1 Hok2]. apply Forall_cons in Hd as [Hd1 Hd2]. rewrite len_Join_cons in Hf. rewrite Join_app_cons.
  destruct fuel as [|fuel]; [lia|]. cbn [parse_elements]. destruct l as [|v' l].
  - cbn [map]. rewrite Hv; [|done|done|right; eexists _, _; split; [done|by right; left]|lia]. cbn [mbind option_bind]. by rewrite skip_char by reflexivity.
  - cbn [map] in *. rewrite Hv; [|done|done|right; eexists _, _; split; [reflexivity|by left]|lia]. cbn [mbind option_bind String.append].
    rewrite skip_char by reflexivity. rewrite IH; [done|done|done|done|]. cbn in Hf |- *. pose proof (print_nonempty v Hok1). unfold len in *. cbn in Hf. lia.
Qed.

Lemma members_read l fuel depth rest : l ≠ [] → Forall (λ kv, reads kv.2) l → forallb (λ kv, valid_utf8 kv.1 && json_ok kv.2) l = true →
  Forall (λ kv, json_depth kv.2 ≤ depth) l → 2 * len (GoStrings.Join "," (map print_member l)) < fuel →
  parse_members fuel depth (GoStrings.Join "," (map print_member l) +:+ String "}" rest) = Some (l, rest).
Proof.
  intros Hne Hr. revert fuel Hne. induction Hr as [|[k v] l Hv Hr IH]; intros fuel Hne Hok Hd Hf; [done|]. cbn [forallb map fst snd] in *.
  rewrite !andb_true_iff in Hok. destruct Hok as [[Hk Hok1] Hok2]. apply Forall_cons in Hd as [Hd1 Hd2]. cbn [snd] in *.
  rewrite len_Join_cons in Hf. rewrite Join_app_cons. destruct fuel as [|fuel]; [lia|]. unfold print_member at 1 in Hf. unfold print_member at 1. cbn [fst snd] in *.
  rewrite !sapp_assoc. rewrite !len_app in Hf. pose proof Hk as Hj%bool_decide_eq_true.
  assert (Hq : ∀ t, quote k +:+ t = String quote_byte (quote_bytes k +:+ String quote_byte t)).
  { intros t. unfold quote. rewrite Hj, sapp_assoc. reflexivity. }
  rewrite Hq. cbn [parse_members]. rewrite skip_char by reflexivity. rewrite (bool_decide_eq_true_2 (quote_byte = quote_byte)) by done.
  rewrite quote_bytes_scanned. cbn [mbind option_bind String.append]. rewrite skip_char by reflexivity. rewrite unquote_quoted by done.
  destruct l as [|kv' l].
  - cbn [map]. rewrite Hv; [|done|done|right; eexists _, _; split; [done|by right; right; left]|lia]. cbn [mbind option_bind]. by rewrite skip_char by reflexivity.
  - cbn [map] in *. rewrite Hv; [|done|done|right; eexists _, _; split; [reflexivity|by left]|lia]. cbn [mbind option_bind String.append].
    rewrite skip_char by reflexivity. rewrite IH; [done|done|done|done|]. pose proof (print_nonempty v Hok1). unfold len in *. cbn in Hf |- *. lia.
Qed.

Lemma depth_list {A} (f : A → nat) l : Forall (λ x, f x ≤ foldr (λ x, max (f x)) 0 l) l.
Proof.
  induction l as [|x l IH]; constructor; cbn [foldr]; [lia|]. eapply Forall_impl; [exact IH|]. cbn beta. intros y Hy. lia.
Qed.

Lemma HasPrefix_head a b s t : a ≠ b → HasPrefix (String a s) (String b t) = false.
Proof. intros H. unfold HasPrefix. cbn [String.prefix]. by destruct (ascii_dec b a) as [->|]. Qed.

Ltac literal p rest := cbn [print String.append parse_value]; rewrite skip_char by reflexivity; rewrite !bool_decide_eq_false_2 by done;
  rewrite ?HasPrefix_head by done; let H := fresh in pose proof (HasPrefix_app p rest) as H; cbn [String.append] in H; rewrite H; do 2 f_equal; exact (slice_from_prefix p rest).

Lemma value_reads v : reads v.
Proof.
  induction v as [|b|n|s|l IH|l IH] using json_nested_ind; intros fuel depth rest Hok Hd Hstop Hf;
    (destruct fuel as [|fuel]; [pose proof (print_nonempty _ Hok); lia|]).
  - literal "null" rest.
  - destruct b; [literal "true" rest|literal "false" rest].
  - by apply parse_number.
  - by apply parse_quoted.
  - cbn [print] in *. rewrite !len_app in Hf. unfold len at 1 3 in Hf. cbn [String.length] in Hf. cbn [json_depth] in Hd. destruct depth as [|depth]; [lia|].
    cbn [String.append parse_value]. rewrite skip_char by reflexivity. rewrite (bool_decide_eq_false_2 ("["%char = "{"%char)) by done.
    rewrite (bool_decide_eq_true_2 ("["%char = "["%char)) by done. rewrite sapp_assoc. cbn [String.append]. destruct l as [|v l]; [reflexivity|].
    assert (Hskip : ∃ a t, GoStrings.Join "," (map print (v :: l)) +:+ String "]" rest = String a t ∧ head_ok a = true).
    { cbn [map]. rewrite Join_app_cons. cbn [json_ok forallb] in Hok. apply andb_true_iff in Hok as [(a & t & -> & Ha)%print_head _]. eexists a, _. by split. }
    pose proof (elements_read (v :: l) fuel depth rest ltac:(done) IH Hok) as Hel.
    rewrite Hel; [|eapply Forall_impl; [apply (depth_list json_depth)|]; cbn beta; intros x Hx; lia|lia].
    destruct Hskip as (a & t & -> & Ha). rewrite (skip_head _ _ Ha). destruct (head_ok_spec _ Ha) as (_ & Hne & _).
    destruct a as [[] [] [] [] [] [] [] []]; try reflexivity. by destruct Hne.
  - cbn [print] in *. rewrite !len_app in Hf. unfold len at 1 3 in Hf. cbn [String.length] in Hf. cbn [json_depth] in Hd. destruct depth as [|depth]; [lia|].
    change (map (λ kv, quote kv.1 +:+ ":" +:+ print kv.2) l) with (map print_member l) in *.
    cbn [String.append parse_value]. rewrite skip_char by reflexivity. rewrite (bool_decide_eq_true_2 ("{"%char = "{"%char)) by done.
    rewrite sapp_assoc. cbn [String.append]. destruct l as [|kv l]; [reflexivity|].
    pose proof (members_read (kv :: l) fuel depth rest ltac:(done) IH Hok) as Hel.
    rewrite Hel; [|eapply Forall_impl; [apply (depth_list (λ kv, json_depth kv.2))|]; cbn beta; intros x Hx; lia|lia].
    cbn [map]. rewrite Join_app_cons. unfold print_member at 1, quote. rewrite !sapp_assoc. cbn [String.append]. by rewrite skip_char by reflexivity.
Qed.

(** What json.Marshal writes is read back as it was. *)
Lemma parse_print v : json_ok v = true → json_depth v ≤ maxNestingDepth → parse (print v) = Some v.
Proof.
  intros Hok Hd. unfold parse. pose proof (value_reads v (2 * len (print v) + 2) maxNestingDepth "" Hok Hd ltac:(by left) ltac:(lia)) as H.
  rewrite sapp_nil_r in H. rewrite H. reflexivity.
Qed.
