(* ===== verification/Client.v ===== *)
(** * The HTTP client of the local daemon: transport/client.go

    A call signs a request, hands it to the network and trusts the reply only if it is
    signed for the nonce of the request.  The network is a function [do] on a state of
    its own: what net/http sends and what comes back.  [local_server] is the network on
    whose other end the daemon's server runs (Server); the last theorems are about the
    two together: what the daemon serves is what the client gets, and a clip the
    client gives it is applied once. *)
From S2P Require Import Prelude GoStrings Utf8 Encoding NetIP Clip Nonce Auth Stream Json RawJson JsonText Server.
From Stdlib Require Import Ascii String.
From stdpp Require Import strings.

#[local] Arguments String.append !_ _ / : simpl nomatch.

Record sent_request := MkSent {
  sq_Method : string;
  sq_Host : string;
  sq_Port : Z;
  sq_RequestURI : string;
  sq_Headers : SignedHeaders;
  sq_Body : string;
}.

(** A reply; [rp_BodyErr]: how the body breaks off, after the bytes of [rp_Body]. *)
Record http_reply := MkReply {
  rp_StatusCode : Z;
  rp_AuthVersion : string;
  rp_ResponseSig : string;
  rp_Body : string;
  rp_BodyErr : option string;
}.

Inductive ClientError :=
| ErrLoopbackRequired
| ErrRequestURL
| ErrClientAuth (e : AuthError)
| ErrNetwork (e : string)
| ErrBodyTooLarge
| ErrStatus (code : Z)
| ErrJSON (e : string).

Definition isLoopbackHost (host : string) : bool :=
  if bool_decide (host = "") then false
  else if EqualFold host "localhost" then true
  else match ParseIP host with Some ip => IsLoopback ip | None => false end.

Definition readLimitedBody (reply : http_reply) (maxBytes : Z) : result ClientError string :=
  if (maxBytes <? Z.of_nat (len (rp_Body reply)))%Z then Err ErrBodyTooLarge
  else match rp_BodyErr reply with Some e => Err (ErrNetwork e) | None => Ok (rp_Body reply) end.

Definition maxPeersResponseBytes : Z := (2 ^ 20)%Z.

Section client.
Context `{Crypto} {N : Type} (do : sent_request → N → N * result string http_reply).
Context (time_json : time → result string json) (as_time : json → option (option time)).
Context (auth : option Auth).

(** The headers of a request; [now], [rand]: the clock and the random bytes.  Of the
    URLs of a loopback host only those with a negative port do not parse. *)
Definition request_to (now : time) (rand : option string) (method host : string) (port : Z) (target body : string) : result ClientError sent_request :=
  if (port <? 0)%Z then Err ErrRequestURL
  else
    match SignedRequestHeaders auth now rand method target body (MkSignedRequestOptions zero_time "" AuthVersionRequestHMAC) with
    | Err e => Err (ErrClientAuth e)
    | Ok headers => Ok (MkSent method host port target headers body)
    end.

(** What is made of a reply: a body of the size allowed, a good status, a signature. *)
Definition read_reply (request : sent_request) (maxBytes : Z) (reply : http_reply) : result ClientError string :=
  body ← readLimitedBody reply maxBytes;
  if negb (Z.quot (rp_StatusCode reply) 100 =? 2)%Z then Err (ErrStatus (rp_StatusCode reply))
  else
    let authVersion := if bool_decide (rp_AuthVersion reply = "") then h_authVersion (sq_Headers request) else rp_AuthVersion reply in
    match VerifyResponseWithAuthVersion auth (h_nonce (sq_Headers request)) body (rp_ResponseSig reply) authVersion with
    | Err e => Err (ErrClientAuth e)
    | Ok _ => Ok body
    end.

Definition exchange (now : time) (rand : option string) (method host : string) (port : Z) (target body : string) (maxBytes : Z) (n : N) :
    N * result ClientError string :=
  match request_to now rand method host port target body with
  | Err e => (n, Err e)
  | Ok request =>
      let '(n, r) := do request n in
      (n, match r with Err e => Err (ErrNetwork e) | Ok reply => read_reply request maxBytes reply end)
  end.

Definition signedLoopbackGet (now : time) (rand : option string) (host : string) (port : Z) (target : string) (maxBytes : Z) (n : N) :
    N * result ClientError string :=
  if negb (isLoopbackHost host) then (n, Err ErrLoopbackRequired) else exchange now rand "GET" host port target "" maxBytes n.

Definition Peers (now : time) (rand : option string) (host : string) (port : Z) (n : N) : N * result ClientError string :=
  signedLoopbackGet now rand host port "/v1/peers" maxPeersResponseBytes n.

Definition Current (now : time) (rand : option string) (host : string) (port : Z) (n : N) : N * result ClientError CurrentPayload :=
  if negb (isLoopbackHost host) then (n, Err ErrLoopbackRequired)
  else
    let '(n, r) := exchange now rand "GET" host port "/v1/current" "" MaxSSHStreamFrameBytes n in
    (n, body ← r; match decode_current as_time body with Some payload => Ok payload | None => Err (ErrJSON "unmarshal") end).

Definition ApplyCurrent (now : time) (rand : option string) (host : string) (port : Z) (content : Content) (origin : string) (n : N) :
    N * result ClientError () :=
  if negb (isLoopbackHost host) then (n, Err ErrLoopbackRequired)
  else
    match current_json time_json (CurrentPayloadFromContent content origin) with
    | Err e => (n, Err (ErrJSON e))
    | Ok v =>
        let '(n, r) := exchange now rand "POST" host port "/v1/current" (print v) maxPeersResponseBytes n in
        (n, _ ← r; Ok ())
    end.
End client.

(** ** The daemon on the other end *)

Definition path_segments (uri : string) : list string := tail (Split "/" uri).

(** [now]: the server's clock; [remote]: the address it sees. *)
Definition local_server `{Crypto} {W : Type} (time_json : time → result string json) (as_time : json → option (option time))
    (format_rfc3339 : time → string) (s : Server W) (now : time) (remote : string) :
    sent_request → nonceCache * W → (nonceCache * W) * result string http_reply := λ q '(n, w),
  let r := MkRequest (sq_Method q) (path_segments (sq_RequestURI q)) (sq_RequestURI q) [] (sq_Headers q) (sq_Body q) None remote in
  match Handler time_json as_time format_rfc3339 (with_nonces s n) r now w with
  | (Respond resp, n, w) => ((n, w), Ok (MkReply (status resp) (respAuthVersion resp) (respSig resp) (respBody resp) None))
  | (Panic, n, w) => ((n, w), Err "EOF")
  end.

(** ** What a reply must be to be trusted *)

Record trusted `{Crypto} (auth : option Auth) (q : sent_request) (maxBytes : Z) (reply : http_reply) : Prop := {
  tr_status : Z.quot (rp_StatusCode reply) 100 = 2%Z;
  tr_size : (Z.of_nat (len (rp_Body reply)) ≤ maxBytes)%Z;
  tr_whole : rp_BodyErr reply = None;
  tr_signed : ∃ k, requestSigningKey auth (if bool_decide (rp_AuthVersion reply = "") then h_authVersion (sq_Headers q) else rp_AuthVersion reply) = Ok k ∧
    hex_decode (rp_ResponseSig reply) = Some (hmac_sha256 k (canonicalResponseWithAuthVersion (h_nonce (sq_Headers q)) (rp_Body reply)
      (if bool_decide (rp_AuthVersion reply = "") then h_authVersion (sq_Headers q) else rp_AuthVersion reply)));
}.

(** The request of a call: where it goes, and its headers those of [SignedRequestHeaders]. *)
Record signed_call `{Crypto} (auth : option Auth) (now : time) (rand : option string) (method host : string) (port : Z) (body : string) (q : sent_request) : Prop := {
  sc_loopback : isLoopbackHost host = true;
  sc_to : (sq_Method q, sq_Host q, sq_Port q, sq_Body q) = (method, host, port, body);
  sc_headers : SignedRequestHeaders auth now rand method (sq_RequestURI q) body (MkSignedRequestOptions zero_time "" AuthVersionRequestHMAC) = Ok (sq_Headers q);
}.

Section client_facts.
Context `{Crypto} {N : Type} (do : sent_request → N → N * result string http_reply).
Context (time_json : time → result string json) (as_time : json → option (option time)) (auth : option Auth).

Lemma read_reply_Ok q maxBytes reply body :
  read_reply auth q maxBytes reply = Ok body ↔ trusted auth q maxBytes reply ∧ body = rp_Body reply.
Proof.
  unfold read_reply, readLimitedBody. destruct (maxBytes <? _)%Z eqn:Hl; bool_prop.
  { split; [done|]. intros [[_ Hs _ _] _]. lia. }
  destruct (rp_BodyErr reply) as [e|] eqn:He.
  { split; [done|]. intros [[_ _ Hb _] _]. by rewrite Hb in He. }
  cbn [mbind result_bind]. destruct (Z.quot (rp_StatusCode reply) 100 =? 2)%Z eqn:Hc; cbn [negb]; bool_prop.
  2: { split; [done|]. intros [[Hs _ _ _] _]. by rewrite Hs in Hc. }
  set (v := if bool_decide (rp_AuthVersion reply = "") then _ else _).
  destruct (VerifyResponseWithAuthVersion auth (h_nonce (sq_Headers q)) (rp_Body reply) (rp_ResponseSig reply) v) as [[]|e] eqn:Hv.
  - apply VerifyResponse_Ok in Hv. split; [intros [= <-]; by split|by intros [_ ->]].
  - split; [done|]. intros [[_ _ _ Hsig] _]. apply VerifyResponse_Ok in Hsig. fold v in Hsig. congruence.
Qed.

Lemma exchange_sound now rand method host port target body maxBytes n n' r :
  isLoopbackHost host = true → exchange do auth now rand method host port target body maxBytes n = (n', r) →
  (n' = n ∧ (∃ e, r = Err e)) ∨
  ∃ q, sq_RequestURI q = target ∧ signed_call auth now rand method host port body q ∧
    ((∃ e, do q n = (n', Err e) ∧ r = Err (ErrNetwork e)) ∨ ∃ reply, do q n = (n', Ok reply) ∧ r = read_reply auth q maxBytes reply).
Proof.
  intros Hloop. unfold exchange, request_to. destruct (port <? 0)%Z; [intros [= <- <-]; left; by eauto|].
  destruct (SignedRequestHeaders _ _ _ _ _ _ _) as [h|e] eqn:Hh; [|intros [= <- <-]; left; by eauto].
  destruct (do _ n) as [n1 reply] eqn:Hd. intros [= <- <-]. right. exists (MkSent method host port target h body). split; [done|]. split; [by split|]. destruct reply as [reply|e].
  - right. exists reply. by split.
  - left. exists e. by split.
Qed.
End client_facts.

Lemma segments_current : path_segments "/v1/current" = ["v1"; "current"].
Proof. vm_compute. reflexivity. Qed.

(** ** Fields *)

Lemma struct_field_member name k v l : struct_field name ((k, v) :: l) = (if EqualFold k name then [v] else []) ++ struct_field name l.
Proof. cbn [struct_field]. by destruct (EqualFold k name). Qed.

Lemma struct_field_string name k s : struct_field name (json_string_field k s) = if EqualFold k name && negb (bool_decide (s = "")) then [VString s] else [].
Proof. unfold json_string_field. case_bool_decide; cbn; [by rewrite andb_false_r|]. by destruct (EqualFold k name). Qed.

Lemma assign_string s : assign as_string "" true (if negb (bool_decide (s = "")) then [VString s] else []) = (s, true).
Proof. by case_bool_decide; subst. Qed.

Lemma assign_body b : assign as_bytes "" true (if negb (bool_decide (b64_encode b = "")) then [VString (b64_encode b)] else []) = (b, true).
Proof.
  pose proof (b64_decode_encode b) as Hd. case_bool_decide as He.
  - rewrite He in Hd. by injection Hd as <-.
  - cbn [negb assign as_bytes]. by rewrite Hd.
Qed.

Lemma forallb_string_field k s : valid_utf8 k = true → valid_utf8 s = true → forallb (λ kv, valid_utf8 kv.1 && json_ok kv.2) (json_string_field k s) = true.
Proof. intros Hk Hs. unfold json_string_field. case_bool_decide; [done|]. cbn. by rewrite Hk, Hs. Qed.

(** The text form of a time, as json.Marshal writes it and json.Unmarshal reads it. *)
Record time_codec (time_json : time → result string json) (as_time : json → option (option time)) (t : time) (v : json) : Prop := {
  tc_written : time_json t = Ok v;
  tc_text : json_ok v = true ∧ json_depth v = 0;
  tc_read : as_time v = Some (Some t);
}.

(** A payload whose texts survive JSON. *)
Definition payload_texts (p : CurrentPayload) : Prop := Forall (λ s, valid_utf8 s = true) [NullReason p; cp_ID p; cp_Kind p; cp_Origin p].

Lemma flat_depth l : Forall (λ kv : string * json, json_depth kv.2 = 0) l → json_depth (VObject l) ≤ maxNestingDepth.
Proof.
  intros Hall. cbn [json_depth]. assert (foldr (λ kv : string * json, max (json_depth kv.2)) 0 l = 0) as ->; [|unfold maxNestingDepth; lia].
  induction Hall as [|kv l Hkv _ IH]; [done|]. cbn [foldr]. by rewrite Hkv, IH.
Qed.

Lemma current_json_reads time_json as_time p v ts :
  time_codec time_json as_time (cp_TS p) ts → payload_texts p → current_json time_json p = Ok v → decode_current as_time (print v) = Some p.
Proof.
  intros [Hw [Hok Hd] Hr] Hp Hv. unfold current_json in Hv. rewrite Hw in Hv. cbn [mbind result_bind] in Hv. injection Hv as Hv.
  unfold payload_texts in Hp. rewrite !Forall_cons in Hp. destruct Hp as (H1 & H2 & H3 & H4 & _).
  unfold decode_current, struct_members. rewrite parse_print; [subst v| |].
  - cbv beta iota. repeat first [rewrite struct_field_member|rewrite struct_field_app]. rewrite !struct_field_string.
    repeat match goal with |- context [EqualFold ?a ?b] => let r := eval vm_compute in (EqualFold a b) in change (EqualFold a b) with r end.
    cbn [andb app]. rewrite !app_nil_r, !assign_string, assign_body. cbn [assign as_bool]. rewrite Hr. cbn. by destruct p.
  - subst v. cbn [json_ok forallb fst snd]. repeat first [rewrite forallb_app|progress cbn [forallb fst snd]].
    rewrite !forallb_string_field by (first [done|apply bool_decide_eq_true_2, b64_encode_json]). by rewrite Hok.
  - subst v. apply flat_depth. unfold json_string_field. rewrite !Forall_cons, !Forall_app, !Forall_cons.
    repeat case_bool_decide; rewrite ?Forall_cons, ?Forall_nil; cbn; split_and!; done.
Qed.

(** ** A call to the daemon *)

(** A daemon that serves, a client that shares its key, clocks that agree and a nonce
    that is not in use. *)
Record live_server `{Crypto} {W} (s : Server W) (n : nonceCache) (sent now : time) (rand remote : string) : Prop := {
  lv_normal : safeMode s = false;
  lv_key : ∃ k, requestSigningKey (Server.auth s) AuthVersionRequestHMAC = Ok k;
  lv_rand : rand ≠ "";
  lv_version : localRequiredAuthVer s = "" ∨ localRequiredAuthVer s = AuthVersionRequestHMAC;
  lv_remote : isLoopbackRemote remote = true;
  lv_clock : (0 ≤ unix_of sent ≤ max_int64)%Z ∧ (now - signatureSkew + second ≤ sent ≤ now + signatureSkew)%Z;
  lv_nonce : ∀ t, seen n !! hex_encode rand = Some t → (t + ttl n ≤ now)%Z;
}.

Section served.
Context `{CryptoLaws} {W : Type} (time_json : time → result string json) (as_time : json → option (option time)) (format_rfc3339 : time → string).
Context (s : Server W) (n : nonceCache) (sent now : time) (rand remote : string) (Hlive : live_server s n sent now rand remote).

Lemma live_headers method target body : ∃ h,
  SignedRequestHeaders (Server.auth s) sent (Some rand) method target body (MkSignedRequestOptions zero_time "" AuthVersionRequestHMAC) = Ok h ∧
  h_nonce h = hex_encode rand ∧ h_authVersion h = AuthVersionRequestHMAC.
Proof.
  destruct (lv_key _ _ _ _ _ _ Hlive) as [k Hk]. unfold SignedRequestHeaders. cbn [so_Timestamp so_Nonce so_AuthVersion NewClipID].
  rewrite (bool_decide_eq_true_2 ("" = "")) by done. rewrite bool_decide_eq_false_2.
  - unfold SignRequestWithAuthVersion. rewrite Hk. cbn. eexists. split_and!; [reflexivity|done|done].
  - apply hex_encode_nonempty, (lv_rand _ _ _ _ _ _ Hlive).
Qed.

(** The gate lets such a request in. *)
Lemma live_admitted method target segs body h required maxBody :
  SignedRequestHeaders (Server.auth s) sent (Some rand) method target body (MkSignedRequestOptions zero_time "" AuthVersionRequestHMAC) = Ok h →
  let r := MkRequest method segs target [] h body None remote in
  policy (with_nonces s n) r = Some (true, required, maxBody) → required = "" ∨ required = AuthVersionRequestHMAC → (Z.of_nat (len body) ≤ maxBody)%Z →
  read_policy (with_nonces s n) r now (true, required, maxBody) =
    (Ok (MkSigned body (hex_encode rand) AuthVersionRequestHMAC now), (accept n (hex_encode rand) now).2).
Proof.
  intros Hh r Hpol Hreq Hlen. destruct (live_headers method target body) as (h' & Hh' & Hn & _). assert (h' = h) as -> by congruence.
  pose proof (client_request_admitted (with_nonces s n) r now sent (Some rand) (MkSignedRequestOptions zero_time "" AuthVersionRequestHMAC) true required maxBody
    Hh Hpol (λ _, lv_remote _ _ _ _ _ _ Hlive)) as Had. cbn [r_headers r_body r] in Had. rewrite Hn in Had. apply Had; try done.
  - destruct Hreq as [->| ->]; [by left|by right].
  - exact (lv_clock _ _ _ _ _ _ Hlive).
  - exact (lv_nonce _ _ _ _ _ _ Hlive).
Qed.

(** The reply to it is trusted. *)
Lemma live_reply ct code body h host port method uri sent_body maxBytes :
  h_nonce h = hex_encode rand → (Z.of_nat (len body) ≤ maxBytes)%Z →
  let resp := writeSignedBody (with_nonces s n) ct (MkSigned sent_body (hex_encode rand) AuthVersionRequestHMAC now) code body in
  read_reply (Server.auth s) (MkSent method host port uri h sent_body) maxBytes (MkReply (status resp) (respAuthVersion resp) (respSig resp) (respBody resp) None) =
    if (Z.quot code 100 =? 2)%Z then Ok body else Err (ErrStatus code).
Proof.
  intros Hn Hlen. destruct (lv_key _ _ _ _ _ _ Hlive) as [k Hk]. unfold writeSignedBody, SignResponseWithAuthVersion.
  cbn [sp_nonce sp_authVersion]. change (Server.auth (with_nonces s n)) with (Server.auth s). rewrite Hk. cbn [mbind result_bind status respAuthVersion respSig respBody].
  destruct (Z.quot code 100 =? 2)%Z eqn:Hc; bool_prop.
  - apply read_reply_Ok. split; [|done]. split; [done|done|done|]. exists k. cbn [rp_AuthVersion sq_Headers rp_ResponseSig rp_Body].
    rewrite (bool_decide_eq_false_2 (AuthVersionRequestHMAC = "")) by done. rewrite Hn. split; [done|apply hex_decode_encode].
  - unfold read_reply, readLimitedBody. cbn [rp_Body rp_BodyErr rp_StatusCode]. rewrite (proj2 (Z.ltb_ge _ _)) by lia. cbn [mbind result_bind].
    by rewrite (proj2 (Z.eqb_neq _ _)).
Qed.
End served.

(** ** Theorems *)

(** C16. A client sends to the loopback interface only and believes only what is signed
    for its request.  Whatever the network does: a call to another host sends nothing;
    a payload it returns is what a whole reply of good status and allowed size decodes
    to, which carries the signature of its body under the nonce of the one signed
    request sent to the host; and a clip counts as applied only on such a reply. *)
Theorem client_trusts_signed `{Crypto} {N} do time_json as_time auth now rand host port content origin (n : N) :
  (isLoopbackHost host = false →
    Current do as_time auth now rand host port n = (n, Err ErrLoopbackRequired) ∧
    ApplyCurrent do time_json auth now rand host port content origin n = (n, Err ErrLoopbackRequired) ∧
    Peers do auth now rand host port n = (n, Err ErrLoopbackRequired)) ∧
  (∀ n' payload, Current do as_time auth now rand host port n = (n', Ok payload) →
    ∃ q reply, do q n = (n', Ok reply) ∧ signed_call auth now rand "GET" host port "" q ∧ trusted auth q MaxSSHStreamFrameBytes reply ∧
      decode_current as_time (rp_Body reply) = Some payload) ∧
  (∀ n', ApplyCurrent do time_json auth now rand host port content origin n = (n', Ok ()) →
    ∃ v q reply, current_json time_json (CurrentPayloadFromContent content origin) = Ok v ∧
      do q n = (n', Ok reply) ∧ signed_call auth now rand "POST" host port (print v) q ∧ trusted auth q maxPeersResponseBytes reply) ∧
  (∀ n' body, Peers do auth now rand host port n = (n', Ok body) →
    ∃ q reply, do q n = (n', Ok reply) ∧ signed_call auth now rand "GET" host port "" q ∧ trusted auth q maxPeersResponseBytes reply ∧ body = rp_Body reply).
Proof.
  unfold Current, ApplyCurrent, Peers, signedLoopbackGet.
  split; [by intros ->|]. destruct (isLoopbackHost host) eqn:Hl; cbn [negb]; [|done]. split; [|split].
  - intros n' payload. destruct (exchange _ _ _ _ _ _ _ _ _ _ n) as [n1 r] eqn:He. intros [= <- Hr]. apply bind_Ok in Hr as (body & -> & Hd).
    destruct (exchange_sound _ _ _ _ _ _ _ _ _ _ _ _ _ Hl He) as [[_ [e He']]|(q & _ & Hq & [(e & _ & He')|(reply & Hdo & Hrep)])]; [done|done|].
    symmetry in Hrep. apply read_reply_Ok in Hrep as [Ht ->]. exists q, reply. split_and!; [done|done|done|]. destruct (decode_current _ _); [by injection Hd as ->|done].
  - intros n'. destruct (current_json _ _) as [v|e] eqn:Hv; [|done]. destruct (exchange _ _ _ _ _ _ _ _ _ _ n) as [n1 r] eqn:He. intros [= <- Hr].
    apply bind_Ok in Hr as (body & -> & _). exists v.
    destruct (exchange_sound _ _ _ _ _ _ _ _ _ _ _ _ _ Hl He) as [[_ [e He']]|(q & _ & Hq & [(e & _ & He')|(reply & Hdo & Hrep)])]; [done|done|].
    symmetry in Hrep. apply read_reply_Ok in Hrep as [Ht _]. by exists q, reply.
  - intros n' body He.
    destruct (exchange_sound _ _ _ _ _ _ _ _ _ _ _ _ _ Hl He) as [[_ [e He']]|(q & _ & Hq & [(e & _ & He')|(reply & Hdo & Hrep)])]; [done|done|].
    symmetry in Hrep. apply read_reply_Ok in Hrep as [Ht Hb]. by exists q, reply.
Qed.

(** What the daemon serves is what the client gets: the payload of the current clip,
    byte for byte, with nothing of the daemon changed but the nonce it remembers. *)
Theorem current_served `{CryptoLaws} {W} time_json as_time format_rfc3339 (s : Server W) n sent now rand remote host port w f v ts
    (Hlive : live_server s n sent now rand remote) (Hcur : currentFn s = Some f) (Hhost : isLoopbackHost host = true) (Hport : (0 ≤ port)%Z)
    (Htime : time_codec time_json as_time (cp_TS (f w)) ts) (Htexts : payload_texts (f w))
    (Hjson : current_json time_json (f w) = Ok v) (Hsize : (Z.of_nat (len (print v)) ≤ MaxSSHStreamFrameBytes)%Z) :
  Current (local_server time_json as_time format_rfc3339 s now remote) as_time (Server.auth s) sent (Some rand) host port (n, w) =
    (((accept n (hex_encode rand) now).2, w), Ok (f w)).
Proof.
  unfold Current, exchange, request_to. rewrite Hhost, (proj2 (Z.ltb_ge _ _)) by lia. cbn [negb].
  destruct (live_headers s n sent now rand remote Hlive "GET" "/v1/current" "") as (h & Hh & Hn & _). rewrite Hh. unfold local_server.
  cbn [sq_Method sq_Host sq_Port sq_RequestURI sq_Headers sq_Body]. rewrite segments_current.
  set (r := MkRequest _ _ _ _ _ _ _ _).
  assert (Hpol : policy (with_nonces s n) r = Some (true, localRequiredAuthVer s, maxRequestBody)).
  { unfold policy. cbn [safeMode with_nonces]. by rewrite (lv_normal _ _ _ _ _ _ Hlive). }
  pose proof (live_admitted s n sent now rand remote Hlive _ _ _ _ _ _ _ Hh Hpol (lv_version _ _ _ _ _ _ Hlive) ltac:(done)) as Had.
  unfold Handler. cbn [safeMode with_nonces]. rewrite (lv_normal _ _ _ _ _ _ Hlive).
  change (find_route routes (Method r) (r_segments r) false) with (Routed EGetCurrent ""). cbn [run_endpoint]. unfold getCurrent.
  change (readSignedLocal (with_nonces s n) r now) with (read_policy (with_nonces s n) r now (true, localRequiredAuthVer s, maxRequestBody)).
  fold r in Had. rewrite Had. cbn [with_signed]. change (currentFn (with_nonces s n)) with (currentFn s). rewrite Hcur. unfold writeSignedJSONStatus. rewrite Hjson.
  rewrite (live_reply s n sent now rand remote Hlive _ _ _ _ _ _ _ _ _ _ Hn Hsize). change (Z.quot 200 100 =? 2)%Z with true. cbn [mbind result_bind].
  by rewrite (current_json_reads _ _ _ _ _ Htime Htexts Hjson).
Qed.

(** A clip the client gives the daemon is applied there exactly once, as it was
    but for the concealed mark, which is not sent, and the client is told whether the
    daemon took it. *)
Theorem clip_applied `{CryptoLaws} {W} time_json as_time format_rfc3339 (s : Server W) n sent now rand remote host port w apply content origin v ts
    (Hlive : live_server s n sent now rand remote) (Happly : currentApplyFn s = Some apply) (Hhost : isLoopbackHost host = true) (Hport : (0 ≤ port)%Z)
    (Hclip : ID content ≠ "" ∧ TS content ≠ zero_time ∧ (ckind content = KindText ∨ ckind content = KindImage) ∧ origin ≠ "")
    (Htime : time_codec time_json as_time (TS content) ts) (Htexts : payload_texts (CurrentPayloadFromContent content origin))
    (Hjson : current_json time_json (CurrentPayloadFromContent content origin) = Ok v) (Hsize : (Z.of_nat (len (print v)) ≤ MaxSSHStreamFrameBytes)%Z) :
  let taken := apply (MkContent (ID content) (ckind content) (Bytes content) (sha256 (Bytes content)) (TS content) false) origin w in
  ApplyCurrent (local_server time_json as_time format_rfc3339 s now remote) time_json (Server.auth s) sent (Some rand) host port content origin (n, w) =
    (((accept n (hex_encode rand) now).2, taken.2), match taken.1 with Ok _ => Ok () | Err _ => Err (ErrStatus 409) end).
Proof.
  intros taken. destruct Hclip as (Hid & Hts & Hkind & Horigin).
  unfold ApplyCurrent, exchange, request_to. rewrite Hhost, Hjson, (proj2 (Z.ltb_ge _ _)) by lia. cbn [negb].
  destruct (live_headers s n sent now rand remote Hlive "POST" "/v1/current" (print v)) as (h & Hh & Hn & _). rewrite Hh. unfold local_server.
  cbn [sq_Method sq_Host sq_Port sq_RequestURI sq_Headers sq_Body]. rewrite segments_current.
  set (r := MkRequest _ _ _ _ _ _ _ _).
  assert (Hpol : policy (with_nonces s n) r = Some (true, AuthVersionRequestHMAC, MaxSSHStreamFrameBytes)).
  { unfold policy. cbn [safeMode with_nonces]. by rewrite (lv_normal _ _ _ _ _ _ Hlive). }
  pose proof (live_admitted s n sent now rand remote Hlive _ _ _ _ _ _ _ Hh Hpol (or_intror eq_refl) Hsize) as Had.
  unfold Handler. cbn [safeMode with_nonces]. rewrite (lv_normal _ _ _ _ _ _ Hlive).
  change (find_route routes (Method r) (r_segments r) false) with (Routed EPostCurrent ""). cbn [run_endpoint]. unfold postCurrent.
  change (readSignedLocalWithRequiredAuthVersionMax (with_nonces s n) r now AuthVersionRequestHMAC MaxSSHStreamFrameBytes)
    with (read_policy (with_nonces s n) r now (true, AuthVersionRequestHMAC, MaxSSHStreamFrameBytes)).
  fold r in Had. rewrite Had. cbn [with_signed sp_body]. change (currentApplyFn (with_nonces s n)) with (currentApplyFn s). rewrite Happly.
  rewrite (current_json_reads time_json as_time (CurrentPayloadFromContent content origin) v ts Htime Htexts Hjson).
  assert (Hc : payload_Content (CurrentPayloadFromContent content origin) =
    Ok (MkContent (ID content) (ckind content) (Bytes content) (sha256 (Bytes content)) (TS content) false, true)).
  { apply (current_payload_roundtrip (MkContent (ID content) (ckind content) (Bytes content) (sha256 (Bytes content)) (TS content) false)); done. }
  rewrite Hc. cbn [cp_Origin CurrentPayloadFromContent]. rewrite (bool_decide_eq_false_2 (origin = "")) by done.
  change (apply _ origin w) with taken. destruct taken as [[u|e] w']; cbn [fst snd].
  - unfold reply_json, writeSignedJSON, writeSignedJSONStatus. rewrite (live_reply s n sent now rand remote Hlive _ _ _ _ _ _ _ _ _ _ Hn); [done|].
    vm_compute. discriminate.
  - unfold writeSignedError. rewrite (live_reply s n sent now rand remote Hlive _ _ _ _ _ _ _ _ _ _ Hn); [done|]. vm_compute. discriminate.
Qed.

(** ** Witnesses *)

Definition demo_clip : Content := MkContent "c1" KindText "hello" (pad32 "hello") second false.

(** A daemon that serves the last clip it was given; it refuses clips of an empty origin. *)
Definition current_server : Server (list Content) :=
  MkServer (Some demo_auth) None None (Some (λ w, match last w with Some c => CurrentPayloadFromContent c "mac" | None => NoCurrentPayload "" end))
    (Some (λ c origin w, (Ok (), w ++ [c]))) None None None None None None None None None None None None None None None
    "" false (MkSafeModeInfo "" "" "" "" "" false None None 0 []) (newNonceCache nonceRetention).

Definition demo_network := @local_server toy_crypto (list Content) demo_time_json demo_as_time format_int current_server demo_now "127.0.0.1:4000".

Lemma demo_live : @live_server toy_crypto (list Content) current_server (newNonceCache nonceRetention) demo_now demo_now "r1" "127.0.0.1:4000".
Proof.
  split; [reflexivity|eexists; reflexivity|discriminate|by left|vm_compute; reflexivity| |].
  - split; [split; vm_compute; discriminate|]. split; vm_compute; discriminate.
  - intros t Ht. vm_compute in Ht. discriminate Ht.
Qed.

Lemma demo_codec : time_codec demo_time_json demo_as_time second (VString (format_int second)).
Proof. split; [reflexivity|split; vm_compute; reflexivity|vm_compute; reflexivity]. Qed.

Lemma demo_texts : payload_texts (CurrentPayloadFromContent demo_clip "mac").
Proof. repeat (constructor; [vm_compute; reflexivity|]). constructor. Qed.

Lemma client_trusts_signed_witness :
  ∃ q reply, demo_network q (newNonceCache nonceRetention, [demo_clip]) =
    ((accept (newNonceCache nonceRetention) (hex_encode "r1") demo_now).2, [demo_clip], Ok reply) ∧
    @trusted toy_crypto (Some demo_auth) q MaxSSHStreamFrameBytes reply.
Proof.
  destruct (@client_trusts_signed toy_crypto _ demo_network demo_time_json demo_as_time (Some demo_auth) demo_now (Some "r1") "127.0.0.1" 7853 demo_clip "mac"
    (newNonceCache nonceRetention, [demo_clip])) as (_ & Hcur & _).
  destruct (Hcur ((accept (newNonceCache nonceRetention) (hex_encode "r1") demo_now).2, [demo_clip]) (CurrentPayloadFromContent demo_clip "mac"))
    as (q & reply & Hdo & _ & Ht & _); [vm_compute; reflexivity|]. exists q, reply. by split.
Defined.

Lemma current_served_witness :
  (@Current toy_crypto _ demo_network demo_as_time (Some demo_auth) demo_now (Some "r1") "127.0.0.1" 7853 (newNonceCache nonceRetention, [demo_clip])).2 =
    Ok (CurrentPayloadFromContent demo_clip "mac").
Proof.
  refine (f_equal snd (@current_served toy_crypto toy_laws (list Content) demo_time_json demo_as_time format_int current_server (newNonceCache nonceRetention)
    demo_now demo_now "r1" "127.0.0.1:4000" "127.0.0.1" 7853 [demo_clip] _ _ (VString (format_int second)) demo_live eq_refl _ _ demo_codec demo_texts eq_refl _));
    vm_compute; first [reflexivity|discriminate].
Defined.

Lemma clip_applied_witness :
  @ApplyCurrent toy_crypto _ demo_network demo_time_json (Some demo_auth) demo_now (Some "r1") "localhost" 7853 demo_clip "mac" (newNonceCache nonceRetention, []) =
    (((accept (newNonceCache nonceRetention) (hex_encode "r1") demo_now).2, [demo_clip]), Ok ()).
Proof.
  refine (@clip_applied toy_crypto toy_laws (list Content) demo_time_json demo_as_time format_int current_server (newNonceCache nonceRetention)
    demo_now demo_now "r1" "127.0.0.1:4000" "localhost" 7853 [] _ demo_clip "mac" _ (VString (format_int second)) demo_live eq_refl _ _ _ demo_codec demo_texts eq_refl _);
    [vm_compute; reflexivity|done| |vm_compute; discriminate].
  split; [discriminate|]. split; [vm_compute; discriminate|]. split; [by left|discriminate].
Defined.
