(* ===== verification/Gateway.v ===== *)
(** * The ssh gateway: cli/ssh_gateway.go, cli/fleet_snapshot.go

    The command a peer may run on this host over ssh.  [runSSHGatewayWithHandlers]
    admits three commands; the stream handler checks the peer against the
    configuration, shakes hands and then bridges the stream and the local daemon: a
    state it reads is given to the daemon over HTTP and acknowledged, and the daemon's
    current clip is polled and written as a state of its own.

    The bridge is a step on a state ([gateway]) for each event its loop selects: an
    event of the reading goroutine or a tick.  The daemon is a network [do] on a state of
    its own, as in Client; [gt_log] is the list of the frames handed to the writer with
    what came of each. *)
From S2P Require Import Prelude GoStrings Utf8 Encoding NetIP Hostnames Clip Nonce Auth Stream Config Listener Json RawJson JsonText Daemon SSHConfig Fleet Server AuthorizedKeys SSHCommand Client.
From Stdlib Require Import Ascii String.
From stdpp Require Import strings.

#[local] Arguments String.append !_ _ / : simpl nomatch.

(** ** The command *)

Record SSHGatewayIdentity := MkIdentity {
  gi_PeerID : string;
  gi_KeyID : string;
}.

Inductive PollError :=
| PollClient (e : ClientError)
| PollPayload (e : string)
| PollWrite (e : StreamError).

Inductive GatewayError :=
| ErrSSHGatewayCommandRejected
| ErrGatewayFlags (e : string)
| ErrGatewayArgument
| ErrAuthorizedPeer (e : HostIDError)
| ErrAuthorizedKeyID
| ErrGatewayConfig (e : string)
| ErrLocalHostID (e : HostIDError)
| ErrGatewaySafeMode (e : string)
| ErrPlannedListen
| ErrPlannedListenPort
| ErrPlannedListenNotLoopback (host : string)
| ErrGatewayAuth (e : AuthError)
| ErrGatewayStream (e : StreamError)
| ErrGatewayClient (e : ClientError)
| ErrGatewayPayload
| ErrGatewayErrorFrame (code : string)
| ErrPollFailing (e : PollError).

(** The handlers of the commands; [None] is a nil handler. *)
Record SSHGatewayHandlers (A : Type) := MkHandlers {
  gh_Probe : option (SSHGatewayIdentity → result GatewayError A);
  gh_SyncStream : option (SSHGatewayIdentity → result GatewayError A);
  gh_FleetSnapshot : option (SSHGatewayIdentity → result GatewayError A);
}.

(** What the flags of the command line are, as package flag reads them. *)
Record gateway_flags := MkFlags {
  fl_authorized_peer : string;
  fl_authorized_key_id : string;
  fl_direct_command : string;
  fl_args : list string;
}.

Definition run_handler {A} (handler : option (SSHGatewayIdentity → result GatewayError A)) (identity : SSHGatewayIdentity) : result GatewayError A :=
  match handler with None => Err ErrSSHGatewayCommandRejected | Some h => h identity end.

Definition runSSHGatewayWithHandlers {A} (args : result string gateway_flags) (getenv : string → string) (handlers : SSHGatewayHandlers A) : result GatewayError A :=
  match args with
  | Err e => Err (ErrGatewayFlags e)
  | Ok flags =>
      if negb (bool_decide (fl_args flags = [])) then Err ErrGatewayArgument
      else
        match ValidateHostID (fl_authorized_peer flags) with
        | Err e => Err (ErrAuthorizedPeer e)
        | Ok _ =>
            if negb (ValidateManagedAuthorizedKeyID (fl_authorized_key_id flags)) then Err ErrAuthorizedKeyID
            else
              let identity := MkIdentity (fl_authorized_peer flags) (fl_authorized_key_id flags) in
              let command := getenv "SSH_ORIGINAL_COMMAND" in
              let command := if bool_decide (command = "") then fl_direct_command flags else command in
              if bool_decide (command = SSHGatewayProbeCommand) then run_handler (gh_Probe _ handlers) identity
              else if bool_decide (command = SSHGatewaySyncStreamCommand) then run_handler (gh_SyncStream _ handlers) identity
              else if bool_decide (command = SSHGatewayFleetSnapshotCommand) then run_handler (gh_FleetSnapshot _ handlers) identity
              else Err ErrSSHGatewayCommandRejected
        end
  end.

(** What the probe writes. *)
Definition probe_reply (version : string) (identity : SSHGatewayIdentity) : string :=
  print (json_map [("status", VString "ok"); ("peer_id", VString (gi_PeerID identity)); ("key_id", VString (gi_KeyID identity)); ("version", VString version)]) +:+ nl.

(** ** Checks *)

(** [hostname]: os.Hostname, [None] where it fails. *)
Definition sshGatewayLocalID (cfg : option Config) (hostname : option string) : result GatewayError string :=
  match cfg with
  | None => Err ErrSSHGatewayCommandRejected
  | Some cfg =>
      let localID := if bool_decide (Hostname cfg = "") then match hostname with Some host => TrimSuffix (before_sep "." host) ".local" | None => "" end else Hostname cfg in
      match ValidateHostID localID with Err e => Err (ErrLocalHostID e) | Ok _ => Ok localID end
  end.

Definition find_peer (id : string) (peers : list SSHPeer) : option SSHPeer := snd <$> list_find (λ p, peer_ID p = id) peers.

Definition validateSSHGatewaySyncPeer (cfg : option Config) (identity : SSHGatewayIdentity) : result GatewayError () :=
  match cfg with
  | None => Err ErrSSHGatewayCommandRejected
  | Some cfg =>
      match SSH cfg with
      | None => Err ErrSSHGatewayCommandRejected
      | Some ssh =>
          if negb (bool_decide (Transport cfg = TransportSSH)) then Err ErrSSHGatewayCommandRejected
          else
            match find_peer (gi_PeerID identity) (Config.Peers ssh) with
            | None => Err ErrSSHGatewayCommandRejected
            | Some peer =>
                if negb (Enabled peer) || negb (Accept peer) || negb (Connect peer) || negb (Persistent peer) || negb (bool_decide (MigrationState peer = MigrationStateSSHKeysReady))
                then Err ErrSSHGatewayCommandRejected
                else if bool_decide (SyncKey ssh = "") || bool_decide (KnownHosts ssh = "") then Err ErrSSHGatewayCommandRejected
                else if negb (bool_decide (AcceptKeyID (Proof_ peer) = gi_KeyID identity)) then Err ErrSSHGatewayCommandRejected
                else Ok ()
            end
      end
  end.

Definition isSSHGatewayLoopbackHost (host : string) : bool :=
  if EqualFold host "localhost" then true
  else match ParseIP host with Some ip => IsLoopback ip | None => false end.

Definition sshGatewayLocalDaemonTarget (cfg : option Config) : result GatewayError (string * Z) :=
  match cfg with
  | None => Err ErrSSHGatewayCommandRejected
  | Some cfg =>
      let plan := PlanListener cfg GeneratedLoopbackDefaultsEnabled in
      if SafeMode plan then Err (ErrGatewaySafeMode (ParseError plan))
      else
        match SplitHostPort (BindListen plan) with
        | None => Err ErrPlannedListen
        | Some (host, portText) =>
            match ParseInt portText with
            | None => Err ErrPlannedListenPort
            | Some port =>
                if (port <=? 0)%Z || (65535 <? port)%Z then Err ErrPlannedListenPort
                else
                  let host := if bool_decide (host ∈ [""; "0.0.0.0"; "::"; "[::]"]) then "127.0.0.1" else host in
                  if negb (isSSHGatewayLoopbackHost host) then Err (ErrPlannedListenNotLoopback host) else Ok (host, port)
            end
        end
  end.

Definition sshGatewayHostsMatch (a b : string) : bool := HostsMatch a b.

(** ** The bridge *)

Definition maxConsecutiveCurrentPollFailures : nat := 40.

Inductive attempt :=
| AckAttempt (seq : Z) (clipID status reason : string) (r : result StreamError (list (string * jval)))
| StateAttempt (seq : Z) (content : Content) (origin : string) (r : result StreamError (list (string * jval))).

Record gateway (N : Type) := MkGateway {
  gt_net : N;
  gt_seq : Z;
  gt_sent : gset string;
  gt_pollFailures : nat;
  gt_log : list attempt;
}.
#[global] Arguments MkGateway {N}.
#[global] Arguments gt_net {N}.
#[global] Arguments gt_seq {N}.
#[global] Arguments gt_sent {N}.
#[global] Arguments gt_pollFailures {N}.
#[global] Arguments gt_log {N}.

(** What is under one turn of the loop: the clock and the random bytes of an HTTP
    request, the write of a frame, the random bytes of its envelope, and whether it was
    still being written after ten seconds. *)
Record turn_io := MkTurn {
  ti_now : time;
  ti_rand : option string;
  ti_write : write_io;
  ti_envelope : option string;
  ti_late : bool;
}.

(** An event of the reading goroutine, its end, or a tick. *)
Inductive gateway_event :=
| StreamFrame (ev : SSHStreamEvent) (io : turn_io)
| StreamDone
| StreamFailed (e : StreamError)
| Tick (io : turn_io).

Section bridge.
Context `{Crypto} {N : Type} (do : sent_request → N → N * result string http_reply).
Context (time_json : time → result string json) (as_time : json → option (option time)).
Context (stream : SSHSyncStream) (localHost : string) (localPort : Z) (peerID : string).

(** The local variables of the loop. *)
Definition initial (net : N) : gateway N := MkGateway net 0 ∅ 0 [].

(** A write that is not done in time is given up; what it does to the channel after
    that is not in the model. *)
Definition writeSSHGatewayFrame (io : turn_io) (r : result StreamError (list (string * jval))) : result StreamError (list (string * jval)) :=
  if ti_late io then Err StreamContextDone else r.

Definition write_ack (io : turn_io) (seq : Z) (clipID status reason : string) (g : gateway N) : gateway N * result StreamError () :=
  let r := writeSSHGatewayFrame io (WriteAck (ti_write io) seq clipID status reason) in
  (MkGateway (gt_net g) (gt_seq g) (gt_sent g) (gt_pollFailures g) (gt_log g ++ [AckAttempt seq clipID status reason r]), _ ← r; Ok ()).

Definition with_net (g : gateway N) (n : N) : gateway N := MkGateway n (gt_seq g) (gt_sent g) (gt_pollFailures g) (gt_log g).

Definition with_failures (g : gateway N) (k : nat) : gateway N := MkGateway (gt_net g) (gt_seq g) (gt_sent g) k (gt_log g).

Definition pushSSHGatewayStateToLocalDaemon (io : turn_io) (content : Content) (origin : string) (n : N) : N * result ClientError () :=
  ApplyCurrent do time_json (Stream.auth stream) (ti_now io) (ti_rand io) localHost localPort content origin n.

Definition handleSSHGatewayState (io : turn_io) (state : SSHStreamStateResult) (g : gateway N) : gateway N * result StreamError () :=
  if negb (bool_decide (sr_NullReason state = "")) then write_ack io (sr_Seq state) "" "no_state" "" g
  else
    let '(n, r) := pushSSHGatewayStateToLocalDaemon io (sr_Content state) (sr_Origin state) (gt_net g) in
    match r with
    | Err _ => write_ack io (sr_Seq state) (ID (sr_Content state)) "rejected" "local_apply_failed" (with_net g n)
    | Ok _ => write_ack io (sr_Seq state) (ID (sr_Content state)) "applied" "" (with_net g n)
    end.

Definition publishSSHGatewayCurrent (io : turn_io) (g : gateway N) : gateway N * result PollError () :=
  let '(n, r) := Current do as_time (Stream.auth stream) (ti_now io) (ti_rand io) localHost localPort (gt_net g) in
  let g := with_net g n in
  match r with
  | Err ErrBodyTooLarge => (g, Ok ())
  | Err e => (g, Err (PollClient e))
  | Ok payload =>
      match payload_Content payload with
      | Err e => (g, Err (PollPayload e))
      | Ok (content, ok) =>
          if negb ok || bool_decide (ID content = "") || sshGatewayHostsMatch (cp_Origin payload) peerID then (g, Ok ())
          else if (MaxSSHStreamPayloadBytes <? Z.of_nat (len (Bytes content)))%Z then (g, Ok ())
          else if bool_decide (ID content ∈ gt_sent g) then (g, Ok ())
          else
            let seq := ((gt_seq g + 1) mod 2 ^ 64)%Z in
            let r := writeSSHGatewayFrame io (WriteState (ti_write io) (ti_envelope io) stream seq content (cp_Origin payload)) in
            let log := gt_log g ++ [StateAttempt seq content (cp_Origin payload) r] in
            match r with
            | Err e => (MkGateway (gt_net g) seq (gt_sent g) (gt_pollFailures g) log, Err (PollWrite e))
            | Ok _ => (MkGateway (gt_net g) seq ({[ID content]} ∪ gt_sent g) (gt_pollFailures g) log, Ok ())
            end
      end
  end.

(** One turn of the loop: the state, and the result where it returns. *)
Definition gateway_step (g : gateway N) (ev : gateway_event) : gateway N * option (result GatewayError ()) :=
  match ev with
  | StreamFailed e => (g, Some (Err (ErrGatewayStream e)))
  | StreamDone => (g, Some (Ok ()))
  | StreamFrame (EventState state) io =>
      match handleSSHGatewayState io state g with
      | (g, Err e) => (g, Some (Err (ErrGatewayStream e)))
      | (g, Ok _) => (g, None)
      end
  | StreamFrame (EventAck _) _ => (g, None)
  | StreamFrame (EventError code) _ => (g, Some (Err (ErrGatewayErrorFrame code)))
  | Tick io =>
      match publishSSHGatewayCurrent io g with
      | (g, Err e) =>
          let g := with_failures g (S (gt_pollFailures g)) in
          if (maxConsecutiveCurrentPollFailures <=? gt_pollFailures g)%nat then (g, Some (Err (ErrPollFailing e))) else (g, None)
      | (g, Ok _) => (with_failures g 0, None)
      end
  end.

(** The loop on the events it selects, as far as it gets. *)
Fixpoint gateway_run (g : gateway N) (evs : list gateway_event) : gateway N * option (result GatewayError ()) :=
  match evs with
  | [] => (g, None)
  | ev :: evs => match gateway_step g ev with (g, None) => gateway_run g evs | (g, Some r) => (g, Some r) end
  end.
End bridge.

(** ** The handlers *)

(** What the loop selects: a line of the peer with the time it came, the failure that
    ends the reading, or a tick. *)
Inductive channel_event :=
| Line (line : option (list (string * jval))) (receivedAt : time) (io : turn_io)
| ReadError (e : StreamError)
| Ticked (io : turn_io).

Definition reading_ended (e : StreamError) : gateway_event := if bool_decide (e = ErrSSHStreamUnexpectedEOF) then StreamDone else StreamFailed e.

(** The reading goroutine between the channel and the loop. *)
Fixpoint readSSHGatewayStreamEvents `{Crypto} (stream : SSHSyncStream) (events : list channel_event) : list gateway_event :=
  match events with
  | [] => []
  | Ticked io :: events => Tick io :: readSSHGatewayStreamEvents stream events
  | ReadError e :: _ => [reading_ended e]
  | Line line receivedAt io :: events =>
      match ReadNext stream line receivedAt with
      | Err e => [reading_ended e]
      | Ok (ev, stream) => StreamFrame ev io :: readSSHGatewayStreamEvents stream events
      end
  end.

Definition lift_stream {A} (r : result StreamError A) : result GatewayError A := match r with Ok a => Ok a | Err e => Err (ErrGatewayStream e) end.

Definition lift_gateway_auth {A} (r : result AuthError A) : result GatewayError A := match r with Ok a => Ok a | Err e => Err (ErrGatewayAuth e) end.

(** What the handler finds when it starts: the configuration, the host name, the
    peer's hello and what is under its own. *)
Record gateway_start := MkStart {
  gs_stat : bool;
  gs_loaded : result string Config;
  gs_hostname : option string;
  gs_hello : option (list (string * jval));
  gs_helloAt : time;
  gs_order : map_order;
  gs_cache : SSHStreamHelloNonceCache;
  gs_now : time;
  gs_rand : option string;
  gs_write : write_io;
  gs_late : bool;
}.

Definition load_gateway_config (st : gateway_start) : result GatewayError Config :=
  if negb (gs_stat st) then Err ErrSSHGatewayCommandRejected
  else match gs_loaded st with Err e => Err (ErrGatewayConfig e) | Ok cfg => Ok cfg end.

(** Everything before the loop: the stream, the hello written and the daemon's address. *)
Definition open_gateway `{Crypto} (st : gateway_start) (identity : SSHGatewayIdentity) :
    result GatewayError (SSHSyncStream * list (string * jval) * (string * Z)) :=
  cfg ← load_gateway_config st;
  localID ← sshGatewayLocalID (Some cfg) (gs_hostname st);
  _ ← validateSSHGatewaySyncPeer (Some cfg) identity;
  auth ← lift_gateway_auth (NewAuth (SharedKey cfg));
  let stream := NewSSHSyncStream (Some auth) localID (gi_PeerID identity) in
  _ ← lift_stream (ReadHello stream (gs_hello st) (gs_helloAt st) (gs_order st) (gs_cache st)).1;
  hello ← lift_stream (NewSSHStreamHello (Some auth) SSHStreamPurposeSyncStream localID (gi_PeerID identity) (gs_now st) "" (gs_rand st));
  written ← lift_stream (if gs_late st then Err StreamContextDone else WriteHello (gs_write st) stream hello);
  target ← sshGatewayLocalDaemonTarget (Some cfg);
  Ok (stream, written, target).

Definition runDefaultSSHGatewaySyncStream `{Crypto} {N : Type} (do : sent_request → N → N * result string http_reply) (time_json : time → result string json)
    (as_time : json → option (option time)) (st : gateway_start) (identity : SSHGatewayIdentity) (net : N) (events : list channel_event) :
    gateway N * option (result GatewayError ()) :=
  match open_gateway st identity with
  | Err e => (initial net, Some (Err e))
  | Ok (stream, _, (host, port)) =>
      gateway_run do time_json as_time stream host port (gi_PeerID identity) (initial net) (readSSHGatewayStreamEvents stream events)
  end.

Definition validateSSHGatewayFleetSnapshotPeer := validateSSHGatewaySyncPeer.

Definition decode_peer_state (as_time : json → option (option time)) (v : json) : option PeerState :=
  match v with
  | VNull => Some (MkPeerState "" 0 zero_time false "" zero_time "" "" 0 "" false false "" zero_time zero_time "" zero_time)
  | VObject l =>
      let '(hostname, ok1) := assign as_string "" true (struct_field "hostname" l) in
      let '(port, ok2) := assign as_int 0%Z true (struct_field "port" l) in
      let '(push, ok3) := assign as_time zero_time true (struct_field "last_push_ts" l) in
      let '(push_ok, ok4) := assign as_bool false true (struct_field "last_push_ok" l) in
      let '(push_err, ok5) := assign as_string "" true (struct_field "last_push_err" l) in
      let '(recv, ok6) := assign as_time zero_time true (struct_field "last_recv_ts" l) in
      let '(transport, ok7) := assign as_string "" true (struct_field "transport" l) in
      let '(ssh_host, ok8) := assign as_string "" true (struct_field "ssh_host" l) in
      let '(ssh_port, ok9) := assign as_int 0%Z true (struct_field "ssh_port" l) in
      let '(ssh_user, ok10) := assign as_string "" true (struct_field "ssh_user" l) in
      let '(active, ok11) := assign as_bool false true (struct_field "ssh_active" l) in
      let '(pending, ok12) := assign as_bool false true (struct_field "ssh_pending" l) in
      let '(st, ok13) := assign as_string "" true (struct_field "ssh_status" l) in
      let '(connect, ok14) := assign as_time zero_time true (struct_field "ssh_last_connect_ts" l) in
      let '(ack, ok15) := assign as_time zero_time true (struct_field "ssh_last_ack_ts" l) in
      let '(last_err, ok16) := assign as_string "" true (struct_field "ssh_last_error" l) in
      let '(err_ts, ok17) := assign as_time zero_time true (struct_field "ssh_last_error_ts" l) in
      if forallb (λ b, b) [ok1; ok2; ok3; ok4; ok5; ok6; ok7; ok8; ok9; ok10; ok11; ok12; ok13; ok14; ok15; ok16; ok17]
      then Some (MkPeerState hostname port push push_ok push_err recv transport ssh_host ssh_port ssh_user active pending st connect ack last_err err_ts) else None
  | _ => None
  end.

(** The rows in the reply of /v1/peers. *)
Definition decode_peer_rows (as_time : json → option (option time)) (body : string) : option (list PeerState) :=
  match struct_members body with
  | None => None
  | Some l =>
      let as_rows v := match v with VNull => Some (Some []) | VArray rows => Some <$> mapM (decode_peer_state as_time) rows | _ => None end in
      let '(rows, ok) := assign as_rows [] true (struct_field "peers" l) in if ok then Some rows else None
  end.

Definition runDefaultSSHGatewayFleetSnapshot `{Crypto} {N : Type} (do : sent_request → N → N * result string http_reply)
    (as_time : json → option (option time)) (version : string) (st : gateway_start) (identity : SSHGatewayIdentity) (net : N) : N * result GatewayError FleetSnapshot :=
  let checked :=
    cfg ← load_gateway_config st;
    origin ← sshGatewayLocalID (Some cfg) (gs_hostname st);
    _ ← validateSSHGatewayFleetSnapshotPeer (Some cfg) identity;
    target ← sshGatewayLocalDaemonTarget (Some cfg);
    auth ← lift_gateway_auth (NewAuth (SharedKey cfg));
    Ok (cfg, origin, target, auth) in
  match checked with
  | Err e => (net, Err e)
  | Ok (cfg, origin, (host, port), auth) =>
      let '(net, r) := Client.Peers do (Some auth) (gs_now st) (gs_rand st) host port net in
      (net,
       match r with
       | Err e => Err (ErrGatewayClient e)
       | Ok body =>
           match decode_peer_rows as_time body with
           | None => Err ErrGatewayPayload
           | Some rows => Ok (BuildFleetSnapshot version (Some cfg) origin rows)
           end
       end)
  end.

(** ** What the log says *)

Definition acks (log : list attempt) : list (Z * string * string * string) :=
  omap (λ a, match a with AckAttempt seq id st reason _ => Some (seq, id, st, reason) | _ => None end) log.

Definition posts (log : list attempt) : list (Z * Content * string * bool) :=
  omap (λ a, match a with StateAttempt seq c origin r => Some (seq, c, origin, match r with Ok _ => true | Err _ => false end) | _ => None end) log.

Definition post_seq (p : Z * Content * string * bool) : Z := p.1.1.1.

Definition post_content (p : Z * Content * string * bool) : Content := p.1.1.2.

Definition post_origin (p : Z * Content * string * bool) : string := p.1.2.

Definition posted (log : list attempt) : list string := omap (λ p : Z * Content * string * bool, if p.2 then Some (ID (post_content p)) else None) (posts log).

Definition states_in (evs : list gateway_event) : list SSHStreamStateResult :=
  omap (λ ev, match ev with StreamFrame (EventState st) _ => Some st | _ => None end) evs.

Definition is_tick (ev : gateway_event) : bool := match ev with Tick _ => true | _ => false end.

Section facts.
Context `{Crypto} {N : Type} (do : sent_request → N → N * result string http_reply).
Context (time_json : time → result string json) (as_time : json → option (option time)).
Context (stream : SSHSyncStream) (localHost : string) (localPort : Z) (peerID : string).

#[local] Notation handle := (handleSSHGatewayState do time_json stream localHost localPort).
#[local] Notation publish := (publishSSHGatewayCurrent do as_time stream localHost localPort peerID).
#[local] Notation step := (gateway_step do time_json as_time stream localHost localPort peerID).
#[local] Notation run := (gateway_run do time_json as_time stream localHost localPort peerID).

(** The acknowledgement of a state: there is none of a clip; it was applied where the
    daemon took it, and refused where it did not. *)
Definition answers (a : Z * string * string * string) (st : SSHStreamStateResult) : Prop :=
  (sr_NullReason st ≠ "" ∧ a = (sr_Seq st, "", "no_state", "")) ∨
  (sr_NullReason st = "" ∧ ∃ io n n' r, pushSSHGatewayStateToLocalDaemon do time_json stream localHost localPort io (sr_Content st) (sr_Origin st) n = (n', r) ∧
     a = (sr_Seq st, ID (sr_Content st), if r then "applied" else "rejected", if r then "" else "local_apply_failed")).

(** Where a state that is written comes from: a poll of the daemon. *)
Definition polled (p : Z * Content * string * bool) : Prop :=
  (∃ now rand n n' payload, Current do as_time (Stream.auth stream) now rand localHost localPort n = (n', Ok payload) ∧
     payload_Content payload = Ok (post_content p, true) ∧ cp_Origin payload = post_origin p) ∧
  ID (post_content p) ≠ "" ∧ HostsMatch (post_origin p) peerID = false ∧ (Z.of_nat (len (Bytes (post_content p))) ≤ MaxSSHStreamPayloadBytes)%Z.

Lemma handle_log io st g g' r : handle io st g = (g', r) →
  ∃ a, (gt_log g' = gt_log g ++ [a] ∧ acks [a] ≠ [] ∧ Forall2 answers (acks [a]) [st]) ∧ posts [a] = [] ∧
    (gt_seq g', gt_sent g', gt_pollFailures g') = (gt_seq g, gt_sent g, gt_pollFailures g).
Proof.
  unfold handleSSHGatewayState, write_ack. case_bool_decide as Hn; cbn [negb].
  - destruct (pushSSHGatewayStateToLocalDaemon _ _ _ _ _ io (sr_Content st) (sr_Origin st) (gt_net g)) as [n r1] eqn:Hp.
    destruct r1 as [u|e]; cbv beta iota zeta; intros Hg; injection Hg as <- <-; eexists; cbn; (split; [split; [reflexivity|split; [discriminate|]]|by split]);
      (constructor; [|constructor]); right; (split; [done|]); eexists io, _, n, _; (split; [exact Hp|reflexivity]).
  - intros Hg. injection Hg as <- <-. eexists. cbn. split; [split; [reflexivity|split; [discriminate|]]|by split]. constructor; [|constructor]. by left.
Qed.

Lemma publish_log io g g' r : publish io g = (g', r) →
  (gt_log g' = gt_log g ∧ gt_seq g' = gt_seq g ∧ gt_sent g' = gt_sent g) ∨
  ∃ c origin w, gt_log g' = gt_log g ++ [StateAttempt ((gt_seq g + 1) mod 2 ^ 64) c origin w] ∧ gt_seq g' = ((gt_seq g + 1) mod 2 ^ 64)%Z ∧
    Forall polled (posts [StateAttempt ((gt_seq g + 1) mod 2 ^ 64) c origin w]) ∧ ID c ∉ gt_sent g ∧
    gt_sent g' = (match w with Ok _ => {[ID c]} | Err _ => ∅ end) ∪ gt_sent g ∧
    r = match w with Ok _ => Ok () | Err e => Err (PollWrite e) end ∧
    w = writeSSHGatewayFrame io (WriteState (ti_write io) (ti_envelope io) stream ((gt_seq g + 1) mod 2 ^ 64) c origin).
Proof.
  clear time_json.
  unfold publishSSHGatewayCurrent. destruct (Current _ _ _ _ _ _ _ (gt_net g)) as [n r1] eqn:Hc. cbv zeta. destruct r1 as [payload|e].
  2: { destruct e; intros Hg; injection Hg as <- <-; by left. }
  destruct (payload_Content payload) as [[c ok]|e] eqn:Hp; [|intros Hg; injection Hg as <- <-; by left].
  destruct (negb ok || bool_decide (ID c = "") || sshGatewayHostsMatch (cp_Origin payload) peerID) eqn:Hskip; [intros Hg; injection Hg as <- <-; by left|].
  destruct (MaxSSHStreamPayloadBytes <? Z.of_nat (len (Bytes c)))%Z eqn:Hsize; [intros Hg; injection Hg as <- <-; by left|].
  destruct (bool_decide (ID c ∈ gt_sent (with_net g n))) eqn:Hsent; [intros Hg; injection Hg as <- <-; by left|].
  apply bool_decide_eq_false in Hsent. intros Hr. right.
  rewrite !orb_false_iff, negb_false_iff, bool_decide_eq_false in Hskip. destruct Hskip as [[-> Hid] Hm]. bool_prop.
  change (gt_seq (with_net g n)) with (gt_seq g) in Hr.
  destruct (writeSSHGatewayFrame io (WriteState (ti_write io) (ti_envelope io) stream ((gt_seq g + 1) mod 2 ^ 64) c (cp_Origin payload))) as [fields|e] eqn:Hw;
    [set (w := Ok fields) in Hw|set (w := Err e) in Hw]; exists c, (cp_Origin payload), w.
  all: symmetry in Hw.
  all: assert (Hpol : Forall polled (posts [StateAttempt ((gt_seq g + 1) mod 2 ^ 64) c (cp_Origin payload) w]))
    by (cbn; constructor; [|constructor]; split; [by eexists (ti_now io), (ti_rand io), _, n, payload|by split_and!]).
  all: injection Hr as <- <-; cbn [gt_log gt_seq gt_sent with_net]; split_and!; try done. set_solver.
Qed.
(** One state written, or none. *)
Definition posted_once (g g' : gateway N) (new : list attempt) : Prop :=
  (posts new = [] ∧ gt_seq g' = gt_seq g ∧ gt_sent g' = gt_sent g) ∨
  ∃ p, posts new = [p] ∧ post_seq p = ((gt_seq g + 1) mod 2 ^ 64)%Z ∧ gt_seq g' = post_seq p ∧ ID (post_content p) ∉ gt_sent g ∧
    gt_sent g' = (if p.2 then {[ID (post_content p)]} else ∅) ∪ gt_sent g.

Lemma step_log g ev g' r : step g ev = (g', r) →
  ∃ new, gt_log g' = gt_log g ++ new ∧ Forall2 answers (acks new) (states_in [ev]) ∧ Forall polled (posts new) ∧ posted_once g g' new.
Proof.
  assert (Hnone : ∀ g', (gt_log g', gt_seq g', gt_sent g') = (gt_log g, gt_seq g, gt_sent g) → states_in [ev] = [] →
    ∃ new, gt_log g' = gt_log g ++ new ∧ Forall2 answers (acks new) (states_in [ev]) ∧ Forall polled (posts new) ∧ posted_once g g' new).
  { intros g1 [= H1 H2 H3] Hst. exists []. rewrite app_nil_r, Hst. split; [done|]. split; [constructor|]. split; [constructor|]. by left. }
  destruct ev as [[st|a|code] io| |e|io]; cbn [gateway_step]; try (intros Hg; injection Hg as <- <-; by apply Hnone).
  - destruct (handle io st g) as [g1 r1] eqn:Hh. destruct (handle_log _ _ _ _ _ Hh) as (a & (Hl & _ & Ha) & Hp & [= H1 H2 _]).
    assert (Hdone : ∃ new, gt_log g1 = gt_log g ++ new ∧ Forall2 answers (acks new) [st] ∧ Forall polled (posts new) ∧ posted_once g g1 new).
    { exists [a]. split; [done|]. split; [done|]. rewrite Hp. split; [constructor|]. left. by rewrite Hp. }
    destruct r1; intros Hg; injection Hg as <- <-; exact Hdone.
  - destruct (publish io g) as [g1 r1] eqn:Hpub.
    assert (Hdone : ∀ k, ∃ new, gt_log (with_failures g1 k) = gt_log g ++ new ∧ Forall2 answers (acks new) [] ∧ Forall polled (posts new) ∧ posted_once g (with_failures g1 k) new).
    { intros k. destruct (publish_log _ _ _ _ Hpub) as [(H1 & H2 & H3)|(c & origin & w & H1 & H2 & H3 & H4 & H5 & _ & _)].
      - exists []. rewrite app_nil_r. split; [done|]. split; [constructor|]. split; [constructor|]. by left.
      - eexists. split; [exact H1|]. split; [constructor|]. split; [exact H3|]. right. eexists. split; [reflexivity|]. cbn. split; [done|]. split; [exact H2|].
        split; [done|]. rewrite H5. by destruct w. }
    destruct r1; [intros Hg; injection Hg as <- <-; apply Hdone|]. cbv zeta. destruct (_ <=? _)%nat; intros Hg; injection Hg as <- <-; apply Hdone.
Qed.

Lemma run_log evs : ∀ g g' r, run g evs = (g', r) → (0 ≤ gt_seq g)%Z → (gt_seq g + Z.of_nat (length evs) < 2 ^ 64)%Z →
  ∃ done rest new, evs = done ++ rest ∧ (r = None → rest = []) ∧ gt_log g' = gt_log g ++ new ∧ Forall2 answers (acks new) (states_in done) ∧
    Forall polled (posts new) ∧ post_seq <$> posts new = seqZ (gt_seq g + 1) (Z.of_nat (length (posts new))) ∧
    (length (posts new) ≤ length done)%nat ∧ NoDup (posted new) ∧ Forall (λ id, id ∉ gt_sent g) (posted new).
Proof.
  induction evs as [|ev evs IH]; intros g g' r Hrun H0 Hlen; cbn [gateway_run] in Hrun.
  { injection Hrun as <- <-. exists [], [], []. split; [done|]. split; [done|]. split; [by rewrite app_nil_r|]. split_and!; try done; by constructor. }
  destruct (step g ev) as [g1 r1] eqn:Hs. destruct (step_log _ _ _ _ Hs) as (new & Hl & Ha & Hp & Honce). cbn [length] in Hlen.
  assert (Hseq : post_seq <$> posts new = seqZ (gt_seq g + 1) (Z.of_nat (length (posts new))) ∧ gt_seq g1 = (gt_seq g + Z.of_nat (length (posts new)))%Z ∧
    (length (posts new) ≤ 1)%nat ∧ NoDup (posted new) ∧ Forall (λ id, id ∉ gt_sent g) (posted new) ∧ gt_sent g1 = list_to_set (posted new) ∪ gt_sent g).
  { unfold posted. destruct Honce as [(-> & H1 & H2)|(p & -> & H1 & H2 & H3 & H4)]; cbn [fmap list_fmap omap list_omap length].
    - rewrite H1, H2. split_and!; [done|lia|lia|apply NoDup_nil_2|apply Forall_nil_2|set_solver].
    - rewrite Z.mod_small in H1 by lia. rewrite H2, H4. split; [change (Z.of_nat 1) with 1%Z; rewrite seqZ_cons by lia; by rewrite H1|]. split; [lia|].
      split; [lia|]. destruct p as [q []]; cbn [fst snd list_to_set]; (split; [try apply NoDup_singleton; apply NoDup_nil_2|]).
      + split; [by apply Forall_singleton|]. set_solver.
      + split; [apply Forall_nil_2|]. set_solver. }
  destruct Hseq as (Hq1 & Hq2 & Hq3 & Hq4 & Hq5 & Hq6).
  destruct r1 as [r1|].
  { injection Hrun as <- <-. exists [ev], evs, new. split_and!; try done. }
  destruct (IH g1 g' r Hrun ltac:(lia) ltac:(lia)) as (dn & rest & new' & -> & Hr & Hl' & Ha' & Hp' & Hs' & Hn' & Hd' & Hf').
  exists (ev :: dn), rest, (new ++ new'). split; [done|]. split; [done|]. split; [by rewrite Hl', Hl, <- app_assoc|].
  assert (Hposts : posts (new ++ new') = posts new ++ posts new') by apply omap_app.
  assert (Hposted : posted (new ++ new') = posted new ++ posted new') by (unfold posted; by rewrite Hposts, omap_app).
  split. { unfold acks at 1. rewrite omap_app. change (ev :: dn) with ([ev] ++ dn). unfold states_in at 1. rewrite omap_app. by apply Forall2_app. }
  rewrite Hposts, Hposted, Forall_app, fmap_app, length_app. split; [done|]. split.
  { rewrite Hq1, Hs', Hq2, Nat2Z.inj_add, seqZ_app by lia. do 2 f_equal. lia. }
  split; [cbn [length]; lia|]. rewrite Hq6 in Hf'. split.
  - apply NoDup_app. split; [done|]. split; [|done]. intros id Hid Hid'. rewrite Forall_forall in Hf'. specialize (Hf' _ Hid'). set_solver.
  - apply Forall_app. split; [done|]. eapply Forall_impl; [exact Hf'|]. cbn. set_solver.
Qed.
(** ** Failing polls *)

(** How the polls of a run went. *)
Fixpoint poll_results (g : gateway N) (evs : list gateway_event) : list bool :=
  match evs with
  | [] => []
  | ev :: evs =>
      (match ev with Tick io => [match (publish io g).2 with Ok _ => true | Err _ => false end] | _ => [] end) ++
      match step g ev with (g, None) => poll_results g evs | _ => [] end
  end.

(** The failures at the end. *)
Definition failing (t : list bool) (k : nat) : Prop := ∃ pre, t = pre ++ replicate k false ∧ (pre = [] ∨ ∃ p, pre = p ++ [true]).

Lemma failing_more t k : failing t k → failing (t ++ [false]) (S k).
Proof.
  intros (pre & -> & Hpre). exists pre. split; [|done]. rewrite <- app_assoc. f_equal. rewrite <- replicate_cons_app. reflexivity.
Qed.

Lemma failing_none t : failing (t ++ [true]) 0.
Proof. exists (t ++ [true]). rewrite app_nil_r. split; [done|]. right. by exists t. Qed.

Lemma failing_suffix t k n : failing t k → (∃ pre, t = pre ++ replicate n false) ↔ n ≤ k.
Proof.
  intros (pre & -> & Hpre). split.
  - intros (q & Hq). destruct (decide (n ≤ k)) as [|Hn]; [done|exfalso]. replace n with ((n - k) + k)%nat in Hq by lia.
    rewrite replicate_add, app_assoc in Hq. apply app_inj_2 in Hq as [Hq _]; [|by rewrite !length_replicate].
    destruct Hpre as [->|(p & ->)].
    + symmetry in Hq. apply app_eq_nil in Hq as [_ Hq]. destruct (n - k)%nat eqn:E; [lia|done].
    + replace (n - k)%nat with (S (n - k - 1)) in Hq by lia. rewrite replicate_S_end, app_assoc in Hq. by apply app_inj_tail in Hq as [_ [=]].
  - intros Hn. exists (pre ++ replicate (k - n) false). rewrite <- app_assoc, <- replicate_add. do 2 f_equal. lia.
Qed.

Lemma publish_failures io g : gt_pollFailures (publish io g).1 = gt_pollFailures g.
Proof.
  unfold publishSSHGatewayCurrent. destruct (Current _ _ _ _ _ _ _ (gt_net g)) as [n r1]. cbv zeta. destruct r1 as [payload|e]; [|by destruct e].
  destruct (payload_Content payload) as [[c ok]|e]; [|done]. destruct (_ || _); [done|]. destruct (_ <? _)%Z; [done|].
  destruct (bool_decide (ID c ∈ gt_sent _)); [done|]. by destruct (writeSSHGatewayFrame io _).
Qed.

(** What a turn does to the count of failures. *)
Lemma step_failures g ev g' r t : step g ev = (g', r) → failing t (gt_pollFailures g) → (gt_pollFailures g < maxConsecutiveCurrentPollFailures)%nat →
  failing (t ++ (match ev with Tick io => [match (publish io g).2 with Ok _ => true | Err _ => false end] | _ => [] end)) (gt_pollFailures g') ∧
  ((∃ e, r = Some (Err (ErrPollFailing e))) ↔ (maxConsecutiveCurrentPollFailures ≤ gt_pollFailures g')%nat).
Proof.
  intros Hs Ht Hlt. unfold maxConsecutiveCurrentPollFailures in *.
  assert (Hsame : gt_pollFailures g' = gt_pollFailures g → (∀ e, r ≠ Some (Err (ErrPollFailing e))) →
    failing (t ++ []) (gt_pollFailures g') ∧ ((∃ e, r = Some (Err (ErrPollFailing e))) ↔ 40 ≤ gt_pollFailures g')).
  { intros -> Hr. rewrite app_nil_r. split; [done|]. split; [intros [e He]; by destruct (Hr e)|lia]. }
  destruct ev as [[st|a|code] io| |e|io]; cbn [gateway_step] in Hs; try (injection Hs as <- <-; by apply Hsame).
  - destruct (handle io st g) as [g1 r1] eqn:Hh. destruct (handle_log _ _ _ _ _ Hh) as (_ & _ & _ & [= _ _ H3]).
    destruct r1; injection Hs as <- <-; by apply Hsame.
  - pose proof (publish_failures io g) as Hp. destruct (publish io g) as [g1 r1]. cbn [fst snd] in *. destruct r1 as [u|e].
    + injection Hs as <- <-. cbn [gt_pollFailures with_failures]. split; [apply failing_none|]. split; [intros [e [=]]|lia].
    + cbv zeta in Hs. cbn [gt_pollFailures with_failures] in Hs. rewrite Hp in Hs.
      destruct (maxConsecutiveCurrentPollFailures <=? S (gt_pollFailures g))%nat eqn:E; injection Hs as <- <-; cbn [gt_pollFailures with_failures];
        (split; [by apply failing_more|]); unfold maxConsecutiveCurrentPollFailures in E; bool_prop.
      * split; [done|]. intros _. by exists e.
      * split; [intros [e' [=]]|lia].
Qed.

Lemma run_failures evs : ∀ g g' r t, run g evs = (g', r) → failing t (gt_pollFailures g) → (gt_pollFailures g < maxConsecutiveCurrentPollFailures)%nat →
  failing (t ++ poll_results g evs) (gt_pollFailures g') ∧
  ((∃ e, r = Some (Err (ErrPollFailing e))) ↔ (maxConsecutiveCurrentPollFailures ≤ gt_pollFailures g')%nat).
Proof.
  induction evs as [|ev evs IH]; intros g g' r t Hrun Ht Hlt; cbn [gateway_run poll_results] in *.
  { injection Hrun as <- <-. rewrite app_nil_r. split; [done|]. split; [intros [e [=]]|unfold maxConsecutiveCurrentPollFailures in *; lia]. }
  destruct (step g ev) as [g1 r1] eqn:Hs. destruct (step_failures _ _ _ _ _ Hs Ht Hlt) as [Hf Hi]. destruct r1 as [r1|].
  - injection Hrun as <- <-. rewrite app_nil_r. by split.
  - rewrite app_assoc. apply IH; [done|done|]. destruct (decide (gt_pollFailures g1 < maxConsecutiveCurrentPollFailures)%nat); [done|].
    destruct (proj2 Hi ltac:(lia)) as [e [=]].
Qed.

(** A daemon that does not answer. *)
Lemma gone_poll io g : (∀ q n, ∃ e, (do q n).2 = Err e) → ∃ e, (publish io g).2 = Err e.
Proof.
  intros Hgone. unfold publishSSHGatewayCurrent, Current, exchange. destruct (isLoopbackHost localHost); cbn [negb]; [|by eexists].
  destruct (request_to _ _ _ _ _ _ _ _) as [q|e] eqn:Hq.
  - destruct (do q (gt_net g)) as [n r] eqn:Hd. destruct (Hgone q (gt_net g)) as [e He]. rewrite Hd in He. cbn [snd] in He. rewrite He. cbn. by eexists.
  - unfold request_to in Hq. destruct (localPort <? 0)%Z; [injection Hq as <-; by eexists|].
    destruct (SignedRequestHeaders _ _ _ _ _ _ _); [done|]. injection Hq as <-. by eexists.
Qed.

Lemma gone_run evs : (∀ q n, ∃ e, (do q n).2 = Err e) → ∀ g, (maxConsecutiveCurrentPollFailures ≤ gt_pollFailures g + length (filter is_tick evs))%nat →
  (gt_pollFailures g < maxConsecutiveCurrentPollFailures)%nat → (run g evs).2 ≠ None.
Proof.
  intros Hgone. induction evs as [|ev evs IH]; intros g Hlen Hlt; [cbn in Hlen; lia|]. cbn [gateway_run].
  destruct (step g ev) as [g1 r1] eqn:Hs. destruct r1 as [r1|]; [done|]. apply IH.
  - destruct ev as [[st|a|code] io| |e|io]; cbn [gateway_step] in Hs; try (injection Hs as <-; exact Hlen); try discriminate Hs.
    + destruct (handle io st g) as [g2 r2] eqn:Hh. destruct (handle_log _ _ _ _ _ Hh) as (_ & _ & _ & [= _ _ H3]).
      destruct r2; [|discriminate Hs]. injection Hs as <-. rewrite H3. exact Hlen.
    + pose proof (publish_failures io g) as Hp. destruct (gone_poll io g Hgone) as [e He]. destruct (publish io g) as [g2 r2]. cbn [fst snd] in *. subst r2.
      cbv zeta in Hs. destruct (_ <=? _)%nat; [discriminate Hs|]. injection Hs as <-. cbn [gt_pollFailures with_failures]. rewrite Hp.
      rewrite filter_cons_True in Hlen by done. cbn [length] in Hlen. lia.
  - assert (failing (replicate (gt_pollFailures g) false) (gt_pollFailures g)) as Hf by (exists []; split; [done|by left]).
    destruct (step_failures _ _ _ _ _ Hs Hf Hlt) as [_ Hi]. destruct (decide (gt_pollFailures g1 < maxConsecutiveCurrentPollFailures)%nat); [done|].
    destruct (proj2 Hi ltac:(lia)) as [e [=]].
Qed.
End facts.

(** ** Theorems *)


(** C14. The bridge gives up on the daemon exactly when forty polls in a row have failed,
    whatever comes in between, and so it ends: with a daemon that answers nothing, forty
    ticks are enough whatever the peer sends. *)
Theorem gateway_gives_up `{Crypto} {N} do time_json as_time stream localHost localPort peerID (net : N) evs g r
    (Hrun : gateway_run do time_json as_time stream localHost localPort peerID (initial net) evs = (g, r)) :
  ((∃ e, r = Some (Err (ErrPollFailing e))) ↔
    ∃ pre, poll_results do time_json as_time stream localHost localPort peerID (initial net) evs = pre ++ replicate 40 false) ∧
  ((∀ q n, ∃ e, (do q n).2 = Err e) → 40 ≤ length (filter is_tick evs) → r ≠ None).
Proof.
  split.
  - assert (Hf : failing [] 0) by (exists []; split; [done|by left]).
    destruct (run_failures _ _ _ _ _ _ _ _ _ _ _ _ Hrun Hf ltac:(cbn; unfold maxConsecutiveCurrentPollFailures; lia)) as [Ht Hi].
    rewrite Hi. symmetry. by apply failing_suffix.
  - intros Hgone Hlen. pose proof (gone_run do time_json as_time stream localHost localPort peerID evs Hgone (initial net) Hlen
      ltac:(cbn; unfold maxConsecutiveCurrentPollFailures; lia)) as Hn. by rewrite Hrun in Hn.
Qed.

Lemma find_peer_Some id peers p : find_peer id peers = Some p → peer_ID p = id ∧ p ∈ peers.
Proof.
  unfold find_peer. intros (ip & Hf & ->)%fmap_Some. destruct ip as [i q]. cbn [snd]. apply list_find_Some in Hf as (Hl & Hid & _). split; [done|]. by eapply list_elem_of_lookup_2.
Qed.

Lemma valid_sync_peer cfg identity : validateSSHGatewaySyncPeer (Some cfg) identity = Ok () →
  ∃ ssh peer, SSH cfg = Some ssh ∧ Transport cfg = TransportSSH ∧ find_peer (gi_PeerID identity) (Config.Peers ssh) = Some peer ∧
    Enabled peer = true ∧ Accept peer = true ∧ Connect peer = true ∧ Persistent peer = true ∧ MigrationState peer = MigrationStateSSHKeysReady ∧
    SyncKey ssh ≠ "" ∧ KnownHosts ssh ≠ "" ∧ AcceptKeyID (Proof_ peer) = gi_KeyID identity.
Proof.
  unfold validateSSHGatewaySyncPeer. destruct (SSH cfg) as [ssh|]; [|done]. destruct (bool_decide (Transport cfg = TransportSSH)) eqn:Ht; cbn [negb]; [|done]. apply bool_decide_eq_true in Ht.
  destruct (find_peer _ _) as [peer|] eqn:Hf; [|done]. destruct (_ || _) eqn:Hflags; [done|]. destruct (bool_decide (SyncKey ssh = "") || _) eqn:Hp; [done|].
  destruct (bool_decide (AcceptKeyID (Proof_ peer) = gi_KeyID identity)) eqn:Hk; cbn [negb]; [|done]. apply bool_decide_eq_true in Hk. intros _. rewrite !orb_false_iff, !negb_false_iff, bool_decide_eq_true in Hflags.
  rewrite orb_false_iff, !bool_decide_eq_false in Hp. exists ssh, peer. naive_solver.
Qed.

Lemma target_loopback cfg host port : sshGatewayLocalDaemonTarget (Some cfg) = Ok (host, port) → host = loopbackHost ∧ (1 ≤ port ≤ 65535)%Z ∧ SafeMode (PlanListener cfg true) = false.
Proof.
  unfold sshGatewayLocalDaemonTarget, GeneratedLoopbackDefaultsEnabled. cbv zeta. destruct (SafeMode (PlanListener cfg true)) eqn:Hs; [done|].
  destruct (plan_bind cfg) as (p & Hport & -> & _). pose proof (proj1 (validPort_spec _) Hport) as Hp. unfold loopback_listen.
  rewrite SplitHostPort_plain; [|done|done|done|by apply format_int_clean|by apply format_int_clean|by apply format_int_clean].
  rewrite ParseInt_format by (unfold max_int64; lia). rewrite (proj2 (Z.leb_gt _ _)), (proj2 (Z.ltb_ge _ _)) by lia. cbn [orb].
  rewrite (bool_decide_eq_false_2 (loopbackHost ∈ _)); [|rewrite !not_elem_of_cons; split_and!; try done; apply not_elem_of_nil].
  assert (isSSHGatewayLoopbackHost loopbackHost = true) as -> by (vm_compute; reflexivity). cbn [negb]. intros [= <- <-]. done.
Qed.

Lemma host_id_one_line id : ValidateHostID id = Ok () → id ≠ "" ∧ one_line id = true.
Proof.
  unfold ValidateHostID. destruct (len id <? 1)%nat eqn:H1; [done|]. destruct (63 <? len id)%nat; [done|]. destruct (HasPrefix id "-"); [done|].
  destruct (forall_bytes host_id_byte id) eqn:Hf; [|done]. intros _. split; [by intros ->|]. unfold one_line.
  rewrite (has_byte_forall (ascii_of_nat 10) host_id_byte id Hf); [done|vm_compute; reflexivity].
Qed.

Lemma lift_stream_Ok {A} (r : result StreamError A) a : lift_stream r = Ok a ↔ r = Ok a.
Proof. destruct r; cbn; split; congruence. Qed.

Lemma lift_gateway_auth_Ok {A} (r : result AuthError A) a : lift_gateway_auth r = Ok a ↔ r = Ok a.
Proof. destruct r; cbn; split; congruence. Qed.

(** What it takes for the configuration to let an identity stream. *)
Record may_stream (cfg : Config) (identity : SSHGatewayIdentity) : Prop := {
  ms_ssh : Transport cfg = TransportSSH;
  ms_peer : ∃ ssh peer, SSH cfg = Some ssh ∧ find_peer (gi_PeerID identity) (Config.Peers ssh) = Some peer ∧ SyncKey ssh ≠ "" ∧ KnownHosts ssh ≠ "" ∧
    [Enabled peer; Accept peer; Connect peer; Persistent peer] = [true; true; true; true] ∧
    MigrationState peer = MigrationStateSSHKeysReady ∧ AcceptKeyID (Proof_ peer) = gi_KeyID identity;
}.


(** A write that goes through. *)
Definition writable (io : write_io) : Prop := w_ctxDone io = false ∧ (w_len io ≤ MaxSSHStreamFrameBytes)%Z ∧ w_ok io = true.

Lemma writable_frame io f : writable io → writeFrame io f = Ok (MarshalJSON f).
Proof. intros (H1 & H2 & H3). unfold writeFrame. rewrite H1, H3, (proj2 (Z.ltb_ge _ _)) by lia. done. Qed.

Lemma writable_state `{Crypto} io a rand localID peerID seq c origin : writable io → (0 < seq)%Z → (Z.of_nat (len (Bytes c)) ≤ MaxSSHStreamPayloadBytes)%Z →
  ∃ fields, WriteState io (Some rand) (NewSSHSyncStream (Some a) localID peerID) seq c origin = Ok fields.
Proof.
  intros Hio Hseq Hsize. unfold WriteState. rewrite (proj2 (Z.eqb_neq _ _)) by lia. cbn [maxPayloadBytes NewSSHSyncStream]. rewrite (proj2 (Z.ltb_ge _ _)) by lia.
  cbn [Stream.auth remoteID]. unfold BuildEnvelope, SealBody. cbn [NewSSHSyncStream Stream.auth bodyCipher mbind result_bind lift_auth]. rewrite writable_frame by done. by eexists.
Qed.

(** C12. A clip of this host reaches the peer.  At the first tick after the daemon has it
    as its current clip, the bridge, if it did not write the clip before and the clip is
    not the peer's own, writes it under the next number, and the peer reads the very clip
    from the frame; nothing of the daemon is changed. *)
Theorem current_reaches_peer `{CryptoLaws} {W} time_json as_time format_rfc3339 (s : Server W) n now remote host port localID peerID w f v ts a io g c er rand sB at_
    (Hlive : live_server s n (ti_now io) now rand remote) (Hcur : currentFn s = Some f) (Hauth : Server.auth s = Some a)
    (Hhost : isLoopbackHost host = true) (Hport : (0 ≤ port)%Z)
    (Htime : time_codec time_json as_time (cp_TS (f w)) ts) (Htexts : payload_texts (f w))
    (Hjson : current_json time_json (f w) = Ok v) (Hsize : (Z.of_nat (len (print v)) ≤ MaxSSHStreamFrameBytes)%Z)
    (Hc : payload_Content (f w) = Ok (c, true)) (Hbytes : (Z.of_nat (len (Bytes c)) ≤ MaxSSHStreamPayloadBytes)%Z)
    (Hforeign : HostsMatch (cp_Origin (f w)) peerID = false)
    (Hio : ti_rand io = Some rand ∧ ti_late io = false ∧ ti_envelope io = Some er ∧ len er = gcm_NonceSize ∧ writable (ti_write io))
    (Hg : gt_net g = (n, w) ∧ (0 ≤ gt_seq g < uint64_max)%Z ∧ ID c ∉ gt_sent g)
    (Hnames : ShortName peerID ≠ "" ∧ valid_utf8 localID = true ∧ valid_utf8 peerID = true)
    (HsB : Stream.auth sB = Some a ∧ Stream.localID sB = peerID ∧ remoteID sB = localID ∧ maxPayloadBytes sB = MaxSSHStreamPayloadBytes ∧ nextSeq sB = (gt_seq g + 1)%Z)
    (Hat : (TS c ≤ at_ + signatureSkew)%Z) :
  ∃ g' fields,
    gateway_step (local_server time_json as_time format_rfc3339 s now remote) time_json as_time (NewSSHSyncStream (Some a) localID peerID) host port peerID g (Tick io) = (g', None) ∧
    gt_log g' = gt_log g ++ [StateAttempt (gt_seq g + 1) c (cp_Origin (f w)) (Ok fields)] ∧
    (gt_net g').2 = w ∧ gt_pollFailures g' = 0 ∧
    ReadNext sB (Some fields) at_ = Ok (EventState (MkStateResult (gt_seq g + 1) localID c (cp_Origin (f w)) ""), bump_seq sB).
Proof.
  destruct Hio as (Hr & Hlate & Her & Herl & Hw). destruct Hg as (Hnet & Hseq & Hnew). destruct Hnames as (Hshort & HuA & HuB).
  destruct HsB as (HB1 & HB2 & HB3 & HB4 & HB5).
  cbn [gateway_step]. unfold publishSSHGatewayCurrent. cbn [Stream.auth NewSSHSyncStream]. rewrite Hr, Hnet, <- Hauth.
  rewrite (current_served time_json as_time format_rfc3339 s n (ti_now io) now rand remote host port w f v ts Hlive Hcur Hhost Hport Htime Htexts Hjson Hsize).
  cbv zeta beta iota. rewrite Hc. assert (Hid : ID c ≠ "" ∧ hashed c ∧ Concealed c = false ∧ ID c = cp_ID (f w) ∧ ckind c = cp_Kind (f w)).
  { unfold payload_Content in Hc. destruct (negb (HasCurrent (f w))); [done|]. destruct (bool_decide (cp_ID (f w) = "")) eqn:E; [done|]. apply bool_decide_eq_false in E.
    cbn [orb] in Hc. destruct (IsZero (cp_TS (f w))); [done|]. destruct (_ || _); [|done]. injection Hc as <-. done. }
  destruct Hid as (Hid & Hh & Hvis & Hcid & Hck). rewrite (bool_decide_eq_false_2 (ID c = "")) by done. unfold sshGatewayHostsMatch. rewrite Hforeign. cbn [negb orb].
  rewrite (proj2 (Z.ltb_ge _ _)) by lia. cbn [gt_sent with_net gt_seq gt_log gt_pollFailures gt_net]. rewrite (bool_decide_eq_false_2 (ID c ∈ gt_sent g)) by done.
  unfold uint64_max in Hseq. rewrite Z.mod_small by lia. unfold writeSSHGatewayFrame. rewrite Hlate, Her, Hauth.
  destruct (writable_state (ti_write io) a er localID peerID (gt_seq g + 1) c (cp_Origin (f w)) Hw ltac:(lia) Hbytes) as [fields Hfields]. rewrite Hfields.
  eexists _, fields. split; [reflexivity|]. cbn [gt_log with_failures gt_net gt_pollFailures snd]. split; [done|]. split; [done|]. split; [done|].
  unfold payload_texts in Htexts. rewrite !Forall_cons in Htexts. destruct Htexts as (_ & HT1 & HT2 & HT3 & _).
  rewrite <- HB5 in Hfields |- *.
  rewrite (clip_read (Some a) er localID peerID (NewSSHSyncStream (Some a) localID peerID) sB c (cp_Origin (f w)) (ti_write io) fields at_);
    try done; [by destruct c; cbn in *; rewrite Hvis, Hh|rewrite HB5; unfold uint64_max; lia|].
  rewrite !Forall_cons, Hcid, Hck. by split_and!.
Qed.

(** C13. A clip of the peer reaches the daemon.  A state the bridge reads is applied by the
    daemon once, as the clip it was but for the concealed mark, and is acknowledged under
    its number as what the daemon made of it. *)
Theorem state_reaches_daemon `{CryptoLaws} {W} time_json as_time format_rfc3339 (s : Server W) n now rand remote host port localID peerID w apply content origin v ts a io g seq sender
    (Hlive : live_server s n (ti_now io) now rand remote) (Happly : currentApplyFn s = Some apply) (Hauth : Server.auth s = Some a)
    (Hhost : isLoopbackHost host = true) (Hport : (0 ≤ port)%Z)
    (Hclip : ID content ≠ "" ∧ TS content ≠ zero_time ∧ (ckind content = KindText ∨ ckind content = KindImage) ∧ origin ≠ "")
    (Htime : time_codec time_json as_time (TS content) ts) (Htexts : payload_texts (CurrentPayloadFromContent content origin))
    (Hjson : current_json time_json (CurrentPayloadFromContent content origin) = Ok v) (Hsize : (Z.of_nat (len (print v)) ≤ MaxSSHStreamFrameBytes)%Z)
    (Hio : ti_rand io = Some rand ∧ ti_late io = false ∧ writable (ti_write io)) (Hg : gt_net g = (n, w)) (Hseq : (0 < seq)%Z) :
  let taken := apply (MkContent (ID content) (ckind content) (Bytes content) (sha256 (Bytes content)) (TS content) false) origin w in
  ∃ g' fields,
    gateway_step (local_server time_json as_time format_rfc3339 s now remote) time_json as_time (NewSSHSyncStream (Some a) localID peerID) host port peerID g
      (StreamFrame (EventState (MkStateResult seq sender content origin "")) io) = (g', None) ∧
    (gt_net g').2 = taken.2 ∧ (gt_seq g', gt_sent g') = (gt_seq g, gt_sent g) ∧
    gt_log g' = gt_log g ++ [match taken.1 with
      | Ok _ => AckAttempt seq (ID content) "applied" "" (Ok fields)
      | Err _ => AckAttempt seq (ID content) "rejected" "local_apply_failed" (Ok fields)
      end].
Proof.
  intros taken. destruct Hio as (Hr & Hlate & Hw). pose proof Hclip as (Hid & _).
  cbn [gateway_step]. unfold handleSSHGatewayState. cbn [sr_NullReason]. rewrite (bool_decide_eq_true_2 ("" = "")) by done. cbn [negb].
  unfold pushSSHGatewayStateToLocalDaemon. cbn [Stream.auth NewSSHSyncStream sr_Content sr_Origin sr_Seq]. rewrite Hr, Hg, <- Hauth.
  rewrite (clip_applied time_json as_time format_rfc3339 s n (ti_now io) now rand remote host port w apply content origin v ts Hlive Happly Hhost Hport Hclip Htime Htexts Hjson Hsize).
  fold taken. assert (Hack : ∀ st reason, st = "applied" ∨ st = "rejected" → ∃ fields, writeSSHGatewayFrame io (WriteAck (ti_write io) seq (ID content) st reason) = Ok fields).
  { intros st reason Hst. unfold writeSSHGatewayFrame. rewrite Hlate. unfold WriteAck, validateSSHStreamAck. rewrite (proj2 (Z.eqb_neq _ _)) by lia.
    assert (validSSHStreamAckStatus st = true ∧ st ≠ "no_state") as [-> Hno] by (destruct Hst as [->| ->]; by split). cbn [negb orb].
    rewrite (bool_decide_eq_false_2 (st = "no_state")), (bool_decide_eq_false_2 (ID content = "")) by done. cbn [mbind result_bind]. rewrite writable_frame by done. by eexists. }
  destruct taken as [[u|e] w']; cbn [fst snd]; unfold write_ack.
  - destruct (Hack "applied" "" ltac:(by left)) as [fields ->]. eexists _, fields. split; [reflexivity|]. done.
  - destruct (Hack "rejected" "local_apply_failed" ltac:(by right)) as [fields ->]. eexists _, fields. split; [reflexivity|]. done.
Qed.

(** A poll whose write fails uses up its number.  The loop goes on, and the next state it
    writes is refused by a peer that has read everything before: the writing of one state
    is enough to lose the stream, though the failure is counted like one of the daemon. *)
Theorem failed_write_desyncs `{CryptoLaws} {N} do time_json as_time a localID host port peerID (g g1 g2 : gateway N) io io' k k' c c' origin origin' e fields r sB at_
    (Hrange : (0 ≤ gt_seq g < uint64_max - 1)%Z)
    (Hfirst : gateway_step do time_json as_time (NewSSHSyncStream a localID peerID) host port peerID g (Tick io) = (g1, None))
    (Hfailed : gt_log g1 = gt_log g ++ [StateAttempt k c origin (Err e)])
    (Hnext : gateway_step do time_json as_time (NewSSHSyncStream a localID peerID) host port peerID g1 (Tick io') = (g2, r))
    (Hwritten : gt_log g2 = gt_log g1 ++ [StateAttempt k' c' origin' (Ok fields)])
    (Hnames : Forall (λ s, valid_utf8 s = true) [localID; peerID; origin'; ID c'; ckind c']) (Hpeer : nextSeq sB = (gt_seq g + 1)%Z) :
  k = nextSeq sB ∧ k' = (nextSeq sB + 1)%Z ∧ ReadNext sB (Some fields) at_ = Err (ErrSSHStreamUnexpectedFrame "seq").
Proof.
  cbn [gateway_step] in Hfirst, Hnext. unfold uint64_max in *.
  destruct (publishSSHGatewayCurrent _ _ _ _ _ _ io g) as [ga ra] eqn:Ha. destruct (publishSSHGatewayCurrent _ _ _ _ _ _ io' g1) as [gb rb] eqn:Hb.
  assert (Hla : gt_log g1 = gt_log ga ∧ gt_seq g1 = gt_seq ga).
  { destruct ra; cbv beta iota zeta in Hfirst; [|match type of Hfirst with context [if ?x then _ else _] => destruct x end; [done|]]; injection Hfirst as <-; done. }
  assert (Hlb : gt_log g2 = gt_log gb).
  { destruct rb; cbv beta iota zeta in Hnext; [|match type of Hnext with context [if ?x then _ else _] => destruct x end]; injection Hnext as <- <-; done. }
  destruct Hla as [Hla Hsa]. rewrite Hla in Hfailed. rewrite Hlb in Hwritten.
  apply publish_log in Ha as [(Hl & _)|(? & ? & ? & Hl & Hs & _)].
  { rewrite Hl in Hfailed. symmetry in Hfailed. rewrite <- (app_nil_r (gt_log g)) in Hfailed at 2. by apply app_inv_head in Hfailed. }
  rewrite Hl in Hfailed. apply app_inv_head in Hfailed as [= <- <- <- ->]. rewrite Z.mod_small in Hs by lia. rewrite Z.mod_small by lia.
  apply publish_log in Hb as [(Hl' & _)|(? & ? & w & Hl' & _ & _ & _ & _ & _ & Hw)].
  { rewrite Hl' in Hwritten. symmetry in Hwritten. rewrite <- (app_nil_r (gt_log g1)) in Hwritten at 2. by apply app_inv_head in Hwritten. }
  rewrite Hl' in Hwritten. apply app_inv_head in Hwritten as [= <- <- <- ->]. rewrite Hsa, Hs, Z.mod_small in Hw |- * by lia.
  split; [done|]. split; [lia|]. unfold writeSSHGatewayFrame in Hw. destruct (ti_late io'); [done|]. symmetry in Hw.
  eapply skipped_refused; [exact Hw|unfold uint64_max; lia|done|lia].
Qed.

(** ** Witnesses *)

Module GatewaySamples.
Definition io : turn_io := MkTurn demo_now (Some "r1") (MkWriteIO false 100 true) (Some "twelve bytes") false.

Definition own_stream : SSHSyncStream := NewSSHSyncStream (Some demo_auth) "alpha" "beta".

Definition peer_stream : SSHSyncStream := NewSSHSyncStream (Some demo_auth) "beta" "alpha".

Definition start (w : list Content) : gateway (nonceCache * list Content) := initial (newNonceCache nonceRetention, w).

Definition null_state : SSHStreamStateResult := MkStateResult 1 "beta" zero_content "" "no_visible_current".

Definition peer_entry : SSHPeer :=
  MkSSHPeer "beta" "beta.local" "me" 22 "/opt/clipfan" "/opt/gateway" true true true true false MigrationStateSSHKeysReady
    (MkSSHProof "aaaaaaaaaaaaaaaa" "/opt/gateway" "" "" "" "" "" "").

Definition config : Config :=
  MkConfig (Some 2%Z) (Some 1%Z) "127.0.0.1:7853" (b64_encode (key demo_auth)) "static" [] "alpha" TransportSSH
    (Some (MkSSHConfig "/keys/sync" "/keys/known_hosts" 8 2 1000 [peer_entry])) 7853 200.

Definition hello_line : option (list (string * jval)) :=
  match @NewSSHStreamHello toy_crypto (Some demo_auth) SSHStreamPurposeSyncStream "beta" "alpha" demo_now "n1" None with
  | Ok hello => Some (MarshalJSON (helloFrame hello))
  | Err _ => None
  end.

Definition session : gateway_start :=
  MkStart true (Ok config) None hello_line demo_now map_to_list NewSSHStreamHelloNonceCache demo_now (Some "sixteen bytes ok") (MkWriteIO false 100 true) false.

Definition flags : gateway_flags := MkFlags "beta" "aaaaaaaaaaaaaaaa" "" [].

Definition getenv (k : string) : string := if bool_decide (k = "SSH_ORIGINAL_COMMAND") then SSHGatewaySyncStreamCommand else "".
End GatewaySamples.
Import GatewaySamples.


Lemma gateway_gives_up_witness :
  (@gateway_run toy_crypto () (λ _ n, (n, Err "connection refused")) demo_time_json demo_as_time own_stream "127.0.0.1" 7853 "beta" (initial ()) (replicate 40 (Tick io))).2 ≠ None.
Proof.
  destruct (@gateway_run toy_crypto () (λ _ n, (n, Err "connection refused")) demo_time_json demo_as_time own_stream "127.0.0.1" 7853 "beta" (initial ()) (replicate 40 (Tick io)))
    as [g r] eqn:E.
  destruct (@gateway_gives_up toy_crypto () (λ _ n, (n, Err "connection refused")) demo_time_json demo_as_time own_stream "127.0.0.1" 7853 "beta" ()
    (replicate 40 (Tick io)) g r E) as [_ H]. apply H; [|vm_compute; lia]. intros q n. by eexists.
Defined.


Lemma current_reaches_peer_witness :
  ∃ fields, @ReadNext toy_crypto peer_stream (Some fields) demo_now = Ok (EventState (MkStateResult 1 "alpha" demo_clip "mac" ""), bump_seq peer_stream).
Proof.
  destruct (@current_reaches_peer toy_crypto toy_laws (list Content) demo_time_json demo_as_time format_int current_server (newNonceCache nonceRetention) demo_now
    "127.0.0.1:4000" "127.0.0.1" 7853 "alpha" "beta" [demo_clip] _ _ (VString (format_int second)) demo_auth io (start [demo_clip]) demo_clip "twelve bytes" "r1"
    peer_stream demo_now demo_live eq_refl eq_refl ltac:(vm_compute; reflexivity) ltac:(done) demo_codec demo_texts eq_refl ltac:(vm_compute; discriminate) eq_refl
    ltac:(vm_compute; discriminate) ltac:(vm_compute; reflexivity)) as (g' & fields & _ & _ & _ & _ & Hr).
  - split; [done|]. split; [done|]. split; [done|]. split; [done|]. split; [done|]. split; [vm_compute; discriminate|done].
  - split; [done|]. split; [vm_compute; split; [discriminate|reflexivity]|]. apply not_elem_of_empty.
  - split; [vm_compute; discriminate|]. split; vm_compute; reflexivity.
  - split; [done|]. split; [done|]. split; [done|]. split; done.
  - vm_compute. discriminate.
  - exists fields. exact Hr.
Defined.

Lemma state_reaches_daemon_witness :
  ∃ g', (@gateway_step toy_crypto _ demo_network demo_time_json demo_as_time own_stream "localhost" 7853 "beta" (start [])
    (StreamFrame (EventState (MkStateResult 1 "beta" demo_clip "beta" "")) io)) = (g', None) ∧ (gt_net g').2 = [demo_clip].
Proof.
  destruct (@state_reaches_daemon toy_crypto toy_laws (list Content) demo_time_json demo_as_time format_int current_server (newNonceCache nonceRetention) demo_now "r1"
    "127.0.0.1:4000" "localhost" 7853 "alpha" "beta" [] _ demo_clip "beta"
    (match current_json demo_time_json (CurrentPayloadFromContent demo_clip "beta") with Ok v => v | Err _ => VNull end) (VString (format_int second)) demo_auth io (start []) 1%Z "beta"
    demo_live eq_refl eq_refl ltac:(vm_compute; reflexivity) ltac:(done)) as (g' & fields & Hs & Hw & _).
  - split; [discriminate|]. split; [vm_compute; discriminate|]. split; [by left|discriminate].
  - exact demo_codec.
  - repeat (constructor; [vm_compute; reflexivity|]). constructor.
  - reflexivity.
  - vm_compute. discriminate.
  - split; [done|]. split; [done|]. split; [done|]. split; [vm_compute; discriminate|done].
  - done.
  - done.
  - exists g'. split; [exact Hs|exact Hw].
Defined.

(** The hole in the numbers, on a run: the write of the first clip is late, the second
    clip is written as state 2, and the peer, which expects 1, refuses it. *)
Example sequence_hole :
  let late := MkTurn demo_now (Some "r1") (MkWriteIO false 100 true) (Some "twelve bytes") true in
  let run := @gateway_run toy_crypto _ demo_network demo_time_json demo_as_time own_stream "127.0.0.1" 7853 "beta" in
  let g := (run (start [demo_clip]) [Tick late; Tick (MkTurn demo_now (Some "r2") (ti_write late) (ti_envelope late) false)]).1 in
  post_seq <$> posts (gt_log g) = [1; 2]%Z ∧ posted (gt_log g) = ["c1"] ∧
  match last (gt_log g) with
  | Some (StateAttempt 2 _ _ (Ok fields)) => @ReadNext toy_crypto peer_stream (Some fields) demo_now = Err (ErrSSHStreamUnexpectedFrame "seq")
  | _ => False
  end.
Proof. vm_compute. done. Qed.
