(* ===== verification/ConfigDoc.v ===== *)
(** * The configuration document: config/v2.go, ssh_local_material.go, hostid.go

    A document is the raw object of the file with what is typed of it.  Every update
    states the revision it was made for, is applied to a copy, validated, given the
    next revision and written whole.  The lock, the
    reading and the atomic write are around it; here a document comes from the text read
    and gives the object to write. *)
From S2P Require Import Prelude GoStrings Utf8 Encoding NetIP Paths Hostnames Config Clip Session SSHConfig Listener Json RawJson Words KnownHosts AuthorizedKeys SSHCommand Pairing.
From Stdlib Require Import Ascii String.
From stdpp Require Import strings.

#[local] Arguments String.append !_ _ / : simpl nomatch.

(** ** Revisions *)

Definition RevisionStatePreV2 : string := "pre_v2".

Definition RevisionStateMissingRevision : string := "missing_revision".

Definition RevisionStateVersioned : string := "versioned".

Record RevisionExpectation := MkExpectation {
  ex_State : string;
  ex_Revision : option Z;
}.

Record RevisionStatus := MkStatus {
  rv_ConfigVersion : option Z;
  rv_ConfigRevision : option Z;
  rv_RevisionState : string;
}.

Record configDocument := MkDocument {
  doc_Config : go_config;
  doc_RevisionState : string;
  doc_ConfigRevision : option Z;
  doc_raw : raw_object;
}.

Definition ErrConfigV2WritesDisabled : string := "config_v2_writes_disabled".

Definition ErrConfigRevisionConflict : string := "config_revision_conflict".

(** An integer without sign, fraction or exponent that fits a uint64. *)
Definition parseJSONUint (value : json) (code : string) : result string Z :=
  match value with
  | VNumber n => if HasPrefix n "-" then Err code else match ParseUint n with Some u => Ok (Z.of_N u) | None => Err code end
  | _ => Err code
  end.

Definition with_version (g : go_config) (version revision : option Z) : go_config :=
  let c := gc_config g in
  MkGoConfig (MkConfig version revision (Listen c) (SharedKey c) (Discovery c) (StaticPeers c) (Hostname c) (Transport c) (SSH c) (Port c) (MaxHistory c))
    (gc_static g) (gc_peers g).

Definition with_config (g : go_config) (c : Config) : go_config := MkGoConfig c (gc_static g) (gc_peers g).

Definition unmarshalTypedConfig (raw : raw_object) : result string go_config :=
  match decode_Config (members (delete "config_version" (delete "config_revision" raw))) with
  | Some g => Ok g
  | None => Err "json"
  end.

Section document.
Context (homeDir : option string).

(** What [parseConfigDocument] makes of the raw object. *)
Definition document_of_raw (raw : raw_object) : result string configDocument :=
  match raw !! "config_version" with
  | None => g ← unmarshalTypedConfig raw; Ok (MkDocument (with_version g None None) RevisionStatePreV2 None raw)
  | Some versionRaw =>
      version ← parseJSONUint versionRaw "invalid_config_version";
      if negb (version =? 2)%Z then Err "unsupported_config_version"
      else
        g ← unmarshalTypedConfig raw;
        c ← NormalizeLocalSSHPaths homeDir (gc_config g);
        let g := with_config g c in
        _ ← ValidateSSHTransportConfig c;
        match raw !! "config_revision" with
        | None | Some VNull => Ok (MkDocument (with_version g (Some 2%Z) None) RevisionStateMissingRevision None raw)
        | Some revisionRaw =>
            revision ← parseJSONUint revisionRaw "invalid_config_revision";
            if (revision =? 0)%Z then Err "invalid_config_revision"
            else Ok (MkDocument (with_version g (Some 2%Z) (Some revision)) RevisionStateVersioned (Some revision) raw)
        end
  end.

Definition parseConfigDocument (data : string) : result string configDocument :=
  match parse data with
  | Some v =>
      match unmarshal_object v with
      | Some (Some raw) => document_of_raw raw
      | Some None => Err "malformed_config"
      | None => Err "json"
      end
  | None => Err "json"
  end.

Definition validateRevisionExpectation (doc : configDocument) (expected : RevisionExpectation) : result string () :=
  if negb (bool_decide (doc_RevisionState doc = ex_State expected)) then Err ErrConfigRevisionConflict
  else if bool_decide (ex_State expected ∈ [RevisionStatePreV2; RevisionStateMissingRevision]) then
    match ex_Revision expected with Some _ => Err ErrConfigRevisionConflict | None => Ok () end
  else if bool_decide (ex_State expected = RevisionStateVersioned) then
    match ex_Revision expected, doc_ConfigRevision doc with
    | Some want, Some have => if (want =? 0)%Z || negb (have =? want)%Z then Err ErrConfigRevisionConflict else Ok ()
    | _, _ => Err ErrConfigRevisionConflict
    end
  else Err ErrConfigRevisionConflict.

Definition nextConfigRevision (doc : configDocument) : result string Z :=
  if negb (bool_decide (doc_RevisionState doc = RevisionStateVersioned)) then Ok 1%Z
  else
    let revision := default 0%Z (doc_ConfigRevision doc) in
    if (revision =? Z.of_N max_uint64)%Z then Err "invalid_config_revision" else Ok (revision + 1)%Z.

(** ** Writing *)

(** [json.Marshal] of a slice of strings: nil is null. *)
Definition json_strings (nonnil : bool) (l : list string) : json := if nonnil then VArray (json_string <$> l) else VNull.

(** [hasRaw] is asked of [present], [out] is written. *)
Definition applyConfigScalars (out present : raw_object) (g : go_config) (nextRevision : Z) : raw_object :=
  let c := gc_config g in
  let set key value nonzero out := setRawIf out key value (hasRaw present key || nonzero) in
  let str key s := set key (json_string s) (negb (bool_decide (s = ""))) in
  let int key z := set key (json_int z) (negb (z =? 0)%Z) in
  let out := str "listen" (Listen c) out in
  let out := str "shared_key" (SharedKey c) out in
  let out := str "discovery" (Discovery c) out in
  let out := set "static_peers" (json_strings (gc_static g) (StaticPeers c)) (negb (bool_decide (StaticPeers c = []))) out in
  let out := str "hostname" (Hostname c) out in
  let out := str "transport" (Transport c) out in
  let out := int "port" (Port c) out in
  let out := int "max_history" (MaxHistory c) out in
  let out := <["config_version" := json_int 2]> out in
  <["config_revision" := json_int nextRevision]> out.

(** [reflect.DeepEqual] of the pointers, their structs and their peers; an empty slice
    is not a nil one. *)
Definition same_ssh (a b : go_config) : bool :=
  bool_decide (SSH (gc_config a) = SSH (gc_config b)) && bool_decide (gc_peers a = gc_peers b).

Definition marshalConfigDocument (doc : configDocument) (g : go_config) (nextRevision : Z) : raw_object :=
  let out := applyConfigScalars (doc_raw doc) (doc_raw doc) g nextRevision in
  if negb (same_ssh g (doc_Config doc)) then
    match SSH (gc_config g) with Some ssh => <["ssh" := encode_SSHConfig ssh]> out | None => delete "ssh" out end
  else out.

(** [raw]: the raw object as the update left it. *)
Definition marshalConfigDocumentPreservingRawSSH (g : go_config) (raw : raw_object) (nextRevision : Z) : raw_object :=
  let out := applyConfigScalars raw raw g nextRevision in
  match SSH (gc_config g) with
  | None => delete "ssh" out
  | Some ssh => if hasRaw out "ssh" then out else <["ssh" := encode_SSHConfig ssh]> out
  end.

(** The copy an update works on: [append(nil, l...)] of an empty slice is nil. *)
Definition clone_config (g : go_config) : go_config :=
  MkGoConfig (gc_config g) (negb (bool_decide (StaticPeers (gc_config g) = [])))
    (match SSH (gc_config g) with Some ssh => negb (bool_decide (Peers ssh = [])) | None => false end).

(** ** Updates *)

(** [updateConfigV2ScopedRawWithBackupAndLock] under its lock, for the text read: the
    object to write.  [mutate] may change the raw object too.  The backup, where one is
    asked for, is a copy of the text read. *)
Definition updateConfigV2Scoped (gateEnabled : bool) (data : string) (expected : RevisionExpectation)
    (mutate : go_config → raw_object → result string (go_config * raw_object)) : result string raw_object :=
  if negb gateEnabled then Err ErrConfigV2WritesDisabled
  else
    doc ← parseConfigDocument data;
    _ ← validateRevisionExpectation doc expected;
    '(g, raw) ← mutate (clone_config (doc_Config doc)) (doc_raw doc);
    c ← NormalizeLocalSSHPaths homeDir (gc_config g);
    let g := with_config g c in
    _ ← ValidateSSHTransportConfig c;
    nextRevision ← nextConfigRevision doc;
    Ok (marshalConfigDocument (MkDocument (doc_Config doc) (doc_RevisionState doc) (doc_ConfigRevision doc) raw) g nextRevision).

(** [withSSHPeerConfigUpdate] under its lock: the object to write, the peer to answer
    with and the new revision.  [apply] works on copies. *)
Definition withSSHPeerConfigUpdate {A} (gateEnabled : bool) (data : string) (expected : RevisionExpectation)
    (apply : go_config → raw_object → result string (go_config * raw_object * A)) : result string (raw_object * A * Z) :=
  if negb gateEnabled then Err ErrConfigV2WritesDisabled
  else
    doc ← parseConfigDocument data;
    _ ← validateRevisionExpectation doc expected;
    '(g, raw, updated) ← apply (clone_config (doc_Config doc)) (doc_raw doc);
    _ ← ValidateSSHTransportConfig (gc_config g);
    nextRevision ← nextConfigRevision doc;
    Ok (marshalConfigDocumentPreservingRawSSH g raw nextRevision, updated, nextRevision).

Definition ReadRevisionStatus (data : string) : result string RevisionStatus :=
  doc ← parseConfigDocument data;
  Ok (MkStatus (ConfigVersion (gc_config (doc_Config doc))) (doc_ConfigRevision doc) (doc_RevisionState doc)).

(** ** ssh_local_material.go *)

Definition ReadConfigRevision (data : string) : result string RevisionStatus :=
  doc ← parseConfigDocument data;
  Ok (MkStatus (ConfigVersion (gc_config (doc_Config doc))) (ConfigRevision (gc_config (doc_Config doc))) (doc_RevisionState doc)).

(** The object to write, [None] when the revision observed is good as it is. *)
Definition ensureConfigV2RevisionWithGate (gateEnabled : bool) (data : string) (observed : RevisionStatus) : result string (option raw_object) :=
  if bool_decide (rv_RevisionState observed = RevisionStateVersioned) && negb (default 0%Z (rv_ConfigRevision observed) =? 0)%Z then Ok None
  else
    let expected := MkExpectation (rv_RevisionState observed) (rv_ConfigRevision observed) in
    if bool_decide (ex_State expected ∈ [RevisionStatePreV2; RevisionStateMissingRevision]) then
      match ex_Revision expected with
      | Some _ => Err ErrConfigRevisionConflict
      | None => out ← updateConfigV2Scoped gateEnabled data expected (λ g raw, Ok (g, raw)); Ok (Some out)
      end
    else Err ErrConfigRevisionConflict.

Record SSHLocalMaterialUpdateRequest := MkMaterialRequest {
  lm_ExpectedConfigRevision : option Z;
  lm_Transport : option string;
  lm_SharedKey : option string;
  lm_SyncKey : option string;
  lm_KnownHosts : option string;
}.

(** [rawSSHPeers]: the raw ssh object and the raw peers in it. *)
Definition rawSSHPeers (raw : raw_object) : result string (raw_object * list raw_object) :=
  sshRaw ←
    (match raw !! "ssh" with
     | Some value => if isJSONNull value then Ok ∅ else match unmarshal_object value with Some o => Ok (default ∅ o) | None => Err "invalid_ssh_config" end
     | None => Ok ∅
     end);
  peers ←
    (match sshRaw !! "peers" with
     | Some value => if isJSONNull value then Ok [] else match unmarshal_objects value with Some l => Ok l | None => Err "invalid_ssh_peers" end
     | None => Ok []
     end);
  Ok (sshRaw, peers).

Definition with_ssh (g : go_config) (ssh : option SSHConfig) (peers_nonnil : bool) : go_config :=
  let c := gc_config g in
  MkGoConfig (MkConfig (ConfigVersion c) (ConfigRevision c) (Listen c) (SharedKey c) (Discovery c) (StaticPeers c) (Hostname c) (Transport c) ssh
    (Port c) (MaxHistory c)) (gc_static g) peers_nonnil.

(** What the request changes in the copy. *)
Definition apply_material (req : SSHLocalMaterialUpdateRequest) (g : go_config) (raw : raw_object) : result string (go_config * raw_object * ()) :=
  let c := gc_config g in
  let '(c, static, raw) :=
    match lm_Transport req with
    | Some t =>
        (MkConfig (ConfigVersion c) (ConfigRevision c) (Listen c) (SharedKey c) "static" [] (Hostname c) t (SSH c) (Port c) (MaxHistory c), false,
         delete "static_peers" (<["discovery" := json_string "static"]> (<["transport" := json_string t]> raw)))
    | None => (c, gc_static g, raw)
    end in
  let '(c, raw) :=
    match lm_SharedKey req with
    | Some k =>
        (MkConfig (ConfigVersion c) (ConfigRevision c) (Listen c) k (Discovery c) (StaticPeers c) (Hostname c) (Transport c) (SSH c) (Port c) (MaxHistory c),
         <["shared_key" := json_string k]> raw)
    | None => (c, raw)
    end in
  let ssh := default (MkSSHConfig "" "" 0 0 0 []) (SSH c) in
  '(sshRaw, _) ← rawSSHPeers raw;
  let ssh := MkSSHConfig (default (SyncKey ssh) (lm_SyncKey req)) (default (KnownHosts ssh) (lm_KnownHosts req)) (MaxSessions ssh)
    (MaxSessionsPerPeer ssh) (LogLimitBytes ssh) (Peers ssh) in
  let sshRaw := setRawPointer sshRaw "sync_key" (json_string <$> lm_SyncKey req) in
  let sshRaw := setRawPointer sshRaw "known_hosts" (json_string <$> lm_KnownHosts req) in
  let raw := <["ssh" := json_object sshRaw]> raw in
  let g := with_ssh (MkGoConfig c static (gc_peers g)) (Some ssh) (gc_peers g) in
  c ← NormalizeLocalSSHPaths homeDir (gc_config g);
  Ok (with_config g c, raw, ()).

Definition updateSSHLocalMaterialWithGate (gateEnabled : bool) (data : string) (req : SSHLocalMaterialUpdateRequest) : result string (raw_object * Z) :=
  if negb gateEnabled then Err ErrConfigV2WritesDisabled
  else if (default 0%Z (lm_ExpectedConfigRevision req) =? 0)%Z then Err ErrConfigRevisionConflict
  else
    match lm_Transport req, lm_SharedKey req, lm_SyncKey req, lm_KnownHosts req with
    | None, None, None, None => Err "ssh_local_material_update_empty"
    | _, _, _, _ =>
        _ ← ensure (bool_decide (default TransportSSH (lm_Transport req) = TransportSSH)) "invalid_transport";
        _ ← (match lm_SharedKey req with Some k => ensure (SharedKeyIsStandard32Bytes k) "invalid_shared_key" | None => Ok () end);
        _ ← (match lm_SyncKey req with Some p => recode (ValidateSSHExecutablePath p) "invalid_sync_key" | None => Ok () end);
        _ ← (match lm_KnownHosts req with Some p => recode (ValidateSSHExecutablePath p) "invalid_known_hosts" | None => Ok () end);
        '(out, _, revision) ← withSSHPeerConfigUpdate gateEnabled data
          (MkExpectation RevisionStateVersioned (lm_ExpectedConfigRevision req)) (apply_material req);
        Ok (out, revision)
    end.

(** ** hostid.go *)

Definition RequirePersistedHostID (c : option Config) : result string string :=
  match c with
  | None => Err "host_id_not_persisted"
  | Some c =>
      if bool_decide (Hostname c = "") then Err "host_id_not_persisted"
      else _ ← recode (ValidateHostID (Hostname c)) "invalid_host_id"; Ok (Hostname c)
  end.

Record HostIDMigrationResult := MkHostIDResult {
  hr_HostID : string;
  hr_RevisionState : string;
  hr_ConfigRevision : option Z;
  hr_Migrated : bool;
}.

Definition RequirePersistedHostIDAtRevision (data expectedHostID : string) (expected : RevisionExpectation) : result string HostIDMigrationResult :=
  _ ← recode (ValidateHostID expectedHostID) "invalid_host_id";
  doc ← parseConfigDocument data;
  _ ← validateRevisionExpectation doc expected;
  let hostname := Hostname (gc_config (doc_Config doc)) in
  if bool_decide (hostname = "") then Err "host_id_not_persisted"
  else
    _ ← recode (ValidateHostID hostname) "invalid_host_id";
    if negb (bool_decide (hostname = expectedHostID)) then Err "host_id_mismatch"
    else Ok (MkHostIDResult hostname (doc_RevisionState doc) (doc_ConfigRevision doc) false).

Definition marshalLegacyHostIDDocument (doc : configDocument) (hostID : string) : raw_object :=
  <["hostname" := json_string hostID]> (delete "config_revision" (delete "config_version" (doc_raw doc))).

(** [derive]: what deriving a host id gives.  The object to write, if any, and the
    result. *)
Definition ensurePersistedHostIDWithGate (gateEnabled : bool) (derive : result string string) (data : string) :
    result string (option raw_object * HostIDMigrationResult) :=
  doc ← parseConfigDocument data;
  let hostname := Hostname (gc_config (doc_Config doc)) in
  if negb (bool_decide (hostname = "")) then
    _ ← recode (ValidateHostID hostname) "invalid_host_id";
    Ok (None, MkHostIDResult hostname (doc_RevisionState doc) (doc_ConfigRevision doc) false)
  else if negb (bool_decide (doc_RevisionState doc = RevisionStatePreV2)) && negb gateEnabled then Err ErrConfigV2WritesDisabled
  else
    hostID ← recode derive "derive_host_id";
    _ ← recode (ValidateHostID hostID) "invalid_host_id";
    if bool_decide (doc_RevisionState doc = RevisionStatePreV2) then
      Ok (Some (marshalLegacyHostIDDocument doc hostID), MkHostIDResult hostID (doc_RevisionState doc) (doc_ConfigRevision doc) true)
    else
      revision ← nextConfigRevision doc;
      let c := gc_config (doc_Config doc) in
      let g := with_config (doc_Config doc) (MkConfig (ConfigVersion c) (ConfigRevision c) (Listen c) (SharedKey c) (Discovery c) (StaticPeers c) hostID
        (Transport c) (SSH c) (Port c) (MaxHistory c)) in
      Ok (Some (marshalConfigDocument doc g revision), MkHostIDResult hostID RevisionStateVersioned (Some revision) true).

End document.

(** ** Lemmas: revisions *)

Lemma parse_json_int n code : (0 ≤ n ≤ Z.of_N max_uint64)%Z → parseJSONUint (json_int n) code = Ok n.
Proof.
  intros Hn. unfold parseJSONUint, json_int. assert (Hf : format_int n = format_uint (Z.to_N n)) by (destruct n; [done..|lia]).
  assert (HasPrefix (format_int n) "-" = false) as ->.
  { pose proof (format_uint_digits (Z.to_N n)) as Hd. rewrite <- Hf in Hd. destruct (format_int n) as [|a s]; [done|].
    unfold HasPrefix. cbn [String.prefix]. destruct (ascii_dec "-" a) as [<-|]; [|done]. by cbn in Hd. }
  rewrite Hf, ParseUint_format by lia. f_equal. lia.
Qed.

Lemma parse_json_uint_bound v code n : parseJSONUint v code = Ok n → (0 ≤ n ≤ Z.of_N max_uint64)%Z.
Proof.
  unfold parseJSONUint. destruct v as [| |m| | |]; try done. destruct (HasPrefix m "-"); [done|]. destruct (ParseUint m) as [u|] eqn:E; [|done].
  intros [= <-]. apply ParseUint_bound in E. lia.
Qed.

(** The revision of a document: absent, or at least 1. *)
Definition revision_ok (doc : configDocument) : Prop :=
  (doc_RevisionState doc = RevisionStatePreV2 ∨ doc_RevisionState doc = RevisionStateMissingRevision) ∧ doc_ConfigRevision doc = None ∨
  doc_RevisionState doc = RevisionStateVersioned ∧ ∃ r, doc_ConfigRevision doc = Some r ∧ (1 ≤ r ≤ Z.of_N max_uint64)%Z.

Section lemmas.
Context (homeDir : option string).

Lemma document_of_raw_Ok raw doc : document_of_raw homeDir raw = Ok doc → doc_raw doc = raw ∧ revision_ok doc.
Proof.
  unfold document_of_raw, revision_ok. destruct (raw !! "config_version") as [versionRaw|].
  2: { destruct (unmarshalTypedConfig raw) as [g|e]; [|done]. intros [= <-]. cbn. auto. }
  rewrite bind_Ok. intros (version & _ & H). destruct (negb (version =? 2)%Z); [done|]. rewrite bind_Ok in H. destruct H as (g & _ & H).
  rewrite bind_Ok in H. destruct H as (c & _ & H). rewrite bind_Ok in H. destruct H as (_ & _ & H).
  assert (Hr : ∀ revisionRaw, (revision ← parseJSONUint revisionRaw "invalid_config_revision";
      if (revision =? 0)%Z then Err "invalid_config_revision"
      else Ok (MkDocument (with_version (with_config g c) (Some 2%Z) (Some revision)) RevisionStateVersioned (Some revision) raw)) = Ok doc →
      doc_raw doc = raw ∧ revision_ok doc).
  { intros revisionRaw (r & Hr & Hd)%bind_Ok. destruct (r =? 0)%Z eqn:E; [done|]. apply Z.eqb_neq in E. injection Hd as <-. split; [done|]. right.
    split; [done|]. exists r. split; [done|]. apply parse_json_uint_bound in Hr. lia. }
  destruct (raw !! "config_revision") as [v|]; [|injection H as <-; unfold revision_ok; cbn; auto].
  destruct v; [injection H as <-; unfold revision_ok; cbn; auto|by eapply Hr..].
Qed.

Lemma parseConfigDocument_Ok data doc :
  parseConfigDocument homeDir data = Ok doc →
  ∃ v, parse data = Some v ∧ unmarshal_object v = Some (Some (doc_raw doc)) ∧ document_of_raw homeDir (doc_raw doc) = Ok doc ∧ revision_ok doc.
Proof.
  unfold parseConfigDocument. destruct (parse data) as [v|]; [|done]. destruct (unmarshal_object v) as [[raw|]|] eqn:E; [|done..].
  intros H. destruct (document_of_raw_Ok _ _ H) as [<- Hr]. eauto.
Qed.

(** A file that holds an object, spelt in any way. *)
Lemma parseConfigDocument_object data raw :
  parse data = Some (json_object raw) → parseConfigDocument homeDir data = document_of_raw homeDir raw.
Proof. intros H. unfold parseConfigDocument. rewrite H. by rewrite unmarshal_json_object. Qed.

Lemma validateRevisionExpectation_Ok doc expected :
  validateRevisionExpectation doc expected = Ok () ↔
  doc_RevisionState doc = ex_State expected ∧
  ((ex_State expected = RevisionStatePreV2 ∨ ex_State expected = RevisionStateMissingRevision) ∧ ex_Revision expected = None ∨
   ex_State expected = RevisionStateVersioned ∧ ∃ r, ex_Revision expected = Some r ∧ doc_ConfigRevision doc = Some r ∧ r ≠ 0%Z).
Proof.
  unfold validateRevisionExpectation. destruct (decide (doc_RevisionState doc = ex_State expected)) as [Hs|Hs].
  2: { rewrite bool_decide_eq_false_2 by done. split; [done|]. by intros [? _]. }
  rewrite bool_decide_eq_true_2 by done. cbn [negb].
  destruct (decide (ex_State expected ∈ [RevisionStatePreV2; RevisionStateMissingRevision])) as [Hin|Hin].
  - rewrite bool_decide_eq_true_2 by done. assert (ex_State expected = RevisionStatePreV2 ∨ ex_State expected = RevisionStateMissingRevision) as Hst by set_solver.
    destruct (ex_Revision expected) as [r|]; split; [done| |auto|done].
    intros (_ & [[_ Hn]|(Hv & _)]); [done|]. rewrite Hv in Hst. by destruct Hst.
  - rewrite bool_decide_eq_false_2 by done. destruct (decide (ex_State expected = RevisionStateVersioned)) as [Hv|Hv].
    + rewrite bool_decide_eq_true_2 by done. destruct (ex_Revision expected) as [want|], (doc_ConfigRevision doc) as [have|]; split; try done.
      * destruct (want =? 0)%Z eqn:E1, (have =? want)%Z eqn:E2; try done. bool_prop. subst. intros _. split; [done|]. right. eauto.
      * intros (_ & [[H _]|(_ & r & [= ->] & [= ->] & Hr)]); [set_solver|]. apply Z.eqb_neq in Hr as ->. by rewrite Z.eqb_refl.
      * intros (_ & [[H _]|(_ & r & [= ->] & Hd & _)]); [set_solver|done].
      * intros (_ & [[H _]|(_ & r & Hd & _)]); [set_solver|done].
      * intros (_ & [[H _]|(_ & r & Hd & _)]); [set_solver|done].
    + rewrite bool_decide_eq_false_2 by done. split; [done|]. intros (_ & [[H _]|[H _]]); set_solver.
Qed.

(** The next revision: one more, never past what a uint64 holds. *)
Lemma nextConfigRevision_Ok doc next :
  revision_ok doc → nextConfigRevision doc = Ok next → next = (default 0 (doc_ConfigRevision doc) + 1)%Z ∧ (1 ≤ next ≤ Z.of_N max_uint64)%Z.
Proof.
  unfold nextConfigRevision. intros [[Hs Hn]|(Hs & r & Hr & Hb)].
  - rewrite bool_decide_eq_false_2 by (destruct Hs as [-> | ->]; done). cbn [negb]. intros [= <-]. rewrite Hn. split; [done|]. by vm_compute.
  - rewrite bool_decide_eq_true_2, Hr by done. cbn [negb from_option]. unfold id. destruct (r =? Z.of_N max_uint64)%Z eqn:E; [done|]. apply Z.eqb_neq in E. intros [= <-]. lia.
Qed.

End lemmas.

(** ** Lemmas: the members written *)

(** The members [applyConfigScalars] decides on: value, and whether it is not zero. *)
Definition scalars (g : go_config) : list (string * (json * bool)) :=
  let c := gc_config g in
  let str s := (json_string s, negb (bool_decide (s = ""))) in
  let int z := (json_int z, negb (z =? 0)%Z) in
  [("listen", str (Listen c)); ("shared_key", str (SharedKey c)); ("discovery", str (Discovery c));
   ("static_peers", (json_strings (gc_static g) (StaticPeers c), negb (bool_decide (StaticPeers c = []))));
   ("hostname", str (Hostname c)); ("transport", str (Transport c)); ("port", int (Port c)); ("max_history", int (MaxHistory c))].

Definition version_keys : list string := ["config_version"; "config_revision"].

Definition scalar_keys : list string := ["listen"; "shared_key"; "discovery"; "static_peers"; "hostname"; "transport"; "port"; "max_history"].

Lemma scalars_keys g : (scalars g).*1 = scalar_keys.
Proof. done. Qed.

Lemma lookup_setRawIf raw key v b k :
  setRawIf raw key v b !! k = if decide (k = key) then (if b then Some v else None) else raw !! k.
Proof.
  unfold setRawIf. destruct (decide (k = key)) as [->|Hne]; destruct b; [apply lookup_insert_eq|apply lookup_delete_eq|by apply lookup_insert_ne|by apply lookup_delete_ne].
Qed.

Lemma lookup_set_members (present : raw_object) l (out : raw_object) k :
  NoDup l.*1 →
  foldl (λ (out : raw_object) kv, setRawIf out kv.1 kv.2.1 (hasRaw present kv.1 || kv.2.2)) out l !! k =
  match list_to_map (M := gmap string (json * bool)) l !! k with
  | Some (v, b) => if hasRaw present k || b then Some v else None
  | None => out !! k
  end.
Proof.
  revert out. induction l as [|[key [v b]] l IH]; intros out Hnd; [done|]. apply NoDup_cons in Hnd as [Hnin Hnd]. cbn [foldl fst snd].
  rewrite IH, list_to_map_cons by done. destruct (decide (k = key)) as [->|Hne].
  - rewrite lookup_insert_eq, not_elem_of_list_to_map_1 by done. by rewrite lookup_setRawIf, decide_True.
  - rewrite lookup_insert_ne by done. destruct (_ !! k) as [[]|]; [done|]. by rewrite lookup_setRawIf, decide_False.
Qed.

Lemma lookup_applyConfigScalars out present g next k :
  applyConfigScalars out present g next !! k =
  if decide (k = "config_revision") then Some (json_int next)
  else if decide (k = "config_version") then Some (json_int 2)
  else match list_to_map (M := gmap string (json * bool)) (scalars g) !! k with
  | Some (v, b) => if hasRaw present k || b then Some v else None
  | None => out !! k
  end.
Proof.
  change (applyConfigScalars out present g next) with
    (<["config_revision" := json_int next]> (<["config_version" := json_int 2]>
      (foldl (λ (out : raw_object) kv, setRawIf out kv.1 kv.2.1 (hasRaw present kv.1 || kv.2.2)) out (scalars g)))).
  destruct (decide (k = "config_revision")) as [->|H1]; [apply lookup_insert_eq|]. rewrite lookup_insert_ne by done.
  destruct (decide (k = "config_version")) as [->|H2]; [apply lookup_insert_eq|]. rewrite lookup_insert_ne by done.
  apply lookup_set_members. rewrite scalars_keys. by apply (bool_decide_eq_true_1 _), eq_refl.
Qed.

(** What no typed field stands for is written as it was. *)
Lemma applyConfigScalars_other out present g next k :
  k ∉ version_keys → k ∉ scalar_keys → applyConfigScalars out present g next !! k = out !! k.
Proof.
  intros Hv Hs. rewrite lookup_applyConfigScalars, !decide_False by set_solver. by rewrite not_elem_of_list_to_map_1.
Qed.

Lemma marshalConfigDocument_lookup doc g next k :
  k ≠ "ssh" → marshalConfigDocument doc g next !! k = applyConfigScalars (doc_raw doc) (doc_raw doc) g next !! k.
Proof.
  intros Hk. unfold marshalConfigDocument. destruct (same_ssh _ _); [done|]. cbn [negb].
  destruct (SSH (gc_config g)); [by rewrite lookup_insert_ne|by rewrite lookup_delete_ne].
Qed.

Lemma marshalPreserving_lookup g raw next k :
  k ≠ "ssh" → marshalConfigDocumentPreservingRawSSH g raw next !! k = applyConfigScalars raw raw g next !! k.
Proof.
  intros Hk. unfold marshalConfigDocumentPreservingRawSSH. destruct (SSH (gc_config g)); [|by rewrite lookup_delete_ne].
  destruct (hasRaw _ _); [done|by rewrite lookup_insert_ne].
Qed.

Lemma marshalled_versions (out : raw_object) g next :
  (∀ k, k ≠ "ssh" → ∃ raw, out !! k = applyConfigScalars raw raw g next !! k) →
  out !! "config_version" = Some (json_int 2) ∧ out !! "config_revision" = Some (json_int next).
Proof.
  intros H. destruct (H "config_version") as [raw1 ->]; [done|]. destruct (H "config_revision") as [raw2 ->]; [done|].
  by rewrite !lookup_applyConfigScalars.
Qed.

Section writes.
Context (homeDir : option string).

(** Whatever is read from an object with these members is at the revision written. *)
Lemma written_revision (out : raw_object) next doc :
  out !! "config_version" = Some (json_int 2) → out !! "config_revision" = Some (json_int next) → (1 ≤ next ≤ Z.of_N max_uint64)%Z →
  document_of_raw homeDir out = Ok doc → doc_RevisionState doc = RevisionStateVersioned ∧ doc_ConfigRevision doc = Some next.
Proof.
  intros Hv Hr Hb. unfold document_of_raw. rewrite Hv, (parse_json_int 2) by (by vm_compute). cbn [mbind result_bind Z.eqb Pos.eqb negb].
  rewrite bind_Ok. intros (g & _ & H). rewrite bind_Ok in H. destruct H as (c & _ & H). rewrite bind_Ok in H. destruct H as (_ & _ & H).
  rewrite Hr in H. cbn [json_int] in H. change (VNumber (format_int next)) with (json_int next) in H. rewrite parse_json_int in H by lia. cbn [mbind result_bind] in H.
  destruct (next =? 0)%Z eqn:E; [apply Z.eqb_eq in E; lia|]. by injection H as <-.
Qed.

(** A write of the configuration file: the object written and the revision of the
    document it was made for. *)
Inductive config_write (data : string) : Z → raw_object → Prop :=
| write_scoped gate expected mutate out r :
    updateConfigV2Scoped homeDir gate data expected mutate = Ok out → ex_Revision expected = Some r → config_write data r out
| write_peer A gate expected (apply : go_config → raw_object → result string (go_config * raw_object * A)) out a next r :
    withSSHPeerConfigUpdate homeDir gate data expected apply = Ok (out, a, next) → ex_Revision expected = Some r → config_write data r out
| write_host_id gate derive out res doc r :
    ensurePersistedHostIDWithGate homeDir gate derive data = Ok (Some out, res) →
    parseConfigDocument homeDir data = Ok doc → doc_ConfigRevision doc = Some r → config_write data r out.

Lemma expected_revision doc expected r :
  validateRevisionExpectation doc expected = Ok () → ex_Revision expected = Some r → doc_ConfigRevision doc = Some r.
Proof. rewrite validateRevisionExpectation_Ok. intros (_ & [[_ Hn]|(_ & r' & Hr & Hd & _)]) He; congruence. Qed.

Lemma updateConfigV2Scoped_Ok gate data expected mutate out :
  updateConfigV2Scoped homeDir gate data expected mutate = Ok out ↔
  gate = true ∧ ∃ doc g raw c next,
    parseConfigDocument homeDir data = Ok doc ∧ validateRevisionExpectation doc expected = Ok () ∧
    mutate (clone_config (doc_Config doc)) (doc_raw doc) = Ok (g, raw) ∧ NormalizeLocalSSHPaths homeDir (gc_config g) = Ok c ∧
    ValidateSSHTransportConfig c = Ok () ∧ nextConfigRevision doc = Ok next ∧
    out = marshalConfigDocument (MkDocument (doc_Config doc) (doc_RevisionState doc) (doc_ConfigRevision doc) raw) (with_config g c) next.
Proof.
  unfold updateConfigV2Scoped. destruct gate; cbn [negb]; [|split; [done|by intros [? _]]]. split.
  - intros (doc & Hdoc & ([] & Hexp & ([g raw] & Hmut & (c & Hc & ([] & Hv & (next & Hn & [= <-])%bind_Ok)%bind_Ok)%bind_Ok)%bind_Ok)%bind_Ok)%bind_Ok.
    split; [done|]. by exists doc, g, raw, c, next.
  - intros (_ & doc & g & raw & c & next & -> & H1 & H2 & H3 & H4 & H5 & ->). cbn [mbind result_bind]. rewrite H1. cbn [mbind result_bind].
    rewrite H2. cbn [mbind result_bind]. rewrite H3. cbn [mbind result_bind]. rewrite H4. cbn [mbind result_bind]. by rewrite H5.
Qed.

Lemma withSSHPeerConfigUpdate_Ok {A} gate data expected (apply : go_config → raw_object → result string (go_config * raw_object * A)) out a next :
  withSSHPeerConfigUpdate homeDir gate data expected apply = Ok (out, a, next) ↔
  gate = true ∧ ∃ doc g raw,
    parseConfigDocument homeDir data = Ok doc ∧ validateRevisionExpectation doc expected = Ok () ∧
    apply (clone_config (doc_Config doc)) (doc_raw doc) = Ok (g, raw, a) ∧ ValidateSSHTransportConfig (gc_config g) = Ok () ∧
    nextConfigRevision doc = Ok next ∧ out = marshalConfigDocumentPreservingRawSSH g raw next.
Proof.
  unfold withSSHPeerConfigUpdate. destruct gate; cbn [negb]; [|split; [done|by intros [? _]]]. split.
  - intros (doc & Hdoc & ([] & Hexp & ([[g raw] upd] & Hmut & ([] & Hv & (next' & Hn & [= <- <- <-])%bind_Ok)%bind_Ok)%bind_Ok)%bind_Ok)%bind_Ok.
    split; [done|]. by exists doc, g, raw.
  - intros (_ & doc & g & raw & -> & H1 & H2 & H3 & H4 & ->). cbn [mbind result_bind]. rewrite H1. cbn [mbind result_bind].
    rewrite H2. cbn [mbind result_bind]. rewrite H3. cbn [mbind result_bind]. by rewrite H4.
Qed.

(** What the migration of the host id writes. *)
Lemma ensurePersistedHostID_writes gate derive data out res :
  ensurePersistedHostIDWithGate homeDir gate derive data = Ok (Some out, res) →
  ∃ doc hostID, parseConfigDocument homeDir data = Ok doc ∧ Hostname (gc_config (doc_Config doc)) = "" ∧ derive = Ok hostID ∧ ValidateHostID hostID = Ok () ∧
    hr_HostID res = hostID ∧ hr_Migrated res = true ∧
    (doc_RevisionState doc = RevisionStatePreV2 ∧ out = marshalLegacyHostIDDocument doc hostID ∧ hr_ConfigRevision res = None ∨
     doc_RevisionState doc ≠ RevisionStatePreV2 ∧ gate = true ∧ ∃ next g, nextConfigRevision doc = Ok next ∧ out = marshalConfigDocument doc g next ∧
       hr_ConfigRevision res = Some next ∧ Hostname (gc_config g) = hostID ∧ SSH (gc_config g) = SSH (gc_config (doc_Config doc)) ∧ gc_peers g = gc_peers (doc_Config doc)).
Proof.
  unfold ensurePersistedHostIDWithGate. intros (doc & Hdoc & H)%bind_Ok. pose proof Hdoc as (v & _ & _ & _ & Hok)%parseConfigDocument_Ok. exists doc.
  destruct (decide (Hostname (gc_config (doc_Config doc)) = "")) as [He|He].
  2: { rewrite bool_decide_eq_false_2 in H by done. cbn [negb] in H. rewrite bind_Ok in H. by destruct H as (_ & _ & H). }
  rewrite bool_decide_eq_true_2 in H by done. cbn [negb] in H.
  destruct (decide (doc_RevisionState doc = RevisionStatePreV2)) as [Hs|Hs].
  - rewrite bool_decide_eq_true_2 in H by done. cbn [negb andb] in H. rewrite bind_Ok in H. destruct H as (hostID & Hd%recode_Ok & H).
    rewrite bind_Ok in H. destruct H as ([] & Hv%recode_Ok & [= <- <-]). exists hostID. split_all. left. split_all.
    cbn. destruct Hok as [[_ ?]|(Hs' & _)]; [done|]. by rewrite Hs in Hs'.
  - rewrite bool_decide_eq_false_2 in H by done. destruct gate; [|done]. cbn [negb andb] in H. rewrite bind_Ok in H. destruct H as (hostID & Hd%recode_Ok & H).
    rewrite bind_Ok in H. destruct H as ([] & Hv%recode_Ok & H). rewrite bind_Ok in H. destruct H as (next & Hn & [= <- <-]).
    exists hostID. split_all. right. split; [done|]. split; [done|]. eexists next, _. split_all.
Qed.

Lemma config_write_Ok data r out :
  config_write data r out →
  ∃ doc, parseConfigDocument homeDir data = Ok doc ∧ doc_ConfigRevision doc = Some r ∧ (1 ≤ r)%Z ∧ (r + 1 ≤ Z.of_N max_uint64)%Z ∧
    out !! "config_version" = Some (json_int 2) ∧ out !! "config_revision" = Some (json_int (r + 1)).
Proof.
  assert (Hnext : ∀ r doc next, parseConfigDocument homeDir data = Ok doc → doc_ConfigRevision doc = Some r → nextConfigRevision doc = Ok next →
    next = (r + 1)%Z ∧ (1 ≤ r)%Z ∧ (r + 1 ≤ Z.of_N max_uint64)%Z).
  { clear. intros r doc next (v & _ & _ & _ & Hok)%parseConfigDocument_Ok Hr Hn. destruct (nextConfigRevision_Ok _ _ Hok Hn) as [-> Hb]. rewrite Hr in *. cbn in Hb |- *.
    destruct Hok as [[_ ?]|(_ & r' & ? & ?)]; [congruence|]. assert (r' = r) by congruence. lia. }
  intros [gate expected mutate out' r' H He|A gate expected apply out' a next r' H He|gate derive out' res doc r' H Hdoc Hr].
  - apply updateConfigV2Scoped_Ok in H as (_ & doc & g & raw & c & next & Hdoc & Hexp & _ & _ & _ & Hn & ->). pose proof (expected_revision _ _ _ Hexp He) as Hr.
    destruct (Hnext _ doc next Hdoc Hr Hn) as (-> & ? & ?). exists doc. do 4 (split; [done|]). eapply marshalled_versions. intros k Hk. eexists. by apply marshalConfigDocument_lookup.
  - apply withSSHPeerConfigUpdate_Ok in H as (_ & doc & g & raw & Hdoc & Hexp & _ & _ & Hn & ->). pose proof (expected_revision _ _ _ Hexp He) as Hr.
    destruct (Hnext _ doc next Hdoc Hr Hn) as (-> & ? & ?). exists doc. do 4 (split; [done|]). eapply marshalled_versions. intros k Hk. eexists. by apply marshalPreserving_lookup.
  - apply ensurePersistedHostID_writes in H as (doc' & hostID & Hdoc' & _ & _ & _ & _ & _ & Hw). rewrite Hdoc in Hdoc'. injection Hdoc' as <-.
    pose proof Hdoc as (v & _ & _ & _ & Hok)%parseConfigDocument_Ok. destruct Hok as [[_ ?]|(Hs & _)]; [congruence|].
    destruct Hw as [(Hs' & _)|(_ & _ & next & g & Hn & -> & _)]; [by rewrite Hs in Hs'|].
    destruct (Hnext _ doc next Hdoc Hr Hn) as (-> & ? & ?). exists doc. do 4 (split; [done|]). eapply marshalled_versions. intros k Hk. eexists. by apply marshalConfigDocument_lookup.
Qed.

(** The life of the file: whatever each writer read and changed, a write leaves a text
    that spells its object. *)
Inductive config_history (start : string) : list Z → string → Prop :=
| history_start : config_history start [] start
| history_write revisions data r out data' :
    config_history start revisions data → config_write data r out → parse data' = Some (json_object out) → config_history start (revisions ++ [r]) data'.

Lemma config_history_revisions start doc r0 revisions data :
  parseConfigDocument homeDir start = Ok doc → doc_ConfigRevision doc = Some r0 → config_history start revisions data →
  revisions = seqZ r0 (Z.of_nat (length revisions)) ∧
  ∀ doc', parseConfigDocument homeDir data = Ok doc' → doc_ConfigRevision doc' = Some (r0 + Z.of_nat (length revisions))%Z.
Proof.
  intros Hdoc Hr0. induction 1 as [|revisions data r out data' Hh [IHr IHd] Hw Hp].
  - split; [done|]. intros doc' Hd. rewrite Hd in Hdoc. injection Hdoc as ->. rewrite Hr0. f_equal. cbn. lia.
  - apply config_write_Ok in Hw as (docr & Hdr & Hrev & H1 & H2 & Hv & Hrv). rewrite (IHd _ Hdr) in Hrev. injection Hrev as <-. rewrite length_app. cbn [length]. split.
    + replace (Z.of_nat (length revisions + 1)) with (Z.of_nat (length revisions) + 1)%Z by lia. rewrite seqZ_app by lia. by rewrite <- IHr.
    + intros doc' Hd. rewrite (parseConfigDocument_object _ _ _ Hp) in Hd. destruct (written_revision _ _ _ Hv Hrv ltac:(lia) Hd) as [_ ->]. f_equal. lia.
Qed.

End writes.

(** ** Lemmas: what is written is read back *)

Definition typed_keys : list string := scalar_keys ++ ["ssh"] ++ version_keys.

(** No member that encoding/json would take for a field under another spelling. *)
Definition plain (raw : raw_object) : Prop := ∀ name, name ∈ typed_keys → plain_key raw name.

Lemma plain_typed raw name : plain raw → bool_decide (name ∈ typed_keys) = true → plain_key raw name.
Proof. intros Hp Hn%bool_decide_eq_true_1. by apply Hp. Qed.

(** The value of one field of an object without other spellings. *)
Definition field_of {A} (conv : A → json → option A) (name : string) (raw : raw_object) (cur : A) : option A :=
  match raw !! name with Some v => conv cur v | None => Some cur end.

Lemma decode_field_plain {A} (conv : A → json → option A) name raw cur :
  plain_key raw name → EqualFold name name = true → decode_field conv name (members raw) cur = field_of conv name raw cur.
Proof. intros Hp Hr. unfold decode_field, field_of. rewrite struct_field_members by done. by destruct (raw !! name). Qed.

Lemma plain_sub raw raw' : (∀ k, is_Some (raw' !! k) → is_Some (raw !! k) ∨ k ∈ typed_keys) → plain raw → plain raw'.
Proof.
  intros Hsub Hp name Hn k Hk Hf. destruct (Hsub k Hk) as [H|H]; [by eapply Hp|].
  assert (Hall : forallb (λ a, forallb (λ b, negb (EqualFold a b) || bool_decide (a = b)) typed_keys) typed_keys = true) by (vm_compute; reflexivity).
  rewrite forallb_forall in Hall. specialize (Hall k (proj1 (list_elem_of_In _ _) H)). rewrite forallb_forall in Hall.
  specialize (Hall name (proj1 (list_elem_of_In _ _) Hn)). rewrite Hf in Hall. by apply bool_decide_eq_true_1 in Hall.
Qed.

(** The typed configuration of an object without other spellings, member by member. *)
Lemma unmarshalTypedConfig_plain raw :
  plain raw →
  unmarshalTypedConfig raw =
  match (
    listen ← field_of into_string "listen" raw "";
    shared ← field_of into_string "shared_key" raw "";
    discovery ← field_of into_string "discovery" raw "";
    static ← field_of (into_slice into_string "") "static_peers" raw None;
    hostname ← field_of into_string "hostname" raw "";
    transport ← field_of into_string "transport" raw "";
    ssh ← field_of (into_pointer (into_struct decode_SSHConfig) zero_ssh) "ssh" raw None;
    port ← field_of into_int "port" raw 0%Z;
    history ← field_of into_int "max_history" raw 0%Z;
    Some (MkGoConfig (MkConfig None None listen shared discovery (default [] static) hostname transport (fst <$> ssh) port history)
      (bool_decide (is_Some static)) (bool_decide (is_Some (ssh ≫= snd)))))
  with Some g => Ok g | None => Err "json" end.
Proof.
  intros Hp. unfold unmarshalTypedConfig, decode_Config.
  assert (Hp' : plain (delete "config_version" (delete "config_revision" raw))).
  { eapply plain_sub; [|exact Hp]. intros k Hk. left. rewrite lookup_delete_is_Some in Hk. destruct Hk as [_ Hk]. rewrite lookup_delete_is_Some in Hk. by destruct Hk. }
  do 11 rewrite decode_field_plain by (first [apply (plain_typed _ _ Hp')|idtac]; vm_compute; reflexivity).
  assert (Hf : ∀ A (conv : A → json → option A) name cur, bool_decide (name ∈ version_keys) = false →
    field_of conv name (delete "config_version" (delete "config_revision" raw)) cur = field_of conv name raw cur).
  { intros A conv name cur Hn%bool_decide_eq_false_1. unfold field_of. rewrite !lookup_delete_ne; [done|..]; intros <-; apply Hn; unfold version_keys; set_solver. }
  assert (Hd : ∀ A (conv : A → json → option A) name cur, bool_decide (name ∈ version_keys) = true →
    field_of conv name (delete "config_version" (delete "config_revision" raw)) cur = Some cur).
  { intros A conv name cur Hn%bool_decide_eq_true_1. unfold field_of. assert (name = "config_version" ∨ name = "config_revision") as [-> | ->]
      by (unfold version_keys in Hn; set_solver); [by rewrite lookup_delete_eq|by rewrite lookup_delete_ne, lookup_delete_eq]. }
  rewrite (Hd _ _ "config_version"), (Hd _ _ "config_revision") by (vm_compute; reflexivity). cbn [mbind option_bind]. do 9 rewrite Hf by (vm_compute; reflexivity). done.
Qed.

Definition scalars_ok (c : Config) : Prop :=
  Forall text_ok ([Listen c; SharedKey c; Discovery c; Hostname c; Transport c] ++ StaticPeers c) ∧ int_ok (Port c) ∧ int_ok (MaxHistory c).

Definition config_ok (c : Config) : Prop := scalars_ok c ∧ match SSH c with Some ssh => ssh_ok ssh | None => True end.

(** The members of one field of what was written. *)
Definition written (out raw : raw_object) (g : go_config) (name : string) : Prop :=
  out !! name = match list_to_map (M := gmap string (json * bool)) (scalars g) !! name with
    Some (v, b) => if hasRaw raw name || b then Some v else None | None => raw !! name end.

Lemma written_string out raw g name s :
  written out raw g name → list_to_map (M := gmap string (json * bool)) (scalars g) !! name = Some (json_string s, negb (bool_decide (s = ""))) →
  text_ok s → field_of into_string name out "" = Some s.
Proof.
  intros Hw Hs Ht. unfold field_of. rewrite Hw, Hs. destruct (hasRaw raw name); cbn [orb into_string json_string]; [by rewrite Ht|].
  case_bool_decide as He; cbn [negb into_string json_string]; [by subst|by rewrite Ht].
Qed.

Lemma written_int out raw g name z :
  written out raw g name → list_to_map (M := gmap string (json * bool)) (scalars g) !! name = Some (json_int z, negb (z =? 0)%Z) →
  int_ok z → field_of into_int name out 0%Z = Some z.
Proof.
  intros Hw Hs Hz. unfold field_of. rewrite Hw, Hs. destruct (hasRaw raw name); cbn [orb into_int json_int]; [by apply ParseInt_format|].
  destruct (z =? 0)%Z eqn:E; cbn [negb into_int json_int]; [apply Z.eqb_eq in E; by subst|by apply ParseInt_format].
Qed.

Lemma into_texts l : Forall text_ok l → into_elements into_string "" [] (json_string <$> l) = Some l.
Proof. induction 1 as [|s l Hs Hl IH]; [done|]. cbn [fmap list_fmap into_elements json_string into_string mbind option_bind tail]. by rewrite IH, Hs. Qed.

Lemma written_strings out raw g name b l :
  written out raw g name →
  list_to_map (M := gmap string (json * bool)) (scalars g) !! name = Some (json_strings b l, negb (bool_decide (l = []))) →
  Forall text_ok l → (b = false → l = []) →
  ∃ o, field_of (into_slice into_string "") name out None = Some o ∧ default [] o = l.
Proof.
  intros Hw Hs Hl Hb. unfold field_of. rewrite Hw, Hs.
  assert (∃ o, into_slice into_string "" None (json_strings b l) = Some o ∧ default [] o = l) as (o & Ho & Hd).
  { destruct b; cbn [json_strings into_slice]; [|by exists None; rewrite Hb]. exists (Some l). unfold default. by rewrite into_texts. }
  destruct (hasRaw raw name); cbn [orb]; [by exists o|]. case_bool_decide as He; cbn [negb]; [exists None; by subst|by exists o].
Qed.

(** ** Lemmas: paths under the home directory *)

Lemma NormalizeLocalSSHPaths_frame homeDir c c' :
  NormalizeLocalSSHPaths homeDir c = Ok c' →
  c' = MkConfig (ConfigVersion c) (ConfigRevision c) (Listen c) (SharedKey c) (Discovery c) (StaticPeers c) (Hostname c) (Transport c) (SSH c') (Port c) (MaxHistory c) ∧
  ∀ d, SSH d = SSH c → NormalizeLocalSSHPaths homeDir d =
    Ok (MkConfig (ConfigVersion d) (ConfigRevision d) (Listen d) (SharedKey d) (Discovery d) (StaticPeers d) (Hostname d) (Transport d) (SSH c') (Port d) (MaxHistory d)).
Proof.
  unfold NormalizeLocalSSHPaths. destruct c as [v r l s di st h t ssh p m], ssh as [ssh|]; cbn [SSH].
  2: { intros [= <-]. split; [done|]. intros d H. rewrite H. destruct d. cbn in H. by subst. }
  destruct (_ && _) eqn:E; [intros [= <-]; split; [done|]; intros d H; rewrite H, E; destruct d; cbn in H; by subst|].
  destruct homeDir as [home|]; [|done]. intros [= <-]. split; [done|]. intros d H. by rewrite H, E.
Qed.

Lemma absolute_path_expanded p code : optional_path p code = Ok () → needsHomeExpansion p = false.
Proof. intros H. destruct (decide (p = "")) as [->|Hne]; [done|]. by destruct (optional_path_Ok _ _ H Hne) as (t & -> & _). Qed.

(** A configuration that validates has no path left to expand. *)
Lemma validated_normal homeDir c : ValidateSSHTransportConfig c = Ok () → NormalizeLocalSSHPaths homeDir c = Ok c.
Proof.
  unfold ValidateSSHTransportConfig, NormalizeLocalSSHPaths. destruct (negb _); [done|]. destruct (SSH c) as [ssh|]; [|done].
  do 4 (destruct (_ : bool); [done|]). intros ([] & H1 & H)%bind_Ok. rewrite bind_Ok in H. destruct H as ([] & H2 & _).
  by rewrite (absolute_path_expanded _ _ H1), (absolute_path_expanded _ _ H2).
Qed.

Lemma scalar_key name : bool_decide (name ∈ scalar_keys) = true → name ∈ scalar_keys.
Proof. apply bool_decide_eq_true_1. Qed.

Lemma scalar_key_ne name other : name ∈ scalar_keys → bool_decide (other ∈ scalar_keys) = false → name ≠ other.
Proof. by intros Hn Ho%bool_decide_eq_false_1 ->. Qed.

Lemma typed_key name : bool_decide (name ∈ typed_keys) = true → name ∈ typed_keys.
Proof. apply bool_decide_eq_true_1. Qed.

Lemma not_key (name : string) (l : list string) : bool_decide (name ∈ l) = false → name ∉ l.
Proof. apply bool_decide_eq_false_1. Qed.

Lemma typed_key_in (name : string) (l : list string) : bool_decide (name ∈ l) = true → name ∈ l.
Proof. apply bool_decide_eq_true_1. Qed.

(** Marshalling brings no member but the typed ones. *)
Lemma marshalled_sub doc g next k :
  k ∉ typed_keys → is_Some (marshalConfigDocument doc g next !! k) → is_Some (doc_raw doc !! k).
Proof.
  intros Hnin. rewrite marshalConfigDocument_lookup by (intros ->; apply Hnin; by apply typed_key).
  rewrite applyConfigScalars_other; [done| |]; intros Hin; apply Hnin; unfold typed_keys; set_solver.
Qed.

Lemma host_id_text h : ValidateHostID h = Ok () → text_ok h.
Proof.
  intros (_ & _ & H)%ValidateHostID_Ok. apply ascii_json_text. eapply forall_bytes_impl; [|exact H]. intros [[] [] [] [] [] [] [] []]; done.
Qed.

Definition at_revision (c : Config) (revision : Z) : Config :=
  MkConfig (Some 2%Z) (Some revision) (Listen c) (SharedKey c) (Discovery c) (StaticPeers c) (Hostname c) (Transport c) (SSH c) (Port c) (MaxHistory c).

Section readback.
Context (homeDir : option string).

Lemma read_back (out raw : raw_object) g next o :
  plain out → out !! "config_version" = Some (json_int 2) → out !! "config_revision" = Some (json_int next) → (1 ≤ next ≤ Z.of_N max_uint64)%Z →
  (∀ name, name ∈ scalar_keys → written out raw g name) → scalars_ok (gc_config g) → (gc_static g = false → StaticPeers (gc_config g) = []) →
  ValidateSSHTransportConfig (gc_config g) = Ok () →
  field_of (into_pointer (into_struct decode_SSHConfig) zero_ssh) "ssh" out None = Some o →
  (∀ d, SSH d = fst <$> o → ∃ d', NormalizeLocalSSHPaths homeDir d = Ok d' ∧ SSH d' = SSH (gc_config g)) →
  ∃ doc, document_of_raw homeDir out = Ok doc ∧ gc_config (doc_Config doc) = at_revision (gc_config g) next ∧
    doc_RevisionState doc = RevisionStateVersioned ∧ doc_ConfigRevision doc = Some next.
Proof.
  intros Hp Hv Hr Hb Hw (Htexts & Hport & Hhist) Hst Hval Hssh Hnorm. rewrite !Forall_app, !Forall_cons in Htexts. destruct Htexts as [(?&?&?&?&?&_) Hsp].
  unfold document_of_raw. rewrite Hv, (parse_json_int 2) by (by vm_compute). cbn [mbind result_bind Z.eqb Pos.eqb negb].
  destruct (written_strings out raw g "static_peers" (gc_static g) (StaticPeers (gc_config g))) as (os & Hos & Hds); [by (apply Hw, scalar_key; vm_compute; reflexivity)|done..|].
  assert (Hg : ∃ g0, unmarshalTypedConfig out = Ok g0 ∧ gc_config g0 = MkConfig None None (Listen (gc_config g)) (SharedKey (gc_config g)) (Discovery (gc_config g))
    (StaticPeers (gc_config g)) (Hostname (gc_config g)) (Transport (gc_config g)) (fst <$> o) (Port (gc_config g)) (MaxHistory (gc_config g))).
  { eexists. rewrite unmarshalTypedConfig_plain by done.
    rewrite (written_string out raw g "listen" (Listen (gc_config g))) by (done || by (apply Hw, scalar_key; vm_compute; reflexivity)). cbn [mbind option_bind].
    rewrite (written_string out raw g "shared_key" (SharedKey (gc_config g))) by (done || by (apply Hw, scalar_key; vm_compute; reflexivity)). cbn [mbind option_bind].
    rewrite (written_string out raw g "discovery" (Discovery (gc_config g))) by (done || by (apply Hw, scalar_key; vm_compute; reflexivity)). cbn [mbind option_bind].
    rewrite Hos. cbn [mbind option_bind].
    rewrite (written_string out raw g "hostname" (Hostname (gc_config g))) by (done || by (apply Hw, scalar_key; vm_compute; reflexivity)). cbn [mbind option_bind].
    rewrite (written_string out raw g "transport" (Transport (gc_config g))) by (done || by (apply Hw, scalar_key; vm_compute; reflexivity)). cbn [mbind option_bind].
    rewrite Hssh. cbn [mbind option_bind].
    rewrite (written_int out raw g "port" (Port (gc_config g))) by (done || by (apply Hw, scalar_key; vm_compute; reflexivity)). cbn [mbind option_bind].
    rewrite (written_int out raw g "max_history" (MaxHistory (gc_config g))) by (done || by (apply Hw, scalar_key; vm_compute; reflexivity)). cbn [mbind option_bind].
    split; [reflexivity|]. cbn [gc_config]. by rewrite Hds. }
  destruct Hg as (g0 & -> & Hg0). cbn [mbind result_bind].
  destruct (Hnorm (gc_config g0)) as (c & Hc & Hcs); [by rewrite Hg0|]. rewrite Hc. cbn [mbind result_bind].
  apply NormalizeLocalSSHPaths_frame in Hc as [Hc _]. rewrite Hg0, Hcs in Hc. cbn in Hc.
  assert (ValidateSSHTransportConfig c = Ok ()) as ->. { rewrite Hc. exact Hval. } cbn [mbind result_bind].
  rewrite Hr. cbn [json_int]. change (VNumber (format_int next)) with (json_int next). rewrite parse_json_int by lia. cbn [mbind result_bind].
  destruct (next =? 0)%Z eqn:E; [apply Z.eqb_eq in E; lia|]. eexists. split; [done|]. cbn. by rewrite Hc.
Qed.

(** The ssh section of the object written, when [g] was validated. *)
Lemma written_ssh g :
  ValidateSSHTransportConfig (gc_config g) = Ok () → config_ok (gc_config g) →
  ∀ out : raw_object, out !! "ssh" = (encode_SSHConfig <$> SSH (gc_config g)) →
  ∃ o, field_of (into_pointer (into_struct decode_SSHConfig) zero_ssh) "ssh" out None = Some o ∧
  (∀ d, SSH d = fst <$> o → ∃ d', NormalizeLocalSSHPaths homeDir d = Ok d' ∧ SSH d' = SSH (gc_config g)).
Proof.
  intros Hval [_ Hok] out Ho. unfold field_of. rewrite Ho.
  assert (Hn : ∀ d, SSH d = SSH (gc_config g) → ∃ d', NormalizeLocalSSHPaths homeDir d = Ok d' ∧ SSH d' = SSH (gc_config g)).
  { intros d Hd. pose proof (validated_normal homeDir _ Hval) as (_ & Hf)%NormalizeLocalSSHPaths_frame. eexists. split; [by apply Hf|done]. }
  clear Hval. revert Hn Hok. destruct (SSH (gc_config g)) as [ssh|]; intros Hn Hok; cbn [fmap option_fmap option_map].
  - exists (Some (ssh, if bool_decide (Peers ssh = []) then None else Some (Peers ssh))). split; [|by apply Hn].
    change (Some <$> into_struct decode_SSHConfig zero_ssh (encode_SSHConfig ssh) = Some (Some (ssh, if bool_decide (Peers ssh = []) then None else Some (Peers ssh)))).
    by rewrite decode_encode_ssh.
  - exists None. split; [done|]. apply Hn.
Qed.

(** Updating a document whose raw object is only re-typed keeps its ssh section. *)
Lemma first_decoding data doc :
  parseConfigDocument homeDir data = Ok doc → plain (doc_raw doc) →
  ∃ o, field_of (into_pointer (into_struct decode_SSHConfig) zero_ssh) "ssh" (doc_raw doc) None = Some o ∧
  (SSH (gc_config (doc_Config doc)) = fst <$> o ∨
   ∃ d d', SSH d = fst <$> o ∧ NormalizeLocalSSHPaths homeDir d = Ok d' ∧ SSH d' = SSH (gc_config (doc_Config doc))).
Proof.
  intros (v & _ & _ & Hdoc & _)%parseConfigDocument_Ok Hp. unfold document_of_raw in Hdoc.
  assert (Hu : ∀ g, unmarshalTypedConfig (doc_raw doc) = Ok g →
    ∃ o, field_of (into_pointer (into_struct decode_SSHConfig) zero_ssh) "ssh" (doc_raw doc) None = Some o ∧ SSH (gc_config g) = fst <$> o).
  { intros g. rewrite unmarshalTypedConfig_plain by done. destruct (field_of (into_pointer _ _) _ _ _) as [o|].
    all: repeat match goal with |- match (mbind ?f ?x) with Some _ => _ | None => _ end = _ → _ => destruct x; cbn [mbind option_bind]; [|done] end.
    - intros [= <-]. by exists o.
    - done. }
  destruct (doc_raw doc !! "config_version") as [versionRaw|].
  - rewrite bind_Ok in Hdoc. destruct Hdoc as (version & _ & Hdoc). destruct (negb _); [done|]. rewrite bind_Ok in Hdoc. destruct Hdoc as (g & (o & Ho & Hs)%Hu & Hdoc).
    rewrite bind_Ok in Hdoc. destruct Hdoc as (c & Hc & Hdoc). rewrite bind_Ok in Hdoc. destruct Hdoc as ([] & _ & Hdoc).
    exists o. split; [done|]. right. exists (gc_config g), c. split; [done|]. split; [done|].
    destruct (doc_raw doc !! "config_revision") as [[]|]; try (by injection Hdoc as <-).
    all: rewrite bind_Ok in Hdoc; destruct Hdoc as (r & _ & Hdoc); destruct (r =? 0)%Z; [done|by injection Hdoc as <-].
  - rewrite bind_Ok in Hdoc. destruct Hdoc as (g & (o & Ho & Hs)%Hu & Hdoc). injection Hdoc as Hdoc. exists o. split; [done|]. left. by rewrite <- Hdoc.
Qed.
(** The host id a document has. *)
Lemma document_hostname raw doc :
  plain raw → document_of_raw homeDir raw = Ok doc → field_of into_string "hostname" raw "" = Some (Hostname (gc_config (doc_Config doc))).
Proof.
  intros Hp Hdoc. unfold document_of_raw in Hdoc.
  assert (Hu : ∀ g, unmarshalTypedConfig raw = Ok g → field_of into_string "hostname" raw "" = Some (Hostname (gc_config g))).
  { intros g. rewrite unmarshalTypedConfig_plain by done. destruct (field_of into_string "hostname" raw "") as [h|].
    all: repeat match goal with |- match (mbind ?f ?x) with Some _ => _ | None => _ end = _ → _ => destruct x; cbn [mbind option_bind]; [|done] end.
    - by intros [= <-].
    - done. }
  destruct (raw !! "config_version") as [versionRaw|].
  - rewrite bind_Ok in Hdoc. destruct Hdoc as (version & _ & Hdoc). destruct (negb _); [done|]. rewrite bind_Ok in Hdoc. destruct Hdoc as (g & Hs%Hu & Hdoc).
    rewrite bind_Ok in Hdoc. destruct Hdoc as (c & [Hc _]%NormalizeLocalSSHPaths_frame & Hdoc). rewrite bind_Ok in Hdoc. destruct Hdoc as ([] & _ & Hdoc). rewrite Hs. f_equal.
    assert (Hostname c = Hostname (gc_config g)) as <- by (by rewrite Hc).
    destruct (raw !! "config_revision") as [[]|]; try (by injection Hdoc as <-).
    all: rewrite bind_Ok in Hdoc; destruct Hdoc as (r & _ & Hdoc); destruct (r =? 0)%Z; [done|by injection Hdoc as <-].
  - rewrite bind_Ok in Hdoc. destruct Hdoc as (g & Hs%Hu & Hdoc). injection Hdoc as <-. exact Hs.
Qed.
End readback.

(** ** Theorems *)

Section theorems.
Context (homeDir : option string).


(** What an update of the raw object [raw] and the configuration [c] writes is read back. *)
Lemma written_reads_back data doc g raw c next out data' :
  parseConfigDocument homeDir data = Ok doc → plain (doc_raw doc) → plain raw →
  raw !! "ssh" = doc_raw doc !! "ssh" ∨ (raw !! "ssh" = None ∧ SSH c = None) →
  ValidateSSHTransportConfig c = Ok () → config_ok c → (gc_static g = false → StaticPeers c = []) → nextConfigRevision doc = Ok next →
  out = marshalConfigDocument (MkDocument (doc_Config doc) (doc_RevisionState doc) (doc_ConfigRevision doc) raw) (with_config g c) next →
  parse data' = Some (json_object out) →
  ∃ doc' next, parseConfigDocument homeDir data' = Ok doc' ∧ gc_config (doc_Config doc') = at_revision c next ∧
    doc_RevisionState doc' = RevisionStateVersioned ∧ doc_ConfigRevision doc' = Some next ∧ next = (default 0 (doc_ConfigRevision doc) + 1)%Z.
Proof.
  intros Hdoc Hplain Hplain' Hraw Hval Hok Hst Hn Hout Hdata'.
  pose proof Hdoc as (v & _ & _ & _ & Hrok)%parseConfigDocument_Ok. destruct (nextConfigRevision_Ok _ _ Hrok Hn) as [Hnext Hb].
  rewrite (parseConfigDocument_object _ _ _ Hdata').
  assert (∃ gc, with_config g c = gc ∧ gc_config gc = c ∧ gc_static gc = gc_static g) as (gc & Hgc & <- & Hgs) by (by eexists).
  rewrite Hgc in Hout. rewrite <- Hgs in Hst.
  assert (Hlook : ∀ k, k ≠ "ssh" → out !! k = applyConfigScalars raw raw gc next !! k).
  { intros k Hk. rewrite Hout. by rewrite marshalConfigDocument_lookup. }
  assert (Hssh : ∃ o, field_of (into_pointer (into_struct decode_SSHConfig) zero_ssh) "ssh" out None = Some o ∧
    (∀ d, SSH d = fst <$> o → ∃ d', NormalizeLocalSSHPaths homeDir d = Ok d' ∧ SSH d' = SSH (gc_config gc))).
  { rewrite Hout. unfold marshalConfigDocument. destruct (same_ssh gc _) eqn:Hs; cbn [negb].
    - unfold same_ssh in Hs. apply andb_true_iff in Hs as [Hs%bool_decide_eq_true_1 _]. cbn [doc_Config doc_raw] in *.
      assert (Hout' : applyConfigScalars raw raw gc next !! "ssh" = raw !! "ssh") by (apply applyConfigScalars_other; by apply not_key).
      unfold field_of. rewrite Hout'. destruct Hraw as [-> |[-> Hnone]].
      2: { exists None. split; [done|]. intros d Hd. exists d. unfold NormalizeLocalSSHPaths. cbn in Hd. by rewrite Hd, Hnone. }
      rewrite Hs. destruct (first_decoding _ _ _ Hdoc Hplain) as (o & Ho & Hcase). exists o. split; [exact Ho|].
      intros d Hd. destruct Hcase as [H|(d0 & d' & H0 & Hn0 & <-)].
      + pose proof (validated_normal homeDir _ Hval) as (_ & Hf)%NormalizeLocalSSHPaths_frame. eexists. split; [apply Hf; by rewrite Hd, Hs|by cbn; rewrite Hs].
      + apply NormalizeLocalSSHPaths_frame in Hn0 as [_ Hf]. eexists. split; [apply Hf; by rewrite Hd, H0|done].
    - apply (written_ssh homeDir gc Hval Hok). destruct (SSH (gc_config gc)); [apply lookup_insert_eq|apply lookup_delete_eq]. }
  destruct Hssh as (o & Ho & Hnorm).
  assert (Hv : out !! "config_version" = Some (json_int 2) ∧ out !! "config_revision" = Some (json_int next)).
  { eapply marshalled_versions. intros k Hk. eexists. by apply Hlook. }
  destruct (read_back homeDir out raw gc next o) as (doc' & ? & ? & ? & ?); try done; try apply Hv; try apply Hok.
  - eapply plain_sub; [|exact Hplain']. intros k Hk. destruct (decide (k ∈ typed_keys)) as [|Hnin]; [by right|left].
    rewrite Hout in Hk. by apply marshalled_sub in Hk.
  - intros name Hname. unfold written. rewrite Hlook, lookup_applyConfigScalars. 2: { by apply scalar_key_ne. }
    by rewrite !decide_False by (by apply scalar_key_ne).
  - by exists doc', next.
Qed.

(** What a scoped update writes is read back as the configuration it made: when the
    update leaves the raw object alone, no member of it spells a field in another way,
    and the values are UTF-8 and fit a Go int, then any text that spells the object
    written parses to the document of the next revision with exactly the new typed
    configuration, ssh section included. *)
Theorem written_config_reads_back gate data expected mutate out doc g c data'
    (Hdoc : parseConfigDocument homeDir data = Ok doc) (Hplain : plain (doc_raw doc))
    (Hmut : mutate (clone_config (doc_Config doc)) (doc_raw doc) = Ok (g, doc_raw doc))
    (Hc : NormalizeLocalSSHPaths homeDir (gc_config g) = Ok c) (Hok : config_ok c) (Hst : gc_static g = false → StaticPeers c = [])
    (Hout : updateConfigV2Scoped homeDir gate data expected mutate = Ok out) (Hdata' : parse data' = Some (json_object out)) :
  ∃ doc' next, parseConfigDocument homeDir data' = Ok doc' ∧ gc_config (doc_Config doc') = at_revision c next ∧
    doc_RevisionState doc' = RevisionStateVersioned ∧ doc_ConfigRevision doc' = Some next ∧ next = (default 0 (doc_ConfigRevision doc) + 1)%Z.
Proof.
  apply updateConfigV2Scoped_Ok in Hout as (_ & doc0 & g0 & raw0 & c0 & next & Hd0 & _ & Hm0 & Hc0 & Hval & Hn & Hout).
  rewrite Hdoc in Hd0. injection Hd0 as <-. rewrite Hmut in Hm0. injection Hm0 as <- <-. rewrite Hc in Hc0. injection Hc0 as <-.
  eapply (written_reads_back data doc g (doc_raw doc) c); try done. by left.
Qed.

(** The migration of the host id.  It succeeds with a valid host id: the one the
    document has, and then nothing is written; or, when it has none, the one derived,
    and then the object written keeps every member no field of the configuration stands
    for, and the ssh section; and whatever text spells that object, if it parses it has
    that host id, so migrating again writes nothing and answers the same. *)
Theorem host_id_migration gate derive data w res (Hres : ensurePersistedHostIDWithGate homeDir gate derive data = Ok (w, res)) :
  ValidateHostID (hr_HostID res) = Ok () ∧
  ∃ doc, parseConfigDocument homeDir data = Ok doc ∧
  match w with
  | None => Hostname (gc_config (doc_Config doc)) = hr_HostID res ∧ hr_Migrated res = false
  | Some out =>
      Hostname (gc_config (doc_Config doc)) = "" ∧ derive = Ok (hr_HostID res) ∧ hr_Migrated res = true ∧
      (gate = true ∨ doc_RevisionState doc = RevisionStatePreV2) ∧
      (∀ k, k ∉ scalar_keys ++ version_keys → out !! k = doc_raw doc !! k) ∧
      (plain (doc_raw doc) → ∀ data' doc' gate' derive', parse data' = Some (json_object out) → parseConfigDocument homeDir data' = Ok doc' →
        ∃ res', ensurePersistedHostIDWithGate homeDir gate' derive' data' = Ok (None, res') ∧ hr_HostID res' = hr_HostID res)
  end.
Proof.
  destruct w as [out|].
  2: { unfold ensurePersistedHostIDWithGate in Hres. rewrite bind_Ok in Hres. destruct Hres as (doc & Hdoc & H). 
    destruct (decide (Hostname (gc_config (doc_Config doc)) = "")) as [He|He].
    - rewrite bool_decide_eq_true_2 in H by done. cbn [negb] in H. destruct (_ && _); [done|]. rewrite bind_Ok in H. destruct H as (h & _ & H).
      rewrite bind_Ok in H. destruct H as ([] & _ & H). destruct (bool_decide _); [done|]. rewrite bind_Ok in H. by destruct H as (? & _ & H).
    - rewrite bool_decide_eq_false_2 in H by done. cbn [negb] in H. rewrite bind_Ok in H. destruct H as ([] & Hv%recode_Ok & [= <-]). split; [done|]. by exists doc. }
  apply ensurePersistedHostID_writes in Hres as (doc & hostID & Hdoc & Hempty & -> & Hv & <- & Hm & Hcase). split; [done|]. exists doc. split; [done|]. split_all.
  { destruct Hcase as [(? & _)|(_ & ? & _)]; auto. }
  { intros k Hk. destruct Hcase as [(_ & -> & _)|(_ & _ & next & g & _ & -> & _ & _ & Hs & Hp)].
    - unfold marshalLegacyHostIDDocument. assert (k ≠ "hostname" ∧ k ≠ "config_version" ∧ k ≠ "config_revision") as (? & ? & ?)
        by (split_all; intros ->; apply Hk; apply (typed_key_in _ (scalar_keys ++ version_keys)); by vm_compute).
      by rewrite lookup_insert_ne, !lookup_delete_ne by done.
    - unfold marshalConfigDocument, same_ssh. rewrite !bool_decide_eq_true_2 by done. cbn [andb negb]. apply applyConfigScalars_other; set_solver. }
  intros Hplain data' doc' gate' derive' Hp Hd. pose proof Hd as Hd'. rewrite (parseConfigDocument_object _ _ _ Hp) in Hd'.
  assert (Htext : text_ok (hr_HostID res)) by (by apply host_id_text).
  assert (Hout : plain out ∧ field_of into_string "hostname" out "" = Some (hr_HostID res)).
  { destruct Hcase as [(_ & -> & _)|(_ & _ & next & g & _ & -> & _ & Hh & _ & _)].
    - unfold marshalLegacyHostIDDocument. split.
      + eapply plain_sub; [|exact Hplain]. intros k. rewrite lookup_insert_is_Some, !lookup_delete_is_Some. intros [<-|(_ & _ & _ & ?)]; [right; by apply typed_key|by left].
      + unfold field_of. rewrite lookup_insert_eq. cbn [into_string json_string]. by rewrite Htext.
    - split.
      + eapply plain_sub; [|exact Hplain]. intros k Hk. destruct (decide (k ∈ typed_keys)) as [|Hnin]; [by right|left]. apply (marshalled_sub doc g next); [|done]. done.
      + apply (written_string _ (doc_raw doc) g); [|by rewrite <- Hh|done]. unfold written. by rewrite marshalConfigDocument_lookup, lookup_applyConfigScalars. }
  destruct Hout as [Hpo Hfo]. rewrite (document_hostname homeDir _ _ Hpo Hd') in Hfo. injection Hfo as Hfo.
  unfold ensurePersistedHostIDWithGate. rewrite Hd. cbn [mbind result_bind]. rewrite Hfo.
  rewrite bool_decide_eq_false_2. 2: { intros He. by rewrite He in Hv. } cbn [negb]. rewrite Hv. cbn [recode mbind result_bind]. by eexists.
Qed.

(** A scoped update changes what it is for.  It succeeds only with the gate on and on
    a document in the state and at the revision expected; the object written has every
    member no field stands for as the update left it, and the raw ssh section as the
    update left it when the typed one, its slice included, is as it was read. *)
Theorem update_confined gate data expected mutate out (Hout : updateConfigV2Scoped homeDir gate data expected mutate = Ok out) :
  gate = true ∧ ∃ doc g raw c, parseConfigDocument homeDir data = Ok doc ∧ doc_RevisionState doc = ex_State expected ∧ doc_ConfigRevision doc = ex_Revision expected ∧
    mutate (clone_config (doc_Config doc)) (doc_raw doc) = Ok (g, raw) ∧ NormalizeLocalSSHPaths homeDir (gc_config g) = Ok c ∧ ValidateSSHTransportConfig c = Ok () ∧
    (∀ k, k ∉ typed_keys → out !! k = raw !! k) ∧
    (SSH c = SSH (gc_config (doc_Config doc)) → gc_peers g = gc_peers (doc_Config doc) → out !! "ssh" = raw !! "ssh").
Proof.
  apply updateConfigV2Scoped_Ok in Hout as (-> & doc & g & raw & c & next & Hdoc & Hexp & Hmut & Hc & Hval & Hn & ->). split; [done|]. exists doc, g, raw, c.
  pose proof Hdoc as (v & _ & _ & _ & Hrok)%parseConfigDocument_Ok. apply validateRevisionExpectation_Ok in Hexp as [Hs Hexp]. split_all.
  - destruct Hexp as [[Hpre ->]|(Hv & r & -> & Hr & _)]; [|done]. destruct Hrok as [[_ ?]|(Hs' & _)]; [done|]. rewrite Hs in Hs'. destruct Hpre as [H|H]; by rewrite H in Hs'.
  - intros k Hk. rewrite marshalConfigDocument_lookup by (intros ->; apply Hk; by apply typed_key).
    apply applyConfigScalars_other; intros Hin; apply Hk; unfold typed_keys; set_solver.
  - intros Hssh Hp. unfold marshalConfigDocument, same_ssh. cbn [doc_Config doc_raw gc_config gc_peers with_config]. rewrite !bool_decide_eq_true_2 by done. cbn [andb negb].
    by rewrite applyConfigScalars_other by (by apply not_key).
Qed.

End theorems.

(** ** Witnesses *)

Definition sample_raw (revision : Z) (port : Z) (ssh : json) : raw_object :=
  raw_of [("config_version", json_int 2); ("config_revision", json_int revision); ("hostname", VString "alpha"); ("port", json_int port);
    ("extra", VObject [("x", VBool true)]); ("ssh", ssh)].

Definition sample_section : json := VObject [("known_hosts", VString "/k/h"); ("peers", VArray []); ("audit_log", VArray [VString "kept"])].

Definition sample_text revision port ssh : string := print (json_object (sample_raw revision port ssh)).

Definition at_7 : RevisionExpectation := MkExpectation RevisionStateVersioned (Some 7%Z).

Definition set_port (port : Z) (g : go_config) (raw : raw_object) : result string (go_config * raw_object) :=
  let c := gc_config g in
  Ok (with_config g (MkConfig (ConfigVersion c) (ConfigRevision c) (Listen c) (SharedKey c) (Discovery c) (StaticPeers c) (Hostname c) (Transport c) (SSH c) port (MaxHistory c)), raw).

Lemma set_port_raw port g raw g' raw' : set_port port g raw = Ok (g', raw') → raw' = raw.
Proof. unfold set_port. by intros [= _ <-]. Qed.

Lemma Ok_inj {E A} (a b : A) : @Ok E A a = Ok b → a = b.
Proof. by intros [= ->]. Qed.

Definition plain_section : json := VObject [("known_hosts", VString "/k/h"); ("audit_log", VArray [VString "kept"])].

Definition sample_doc : configDocument :=
  match parseConfigDocument None (sample_text 7 1 plain_section) with Ok doc => doc | Err _ => MkDocument (MkGoConfig (MkConfig None None "" "" "" [] "" "" None 0 0) false false) "" None ∅ end.

Lemma sample_doc_parsed : parseConfigDocument None (sample_text 7 1 plain_section) = Ok sample_doc.
Proof. vm_compute. reflexivity. Qed.

Lemma sample_update : updateConfigV2Scoped None true (sample_text 7 1 plain_section) at_7 (set_port 2) = Ok (sample_raw 8 2 plain_section).
Proof. vm_compute. reflexivity. Qed.

Lemma sample_update_text : parse (sample_text 8 2 plain_section) = Some (json_object (sample_raw 8 2 plain_section)).
Proof. vm_compute. reflexivity. Qed.


(** The object's keys are spelt as the fields are. *)
Definition plainb (raw : raw_object) : bool :=
  forallb (λ kv, forallb (λ name, negb (EqualFold kv.1 name) || bool_decide (kv.1 = name)) typed_keys) (map_to_list raw).

Lemma plainb_plain raw : plainb raw = true → plain raw.
Proof.
  unfold plainb. rewrite forallb_forall. intros H name Hn k [v Hv] Hf. specialize (H (k, v)). rewrite forallb_forall in H.
  specialize (H (proj1 (list_elem_of_In _ _) (proj2 (elem_of_map_to_list raw k v) Hv)) name (proj1 (list_elem_of_In _ _) Hn)). cbn [fst] in H.
  rewrite Hf in H. by apply bool_decide_eq_true_1 in H.
Qed.

Lemma written_config_reads_back_witness :
  ∃ doc' next, parseConfigDocument None (sample_text 8 2 plain_section) = Ok doc' ∧
    gc_config (doc_Config doc') = at_revision (MkConfig (Some 2%Z) (Some 7%Z) "" "" "" [] "alpha" "" (Some (MkSSHConfig "" "/k/h" 0 0 0 [])) 2 0) next ∧
    doc_RevisionState doc' = RevisionStateVersioned ∧ doc_ConfigRevision doc' = Some next ∧ next = (default 0 (doc_ConfigRevision sample_doc) + 1)%Z.
Proof.
  eapply (written_config_reads_back None true (sample_text 7 1 plain_section) at_7 (set_port 2) (sample_raw 8 2 plain_section) sample_doc).
  - apply sample_doc_parsed.
  - apply plainb_plain. vm_compute. reflexivity.
  - vm_compute. reflexivity.
  - vm_compute. reflexivity.
  - split; [split; [by repeat constructor|split; by vm_compute]|]. split; [by repeat constructor|]. split; [by repeat constructor|constructor].
  - reflexivity.
  - apply sample_update.
  - apply sample_update_text.
Defined.

Lemma host_id_migration_witness :
  ∃ doc, parseConfigDocument None (print (json_object (raw_of [("port", json_int 1)]))) = Ok doc ∧ ValidateHostID "beta" = Ok ().
Proof.
  destruct (host_id_migration None false (Ok "beta") (print (json_object (raw_of [("port", json_int 1)])))
    (Some (raw_of [("hostname", VString "beta"); ("port", json_int 1)])) (MkHostIDResult "beta" RevisionStatePreV2 None true)) as (Hv & doc & Hdoc & _).
  - vm_compute. reflexivity.
  - exists doc. split; [exact Hdoc|exact Hv].
Defined.

Lemma update_confined_witness : sample_raw 8 2 plain_section !! "extra" = Some (VObject [("x", VBool true)]).
Proof.
  destruct (update_confined None true (sample_text 7 1 plain_section) at_7 (set_port 2) (sample_raw 8 2 plain_section) sample_update)
    as (_ & doc & g & raw & c & Hdoc & _ & _ & Hmut & _ & _ & Hk & _).
  rewrite (Hk "extra") by (by apply not_key). apply set_port_raw in Hmut. rewrite sample_doc_parsed in Hdoc. apply Ok_inj in Hdoc. rewrite Hmut, <- Hdoc. vm_compute. reflexivity.
Defined.

(** An empty list of peers, which deleting the last one leaves, is decoded as an empty
    slice and copied as a nil one; the two compare as different, so an update of the
    port rewrites the ssh section from its typed fields and drops the audit log. *)
Theorem emptied_peers_lose_section :
  updateConfigV2Scoped None true (sample_text 7 1 sample_section) at_7 (set_port 2) = Ok (sample_raw 8 2 (VObject [("known_hosts", VString "/k/h")])).
Proof. vm_compute. reflexivity. Qed.
