(* ===== verification/Redact.v ===== *)
(** * Secrets in raw peers: the redaction and the scrubbing of config/ssh_peer_config.go

    A raw peer may hold members the program has no field for.  What an HTTP answer
    shows of it is redacted ([redactRawPeer]); a peer sent back to the loopback state is
    scrubbed ([scrubSecretLikeRawFields]).  Both decide by the names of the members. *)
From S2P Require Import Prelude GoStrings Utf8 Encoding NetIP Json RawJson.
From Stdlib Require Import Ascii String.
From stdpp Require Import strings.

#[local] Arguments String.append !_ _ / : simpl nomatch.

(** [strings.Contains] *)
Fixpoint Contains (s substr : string) : bool :=
  HasPrefix s substr || match s with EmptyString => false | String _ s' => Contains s' substr end.

(** The capital I with a dot. *)
Definition dotted_i : string := of_bytes [196; 176].

(** What [strings.ToLower] makes of a text, as far as words of ASCII letters go: of the
    letters beyond ASCII only the Kelvin sign and the dotted I have an ASCII lower
    case, the others keep away from it. *)
Fixpoint lower_from (skip : nat) (s : string) : string :=
  match s with
  | EmptyString => EmptyString
  | String a s' =>
      match skip with
      | S n => lower_from n s'
      | O =>
          if HasPrefix s kelvin then String "k" (lower_from 2 s')
          else if HasPrefix s dotted_i then String "i" (lower_from 1 s')
          else String (lower_byte a) (lower_from 0 s')
      end
  end.

Definition ToLower (s : string) : string := lower_from 0 s.

Definition secret_words : list string :=
  ["shared_key"; "secret"; "token"; "seed"; "password"; "credential"; "private"; "hmac"; "nonce"; "encrypted"; "clipboard"; "signed_frame"].

Definition secretLikePeerField (field : string) : bool :=
  let lower := ToLower field in
  if bool_decide (lower = "proof") then false
  else if bool_decide (lower ∈ ["shared_key"; "private_key"; "private_key_path"; "sync_key"; "sync_key_path"; "accept_proof"; "connect_proof"]) then true
  else existsb (Contains lower) secret_words.

Definition safeTopLevelPeerScalarField (field : string) : bool :=
  bool_decide (field ∈ ["id"; "enabled"; "accept"; "connect"; "persistent"; "on_demand";
    "ssh_host"; "ssh_user"; "ssh_port"; "install_path"; "gateway_path"; "migration_state"]).

Definition peerContainerValue (value : json) : bool := match value with VObject _ | VArray _ => true | _ => false end.

(** Lists through a function that may drop an element; an object decoded into a map,
    of whose members [f] says what becomes: of members with one key the last counts. *)
Definition keep {A B} (f : A → option B) : list A → list B :=
  fix go l := match l with [] => [] | a :: l => match f a with Some b => b :: go l | None => go l end end.

Definition through {A} (f : string → json → option A) : list (string * json) → gmap string (option A) :=
  (fix go (m : gmap string (option A)) l := match l with [] => m | kv :: l => go (<[kv.1 := f kv.1 kv.2]> m) l end) ∅.

(** ** Redaction *)

Section redact.
(** How values inside are redacted. *)
Context (redact : json → json).

Definition redactProofValue (value : json) : option json :=
  match value with
  | VObject _ => Some (redact value)
  | VArray l => Some (VArray (keep (λ nested, if peerContainerValue nested then Some (redact nested) else None) l))
  | _ => None
  end.

Definition redactDecodedPeerField (key : string) (value : json) (topLevelPeerField : bool) : option json :=
  if secretLikePeerField key then None
  else if EqualFold key "proof" then redactProofValue value
  else if topLevelPeerField && negb (safeTopLevelPeerScalarField key) && negb (peerContainerValue value) then None
  else Some (redact value).
End redact.

Fixpoint redactDecodedPeerValue (value : json) : json :=
  match value with
  | VObject l => json_object (omap id (through (λ key nested, redactDecodedPeerField redactDecodedPeerValue key nested false) l))
  | VArray l => VArray (map redactDecodedPeerValue l)
  | _ => value
  end.

Definition redactRawPeer (rawPeer : raw_object) : raw_object :=
  map_imap (λ key value, redactDecodedPeerField redactDecodedPeerValue key value true) rawPeer.

(** ** Scrubbing *)

(** What becomes of one member: dropped, or its value and whether that changed. *)
Definition scrub_field (scrub : json → json * bool) (key : string) (value : json) : option (json * bool) :=
  if secretLikePeerField key then None else Some (scrub value).

Definition field_changed (o : option (json * bool)) : bool := match o with Some (_, changed) => changed | None => true end.

(** The members kept, and whether anything changed. *)
Definition scrubbed (m : gmap string (option (json * bool))) : raw_object * bool :=
  (fst <$> omap id m, negb (bool_decide (map_Forall (λ _ o, field_changed o = false) m))).

(** The text of a value in which nothing changed is kept. *)
Fixpoint scrubSecretLikeRawValue (value : json) : json * bool :=
  match value with
  | VObject l =>
      let '(object, changed) := scrubbed (through (scrub_field scrubSecretLikeRawValue) l) in
      if changed then (json_object object, true) else (value, false)
  | VArray l =>
      let values := map scrubSecretLikeRawValue l in
      if existsb snd values then (VArray (map fst values), true) else (value, false)
  | _ => (value, false)
  end.

Definition scrubSecretLikeRawFields (raw : raw_object) (preserveKeys : gset string) : raw_object * bool :=
  scrubbed (map_imap (λ key value,
    Some (if bool_decide (key ∈ preserveKeys) then Some (value, false) else scrub_field scrubSecretLikeRawValue key value)) raw).

(** ** Examples *)

Example secret_names :
  secretLikePeerField <$> ["Shared_Key"; "to" +:+ kelvin +:+ "en"; "pr" +:+ dotted_i +:+ "vate"; "proof"; "PROOF"; "proofs"; "remote_secret_absence_proof"; "id"] =
  [true; true; true; false; false; false; true; false].
Proof. vm_compute. reflexivity. Qed.

Definition sample_raw_peer : raw_object :=
  raw_of [("id", VString "b"); ("note", VString "x"); ("proof", VObject [("accept_key_id", VString "k"); ("my_token", VNumber "1")]);
    ("Proof", VArray [VString "s"; VObject []]); ("extra", VArray [VObject [("SeeD", VNull); ("n", VBool true)]]); ("hmac", VObject [])].

Example redact_sample :
  redactRawPeer sample_raw_peer =
  raw_of [("id", VString "b"); ("proof", VObject [("accept_key_id", VString "k")]); ("Proof", VArray [VObject []]); ("extra", VArray [VObject [("n", VBool true)]])].
Proof. vm_compute. reflexivity. Qed.

Example scrub_sample :
  scrubSecretLikeRawFields sample_raw_peer {["proof"]} =
  (raw_of [("id", VString "b"); ("note", VString "x"); ("proof", VObject [("accept_key_id", VString "k"); ("my_token", VNumber "1")]);
    ("Proof", VArray [VString "s"; VObject []]); ("extra", VArray [VObject [("n", VBool true)]])], true).
Proof. vm_compute. reflexivity. Qed.

(** ** What a value shows *)

(** A name that a reader of the value meets at some depth; of members with one name a
    reader sees the last. *)
Inductive shows (k : string) : json → Prop :=
| shows_here l v : raw_of l !! k = Some v → shows k (VObject l)
| shows_member l k' v : raw_of l !! k' = Some v → shows k v → shows k (VObject l)
| shows_element l v : v ∈ l → shows k v → shows k (VArray l).

Definition no_secret (v : json) : Prop := ∀ k, shows k v → secretLikePeerField k = false.

(** ** Lemmas *)

Lemma lookup_through {A} (f : string → json → option A) l k : through f l !! k = f k <$> raw_of l !! k.
Proof.
  unfold through, raw_of. assert (H : ∀ (m : gmap string (option A)) (r : raw_object), m !! k = f k <$> r !! k →
    (fix go (m : gmap string (option A)) l := match l with [] => m | kv :: l => go (<[kv.1 := f kv.1 kv.2]> m) l end) m l !! k =
    f k <$> foldl (λ (m : raw_object) kv, <[kv.1 := kv.2]> m) r l !! k); [|by apply H; rewrite !lookup_empty].
  induction l as [|[k' v] l IH]; intros m r H; [done|]. cbn [foldl fst snd]. apply IH. destruct (decide (k = k')) as [->|Hne].
  - by rewrite !lookup_insert_eq.
  - by rewrite !lookup_insert_ne.
Qed.

Lemma lookup_kept {A} (m : gmap string (option A)) k : omap id m !! k = m !! k ≫= id.
Proof. apply lookup_omap. Qed.

Lemma in_keep {A B} (f : A → option B) l b : b ∈ keep f l → ∃ a, a ∈ l ∧ f a = Some b.
Proof.
  induction l as [|a l IH]; cbn [keep]; [by intros ?%elem_of_nil|]. destruct (f a) eqn:E.
  - intros [->|H]%elem_of_cons; [exists a; split; [by left|done]|]. destruct (IH H) as (a' & ? & ?). exists a'. split; [by right|done].
  - intros H. destruct (IH H) as (a' & ? & ?). exists a'. split; [by right|done].
Qed.

(** The members of an object are smaller than it. *)
Lemma object_member (P : json → Prop) l k v : Forall (λ kv, P kv.2) l → raw_of l !! k = Some v → P v.
Proof. intros HP H%raw_of_elem. rewrite Forall_forall in HP. by apply (HP (k, v)). Qed.

Lemma no_secret_object m : (∀ k v, m !! k = Some v → secretLikePeerField k = false ∧ no_secret v) → no_secret (json_object m).
Proof.
  intros H k Hs. unfold json_object in Hs. inversion Hs as [l v Hv|l k' v Hv Hk|]; subst; rewrite raw_of_members in Hv.
  - exact (proj1 (H _ _ Hv)).
  - destruct (H _ _ Hv) as [_ Hn]. by apply Hn.
Qed.

Lemma no_secret_array l : Forall no_secret l → no_secret (VArray l).
Proof. intros H k Hs. inversion Hs as [| |l' v Hv Hk]; subst. rewrite Forall_forall in H. by apply (H _ Hv). Qed.

Lemma no_secret_scalar v : peerContainerValue v = false → no_secret v.
Proof. intros H k Hs. by destruct Hs. Qed.

Lemma redact_proof_no_secret redact v w :
  (match v with VObject _ => no_secret (redact v) | VArray l => Forall (λ x, no_secret (redact x)) l | _ => True end) →
  redactProofValue redact v = Some w → no_secret w.
Proof.
  destruct v as [| | | |l|l]; cbn [redactProofValue]; intros H; try done; intros [= <-]; [|done].
  apply no_secret_array. rewrite Forall_forall in *. intros x (a & Ha & Hx)%in_keep. destruct (peerContainerValue a); [|done]. injection Hx as <-. by apply H.
Qed.

(** The redaction of the elements of an array, which the redaction of a proof looks at. *)
Definition deep (P : json → Prop) (v : json) : Prop := P v ∧ match v with VArray l => Forall P l | _ => True end.

Lemma redact_field_no_secret redact key v top w :
  deep (λ v, no_secret (redact v)) v → redactDecodedPeerField redact key v top = Some w → secretLikePeerField key = false ∧ no_secret w.
Proof.
  intros [Hv Hd]. unfold redactDecodedPeerField. destruct (secretLikePeerField key); [done|]. destruct (EqualFold key "proof").
  - intros H. split; [done|]. eapply redact_proof_no_secret; [|done]. by destruct v.
  - destruct (_ && _); [done|]. by intros [= <-].
Qed.

Lemma redact_value_deep v : deep (λ v, no_secret (redactDecodedPeerValue v)) v.
Proof.
  induction v as [|b|n|s|l IH|l IH] using json_nested_ind; (split; [|done || by apply (Forall_impl _ _ _ IH); intros x []]); try by apply no_secret_scalar.
  - cbn [redactDecodedPeerValue]. apply no_secret_array. apply Forall_map. apply (Forall_impl _ _ _ IH). by intros x [].
  - cbn [redactDecodedPeerValue]. apply no_secret_object. intros k v. rewrite lookup_kept, lookup_through.
    destruct (raw_of l !! k) as [x|] eqn:E; [|done]. cbn [fmap option_fmap option_map mbind option_bind id]. apply redact_field_no_secret.
    apply (object_member (deep (λ v, no_secret (redactDecodedPeerValue v))) l k x IH E).
Qed.

Lemma lookup_redactRawPeer peer key :
  redactRawPeer peer !! key = peer !! key ≫= λ v, redactDecodedPeerField redactDecodedPeerValue key v true.
Proof. apply map_lookup_imap. Qed.

(** *** Scrubbing *)

Lemma scrub_unchanged v : (scrubSecretLikeRawValue v).2 = false → (scrubSecretLikeRawValue v).1 = v.
Proof.
  destruct v as [| | | |l|l]; try done; cbn [scrubSecretLikeRawValue].
  - by destruct (existsb _ _).
  - destruct (scrubbed _) as [o []]; done.
Qed.

Lemma lookup_scrubbed m k : (scrubbed m).1 !! k = fst <$> (m !! k ≫= id).
Proof. unfold scrubbed. cbn [fst]. by rewrite lookup_fmap, lookup_kept. Qed.

Lemma scrubbed_same m : (scrubbed m).2 = false → ∀ k o, m !! k = Some o → ∃ v, o = Some (v, false).
Proof.
  unfold scrubbed. cbn [snd]. intros H%negb_false_iff%bool_decide_eq_true_1 k o Hk. specialize (H k o Hk). cbn in H.
  destruct o as [[v []]|]; [done|by exists v|done].
Qed.

(** Scrubbing, as a map on values: the members that are not secret-like, scrubbed. *)
Lemma scrub_object l k :
  (match (scrubSecretLikeRawValue (VObject l)).1 with VObject l' => raw_of l' | _ => ∅ end) !! k =
  raw_of l !! k ≫= λ v, if secretLikePeerField k then None else Some (scrubSecretLikeRawValue v).1.
Proof.
  cbn [scrubSecretLikeRawValue]. destruct (scrubbed _) as [o changed] eqn:E.
  assert (Ho : o !! k = raw_of l !! k ≫= λ v, if secretLikePeerField k then None else Some (scrubSecretLikeRawValue v).1).
  { replace o with (scrubbed (through (scrub_field scrubSecretLikeRawValue) l)).1 by (by rewrite E). rewrite lookup_scrubbed, lookup_through.
    destruct (raw_of l !! k) as [v|]; [|done]. cbn. unfold scrub_field. by destruct (secretLikePeerField k). }
  destruct changed; cbn [fst]; [by unfold json_object; rewrite raw_of_members|]. rewrite <- Ho.
  assert (Hs : (scrubbed (through (scrub_field scrubSecretLikeRawValue) l)).2 = false) by (by rewrite E).
  pose proof (scrubbed_same _ Hs k) as Hk. rewrite lookup_through in Hk. rewrite Ho.
  destruct (raw_of l !! k) as [v|]; [|done]. cbn in Hk |- *. destruct (Hk _ eq_refl) as [w Hw]. unfold scrub_field in Hw.
  destruct (secretLikePeerField k); [done|]. injection Hw as Hw. f_equal. pose proof (scrub_unchanged v) as Hu. rewrite Hw in Hu |- *. symmetry. by apply Hu.
Qed.

Lemma scrub_object_shape l : ∃ l', (scrubSecretLikeRawValue (VObject l)).1 = VObject l'.
Proof. cbn [scrubSecretLikeRawValue]. destruct (scrubbed _) as [o []]; by eexists. Qed.

Lemma scrub_array l : (scrubSecretLikeRawValue (VArray l)).1 = VArray (map (λ v, (scrubSecretLikeRawValue v).1) l).
Proof.
  cbn [scrubSecretLikeRawValue]. destruct (existsb snd _) eqn:E; cbn [fst]; f_equal.
  - by rewrite map_map.
  - rewrite <- (map_id l) at 1. apply map_ext_in. intros v Hv. symmetry. apply scrub_unchanged. apply Bool.not_true_is_false. intros Ht.
    assert (existsb snd (map scrubSecretLikeRawValue l) = true) as Hx; [|by rewrite Hx in E]. apply existsb_exists.
    exists (scrubSecretLikeRawValue v). split; [by apply in_map|done].
Qed.

Lemma scrub_no_secret v : no_secret (scrubSecretLikeRawValue v).1.
Proof.
  induction v as [|b|n|s|l IH|l IH] using json_nested_ind; try by apply no_secret_scalar.
  - rewrite scrub_array. apply no_secret_array. by apply Forall_map.
  - destruct (scrub_object_shape l) as [l' Hl]. rewrite Hl. intros k Hs. inversion Hs as [l0 v Hv|l0 k' v Hv Hk|]; subst.
    + pose proof (scrub_object l k) as Ho. rewrite Hl, Hv in Ho. destruct (raw_of l !! k); [|done]. cbn in Ho. by destruct (secretLikePeerField k).
    + pose proof (scrub_object l k') as Ho. rewrite Hl, Hv in Ho. destruct (raw_of l !! k') as [x|] eqn:E; [|done]. cbn in Ho.
      destruct (secretLikePeerField k'); [done|]. injection Ho as ->. by apply (object_member (λ v, no_secret (scrubSecretLikeRawValue v).1) l k' x IH E).
Qed.

(** What a scrubbed value redacts to is what the value itself redacts to. *)
Lemma redact_proof_scrubbed v :
  (match v with VArray l => Forall (λ x, redactDecodedPeerValue (scrubSecretLikeRawValue x).1 = redactDecodedPeerValue x) l | _ => True end) →
  redactDecodedPeerValue (scrubSecretLikeRawValue v).1 = redactDecodedPeerValue v →
  redactProofValue redactDecodedPeerValue (scrubSecretLikeRawValue v).1 = redactProofValue redactDecodedPeerValue v.
Proof.
  destruct v as [| | | |l|l]; intros Hl H; try done.
  - rewrite scrub_array. cbn [redactProofValue]. do 2 f_equal. clear H. induction Hl as [|x l Hx _ IH]; [done|]. cbn [map keep].
    replace (peerContainerValue (scrubSecretLikeRawValue x).1) with (peerContainerValue x).
    + destruct (peerContainerValue x); [|done]. by rewrite Hx, IH.
    + destruct x as [| | | |l'|l']; try done; [by rewrite scrub_array|]. by destruct (scrub_object_shape l') as [? ->].
  - destruct (scrub_object_shape l) as [l' Hl']. rewrite Hl' in H |- *. cbn [redactProofValue]. by rewrite H.
Qed.

Lemma container_scrubbed v : peerContainerValue (scrubSecretLikeRawValue v).1 = peerContainerValue v.
Proof. destruct v as [| | | |l|l]; try done; [by rewrite scrub_array|]. by destruct (scrub_object_shape l) as [? ->]. Qed.

Definition redacts_same (v : json) : Prop := redactDecodedPeerValue (scrubSecretLikeRawValue v).1 = redactDecodedPeerValue v.

Lemma redact_field_scrubbed key v top :
  deep redacts_same v →
  redactDecodedPeerField redactDecodedPeerValue key (scrubSecretLikeRawValue v).1 top = redactDecodedPeerField redactDecodedPeerValue key v top.
Proof.
  intros [Hv Hd]. unfold redactDecodedPeerField. destruct (secretLikePeerField key); [done|]. destruct (EqualFold key "proof").
  - apply redact_proof_scrubbed; [by destruct v|done].
  - rewrite container_scrubbed. destruct (_ && _); [done|]. by rewrite Hv.
Qed.

Lemma redact_scrubbed v : deep redacts_same v.
Proof.
  induction v as [|b|n|s|l IH|l IH] using json_nested_ind; (split; [|done || by apply (Forall_impl _ _ _ IH); intros x []]); try done; unfold redacts_same.
  - rewrite scrub_array. cbn [redactDecodedPeerValue]. f_equal. rewrite map_map. apply map_ext_in. intros x Hx. rewrite Forall_forall in IH.
    by destruct (IH x (proj2 (list_elem_of_In _ _) Hx)).
  - destruct (scrub_object_shape l) as [l' Hl]. rewrite Hl. cbn [redactDecodedPeerValue]. f_equal. apply map_eq. intros k. rewrite !lookup_kept, !lookup_through.
    pose proof (scrub_object l k) as Ho. rewrite Hl in Ho. rewrite Ho. destruct (raw_of l !! k) as [x|] eqn:E; [|done]. cbn [mbind option_bind fmap option_fmap option_map].
    destruct (secretLikePeerField k) eqn:Hk; cbn [fmap option_fmap option_map mbind option_bind id].
    + unfold redactDecodedPeerField. by rewrite Hk.
    + apply redact_field_scrubbed. apply (object_member (deep redacts_same) l k x IH E).
Qed.

Lemma lookup_scrubSecretLikeRawFields raw preserve key :
  (scrubSecretLikeRawFields raw preserve).1 !! key =
  raw !! key ≫= λ v, if bool_decide (key ∈ preserve) then Some v else if secretLikePeerField key then None else Some (scrubSecretLikeRawValue v).1.
Proof.
  unfold scrubSecretLikeRawFields. rewrite lookup_scrubbed, map_lookup_imap. destruct (raw !! key) as [v|]; [|done]. cbn.
  destruct (bool_decide (key ∈ preserve)); [done|]. unfold scrub_field. by destruct (secretLikePeerField key).
Qed.

Lemma safe_field_plain key : safeTopLevelPeerScalarField key = true → negb (secretLikePeerField key) && negb (EqualFold key "proof") = true.
Proof.
  unfold safeTopLevelPeerScalarField. intros H%bool_decide_eq_true_1%list_elem_of_In. revert key H.
  match goal with |- ∀ key, In key ?l → _ => apply (proj1 (forallb_forall (λ key, negb (secretLikePeerField key) && negb (EqualFold key "proof")) l)) end.
  vm_compute. reflexivity.
Qed.

(** ** Theorems *)

(** C33. What an answer shows of a raw peer.  No name a reader meets in it, at any depth,
    is secret-like, and at the top only the known scalars, a proof and containers are
    left; the known scalars are shown as they are; and nothing that scrubbing removes
    had been shown: a peer and what is left of it after scrubbing show the same. *)
Theorem redaction_sound (peer : raw_object) :
  no_secret (json_object (redactRawPeer peer)) ∧
  (∀ key v, redactRawPeer peer !! key = Some v → safeTopLevelPeerScalarField key = true ∨ peerContainerValue v = true) ∧
  (∀ key v, peer !! key = Some v → safeTopLevelPeerScalarField key = true → peerContainerValue v = false → redactRawPeer peer !! key = Some v) ∧
  (∀ preserve, redactRawPeer (scrubSecretLikeRawFields peer preserve).1 = redactRawPeer peer).
Proof.
  split; [|split; [|split]].
  - apply no_secret_object. intros key v. rewrite lookup_redactRawPeer. destruct (peer !! key) as [x|]; [|done]. cbn [mbind option_bind].
    apply redact_field_no_secret, redact_value_deep.
  - intros key v. rewrite lookup_redactRawPeer. destruct (peer !! key) as [x|]; [|done]. cbn [mbind option_bind]. unfold redactDecodedPeerField.
    destruct (secretLikePeerField key); [done|]. destruct (EqualFold key "proof").
    + intros H. right. destruct x; try done; by injection H as <-.
    + destruct (safeTopLevelPeerScalarField key); [by left|]. cbn [negb andb]. destruct (peerContainerValue x) eqn:Hx; [|done]. intros [= <-]. right. by destruct x.
  - intros key v Hp Hs Hc. rewrite lookup_redactRawPeer, Hp. cbn [mbind option_bind]. unfold redactDecodedPeerField.
    assert (secretLikePeerField key = false ∧ EqualFold key "proof" = false) as [-> ->].
    { pose proof (safe_field_plain key Hs) as H. apply andb_true_iff in H as [H1%negb_true_iff H2%negb_true_iff]. done. }
    rewrite Hs. cbn [negb andb]. by destruct v.
  - intros preserve. apply map_eq. intros key. rewrite !lookup_redactRawPeer, lookup_scrubSecretLikeRawFields. destruct (peer !! key) as [v|]; [|done]. cbn [mbind option_bind].
    destruct (bool_decide (key ∈ preserve)); [done|]. destruct (secretLikePeerField key) eqn:Hk; cbn [mbind option_bind].
    + unfold redactDecodedPeerField. by rewrite Hk.
    + apply redact_field_scrubbed, redact_scrubbed.
Qed.

(** What is left after scrubbing, but for the members preserved. *)
Lemma scrub_fields_sound raw preserve key v :
  (scrubSecretLikeRawFields raw preserve).1 !! key = Some v → key ∉ preserve → secretLikePeerField key = false ∧ no_secret v.
Proof.
  intros H Hk. rewrite lookup_scrubSecretLikeRawFields in H. destruct (raw !! key) as [x|]; [|done]. cbn [mbind option_bind] in H.
  rewrite bool_decide_eq_false_2 in H by done. destruct (secretLikePeerField key); [done|]. injection H as <-. split; [done|]. apply scrub_no_secret.
Qed.

(** A member that a later one of the same name hides is not seen by the scrubbing, and
    as nothing it sees changes the text is kept, secret and all. *)
Theorem hidden_member_survives_scrub :
  let v := VObject [("a", VObject [("password", VString "x")]); ("a", VNull)] in
  scrubSecretLikeRawFields (raw_of [("extra", v)]) ∅ = (raw_of [("extra", v)], false).
Proof. vm_compute. reflexivity. Qed.
