(* ===== verification/PeerRequests.v ===== *)
(** * Requests about SSH peers: the decoders of config/ssh_peer_config.go

    The bodies of the peer endpoints are decoded strictly: an object, no member the
    request does not have, every value of its type.  An error is its text up to the
    first colon.  [range] is the order in which Go ranges over a map; it decides which
    of several errors an upsert answers. *)
From S2P Require Import Prelude GoStrings Utf8 Encoding NetIP Paths Hostnames Config Clip Session SSHConfig Listener Json RawJson Words KnownHosts AuthorizedKeys SSHCommand Pairing ConfigDoc Redact.
From Stdlib Require Import Ascii String.
From stdpp Require Import strings.

#[local] Arguments String.append !_ _ / : simpl nomatch.

Record SSHPeerDirectionalProofPatch := MkProofPatch {
  pp_KeyID : string;
  pp_GatewayPath : string;
  pp_VerifiedAt : string;
  pp_VerifiedBy : string;
}.

Record SSHPeerRemoteSecretAbsenceProof := MkAbsence {
  ab_FailedPhase : string;
  ab_SecretWriteCommandSpawned : bool;
  ab_AbsenceVerifiedBy : string;
  ab_VerifiedAt : string;
  ab_RemoteConfigRevision : option Z;
  ab_LogID : string;
}.

Record SSHPeerUpsertFields := MkUpsertFields {
  uf_ID : option string;
  uf_Enabled : option bool;
  uf_Accept : option bool;
  uf_Connect : option bool;
  uf_Persistent : option bool;
  uf_OnDemand : option bool;
  uf_SSHHost : option string;
  uf_SSHUser : option string;
  uf_SSHPort : option Z;
  uf_InstallPath : option string;
  uf_GatewayPath : option string;
  uf_MigrationState : option string;
  uf_SharedKey : option string;
}.

Record SSHPeerUpsertRequest := MkUpsert {
  ur_ExpectedConfigRevision : option Z;
  ur_Peer : SSHPeerUpsertFields;
}.

Record SSHPeerProofPatchRequest := MkPatch {
  pr_ExpectedConfigRevision : option Z;
  pr_AcceptProof : option SSHPeerDirectionalProofPatch;
  pr_ConnectProof : option SSHPeerDirectionalProofPatch;
}.

Record SSHPeerTransitionRequest := MkTransition {
  tr_ExpectedConfigRevision : option Z;
  tr_FromState : string;
  tr_ToState : string;
  tr_Reason : string;
  tr_LogID : string;
  tr_FailedPhase : option string;
  tr_RemoteSecretAbsenceProof : option SSHPeerRemoteSecretAbsenceProof;
}.

Record SSHPeerDisableRequest := MkDisable {
  di_ExpectedConfigRevision : option Z;
  di_Reason : string;
}.

Record SSHPeerDeleteRequest := MkDelete {
  de_ExpectedConfigRevision : option Z;
  de_Reason : string;
  de_LogID : string;
}.

(** [^[a-z][a-z0-9_]{1,63}$] *)
Definition stableSSHPeerReasonPattern (s : string) : bool :=
  match s with
  | String a s' => is_lower a && matches (λ c, is_lower c || is_digit c || bool_decide (c = "_"%char)) 1 63 s'
  | EmptyString => false
  end.

Definition blank (s : string) : bool := bool_decide (TrimSpace s = "").

(** ** Single values *)

Definition decodeBoolField (value : json) : result string bool :=
  match value with VBool b => Ok b | _ => Err "invalid_ssh_peer_upsert_field" end.

Definition decodeStringField (value : json) : result string string :=
  match value with VString s => Ok s | _ => Err "invalid_ssh_peer_upsert_field" end.

Definition decodePortField (value : json) : result string Z :=
  match value with
  | VNumber n => match ParseInt n with Some z => Ok z | None => Err "invalid_ssh_peer_upsert_field" end
  | _ => Err "invalid_ssh_peer_upsert_field"
  end.

Definition decodeSSHPeerExpectedRevision (raw : raw_object) : result string (option Z) :=
  match raw !! "expected_config_revision" with
  | None | Some VNull => Ok None
  | Some value =>
      revision ← parseJSONUint value "invalid_expected_config_revision";
      if (revision =? 0)%Z then Err ErrConfigRevisionConflict else Ok (Some revision)
  end.

(** A member that has to be there, and a string. *)
Definition required_string (missing invalid : string) (raw : raw_object) (field : string) : result string string :=
  match raw !! field with
  | None | Some VNull => Err missing
  | Some (VString s) => Ok s
  | Some _ => Err invalid
  end.

Definition decodeRequiredSSHPeerMutationRevision (raw : raw_object) (action : string) : result string Z :=
  match raw !! "expected_config_revision" with
  | None | Some VNull => Err ("missing_ssh_peer_" +:+ action +:+ "_field")
  | Some _ =>
      revision ← decodeSSHPeerExpectedRevision raw;
      match revision with Some r => if (r =? 0)%Z then Err ErrConfigRevisionConflict else Ok r | None => Err ErrConfigRevisionConflict end
  end.

Definition decodeRequiredSSHPeerMutationStringField (raw : raw_object) (action field : string) : result string string :=
  let missing := "missing_ssh_peer_" +:+ action +:+ "_field" in
  out ← required_string missing ("invalid_ssh_peer_" +:+ action +:+ "_field") raw field;
  if blank out then Err missing else Ok out.

Definition decodeTransitionStringValue (value : json) : result string string :=
  match value with
  | VString s => if blank s then Err "invalid_ssh_peer_transition_field" else Ok s
  | _ => Err "invalid_ssh_peer_transition_field"
  end.

Definition decodeRequiredTransitionStringField (fields : raw_object) (field : string) : result string string :=
  match fields !! field with
  | None | Some VNull => Err "missing_ssh_peer_transition_field"
  | Some value => decodeTransitionStringValue value
  end.

Definition decodeRequiredRemoteAbsenceProofStringField (fields : raw_object) (field : string) : result string string :=
  out ← required_string "missing_ssh_peer_transition_field" "invalid_ssh_peer_transition_field" fields field;
  if blank out then Err "invalid_ssh_peer_transition_field" else Ok out.

Definition decodeRequiredRemoteAbsenceProofBoolField (fields : raw_object) (field : string) : result string bool :=
  match fields !! field with
  | None | Some VNull => Err "missing_ssh_peer_transition_field"
  | Some (VBool b) => Ok b
  | Some _ => Err "invalid_ssh_peer_transition_field"
  end.

Definition decodeRequiredProofPatchStringField (fields : raw_object) (field : string) : result string string :=
  required_string "missing_ssh_peer_proof_patch_field" "invalid_ssh_peer_proof_patch_field" fields field.

(** ** Objects *)

(** The members of an object, none but the allowed ones. *)
Definition strict_fields (invalid : string) (allowed : gset string) (value : json) : result string raw_object :=
  match unmarshal_object value with
  | Some (Some fields) => if bool_decide (dom fields ⊆ allowed) then Ok fields else Err "unknown_field"
  | _ => Err invalid
  end.

(** A whole body: one value, nothing after it. *)
Definition strict_body (malformed : string) (allowed : gset string) (body : string) : result string raw_object :=
  match parse body with Some value => strict_fields malformed allowed value | None => Err malformed end.

Definition upsert_fields : gset string :=
  {["id"; "enabled"; "accept"; "connect"; "persistent"; "on_demand"; "ssh_host"; "ssh_user"; "ssh_port"; "install_path"; "gateway_path"; "migration_state"]}.

Definition no_fields : SSHPeerUpsertFields := MkUpsertFields None None None None None None None None None None None None None.

(** One member of the peer. *)
Definition decode_upsert_field (req : SSHPeerUpsertFields) (field : string) (value : json) : result string SSHPeerUpsertFields :=
  let '(MkUpsertFields id en ac co pe od host user port inst gw st key) := req in
  if bool_decide (field = "shared_key") || secretLikePeerField field then Err "ssh_peer_secret_field_not_allowed"
  else if negb (bool_decide (field ∈ upsert_fields)) then Err "unknown_field"
  else if bool_decide (field = "id") then v ← decodeStringField value; Ok (MkUpsertFields (Some v) en ac co pe od host user port inst gw st key)
  else if bool_decide (field = "enabled") then v ← decodeBoolField value; Ok (MkUpsertFields id (Some v) ac co pe od host user port inst gw st key)
  else if bool_decide (field = "accept") then v ← decodeBoolField value; Ok (MkUpsertFields id en (Some v) co pe od host user port inst gw st key)
  else if bool_decide (field = "connect") then v ← decodeBoolField value; Ok (MkUpsertFields id en ac (Some v) pe od host user port inst gw st key)
  else if bool_decide (field = "persistent") then v ← decodeBoolField value; Ok (MkUpsertFields id en ac co (Some v) od host user port inst gw st key)
  else if bool_decide (field = "on_demand") then v ← decodeBoolField value; Ok (MkUpsertFields id en ac co pe (Some v) host user port inst gw st key)
  else if bool_decide (field = "ssh_host") then v ← decodeStringField value; Ok (MkUpsertFields id en ac co pe od (Some v) user port inst gw st key)
  else if bool_decide (field = "ssh_user") then v ← decodeStringField value; Ok (MkUpsertFields id en ac co pe od host (Some v) port inst gw st key)
  else if bool_decide (field = "install_path") then v ← decodeStringField value; Ok (MkUpsertFields id en ac co pe od host user port (Some v) gw st key)
  else if bool_decide (field = "gateway_path") then v ← decodeStringField value; Ok (MkUpsertFields id en ac co pe od host user port inst (Some v) st key)
  else if bool_decide (field = "ssh_port") then v ← decodePortField value; Ok (MkUpsertFields id en ac co pe od host user (Some v) inst gw st key)
  else v ← decodeStringField value; Ok (MkUpsertFields id en ac co pe od host user port inst gw (Some v) key).

Fixpoint decode_upsert_loop (req : SSHPeerUpsertFields) (l : list (string * json)) : result string SSHPeerUpsertFields :=
  match l with
  | [] => Ok req
  | (field, value) :: l => req ← decode_upsert_field req field value; decode_upsert_loop req l
  end.

Section decoders.
Context (range : raw_object → list (string * json)).

Definition decodeSSHPeerUpsertFields (value : json) : result string SSHPeerUpsertFields :=
  match unmarshal_object value with
  | Some (Some fields) => decode_upsert_loop no_fields (range fields)
  | _ => Err "invalid_ssh_peer_upsert_field"
  end.

Definition DecodeSSHPeerUpsertRequest (body : string) : result string SSHPeerUpsertRequest :=
  raw ← strict_body "malformed_ssh_peer_upsert_request" {["expected_config_revision"; "peer"]} body;
  if negb (hasRaw raw "expected_config_revision") then Err "missing_ssh_peer_upsert_field"
  else
    revision ← decodeSSHPeerExpectedRevision raw;
    if (default 0%Z revision =? 0)%Z then Err ErrConfigRevisionConflict
    else
      match raw !! "peer" with
      | None => Err "missing_ssh_peer_upsert_field"
      | Some peerRaw => peer ← decodeSSHPeerUpsertFields peerRaw; Ok (MkUpsert revision peer)
      end.
End decoders.

Definition decodeSSHPeerDirectionalProofPatch (value : json) : result string SSHPeerDirectionalProofPatch :=
  fields ← strict_fields "invalid_ssh_peer_proof_patch_field" {["key_id"; "gateway_path"; "verified_at"; "verified_by"]} value;
  keyID ← decodeRequiredProofPatchStringField fields "key_id";
  gatewayPath ← decodeRequiredProofPatchStringField fields "gateway_path";
  verifiedAt ← decodeRequiredProofPatchStringField fields "verified_at";
  verifiedBy ← decodeRequiredProofPatchStringField fields "verified_by";
  _ ← recode (validateProofFields keyID gatewayPath verifiedAt verifiedBy) "invalid_ssh_peer_proof_patch_field";
  Ok (MkProofPatch keyID gatewayPath verifiedAt verifiedBy).

(** A member that may be missing. *)
Definition optional_field {A} (raw : raw_object) (field : string) (conv : json → result string A) : result string (option A) :=
  match raw !! field with Some value => a ← conv value; Ok (Some a) | None => Ok None end.

Definition DecodeSSHPeerProofPatchRequest (body : string) : result string SSHPeerProofPatchRequest :=
  raw ← strict_body "malformed_ssh_peer_proof_patch_request" {["expected_config_revision"; "accept_proof"; "connect_proof"]} body;
  if negb (hasRaw raw "expected_config_revision") then Err "missing_ssh_peer_proof_patch_field"
  else
    revision ← decodeSSHPeerExpectedRevision raw;
    if (default 0%Z revision =? 0)%Z then Err ErrConfigRevisionConflict
    else
      accept ← optional_field raw "accept_proof" decodeSSHPeerDirectionalProofPatch;
      connect ← optional_field raw "connect_proof" decodeSSHPeerDirectionalProofPatch;
      match accept, connect with
      | None, None => Err "ssh_peer_proof_patch_empty"
      | _, _ => Ok (MkPatch revision accept connect)
      end.

Definition decodeSSHPeerRemoteSecretAbsenceProof (value : json) : result string SSHPeerRemoteSecretAbsenceProof :=
  fields ← strict_fields "invalid_ssh_peer_transition_field"
    {["failed_phase"; "secret_write_command_spawned"; "absence_verified_by"; "verified_at"; "remote_config_revision"; "log_id"]} value;
  failedPhase ← decodeRequiredRemoteAbsenceProofStringField fields "failed_phase";
  spawned ← decodeRequiredRemoteAbsenceProofBoolField fields "secret_write_command_spawned";
  absenceVerifiedBy ← decodeRequiredRemoteAbsenceProofStringField fields "absence_verified_by";
  verifiedAt ← decodeRequiredRemoteAbsenceProofStringField fields "verified_at";
  logID ← decodeRequiredRemoteAbsenceProofStringField fields "log_id";
  remoteRevision ← optional_field fields "remote_config_revision"
    (λ value, if isJSONNull value then Err "invalid_ssh_peer_transition_field" else parseJSONUint value "invalid_ssh_peer_transition_field");
  Ok (MkAbsence failedPhase spawned absenceVerifiedBy verifiedAt remoteRevision logID).

Definition DecodeSSHPeerTransitionRequest (body : string) : result string SSHPeerTransitionRequest :=
  raw ← strict_body "malformed_ssh_peer_transition_request"
    {["expected_config_revision"; "from_state"; "to_state"; "reason"; "log_id"; "failed_phase"; "remote_secret_absence_proof"]} body;
  if negb (hasRaw raw "expected_config_revision") then Err "missing_ssh_peer_transition_field"
  else
    revision ← decodeSSHPeerExpectedRevision raw;
    if (default 0%Z revision =? 0)%Z then Err ErrConfigRevisionConflict
    else
      fromState ← decodeRequiredTransitionStringField raw "from_state";
      toState ← decodeRequiredTransitionStringField raw "to_state";
      reason ← decodeRequiredTransitionStringField raw "reason";
      logID ← decodeRequiredTransitionStringField raw "log_id";
      failedPhase ← optional_field raw "failed_phase" decodeTransitionStringValue;
      proof ← optional_field raw "remote_secret_absence_proof" decodeSSHPeerRemoteSecretAbsenceProof;
      Ok (MkTransition revision fromState toState reason logID failedPhase proof).

Definition DecodeSSHPeerDisableRequest (body : string) : result string SSHPeerDisableRequest :=
  raw ← strict_body "malformed_ssh_peer_disable_request" {["expected_config_revision"; "reason"]} body;
  revision ← decodeRequiredSSHPeerMutationRevision raw "disable";
  reason ← decodeRequiredSSHPeerMutationStringField raw "disable" "reason";
  if negb (stableSSHPeerReasonPattern reason) then Err "invalid_ssh_peer_disable_field" else Ok (MkDisable (Some revision) reason).

Definition DecodeSSHPeerDeleteRequest (body : string) : result string SSHPeerDeleteRequest :=
  raw ← strict_body "malformed_ssh_peer_delete_request" {["expected_config_revision"; "reason"; "log_id"]} body;
  revision ← decodeRequiredSSHPeerMutationRevision raw "delete";
  reason ← decodeRequiredSSHPeerMutationStringField raw "delete" "reason";
  if negb (stableSSHPeerReasonPattern reason) then Err "invalid_ssh_peer_delete_field"
  else
    logID ← decodeRequiredSSHPeerMutationStringField raw "delete" "log_id";
    Ok (MkDelete (Some revision) reason logID).

(** ** What an upsert holds *)

Definition string_fields : list string := ["id"; "ssh_host"; "ssh_user"; "install_path"; "gateway_path"; "migration_state"].

Definition bool_fields : list string := ["enabled"; "accept"; "connect"; "persistent"; "on_demand"].

(** The value a member of the peer stands for. *)
Definition typed_value (field : string) (value : json) : option json :=
  if bool_decide (field ∈ string_fields) then match value with VString _ => Some value | _ => None end
  else if bool_decide (field ∈ bool_fields) then match value with VBool _ => Some value | _ => None end
  else if bool_decide (field = "ssh_port") then match value with VNumber n => json_int <$> ParseInt n | _ => None end
  else None.

(** The values given, by name. *)
Definition given (req : SSHPeerUpsertFields) (field : string) : option json :=
  if bool_decide (field = "id") then VString <$> uf_ID req
  else if bool_decide (field = "enabled") then VBool <$> uf_Enabled req
  else if bool_decide (field = "accept") then VBool <$> uf_Accept req
  else if bool_decide (field = "connect") then VBool <$> uf_Connect req
  else if bool_decide (field = "persistent") then VBool <$> uf_Persistent req
  else if bool_decide (field = "on_demand") then VBool <$> uf_OnDemand req
  else if bool_decide (field = "ssh_host") then VString <$> uf_SSHHost req
  else if bool_decide (field = "ssh_user") then VString <$> uf_SSHUser req
  else if bool_decide (field = "ssh_port") then json_int <$> uf_SSHPort req
  else if bool_decide (field = "install_path") then VString <$> uf_InstallPath req
  else if bool_decide (field = "gateway_path") then VString <$> uf_GatewayPath req
  else if bool_decide (field = "migration_state") then VString <$> uf_MigrationState req
  else None.

(** ** Lemmas *)

Lemma json_int_inj a b : json_int a = json_int b → a = b.
Proof. intros [= H]. by apply format_int_inj. Qed.

#[local] Instance VString_inj : Inj (=) (=) VString.
Proof. by intros a b [=]. Qed.

#[local] Instance VBool_inj : Inj (=) (=) VBool.
Proof. by intros a b [=]. Qed.

#[local] Instance json_int_Inj : Inj (=) (=) json_int.
Proof. exact json_int_inj. Qed.

(** Equal values by name, equal fields. *)
Lemma given_ext a b : (∀ field, given a field = given b field) → uf_SharedKey a = uf_SharedKey b → a = b.
Proof.
  intros H Hk. destruct a, b. cbn in Hk. subst.
  f_equal;
    [apply (inj (fmap VString)), (H "id")|apply (inj (fmap VBool)), (H "enabled")|apply (inj (fmap VBool)), (H "accept")|apply (inj (fmap VBool)), (H "connect")|apply (inj (fmap VBool)), (H "persistent")|apply (inj (fmap VBool)), (H "on_demand")|apply (inj (fmap VString)), (H "ssh_host")|apply (inj (fmap VString)), (H "ssh_user")|apply (inj (fmap json_int)), (H "ssh_port")|apply (inj (fmap VString)), (H "install_path")|apply (inj (fmap VString)), (H "gateway_path")|apply (inj (fmap VString)), (H "migration_state")].
Qed.

Lemma field_ne (a b : string) : bool_decide (a = b) = false → a ≠ b.
Proof. apply bool_decide_eq_false_1. Qed.

Lemma decodeStringField_Ok v s : decodeStringField v = Ok s → v = VString s.
Proof. destruct v; cbn [decodeStringField]; congruence. Qed.

Lemma decodeBoolField_Ok v b : decodeBoolField v = Ok b → v = VBool b.
Proof. destruct v; cbn [decodeBoolField]; congruence. Qed.

Lemma decodePortField_Ok v z : decodePortField v = Ok z → ∃ n, v = VNumber n ∧ ParseInt n = Some z.
Proof. destruct v as [| |n| | |]; cbn [decodePortField]; try congruence. destruct (ParseInt n) eqn:E; [|congruence]. intros [= <-]. eauto. Qed.

(** The fields other than the one that was set. *)
Ltac keep_others Hother := split; [reflexivity|split; [reflexivity|split; [reflexivity|intros name Hn; unfold given; rewrite !(Hother _ name Hn); reflexivity]]].

(** One member: refused, or it sets what is given under its name and nothing else. *)
Lemma decode_upsert_field_Ok req field value req' :
  decode_upsert_field req field value = Ok req' →
  secretLikePeerField field = false ∧ uf_SharedKey req' = uf_SharedKey req ∧
  ∃ w, typed_value field value = Some w ∧ ∀ name, given req' name = if decide (name = field) then Some w else given req name.
Proof.
  destruct req as [id en ac co pe od host user port inst gw st key]. unfold decode_upsert_field.
  destruct (bool_decide (field = "shared_key") || secretLikePeerField field) eqn:Hsec; [done|]. apply orb_false_iff in Hsec as [_ Hsec].
  destruct (negb (bool_decide (field ∈ upsert_fields))) eqn:Hallowed; [done|].
  assert (Hset : ∀ (f : string) (v : json) r, field = f → typed_value f value = Some v →
     uf_SharedKey r = key → given r f = Some v →
     (∀ name, name ≠ f → given r name = given (MkUpsertFields id en ac co pe od host user port inst gw st key) name) →
     secretLikePeerField field = false ∧ uf_SharedKey r = key ∧
     ∃ w, typed_value field value = Some w ∧ ∀ name, given r name = if decide (name = field) then Some w else given (MkUpsertFields id en ac co pe od host user port inst gw st key) name).
  { intros f v r -> Ht Hk Hg Hne. split; [done|]. split; [done|]. exists v. split; [done|]. intros name. destruct (decide (name = f)) as [->|]; [done|]. by apply Hne. }
  assert (Hother : ∀ f name : string, name ≠ f → bool_decide (name = f) = false) by (intros f name H; by apply bool_decide_eq_false_2).
  assert (Hs : ∀ (f : string) (mk : string → SSHPeerUpsertFields), field = f →
    (∀ v, typed_value f (VString v) = Some (VString v) ∧ uf_SharedKey (mk v) = key ∧ given (mk v) f = Some (VString v) ∧
      ∀ name, name ≠ f → given (mk v) name = given (MkUpsertFields id en ac co pe od host user port inst gw st key) name) →
    (v ← decodeStringField value; Ok (mk v)) = Ok req' → secretLikePeerField field = false ∧ uf_SharedKey req' = key ∧
     ∃ w, typed_value field value = Some w ∧ ∀ name, given req' name = if decide (name = field) then Some w else given (MkUpsertFields id en ac co pe od host user port inst gw st key) name).
  { intros f mk Hf H (v & ->%decodeStringField_Ok & [= <-])%bind_Ok. destruct (H v) as (? & ? & ? & ?). by eapply Hset. }
  assert (Hb : ∀ (f : string) (mk : bool → SSHPeerUpsertFields), field = f →
    (∀ v, typed_value f (VBool v) = Some (VBool v) ∧ uf_SharedKey (mk v) = key ∧ given (mk v) f = Some (VBool v) ∧
      ∀ name, name ≠ f → given (mk v) name = given (MkUpsertFields id en ac co pe od host user port inst gw st key) name) →
    (v ← decodeBoolField value; Ok (mk v)) = Ok req' → secretLikePeerField field = false ∧ uf_SharedKey req' = key ∧
     ∃ w, typed_value field value = Some w ∧ ∀ name, given req' name = if decide (name = field) then Some w else given (MkUpsertFields id en ac co pe od host user port inst gw st key) name).
  { intros f mk Hf H (v & ->%decodeBoolField_Ok & [= <-])%bind_Ok. destruct (H v) as (? & ? & ? & ?). by eapply Hset. }
  assert (Hin : field ∈ upsert_fields) by (by apply negb_false_iff, bool_decide_eq_true_1 in Hallowed). clear Hallowed.
  destruct (bool_decide_reflect (field = "id")) as [Hf|]; [apply (Hs "id"); [exact Hf|intros v; keep_others Hother]|].
  destruct (bool_decide_reflect (field = "enabled")) as [Hf|]; [apply (Hb "enabled"); [exact Hf|intros v; keep_others Hother]|].
  destruct (bool_decide_reflect (field = "accept")) as [Hf|]; [apply (Hb "accept"); [exact Hf|intros v; keep_others Hother]|].
  destruct (bool_decide_reflect (field = "connect")) as [Hf|]; [apply (Hb "connect"); [exact Hf|intros v; keep_others Hother]|].
  destruct (bool_decide_reflect (field = "persistent")) as [Hf|]; [apply (Hb "persistent"); [exact Hf|intros v; keep_others Hother]|].
  destruct (bool_decide_reflect (field = "on_demand")) as [Hf|]; [apply (Hb "on_demand"); [exact Hf|intros v; keep_others Hother]|].
  destruct (bool_decide_reflect (field = "ssh_host")) as [Hf|]; [apply (Hs "ssh_host"); [exact Hf|intros v; keep_others Hother]|].
  destruct (bool_decide_reflect (field = "ssh_user")) as [Hf|]; [apply (Hs "ssh_user"); [exact Hf|intros v; keep_others Hother]|].
  destruct (bool_decide_reflect (field = "install_path")) as [Hf|]; [apply (Hs "install_path"); [exact Hf|intros v; keep_others Hother]|].
  destruct (bool_decide_reflect (field = "gateway_path")) as [Hf|]; [apply (Hs "gateway_path"); [exact Hf|intros v; keep_others Hother]|].
  destruct (bool_decide_reflect (field = "ssh_port")) as [Hf|].
  - intros (z & (num & -> & Hz)%decodePortField_Ok & [= <-])%bind_Ok. eapply (Hset "ssh_port"); [exact Hf| |reflexivity|reflexivity|].
    + change (json_int <$> ParseInt num = Some (json_int z)). by rewrite Hz.
    + intros name Hn. unfold given. rewrite !(Hother _ name Hn). reflexivity.
  - apply (Hs "migration_state"); [|intros v; keep_others Hother]. clear Hset Hother Hs Hb. unfold upsert_fields in Hin. rewrite !elem_of_union, !elem_of_singleton in Hin. tauto.
Qed.

Lemma decode_upsert_field_conv req field value w :
  secretLikePeerField field = false → typed_value field value = Some w → ∃ req', decode_upsert_field req field value = Ok req'.
Proof.
  intros Hsec Ht. destruct req as [id en ac co pe od host user port inst gw st key]. unfold decode_upsert_field. rewrite Hsec.
  assert (Hcase : ∀ (f : string) (l : list string), bool_decide (f ∈ l) = true → f ∈ l) by (intros f l; apply bool_decide_eq_true_1).
  unfold typed_value in Ht. destruct (bool_decide (field ∈ string_fields)) eqn:H1; [|destruct (bool_decide (field ∈ bool_fields)) eqn:H2; [|destruct (bool_decide_reflect (field = "ssh_port"))]].
  - destruct value as [| | |v| |]; try congruence. clear Ht. apply Hcase in H1. unfold string_fields in H1. rewrite !elem_of_cons, elem_of_nil in H1.
    destruct H1 as [->|[->|[->|[->|[->|[->|[]]]]]]]; eexists; reflexivity.
  - destruct value as [|b| | | |]; try congruence. clear Ht. apply Hcase in H2. unfold bool_fields in H2. rewrite !elem_of_cons, elem_of_nil in H2.
    destruct H2 as [->|[->|[->|[->|[->|[]]]]]]; eexists; reflexivity.
  - subst field. destruct value as [| |num| | |]; try congruence. destruct (ParseInt num) as [z|] eqn:Hz; [|discriminate Ht].
    exists (MkUpsertFields id en ac co pe od host user (Some z) inst gw st key).
    change ((v ← decodePortField (VNumber num); Ok (MkUpsertFields id en ac co pe od host user (Some v) inst gw st key)) = Ok (MkUpsertFields id en ac co pe od host user (Some z) inst gw st key)).
    cbn [decodePortField]. by rewrite Hz.
  - discriminate Ht.
Qed.

Definition member_fits (kv : string * json) : Prop := secretLikePeerField kv.1 = false ∧ is_Some (typed_value kv.1 kv.2).

Lemma decode_upsert_loop_Ok req l req' :
  NoDup l.*1 → decode_upsert_loop req l = Ok req' →
  Forall member_fits l ∧ uf_SharedKey req' = uf_SharedKey req ∧
  ∀ name, given req' name = match list_to_map (M := raw_object) l !! name with Some v => typed_value name v | None => given req name end.
Proof.
  revert req. induction l as [|[f v] l IH]; intros req Hnd.
  - intros [= <-]. split; [done|]. split; [done|]. intros name. reflexivity.
  - apply NoDup_cons in Hnd as [Hnin Hnd]. cbn [decode_upsert_loop]. intros (r & (Hs & Hk & w & Hw & Hg)%decode_upsert_field_Ok & Hl)%bind_Ok.
    destruct (IH r Hnd Hl) as (Hfit & Hk' & Hg'). split; [|split; [congruence|]].
    + constructor; [split; [done|by exists w]|done].
    + intros name. rewrite Hg'. rewrite list_to_map_cons. destruct (decide (name = f)) as [->|Hne].
      * rewrite lookup_insert_eq, not_elem_of_list_to_map_1 by done. rewrite Hg, decide_True by done. by rewrite Hw.
      * rewrite lookup_insert_ne by done. destruct (_ !! name); [done|]. by rewrite Hg, decide_False.
Qed.

Lemma decode_upsert_loop_ex req l : Forall member_fits l → ∃ req', decode_upsert_loop req l = Ok req'.
Proof.
  revert req. induction l as [|[f v] l IH]; intros req H; [by exists req|]. apply Forall_cons in H as [[Hs [w Hw]] Hl]. cbn [decode_upsert_loop].
  destruct (decode_upsert_field_conv req f v w Hs Hw) as [r ->]. cbn [mbind result_bind]. by apply IH.
Qed.

(** The order in which the members are taken: any. *)
Definition ranges (range : raw_object → list (string * json)) : Prop := ∀ m, range m ≡ₚ map_to_list m.

Lemma range_facts range (m : raw_object) : ranges range → NoDup (range m).*1 ∧ list_to_map (M := raw_object) (range m) = m.
Proof.
  intros H. assert (Hnd : NoDup (range m).*1) by (rewrite (H m); apply NoDup_fst_map_to_list). split; [done|].
  rewrite (list_to_map_proper (M := gmap string) (range m) (map_to_list m) Hnd (H m)). apply list_to_map_to_list.
Qed.

Lemma decodeSSHPeerUpsertFields_Ok range value req :
  ranges range → decodeSSHPeerUpsertFields range value = Ok req →
  ∃ fields, unmarshal_object value = Some (Some fields) ∧ (∀ k v, fields !! k = Some v → member_fits (k, v)) ∧ uf_SharedKey req = None ∧
    ∀ name, given req name = fields !! name ≫= typed_value name.
Proof.
  intros Hr. unfold decodeSSHPeerUpsertFields. destruct (unmarshal_object value) as [[fields|]|]; [|discriminate..]. intros H. destruct (range_facts range fields Hr) as [Hnd Hm].
  apply decode_upsert_loop_Ok in H as (Hfit & Hk & Hg); [|done]. exists fields. split; [done|]. split; [|split; [done|]].
  - intros k v Hkv. rewrite Forall_forall in Hfit. apply Hfit. rewrite (Hr fields). by apply elem_of_map_to_list.
  - intros name. rewrite Hg, Hm. destruct (fields !! name); [done|]. unfold given. by repeat case_match.
Qed.

Lemma decodeSSHPeerUpsertFields_order range range' value req :
  ranges range → ranges range' → decodeSSHPeerUpsertFields range value = Ok req → decodeSSHPeerUpsertFields range' value = Ok req.
Proof.
  intros Hr Hr' H. destruct (decodeSSHPeerUpsertFields_Ok _ _ _ Hr H) as (fields & Hf & Hfit & Hk & Hg).
  assert (∃ req', decodeSSHPeerUpsertFields range' value = Ok req') as [req' H'].
  { unfold decodeSSHPeerUpsertFields. rewrite Hf. apply decode_upsert_loop_ex. apply Forall_forall. intros [k v] Hin. rewrite (Hr' fields) in Hin.
    apply elem_of_map_to_list in Hin. by apply Hfit. }
  rewrite H'. destruct (decodeSSHPeerUpsertFields_Ok _ _ _ Hr' H') as (fields' & Hf' & _ & Hk' & Hg'). rewrite Hf in Hf'. injection Hf' as <-.
  f_equal. apply given_ext; [|congruence]. intros name. by rewrite Hg, Hg'.
Qed.

Lemma strict_body_Ok malformed allowed body raw :
  strict_body malformed allowed body = Ok raw → ∃ value, parse body = Some value ∧ unmarshal_object value = Some (Some raw) ∧ dom raw ⊆ allowed.
Proof.
  unfold strict_body, strict_fields. destruct (parse body) as [value|]; [|discriminate]. intros H. exists value. split; [done|].
  destruct (unmarshal_object value) as [[fields|]|]; [|discriminate..]. destruct (bool_decide _) eqn:E; [|discriminate]. injection H as <-.
  split; [done|]. by apply bool_decide_eq_true_1 in E.
Qed.

Lemma expected_revision_Ok raw r : decodeSSHPeerExpectedRevision raw = Ok (Some r) → (1 ≤ r ≤ Z.of_N max_uint64)%Z.
Proof.
  unfold decodeSSHPeerExpectedRevision. destruct (raw !! "expected_config_revision") as [v|]; [|discriminate].
  assert (H : (revision ← parseJSONUint v "invalid_expected_config_revision"; if (revision =? 0)%Z then Err ErrConfigRevisionConflict else Ok (Some revision)) = Ok (Some r) →
    (1 ≤ r ≤ Z.of_N max_uint64)%Z).
  { intros (u & Hu & H)%bind_Ok. destruct (u =? 0)%Z eqn:E; [discriminate|]. injection H as <-. apply Z.eqb_neq in E. apply parse_json_uint_bound in Hu. lia. }
  destruct v; [discriminate|exact H..].
Qed.

(** ** Theorems *)

(** The decoding of an upsert is strict, and its verdict does not depend on the order
    in which Go ranges over the members: a body it accepts is one object with an
    expected revision of at least 1 and a peer all of whose members are known, none of
    them secret-like, each of its type; the request holds exactly the values given; and
    every other order accepts it with the same result. *)
Theorem upsert_decoding range body req (Hr : ranges range) (Hok : DecodeSSHPeerUpsertRequest range body = Ok req) :
  (∀ range', ranges range' → DecodeSSHPeerUpsertRequest range' body = Ok req) ∧
  ∃ value raw peer fields r, parse body = Some value ∧ unmarshal_object value = Some (Some raw) ∧ dom raw = {["expected_config_revision"; "peer"]} ∧
    ur_ExpectedConfigRevision req = Some r ∧ (1 ≤ r ≤ Z.of_N max_uint64)%Z ∧
    raw !! "peer" = Some peer ∧ unmarshal_object peer = Some (Some fields) ∧
    (∀ k v, fields !! k = Some v → secretLikePeerField k = false ∧ is_Some (typed_value k v)) ∧
    uf_SharedKey (ur_Peer req) = None ∧ ∀ name, given (ur_Peer req) name = fields !! name ≫= typed_value name.
Proof.
  unfold DecodeSSHPeerUpsertRequest in *. apply bind_Ok in Hok as (raw & Hbody & Hok). rewrite Hbody. destruct (strict_body_Ok _ _ _ _ Hbody) as (value & Hp & Hu & Hdom).
  cbn [mbind result_bind]. destruct (hasRaw raw "expected_config_revision") eqn:Hh; [|discriminate]. cbn [negb] in *.
  apply bind_Ok in Hok as (revision & Hrev & Hok). rewrite Hrev. cbn [mbind result_bind]. destruct (default 0%Z revision =? 0)%Z eqn:Hz; [discriminate|].
  destruct (raw !! "peer") as [peer|] eqn:Hpeer; [|discriminate]. apply bind_Ok in Hok as (fs & Hfs & [= <-]). split.
  - intros range' Hr'. by rewrite (decodeSSHPeerUpsertFields_order range range' peer fs Hr Hr' Hfs).
  - destruct (decodeSSHPeerUpsertFields_Ok _ _ _ Hr Hfs) as (fields & Hf & Hfit & Hk & Hg). destruct revision as [r|]; [|discriminate Hz].
    exists value, raw, peer, fields, r. split; [done|]. split; [done|]. split.
    { apply (anti_symm (⊆)); [done|]. unfold hasRaw in Hh. apply bool_decide_eq_true_1, elem_of_dom in Hh. apply elem_of_dom_2 in Hpeer. set_solver. }
    split; [done|]. split; [by eapply expected_revision_Ok|]. split; [done|]. split; [done|]. split; [|done]. intros k v Hkv. exact (Hfit k v Hkv).
Qed.

(** ** Witness *)

Definition sample_upsert_body : string :=
  print (VObject [("expected_config_revision", json_int 3); ("peer", VObject [("enabled", VBool true); ("ssh_port", json_int 22); ("id", VString "beta")])]).

Lemma upsert_decoding_witness :
  DecodeSSHPeerUpsertRequest members sample_upsert_body =
  Ok (MkUpsert (Some 3%Z) (MkUpsertFields (Some "beta") (Some true) None None None None None None (Some 22%Z) None None None None)).
Proof.
  apply (upsert_decoding map_to_list sample_upsert_body).
  - intros m. reflexivity.
  - vm_compute. reflexivity.
  - intros m. apply members_perm.
Defined.
