(* ===== verification/PeerConfig.v ===== *)
(** * Changing the SSH peers of a configuration: config/ssh_peer_config.go

    A peer is kept twice, raw in the object of the file and typed in the configuration;
    an operation changes the raw peer, decodes it again and writes it back.  The file
    around an operation is [withSSHPeerConfigUpdate] of [ConfigDoc]; here an operation
    takes the copies it works on.  [now] is the time of the operation, formatted. *)
From S2P Require Import Prelude GoStrings Utf8 Encoding NetIP Paths Hostnames Config Clip Session SSHConfig Listener Json RawJson Words KnownHosts AuthorizedKeys SSHCommand Pairing ConfigDoc Redact PeerRequests.
From Stdlib Require Import Ascii String.
From stdpp Require Import strings.

#[local] Arguments String.append !_ _ / : simpl nomatch.

(** ** Raw peers *)

Definition rawPeerID (peer : raw_object) : result string string :=
  match peer !! "id" with
  | Some value =>
      match unmarshal_string value with
      | Some id => _ ← recode (ValidateHostID id) "invalid_ssh_peer_id"; Ok id
      | None => Err "invalid_ssh_peer_id"
      end
  | None => Err "invalid_ssh_peer_id"
  end.

(** The first peer with this id, with its place. *)
Fixpoint findRawPeerForUpdate (peers : list raw_object) (peerID : string) : result string (option (nat * raw_object)) :=
  match peers with
  | [] => Ok None
  | candidate :: peers =>
      candidateID ← rawPeerID candidate;
      if bool_decide (candidateID = peerID) then Ok (Some (0, candidate))
      else found ← findRawPeerForUpdate peers peerID; Ok (match found with Some (i, peer) => Some (S i, peer) | None => None end)
  end.

Definition rawSSHPeerByID (raw : raw_object) (peerID : string) : result string (raw_object * nat) :=
  '(_, peers) ← rawSSHPeers raw;
  found ← findRawPeerForUpdate peers peerID;
  match found with Some (i, peer) => Ok (peer, i) | None => Err "ssh_peer_not_found" end.

Definition rawPeerMigrationState (peer : raw_object) : result string string :=
  match peer !! "migration_state" with
  | None | Some VNull => Ok ""
  | Some (VString state) => Ok state
  | Some _ => Err "invalid_migration_state"
  end.

Definition typedPeerFromRaw (peer : raw_object) : result string SSHPeer :=
  match decode_SSHPeer zero_peer (members peer) with Some typed => Ok typed | None => Err "json" end.

Definition rawPeerProofObject (peer : raw_object) : result string raw_object :=
  match peer !! "proof" with
  | None | Some VNull => Ok ∅
  | Some value => match unmarshal_object value with Some (Some proof) => Ok proof | _ => Err "invalid_ssh_peer_proof" end
  end.

Fixpoint typed_peers (peers : list raw_object) : result string (list SSHPeer) :=
  match peers with
  | [] => Ok []
  | peer :: peers => typed ← typedPeerFromRaw peer; rest ← typed_peers peers; Ok (typed :: rest)
  end.

Definition with_peers (g : go_config) (peers : list SSHPeer) : go_config :=
  let ssh := default (MkSSHConfig "" "" 0 0 0 []) (SSH (gc_config g)) in
  with_ssh g (Some (MkSSHConfig (SyncKey ssh) (KnownHosts ssh) (MaxSessions ssh) (MaxSessionsPerPeer ssh) (LogLimitBytes ssh) peers)) true.

(** Both views of the peers, from the raw ones. *)
Definition rebuildTypedSSHPeersAndWriteBack (g : go_config) (raw sshRaw : raw_object) (peers : list raw_object) : result string (go_config * raw_object) :=
  typed ← typed_peers peers;
  Ok (with_peers g typed, <["ssh" := json_object (<["peers" := VArray (json_object <$> peers)]> sshRaw)]> raw).

(** ** Upserts *)

Definition validateSSHPeerCreateFields (peer : SSHPeerUpsertFields) : result string () :=
  match uf_ID peer, uf_Enabled peer, uf_Accept peer, uf_Connect peer with
  | None, _, _, _ => Err "ssh_peer_create_requires_id"
  | _, None, _, _ => Err "ssh_peer_create_requires_enabled"
  | _, _, None, _ => Err "ssh_peer_create_requires_accept"
  | _, _, _, None => Err "ssh_peer_create_requires_connect"
  | Some _, Some _, Some accept, Some connect =>
      if negb accept && negb connect then Err "ssh_peer_create_requires_direction"
      else if connect then
        match uf_Persistent peer, uf_OnDemand peer with
        | Some _, Some _ =>
            match uf_SSHHost peer, uf_SSHUser peer, uf_SSHPort peer with
            | Some _, Some _, Some _ =>
                match uf_InstallPath peer, uf_GatewayPath peer with
                | None, _ => Err "ssh_peer_create_requires_install_path"
                | _, None => Err "ssh_peer_create_requires_gateway_path"
                | _, _ => Ok ()
                end
            | _, _, _ => Err "ssh_peer_create_requires_connect_locator"
            end
        | _, _ => Err "ssh_peer_create_requires_outbound_mode"
        end
      else Ok ()
  end.

(** What an upsert sets in the raw peer, the host apart. *)
Definition upserted (peer : raw_object) (req : SSHPeerUpsertFields) : raw_object :=
  let peer := setRawPointer peer "migration_state" (json_string <$> uf_MigrationState req) in
  let peer := setRawPointer peer "enabled" (VBool <$> uf_Enabled req) in
  let peer := setRawPointer peer "accept" (VBool <$> uf_Accept req) in
  let peer := setRawPointer peer "connect" (VBool <$> uf_Connect req) in
  let peer := setRawPointer peer "persistent" (VBool <$> uf_Persistent req) in
  let peer := setRawPointer peer "on_demand" (VBool <$> uf_OnDemand req) in
  let peer := setRawPointer peer "ssh_user" (json_string <$> uf_SSHUser req) in
  let peer := setRawPointer peer "ssh_port" (json_int <$> uf_SSHPort req) in
  let peer := setRawPointer peer "install_path" (json_string <$> uf_InstallPath req) in
  setRawPointer peer "gateway_path" (json_string <$> uf_GatewayPath req).

Definition applySSHPeerUpsert (peerID : string) (req : SSHPeerUpsertRequest) (g : go_config) (raw : raw_object) : result string (go_config * raw_object * raw_object) :=
  let fields := ur_Peer req in
  _ ← (match uf_ID fields with Some id => recode (ValidateHostID id) "invalid_ssh_peer_id" | None => Ok () end);
  '(sshRaw, peers) ← rawSSHPeers raw;
  found ← findRawPeerForUpdate peers peerID;
  let peer := match found with Some (_, peer) => peer | None => <["id" := json_string peerID]> ∅ end in
  currentState ← rawPeerMigrationState peer;
  _ ← (match found with
       | None =>
           if bool_decide (uf_MigrationState fields = Some MigrationStateLoopbackUnprovisioned) then validateSSHPeerCreateFields fields
           else Err "ssh_peer_create_requires_loopback_unprovisioned"
       | Some _ =>
           if bool_decide (default currentState (uf_MigrationState fields) = currentState) then Ok ()
           else Err "ssh_peer_migration_state_change_not_allowed"
       end);
  let peer := upserted peer fields in
  peer ← (match uf_SSHHost fields with
          | Some host => host ← recode (CanonicalSSHHost host) "invalid_ssh_host"; Ok (<["ssh_host" := json_string host]> peer)
          | None => Ok peer
          end);
  typedPeer ← typedPeerFromRaw peer;
  _ ← validateSSHPeer (Hostname (gc_config g)) typedPeer (bool_decide (Transport (gc_config g) = TransportSSH));
  let peers := match found with Some (index, _) => <[index := peer]> peers | None => peers ++ [peer] end in
  '(g, raw) ← rebuildTypedSSHPeersAndWriteBack g raw sshRaw peers;
  Ok (g, raw, peer).

Definition persistNormalizedLocalSSHPath (sshRaw : raw_object) (key normalized : string) : raw_object :=
  match sshRaw !! key ≫= unmarshal_string with
  | Some current => if needsHomeExpansion current then <[key := json_string normalized]> sshRaw else sshRaw
  | None => sshRaw
  end.

Definition persistNormalizedLocalSSHPaths (raw : raw_object) (c : Config) : result string raw_object :=
  match SSH c with
  | None => Ok raw
  | Some ssh =>
      '(sshRaw, _) ← rawSSHPeers raw;
      let sshRaw := persistNormalizedLocalSSHPath sshRaw "sync_key" (SyncKey ssh) in
      let sshRaw := persistNormalizedLocalSSHPath sshRaw "known_hosts" (KnownHosts ssh) in
      Ok (<["ssh" := json_object sshRaw]> raw)
  end.

(** The change of [updateSSHPeerConfigRaw]. *)
Definition upsert_change (homeDir : option string) (peerID : string) (req : SSHPeerUpsertRequest) (g : go_config) (raw : raw_object) :
    result string (go_config * raw_object * raw_object) :=
  '(g, raw, updated) ← applySSHPeerUpsert peerID req g raw;
  c ← NormalizeLocalSSHPaths homeDir (gc_config g);
  raw ← persistNormalizedLocalSSHPaths raw c;
  Ok (with_config g c, raw, updated).

(** ** Proofs *)

Definition setDirectionalProofRaw (proofRaw : raw_object) (direction : ProofDirection) (proof : SSHPeerDirectionalProofPatch) : raw_object :=
  match direction with
  | DirectionAccept =>
      <["accept_verified_by" := json_string (pp_VerifiedBy proof)]> (<["accept_verified_at" := json_string (pp_VerifiedAt proof)]>
        (<["accept_gateway_path" := json_string (pp_GatewayPath proof)]> (<["accept_key_id" := json_string (pp_KeyID proof)]> proofRaw)))
  | DirectionConnect =>
      <["connect_verified_by" := json_string (pp_VerifiedBy proof)]> (<["connect_verified_at" := json_string (pp_VerifiedAt proof)]>
        (<["connect_gateway_path" := json_string (pp_GatewayPath proof)]> (<["connect_key_id" := json_string (pp_KeyID proof)]> proofRaw)))
  end.

(** The raw and typed peers, and the one an operation is for. *)
Definition located (raw : raw_object) (peerID : string) : result string (raw_object * list raw_object * nat * raw_object) :=
  '(sshRaw, peers) ← rawSSHPeers raw;
  found ← findRawPeerForUpdate peers peerID;
  match found with Some (index, peer) => Ok (sshRaw, peers, index, peer) | None => Err "ssh_peer_not_found" end.

Definition applySSHPeerProofPatch (peerID : string) (req : SSHPeerProofPatchRequest) (g : go_config) (raw : raw_object) :
    result string (go_config * raw_object * raw_object) :=
  '(sshRaw, peers, index, peer) ← located raw peerID;
  typedPeer ← typedPeerFromRaw peer;
  if bool_decide (is_Some (pr_AcceptProof req)) && (negb (Enabled typedPeer) || negb (Accept typedPeer)) then Err "proof_mismatch"
  else if bool_decide (is_Some (pr_ConnectProof req)) && (negb (Enabled typedPeer) || negb (Connect typedPeer)) then Err "proof_mismatch"
  else
    proofRaw ← rawPeerProofObject peer;
    let proofRaw := match pr_AcceptProof req with Some p => setDirectionalProofRaw proofRaw DirectionAccept p | None => proofRaw end in
    let proofRaw := match pr_ConnectProof req with Some p => setDirectionalProofRaw proofRaw DirectionConnect p | None => proofRaw end in
    let peer := <["proof" := json_object proofRaw]> peer in
    '(g, raw) ← rebuildTypedSSHPeersAndWriteBack g raw sshRaw (<[index := peer]> peers);
    Ok (g, raw, peer).

(** ** Transitions *)

Definition validSSHPeerTransitionState (state : string) : bool :=
  bool_decide (state ∈ [MigrationStateLoopbackUnprovisioned; MigrationStateSSHMaterialStaged; MigrationStateProvisionFailed;
    MigrationStateSharedKeyWrittenUnverified; MigrationStateSSHKeysReady]).

Definition validateSSHPeerTransitionEnabledProofs (peer : SSHPeer) : result string () :=
  _ ← recode (ValidateDirectionalProof peer DirectionAccept) "ssh_peer_transition_requires_current_proof";
  recode (ValidateDirectionalProof peer DirectionConnect) "ssh_peer_transition_requires_current_proof".

Definition validateSSHPeerTransitionTargetStaged (peer : SSHPeer) : result string () :=
  if negb (Enabled peer) then Ok ()
  else if Accept peer && bool_decide (GatewayPath peer = "") then Err "ssh_peer_transition_requires_accept_material"
  else if Connect peer && (bool_decide (SSHHost peer = "") || bool_decide (SSHUser peer = "") || (SSHPort peer =? 0)%Z ||
      bool_decide (InstallPath peer = "") || bool_decide (GatewayPath peer = "")) then Err "ssh_peer_transition_requires_connect_material"
  else validateSSHPeerTransitionEnabledProofs peer.

Definition preSecretProvisionFailedPhase (phase : string) : bool :=
  bool_decide (phase ∈ ["host_key_confirmation"; "upload_install"; "identity_probe"; "daemon_stop"; "required_sync_key_provision";
    "known_hosts_provision"; "non_secret_config_write"; "managed_authorized_keys_write"; "pre_secret_forced_command_probe";
    "local_peer_create"; "local_proof_patch"; "staged_transition"]).

Definition identityResetOrRemovalPrepReason (reason : string) : bool :=
  bool_decide (reason ∈ ["identity_reset_prepared"; "identity_removal_prepared"]).

Definition validateSSHPeerProvisionFailedTransition (req : SSHPeerTransitionRequest) : result string () :=
  match tr_FailedPhase req with
  | None => Err "missing_ssh_peer_transition_field"
  | Some failedPhase =>
      if blank failedPhase then Err "missing_ssh_peer_transition_field"
      else
        match tr_RemoteSecretAbsenceProof req with
        | None => Err "missing_ssh_peer_transition_field"
        | Some proof =>
            if negb (bool_decide (ab_FailedPhase proof = failedPhase)) then Err "ssh_peer_transition_absence_proof_failed_phase_mismatch"
            else if negb (rfc3339_ok (ab_VerifiedAt proof)) then Err "invalid_ssh_peer_transition_field"
            else if negb (ab_SecretWriteCommandSpawned proof) && negb (preSecretProvisionFailedPhase (ab_FailedPhase proof))
            then Err "invalid_ssh_peer_transition_failed_phase"
            else Ok ()
        end
  end.

Definition reason_in (req : SSHPeerTransitionRequest) (reasons : list string) : result string () :=
  ensure (bool_decide (tr_Reason req ∈ reasons)) "invalid_ssh_peer_transition_reason".

(** The table of the transitions: what a step from one state to another needs. *)
Definition transition_check (typedPeer : SSHPeer) (req : SSHPeerTransitionRequest) : result string () :=
  let is_from s := bool_decide (tr_FromState req = s) in
  let is_to s := bool_decide (tr_ToState req = s) in
  let loopback := MigrationStateLoopbackUnprovisioned in
  let staged := MigrationStateSSHMaterialStaged in
  let failed := MigrationStateProvisionFailed in
  let written := MigrationStateSharedKeyWrittenUnverified in
  let ready := MigrationStateSSHKeysReady in
  if is_from loopback && is_to staged then validateSSHPeerTransitionTargetStaged typedPeer
  else if (is_from loopback || is_from staged) && is_to failed then validateSSHPeerProvisionFailedTransition req
  else if is_from failed && (is_to loopback || is_to staged) then
    _ ← reason_in req ["retry_progress"];
    if is_to staged then validateSSHPeerTransitionTargetStaged typedPeer else Ok ()
  else if is_from staged && is_to written then reason_in req ["remote_shared_key_written"; "secret_write_outcome_unknown"]
  else if is_from written && is_to ready then
    _ ← reason_in req ["gateway_version_verified"]; validateSSHPeerTransitionEnabledProofs typedPeer
  else if is_from staged && is_to ready then
    _ ← reason_in req ["ssh_material_verified"]; validateSSHPeerTransitionEnabledProofs typedPeer
  else if (is_from written || is_from ready) && is_to staged then reason_in req ["remote_shared_key_cleanup_verified"]
  else if is_from ready && is_to loopback then ensure (identityResetOrRemovalPrepReason (tr_Reason req)) "invalid_ssh_peer_transition_reason"
  else Err "ssh_peer_transition_not_allowed".

Definition validateSSHPeerTransitionRequest (peer : raw_object) (req : SSHPeerTransitionRequest) : result string () :=
  if negb (validSSHPeerTransitionState (tr_FromState req)) then Err "invalid_ssh_peer_transition_state"
  else if negb (validSSHPeerTransitionState (tr_ToState req)) then Err "invalid_ssh_peer_transition_state"
  else if blank (tr_Reason req) then Err "missing_ssh_peer_transition_field"
  else if blank (tr_LogID req) then Err "missing_ssh_peer_transition_field"
  else if bool_decide (tr_FromState req = tr_ToState req) then Err "ssh_peer_transition_not_allowed"
  else if negb (bool_decide (tr_ToState req = MigrationStateProvisionFailed)) &&
      (bool_decide (is_Some (tr_FailedPhase req)) || bool_decide (is_Some (tr_RemoteSecretAbsenceProof req)))
  then Err "invalid_ssh_peer_transition_field"
  else
    typedPeer ← typedPeerFromRaw peer;
    transition_check typedPeer req.

Definition absence_record (proof : SSHPeerRemoteSecretAbsenceProof) : raw_object :=
  setRawPointer
    (raw_of [("failed_phase", json_string (ab_FailedPhase proof)); ("secret_write_command_spawned", VBool (ab_SecretWriteCommandSpawned proof));
      ("absence_verified_by", json_string (ab_AbsenceVerifiedBy proof)); ("verified_at", json_string (ab_VerifiedAt proof)); ("log_id", json_string (ab_LogID proof))])
    "remote_config_revision" (json_int <$> ab_RemoteConfigRevision proof).

Definition log_entry (req : SSHPeerTransitionRequest) : raw_object :=
  let entry := raw_of [("from_state", json_string (tr_FromState req)); ("to_state", json_string (tr_ToState req));
    ("reason", json_string (tr_Reason req)); ("log_id", json_string (tr_LogID req))] in
  let entry := setRawPointer entry "failed_phase" (json_string <$> tr_FailedPhase req) in
  setRawPointer entry "remote_secret_absence_proof" ((λ proof, json_object (absence_record proof)) <$> tr_RemoteSecretAbsenceProof req).

(** A list kept in a member, and one more element. *)
Definition append_to (raw : raw_object) (field : string) (entry : raw_object) (code : string) : result string raw_object :=
  existing ←
    (match raw !! field with
     | None | Some VNull => Ok []
     | Some value => match unmarshal_array value with Some l => Ok l | None => Err code end
     end);
  Ok (<[field := VArray (existing ++ [json_object entry])]> raw).

Definition appendSSHPeerMigrationLog (peer : raw_object) (req : SSHPeerTransitionRequest) : result string raw_object :=
  append_to peer "migration_log" (log_entry req) "invalid_ssh_peer_migration_log".

Definition applySSHPeerTransition (peerID : string) (req : SSHPeerTransitionRequest) (g : go_config) (raw : raw_object) :
    result string (go_config * raw_object * raw_object) :=
  '(sshRaw, peers, index, peer) ← located raw peerID;
  currentState ← rawPeerMigrationState peer;
  if negb (bool_decide (currentState = tr_FromState req)) then Err "ssh_peer_transition_state_mismatch"
  else
    _ ← validateSSHPeerTransitionRequest peer req;
    let peer :=
      if bool_decide (tr_ToState req = MigrationStateLoopbackUnprovisioned)
      then (scrubSecretLikeRawFields (delete "proof" peer) {["migration_log"]}).1 else peer in
    let peer := <["migration_state" := json_string (tr_ToState req)]> peer in
    peer ← appendSSHPeerMigrationLog peer req;
    '(g, raw) ← rebuildTypedSSHPeersAndWriteBack g raw sshRaw (<[index := peer]> peers);
    Ok (g, raw, peer).

(** ** Disabling and deleting *)

Definition validSSHPeerConfigMutationState (state : string) : bool :=
  bool_decide (state ∈ [MigrationStateLoopbackUnprovisioned; MigrationStateSSHMaterialStaged; MigrationStateSharedKeyWrittenUnverified;
    MigrationStateSSHKeysReady; MigrationStateProvisionFailed]).

Definition validateStableSSHPeerReason (action reason : string) : result string () :=
  if blank reason then Err ("missing_ssh_peer_" +:+ action +:+ "_field")
  else if negb (stableSSHPeerReasonPattern reason) then Err ("invalid_ssh_peer_" +:+ action +:+ "_field") else Ok ().

Definition appendSSHAuditLog (sshRaw entry : raw_object) : result string raw_object := append_to sshRaw "audit_log" entry "invalid_ssh_peer_audit_log".

Definition appendSSHRemediation (sshRaw entry : raw_object) : result string raw_object := append_to sshRaw "remediation" entry "invalid_ssh_peer_remediation".

Definition sshPeerDisableAuditEntry (now peerID previousState reason : string) : raw_object :=
  raw_of [("source", VString "ssh_peer_disable"); ("durable", VBool true); ("peer_id", json_string peerID);
    ("previous_migration_state", json_string previousState); ("reason", json_string reason); ("disabled_at", json_string now)].

Definition sshPeerDeleteAuditEntry (peerID previousState : string) (req : SSHPeerDeleteRequest) (removedAt : string) : raw_object :=
  raw_of [("source", VString "ssh_peer_delete"); ("durable", VBool true); ("peer_id", json_string peerID);
    ("previous_migration_state", json_string previousState); ("reason", json_string (de_Reason req)); ("log_id", json_string (de_LogID req));
    ("removed_at", json_string removedAt)].

Definition copyRawStringToRecord (record raw : raw_object) (field : string) : raw_object :=
  match raw !! field with
  | Some (VString decoded) => if bool_decide (decoded = "") then record else <[field := json_string decoded]> record
  | _ => record
  end.

Definition copyRawIntToRecord (record raw : raw_object) (field : string) : raw_object :=
  match raw !! field with
  | Some (VNumber n) => match ParseInt n with Some z => if (z =? 0)%Z then record else <[field := json_int z]> record | None => record end
  | _ => record
  end.

Definition log_entries (peer : raw_object) : option (list raw_object) :=
  match peer !! "migration_log" with None | Some VNull => None | Some value => unmarshal_objects value end.

Definition nonempty_string (raw : raw_object) (field : string) : option string :=
  match raw !! field ≫= unmarshal_string with Some s => if bool_decide (s = "") then None else Some s | None => None end.

(** The failed phase of one entry of the log. *)
Definition entry_phase (entry : raw_object) : option string :=
  match nonempty_string entry "failed_phase" with
  | Some phase => Some phase
  | None =>
      match entry !! "remote_secret_absence_proof" ≫= unmarshal_object with
      | Some proof => nonempty_string (default ∅ proof) "failed_phase"
      | None => None
      end
  end.

Definition lastSSHPeerFailedPhase (peer : raw_object) : string :=
  match log_entries peer with Some log => default "" (head (omap entry_phase (reverse log))) | None => "" end.

(** Whether an entry settles if the secret was written: [Some true], it was not. *)
Definition entry_absence (entry : raw_object) : option bool :=
  match entry !! "remote_secret_absence_proof" with
  | None | Some VNull => None
  | Some value =>
      match unmarshal_object value with
      | None => None
      | Some proof =>
          let proof := default ∅ proof in
          if negb (hasRaw proof "failed_phase") then Some false
          else
            match proof !! "secret_write_command_spawned" with
            | Some (VBool spawned) => Some (negb spawned)
            | _ => Some false
            end
      end
  end.

Definition provisionFailedHasRemoteSecretAbsenceProof (peer : raw_object) : bool :=
  match log_entries peer with Some log => default false (head (omap entry_absence (reverse log))) | None => false end.

Definition sshPeerCleanupRecord (source peerID previousState : string) (peer : raw_object) (req : SSHPeerDeleteRequest) (removedAt : string) :
    result string raw_object :=
  let record := raw_of [("source", VString source); ("durable", VBool true); ("peer_id", json_string peerID);
    ("previous_migration_state", json_string previousState); ("removed_at", json_string removedAt); ("reason", json_string (de_Reason req));
    ("log_id", json_string (de_LogID req))] in
  let record := copyRawStringToRecord record peer "ssh_host" in
  let record := copyRawStringToRecord record peer "ssh_user" in
  let record := copyRawIntToRecord record peer "ssh_port" in
  let record := copyRawStringToRecord record peer "install_path" in
  let record := copyRawStringToRecord record peer "gateway_path" in
  proofRaw ← rawPeerProofObject peer;
  let record := copyRawStringToRecord record proofRaw "accept_key_id" in
  let record := copyRawStringToRecord record proofRaw "accept_gateway_path" in
  let record := copyRawStringToRecord record proofRaw "connect_key_id" in
  let record := copyRawStringToRecord record proofRaw "connect_gateway_path" in
  let failedPhase := lastSSHPeerFailedPhase peer in
  Ok (if bool_decide (failedPhase = "") then record else <["last_provisioning_phase" := json_string failedPhase]> record).

Definition sshPeerCleanupStatus (source : string) (pending : bool) : raw_object :=
  raw_of [("source", VString source); ("durable", VBool true); ("cleanup_required", VBool pending); ("pending", VBool pending)].

Definition sshMaterialCleanupResult (peerID previousState : string) (peer : raw_object) (req : SSHPeerDeleteRequest) (removedAt : string) :
    result string (raw_object * option raw_object) :=
  record ← sshPeerCleanupRecord "ssh_material_cleanup" peerID previousState peer req removedAt;
  let record := <["remaining_user_actions" := VArray [VString "retry_regular_ssh_cleanup"; VString "dismiss_after_acknowledgement"]]>
    (<["cleanup_verified" := VBool false]> (<["pending" := VBool true]> (<["cleanup_required" := VBool true]> record))) in
  Ok (sshPeerCleanupStatus "ssh_material_cleanup" true, Some record).

Definition postSecretTombstoneResult (peerID previousState : string) (peer : raw_object) (req : SSHPeerDeleteRequest) (removedAt : string) :
    result string (raw_object * option raw_object) :=
  record ← sshPeerCleanupRecord "post_secret_tombstone" peerID previousState peer req removedAt;
  let record := <["remaining_user_actions" := VArray [VString "retry_regular_ssh_cleanup"; VString "rotate_fleet_shared_key"; VString "dismiss_after_acknowledgement"]]>
    (<["remote_managed_key_cleanup_verified" := VBool false]> (<["remote_fleet_secret_cleanup_verified" := VBool false]>
      (<["pending" := VBool true]> (<["cleanup_required" := VBool true]> record)))) in
  Ok (sshPeerCleanupStatus "post_secret_tombstone" true, Some record).

Definition sshPeerDeleteCleanupStatus (peerID previousState : string) (peer : raw_object) (req : SSHPeerDeleteRequest) (removedAt : string) :
    result string (raw_object * option raw_object) :=
  if bool_decide (previousState = MigrationStateLoopbackUnprovisioned) then
    Ok (raw_of [("source", VString "ssh_peer_delete"); ("durable", VBool true); ("cleanup_required", VBool false); ("pending", VBool false)], None)
  else if bool_decide (previousState = MigrationStateSSHMaterialStaged) then sshMaterialCleanupResult peerID previousState peer req removedAt
  else if bool_decide (previousState = MigrationStateProvisionFailed) then
    if provisionFailedHasRemoteSecretAbsenceProof peer then sshMaterialCleanupResult peerID previousState peer req removedAt
    else postSecretTombstoneResult peerID previousState peer req removedAt
  else if bool_decide (previousState ∈ [MigrationStateSharedKeyWrittenUnverified; MigrationStateSSHKeysReady]) then
    postSecretTombstoneResult peerID previousState peer req removedAt
  else Err "invalid_ssh_peer_delete_state".

Definition applySSHPeerDisable (now peerID : string) (req : SSHPeerDisableRequest) (g : go_config) (raw : raw_object) :
    result string (go_config * raw_object * raw_object) :=
  '(sshRaw, peers, index, peer) ← located raw peerID;
  currentState ← rawPeerMigrationState peer;
  if negb (validSSHPeerConfigMutationState currentState) then Err "invalid_ssh_peer_disable_state"
  else
    let peer := <["enabled" := VBool false]> peer in
    sshRaw ← appendSSHAuditLog sshRaw (sshPeerDisableAuditEntry now peerID currentState (di_Reason req));
    '(g, raw) ← rebuildTypedSSHPeersAndWriteBack g raw sshRaw (<[index := peer]> peers);
    Ok (g, raw, peer).

Definition applySSHPeerDelete (now peerID : string) (req : SSHPeerDeleteRequest) (g : go_config) (raw : raw_object) :
    result string (go_config * raw_object * raw_object) :=
  '(sshRaw, peers, index, peer) ← located raw peerID;
  currentState ← rawPeerMigrationState peer;
  if negb (validSSHPeerConfigMutationState currentState) then Err "invalid_ssh_peer_delete_state"
  else
    let removedAt := now in
    sshRaw ← appendSSHAuditLog sshRaw (sshPeerDeleteAuditEntry peerID currentState req removedAt);
    '(cleanupStatus, remediation) ← sshPeerDeleteCleanupStatus peerID currentState peer req removedAt;
    sshRaw ← (match remediation with Some record => appendSSHRemediation sshRaw record | None => Ok sshRaw end);
    let responsePeer := <["cleanup_status" := json_object cleanupStatus]> peer in
    '(g, raw) ← rebuildTypedSSHPeersAndWriteBack g raw sshRaw (delete index peers);
    Ok (g, raw, responsePeer).

(** ** The entry points, for the text of the file *)

Definition expecting (revision : option Z) : result string RevisionExpectation :=
  if (default 0%Z revision =? 0)%Z then Err ErrConfigRevisionConflict else Ok (MkExpectation RevisionStateVersioned revision).

Section entry_points.
Context (homeDir : option string) (gateEnabled : bool) (now : string).

Definition upsertSSHPeerWithGate (data peerID : string) (req : SSHPeerUpsertRequest) : result string (raw_object * raw_object * Z) :=
  _ ← recode (ValidateHostID peerID) "invalid_ssh_peer_id";
  expected ← expecting (ur_ExpectedConfigRevision req);
  _ ← (match uf_ID (ur_Peer req) with
       | Some id => _ ← recode (ValidateHostID id) "invalid_ssh_peer_id"; ensure (bool_decide (id = peerID)) "ssh_peer_id_mismatch"
       | None => Ok ()
       end);
  _ ← ensure (bool_decide (uf_SharedKey (ur_Peer req) = None)) "ssh_peer_secret_field_not_allowed";
  '(out, updated, revision) ← withSSHPeerConfigUpdate homeDir gateEnabled data expected (upsert_change homeDir peerID req);
  Ok (out, redactRawPeer updated, revision).

Definition patchSSHPeerProofWithGate (data peerID : string) (req : SSHPeerProofPatchRequest) : result string (raw_object * raw_object * Z) :=
  _ ← recode (ValidateHostID peerID) "invalid_ssh_peer_id";
  expected ← expecting (pr_ExpectedConfigRevision req);
  match pr_AcceptProof req, pr_ConnectProof req with
  | None, None => Err "ssh_peer_proof_patch_empty"
  | _, _ =>
      '(out, updated, revision) ← withSSHPeerConfigUpdate homeDir gateEnabled data expected (applySSHPeerProofPatch peerID req);
      Ok (out, redactRawPeer updated, revision)
  end.

Definition transitionSSHPeerWithGate (data peerID : string) (req : SSHPeerTransitionRequest) : result string (raw_object * raw_object * Z) :=
  _ ← recode (ValidateHostID peerID) "invalid_ssh_peer_id";
  expected ← expecting (tr_ExpectedConfigRevision req);
  '(out, updated, revision) ← withSSHPeerConfigUpdate homeDir gateEnabled data expected (applySSHPeerTransition peerID req);
  Ok (out, redactRawPeer updated, revision).

Definition disableSSHPeerWithGate (data peerID : string) (req : SSHPeerDisableRequest) : result string (raw_object * raw_object * Z) :=
  _ ← recode (ValidateHostID peerID) "invalid_ssh_peer_id";
  expected ← expecting (di_ExpectedConfigRevision req);
  _ ← validateStableSSHPeerReason "disable" (di_Reason req);
  '(out, updated, revision) ← withSSHPeerConfigUpdate homeDir gateEnabled data expected (applySSHPeerDisable now peerID req);
  Ok (out, redactRawPeer updated, revision).

Definition deleteSSHPeerWithGate (data peerID : string) (req : SSHPeerDeleteRequest) : result string (raw_object * raw_object * Z) :=
  _ ← recode (ValidateHostID peerID) "invalid_ssh_peer_id";
  expected ← expecting (de_ExpectedConfigRevision req);
  _ ← validateStableSSHPeerReason "delete" (de_Reason req);
  if blank (de_LogID req) then Err "missing_ssh_peer_delete_field"
  else
    '(out, updated, revision) ← withSSHPeerConfigUpdate homeDir gateEnabled data expected (applySSHPeerDelete now peerID req);
    Ok (out, redactRawPeer updated, revision).

(** What a reader is answered: the redacted peer and where the file stands. *)
Definition ReadSSHPeer (data peerID : string) : result string (raw_object * option Z * option Z * string) :=
  _ ← recode (ValidateHostID peerID) "invalid_ssh_peer_id";
  doc ← parseConfigDocument homeDir data;
  '(peer, _) ← rawSSHPeerByID (doc_raw doc) peerID;
  let c := gc_config (doc_Config doc) in
  Ok (redactRawPeer peer, ConfigVersion c, ConfigRevision c, doc_RevisionState doc).

End entry_points.

(** ** Lemmas: raw peers *)

Lemma rawSSHPeers_written raw sshRaw peers :
  rawSSHPeers (<["ssh" := json_object (<["peers" := VArray (json_object <$> peers)]> sshRaw)]> raw) =
  Ok (<["peers" := VArray (json_object <$> peers)]> sshRaw, peers).
Proof.
  unfold rawSSHPeers. rewrite lookup_insert_eq. unfold json_object at 1. cbn [isJSONNull]. change (VObject (members ?m)) with (json_object m).
  rewrite unmarshal_json_object. cbn [mbind result_bind]. unfold default, id. rewrite lookup_insert_eq. cbn [isJSONNull]. rewrite unmarshal_json_objects. done.
Qed.

Lemma rawSSHPeers_frame raw raw' : raw !! "ssh" = raw' !! "ssh" → rawSSHPeers raw = rawSSHPeers raw'.
Proof. unfold rawSSHPeers. by intros ->. Qed.

Lemma rebuild_Ok g raw sshRaw peers g' raw' :
  rebuildTypedSSHPeersAndWriteBack g raw sshRaw peers = Ok (g', raw') →
  ∃ typed, typed_peers peers = Ok typed ∧ g' = with_peers g typed ∧
    raw' = <["ssh" := json_object (<["peers" := VArray (json_object <$> peers)]> sshRaw)]> raw.
Proof. unfold rebuildTypedSSHPeersAndWriteBack. intros (typed & Ht & [= <- <-])%bind_Ok. eauto. Qed.

Lemma find_Ok peers peerID i peer :
  findRawPeerForUpdate peers peerID = Ok (Some (i, peer)) →
  peers !! i = Some peer ∧ rawPeerID peer = Ok peerID ∧ ∀ j p, (j < i) → peers !! j = Some p → ∃ id', rawPeerID p = Ok id' ∧ id' ≠ peerID.
Proof.
  revert i. induction peers as [|p peers IH]; intros i; [done|]. cbn [findRawPeerForUpdate]. intros (pid & Hp & H)%bind_Ok.
  destruct (bool_decide_reflect (pid = peerID)) as [->|Hne].
  - injection H as <- <-. split; [done|]. split; [done|]. intros j q Hj. lia.
  - apply bind_Ok in H as (found & Hf & H). destruct found as [[i' q]|]; [|done]. injection H as <- <-. destruct (IH _ Hf) as (Hl & Hid & Hj).
    split; [done|]. split; [done|]. intros [|j] r Hlt Hr; [injection Hr as <-; eauto|]. apply (Hj j r); [lia|done].
Qed.

Lemma find_None peers peerID :
  findRawPeerForUpdate peers peerID = Ok None → Forall (λ p, ∃ id', rawPeerID p = Ok id' ∧ id' ≠ peerID) peers.
Proof.
  induction peers as [|p peers IH]; [by constructor|]. cbn [findRawPeerForUpdate]. intros (pid & Hp & H)%bind_Ok.
  destruct (bool_decide_reflect (pid = peerID)) as [->|Hne]; [done|]. apply bind_Ok in H as (found & Hf & H). destruct found as [[]|]; [done|].
  constructor; [by exists pid|]. by apply IH.
Qed.

Lemma located_found raw peerID sshRaw peers i peer :
  located raw peerID = Ok (sshRaw, peers, i, peer) →
  rawSSHPeers raw = Ok (sshRaw, peers) ∧ findRawPeerForUpdate peers peerID = Ok (Some (i, peer)) ∧ rawPeerID peer = Ok peerID.
Proof.
  unfold located. intros ([s ps] & Hr & H)%bind_Ok. apply bind_Ok in H as (found & Hf & H). destruct found as [[i' p]|]; [|done].
  injection H as <- <- <- <-. destruct (find_Ok _ _ _ _ Hf) as (? & ? & _). done.
Qed.

Lemma located_Ok raw peerID sshRaw peers i peer :
  located raw peerID = Ok (sshRaw, peers, i, peer) →
  rawSSHPeers raw = Ok (sshRaw, peers) ∧ peers !! i = Some peer ∧ rawPeerID peer = Ok peerID.
Proof. intros (? & Hf & ?)%located_found. by apply find_Ok in Hf as (? & _). Qed.

(** What is written around the raw object an operation left. *)
Lemma written_raw g raw next :
  is_Some (SSH (gc_config g)) → is_Some (raw !! "ssh") → marshalConfigDocumentPreservingRawSSH g raw next !! "ssh" = raw !! "ssh".
Proof.
  intros [ssh Hs] [v Hv]. unfold marshalConfigDocumentPreservingRawSSH. rewrite Hs.
  assert (Hl : applyConfigScalars raw raw g next !! "ssh" = raw !! "ssh") by (apply applyConfigScalars_other; by apply not_key).
  unfold hasRaw. rewrite Hl, bool_decide_eq_true_2 by (by rewrite Hv). done.
Qed.

Lemma lookup_setRawPointer (raw : raw_object) key v k :
  setRawPointer raw key v !! k = if decide (k = key) then match v with Some x => Some x | None => raw !! k end else raw !! k.
Proof.
  unfold setRawPointer. destruct v as [x|]; destruct (decide (k = key)) as [->|Hne]; try done; [apply lookup_insert_eq|by apply lookup_insert_ne].
Qed.

Lemma append_to_Ok raw field entry code raw' :
  append_to raw field entry code = Ok raw' →
  ∃ l, (match raw !! field with None | Some VNull => Some [] | Some v => unmarshal_array v end) = Some l ∧ raw' = <[field := VArray (l ++ [json_object entry])]> raw.
Proof.
  unfold append_to. intros (l & Hl & [= <-])%bind_Ok. exists l. split; [|done].
  destruct (raw !! field) as [[]|]; cbn in Hl |- *; congruence.
Qed.

(** The elements of a list kept in a member. *)
Definition kept_list (raw : raw_object) (field : string) : option (list json) :=
  match raw !! field with None | Some VNull => Some [] | Some v => unmarshal_array v end.

Lemma kept_append raw field entry code raw' :
  append_to raw field entry code = Ok raw' →
  ∃ l, kept_list raw field = Some l ∧ kept_list raw' field = Some (l ++ [json_object entry]) ∧ ∀ k, k ≠ field → raw' !! k = raw !! k.
Proof.
  intros (l & Hl & ->)%append_to_Ok. exists l. split; [done|]. split; [unfold kept_list; by rewrite lookup_insert_eq|].
  intros k Hk. by apply lookup_insert_ne.
Qed.

(** ** The migration of a peer *)

Definition migration_states : list string :=
  [MigrationStateLoopbackUnprovisioned; MigrationStateSSHMaterialStaged; MigrationStateSharedKeyWrittenUnverified;
   MigrationStateSSHKeysReady; MigrationStateProvisionFailed].

(** The steps a migration may take. *)
Definition edges : list (string * string) :=
  let loopback := MigrationStateLoopbackUnprovisioned in
  let staged := MigrationStateSSHMaterialStaged in
  let failed := MigrationStateProvisionFailed in
  let written := MigrationStateSharedKeyWrittenUnverified in
  let ready := MigrationStateSSHKeysReady in
  [(loopback, staged); (loopback, failed); (staged, failed); (failed, loopback); (failed, staged); (staged, written); (written, ready);
   (staged, ready); (written, staged); (ready, staged); (ready, loopback)].

(** The step an entry of the log records. *)
Definition entry_edge (entry : json) : option (string * string) :=
  match unmarshal_object entry with
  | Some (Some raw) => match raw !! "from_state", raw !! "to_state" with Some (VString f), Some (VString t) => Some (f, t) | _, _ => None end
  | _ => None
  end.

(** A log that leads from one state to another, by allowed steps. *)
Fixpoint leads (from : string) (log : list json) (to : string) : Prop :=
  match log with
  | [] => from = to
  | entry :: log => ∃ t, entry_edge entry = Some (from, t) ∧ (from, t) ∈ edges ∧ leads t log to
  end.

Definition peer_log_ok (peer : raw_object) : Prop :=
  ∃ state log, rawPeerMigrationState peer = Ok state ∧ kept_list peer "migration_log" = Some log ∧ leads MigrationStateLoopbackUnprovisioned log state.

Lemma leads_snoc from log mid to entry :
  leads from log mid → entry_edge entry = Some (mid, to) → (mid, to) ∈ edges → leads from (log ++ [entry]) to.
Proof.
  revert from. induction log as [|e log IH]; intros from; cbn [leads app].
  - intros -> H1 H2. by exists to.
  - intros (t & He & Hin & Hl) H1 H2. exists t. split; [done|]. split; [done|]. by apply IH.
Qed.

Lemma edge_states f t : (f, t) ∈ edges → f ∈ migration_states ∧ t ∈ migration_states.
Proof.
  intros H. assert (Hall : forallb (λ e, bool_decide (e.1 ∈ migration_states) && bool_decide (e.2 ∈ migration_states)) edges = true) by (vm_compute; reflexivity).
  rewrite forallb_forall in Hall. specialize (Hall _ (proj1 (list_elem_of_In _ _) H)). apply andb_true_iff in Hall as [H1 H2]. cbn in H1, H2.
  by apply bool_decide_eq_true_1 in H1, H2.
Qed.

Lemma leads_state from log to : from ∈ migration_states → leads from log to → to ∈ migration_states.
Proof.
  revert from. induction log as [|e log IH]; intros from Hf; cbn [leads]; [by intros <-|]. intros (t & _ & Hin & Hl). apply (IH t); [|done]. exact (proj2 (edge_states _ _ Hin)).
Qed.

Lemma state_text s : s ∈ migration_states → json_text s = s.
Proof.
  intros H. assert (Hall : forallb (λ s, bool_decide (json_text s = s)) migration_states = true) by (vm_compute; reflexivity).
  rewrite forallb_forall in Hall. specialize (Hall _ (proj1 (list_elem_of_In _ _) H)). by apply bool_decide_eq_true_1 in Hall.
Qed.

(** What a transition is allowed for: its step, and what the step needs. *)
Definition step_needs (typedPeer : SSHPeer) (req : SSHPeerTransitionRequest) : Prop :=
  (tr_ToState req = MigrationStateSSHKeysReady → validateSSHPeerTransitionEnabledProofs typedPeer = Ok ()) ∧
  (tr_ToState req = MigrationStateProvisionFailed → validateSSHPeerProvisionFailedTransition req = Ok ()) ∧
  (tr_ToState req ≠ MigrationStateProvisionFailed → tr_FailedPhase req = None ∧ tr_RemoteSecretAbsenceProof req = None).

Lemma transition_check_Ok typedPeer req :
  transition_check typedPeer req = Ok () →
  (tr_FromState req, tr_ToState req) ∈ edges ∧
  (tr_ToState req = MigrationStateSSHKeysReady → validateSSHPeerTransitionEnabledProofs typedPeer = Ok ()) ∧
  (tr_ToState req = MigrationStateProvisionFailed → validateSSHPeerProvisionFailedTransition req = Ok ()).
Proof.
  assert (Hedge : ∀ e, bool_decide (e ∈ edges) = true → e ∈ edges) by (intros e; apply bool_decide_eq_true_1).
  destruct req as [rev from to reason lid ph ab]. cbn [tr_FromState tr_ToState]. unfold transition_check. cbn [tr_FromState tr_ToState]. cbv zeta beta.
  repeat match goal with
  | |- context [bool_decide (?x = ?s)] => is_var x; destruct (bool_decide_reflect (x = s)) as [?|?]; [subst x|]; cbn [andb orb]
  end; try discriminate; intros H.
  all: (split; [apply Hedge; vm_compute; reflexivity|]).
  all: split; intros Heq; try discriminate Heq; first [exact H|by apply bind_Ok in H as (? & _ & H)].
Qed.

(** ** Lemmas: the operations *)

(** What a rebuild leaves, for the raw object and the configuration it was given. *)
Definition rebuilt (g : go_config) (raw sshRaw : raw_object) (peers : list raw_object) (g' : go_config) (raw' : raw_object) : Prop :=
  rawSSHPeers raw' = Ok (<["peers" := VArray (json_object <$> peers)]> sshRaw, peers) ∧
  raw' !! "ssh" = Some (json_object (<["peers" := VArray (json_object <$> peers)]> sshRaw)) ∧
  (∀ k, k ≠ "ssh" → raw' !! k = raw !! k) ∧ ∃ typed, typed_peers peers = Ok typed ∧ g' = with_peers g typed.

Lemma rebuild_rebuilt g raw sshRaw peers g' raw' :
  rebuildTypedSSHPeersAndWriteBack g raw sshRaw peers = Ok (g', raw') → rebuilt g raw sshRaw peers g' raw'.
Proof.
  intros (typed & Ht & -> & ->)%rebuild_Ok. split; [apply rawSSHPeers_written|]. split; [apply lookup_insert_eq|]. split; [|by exists typed].
  intros k Hk. by apply lookup_insert_ne.
Qed.

Lemma kept_frame (raw raw' : raw_object) field : raw !! field = raw' !! field → kept_list raw field = kept_list raw' field.
Proof. unfold kept_list. by intros ->. Qed.

Lemma state_frame (raw raw' : raw_object) : raw !! "migration_state" = raw' !! "migration_state" → rawPeerMigrationState raw = rawPeerMigrationState raw'.
Proof. unfold rawPeerMigrationState. by intros ->. Qed.

Lemma id_frame (raw raw' : raw_object) : raw !! "id" = raw' !! "id" → rawPeerID raw = rawPeerID raw'.
Proof. unfold rawPeerID. by intros ->. Qed.

Lemma log_ok_frame (raw raw' : raw_object) :
  raw !! "migration_state" = raw' !! "migration_state" → raw !! "migration_log" = raw' !! "migration_log" → peer_log_ok raw → peer_log_ok raw'.
Proof.
  intros Hs Hl (state & log & H1 & H2 & H3). exists state, log. by rewrite <- (state_frame _ _ Hs), <- (kept_frame _ _ _ Hl).
Qed.

(** The peer a transition works on, before its state is set. *)
Definition prepared (req : SSHPeerTransitionRequest) (peer : raw_object) : raw_object :=
  if bool_decide (tr_ToState req = MigrationStateLoopbackUnprovisioned) then (scrubSecretLikeRawFields (delete "proof" peer) {["migration_log"]}).1 else peer.

Lemma prepared_lookup req peer k :
  prepared req peer !! k = peer !! k ∨ tr_ToState req = MigrationStateLoopbackUnprovisioned ∧ k ≠ "migration_log".
Proof.
  unfold prepared. destruct (bool_decide_reflect (tr_ToState req = MigrationStateLoopbackUnprovisioned)) as [Ht|]; [|by left].
  destruct (decide (k = "migration_log")) as [->|Hk]; [left|right; done]. rewrite lookup_scrubSecretLikeRawFields, lookup_delete_ne by done.
  rewrite bool_decide_eq_true_2 by set_solver. by destruct (peer !! "migration_log").
Qed.

(** The id stays: it is not secret-like, and a scalar. *)
Lemma prepared_id req peer peerID : rawPeerID peer = Ok peerID → rawPeerID (prepared req peer) = Ok peerID.
Proof.
  unfold prepared. destruct (bool_decide _); [|done]. intros H. rewrite <- H. apply id_frame. rewrite lookup_scrubSecretLikeRawFields, lookup_delete_ne by done.
  destruct (peer !! "id") as [v|] eqn:E; [|done]. cbn [mbind option_bind]. rewrite bool_decide_eq_false_2 by set_solver.
  assert (secretLikePeerField "id" = false) as -> by (vm_compute; reflexivity). f_equal. apply scrub_unchanged.
  unfold rawPeerID in H. rewrite E in H. by destruct v.
Qed.

Lemma entry_edge_entry req :
  tr_FromState req ∈ migration_states → tr_ToState req ∈ migration_states →
  entry_edge (json_object (log_entry req)) = Some (tr_FromState req, tr_ToState req).
Proof.
  intros Hf Ht. unfold entry_edge. rewrite unmarshal_json_object. unfold log_entry. rewrite !lookup_setRawPointer, !decide_False by done.
  change (raw_of ?l !! "from_state") with (Some (json_string (tr_FromState req))). change (raw_of ?l !! "to_state") with (Some (json_string (tr_ToState req))).
  unfold json_string. by rewrite !state_text.
Qed.

Lemma valid_state s : validSSHPeerTransitionState s = true → s ∈ migration_states.
Proof. unfold validSSHPeerTransitionState. intros H%bool_decide_eq_true_1. unfold migration_states. set_solver. Qed.

Lemma transition_Ok peerID req g raw g' raw' peer' :
  applySSHPeerTransition peerID req g raw = Ok (g', raw', peer') →
  ∃ sshRaw peers i peer typedPeer log, rawSSHPeers raw = Ok (sshRaw, peers) ∧ findRawPeerForUpdate peers peerID = Ok (Some (i, peer)) ∧ rawPeerID peer = Ok peerID ∧
    rawPeerMigrationState peer = Ok (tr_FromState req) ∧ typedPeerFromRaw peer = Ok typedPeer ∧
    (tr_FromState req, tr_ToState req) ∈ edges ∧ transition_check typedPeer req = Ok () ∧ step_needs typedPeer req ∧
    rawPeerID peer' = Ok peerID ∧ rawPeerMigrationState peer' = Ok (tr_ToState req) ∧
    kept_list peer "migration_log" = Some log ∧ kept_list peer' "migration_log" = Some (log ++ [json_object (log_entry req)]) ∧
    (∀ k, k ≠ "migration_state" → k ≠ "migration_log" → peer' !! k = prepared req peer !! k) ∧
    rebuilt g raw sshRaw (<[i := peer']> peers) g' raw'.
Proof.
  unfold applySSHPeerTransition. intros ([[[sshRaw peers] i] peer] & (Hr & Hi & Hid)%located_found & H)%bind_Ok. apply bind_Ok in H as (state & Hst & H).
  destruct (bool_decide_reflect (state = tr_FromState req)) as [->|]; [|discriminate]. cbn [negb] in H. apply bind_Ok in H as ([] & Hval & H).
  apply bind_Ok in H as (p & Hlog & H). apply bind_Ok in H as ([g1 raw1] & Hreb%rebuild_rebuilt & [= <- <- <-]).
  unfold validateSSHPeerTransitionRequest in Hval. destruct (validSSHPeerTransitionState (tr_FromState req)) eqn:Hf; [|discriminate]. cbn [negb] in Hval.
  destruct (validSSHPeerTransitionState (tr_ToState req)) eqn:Ht; [|discriminate]. cbn [negb] in Hval.
  destruct (blank _); [discriminate|]. destruct (blank _); [discriminate|]. destruct (bool_decide (tr_FromState req = tr_ToState req)); [discriminate|].
  destruct (negb _ && _) eqn:Hextra; [discriminate|]. apply bind_Ok in Hval as (typedPeer & Htyped & Hcheck).
  destruct (transition_check_Ok _ _ Hcheck) as (Hedge & Hready & Hfailed).
  apply kept_append in Hlog as (log & Hl & Hl' & Hk). unfold appendSSHPeerMigrationLog in *.
  assert (Hst' : rawPeerMigrationState p = Ok (tr_ToState req)).
  { unfold rawPeerMigrationState. rewrite (Hk "migration_state"), lookup_insert_eq by done. unfold json_string. by rewrite state_text by by apply valid_state. }
  assert (Hneeds : step_needs typedPeer req).
  { split; [done|]. split; [done|]. intros Hn. rewrite bool_decide_eq_false_2 in Hextra by done. cbn [negb andb] in Hextra.
    apply orb_false_iff in Hextra as [H1%bool_decide_eq_false_1 H2%bool_decide_eq_false_1]. by rewrite <- !eq_None_not_Some in *. }
  exists sshRaw, peers, i, peer, typedPeer, log. do 8 (split; [done|]). split.
  { rewrite <- (prepared_id req peer peerID Hid). apply id_frame. by rewrite (Hk "id"), lookup_insert_ne. }
  split; [done|]. split.
  { rewrite <- Hl. apply kept_frame. rewrite lookup_insert_ne by done. symmetry. destruct (prepared_lookup req peer "migration_log") as [?|[_ ?]]; [done|congruence]. }
  split; [done|]. split; [|done]. intros k Hk1 Hk2. rewrite (Hk k) by done. by rewrite lookup_insert_ne.
Qed.

(** *** Upserts *)

Definition upsert_keys : list string :=
  ["migration_state"; "enabled"; "accept"; "connect"; "persistent"; "on_demand"; "ssh_user"; "ssh_port"; "install_path"; "gateway_path"].

Lemma upserted_other peer req k : k ∉ upsert_keys → upserted peer req !! k = peer !! k.
Proof.
  unfold upsert_keys. intros Hk. rewrite !not_elem_of_cons in Hk. destruct_and!. unfold upserted. by rewrite !lookup_setRawPointer, !decide_False by done.
Qed.

Lemma upserted_state peer req :
  upserted peer req !! "migration_state" = match uf_MigrationState req with Some s => Some (json_string s) | None => peer !! "migration_state" end.
Proof. unfold upserted. rewrite !lookup_setRawPointer. rewrite !decide_False by done. rewrite decide_True by done. by destruct (uf_MigrationState req). Qed.

Lemma upsert_Ok peerID req g raw g' raw' peer' :
  ValidateHostID peerID = Ok () → applySSHPeerUpsert peerID req g raw = Ok (g', raw', peer') →
  ∃ sshRaw peers peers' peer, rawSSHPeers raw = Ok (sshRaw, peers) ∧ rawPeerID peer' = Ok peerID ∧
    (∀ k, k ∉ upsert_keys → k ≠ "ssh_host" → peer' !! k = peer !! k) ∧ rebuilt g raw sshRaw peers' g' raw' ∧
    ((∃ i, findRawPeerForUpdate peers peerID = Ok (Some (i, peer)) ∧ rawPeerID peer = Ok peerID ∧ peers' = <[i := peer']> peers ∧
        (∃ state, rawPeerMigrationState peer = Ok state) ∧
        (uf_MigrationState (ur_Peer req) = None → peer' !! "migration_state" = peer !! "migration_state") ∧
        (∀ state, state ∈ migration_states → rawPeerMigrationState peer = Ok state → rawPeerMigrationState peer' = Ok state)) ∨
     (Forall (λ p, ∃ id', rawPeerID p = Ok id' ∧ id' ≠ peerID) peers ∧ peers' = peers ++ [peer'] ∧ peer = <["id" := json_string peerID]> ∅ ∧
        rawPeerMigrationState peer' = Ok MigrationStateLoopbackUnprovisioned ∧ uf_MigrationState (ur_Peer req) = Some MigrationStateLoopbackUnprovisioned)).
Proof.
  intros Hvalid. unfold applySSHPeerUpsert. intros (_ & _ & H)%bind_Ok. apply bind_Ok in H as ([sshRaw peers] & Hr & H). apply bind_Ok in H as (found & Hf & H).
  set (peer := match found with Some (_, peer) => peer | None => <["id" := json_string peerID]> ∅ end) in *.
  apply bind_Ok in H as (state & Hst & H). apply bind_Ok in H as ([] & Hmode & H). apply bind_Ok in H as (p & Hhost & H).
  apply bind_Ok in H as (typedPeer & _ & H). apply bind_Ok in H as ([] & _ & H). apply bind_Ok in H as ([g1 raw1] & Hreb%rebuild_rebuilt & [= <- <- <-]).
  assert (Hother : ∀ k, k ≠ "ssh_host" → p !! k = upserted peer (ur_Peer req) !! k).
  { intros k Hk. destruct (uf_SSHHost (ur_Peer req)); [|by injection Hhost as <-]. apply bind_Ok in Hhost as (h & _ & [= <-]). by apply lookup_insert_ne. }
  assert (Hid : rawPeerID peer = Ok peerID).
  { unfold peer. destruct found as [[i q]|]; [by apply find_Ok in Hf as (_ & ? & _)|]. unfold rawPeerID. rewrite lookup_insert_eq. cbn [json_string unmarshal_string].
    rewrite host_id_text by done. by rewrite Hvalid. }
  exists sshRaw, peers, (match found with Some (index, _) => <[index := p]> peers | None => peers ++ [p] end), peer. split; [done|]. split.
  { rewrite <- Hid. apply id_frame. rewrite Hother, upserted_other by (done || by apply not_key). done. }
  split. { intros k Hk Hh. by rewrite Hother, upserted_other. }
  split; [done|]. destruct found as [[i q]|]; [left|right].
  - exists i. unfold peer. pose proof Hf as (_ & ? & _)%find_Ok. split; [done|]. split; [done|]. split; [done|]. split; [by exists state|]. split; [by intros Hnone; rewrite Hother, upserted_state, Hnone|]. intros s Hs Hps.
    destruct (bool_decide_reflect (default state (uf_MigrationState (ur_Peer req)) = state)) as [Hsame|]; [|discriminate Hmode].
    unfold peer in Hst. rewrite Hps in Hst. injection Hst as <-.
    unfold rawPeerMigrationState. rewrite Hother, upserted_state by done. destruct (uf_MigrationState (ur_Peer req)) as [s'|]; [|exact Hps].
    cbn in Hsame. subst s'. unfold json_string. by rewrite state_text.
  - split; [by apply find_None|]. split; [done|]. split; [done|].
    destruct (bool_decide_reflect (uf_MigrationState (ur_Peer req) = Some MigrationStateLoopbackUnprovisioned)) as [Hl|]; [|discriminate Hmode].
    split; [|done]. unfold rawPeerMigrationState. rewrite Hother, upserted_state, Hl by done. done.
Qed.

Lemma persist_path_other sshRaw key normalized k : k ≠ key → persistNormalizedLocalSSHPath sshRaw key normalized !! k = sshRaw !! k.
Proof. intros Hk. unfold persistNormalizedLocalSSHPath. destruct (_ ≫= _); [|done]. destruct (needsHomeExpansion _); [|done]. by apply lookup_insert_ne. Qed.

(** A section marshalled is read back with its peers, whatever else is in it. *)
Lemma rawSSHPeers_section raw (sshRaw : raw_object) peers :
  sshRaw !! "peers" = Some (VArray (json_object <$> peers)) → rawSSHPeers (<["ssh" := json_object sshRaw]> raw) = Ok (sshRaw, peers).
Proof.
  intros H. unfold rawSSHPeers. rewrite lookup_insert_eq. change (isJSONNull (json_object sshRaw)) with false. cbv iota.
  rewrite unmarshal_json_object. cbn [mbind result_bind]. unfold default, id. rewrite H. cbn [isJSONNull]. by rewrite unmarshal_json_objects.
Qed.

Lemma persist_Ok raw c raw' sshRaw peers ssh :
  SSH c = Some ssh → rawSSHPeers raw = Ok (sshRaw, peers) → sshRaw !! "peers" = Some (VArray (json_object <$> peers)) →
  persistNormalizedLocalSSHPaths raw c = Ok raw' →
  ∃ sshRaw', raw' = <["ssh" := json_object sshRaw']> raw ∧
    sshRaw' = persistNormalizedLocalSSHPath (persistNormalizedLocalSSHPath sshRaw "sync_key" (SyncKey ssh)) "known_hosts" (KnownHosts ssh) ∧
    rawSSHPeers raw' = Ok (sshRaw', peers).
Proof.
  intros Hc Hr Hp. unfold persistNormalizedLocalSSHPaths. rewrite Hc, Hr. cbn [mbind result_bind]. intros [= <-]. eexists. split; [done|]. split; [done|].
  apply rawSSHPeers_section. by rewrite !persist_path_other.
Qed.

(** *** The other operations *)

Lemma patch_Ok peerID req g raw g' raw' peer' :
  applySSHPeerProofPatch peerID req g raw = Ok (g', raw', peer') →
  ∃ sshRaw peers i peer, rawSSHPeers raw = Ok (sshRaw, peers) ∧ findRawPeerForUpdate peers peerID = Ok (Some (i, peer)) ∧ rawPeerID peer = Ok peerID ∧
    (∀ k, k ≠ "proof" → peer' !! k = peer !! k) ∧ rebuilt g raw sshRaw (<[i := peer']> peers) g' raw'.
Proof.
  unfold applySSHPeerProofPatch. intros ([[[sshRaw peers] i] peer] & (Hr & Hi & Hid)%located_found & H)%bind_Ok. apply bind_Ok in H as (typedPeer & _ & H).
  destruct (_ && _); [discriminate|]. destruct (_ && _); [discriminate|]. apply bind_Ok in H as (proofRaw & _ & H).
  apply bind_Ok in H as ([g1 raw1] & Hreb%rebuild_rebuilt & [= <- <- <-]). exists sshRaw, peers, i, peer. split; [done|]. split; [done|]. split; [done|].
  split; [|done]. intros k Hk. by apply lookup_insert_ne.
Qed.

Lemma disable_Ok now peerID req g raw g' raw' peer' :
  applySSHPeerDisable now peerID req g raw = Ok (g', raw', peer') →
  ∃ sshRaw sshRaw' peers i peer state audit, rawSSHPeers raw = Ok (sshRaw, peers) ∧ peers !! i = Some peer ∧ rawPeerID peer = Ok peerID ∧
    rawPeerMigrationState peer = Ok state ∧ state ∈ migration_states ∧ peer' = <["enabled" := VBool false]> peer ∧
    kept_list sshRaw "audit_log" = Some audit ∧
    kept_list sshRaw' "audit_log" = Some (audit ++ [json_object (sshPeerDisableAuditEntry now peerID state (di_Reason req))]) ∧
    (∀ k, k ≠ "audit_log" → sshRaw' !! k = sshRaw !! k) ∧ rebuilt g raw sshRaw' (<[i := peer']> peers) g' raw'.
Proof.
  unfold applySSHPeerDisable. intros ([[[sshRaw peers] i] peer] & (Hr & Hi & Hid)%located_Ok & H)%bind_Ok. apply bind_Ok in H as (state & Hst & H).
  destruct (validSSHPeerConfigMutationState state) eqn:Hv; [|discriminate]. cbn [negb] in H. apply bind_Ok in H as (sshRaw' & (audit & Ha & Ha' & Hk)%kept_append & H).
  apply bind_Ok in H as ([g1 raw1] & Hreb%rebuild_rebuilt & [= <- <- <-]). exists sshRaw, sshRaw', peers, i, peer, state, audit.
  split_all; try apply Hreb; try done. unfold validSSHPeerConfigMutationState in Hv. by apply bool_decide_eq_true_1 in Hv.
Qed.

Lemma delete_Ok now peerID req g raw g' raw' shown :
  applySSHPeerDelete now peerID req g raw = Ok (g', raw', shown) →
  ∃ sshRaw sshRaw1 sshRaw2 peers i peer state audit status remediation, rawSSHPeers raw = Ok (sshRaw, peers) ∧ peers !! i = Some peer ∧ rawPeerID peer = Ok peerID ∧
    rawPeerMigrationState peer = Ok state ∧ state ∈ migration_states ∧
    kept_list sshRaw "audit_log" = Some audit ∧ kept_list sshRaw1 "audit_log" = Some (audit ++ [json_object (sshPeerDeleteAuditEntry peerID state req now)]) ∧
    (∀ k, k ≠ "audit_log" → sshRaw1 !! k = sshRaw !! k) ∧
    sshPeerDeleteCleanupStatus peerID state peer req now = Ok (status, remediation) ∧
    (match remediation with Some record => appendSSHRemediation sshRaw1 record | None => Ok sshRaw1 end) = Ok sshRaw2 ∧
    shown = <["cleanup_status" := json_object status]> peer ∧ rebuilt g raw sshRaw2 (delete i peers) g' raw'.
Proof.
  unfold applySSHPeerDelete. intros ([[[sshRaw peers] i] peer] & (Hr & Hi & Hid)%located_Ok & H)%bind_Ok. apply bind_Ok in H as (state & Hst & H).
  destruct (validSSHPeerConfigMutationState state) eqn:Hv; [|discriminate]. cbn [negb] in H. apply bind_Ok in H as (sshRaw1 & (audit & Ha & Ha' & Hk)%kept_append & H).
  apply bind_Ok in H as ([status remediation] & Hs & H). apply bind_Ok in H as (sshRaw2 & Hrem & H).
  apply bind_Ok in H as ([g1 raw1] & Hreb%rebuild_rebuilt & [= <- <- <-]). exists sshRaw, sshRaw1, sshRaw2, peers, i, peer, state, audit, status, remediation.
  split_all; try apply Hreb; try done. unfold validSSHPeerConfigMutationState in Hv. by apply bool_decide_eq_true_1 in Hv.
Qed.

(** ** The invariant of the peers *)

Definition peers_ok (peers : list raw_object) : Prop :=
  Forall peer_log_ok peers ∧ ∃ ids, Forall2 (λ p pid, rawPeerID p = Ok pid) peers ids ∧ NoDup ids.

Lemma peers_ok_replace peers i peer peer' peerID :
  peers_ok peers → peers !! i = Some peer → rawPeerID peer = Ok peerID → rawPeerID peer' = Ok peerID → (peer_log_ok peer → peer_log_ok peer') →
  peers_ok (<[i := peer']> peers).
Proof.
  intros (Hlog & ids & Hids & Hnd) Hi Hid Hid' Hl. split.
  - apply Forall_insert; [done|]. apply Hl. by eapply Forall_lookup_1.
  - exists ids. split; [|done]. destruct (Forall2_lookup_l _ _ _ _ _ Hids Hi) as (pid & Hpid & Hp). rewrite Hid in Hp. injection Hp as <-.
    replace ids with (<[i := peerID]> ids) by (by apply list_insert_id). by apply Forall2_insert.
Qed.

Lemma peers_ok_add peers peer' peerID :
  peers_ok peers → Forall (λ p, ∃ id', rawPeerID p = Ok id' ∧ id' ≠ peerID) peers → rawPeerID peer' = Ok peerID → peer_log_ok peer' → peers_ok (peers ++ [peer']).
Proof.
  intros (Hlog & ids & Hids & Hnd) Hnew Hid' Hl. split; [apply Forall_app; by repeat constructor|]. exists (ids ++ [peerID]). split.
  - apply Forall2_app; [done|by repeat constructor].
  - apply NoDup_app. split; [done|]. split; [|apply NoDup_singleton]. intros pid Hin Heq%list_elem_of_singleton. subst pid.
    apply list_elem_of_lookup_1 in Hin as [j Hj]. destruct (Forall2_lookup_r _ _ _ _ _ Hids Hj) as (p & Hp & Hpid).
    rewrite Forall_lookup in Hnew. destruct (Hnew _ _ Hp) as (id' & H1 & H2). congruence.
Qed.

Lemma peers_ok_delete peers i : peers_ok peers → peers_ok (delete i peers).
Proof.
  intros (Hlog & ids & Hids & Hnd). split; [by apply Forall_delete|]. exists (delete i ids). split; [by apply Forall2_delete|].
  eapply sublist_NoDup; [exact Hnd|]. apply sublist_delete.
Qed.

Lemma normalize_some homeDir c c' : NormalizeLocalSSHPaths homeDir c = Ok c' → is_Some (SSH c) → is_Some (SSH c').
Proof.
  unfold NormalizeLocalSSHPaths. intros H [ssh Hs]. rewrite Hs in H. destruct (_ && _); [injection H as <-; eauto|].
  destruct homeDir; [|discriminate]. injection H as <-. cbn. eauto.
Qed.

Lemma upsert_change_Ok homeDir peerID req g raw g' raw' peer' :
  ValidateHostID peerID = Ok () → upsert_change homeDir peerID req g raw = Ok (g', raw', peer') →
  ∃ g1 raw1 c, applySSHPeerUpsert peerID req g raw = Ok (g1, raw1, peer') ∧ NormalizeLocalSSHPaths homeDir (gc_config g1) = Ok c ∧ g' = with_config g1 c ∧
    persistNormalizedLocalSSHPaths raw1 c = Ok raw'.
Proof.
  intros Hv. unfold upsert_change. intros ([[g1 raw1] p] & H1 & H)%bind_Ok. apply bind_Ok in H as (c & Hc & H). apply bind_Ok in H as (raw2 & Hraw & [= <- <- <-]).
  by exists g1, raw1, c.
Qed.

(** What an operation makes of the peers: it keeps the invariant. *)
Definition keeps (change : go_config → raw_object → result string (go_config * raw_object * raw_object)) : Prop :=
  ∀ g raw g' raw' a, change g raw = Ok (g', raw', a) →
    ∃ sshRaw peers sshRaw' peers', rawSSHPeers raw = Ok (sshRaw, peers) ∧ is_Some (SSH (gc_config g')) ∧ is_Some (raw' !! "ssh") ∧
      rawSSHPeers raw' = Ok (sshRaw', peers') ∧ (peers_ok peers → peers_ok peers').

Lemma rebuilt_keeps g raw sshRaw peers s peers' g' raw' :
  rawSSHPeers raw = Ok (sshRaw, peers) → rebuilt g raw s peers' g' raw' → (peers_ok peers → peers_ok peers') →
  ∃ sshRaw peers sshRaw' peers', rawSSHPeers raw = Ok (sshRaw, peers) ∧ is_Some (SSH (gc_config g')) ∧ is_Some (raw' !! "ssh") ∧
    rawSSHPeers raw' = Ok (sshRaw', peers') ∧ (peers_ok peers → peers_ok peers').
Proof.
  intros H0 (Hr & Hs & _ & typed & _ & ->) Hok. do 4 eexists. split; [exact H0|]. split; [by eexists|]. split; [by eexists|]. split; [exact Hr|done].
Qed.

Lemma transition_keeps peerID req : keeps (applySSHPeerTransition peerID req).
Proof.
  intros g raw g' raw' a H. apply transition_Ok in H as (s & ps & i & peer & tp & log & Hr & Hi & Hid & Hst & _ & Hedge & _ & _ & Hid' & Hst' & Hl & Hl' & _ & Hreb).
  apply find_Ok in Hi as (Hi & _). eapply rebuilt_keeps; [exact Hr|exact Hreb|]. intros Hok. eapply peers_ok_replace; [done..|].
  intros (state & log' & H1 & H2 & H3). rewrite Hst in H1. injection H1 as <-. rewrite Hl in H2. injection H2 as <-. exists (tr_ToState req), (log ++ [json_object (log_entry req)]).
  split; [done|]. split; [done|]. eapply leads_snoc; [exact H3| |done]. destruct (edge_states _ _ Hedge). by apply entry_edge_entry.
Qed.

Lemma patch_keeps peerID req : keeps (applySSHPeerProofPatch peerID req).
Proof.
  intros g raw g' raw' a H. apply patch_Ok in H as (s & ps & i & peer & Hr & (Hi & _)%find_Ok & Hid & Hk & Hreb).
  eapply rebuilt_keeps; [exact Hr|exact Hreb|]. intros Hok. eapply peers_ok_replace; [done..| |].
  - rewrite <- Hid. apply id_frame. by apply Hk.
  - apply log_ok_frame; symmetry; by apply Hk.
Qed.

Lemma disable_keeps now peerID req : keeps (applySSHPeerDisable now peerID req).
Proof.
  intros g raw g' raw' a H. apply disable_Ok in H as (s & s' & ps & i & peer & st & au & Hr & Hi & Hid & _ & _ & -> & _ & _ & _ & Hreb).
  eapply rebuilt_keeps; [exact Hr|exact Hreb|]. intros Hok. eapply peers_ok_replace; [done..| |].
  - rewrite <- Hid. apply id_frame. by rewrite lookup_insert_ne.
  - apply log_ok_frame; by rewrite lookup_insert_ne.
Qed.

Lemma delete_keeps now peerID req : keeps (applySSHPeerDelete now peerID req).
Proof.
  intros g raw g' raw' a H. apply delete_Ok in H as (s & s1 & s2 & ps & i & peer & st & au & status & rem & Hr & _ & _ & _ & _ & _ & _ & _ & _ & _ & _ & Hreb).
  eapply rebuilt_keeps; [exact Hr|exact Hreb|]. apply peers_ok_delete.
Qed.

Lemma upsert_keeps homeDir peerID req : ValidateHostID peerID = Ok () → keeps (upsert_change homeDir peerID req).
Proof.
  intros Hv g raw g' raw' a H. apply upsert_change_Ok in H as (g1 & raw1 & c & Hup & Hc & -> & Hpersist); [|done].
  apply upsert_Ok in Hup as (s & ps & peers' & peer & Hr & Hid' & Hk & Hreb & Hcase); [|done].
  assert (Hok' : peers_ok ps → peers_ok peers').
  { intros Hok. destruct Hcase as [(i & (Hi & _)%find_Ok & Hid & -> & _ & _ & Hst)|(Hnew & -> & -> & Hst & _)].
    - eapply peers_ok_replace; [done..|]. intros (state & log & H1 & H2 & H3). exists state, log.
      split; [apply Hst; [eapply leads_state; [|exact H3]; by left|done]|]. split; [|done]. rewrite <- H2. apply kept_frame. by rewrite (Hk "migration_log") by (done || by apply not_key).
    - eapply peers_ok_add; [done..|]. exists MigrationStateLoopbackUnprovisioned, []. split; [done|]. split; [|done].
      unfold kept_list. by rewrite (Hk "migration_log"), lookup_insert_ne by (done || by apply not_key). }
  destruct Hreb as (Hw & Hssh & _ & typed & _ & ->). assert (is_Some (SSH c)) as [ssh Hc'] by (eapply normalize_some; [exact Hc|by eexists]).
  destruct (persist_Ok raw1 c raw' _ _ ssh Hc' Hw) as (s' & -> & _ & Hr'); [by rewrite lookup_insert_eq|done|].
  do 4 eexists. split; [exact Hr|]. split; [by eexists|]. split; [rewrite lookup_insert_eq; by eexists|]. split; [exact Hr'|done].
Qed.

(** A successful request of any kind, by what it writes. *)
Inductive peer_write (homeDir : option string) (data : string) (out : raw_object) : Prop :=
| write_upsert gate peerID req shown revision : upsertSSHPeerWithGate homeDir gate data peerID req = Ok (out, shown, revision) → peer_write homeDir data out
| write_patch gate peerID req shown revision : patchSSHPeerProofWithGate homeDir gate data peerID req = Ok (out, shown, revision) → peer_write homeDir data out
| write_transition gate peerID req shown revision : transitionSSHPeerWithGate homeDir gate data peerID req = Ok (out, shown, revision) → peer_write homeDir data out
| write_disable gate now peerID req shown revision : disableSSHPeerWithGate homeDir gate now data peerID req = Ok (out, shown, revision) → peer_write homeDir data out
| write_delete gate now peerID req shown revision : deleteSSHPeerWithGate homeDir gate now data peerID req = Ok (out, shown, revision) → peer_write homeDir data out.

Inductive peer_history (homeDir : option string) (start : string) : string → Prop :=
| peer_history_start : peer_history homeDir start start
| peer_history_write data out data' :
    peer_history homeDir start data → peer_write homeDir data out → parse data' = Some (json_object out) → peer_history homeDir start data'.

(** An entry point is an update with one of the changes. *)
Lemma entry_point homeDir gate data expected (change : go_config → raw_object → result string (go_config * raw_object * raw_object)) out (shown : raw_object) revision :
  ('(out, updated, revision) ← withSSHPeerConfigUpdate homeDir gate data expected change; Ok (out, redactRawPeer updated, revision)) = Ok (out, shown, revision) →
  ∃ updated, withSSHPeerConfigUpdate homeDir gate data expected change = Ok (out, updated, revision) ∧ shown = redactRawPeer updated.
Proof. intros ([[o u] r] & H & [= <- <- <-])%bind_Ok. eauto. Qed.

Lemma expecting_Ok revision expected : expecting revision = Ok expected → ∃ r, revision = Some r ∧ expected = MkExpectation RevisionStateVersioned (Some r) ∧ r ≠ 0%Z.
Proof.
  unfold expecting. destruct (default 0%Z revision =? 0)%Z eqn:E; [discriminate|]. intros [= <-]. destruct revision as [r|]; [|discriminate E].
  exists r. split; [done|]. split; [done|]. by apply Z.eqb_neq in E.
Qed.

(** The operations on the raw and typed copies that the requests come to. *)
Inductive peer_operation (homeDir : option string) : (go_config → raw_object → result string (go_config * raw_object * raw_object)) → Prop :=
| operation_upsert peerID req : ValidateHostID peerID = Ok () → peer_operation homeDir (upsert_change homeDir peerID req)
| operation_patch peerID req : peer_operation homeDir (applySSHPeerProofPatch peerID req)
| operation_transition peerID req : peer_operation homeDir (applySSHPeerTransition peerID req)
| operation_disable now peerID req : peer_operation homeDir (applySSHPeerDisable now peerID req)
| operation_delete now peerID req : peer_operation homeDir (applySSHPeerDelete now peerID req).

Lemma operation_keeps homeDir change : peer_operation homeDir change → keeps change.
Proof. intros []; [by apply upsert_keeps|apply patch_keeps|apply transition_keeps|apply disable_keeps|apply delete_keeps]. Qed.

(** Every request is an update with one of the operations, made for a revision. *)
Lemma peer_write_update homeDir data out :
  peer_write homeDir data out →
  ∃ gate r change updated revision, r ≠ 0%Z ∧ peer_operation homeDir change ∧
    withSSHPeerConfigUpdate homeDir gate data (MkExpectation RevisionStateVersioned (Some r)) change = Ok (out, updated, revision).
Proof.
  intros [gate peerID req shown revision H|gate peerID req shown revision H|gate peerID req shown revision H|gate now peerID req shown revision H|gate now peerID req shown revision H];
    unfold upsertSSHPeerWithGate, patchSSHPeerProofWithGate, transitionSSHPeerWithGate, disableSSHPeerWithGate, deleteSSHPeerWithGate in H;
    apply bind_Ok in H as ([] & Hid%recode_Ok & H); apply bind_Ok in H as (expected & (r & _ & -> & Hr)%expecting_Ok & H); exists gate, r.
  - apply bind_Ok in H as (_ & _ & H). apply bind_Ok in H as (_ & _ & H). apply entry_point in H as (u & H & _). do 3 eexists. split; [done|]. split; [|exact H]; by constructor.
  - destruct (pr_AcceptProof req), (pr_ConnectProof req); try discriminate; apply entry_point in H as (u & H & _);
      (do 3 eexists; split; [done|]; split; [|exact H]; constructor).
  - apply entry_point in H as (u & H & _). do 3 eexists. split; [done|]. split; [|exact H]; constructor.
  - apply bind_Ok in H as (_ & _ & H). apply entry_point in H as (u & H & _). do 3 eexists. split; [done|]. split; [|exact H]; constructor.
  - apply bind_Ok in H as (_ & _ & H). destruct (blank _); [discriminate|]. apply entry_point in H as (u & H & _). do 3 eexists. split; [done|]. split; [|exact H]; constructor.
Qed.

(** The peers of a text. *)
Definition text_peers (homeDir : option string) (data : string) (peers : list raw_object) : Prop :=
  ∃ doc sshRaw, parseConfigDocument homeDir data = Ok doc ∧ rawSSHPeers (doc_raw doc) = Ok (sshRaw, peers).

Lemma peer_write_keeps homeDir data out data' :
  (∀ peers, text_peers homeDir data peers → peers_ok peers) → peer_write homeDir data out → parse data' = Some (json_object out) →
  ∀ peers, text_peers homeDir data' peers → peers_ok peers.
Proof.
  intros Hok (gate & r & change & updated & revision & _ & Hkeeps%operation_keeps & H)%peer_write_update Hp peers (doc' & s' & Hdoc' & Hr').
  apply withSSHPeerConfigUpdate_Ok in H as (_ & doc & g & raw & Hdoc & _ & Hch & _ & _ & ->).
  rewrite (parseConfigDocument_object _ _ _ Hp) in Hdoc'. apply document_of_raw_Ok in Hdoc' as [Hraw' _]. rewrite Hraw' in Hr'.
  apply Hkeeps in Hch as (s & ps & s1 & ps1 & Hr & Hs & Hssh & Hr1 & Hkeep). rewrite (rawSSHPeers_frame _ raw) in Hr' by (by apply written_raw).
  rewrite Hr1 in Hr'. injection Hr' as _ <-. apply Hkeep, Hok. by exists doc, s.
Qed.

(** ** Theorems *)


(** What an update of the peers leaves in the file. *)
Lemma update_written homeDir gate data expected (change : go_config → raw_object → result string (go_config * raw_object * raw_object)) out updated revision :
  withSSHPeerConfigUpdate homeDir gate data expected change = Ok (out, updated, revision) →
  gate = true ∧ ∃ doc g raw, parseConfigDocument homeDir data = Ok doc ∧ validateRevisionExpectation doc expected = Ok () ∧
    change (clone_config (doc_Config doc)) (doc_raw doc) = Ok (g, raw, updated) ∧ ValidateSSHTransportConfig (gc_config g) = Ok () ∧
    revision = (default 0 (doc_ConfigRevision doc) + 1)%Z ∧
    (is_Some (SSH (gc_config g)) → is_Some (raw !! "ssh") → rawSSHPeers out = rawSSHPeers raw) ∧
    (∀ k, k ∉ typed_keys → out !! k = raw !! k).
Proof.
  intros (Hg & doc & g & raw & Hdoc & Hexp & Hch & Hval & Hn & ->)%withSSHPeerConfigUpdate_Ok. split; [done|]. exists doc, g, raw.
  pose proof Hdoc as (v & _ & _ & _ & Hrok)%parseConfigDocument_Ok. split_all.
  - by apply nextConfigRevision_Ok in Hn as [-> _].
  - intros Hs Hssh. by apply rawSSHPeers_frame, written_raw.
  - intros k Hk. rewrite marshalPreserving_lookup by (intros ->; apply Hk; by apply typed_key).
    apply applyConfigScalars_other; intros Hin; apply Hk; unfold typed_keys; set_solver.
Qed.

Lemma rebuilt_written (out : raw_object) g raw sshRaw peers g' raw' :
  rebuilt g raw sshRaw peers g' raw' → (is_Some (SSH (gc_config g')) → is_Some (raw' !! "ssh") → rawSSHPeers out = rawSSHPeers raw') →
  (∀ k, k ∉ typed_keys → out !! k = raw' !! k) →
  rawSSHPeers out = Ok (<["peers" := VArray (json_object <$> peers)]> sshRaw, peers) ∧ ∀ k, k ∉ typed_keys → out !! k = raw !! k.
Proof.
  intros (Hr & Hs & Hk & typed & _ & ->) H1 H2. split; [rewrite H1, Hr; [done|by eexists|by eexists]|].
  intros k Hn. rewrite H2, Hk; [done| |done]. intros ->. apply Hn. by apply typed_key.
Qed.

(** C7. A migration step.  A transition succeeds only on a document at the revision
    expected, for a peer in the state the request starts from, along one of the eleven
    allowed steps; it becomes ready only with a current proof for every direction it is
    enabled for, and failed only with a proof of where the secret is.  It changes that
    peer alone: its state, and one entry more in its log; and when it goes back to the
    loopback state its proof is gone and no name left in it, the log apart, is
    secret-like at any depth.  What is answered is the redacted peer. *)
Theorem transition_spec homeDir gate data peerID req out shown revision
    (H : transitionSSHPeerWithGate homeDir gate data peerID req = Ok (out, shown, revision)) :
  gate = true ∧ ∃ doc sshRaw peers i peer typedPeer peer' log,
    parseConfigDocument homeDir data = Ok doc ∧ doc_ConfigRevision doc = tr_ExpectedConfigRevision req ∧ revision = (default 0 (doc_ConfigRevision doc) + 1)%Z ∧
    rawSSHPeers (doc_raw doc) = Ok (sshRaw, peers) ∧ peers !! i = Some peer ∧ rawPeerID peer = Ok peerID ∧
    rawPeerMigrationState peer = Ok (tr_FromState req) ∧ (tr_FromState req, tr_ToState req) ∈ edges ∧
    typedPeerFromRaw peer = Ok typedPeer ∧ step_needs typedPeer req ∧
    rawSSHPeers out = Ok (<["peers" := VArray (json_object <$> <[i := peer']> peers)]> sshRaw, <[i := peer']> peers) ∧
    (∀ k, k ∉ typed_keys → out !! k = doc_raw doc !! k) ∧
    rawPeerID peer' = Ok peerID ∧ rawPeerMigrationState peer' = Ok (tr_ToState req) ∧
    kept_list peer "migration_log" = Some log ∧ kept_list peer' "migration_log" = Some (log ++ [json_object (log_entry req)]) ∧
    (tr_ToState req ≠ MigrationStateLoopbackUnprovisioned → ∀ k, k ≠ "migration_state" → k ≠ "migration_log" → peer' !! k = peer !! k) ∧
    (tr_ToState req = MigrationStateLoopbackUnprovisioned →
      peer' !! "proof" = None ∧ ∀ key v, key ≠ "migration_log" → peer' !! key = Some v → secretLikePeerField key = false ∧ no_secret v) ∧
    shown = redactRawPeer peer'.
Proof.
  unfold transitionSSHPeerWithGate in H. apply bind_Ok in H as ([] & Hid%recode_Ok & H). apply bind_Ok in H as (expected & (r & Hr & -> & Hr0)%expecting_Ok & H).
  apply entry_point in H as (peer' & H & ->). apply update_written in H as (Hg & doc & g & raw & Hdoc & Hexp & Hch & _ & Hrev & Hw & Hk). split; [done|].
  apply transition_Ok in Hch as (sshRaw & peers & i & peer & typedPeer & log & Hrp & (Hi & _)%find_Ok & Hpid & Hst & Htyped & Hedge & _ & Hneeds & Hpid' & Hst' & Hl & Hl' & Hother & Hreb).
  destruct (rebuilt_written out _ _ _ _ _ _ Hreb Hw Hk) as [Hout Hrest].
  assert (Hscrub : ∀ key v, tr_ToState req = MigrationStateLoopbackUnprovisioned → key ≠ "migration_log" → peer' !! key = Some v →
    secretLikePeerField key = false ∧ no_secret v).
  { intros key v Ht Hkey Hv. destruct (decide (key = "migration_state")) as [->|Hk1].
    - split; [by vm_compute|]. unfold rawPeerMigrationState in Hst'. rewrite Hv in Hst'. apply no_secret_scalar. by destruct v.
    - rewrite Hother in Hv by done. unfold prepared in Hv. rewrite bool_decide_eq_true_2 in Hv by done. eapply scrub_fields_sound; [exact Hv|set_solver]. }
  exists doc, sshRaw, peers, i, peer, typedPeer, peer', log. split_all.
  - rewrite Hr. apply (expected_revision doc (MkExpectation RevisionStateVersioned (Some r)) r Hexp). done.
  - apply Hneeds.
  - apply Hneeds.
  - by apply Hneeds.
  - by apply Hneeds.
  - intros Hne k Hk1 Hk2. rewrite Hother by done. unfold prepared. by rewrite bool_decide_eq_false_2.
  - rewrite Hother by done. unfold prepared. rewrite bool_decide_eq_true_2 by done. by rewrite lookup_scrubSecretLikeRawFields, lookup_delete_eq.
  - eapply proj1, (Hscrub key v); done.
  - eapply proj2, (Hscrub key v); done.
Qed.

(** *** The record of a deleted peer *)

Lemma copy_string_other record raw field k : k ≠ field → copyRawStringToRecord record raw field !! k = record !! k.
Proof. intros Hk. unfold copyRawStringToRecord. destruct (raw !! field) as [[]|]; try done. destruct (bool_decide _); [done|]. by apply lookup_insert_ne. Qed.

Lemma copy_int_other record raw field k : k ≠ field → copyRawIntToRecord record raw field !! k = record !! k.
Proof.
  intros Hk. unfold copyRawIntToRecord. destruct (raw !! field) as [[]|]; try done. destruct (ParseInt _) as [z|]; [|done]. destruct (z =? 0)%Z; [done|]. by apply lookup_insert_ne.
Qed.

Lemma copy_string_copied record raw field s : raw !! field = Some (VString s) → s ≠ "" → copyRawStringToRecord record raw field !! field = Some (json_string s).
Proof. intros Hf Hs. unfold copyRawStringToRecord. rewrite Hf, bool_decide_eq_false_2 by done. apply lookup_insert_eq. Qed.

Definition cleanup_fields : list string :=
  ["ssh_host"; "ssh_user"; "ssh_port"; "install_path"; "gateway_path"; "accept_key_id"; "accept_gateway_path"; "connect_key_id"; "connect_gateway_path"; "last_provisioning_phase"].

Lemma cleanup_record source peerID state peer req removedAt record :
  sshPeerCleanupRecord source peerID state peer req removedAt = Ok record →
  (∀ k, k ∉ cleanup_fields → record !! k =
    raw_of [("source", VString source); ("durable", VBool true); ("peer_id", json_string peerID); ("previous_migration_state", json_string state);
      ("removed_at", json_string removedAt); ("reason", json_string (de_Reason req)); ("log_id", json_string (de_LogID req))] !! k) ∧
  (∀ field s, field ∈ ["ssh_host"; "ssh_user"; "gateway_path"] → peer !! field = Some (VString s) → s ≠ "" → record !! field = Some (json_string s)) ∧
  ∃ proof, rawPeerProofObject peer = Ok proof ∧
    ∀ field s, field ∈ ["accept_key_id"; "connect_key_id"] → proof !! field = Some (VString s) → s ≠ "" → record !! field = Some (json_string s).
Proof.
  unfold sshPeerCleanupRecord. intros (proof & Hproof & [= <-])%bind_Ok. split; [|split].
  - intros k Hk. unfold cleanup_fields in Hk. rewrite !not_elem_of_cons in Hk. destruct_and!.
    destruct (bool_decide _); [|rewrite lookup_insert_ne by done]; rewrite !copy_string_other, copy_int_other, !copy_string_other by done; done.
  - intros field s Hf Hs Hne. rewrite !elem_of_cons, elem_of_nil in Hf.
    destruct Hf as [->|[->|[->|[]]]]; (destruct (bool_decide _); [|rewrite lookup_insert_ne by done]);
      repeat ((rewrite copy_string_other by done) || (rewrite copy_int_other by done)); by apply copy_string_copied.
  - exists proof. split; [done|]. intros field s Hf Hs Hne. rewrite !elem_of_cons, elem_of_nil in Hf.
    destruct Hf as [->|[->|[]]]; (destruct (bool_decide _); [|rewrite lookup_insert_ne by done]);
      repeat (rewrite copy_string_other by done); by apply copy_string_copied.
Qed.

(** The shared key may be on the peer. *)
Definition post_secret (state : string) (peer : raw_object) : bool :=
  bool_decide (state ∈ [MigrationStateSharedKeyWrittenUnverified; MigrationStateSSHKeysReady]) ||
  (bool_decide (state = MigrationStateProvisionFailed) && negb (provisionFailedHasRemoteSecretAbsenceProof peer)).

(** What a record of a deletion says. *)
Definition cleanup_pending (peerID : string) (secret : bool) (peer record : raw_object) : Prop :=
  record !! "pending" = Some (VBool true) ∧ record !! "cleanup_required" = Some (VBool true) ∧ record !! "peer_id" = Some (json_string peerID) ∧
  record !! "source" = Some (VString (if secret then "post_secret_tombstone" else "ssh_material_cleanup")) ∧
  (secret = true → record !! "remote_fleet_secret_cleanup_verified" = Some (VBool false)) ∧
  (∀ field s, field ∈ ["ssh_host"; "ssh_user"; "gateway_path"] → peer !! field = Some (VString s) → s ≠ "" → record !! field = Some (json_string s)) ∧
  ∃ proof, rawPeerProofObject peer = Ok proof ∧
    ∀ field s, field ∈ ["accept_key_id"; "connect_key_id"] → proof !! field = Some (VString s) → s ≠ "" → record !! field = Some (json_string s).

Lemma material_pending peerID state peer req now status o :
  sshMaterialCleanupResult peerID state peer req now = Ok (status, o) → ∃ record, o = Some record ∧ cleanup_pending peerID false peer record.
Proof.
  unfold sshMaterialCleanupResult. intros (record & (Hb & Hp & proof & Hpr & Hk)%cleanup_record & [= _ <-])%bind_Ok. eexists. split; [done|].
  split; [by rewrite !lookup_insert_ne, lookup_insert_eq by done|]. split; [by rewrite !lookup_insert_ne, lookup_insert_eq by done|].
  split; [by rewrite !lookup_insert_ne, Hb by (done || by apply not_key)|]. split; [by rewrite !lookup_insert_ne, Hb by (done || by apply not_key)|].
  split; [done|]. split.
  - intros field s Hf Hs Hne. assert (H := Hp field s Hf Hs Hne). rewrite !elem_of_cons, elem_of_nil in Hf.
    destruct Hf as [->|[->|[->|[]]]]; by rewrite !lookup_insert_ne.
  - exists proof. split; [done|]. intros field s Hf Hs Hne. assert (H := Hk field s Hf Hs Hne). rewrite !elem_of_cons, elem_of_nil in Hf.
    destruct Hf as [->|[->|[]]]; by rewrite !lookup_insert_ne.
Qed.

Lemma tombstone_pending peerID state peer req now status o :
  postSecretTombstoneResult peerID state peer req now = Ok (status, o) → ∃ record, o = Some record ∧ cleanup_pending peerID true peer record.
Proof.
  unfold postSecretTombstoneResult. intros (record & (Hb & Hp & proof & Hpr & Hk)%cleanup_record & [= _ <-])%bind_Ok. eexists. split; [done|].
  split; [by rewrite !lookup_insert_ne, lookup_insert_eq by done|]. split; [by rewrite !lookup_insert_ne, lookup_insert_eq by done|].
  split; [by rewrite !lookup_insert_ne, Hb by (done || by apply not_key)|]. split; [by rewrite !lookup_insert_ne, Hb by (done || by apply not_key)|].
  split; [by rewrite !lookup_insert_ne, lookup_insert_eq by done|]. split.
  - intros field s Hf Hs Hne. assert (H := Hp field s Hf Hs Hne). rewrite !elem_of_cons, elem_of_nil in Hf.
    destruct Hf as [->|[->|[->|[]]]]; by rewrite !lookup_insert_ne.
  - exists proof. split; [done|]. intros field s Hf Hs Hne. assert (H := Hk field s Hf Hs Hne). rewrite !elem_of_cons, elem_of_nil in Hf.
    destruct Hf as [->|[->|[]]]; by rewrite !lookup_insert_ne.
Qed.

Lemma cleanup_status_Ok peerID state peer req now status o :
  sshPeerDeleteCleanupStatus peerID state peer req now = Ok (status, o) →
  (state = MigrationStateLoopbackUnprovisioned ∧ o = None) ∨
  (state ≠ MigrationStateLoopbackUnprovisioned ∧ ∃ record, o = Some record ∧ cleanup_pending peerID (post_secret state peer) peer record).
Proof.
  unfold sshPeerDeleteCleanupStatus, post_secret. destruct (bool_decide_reflect (state = MigrationStateLoopbackUnprovisioned)) as [->|Hl]; [intros [= _ <-]; by left|].
  intros H. right. split; [done|]. destruct (bool_decide_reflect (state = MigrationStateSSHMaterialStaged)) as [->|Hs].
  { apply material_pending in H. exact H. }
  destruct (bool_decide_reflect (state = MigrationStateProvisionFailed)) as [->|Hf].
  - destruct (provisionFailedHasRemoteSecretAbsenceProof peer); [by apply material_pending in H|by apply tombstone_pending in H].
  - destruct (bool_decide_reflect (state ∈ [MigrationStateSharedKeyWrittenUnverified; MigrationStateSSHKeysReady])); [by apply tombstone_pending in H|discriminate].
Qed.

(** ** Witnesses *)

Definition sample_log : json := VArray [VObject [("from_state", VString MigrationStateLoopbackUnprovisioned); ("to_state", VString MigrationStateProvisionFailed)]].

Definition sample_peer : raw_object :=
  raw_of [("id", VString "beta"); ("enabled", VBool true); ("accept", VBool true); ("gateway_path", VString "/usr/bin/clipfan");
    ("migration_state", VString MigrationStateProvisionFailed); ("migration_log", sample_log); ("pairing_token", VString "x")].

Definition sample_peers (peers : list raw_object) : list (string * json) :=
  [("known_hosts", VString "/k/h"); ("peers", VArray (json_object <$> peers)); ("sync_key", VString "/k/s")].

Definition peers_text (peers : list raw_object) : string :=
  print (json_object (raw_of [("config_version", json_int 2); ("config_revision", json_int 7); ("hostname", VString "alpha"); ("ssh", VObject (sample_peers peers))])).

Definition add_beta : SSHPeerUpsertRequest :=
  MkUpsert (Some 7%Z) (MkUpsertFields (Some "beta") (Some true) (Some true) (Some false) None None None None None None (Some "/usr/bin/clipfan")
    (Some MigrationStateLoopbackUnprovisioned) None).

Definition retry_beta : SSHPeerTransitionRequest :=
  MkTransition (Some 7%Z) MigrationStateProvisionFailed MigrationStateLoopbackUnprovisioned "retry_progress" "log-1" None None.

Definition answered (r : result string (raw_object * raw_object * Z)) : raw_object * raw_object * Z :=
  match r with Ok x => x | Err _ => (∅, ∅, 0%Z) end.

Definition out_of (r : result string (raw_object * raw_object * Z)) : raw_object := (answered r).1.1.

Definition text_of (r : result string (raw_object * raw_object * Z)) : string := print (json_object (out_of r)).

Lemma answered_Ok r : is_ok r = true → r = Ok (out_of r, (answered r).1.2, (answered r).2).
Proof. by destruct r as [[[]]|]. Qed.

(** The peers of a text, computed. *)
Definition peers_of (homeDir : option string) (data : string) : option (list raw_object) :=
  match parseConfigDocument homeDir data with
  | Ok doc => match rawSSHPeers (doc_raw doc) with Ok (_, peers) => Some peers | Err _ => None end
  | Err _ => None
  end.

Lemma text_peers_of homeDir data peers : text_peers homeDir data peers ↔ peers_of homeDir data = Some peers.
Proof.
  unfold text_peers, peers_of. split.
  - intros (doc & s & -> & ->). done.
  - destruct (parseConfigDocument homeDir data) as [doc|]; [|discriminate]. destruct (rawSSHPeers (doc_raw doc)) as [[s ps]|] eqn:E; [|discriminate].
    intros [= <-]. by exists doc, s.
Qed.

Definition added : result string (raw_object * raw_object * Z) := upsertSSHPeerWithGate None true (peers_text []) "beta" add_beta.

Lemma added_Ok : is_ok added = true.
Proof. vm_compute. reflexivity. Qed.

Lemma added_text : parse (text_of added) = Some (json_object (out_of added)).
Proof. vm_compute. reflexivity. Qed.

Lemma no_peers : peers_of None (peers_text []) = Some [].
Proof. vm_compute. reflexivity. Qed.

Definition added_peers : list raw_object := default [] (peers_of None (text_of added)).

Lemma added_peers_of : length added_peers = 1 ∧ peers_of None (text_of added) = Some added_peers.
Proof. vm_compute. by split. Qed.


Definition retried : result string (raw_object * raw_object * Z) := transitionSSHPeerWithGate None true (peers_text [sample_peer]) "beta" retry_beta.

Lemma retried_Ok : is_ok retried = true.
Proof. vm_compute. reflexivity. Qed.

Lemma transition_spec_witness :
  ∃ doc sshRaw peers i peer', parseConfigDocument None (peers_text [sample_peer]) = Ok doc ∧ rawSSHPeers (doc_raw doc) = Ok (sshRaw, peers) ∧
    rawSSHPeers (out_of retried) = Ok (<["peers" := VArray (json_object <$> <[i := peer']> peers)]> sshRaw, <[i := peer']> peers) ∧
    rawPeerMigrationState peer' = Ok MigrationStateLoopbackUnprovisioned ∧ (answered retried).1.2 = redactRawPeer peer'.
Proof.
  destruct (transition_spec None true (peers_text [sample_peer]) "beta" retry_beta _ _ _ (answered_Ok retried retried_Ok))
    as (_ & doc & sshRaw & peers & i & peer & tp & peer' & log & Hdoc & _ & _ & Hr & _ & _ & _ & _ & _ & _ & Hout & _ & _ & Hst & _ & _ & _ & _ & Hshown).
  exists doc, sshRaw, peers, i, peer'. exact (conj Hdoc (conj Hr (conj Hout (conj Hst Hshown)))).
Defined.
