(* ===== verification/PeerLife.v ===== *)
(** * What the operations on peers guarantee: deleting, reading back, disabling

    [PeerConfig] has the operations, the invariant of the peers and the migration steps;
    here are the record a deletion leaves, the file an operation writes read back with
    both views of the peers in step, and what that means for the daemon. *)
From S2P Require Import Prelude GoStrings Utf8 Encoding NetIP Paths Hostnames Config Clip Session SSHConfig Listener Json RawJson Words KnownHosts AuthorizedKeys SSHCommand Pairing ConfigDoc Redact PeerRequests PeerConfig.
From Stdlib Require Import Ascii String.
From stdpp Require Import strings.

#[local] Arguments String.append !_ _ / : simpl nomatch.

(** ** Deleting *)

(** A deletion is on record.  It succeeds on a document at the revision expected, for
    a peer in a state of the migration; that peer alone is gone from the list; the audit
    log has one entry more, all others kept; and unless the peer was in the loopback
    state the remediation list has one record more, pending, with the peer's id, address
    and key ids, which asks for the shared key to be cleaned up exactly when the key may
    have reached the peer.  Every other member of the section and of the file stays. *)
Theorem delete_spec homeDir gate now data peerID req out shown revision
    (H : deleteSSHPeerWithGate homeDir gate now data peerID req = Ok (out, shown, revision)) :
  gate = true ∧ ∃ doc sshRaw peers i peer state audit sshRaw',
    parseConfigDocument homeDir data = Ok doc ∧ doc_ConfigRevision doc = de_ExpectedConfigRevision req ∧
    rawSSHPeers (doc_raw doc) = Ok (sshRaw, peers) ∧ peers !! i = Some peer ∧ rawPeerID peer = Ok peerID ∧
    rawPeerMigrationState peer = Ok state ∧ state ∈ migration_states ∧
    rawSSHPeers out = Ok (sshRaw', delete i peers) ∧
    kept_list sshRaw "audit_log" = Some audit ∧
    kept_list sshRaw' "audit_log" = Some (audit ++ [json_object (sshPeerDeleteAuditEntry peerID state req now)]) ∧
    (if bool_decide (state = MigrationStateLoopbackUnprovisioned) then sshRaw' !! "remediation" = sshRaw !! "remediation"
     else ∃ pending record, kept_list sshRaw "remediation" = Some pending ∧ kept_list sshRaw' "remediation" = Some (pending ++ [json_object record]) ∧
       cleanup_pending peerID (post_secret state peer) peer record) ∧
    (∀ k, k ∉ ["audit_log"; "remediation"; "peers"] → sshRaw' !! k = sshRaw !! k) ∧
    (∀ k, k ∉ typed_keys → out !! k = doc_raw doc !! k).
Proof.
  unfold deleteSSHPeerWithGate in H. apply bind_Ok in H as ([] & Hid%recode_Ok & H). apply bind_Ok in H as (expected & (r & Hr & -> & Hr0)%expecting_Ok & H).
  apply bind_Ok in H as ([] & _ & H). destruct (blank _); [discriminate|]. apply entry_point in H as (updated & H & ->).
  apply update_written in H as (Hg & doc & g & raw & Hdoc & Hexp & Hch & _ & _ & Hw & Hk). split; [done|].
  apply delete_Ok in Hch as (sshRaw & s1 & s2 & peers & i & peer & state & audit & status & rem & Hrp & Hi & Hpid & Hst & Hin & Ha & Ha1 & Ho1 & Hstatus & Hrem & -> & Hreb).
  destruct (rebuilt_written out _ _ _ _ _ _ Hreb Hw Hk) as [Hout Hrest].
  eexists doc, sshRaw, peers, i, peer, state, audit, _. split; [done|]. split.
  { rewrite Hr. by apply (expected_revision doc (MkExpectation RevisionStateVersioned (Some r)) r Hexp). }
  do 5 (split; [done|]). split; [exact Hout|]. split; [done|].
  destruct (cleanup_status_Ok _ _ _ _ _ _ _ Hstatus) as [[-> ->]|[Hne (record & -> & Hpend)]].
  - injection Hrem as <-. rewrite bool_decide_eq_true_2 by done. split; [|split; [|split; [|done]]].
    + rewrite <- Ha1. apply kept_frame. by rewrite lookup_insert_ne.
    + by rewrite lookup_insert_ne, Ho1.
    + intros k Hkn. rewrite !not_elem_of_cons in Hkn. destruct_and!. by rewrite lookup_insert_ne, Ho1.
  - apply kept_append in Hrem as (pending & Hp & Hp2 & Ho2). rewrite bool_decide_eq_false_2 by done. split; [|split; [|split; [|done]]].
    + rewrite <- Ha1. apply kept_frame. by rewrite lookup_insert_ne, Ho2.
    + exists pending, record. split; [rewrite <- Hp; apply kept_frame; by rewrite Ho1|]. split; [|done].
      rewrite <- Hp2. apply kept_frame. by rewrite lookup_insert_ne.
    + intros k Hkn. rewrite !not_elem_of_cons in Hkn. destruct_and!. by rewrite lookup_insert_ne, Ho2, Ho1.
Qed.

(** ** Lemmas: reading a section back *)

Definition ssh_keys : list string := ["sync_key"; "known_hosts"; "max_sessions"; "max_sessions_per_peer"; "log_limit_bytes"; "peers"].

(** No member twice, and none that encoding/json would take for a field under another
    spelling. *)
Definition plain_members (l : list (string * json)) : Prop :=
  NoDup l.*1 ∧ ∀ name, name ∈ ssh_keys → plain_key (raw_of l) name.

Lemma struct_field_raw l name :
  NoDup l.*1 → plain_key (raw_of l) name → EqualFold name name = true → struct_field name l = option_list (raw_of l !! name).
Proof.
  intros Hnd Hp Hr. assert (Hin : ∀ k v, (k, v) ∈ l → raw_of l !! k = Some v) by (intros k v; by apply raw_of_lookup).
  rewrite struct_field_plain; [|done| |done].
  - destruct (list_find _ l) as [[i [k v]]|] eqn:F; cbn [fmap option_fmap option_map option_list].
    + apply list_find_Some in F as (F & <- & _). apply list_elem_of_lookup_2 in F. cbn [fst snd]. by rewrite (Hin _ _ F).
    + apply list_find_None in F. destruct (raw_of l !! name) as [v|] eqn:E; [|done]. apply raw_of_elem in E. rewrite Forall_forall in F. by destruct (F _ E).
  - intros k v H Hf. apply (Hp k); [|done]. rewrite (Hin _ _ H). by eexists.
Qed.

(** The typed section of a raw one without other spellings, field by field. *)
Definition section_fields (s : raw_object) : option go_ssh :=
  key ← field_of into_string "sync_key" s "";
  known ← field_of into_string "known_hosts" s "";
  sessions ← field_of into_int "max_sessions" s 0%Z;
  per_peer ← field_of into_int "max_sessions_per_peer" s 0%Z;
  limit ← field_of into_int "log_limit_bytes" s 0%Z;
  peers ← field_of (into_slice (into_struct decode_SSHPeer) zero_peer) "peers" s None;
  Some (MkSSHConfig key known sessions per_peer limit (default [] peers), peers).

Lemma ssh_key name : bool_decide (name ∈ ssh_keys) = true → name ∈ ssh_keys.
Proof. apply bool_decide_eq_true_1. Qed.

Lemma decode_section l : plain_members l → decode_SSHConfig zero_ssh l = section_fields (raw_of l).
Proof.
  intros [Hnd Hp]. unfold decode_SSHConfig, section_fields. cbn [zero_ssh fst snd SyncKey KnownHosts MaxSessions MaxSessionsPerPeer LogLimitBytes].
  assert (Hf : ∀ A (conv : A → json → option A) name cur, bool_decide (name ∈ ssh_keys) = true → EqualFold name name = true →
    decode_field conv name l cur = field_of conv name (raw_of l) cur).
  { intros A conv name cur Hn Hr. unfold decode_field, field_of. rewrite struct_field_raw by (done || by apply Hp, ssh_key). by destruct (raw_of l !! name). }
  do 6 rewrite Hf by (vm_compute; reflexivity). done.
Qed.

Lemma decode_members s : (∀ name, name ∈ ssh_keys → plain_key s name) → decode_SSHConfig zero_ssh (members s) = section_fields s.
Proof. intros H. rewrite decode_section, raw_of_members; [done|]. split; [apply members_NoDup|]. by rewrite raw_of_members. Qed.

Lemma typed_elements peers typed :
  typed_peers peers = Ok typed → into_elements (into_struct decode_SSHPeer) zero_peer [] (json_object <$> peers) = Some typed.
Proof.
  revert typed. induction peers as [|p peers IH]; intros typed; cbn [typed_peers]; [by intros [= <-]|].
  intros (t & Ht & (rest & Hrest & [= <-])%bind_Ok)%bind_Ok. cbn [fmap list_fmap into_elements head tail]. unfold typedPeerFromRaw in Ht.
  destruct (decode_SSHPeer zero_peer (members p)) as [t'|] eqn:E; [|discriminate]. injection Ht as <-.
  assert (into_struct decode_SSHPeer (default zero_peer None) (json_object p) = Some t') as -> by exact E. cbn [mbind option_bind]. by rewrite (IH _ Hrest).
Qed.

(** ** Lemmas: expanded paths *)

Definition with_typed (ssh : SSHConfig) (typed : list SSHPeer) : SSHConfig :=
  MkSSHConfig (SyncKey ssh) (KnownHosts ssh) (MaxSessions ssh) (MaxSessionsPerPeer ssh) (LogLimitBytes ssh) typed.

(** What the expansion of its paths makes of a section. *)
Definition normal (homeDir : option string) (a a' : SSHConfig) : Prop :=
  (needsHomeExpansion (SyncKey a) = false ∧ needsHomeExpansion (KnownHosts a) = false ∧ a' = a) ∨
  ∃ home, homeDir = Some home ∧ a' = MkSSHConfig (ExpandLocalSSHPath (SyncKey a) home) (ExpandLocalSSHPath (KnownHosts a) home)
    (MaxSessions a) (MaxSessionsPerPeer a) (LogLimitBytes a) (Peers a).

Lemma expand_settled v home : needsHomeExpansion v = false → ExpandLocalSSHPath v home = v.
Proof. unfold needsHomeExpansion, ExpandLocalSSHPath. intros [H1 H2]%orb_false_iff. by rewrite H1, H2. Qed.

Lemma normalize_normal homeDir d d' a :
  NormalizeLocalSSHPaths homeDir d = Ok d' → SSH d = Some a → ∃ a', SSH d' = Some a' ∧ normal homeDir a a'.
Proof.
  unfold NormalizeLocalSSHPaths. intros H Ha. rewrite Ha in H. destruct (_ && _) eqn:E.
  - injection H as <-. exists a. split; [done|]. left. apply andb_true_iff in E as [H1%negb_true_iff H2%negb_true_iff]. done.
  - destruct homeDir as [home|]; [|discriminate]. injection H as <-. eexists. split; [done|]. right. by exists home.
Qed.

(** Paths as they were read or as they were expanded: they expand to the same. *)
Lemma normal_again homeDir a a' b d :
  normal homeDir a a' → needsHomeExpansion (SyncKey a') = false → needsHomeExpansion (KnownHosts a') = false →
  SyncKey b = SyncKey a ∨ SyncKey b = SyncKey a' → KnownHosts b = KnownHosts a ∨ KnownHosts b = KnownHosts a' → SSH d = Some b →
  ∃ d', NormalizeLocalSSHPaths homeDir d = Ok d' ∧
    SSH d' = Some (MkSSHConfig (SyncKey a') (KnownHosts a') (MaxSessions b) (MaxSessionsPerPeer b) (LogLimitBytes b) (Peers b)).
Proof.
  intros Hn Hk' Hh' Hk Hh Hd. unfold NormalizeLocalSSHPaths. rewrite Hd. destruct Hn as [(Hk0 & Hh0 & ->)|(home & -> & Ha')].
  - assert (SyncKey b = SyncKey a) as Hkb by (by destruct Hk). assert (KnownHosts b = KnownHosts a) as Hhb by (by destruct Hh).
    rewrite Hkb, Hhb, Hk0, Hh0. cbn [negb andb]. exists d. split; [done|]. rewrite Hd, <- Hkb, <- Hhb. by destruct b.
  - assert (Hkx : ExpandLocalSSHPath (SyncKey b) home = SyncKey a').
    { destruct Hk as [-> | ->]; [by rewrite Ha'|by apply expand_settled]. }
    assert (Hhx : ExpandLocalSSHPath (KnownHosts b) home = KnownHosts a').
    { destruct Hh as [-> | ->]; [by rewrite Ha'|by apply expand_settled]. }
    destruct (_ && _) eqn:E.
    + apply andb_true_iff in E as [H1%negb_true_iff H2%negb_true_iff]. exists d. split; [done|]. rewrite Hd, <- Hkx, <- Hhx, !expand_settled by done. by destruct b.
    + eexists. split; [done|]. cbn [SSH]. by rewrite Hkx, Hhx.
Qed.

(** ** Lemmas: an update of the peers read back *)

(** The sections a successful change leaves: of those read, the numbers are kept, and
    each of the two paths is the one read or the one of the configuration. *)
Definition section_kept (ssh : SSHConfig) (s s' : raw_object) : Prop :=
  (∀ key, key ∈ ["max_sessions"; "max_sessions_per_peer"; "log_limit_bytes"] → s' !! key = s !! key) ∧
  (s' !! "sync_key" = s !! "sync_key" ∨ s' !! "sync_key" = Some (json_string (SyncKey ssh))) ∧
  (s' !! "known_hosts" = s !! "known_hosts" ∨ s' !! "known_hosts" = Some (json_string (KnownHosts ssh))).

Lemma section_again s s' ssh a p peers typed :
  section_fields s = Some (a, p) → section_kept ssh s s' → s' !! "peers" = Some (VArray (json_object <$> peers)) → typed_peers peers = Ok typed →
  text_ok (SyncKey ssh) → text_ok (KnownHosts ssh) →
  ∃ b, section_fields s' = Some (b, Some typed) ∧ (SyncKey b = SyncKey a ∨ SyncKey b = SyncKey ssh) ∧ (KnownHosts b = KnownHosts a ∨ KnownHosts b = KnownHosts ssh) ∧
    MaxSessions b = MaxSessions a ∧ MaxSessionsPerPeer b = MaxSessionsPerPeer a ∧ LogLimitBytes b = LogLimitBytes a ∧ Peers b = typed.
Proof.
  intros Hs (Hn & Hk & Hh) Hp Ht Htk Hth. unfold section_fields in *.
  destruct (field_of into_string "sync_key" s "") as [k|] eqn:E1; [|discriminate]. cbn [mbind option_bind] in Hs.
  destruct (field_of into_string "known_hosts" s "") as [h|] eqn:E2; [|discriminate]. cbn [mbind option_bind] in Hs.
  destruct (field_of into_int "max_sessions" s 0%Z) as [n1|] eqn:E3; [|discriminate]. cbn [mbind option_bind] in Hs.
  destruct (field_of into_int "max_sessions_per_peer" s 0%Z) as [n2|] eqn:E4; [|discriminate]. cbn [mbind option_bind] in Hs.
  destruct (field_of into_int "log_limit_bytes" s 0%Z) as [n3|] eqn:E5; [|discriminate]. cbn [mbind option_bind] in Hs.
  destruct (field_of (into_slice (into_struct decode_SSHPeer) zero_peer) "peers" s None) as [ps|]; [|discriminate]. cbn [mbind option_bind] in Hs. injection Hs as <- <-.
  assert (Hsk : ∃ k', field_of into_string "sync_key" s' "" = Some k' ∧ (k' = k ∨ k' = SyncKey ssh)).
  { unfold field_of in E1 |- *. destruct Hk as [-> | ->]; [exists k; auto|]. exists (SyncKey ssh). cbn [json_string into_string]. rewrite Htk. auto. }
  assert (Hsh : ∃ h', field_of into_string "known_hosts" s' "" = Some h' ∧ (h' = h ∨ h' = KnownHosts ssh)).
  { unfold field_of in E2 |- *. destruct Hh as [-> | ->]; [exists h; auto|]. exists (KnownHosts ssh). cbn [json_string into_string]. rewrite Hth. auto. }
  assert (Hi : ∀ key, key ∈ ["max_sessions"; "max_sessions_per_peer"; "log_limit_bytes"] → field_of into_int key s' 0%Z = field_of into_int key s 0%Z).
  { intros key Hkey. unfold field_of. by rewrite (Hn _ Hkey). }
  assert (Hpe : field_of (into_slice (into_struct decode_SSHPeer) zero_peer) "peers" s' None = Some (Some typed)).
  { unfold field_of. rewrite Hp. unfold into_slice, default. by rewrite (typed_elements _ _ Ht). }
  destruct Hsk as (k' & -> & ?), Hsh as (h' & -> & ?). cbn [mbind option_bind].
  rewrite !Hi by (by apply (typed_key_in _ ["max_sessions"; "max_sessions_per_peer"; "log_limit_bytes"])). rewrite E3, E4, E5. cbn [mbind option_bind]. rewrite Hpe. cbn [mbind option_bind].
  eexists. split; [reflexivity|]. cbn. auto 10.
Qed.

(** The section of a document, as it is read. *)
Definition document_section (raw : raw_object) (l : list (string * json)) : Prop :=
  match raw !! "ssh" with Some (VObject l') => l = l' | _ => l = [] end.

Lemma document_section_raw raw l sshRaw peers : document_section raw l → rawSSHPeers raw = Ok (sshRaw, peers) → sshRaw = raw_of l.
Proof.
  unfold document_section, rawSSHPeers. intros Hl (s & Hs & (ps & _ & [= <- <-])%bind_Ok)%bind_Ok.
  destruct (raw !! "ssh") as [[]|]; cbn in Hs; try discriminate; subst l; by injection Hs as <-.
Qed.

Definition typed_section (g : go_config) : SSHConfig := default (MkSSHConfig "" "" 0 0 0 []) (SSH (gc_config g)).

Definition log_keys : list string := ["audit_log"; "remediation"].

(** What an operation makes of the configuration and of the raw object. *)
Definition peer_change (g : go_config) (raw : raw_object) (g' : go_config) (raw' : raw_object) : Prop :=
  ∃ s old s' peers typed, rawSSHPeers raw = Ok (s, old) ∧ raw' !! "ssh" = Some (json_object s') ∧ (∀ k, k ≠ "ssh" → raw' !! k = raw !! k) ∧
    s' !! "peers" = Some (VArray (json_object <$> peers)) ∧ typed_peers peers = Ok typed ∧ g' = with_peers g typed ∧
    section_kept (typed_section g) s s' ∧ (∀ k, is_Some (s' !! k) → is_Some (s !! k) ∨ k = "peers" ∨ k ∈ log_keys).

Lemma section_kept_eq ssh s s' : (∀ k, k ≠ "peers" → k ∉ log_keys → s' !! k = s !! k) → section_kept ssh s s'.
Proof.
  intros H. split; [|split; left; apply H; (done || by apply not_key)].
  intros key Hk. rewrite !elem_of_cons, elem_of_nil in Hk. apply H; destruct Hk as [->|[->|[->|[]]]]; (done || by apply not_key).
Qed.

Lemma rebuilt_change g raw s old s' peers g' raw' :
  rawSSHPeers raw = Ok (s, old) → (∀ k, k ∉ log_keys → s' !! k = s !! k) → rebuilt g raw s' peers g' raw' → peer_change g raw g' raw'.
Proof.
  intros Hr Hk (_ & Hs & Hother & typed & Ht & ->). exists s, old, (<["peers" := VArray (json_object <$> peers)]> s'), peers, typed.
  split; [done|]. split; [done|]. split; [done|]. split; [apply lookup_insert_eq|]. split; [done|]. split; [done|]. split.
  - apply section_kept_eq. intros k Hp Hl. rewrite lookup_insert_ne by done. by apply Hk.
  - intros k [v Hv]. destruct (decide (k = "peers")) as [|Hp]; [auto|]. rewrite lookup_insert_ne in Hv by done.
    destruct (decide (k ∈ log_keys)) as [|Hl]; [auto|]. left. rewrite <- Hk by done. by exists v.
Qed.

Lemma persist_path_cases s key normalized :
  persistNormalizedLocalSSHPath s key normalized !! key = s !! key ∨ persistNormalizedLocalSSHPath s key normalized !! key = Some (json_string normalized).
Proof. unfold persistNormalizedLocalSSHPath. destruct (_ ≫= _); [|auto]. destruct (needsHomeExpansion _); [|auto]. right. apply lookup_insert_eq. Qed.

Lemma persist_path_sub s key normalized k : is_Some (persistNormalizedLocalSSHPath s key normalized !! k) → is_Some (s !! k).
Proof.
  unfold persistNormalizedLocalSSHPath. destruct (s !! key) as [v|] eqn:E; [|done]. cbn [mbind option_bind]. destruct (unmarshal_string v); [|done].
  destruct (needsHomeExpansion _); [|done]. rewrite lookup_insert_is_Some. intros [<-|[_ ?]]; [by rewrite E|done].
Qed.

(** The paths are written back to the section of a change. *)
Lemma persisted_change homeDir g raw g' raw' c raw'' :
  ValidateSSHTransportConfig (gc_config g') = Ok () ∨ (needsHomeExpansion (SyncKey (typed_section g)) = false ∧ needsHomeExpansion (KnownHosts (typed_section g)) = false) →
  peer_change g raw g' raw' → NormalizeLocalSSHPaths homeDir (gc_config g') = Ok c → persistNormalizedLocalSSHPaths raw' c = Ok raw'' →
  peer_change g raw (with_config g' c) raw''.
Proof.
  intros Hsettled (s & old & s' & peers & typed & Hr & Hssh & Hother & Hp & Ht & -> & (Hn & Hk & Hh) & Hsub) Hc Hpersist.
  assert (c = gc_config (with_peers g typed)) as ->.
  { destruct Hsettled as [Hv|[H1 H2]]; [rewrite (validated_normal homeDir _ Hv) in Hc; congruence|].
    unfold NormalizeLocalSSHPaths in Hc. cbn [with_peers with_ssh gc_config SSH SyncKey KnownHosts] in Hc. unfold typed_section in H1, H2. rewrite H1, H2 in Hc. by injection Hc as <-. }
  assert (Hr' : rawSSHPeers raw' = Ok (s', peers)).
  { rewrite <- (rawSSHPeers_section raw s' peers Hp). apply rawSSHPeers_frame. by rewrite lookup_insert_eq. }
  assert (Hg : SSH (gc_config (with_peers g typed)) = Some (with_typed (typed_section g) typed)) by reflexivity.
  destruct (persist_Ok raw' _ raw'' s' peers _ Hg Hr' Hp Hpersist) as (s'' & -> & -> & _). cbn [with_typed SyncKey KnownHosts]. clear Hpersist.
  eexists s, old, _, peers, typed. split; [done|]. split; [apply lookup_insert_eq|]. split; [intros k Hne; by rewrite lookup_insert_ne, Hother|].
  split; [by rewrite !persist_path_other|]. split; [done|]. split; [by destruct (with_peers g typed)|]. split; [split; [|split]|].
  - intros key Hin. rewrite !persist_path_other by (intros ->; revert Hin; by apply not_key). by apply Hn.
  - rewrite persist_path_other by done. destruct (persist_path_cases s' "sync_key" (SyncKey (typed_section g))) as [->|]; auto.
  - destruct (persist_path_cases (persistNormalizedLocalSSHPath s' "sync_key" (SyncKey (typed_section g))) "known_hosts" (KnownHosts (typed_section g))) as [->|]; [|auto].
    by rewrite persist_path_other.
  - intros k Hs. apply Hsub. by apply persist_path_sub, persist_path_sub in Hs.
Qed.

Lemma operation_change homeDir change g raw g' raw' u :
  peer_operation homeDir change → needsHomeExpansion (SyncKey (typed_section g)) = false → needsHomeExpansion (KnownHosts (typed_section g)) = false →
  change g raw = Ok (g', raw', u) → peer_change g raw g' raw'.
Proof.
  intros Hop H1 H2 H. destruct Hop as [peerID req Hv|peerID req|peerID req|now peerID req|now peerID req].
  - apply upsert_change_Ok in H as (g1 & raw1 & c & Hup & Hc & -> & Hpersist); [|done].
    apply upsert_Ok in Hup as (s & ps & peers' & peer & Hr & _ & _ & Hreb & _); [|done]. eapply persisted_change; [by right| |exact Hc|exact Hpersist].
    eapply rebuilt_change; [exact Hr| |exact Hreb]. done.
  - apply patch_Ok in H as (s & ps & i & peer & Hr & _ & _ & _ & Hreb). eapply rebuilt_change; [exact Hr| |exact Hreb]. done.
  - apply transition_Ok in H as (s & ps & i & peer & tp & log & Hr & _ & _ & _ & _ & _ & _ & _ & _ & _ & _ & _ & _ & Hreb). eapply rebuilt_change; [exact Hr| |exact Hreb]. done.
  - apply disable_Ok in H as (s & s' & ps & i & peer & st & au & Hr & _ & _ & _ & _ & _ & _ & _ & Hk & Hreb). eapply rebuilt_change; [exact Hr| |exact Hreb].
    intros k Hl. apply Hk. intros ->. apply Hl. by apply typed_key_in.
  - apply delete_Ok in H as (s & s1 & s2 & ps & i & peer & st & au & status & rem & Hr & _ & _ & _ & _ & _ & _ & Hk & _ & Hrem & _ & Hreb).
    eapply rebuilt_change; [exact Hr| |exact Hreb]. intros k Hl. rewrite <- Hk by (intros ->; apply Hl; by apply typed_key_in).
    destruct rem; [|by injection Hrem as <-]. apply kept_append in Hrem as (l & _ & _ & Ho). apply Ho. intros ->. apply Hl. by apply typed_key_in.
Qed.

(** The typed section of a document that was read, beside the raw one. *)
Definition read_section (homeDir : option string) (s : raw_object) (g : go_config) : Prop :=
  ∃ a p, section_fields s = Some (a, p) ∧ normal homeDir a (typed_section g) ∧
    needsHomeExpansion (SyncKey (typed_section g)) = false ∧ needsHomeExpansion (KnownHosts (typed_section g)) = false.

Lemma valid_settled c ssh :
  ValidateSSHTransportConfig c = Ok () → SSH c = Some ssh → needsHomeExpansion (SyncKey ssh) = false ∧ needsHomeExpansion (KnownHosts ssh) = false.
Proof.
  unfold ValidateSSHTransportConfig. intros H Hs. destruct (negb _); [done|]. rewrite Hs in H. do 4 (destruct (_ : bool); [done|]).
  apply bind_Ok in H as ([] & H1 & H). apply bind_Ok in H as ([] & H2 & _). split; by eapply absolute_path_expanded.
Qed.

Lemma versioned_valid homeDir data doc :
  parseConfigDocument homeDir data = Ok doc → doc_RevisionState doc = RevisionStateVersioned → ValidateSSHTransportConfig (gc_config (doc_Config doc)) = Ok ().
Proof.
  intros (v & _ & _ & Hdoc & _)%parseConfigDocument_Ok Hv. unfold document_of_raw in Hdoc. destruct (doc_raw doc !! "config_version").
  2: { apply bind_Ok in Hdoc as (g & _ & Hdoc). injection Hdoc as Hdoc. rewrite <- Hdoc in Hv. discriminate Hv. }
  apply bind_Ok in Hdoc as (version & _ & Hdoc). destruct (negb _); [done|]. apply bind_Ok in Hdoc as (g & _ & Hdoc). apply bind_Ok in Hdoc as (c & _ & Hdoc).
  apply bind_Ok in Hdoc as ([] & Hval & Hdoc).
  assert (H : ∀ version revision, ValidateSSHTransportConfig (gc_config (with_version (with_config g c) version revision)) = Ok ()) by (intros; exact Hval).
  destruct (doc_raw doc !! "config_revision") as [[]|]; try (injection Hdoc as <-; apply H).
  all: apply bind_Ok in Hdoc as (r & _ & Hdoc); destruct (r =? 0)%Z; [done|]; injection Hdoc as <-; apply H.
Qed.

Lemma document_read_section homeDir data doc l :
  parseConfigDocument homeDir data = Ok doc → doc_RevisionState doc = RevisionStateVersioned → plain (doc_raw doc) →
  document_section (doc_raw doc) l → plain_members l → read_section homeDir (raw_of l) (doc_Config doc).
Proof.
  intros Hdoc Hv Hp Hl Hpl. pose proof (versioned_valid _ _ _ Hdoc Hv) as Hval. destruct (first_decoding _ _ _ Hdoc Hp) as (o & Ho & Hcase).
  assert (Ho' : match o with Some x => decode_SSHConfig zero_ssh l = Some x | None => l = [] end).
  { unfold field_of in Ho. unfold document_section in Hl. destruct (doc_raw doc !! "ssh") as [[]|]; try discriminate; try (injection Ho as <-; exact Hl).
    subst l. cbn [into_pointer into_struct from_option] in Ho. unfold default in Ho. destruct (decode_SSHConfig zero_ssh _); [by injection Ho as <-|discriminate]. }
  unfold read_section, typed_section. destruct o as [[a p]|].
  - exists a, p. rewrite <- decode_section by done. split; [done|].
    assert (∃ a', SSH (gc_config (doc_Config doc)) = Some a' ∧ (a' = a ∨ normal homeDir a a')) as (a' & Ha' & Hn).
    { destruct Hcase as [H|(d & d' & Hd & Hd' & <-)]; [by exists a; auto|]. destruct (normalize_normal _ _ _ _ Hd' Hd) as (a' & ? & ?). eauto. }
    rewrite Ha'. unfold default, id. destruct (valid_settled _ _ Hval Ha') as [H1 H2]. split; [|done]. destruct Hn as [->|]; [left; auto|done].
  - subst l. exists (MkSSHConfig "" "" 0 0 0 []), None. split; [by vm_compute|].
    assert (SSH (gc_config (doc_Config doc)) = None) as ->.
    { destruct Hcase as [H|(d & d' & Hd & Hd' & <-)]; [done|]. unfold NormalizeLocalSSHPaths in Hd'. rewrite Hd in Hd'. by injection Hd' as <-. }
    cbn [default]. split; [by left|by split].
Qed.

Lemma change_plain (s s' : raw_object) :
  (∀ name, name ∈ ssh_keys → plain_key s name) → (∀ k, is_Some (s' !! k) → is_Some (s !! k) ∨ k = "peers" ∨ k ∈ log_keys) →
  ∀ name, name ∈ ssh_keys → plain_key s' name.
Proof.
  intros Hp Hsub name Hn k Hk Hf. destruct (Hsub k Hk) as [H|H]; [by apply (Hp name)|]. assert (Hin : k ∈ "peers" :: log_keys) by (destruct H as [->|]; [left|by right]).
  assert (Hall : forallb (λ k, forallb (λ name, negb (EqualFold k name) || bool_decide (k = name)) ssh_keys) ("peers" :: log_keys) = true) by (vm_compute; reflexivity).
  rewrite forallb_forall in Hall. specialize (Hall k (proj1 (list_elem_of_In _ _) Hin)). rewrite forallb_forall in Hall.
  specialize (Hall name (proj1 (list_elem_of_In _ _) Hn)). rewrite Hf in Hall. by apply bool_decide_eq_true_1 in Hall.
Qed.

(** The section a change leaves, decoded and its paths expanded, is the typed one. *)
Lemma change_read_back homeDir g raw g' raw' l old :
  rawSSHPeers raw = Ok (raw_of l, old) → plain_members l → read_section homeDir (raw_of l) g → peer_change g raw g' raw' →
  text_ok (SyncKey (typed_section g)) → text_ok (KnownHosts (typed_section g)) →
  ∃ o, field_of (into_pointer (into_struct decode_SSHConfig) zero_ssh) "ssh" raw' None = Some o ∧
    ∀ d, SSH d = fst <$> o → ∃ d', NormalizeLocalSSHPaths homeDir d = Ok d' ∧ SSH d' = SSH (gc_config g').
Proof.
  intros Hr [Hnd Hpl] (a & p & Ha & Hn & Hk & Hh) (s & old' & s' & peers & typed & Hr' & Hssh & _ & Hp & Ht & -> & Hkept & Hsub) Htk Hth.
  rewrite Hr in Hr'. injection Hr' as <- <-. destruct (section_again _ _ _ _ _ _ _ Ha Hkept Hp Ht Htk Hth) as (b & Hb & Hbk & Hbh & Hm1 & Hm2 & Hm3 & Hbp).
  exists (Some (b, Some typed)). split.
  { unfold field_of. rewrite Hssh. unfold json_object. cbn [into_pointer into_struct from_option]. unfold default.
    rewrite decode_members by (by eapply change_plain). by rewrite Hb. }
  intros d Hd. destruct (normal_again homeDir _ _ b d Hn Hk Hh Hbk Hbh Hd) as (d' & Hd' & Hs). exists d'. split; [done|]. rewrite Hs. 
  assert (Hnum : MaxSessions (typed_section g) = MaxSessions a ∧ MaxSessionsPerPeer (typed_section g) = MaxSessionsPerPeer a ∧ LogLimitBytes (typed_section g) = LogLimitBytes a).
  { destruct Hn as [(_ & _ & ->)|(home & _ & ->)]; done. }
  destruct Hnum as (E1 & E2 & E3). rewrite Hm1, Hm2, Hm3, Hbp, <- E1, <- E2, <- E3. reflexivity.
Qed.

Lemma update_read_back homeDir gate data r change doc l out updated revision data' :
  parseConfigDocument homeDir data = Ok doc → plain (doc_raw doc) → document_section (doc_raw doc) l → plain_members l → scalars_ok (gc_config (doc_Config doc)) →
  text_ok (SyncKey (typed_section (doc_Config doc))) ∧ text_ok (KnownHosts (typed_section (doc_Config doc))) → peer_operation homeDir change →
  withSSHPeerConfigUpdate homeDir gate data (MkExpectation RevisionStateVersioned (Some r)) change = Ok (out, updated, revision) →
  parse data' = Some (json_object out) →
  ∃ g raw doc' s peers typed, change (clone_config (doc_Config doc)) (doc_raw doc) = Ok (g, raw, updated) ∧ parseConfigDocument homeDir data' = Ok doc' ∧
    revision = (default 0 (doc_ConfigRevision doc) + 1)%Z ∧ doc_RevisionState doc' = RevisionStateVersioned ∧ doc_ConfigRevision doc' = Some revision ∧
    rawSSHPeers raw = Ok (s, peers) ∧ rawSSHPeers (doc_raw doc') = Ok (s, peers) ∧ typed_peers peers = Ok typed ∧
    gc_config g = gc_config (with_peers (doc_Config doc) typed) ∧ ValidateSSHTransportConfig (gc_config g) = Ok () ∧
    gc_config (doc_Config doc') = at_revision (gc_config g) revision.
Proof.
  intros Hdoc Hplain Hl Hpl Hok Hpaths Hop H Hdata'. pose proof H as Hversions.
  apply (update_written homeDir) in H as (_ & doc0 & g' & raw & Hdoc0 & Hexp & Hch & Hval & _ & Hw & Hk). rewrite Hdoc in Hdoc0. injection Hdoc0 as <-.
  assert (Hst : doc_RevisionState doc = RevisionStateVersioned) by (by apply validateRevisionExpectation_Ok in Hexp as [? _]).
  pose proof (document_read_section _ _ _ _ Hdoc Hst Hplain Hl Hpl) as Hrs. pose proof Hrs as (_ & _ & _ & _ & Hk1 & Hk2).
  pose proof (operation_change homeDir change (clone_config (doc_Config doc)) _ _ _ _ Hop Hk1 Hk2 Hch) as Hchange.
  pose proof Hchange as (s & old & s' & peers & typed & Hrp & Hssh & Hother & Hp & Ht & -> & _).
  assert (s = raw_of l) as -> by (by eapply document_section_raw).
  destruct (change_read_back homeDir (clone_config (doc_Config doc)) _ _ _ _ _ Hrp Hpl Hrs Hchange (proj1 Hpaths) (proj2 Hpaths)) as (o & Ho & Hnorm).
  apply withSSHPeerConfigUpdate_Ok in Hversions as (_ & doc1 & g1 & raw1 & Hdoc1 & _ & Hch1 & _ & Hn & Hout). rewrite Hdoc in Hdoc1. injection Hdoc1 as <-.
  rewrite Hch in Hch1. injection Hch1 as <- <-. pose proof Hdoc as (v & _ & _ & _ & Hrok)%parseConfigDocument_Ok. destruct (nextConfigRevision_Ok _ _ Hrok Hn) as [Hnext Hb].
  assert (Hlook : ∀ k, k ≠ "ssh" → out !! k = applyConfigScalars raw raw (with_peers (clone_config (doc_Config doc)) typed) revision !! k).
  { intros k Hne. rewrite Hout. by apply marshalPreserving_lookup. }
  assert (Hosh : out !! "ssh" = raw !! "ssh") by (rewrite Hout; apply written_raw; [by eexists|by rewrite Hssh]).
  assert (Hv : out !! "config_version" = Some (json_int 2) ∧ out !! "config_revision" = Some (json_int revision)).
  { eapply marshalled_versions. intros k Hne. eexists. by apply Hlook. }
  destruct (read_back homeDir out raw (with_peers (clone_config (doc_Config doc)) typed) revision o) as (doc' & Hd' & Hc' & Hs' & Hr').
  - eapply plain_sub; [|exact Hplain]. intros k Hs. destruct (decide (k ∈ typed_keys)) as [|Hnin]; [by right|left]. rewrite Hk, Hother in Hs; [done| |done].
    intros ->. apply Hnin. by apply typed_key.
  - apply Hv.
  - apply Hv.
  - done.
  - intros name Hname. unfold written. rewrite Hlook, lookup_applyConfigScalars by (by apply scalar_key_ne). by rewrite !decide_False by (by apply scalar_key_ne).
  - exact Hok.
  - cbn. by intros H%negb_false_iff%bool_decide_eq_true_1.
  - exact Hval.
  - unfold field_of. rewrite Hosh. exact Ho.
  - exact Hnorm.
  - rewrite <- (parseConfigDocument_object homeDir _ _ Hdata') in Hd'. pose proof Hd' as Hraw. rewrite (parseConfigDocument_object homeDir _ _ Hdata') in Hraw.
    apply document_of_raw_Ok in Hraw as [Hraw _]. exists (with_peers (clone_config (doc_Config doc)) typed), raw, doc', s', peers, typed.
    assert (Hrw : rawSSHPeers raw = Ok (s', peers)).
    { rewrite <- (rawSSHPeers_section raw s' peers Hp). apply rawSSHPeers_frame. by rewrite lookup_insert_eq. }
    do 6 (split; [done|]). split; [by rewrite Hraw, (rawSSHPeers_frame out raw Hosh)|]. by split.
Qed.

(** ** Reading an update of the peers back *)

(** C25. Both views of the peers stay in step.  Any text that spells what a successful
    request for a peer writes is read as a document at the next revision, whose typed
    peers are the raw peers of the file decoded one by one, and whose configuration is
    otherwise the one the request found: nothing the daemon reads is lost or changed by
    the way through the raw document. *)
Theorem peer_update_reads_back homeDir data doc l out data'
    (Hdoc : parseConfigDocument homeDir data = Ok doc) (Hplain : plain (doc_raw doc))
    (Hl : document_section (doc_raw doc) l) (Hpl : plain_members l) (Hok : scalars_ok (gc_config (doc_Config doc)))
    (Hpaths : text_ok (SyncKey (typed_section (doc_Config doc))) ∧ text_ok (KnownHosts (typed_section (doc_Config doc))))
    (Hw : peer_write homeDir data out) (Hdata' : parse data' = Some (json_object out)) :
  ∃ doc' s peers typed next, parseConfigDocument homeDir data' = Ok doc' ∧ next = (default 0 (doc_ConfigRevision doc) + 1)%Z ∧
    doc_RevisionState doc' = RevisionStateVersioned ∧ doc_ConfigRevision doc' = Some next ∧
    rawSSHPeers (doc_raw doc') = Ok (s, peers) ∧ typed_peers peers = Ok typed ∧
    gc_config (doc_Config doc') = at_revision (gc_config (with_peers (doc_Config doc) typed)) next.
Proof.
  apply peer_write_update in Hw as (gate & r & change & updated & revision & _ & Hop & H).
  destruct (update_read_back _ _ _ _ _ _ _ _ _ _ _ Hdoc Hplain Hl Hpl Hok Hpaths Hop H Hdata') as (g & raw & doc' & s & peers & typed & _ & Hd & Hr & Hs & Hv & _ & Hp & Ht & Hg & _ & Hc).
  exists doc', s, peers, typed, revision. by rewrite Hc, Hg.
Qed.

(** ** What the daemon dials *)

(** The names that decide what a raw peer is for are spelt in one way. *)
Definition plain_peer (peer : raw_object) : Prop := plain_key peer "id" ∧ plain_key peer "enabled".

Lemma typed_Ok peer typed : typedPeerFromRaw peer = Ok typed → decode_SSHPeer zero_peer (members peer) = Some typed.
Proof. unfold typedPeerFromRaw. destruct (decode_SSHPeer _ _); [|discriminate]. by intros [= ->]. Qed.

(** The fields that were decoded before a record was built. *)
Ltac peel_fields H :=
  repeat match type of H with mbind _ ?x = Some _ => destruct x; [cbn [mbind option_bind] in H|discriminate H] end.

Lemma typed_peer_id peer typed peerID : plain_key peer "id" → rawPeerID peer = Ok peerID → typedPeerFromRaw peer = Ok typed → peer_ID typed = peerID.
Proof.
  intros Hp Hid Ht%typed_Ok. unfold decode_SSHPeer in Ht.
  rewrite (decode_field_plain into_string "id" peer (peer_ID zero_peer) Hp) in Ht by (vm_compute; reflexivity). unfold field_of in Ht.
  unfold rawPeerID in Hid. destruct (peer !! "id") as [v|]; [|discriminate]. destruct v; try discriminate Hid.
  - apply bind_Ok in Hid as ([] & Hv%recode_Ok & [= <-]). cbn [into_string mbind option_bind] in Ht.
    peel_fields Ht. by injection Ht as <-.
Qed.

Lemma typed_peer_disabled peer typed :
  plain_key peer "enabled" → peer !! "enabled" = Some (VBool false) → typedPeerFromRaw peer = Ok typed → Enabled typed = false.
Proof.
  intros Hp He Ht%typed_Ok. unfold decode_SSHPeer in Ht.
  assert (Hd : decode_field into_bool "enabled" (members peer) (Enabled zero_peer) = Some false).
  { rewrite (decode_field_plain into_bool "enabled" peer _ Hp) by (vm_compute; reflexivity). unfold field_of. by rewrite He. }
  rewrite Hd in Ht. peel_fields Ht. by injection Ht as <-.
Qed.

Lemma sync_peers_from ssh n peers x : x ∈ sync_peers ssh n peers → ∃ peer, peer ∈ peers ∧ usable_peer peer = true ∧ sp_id x = peer_ID peer.
Proof.
  revert n. induction peers as [|p peers IH]; intros n; cbn [sync_peers]; [by intros ?%elem_of_nil|]. destruct (usable_peer p) eqn:Hu; cbn [negb].
  - destruct (_ && _); [by intros ?%elem_of_nil|]. intros [->|Hin]%elem_of_cons; [exists p; split; [by left|done]|].
    destruct (IH _ Hin) as (q & Hq & ?). exists q. split; [by right|done].
  - intros (q & Hq & ?)%IH. exists q. split; [by right|done].
Qed.

(** A configuration whose peers of this id are not enabled has no session for it. *)
Lemma no_sync_peer c peerID :
  (∀ ssh, SSH c = Some ssh → Forall (λ p, peer_ID p = peerID → Enabled p = false) (Peers ssh)) → peerID ∉ sp_id <$> sshSyncPeersFromConfig (Some c).
Proof.
  intros H. unfold sshSyncPeersFromConfig. destruct (negb _); [apply not_elem_of_nil|]. destruct (SSH c) as [ssh|]; [|apply not_elem_of_nil].
  destruct (_ || _); [apply not_elem_of_nil|]. intros (x & -> & (p & Hp & Hu & Hx)%sync_peers_from)%list_elem_of_fmap.
  specialize (H ssh eq_refl). rewrite Forall_forall in H. specialize (H p Hp (eq_sym Hx)). unfold usable_peer in Hu. by rewrite H in Hu.
Qed.

Lemma typed_peers_Forall2 peers typed : typed_peers peers = Ok typed → Forall2 (λ p t, typedPeerFromRaw p = Ok t) peers typed.
Proof.
  revert typed. induction peers as [|p peers IH]; intros typed; cbn [typed_peers]; [intros [= <-]; constructor|].
  intros (t & Ht & (rest & Hrest & [= <-])%bind_Ok)%bind_Ok. constructor; [done|by apply IH].
Qed.

(** The typed peers of a list in which the peer of an id is disabled or not there. *)
Lemma typed_not_enabled peers typed peerID :
  typed_peers peers = Ok typed → Forall (λ p, plain_peer p ∧ ∃ pid, rawPeerID p = Ok pid ∧ (pid = peerID → p !! "enabled" = Some (VBool false))) peers →
  Forall (λ t, peer_ID t = peerID → Enabled t = false) typed.
Proof.
  intros Ht%typed_peers_Forall2 Hp. induction Ht as [|p t peers typed H _ IH]; [constructor|]. apply Forall_cons in Hp as [([H1 H2] & pid & Hpid & Hen) Hp].
  constructor; [|by apply IH]. rewrite (typed_peer_id _ _ _ H1 Hpid H). intros Heq. eapply typed_peer_disabled; [exact H2|by apply Hen|exact H].
Qed.

Lemma plain_insert (raw : raw_object) key v name : plain_key raw name → (EqualFold key name = true → key = name) → plain_key (<[key := v]> raw) name.
Proof.
  intros Hp Hk k. rewrite lookup_insert_is_Some. intros [<-|[_ Hs]] Hf; [by apply Hk|by apply Hp].
Qed.

(** Every peer has an id, and none has that of another. *)
Definition distinct_ids (peers : list raw_object) : Prop := ∃ ids, Forall2 (λ p pid, rawPeerID p = Ok pid) peers ids ∧ NoDup ids.

(** The peers a successful disabling or deletion leaves: none of this id is enabled. *)
Lemma stopped_peers change g raw g' raw' u peerID s peers old :
  (∃ now req, change = applySSHPeerDisable now peerID req) ∨ (∃ now req, change = applySSHPeerDelete now peerID req) →
  change g raw = Ok (g', raw', u) → rawSSHPeers raw' = Ok (s, peers) → rawSSHPeers raw = Ok old →
  distinct_ids old.2 → Forall plain_peer old.2 →
  Forall (λ p, plain_peer p ∧ ∃ pid, rawPeerID p = Ok pid ∧ (pid = peerID → p !! "enabled" = Some (VBool false))) peers.
Proof.
  intros Hcase Hch Hpeers Hold (ids & Hids & Hnd) Hplain. destruct old as [sold ps]. cbn [snd] in *.
  assert (Hother : ∀ i peer j p, ps !! i = Some peer → rawPeerID peer = Ok peerID → ps !! j = Some p → j ≠ i → ∃ pid, rawPeerID p = Ok pid ∧ pid ≠ peerID).
  { intros i peer j p Hi Hpid Hj Hne. destruct (Forall2_lookup_l _ _ _ _ _ Hids Hj) as (pid & Hjd & Hp). exists pid. split; [done|]. intros ->. apply Hne.
    destruct (Forall2_lookup_l _ _ _ _ _ Hids Hi) as (pid' & Hid & Hp'). assert (pid' = peerID) as -> by congruence. by eapply NoDup_lookup. }
  destruct Hcase as [(now & req & ->)|(now & req & ->)].
  - apply disable_Ok in Hch as (so & s' & ps' & i & peer & st & au & Hr & Hi & Hid & _ & _ & -> & _ & _ & _ & (Hw & _)). rewrite Hold in Hr. injection Hr as <- <-.
    rewrite Hw in Hpeers. injection Hpeers as _ <-. rewrite Forall_lookup in Hplain |- *. intros j p [(<- & <- & _)|(Hne & Hj)]%list_lookup_insert_Some.
    + split; [split; (eapply plain_insert; [by apply (Hplain i)|by vm_compute])|]. exists peerID. split; [|by rewrite lookup_insert_eq].
      rewrite <- Hid. apply id_frame. by rewrite lookup_insert_ne.
    + split; [by eapply Hplain|]. destruct (Hother _ _ j p Hi Hid Hj) as (pid & ? & ?); [done|]. by exists pid.
  - apply delete_Ok in Hch as (so & s1 & s2 & ps' & i & peer & st & au & status & rem & Hr & Hi & Hid & _ & _ & _ & _ & _ & _ & _ & _ & (Hw & _)).
    rewrite Hold in Hr. injection Hr as <- <-. rewrite Hw in Hpeers. injection Hpeers as _ <-. rewrite Forall_lookup in Hplain |- *. intros j p Hj.
    assert (∃ j', ps !! j' = Some p ∧ j' ≠ i) as (j' & Hj' & Hne).
    { destruct (decide (j < i)); [rewrite list_lookup_delete_lt in Hj by done; exists j|rewrite list_lookup_delete_ge in Hj by lia; exists (S j)]; (split; [done|lia]). }
    split; [by eapply Hplain|]. destruct (Hother _ _ j' p Hi Hid Hj' Hne) as (pid & ? & ?). by exists pid.
Qed.

(** A request that stops the exchange with a peer. *)
Inductive stop_write (homeDir : option string) (data peerID : string) (out : raw_object) : Prop :=
| stop_disable gate now req shown revision : disableSSHPeerWithGate homeDir gate now data peerID req = Ok (out, shown, revision) → stop_write homeDir data peerID out
| stop_delete gate now req shown revision : deleteSSHPeerWithGate homeDir gate now data peerID req = Ok (out, shown, revision) → stop_write homeDir data peerID out.

Lemma stop_write_update homeDir data peerID out :
  stop_write homeDir data peerID out →
  ∃ gate r change updated revision, peer_operation homeDir change ∧
    ((∃ now req, change = applySSHPeerDisable now peerID req) ∨ (∃ now req, change = applySSHPeerDelete now peerID req)) ∧
    withSSHPeerConfigUpdate homeDir gate data (MkExpectation RevisionStateVersioned (Some r)) change = Ok (out, updated, revision).
Proof.
  intros [gate now req shown revision H|gate now req shown revision H]; unfold disableSSHPeerWithGate, deleteSSHPeerWithGate in H;
    apply bind_Ok in H as ([] & _ & H); apply bind_Ok in H as (expected & (r & _ & -> & _)%expecting_Ok & H); apply bind_Ok in H as ([] & _ & H); exists gate, r.
  - apply entry_point in H as (u & H & _). do 3 eexists. split; [|split; [|exact H]]; [constructor|eauto].
  - destruct (blank _); [discriminate|]. apply entry_point in H as (u & H & _). do 3 eexists. split; [|split; [|exact H]]; [constructor|eauto].
Qed.

Lemma at_revision_valid c revision : ValidateSSHTransportConfig (at_revision c revision) = ValidateSSHTransportConfig c.
Proof. done. Qed.

(** After a peer was disabled or deleted, any text that spells what was written is read as
    a configuration in which no session is due for that peer. *)
Lemma stopped_peer_not_due homeDir data doc l peerID out data' :
  parseConfigDocument homeDir data = Ok doc → plain (doc_raw doc) → document_section (doc_raw doc) l → plain_members l → scalars_ok (gc_config (doc_Config doc)) →
  text_ok (SyncKey (typed_section (doc_Config doc))) ∧ text_ok (KnownHosts (typed_section (doc_Config doc))) →
  (∀ s peers, rawSSHPeers (doc_raw doc) = Ok (s, peers) → distinct_ids peers ∧ Forall plain_peer peers) →
  stop_write homeDir data peerID out → parse data' = Some (json_object out) →
  ∃ doc', parseConfigDocument homeDir data' = Ok doc' ∧ peerID ∉ sp_id <$> sshSyncPeersFromConfig (Some (gc_config (doc_Config doc'))) ∧
    ValidateSSHTransportConfig (gc_config (doc_Config doc')) = Ok ().
Proof.
  intros Hdoc Hplain Hl Hpl Hok Hpaths Hpeers Hstop Hdata'. apply stop_write_update in Hstop as (gate & r & change & updated & revision & Hop & Hcase & H).
  destruct (update_read_back _ _ _ _ _ _ _ _ _ _ _ Hdoc Hplain Hl Hpl Hok Hpaths Hop H Hdata')
    as (g & raw & doc' & s & peers & typed & Hch & Hd & _ & _ & _ & Hp & _ & Ht & Hg & Hval & Hc).
  exists doc'. split; [done|].
  assert (Hold : ∃ old, rawSSHPeers (doc_raw doc) = Ok old).
  { destruct Hcase as [(now & req & ->)|(now & req & ->)]; [apply disable_Ok in Hch as (? & ? & ? & ? & ? & ? & ? & ? & _)|
      apply delete_Ok in Hch as (? & ? & ? & ? & ? & ? & ? & ? & ? & ? & ? & _)]; eauto. }
  destruct Hold as [[sold old] Hold]. destruct (Hpeers _ _ Hold) as [Hpok Hpp].
  pose proof (stopped_peers _ _ _ _ _ _ _ _ _ _ Hcase Hch Hp Hold Hpok Hpp) as Hnone. pose proof (typed_not_enabled _ _ _ Ht Hnone) as Hten.
  split; [|by rewrite Hc, at_revision_valid]. apply no_sync_peer. intros ssh Hssh. rewrite Hc, Hg in Hssh. injection Hssh as <-. exact Hten.
Qed.

(** A stopped peer is not dialled.  After a peer was disabled or deleted, any text
    that spells what was written is read as a configuration with which a started session
    manager keeps and starts no session for that peer, whatever sessions it had. *)
Theorem stopped_peer_not_dialled homeDir data doc l peerID out data'
    (Hdoc : parseConfigDocument homeDir data = Ok doc) (Hplain : plain (doc_raw doc))
    (Hl : document_section (doc_raw doc) l) (Hpl : plain_members l) (Hok : scalars_ok (gc_config (doc_Config doc)))
    (Hpaths : text_ok (SyncKey (typed_section (doc_Config doc))) ∧ text_ok (KnownHosts (typed_section (doc_Config doc))))
    (Hpeers : ∀ s peers, rawSSHPeers (doc_raw doc) = Ok (s, peers) → peers_ok peers ∧ Forall plain_peer peers)
    (Hstop : stop_write homeDir data peerID out) (Hdata' : parse data' = Some (json_object out)) :
  ∃ doc', parseConfigDocument homeDir data' = Ok doc' ∧
    ∀ order m, manager_wf m → order ≡ₚ map_to_list (m_sessions m) → m_started m = true →
      m_sessions (Refresh order m (Some (gc_config (doc_Config doc')))) !! peerID = None.
Proof.
  assert (Hids : ∀ s peers, rawSSHPeers (doc_raw doc) = Ok (s, peers) → distinct_ids peers ∧ Forall plain_peer peers).
  { intros s peers Hr. by destruct (Hpeers s peers Hr) as [[_ ?] ?]. }
  destruct (stopped_peer_not_due _ _ _ _ _ _ _ Hdoc Hplain Hl Hpl Hok Hpaths Hids Hstop Hdata') as (doc' & Hd & Hnot & Hval). exists doc'. split; [done|].
  intros order m Hwf Horder Hst. apply eq_None_not_Some. intros [a (x & _ & Hin & Hid)%refresh_sessions]; [|done..|by apply sessions_distinct].
  apply Hnot, list_elem_of_fmap. by eexists.
Qed.

(** ** Witnesses *)

Definition deleted : result string (raw_object * raw_object * Z) :=
  deleteSSHPeerWithGate None true "2024-01-02T03:04:05Z" (peers_text [sample_peer]) "beta" (MkDelete (Some 7%Z) "user_requested" "log-2").

Definition disabled : result string (raw_object * raw_object * Z) :=
  disableSSHPeerWithGate None true "2024-01-02T03:04:05Z" (peers_text [sample_peer]) "beta" (MkDisable (Some 7%Z) "user_requested").

Lemma deleted_Ok : is_ok deleted = true.
Proof. vm_compute. reflexivity. Qed.

Lemma disabled_Ok : is_ok disabled = true.
Proof. vm_compute. reflexivity. Qed.

Lemma disabled_text : parse (text_of disabled) = Some (json_object (out_of disabled)).
Proof. vm_compute. reflexivity. Qed.

Lemma delete_spec_witness :
  ∃ doc sshRaw peers i sshRaw', parseConfigDocument None (peers_text [sample_peer]) = Ok doc ∧ rawSSHPeers (doc_raw doc) = Ok (sshRaw, peers) ∧
    rawSSHPeers (out_of deleted) = Ok (sshRaw', delete i peers).
Proof.
  destruct (delete_spec None true "2024-01-02T03:04:05Z" (peers_text [sample_peer]) "beta" (MkDelete (Some 7%Z) "user_requested" "log-2")
    _ _ _ (answered_Ok deleted deleted_Ok)) as (_ & doc & sshRaw & peers & i & peer & state & audit & sshRaw' & Hdoc & _ & Hr & _ & _ & _ & _ & Hout & _).
  exists doc, sshRaw, peers, i, sshRaw'. exact (conj Hdoc (conj Hr Hout)).
Defined.

Definition beta_doc : configDocument :=
  match parseConfigDocument None (peers_text [sample_peer]) with Ok doc => doc | Err _ => MkDocument (MkGoConfig (MkConfig None None "" "" "" [] "" "" None 0 0) false false) "" None ∅ end.

Lemma beta_doc_parsed : parseConfigDocument None (peers_text [sample_peer]) = Ok beta_doc.
Proof. vm_compute. reflexivity. Qed.

Lemma beta_doc_plain : plain (doc_raw beta_doc).
Proof. apply plainb_plain. vm_compute. reflexivity. Qed.

Lemma beta_section : document_section (doc_raw beta_doc) (sample_peers [sample_peer]).
Proof. vm_compute. reflexivity. Qed.

(** No member of the list is spelt otherwise than a name of the list that it folds to. *)
Definition plain_namesb (names : list string) (keys : list string) : bool :=
  forallb (λ k, forallb (λ name, negb (EqualFold k name) || bool_decide (k = name)) names) keys.

Lemma plain_namesb_sound names keys (raw : raw_object) :
  plain_namesb names keys = true → (∀ k, is_Some (raw !! k) → k ∈ keys) → ∀ name, name ∈ names → plain_key raw name.
Proof.
  unfold plain_namesb. rewrite forallb_forall. intros H Hin name Hn k Hk Hf. specialize (H k (proj1 (list_elem_of_In _ _) (Hin k Hk))). rewrite forallb_forall in H.
  specialize (H name (proj1 (list_elem_of_In _ _) Hn)). rewrite Hf in H. by apply bool_decide_eq_true_1 in H.
Qed.

Lemma raw_of_keys l k : is_Some (raw_of l !! k) → k ∈ l.*1.
Proof. intros [v Hv%raw_of_elem]. apply list_elem_of_fmap. by exists (k, v). Qed.

Lemma beta_members : plain_members (sample_peers [sample_peer]).
Proof.
  split; [apply (bool_decide_eq_true_1 _); vm_compute; reflexivity|]. eapply plain_namesb_sound; [|apply raw_of_keys]. vm_compute. reflexivity.
Qed.

Lemma beta_scalars : scalars_ok (gc_config (doc_Config beta_doc)).
Proof.
  assert (Forall text_ok ["alpha"; ""]) as Ht by (repeat constructor). inversion_clear Ht as [|? ? Ha He]. split; [|split; by vm_compute].
  vm_compute. repeat constructor.
Qed.

Lemma beta_paths : text_ok (SyncKey (typed_section (doc_Config beta_doc))) ∧ text_ok (KnownHosts (typed_section (doc_Config beta_doc))).
Proof. split; vm_compute; reflexivity. Qed.

Lemma peer_update_reads_back_witness :
  ∃ doc' s peers typed next, parseConfigDocument None (text_of disabled) = Ok doc' ∧ next = (default 0 (doc_ConfigRevision beta_doc) + 1)%Z ∧
    doc_RevisionState doc' = RevisionStateVersioned ∧ doc_ConfigRevision doc' = Some next ∧
    rawSSHPeers (doc_raw doc') = Ok (s, peers) ∧ typed_peers peers = Ok typed ∧
    gc_config (doc_Config doc') = at_revision (gc_config (with_peers (doc_Config beta_doc) typed)) next.
Proof.
  apply (peer_update_reads_back None (peers_text [sample_peer]) beta_doc (sample_peers [sample_peer]) (out_of disabled) (text_of disabled)
    beta_doc_parsed beta_doc_plain beta_section beta_members beta_scalars beta_paths); [|apply disabled_text].
  eapply write_disable. apply (answered_Ok disabled disabled_Ok).
Defined.

Lemma beta_peers : ∀ s peers, rawSSHPeers (doc_raw beta_doc) = Ok (s, peers) → peers_ok peers ∧ Forall plain_peer peers.
Proof.
  intros s peers H. assert (Hp : peers = [sample_peer]).
  { assert (He : (rawSSHPeers (doc_raw beta_doc)) = Ok (raw_of (sample_peers [sample_peer]), [sample_peer])) by (vm_compute; reflexivity).
    rewrite He in H. apply Ok_inj in H. congruence. }
  subst peers. split; [split|].
  - constructor; [|constructor]. exists MigrationStateProvisionFailed. eexists. split; [by vm_compute|]. split; [vm_compute; reflexivity|].
    exists MigrationStateProvisionFailed. split; [vm_compute; reflexivity|]. split; [|done]. apply (bool_decide_eq_true_1 _). vm_compute. reflexivity.
  - exists ["beta"]. split; [repeat constructor; vm_compute; reflexivity|apply NoDup_singleton].
  - constructor; [|constructor]. assert (H' : ∀ name, name ∈ ["id"; "enabled"] → plain_key sample_peer name).
    { eapply plain_namesb_sound; [|apply raw_of_keys]. vm_compute. reflexivity. }
    split; apply H'; by apply typed_key_in.
Qed.

Lemma stopped_peer_not_dialled_witness :
  ∃ doc', parseConfigDocument None (text_of disabled) = Ok doc' ∧
    is_Some (m_sessions demo_pending !! "beta") ∧
    m_sessions (Refresh (map_to_list (m_sessions demo_pending)) demo_pending (Some (gc_config (doc_Config doc')))) !! "beta" = None.
Proof.
  destruct (stopped_peer_not_dialled None (peers_text [sample_peer]) beta_doc (sample_peers [sample_peer]) "beta" (out_of disabled) (text_of disabled)
    beta_doc_parsed beta_doc_plain beta_section beta_members beta_scalars beta_paths beta_peers) as (doc' & Hdoc & H).
  - eapply stop_disable. apply (answered_Ok disabled disabled_Ok).
  - apply disabled_text.
  - exists doc'. split; [exact Hdoc|]. split; [vm_compute; by eexists|]. apply H; [apply demo_pending_wf|reflexivity|reflexivity].
Defined.
