(* ===== verification/Applicator.v ===== *)
(** * Applying the configuration of a pair: sshprovision/config_applicator.go

    [Apply] brings the configuration files of the hosts of a pair from whatever they
    are to the state in which both dial each other: local material, peers, proofs and
    the steps of their migration, each call made for the revision the one before left.
    It works through an interface, [ConfigOps], whose promises are the class
    [ConfigOpsLaws]; the theorems about [Apply] are proved against them, and
    [FileOps] discharges them for the operations of config/ on texts. *)
From S2P Require Import Prelude GoStrings Encoding NetIP Paths Hostnames Config Clip Session SSHConfig Words KnownHosts AuthorizedKeys SSHCommand Pairing.
From S2P Require Import Json RawJson ConfigDoc Redact PeerRequests PeerConfig.
From Stdlib Require Import Ascii String.
From stdpp Require Import strings relations.

#[local] Arguments String.append !_ _ / : simpl nomatch.

(** ** The interface *)

Record SSHPeerConfigReadResult := MkReadResult {
  rr_Peer : raw_object;
  rr_ConfigRevision : option Z;
  rr_RevisionState : string;
  rr_ConfigVersion : option Z;
}.

Class ConfigOps (W : Type) := {
  op_ReadConfigRevision : string → W → W * result string RevisionStatus;
  op_EnsureConfigV2Revision : string → RevisionStatus → W → W * result string RevisionStatus;
  op_UpdateSSHLocalMaterial : string → SSHLocalMaterialUpdateRequest → W → W * result string RevisionStatus;
  op_ReadSSHPeer : string → string → W → W * result string SSHPeerConfigReadResult;
  op_UpsertSSHPeer : string → string → SSHPeerUpsertRequest → W → W * result string SSHPeerConfigReadResult;
  op_PatchSSHPeerProof : string → string → SSHPeerProofPatchRequest → W → W * result string SSHPeerConfigReadResult;
  op_TransitionSSHPeer : string → string → SSHPeerTransitionRequest → W → W * result string SSHPeerConfigReadResult;
}.

Definition DirectPairConfigApplyAll : string := "".

Definition DirectPairConfigApplyStage : string := "stage".

Definition DirectPairConfigApplyReady : string := "ready".

(** [ca_Now]: the time of the pass, formatted; [ca_LogID]: the log id of the mutation. *)
Record DirectPairConfigApplicator := MkApplicator {
  ca_ConfigPathByHostID : gmap string string;
  ca_TargetHostIDs : list string;
  ca_Phase : string;
  ca_Now : string;
  ca_LogID : DirectPairConfigMutation → string;
}.

Definition phase (a : DirectPairConfigApplicator) : string :=
  if bool_decide (ca_Phase a ∈ [DirectPairConfigApplyStage; DirectPairConfigApplyReady]) then ca_Phase a else DirectPairConfigApplyAll.

Definition appliesStage (p : string) : bool := bool_decide (p ∈ [DirectPairConfigApplyAll; DirectPairConfigApplyStage]).

Definition appliesReady (p : string) : bool := bool_decide (p ∈ [DirectPairConfigApplyAll; DirectPairConfigApplyReady]).

(** ** What is read off a mutation *)

Fixpoint paths_of (by_host : gmap string string) (hostIDs : list string) : result string (gmap string string) :=
  match hostIDs with
  | [] => Ok ∅
  | hostID :: hostIDs =>
      let path := default "" (by_host !! hostID) in
      if bool_decide (path = "") then Err "direct_pair_config_path_missing"
      else out ← paths_of by_host hostIDs; Ok (<[hostID := path]> out)
  end.

(** The hosts are ranged over in any order; a missing path is the same error for each. *)
Definition configPaths (a : DirectPairConfigApplicator) (mutation : DirectPairConfigMutation) : result string (gmap string string) :=
  let hostIDs : gset string :=
    if bool_decide (ca_TargetHostIDs a = [])
    then {[pl_ConnectHostID (mu_Plan mutation); pl_AcceptHostID (mu_Plan mutation)]} ∪ list_to_set (cw_TargetHostID <$> mu_Writes mutation)
    else list_to_set (ca_TargetHostIDs a) in
  paths_of (ca_ConfigPathByHostID a) (elements hostIDs).

Definition shouldApplyConfigWrite (paths : gmap string string) (hostID : string) : bool := bool_decide (is_Some (paths !! hostID)).

Definition mutationSyncKeyForHost (mutation : DirectPairConfigMutation) (hostID : string) : result string SyncKeyMaterial :=
  match mu_SyncKeys mutation !! hostID with
  | Some material => Ok material
  | None =>
      if bool_decide (hostID = pl_ConnectHostID (mu_Plan mutation)) && negb (bool_decide (sk_PrivateKeyPath (mu_ConnectorSyncKey mutation) = ""))
      then Ok (mu_ConnectorSyncKey mutation) else Err "missing_sync_key_material"
  end.

Definition mutationKnownHostsPathForHost (mutation : DirectPairConfigMutation) (hostID : string) : result string string :=
  let path := default "" (mu_KnownHostsPaths mutation !! hostID) in
  if negb (bool_decide (path = "")) then Ok path
  else if bool_decide (hostID = pl_ConnectHostID (mu_Plan mutation)) && negb (bool_decide (mu_ConnectorKnownHostsPath mutation = ""))
  then Ok (mu_ConnectorKnownHostsPath mutation) else Err "missing_known_hosts_path".

Definition sortedMapKeys (values : gmap string string) : list string := stable_sort String.ltb (map_to_list values).*1.

Fixpoint check_each {X} (l : list X) (f : X → result string ()) : result string () :=
  match l with
  | [] => Ok ()
  | x :: l => _ ← f x; check_each l f
  end.

(** [range]: the order in which Go ranges over the paths. *)
Definition validateDirectPairConfigMutationForApply (range : gmap string string → list string) (mutation : DirectPairConfigMutation)
    (paths : gmap string string) (p : string) : result string () :=
  if negb (appliesStage p) then Ok ()
  else
    _ ← ensure (SharedKeyIsStandard32Bytes (mu_SharedKey mutation)) "invalid_shared_key";
    _ ← check_each (range paths) (λ hostID, _ ← mutationSyncKeyForHost mutation hostID; _ ← mutationKnownHostsPathForHost mutation hostID; Ok ());
    check_each (mu_Writes mutation) (λ write,
      if negb (shouldApplyConfigWrite paths (cw_TargetHostID write)) then Ok ()
      else _ ← mutationSyncKeyForHost mutation (cw_TargetHostID write); _ ← mutationSyncKeyForHost mutation (cw_PeerID write); Ok ()).

Definition stringPtrIfNotEmpty (value : string) : option string := if bool_decide (value = "") then None else Some value.

Definition sshPeerUpsertFields (write : DirectPairConfigWrite) : SSHPeerUpsertFields :=
  MkUpsertFields (Some (cw_PeerID write)) (Some (cw_Enabled write)) (Some (cw_Accept write)) (Some (cw_Connect write)) (Some (cw_Persistent write))
    (Some (cw_OnDemand write))
    (if cw_Connect write then stringPtrIfNotEmpty (cw_SSHHost write) else None)
    (if cw_Connect write then stringPtrIfNotEmpty (cw_SSHUser write) else None)
    (if cw_Connect write then Some (cw_SSHPort write) else None)
    (stringPtrIfNotEmpty (cw_InstallPath write)) (stringPtrIfNotEmpty (cw_GatewayPath write)) (Some (cw_MigrationState write)) None.

(** The fields of an upsert of a peer that is there already. *)
Definition without_state (f : SSHPeerUpsertFields) : SSHPeerUpsertFields :=
  MkUpsertFields (uf_ID f) (uf_Enabled f) (uf_Accept f) (uf_Connect f) (uf_Persistent f) (uf_OnDemand f) (uf_SSHHost f) (uf_SSHUser f) (uf_SSHPort f)
    (uf_InstallPath f) (uf_GatewayPath f) None (uf_SharedKey f).

Definition or_regular (verifiedBy : string) : string := if bool_decide (verifiedBy = "") then ProofVerifiedByRegularSSH else verifiedBy.

Definition acceptProofPatch (write : DirectPairConfigWrite) (key : SyncKeyMaterial) (verifiedAt : string) : option SSHPeerDirectionalProofPatch :=
  if negb (cw_Accept write) then None
  else Some (MkProofPatch (sk_KeyID key) (if bool_decide (cw_TargetGatewayPath write = "") then cw_GatewayPath write else cw_TargetGatewayPath write)
    verifiedAt (or_regular (cw_AcceptVerifiedBy write))).

Definition connectProofPatch (write : DirectPairConfigWrite) (key : SyncKeyMaterial) (verifiedAt : string) : option SSHPeerDirectionalProofPatch :=
  if negb (cw_Connect write) then None
  else Some (MkProofPatch (sk_KeyID key) (cw_GatewayPath write) verifiedAt (or_regular (cw_ConnectVerifiedBy write))).

(** ** A pass *)

Record directPairPeerApplyState := MkApplyState {
  as_exists : bool;
  as_migrationState : string;
}.

#[export] Instance apply_state_eq_dec : EqDecision directPairPeerApplyState.
Proof. solve_decision. Defined.

Definition no_peer : directPairPeerApplyState := MkApplyState false "".

Definition migrationStateFromSSHPeerReadResult (result : SSHPeerConfigReadResult) : Prelude.result string string :=
  match rr_Peer result !! "migration_state" with
  | None | Some VNull => Ok ""
  | Some (VString state) => Ok state
  | Some _ => Err "invalid_ssh_peer_migration_state"
  end.

Definition supportedStagePeerApplyState (state : string) : bool :=
  bool_decide (state ∈ [MigrationStateLoopbackUnprovisioned; MigrationStateProvisionFailed; MigrationStateSSHMaterialStaged; MigrationStateSSHKeysReady]).

(** The maps of a pass: the revision each host's file is at, and the state of each peer,
    by the host and the peer. *)
Record pass := MkPass {
  ps_revisions : gmap string Z;
  ps_states : gmap (string * string) directPairPeerApplyState;
}.

Definition key_of (write : DirectPairConfigWrite) : string * string := (cw_TargetHostID write, cw_PeerID write).

(** The revision of a status that needs no promotion. *)
Definition versioned (status : RevisionStatus) : option Z :=
  if bool_decide (rv_RevisionState status = RevisionStateVersioned) && negb (default 0 (rv_ConfigRevision status) =? 0)%Z then rv_ConfigRevision status else None.

Definition app (W A : Type) : Type := W * pass → (W * pass) * result string A.

#[export] Instance app_ret W : MRet (app W) := λ A a s, (s, Ok a).

#[export] Instance app_bind W : MBind (app W) := λ A B f m s,
  let '(s, r) := m s in match r with Ok a => f a s | Err e => (s, Err e) end.

Section apply.
Context {W : Type} `{ConfigOps W} (ctxErr : W → option string) (range : gmap string string → list string).

Definition app_lift {A} (r : result string A) : app W A := λ s, (s, r).

Definition perform {A} (op : W → W * result string A) : app W A := λ s, let '(w, r) := op s.1 in ((w, s.2), r).

Definition current : app W pass := λ s, (s, Ok s.2).

Definition change (f : pass → pass) : app W () := λ s, ((s.1, f s.2), Ok ()).

Definition check_context : app W () := λ s, (s, match ctxErr s.1 with Some e => Err e | None => Ok () end).

Fixpoint app_each {X} (l : list X) (f : X → app W ()) : app W () :=
  match l with
  | [] => mret ()
  | x :: l => _ ← f x; app_each l f
  end.

Definition setRevision (hostID : string) (revision : option Z) : app W () :=
  if (default 0 revision =? 0)%Z then app_lift (Err ErrConfigRevisionConflict)
  else change (λ p, MkPass (<[hostID := default 0%Z revision]> (ps_revisions p)) (ps_states p)).

Definition set_state (key : string * string) (state : directPairPeerApplyState) : app W () :=
  change (λ p, MkPass (ps_revisions p) (<[key := state]> (ps_states p))).

Definition revision_of (p : pass) (hostID : string) : option Z := Some (default 0%Z (ps_revisions p !! hostID)).

Definition state_of (p : pass) (write : DirectPairConfigWrite) : directPairPeerApplyState := default no_peer (ps_states p !! key_of write).

Section pass.
Context (paths : gmap string string).

Definition path_of (hostID : string) : string := default "" (paths !! hostID).

Definition read_revision (hostID : string) : app W () :=
  status ← perform (op_ReadConfigRevision (path_of hostID));
  status ← (match versioned status with Some _ => mret status | None => perform (op_EnsureConfigV2Revision (path_of hostID) status) end);
  match versioned status with
  | None => app_lift (Err ErrConfigRevisionConflict)
  | Some r => change (λ p, MkPass (<[hostID := r]> (ps_revisions p)) (ps_states p))
  end.

Definition readRevisions : app W () := app_each (sortedMapKeys paths) read_revision.

(** The loop over the writes that a pass applies, each after a look at the context. *)
Definition each_write (writes : list DirectPairConfigWrite) (f : DirectPairConfigWrite → app W ()) : app W () :=
  app_each writes (λ write, _ ← check_context; if negb (shouldApplyConfigWrite paths (cw_TargetHostID write)) then mret () else f write).

Definition read_state (write : DirectPairConfigWrite) : app W () :=
  p ← current;
  match ps_states p !! key_of write with
  | Some _ => mret ()
  | None =>
      λ s, let '(w, r) := op_ReadSSHPeer (path_of (cw_TargetHostID write)) (cw_PeerID write) s.1 in
      let s := (w, s.2) in
      match r with
      | Err e => if bool_decide (e = "ssh_peer_not_found") then set_state (key_of write) no_peer s else (s, Err e)
      | Ok result => (state ← app_lift (migrationStateFromSSHPeerReadResult result); set_state (key_of write) (MkApplyState true state)) s
      end
  end.

Definition readPeerApplyStates (writes : list DirectPairConfigWrite) : app W () := each_write writes read_state.

Definition validateStagePeerApplyStates (writes : list DirectPairConfigWrite) : app W () :=
  p ← current;
  app_lift (check_each writes (λ write,
    if negb (shouldApplyConfigWrite paths (cw_TargetHostID write)) then Ok ()
    else if negb (as_exists (state_of p write)) then Ok ()
    else ensure (supportedStagePeerApplyState (as_migrationState (state_of p write))) "ssh_peer_stage_state_not_supported")).

Definition update_material (mutation : DirectPairConfigMutation) (hostID : string) : app W () :=
  _ ← check_context;
  p ← current;
  syncKey ← app_lift (mutationSyncKeyForHost mutation hostID);
  knownHostsPath ← app_lift (mutationKnownHostsPathForHost mutation hostID);
  status ← perform (op_UpdateSSHLocalMaterial (path_of hostID)
    (MkMaterialRequest (revision_of p hostID) (Some TransportSSH) (stringPtrIfNotEmpty (mu_SharedKey mutation)) (Some (sk_PrivateKeyPath syncKey)) (Some knownHostsPath)));
  setRevision hostID (rv_ConfigRevision status).

Definition upsert_peer (write : DirectPairConfigWrite) : app W () :=
  p ← current;
  let state := state_of p write in
  let fields := sshPeerUpsertFields write in
  let fields := if as_exists state then without_state fields else fields in
  result ← perform (op_UpsertSSHPeer (path_of (cw_TargetHostID write)) (cw_PeerID write) (MkUpsert (revision_of p (cw_TargetHostID write)) fields));
  _ ← setRevision (cw_TargetHostID write) (rr_ConfigRevision result);
  if as_exists state then mret () else set_state (key_of write) (MkApplyState true (cw_MigrationState write)).

Definition patch_proofs (mutation : DirectPairConfigMutation) (timestamp : string) (write : DirectPairConfigWrite) : app W () :=
  p ← current;
  acceptKey ← app_lift (mutationSyncKeyForHost mutation (cw_PeerID write));
  connectKey ← app_lift (mutationSyncKeyForHost mutation (cw_TargetHostID write));
  result ← perform (op_PatchSSHPeerProof (path_of (cw_TargetHostID write)) (cw_PeerID write)
    (MkPatch (revision_of p (cw_TargetHostID write)) (acceptProofPatch write acceptKey timestamp) (connectProofPatch write connectKey timestamp)));
  setRevision (cw_TargetHostID write) (rr_ConfigRevision result).

Definition transitionSSHPeer (write : DirectPairConfigWrite) (state : directPairPeerApplyState) (toState reason logID : string) : app W directPairPeerApplyState :=
  p ← current;
  result ← perform (op_TransitionSSHPeer (path_of (cw_TargetHostID write)) (cw_PeerID write)
    (MkTransition (revision_of p (cw_TargetHostID write)) (as_migrationState state) toState reason logID None None));
  _ ← setRevision (cw_TargetHostID write) (rr_ConfigRevision result);
  mret (MkApplyState (as_exists state) toState).

Definition stageSSHPeerIfNeeded (write : DirectPairConfigWrite) (state : directPairPeerApplyState) (logID : string) : app W directPairPeerApplyState :=
  if negb (as_exists state) then app_lift (Err "ssh_peer_stage_state_missing")
  else if bool_decide (as_migrationState state = MigrationStateLoopbackUnprovisioned)
  then transitionSSHPeer write state MigrationStateSSHMaterialStaged "material_staged" logID
  else if bool_decide (as_migrationState state = MigrationStateProvisionFailed)
  then transitionSSHPeer write state MigrationStateSSHMaterialStaged "retry_progress" logID
  else if bool_decide (as_migrationState state ∈ [MigrationStateSSHMaterialStaged; MigrationStateSSHKeysReady]) then mret state
  else app_lift (Err "ssh_peer_stage_state_not_supported").

Definition readySSHPeerIfNeeded (write : DirectPairConfigWrite) (state : directPairPeerApplyState) (logID : string) : app W directPairPeerApplyState :=
  if negb (as_exists state) then app_lift (Err "ssh_peer_ready_state_missing")
  else if bool_decide (as_migrationState state = MigrationStateSSHMaterialStaged)
  then transitionSSHPeer write state MigrationStateSSHKeysReady "ssh_material_verified" logID
  else if bool_decide (as_migrationState state = MigrationStateSSHKeysReady) then mret state
  else app_lift (Err "ssh_peer_ready_state_not_supported").

Definition advance (step : DirectPairConfigWrite → directPairPeerApplyState → string → app W directPairPeerApplyState) (logID : string)
    (write : DirectPairConfigWrite) : app W () :=
  p ← current;
  nextState ← step write (state_of p write) logID;
  set_state (key_of write) nextState.

Definition stage_phase (mutation : DirectPairConfigMutation) (timestamp logID : string) : app W () :=
  _ ← readPeerApplyStates (mu_Writes mutation);
  _ ← validateStagePeerApplyStates (mu_Writes mutation);
  _ ← app_each (sortedMapKeys paths) (update_material mutation);
  _ ← each_write (mu_Writes mutation) upsert_peer;
  _ ← each_write (mu_Writes mutation) (patch_proofs mutation timestamp);
  each_write (mu_Writes mutation) (advance stageSSHPeerIfNeeded logID).

Definition ready_phase (mutation : DirectPairConfigMutation) (p logID : string) : app W () :=
  _ ← (if appliesStage p then mret () else readPeerApplyStates (mu_Writes mutation));
  each_write (mu_Writes mutation) (advance readySSHPeerIfNeeded logID).
End pass.

Definition apply_pass (a : DirectPairConfigApplicator) (mutation : DirectPairConfigMutation) : app W () :=
  _ ← check_context;
  paths ← app_lift (configPaths a mutation);
  let p := phase a in
  _ ← app_lift (validateDirectPairConfigMutationForApply range mutation paths p);
  _ ← readRevisions paths;
  let logID := ca_LogID a mutation in
  _ ← (if appliesStage p then stage_phase paths mutation (ca_Now a) logID else mret ());
  if appliesReady p then ready_phase paths mutation p logID else mret ().

Definition Apply (a : DirectPairConfigApplicator) (mutation : DirectPairConfigMutation) (w : W) : W * result string () :=
  let '(s, r) := apply_pass a mutation (w, MkPass ∅ ∅) in (s.1, r).
End apply.

(** ** What the operations promise *)

(** The file at one path is left at a revision, the others at theirs. *)
Definition wrote_at {W} (revision_at : W → string → option Z) (w w' : W) (path : string) (revision : option Z) : Prop :=
  revision_at w' path = revision ∧ ∀ q, q ≠ path → revision_at w' q = revision_at w q.

(** [peer_state]: the migration state of a peer in the file at a path, [None] where there
    is no such peer.  A call that fails may still have written. *)
Class ConfigOpsLaws (W : Type) `{ConfigOps W} := {
  revision_at : W → string → option Z;
  peer_state : W → string → string → option string;
  read_revision_law path w w' r : op_ReadConfigRevision path w = (w', r) →
    w' = w ∧ ∀ status, r = Ok status → revision_at w path = versioned status;
  ensure_law path observed w w' r : op_EnsureConfigV2Revision path observed w = (w', r) → versioned observed = None →
    ∀ status, r = Ok status → wrote_at revision_at w w' path (versioned status);
  material_law path req w w' r : op_UpdateSSHLocalMaterial path req w = (w', r) →
    (∀ q i, peer_state w' q i = peer_state w q i) ∧ ∀ status, r = Ok status → wrote_at revision_at w w' path (rv_ConfigRevision status);
  read_peer_law path pid w w' r : op_ReadSSHPeer path pid w = (w', r) →
    w' = w ∧ (r = Err "ssh_peer_not_found" → peer_state w path pid = None) ∧
    ∀ result state, r = Ok result → migrationStateFromSSHPeerReadResult result = Ok state → peer_state w path pid = Some state;
  upsert_law path pid req w w' r : op_UpsertSSHPeer path pid req w = (w', r) →
    (uf_MigrationState (ur_Peer req) = None ∨ peer_state w path pid = None) →
    (∀ q i, (q, i) ≠ (path, pid) → peer_state w' q i = peer_state w q i) ∧
    (peer_state w' path pid = peer_state w path pid ∨ peer_state w path pid = None ∧ peer_state w' path pid = Some MigrationStateLoopbackUnprovisioned) ∧
    ∀ result, r = Ok result → wrote_at revision_at w w' path (rr_ConfigRevision result) ∧
      (peer_state w path pid = None →
        peer_state w' path pid = Some MigrationStateLoopbackUnprovisioned ∧ uf_MigrationState (ur_Peer req) = Some MigrationStateLoopbackUnprovisioned);
  patch_law path pid req w w' r : op_PatchSSHPeerProof path pid req w = (w', r) →
    (∀ q i, peer_state w' q i = peer_state w q i) ∧ ∀ result, r = Ok result → wrote_at revision_at w w' path (rr_ConfigRevision result);
  transition_law path pid req w w' r : op_TransitionSSHPeer path pid req w = (w', r) →
    (∀ q i, (q, i) ≠ (path, pid) → peer_state w' q i = peer_state w q i) ∧
    (peer_state w' path pid = peer_state w path pid ∨ peer_state w path pid = Some (tr_FromState req) ∧ peer_state w' path pid = Some (tr_ToState req)) ∧
    ∀ result, r = Ok result → wrote_at revision_at w w' path (rr_ConfigRevision result) ∧ peer_state w' path pid = Some (tr_ToState req);
}.

(** How the state of a peer moves in a pass. *)
Inductive state_step : option string → option string → Prop :=
| step_created : state_step None (Some MigrationStateLoopbackUnprovisioned)
| step_staged : state_step (Some MigrationStateLoopbackUnprovisioned) (Some MigrationStateSSHMaterialStaged)
| step_retried : state_step (Some MigrationStateProvisionFailed) (Some MigrationStateSSHMaterialStaged)
| step_ready : state_step (Some MigrationStateSSHMaterialStaged) (Some MigrationStateSSHKeysReady).

Section client.
Context {W : Type} `{ConfigOpsLaws W} (ctxErr : W → option string) (range : gmap string string → list string).
Context (paths : gmap string string) (writes : list DirectPairConfigWrite).
Context (Hinj : ∀ h h' path, paths !! h = Some path → paths !! h' = Some path → h = h').

Definition targeted (path pid : string) : Prop := ∃ write, write ∈ writes ∧ paths !! cw_TargetHostID write = Some path ∧ cw_PeerID write = pid.

(** What a pass may do to the files. *)
Definition moved (w w' : W) : Prop := ∀ path pid,
  peer_state w' path pid = peer_state w path pid ∨ targeted path pid ∧ rtc state_step (peer_state w path pid) (peer_state w' path pid).

#[local] Instance moved_preorder : PreOrder moved.
Proof.
  split; [by left|]. intros w1 w2 w3 H1 H2 path pid. destruct (H1 path pid) as [E1|[Ht E1]], (H2 path pid) as [E2|[Ht' E2]].
  - left. congruence.
  - right. split; [done|]. by rewrite <- E1.
  - right. split; [done|]. by rewrite E2.
  - right. split; [done|]. by etrans.
Qed.

(** The maps of a pass tell the truth about the files, and of nothing but the pass's. *)
Definition states_true (w : W) (m : gmap (string * string) directPairPeerApplyState) : Prop :=
  ∀ h path pid s, paths !! h = Some path → m !! (h, pid) = Some s → peer_state w path pid = if as_exists s then Some (as_migrationState s) else None.

Definition revisions_true (w : W) (m : gmap string Z) : Prop := ∀ h path r, paths !! h = Some path → m !! h = Some r → revision_at w path = Some r.

Definition applied (write : DirectPairConfigWrite) : Prop := write ∈ writes ∧ is_Some (paths !! cw_TargetHostID write).

Record tracks (w : W) (p : pass) : Prop := {
  tr_states : states_true w (ps_states p);
  tr_revisions : revisions_true w (ps_revisions p);
  tr_hosts : dom (ps_revisions p) = dom paths;
  tr_keys : ∀ k, is_Some (ps_states p !! k) → ∃ write, applied write ∧ key_of write = k;
}.

Definition known (p : pass) : Prop := ∀ write, applied write → is_Some (ps_states p !! key_of write).

(** What a run from a state does: the files move, and what a success leaves. *)
Definition wpa {A} (m : app W A) (w : W) (p : pass) (Q : A → W → pass → Prop) : Prop :=
  let '((w', p'), r) := m (w, p) in moved w w' ∧ ∀ a, r = Ok a → Q a w' p'.

Lemma wpa_bind {A B} (m : app W A) (f : A → app W B) w p Q : wpa m w p (λ a w' p', wpa (f a) w' p' Q) → wpa (m ≫= f) w p Q.
Proof.
  unfold wpa, mbind, app_bind. destruct (m (w, p)) as [[w1 p1] [a|e]].
  - intros [Hm HQ]. specialize (HQ a eq_refl). destruct (f a (w1, p1)) as [[w2 p2] r]. destruct HQ as [Hm' HQ]. split; [by etrans|done].
  - intros [Hm _]. split; [done|discriminate].
Qed.

Lemma wpa_ret {A} (a : A) w p (Q : A → W → pass → Prop) : Q a w p → wpa (mret a) w p Q.
Proof. intros HQ. split; [done|by intros ? [= <-]]. Qed.

Lemma wpa_lift {A} (r : result string A) w p (Q : A → W → pass → Prop) : (∀ a, r = Ok a → Q a w p) → wpa (app_lift r) w p Q.
Proof. intros HQ. by split. Qed.

Lemma wpa_change f w p (Q : () → W → pass → Prop) : Q () w (f p) → wpa (change f) w p Q.
Proof. intros HQ. split; [done|by intros [] _]. Qed.

Lemma wpa_current w p (Q : pass → W → pass → Prop) : Q p w p → wpa current w p Q.
Proof. intros HQ. split; [done|by intros ? [= <-]]. Qed.

Lemma wpa_context w p (Q : () → W → pass → Prop) : Q () w p → wpa (check_context ctxErr) w p Q.
Proof. intros HQ. split; [done|by intros []]. Qed.

Lemma wpa_perform {A} (op : W → W * result string A) w p (Q : A → W → pass → Prop) :
  (∀ w' r, op w = (w', r) → moved w w' ∧ ∀ a, r = Ok a → Q a w' p) → wpa (perform op) w p Q.
Proof. intros HQ. unfold wpa, perform. cbn [fst snd]. destruct (op w) as [w' r]. by apply HQ. Qed.

Lemma wpa_mono {A} (m : app W A) w p (Q Q' : A → W → pass → Prop) : wpa m w p Q → (∀ a w' p', Q a w' p' → Q' a w' p') → wpa m w p Q'.
Proof. unfold wpa. destruct (m (w, p)) as [[w' p'] r]. intros [? Hok] HQ. split; [done|]. intros a ->. by apply HQ, Hok. Qed.

Lemma wpa_each {X} (inv : list X → W → pass → Prop) (l : list X) (f : X → app W ()) w p :
  inv [] w p → (∀ done x w p, x ∈ l → inv done w p → wpa (f x) w p (λ _ w' p', inv (done ++ [x]) w' p')) → wpa (app_each l f) w p (λ _ w' p', inv l w' p').
Proof.
  intros Hnil Hf. enough (Hgen : ∀ rest done w p, l = done ++ rest → inv done w p → wpa (app_each rest f) w p (λ _ w' p', inv l w' p')) by by apply (Hgen l []).
  clear w p Hnil. induction rest as [|x rest IH]; intros done w p Hl Hi.
  - apply wpa_ret. by rewrite Hl, app_nil_r.
  - cbn [app_each]. apply wpa_bind. eapply wpa_mono; [apply Hf; [rewrite Hl; set_solver|exact Hi]|]. intros [] w' p' Hi'. apply (IH (done ++ [x])); [|done].
    by rewrite Hl, <- app_assoc.
Qed.

(** The loop over the writes applied. *)
Lemma wpa_writes (inv : list DirectPairConfigWrite → W → pass → Prop) (f : DirectPairConfigWrite → app W ()) w p :
  inv [] w p → (∀ done x w p, paths !! cw_TargetHostID x = None → inv done w p → inv (done ++ [x]) w p) →
  (∀ done x path w p, x ∈ writes → paths !! cw_TargetHostID x = Some path → inv done w p → wpa (f x) w p (λ _ w' p', inv (done ++ [x]) w' p')) →
  wpa (each_write ctxErr paths writes f) w p (λ _ w' p', inv writes w' p').
Proof.
  intros Hnil Hskip Hf. apply wpa_each; [done|]. intros done x w1 p1 Hx Hi. apply wpa_bind, wpa_context. unfold shouldApplyConfigWrite.
  destruct (paths !! cw_TargetHostID x) as [path|] eqn:E.
  - rewrite bool_decide_eq_true_2 by done. by eapply Hf.
  - rewrite bool_decide_eq_false_2 by by intros []. apply wpa_ret. by apply Hskip.
Qed.

(** *** The calls that write *)

Lemma moved_same w w' : (∀ q i, peer_state w' q i = peer_state w q i) → moved w w'.
Proof. intros Hs path pid. left. apply Hs. Qed.

Lemma moved_one w w' path pid :
  targeted path pid → (∀ q i, (q, i) ≠ (path, pid) → peer_state w' q i = peer_state w q i) →
  (peer_state w' path pid = peer_state w path pid ∨ state_step (peer_state w path pid) (peer_state w' path pid)) → moved w w'.
Proof.
  intros Ht Ho Hc q i. destruct (decide ((q, i) = (path, pid))) as [[= -> ->]|Hne]; [|left; by apply Ho].
  destruct Hc as [Hc|Hc]; [by left|right]. split; [done|]. by apply rtc_once.
Qed.

Lemma states_true_same w w' m : (∀ q i, peer_state w' q i = peer_state w q i) → states_true w m → states_true w' m.
Proof. intros Hs Hm h path pid s Hp Hk. rewrite Hs. by eapply Hm. Qed.

Lemma states_true_set w w' m h path pid s :
  paths !! h = Some path → (∀ q i, (q, i) ≠ (path, pid) → peer_state w' q i = peer_state w q i) →
  peer_state w' path pid = (if as_exists s then Some (as_migrationState s) else None) → states_true w m → states_true w' (<[(h, pid) := s]> m).
Proof.
  intros Hp Ho Hs Hm h' path' pid' s' Hp' Hk. destruct (decide ((h', pid') = (h, pid))) as [[= -> ->]|Hne].
  - rewrite lookup_insert_eq in Hk. injection Hk as <-. rewrite Hp in Hp'. injection Hp' as <-. done.
  - rewrite lookup_insert_ne in Hk by done. rewrite Ho; [by eapply Hm|]. intros [= -> ->]. apply Hne. f_equal. by eapply Hinj.
Qed.

(** The revision a call answered, on a file it left there. *)
Lemma wpa_revised h path rev w0 w p (Q : () → W → pass → Prop) :
  paths !! h = Some path → revisions_true w0 (ps_revisions p) → dom (ps_revisions p) = dom paths → wrote_at revision_at w0 w path rev →
  (∀ m, revisions_true w m → dom m = dom paths → Q () w (MkPass m (ps_states p))) → wpa (setRevision h rev) w p Q.
Proof.
  intros Hp Hr Hd [Hw1 Hw2] HQ. unfold setRevision. destruct rev as [n|]; cbn [default]; [|by apply wpa_lift].
  unfold default, id. destruct (n =? 0)%Z; [by apply wpa_lift|]. apply wpa_change, HQ.
  - intros h' q n' Hq Hn. destruct (decide (h' = h)) as [->|Hne].
    + rewrite lookup_insert_eq in Hn. injection Hn as <-. rewrite Hp in Hq. injection Hq as <-. done.
    + rewrite lookup_insert_ne in Hn by done. rewrite Hw2; [by eapply Hr|]. intros ->. apply Hne. by eapply Hinj.
  - rewrite dom_insert_L, Hd. apply elem_of_dom_2 in Hp. set_solver.
Qed.

Lemma path_of_eq h path : paths !! h = Some path → path_of paths h = path.
Proof. unfold path_of. by intros ->. Qed.

Lemma known_state p x s : ps_states p !! key_of x = Some s → state_of p x = s.
Proof. unfold state_of. by intros ->. Qed.

Lemma state_of_set r m k s x : state_of (MkPass r (<[k := s]> m)) x = if decide (k = key_of x) then s else state_of (MkPass r m) x.
Proof. unfold state_of. cbn. destruct (decide (k = key_of x)) as [->|]; [by rewrite lookup_insert_eq|by rewrite lookup_insert_ne]. Qed.

(** A pass that found the peers keeps finding them, and keeps what it knows of them. *)
Definition tracking (w : W) (p : pass) : Prop := tracks w p ∧ known p.

Lemma tracking_set w w' p m x path s :
  applied x → paths !! cw_TargetHostID x = Some path → tracking w p → revisions_true w' m → dom m = dom paths →
  (∀ q i, (q, i) ≠ (path, cw_PeerID x) → peer_state w' q i = peer_state w q i) →
  peer_state w' path (cw_PeerID x) = (if as_exists s then Some (as_migrationState s) else None) →
  tracking w' (MkPass m (<[key_of x := s]> (ps_states p))).
Proof.
  intros Ha Hp [Ht Hk] Hr Hd Ho Hs. split; [constructor; cbn; try done|].
  - by eapply states_true_set; [| | |apply Ht].
  - intros k Hin. destruct (decide (k = key_of x)) as [->|Hne]; [by exists x|]. rewrite lookup_insert_ne in Hin by done. by apply Ht.
  - intros y Hy. cbn. destruct (decide (key_of x = key_of y)) as [->|Hne]; [by rewrite lookup_insert_eq|]. rewrite lookup_insert_ne by done. by apply Hk.
Qed.

Lemma tracking_same w w' p m :
  tracking w p → revisions_true w' m → dom m = dom paths → (∀ q i, peer_state w' q i = peer_state w q i) → tracking w' (MkPass m (ps_states p)).
Proof.
  intros [Ht Hk] Hr Hd Hs. split; [constructor; cbn; try done; [|apply Ht]|done]. eapply states_true_same; [done|apply Ht].
Qed.

Lemma applied_targeted x path : applied x → paths !! cw_TargetHostID x = Some path → targeted path (cw_PeerID x).
Proof. intros [Hx _] Hp. by exists x. Qed.

Lemma tracked_state w p x path :
  tracking w p → applied x → paths !! cw_TargetHostID x = Some path →
  peer_state w path (cw_PeerID x) = if as_exists (state_of p x) then Some (as_migrationState (state_of p x)) else None.
Proof. intros [Ht Hk] Hx Hp. destruct (Hk x Hx) as [s Hs]. rewrite (known_state _ _ _ Hs). by eapply Ht. Qed.

Lemma wpa_upsert x path w p :
  applied x → paths !! cw_TargetHostID x = Some path → tracking w p →
  wpa (upsert_peer paths x) w p (λ _ w' p', tracking w' p' ∧ as_exists (state_of p' x) = true ∧
    ∀ y, as_exists (state_of p y) = true → as_exists (state_of p' y) = true).
Proof.
  intros Hx Hp Ht. pose proof (tracked_state _ _ _ _ Ht Hx Hp) as Hst. unfold upsert_peer. apply wpa_bind, wpa_current. rewrite (path_of_eq _ _ Hp). cbv zeta.
  apply wpa_bind, wpa_perform. intros w' r Hop. apply upsert_law in Hop.
  2: { cbn [ur_Peer]. destruct (as_exists (state_of p x)); [left; reflexivity|by right]. }
  destruct Hop as (Ho & Hc & Hok). split.
  { apply (moved_one _ _ path (cw_PeerID x)); [by apply applied_targeted|done|]. destruct Hc as [Hc|[Hc1 Hc2]]; [by left|right]. rewrite Hc1, Hc2. constructor. }
  intros a ->. destruct (Hok a eq_refl) as [Hw Hnew]. apply wpa_bind. eapply wpa_revised; [done|apply Ht|apply Ht|done|]. intros m Hr Hd.
  destruct (as_exists (state_of p x)) eqn:E.
  - apply wpa_ret. split; [|split; [exact E|done]]. apply (tracking_same w); [done..|]. intros q i.
    destruct (decide ((q, i) = (path, cw_PeerID x))) as [[= -> ->]|]; [|by apply Ho]. destruct Hc as [|[Hc _]]; congruence.
  - destruct (Hnew Hst) as [Hloop Huf]. cbn [ur_Peer sshPeerUpsertFields uf_MigrationState] in Huf. injection Huf as Huf. apply wpa_change. cbn [ps_revisions ps_states]. split.
    + apply (tracking_set w _ _ _ _ path); [done..|]. cbn. by rewrite Hloop, Huf.
    + split; [rewrite state_of_set; by rewrite decide_True|]. intros y Hy. rewrite state_of_set. by destruct (decide _).
Qed.

(** What only changes revisions. *)
Definition unmoved (p : pass) (w' : W) (p' : pass) : Prop := tracking w' p' ∧ ps_states p' = ps_states p.

Lemma wpa_patch mutation timestamp x path w p :
  applied x → paths !! cw_TargetHostID x = Some path → tracking w p → wpa (patch_proofs paths mutation timestamp x) w p (λ _, unmoved p).
Proof.
  intros Hx Hp Ht. unfold patch_proofs. apply wpa_bind, wpa_current. apply wpa_bind, wpa_lift. intros acceptKey _. apply wpa_bind, wpa_lift. intros connectKey _.
  rewrite (path_of_eq _ _ Hp). apply wpa_bind, wpa_perform. intros w' r Hop. apply patch_law in Hop as [Hs Hok]. split; [by apply moved_same|]. intros a ->.
  eapply wpa_revised; [done|apply Ht|apply Ht|by apply Hok|]. intros m Hr Hd. split; [|done]. by apply (tracking_same w).
Qed.

Lemma wpa_material mutation h path w p : paths !! h = Some path → tracking w p → wpa (update_material ctxErr paths mutation h) w p (λ _, unmoved p).
Proof.
  intros Hp Ht. unfold update_material. apply wpa_bind, wpa_context. apply wpa_bind, wpa_current. apply wpa_bind, wpa_lift. intros syncKey _.
  apply wpa_bind, wpa_lift. intros known_hosts _. rewrite (path_of_eq _ _ Hp). apply wpa_bind, wpa_perform. intros w' r Hop.
  apply material_law in Hop as [Hs Hok]. split; [by apply moved_same|]. intros a ->.
  eapply wpa_revised; [done|apply Ht|apply Ht|by apply Hok|]. intros m Hr Hd. split; [|done]. by apply (tracking_same w).
Qed.

Definition in_state (states : list string) (p : pass) (x : DirectPairConfigWrite) : Prop :=
  as_exists (state_of p x) = true ∧ as_migrationState (state_of p x) ∈ states.

(** A step of the migration, for any peer whose state is in [states] when it is done. *)
Lemma wpa_transition x path w p from to reason logID states :
  applied x → paths !! cw_TargetHostID x = Some path → tracking w p → as_exists (state_of p x) = true → as_migrationState (state_of p x) = from →
  state_step (Some from) (Some to) → to ∈ states →
  wpa (nextState ← transitionSSHPeer paths x (state_of p x) to reason logID; set_state (key_of x) nextState) w p
    (λ _ w' p', tracking w' p' ∧ in_state states p' x ∧ ∀ y, in_state states p y → in_state states p' y).
Proof.
  intros Hx Hp Ht He Hf Hstep Hin. unfold transitionSSHPeer. apply wpa_bind, wpa_bind, wpa_current. rewrite (path_of_eq _ _ Hp).
  apply wpa_bind, wpa_perform. intros w' r Hop. apply transition_law in Hop as (Ho & Hc & Hok). cbn [tr_FromState tr_ToState] in Hc, Hok. rewrite Hf in Hc. split.
  { apply (moved_one _ _ path (cw_PeerID x)); [by apply applied_targeted|done|]. destruct Hc as [Hc|[Hc1 Hc2]]; [by left|right]. by rewrite Hc1, Hc2. }
  intros a ->. destruct (Hok a eq_refl) as [Hw Hto]. apply wpa_bind. eapply wpa_revised; [done|apply Ht|apply Ht|done|]. intros m Hr Hd.
  apply wpa_ret. apply wpa_change. cbn [ps_revisions ps_states]. split.
  { apply (tracking_set w _ _ _ _ path); [done..|]. cbn. by rewrite He, Hto. }
  assert (Hnew : ∀ y, in_state states (MkPass m (<[key_of x:=MkApplyState (as_exists (state_of p x)) to]> (ps_states p))) y ↔
    key_of x = key_of y ∨ key_of x ≠ key_of y ∧ in_state states p y).
  { intros y. unfold in_state. rewrite state_of_set. destruct (decide (key_of x = key_of y)) as [E|E]; [|naive_solver]. split; [by left|]. by intros _. }
  split; [apply Hnew; by left|]. intros y Hy. apply Hnew. destruct (decide (key_of x = key_of y)); [by left|by right].
Qed.

Lemma wpa_rewritten x w p states :
  applied x → tracking w p → in_state states p x →
  wpa (set_state (key_of x) (state_of p x)) w p (λ _ w' p', tracking w' p' ∧ in_state states p' x ∧ ∀ y, in_state states p y → in_state states p' y).
Proof.
  intros Hx Ht Hs. destruct (proj2 Ht x Hx) as [s E]. unfold set_state. apply wpa_change. rewrite (known_state _ _ _ E), insert_id by done. destruct p. done.
Qed.

Definition staged_states : list string := [MigrationStateSSHMaterialStaged; MigrationStateSSHKeysReady].

Lemma wpa_stage x path logID w p :
  applied x → paths !! cw_TargetHostID x = Some path → tracking w p →
  wpa (advance (stageSSHPeerIfNeeded paths) logID x) w p
    (λ _ w' p', tracking w' p' ∧ in_state staged_states p' x ∧ ∀ y, in_state staged_states p y → in_state staged_states p' y).
Proof.
  intros Hx Hp Ht. unfold advance. apply wpa_bind, wpa_current. unfold stageSSHPeerIfNeeded. destruct (as_exists (state_of p x)) eqn:He; [|apply wpa_bind; by apply wpa_lift].
  cbn [negb]. destruct (bool_decide_reflect (as_migrationState (state_of p x) = MigrationStateLoopbackUnprovisioned)).
  { eapply wpa_transition; [done..|constructor|by left]. }
  destruct (bool_decide_reflect (as_migrationState (state_of p x) = MigrationStateProvisionFailed)).
  { eapply wpa_transition; [done..|constructor|by left]. }
  destruct (bool_decide_reflect (as_migrationState (state_of p x) ∈ [MigrationStateSSHMaterialStaged; MigrationStateSSHKeysReady])); [|apply wpa_bind; by apply wpa_lift].
  apply wpa_bind, wpa_ret. by apply wpa_rewritten.
Qed.

Lemma wpa_ready x path logID w p :
  applied x → paths !! cw_TargetHostID x = Some path → tracking w p →
  wpa (advance (readySSHPeerIfNeeded paths) logID x) w p
    (λ _ w' p', tracking w' p' ∧ in_state [MigrationStateSSHKeysReady] p' x ∧
      ∀ y, in_state [MigrationStateSSHKeysReady] p y → in_state [MigrationStateSSHKeysReady] p' y).
Proof.
  intros Hx Hp Ht. unfold advance. apply wpa_bind, wpa_current. unfold readySSHPeerIfNeeded. destruct (as_exists (state_of p x)) eqn:He; [|apply wpa_bind; by apply wpa_lift].
  cbn [negb]. destruct (bool_decide_reflect (as_migrationState (state_of p x) = MigrationStateSSHMaterialStaged)).
  { eapply wpa_transition; [done..|constructor|by left]. }
  destruct (bool_decide_reflect (as_migrationState (state_of p x) = MigrationStateSSHKeysReady)) as [E|]; [|apply wpa_bind; by apply wpa_lift].
  apply wpa_bind, wpa_ret. apply wpa_rewritten; [done..|]. split; [done|]. rewrite E. by left.
Qed.

(** *** The loops *)

Lemma in_state_frame states p p' y : ps_states p' = ps_states p → in_state states p y → in_state states p' y.
Proof. unfold in_state, state_of. by intros ->. Qed.

Lemma known_frame p p' : ps_states p' = ps_states p → known p → known p'.
Proof. unfold known. by intros ->. Qed.

(** A loop whose body makes [good] hold of the write at hand and keeps it for the others. *)
Lemma wpa_all (good : pass → DirectPairConfigWrite → Prop) (f : DirectPairConfigWrite → app W ()) w p :
  tracking w p →
  (∀ x path w p, applied x → paths !! cw_TargetHostID x = Some path → tracking w p →
    wpa (f x) w p (λ _ w' p', tracking w' p' ∧ good p' x ∧ ∀ y, good p y → good p' y)) →
  wpa (each_write ctxErr paths writes f) w p (λ _ w' p', tracking w' p' ∧ ∀ x, applied x → good p' x).
Proof.
  intros Ht Hf. eapply wpa_mono.
  - apply (wpa_writes (λ done w p, tracking w p ∧ ∀ x, x ∈ done → applied x → good p x)).
    + split; [done|]. intros x Hx. by apply not_elem_of_nil in Hx.
    + intros done x w1 p1 Hx [Ht1 Hd]. split; [done|]. intros y Hy [Hw Hp]. apply elem_of_app in Hy as [Hy| ->%list_elem_of_singleton]; [by apply Hd|].
      rewrite Hx in Hp. by destruct Hp.
    + intros done x path w1 p1 Hx Hp [Ht1 Hd]. eapply wpa_mono; [eapply Hf; [|done..]; by split; [|eexists]|]. intros [] w' p' (Ht' & Hg & Hk). split; [done|].
      intros y Hy Hay. apply elem_of_app in Hy as [Hy| ->%list_elem_of_singleton]; [by apply Hk, Hd|done].
  - intros [] w' p' [Ht' Hd]. split; [done|]. intros x Hx. apply Hd; [apply Hx|done].
Qed.

Lemma sortedMapKeys_elem h : h ∈ sortedMapKeys paths ↔ is_Some (paths !! h).
Proof.
  unfold sortedMapKeys. rewrite (stable_sort_perm String.ltb). rewrite list_elem_of_fmap. split.
  - intros ([k v] & -> & Hkv%elem_of_map_to_list). by exists v.
  - intros [v Hv]. exists (h, v). split; [done|]. by apply elem_of_map_to_list.
Qed.

Lemma wpa_read_states w p :
  tracks w p → ps_states p = ∅ →
  wpa (readPeerApplyStates ctxErr paths writes) w p (λ _ w' p', w' = w ∧ ps_revisions p' = ps_revisions p ∧ tracking w' p').
Proof.
  intros Ht Hempty. eapply wpa_mono.
  - apply (wpa_writes (λ done w' p', w' = w ∧ ps_revisions p' = ps_revisions p ∧ tracks w' p' ∧ ∀ x, x ∈ done → applied x → is_Some (ps_states p' !! key_of x))).
    + split_and!; [done..|]. intros x Hx. by apply not_elem_of_nil in Hx.
    + intros done x w1 p1 Hx (-> & Hr & Ht1 & Hd). split_and!; [done..|]. intros y Hy [Hw Hp].
      apply elem_of_app in Hy as [Hy| ->%list_elem_of_singleton]; [by apply Hd|]. rewrite Hx in Hp. by destruct Hp.
    + intros done x path w1 p1 Hx Hp (-> & Hr & Ht1 & Hd). unfold read_state. apply wpa_bind, wpa_current.
      assert (Hgrow : ∀ s, peer_state w path (cw_PeerID x) = (if as_exists s then Some (as_migrationState s) else None) →
        wpa (set_state (key_of x) s) w p1 (λ _ w' p', w' = w ∧ ps_revisions p' = ps_revisions p ∧ tracks w' p' ∧
          ∀ y, y ∈ done ++ [x] → applied y → is_Some (ps_states p' !! key_of y))).
      { intros s Hs. apply wpa_change. split_and!; [done|done| |].
        - constructor; cbn; [|apply Ht1..|].
          + by eapply states_true_set; [| | |apply Ht1].
          + intros k Hk. destruct (decide (k = key_of x)) as [->|Hne]; [exists x; by split; [split; [|eexists]|]|]. rewrite lookup_insert_ne in Hk by done. by apply Ht1.
        - intros y Hy Hay. cbn. destruct (decide (key_of y = key_of x)) as [->|Hne]; [by rewrite lookup_insert_eq|]. rewrite lookup_insert_ne by done.
          apply elem_of_app in Hy as [Hy| ->%list_elem_of_singleton]; [by apply Hd|done]. }
      destruct (ps_states p1 !! key_of x) as [s|] eqn:E.
      { apply wpa_ret. split_and!; [done..|]. intros y Hy Hay. apply elem_of_app in Hy as [Hy| ->%list_elem_of_singleton]; [by apply Hd|by eexists]. }
      unfold wpa. cbn [fst snd]. rewrite (path_of_eq _ _ Hp). destruct (op_ReadSSHPeer path (cw_PeerID x) w) as [w' r] eqn:Hop.
      apply read_peer_law in Hop as (-> & Hnone & Hsome). destruct r as [result|e].
      * unfold mbind, app_bind, app_lift. destruct (migrationStateFromSSHPeerReadResult result) as [state|] eqn:Es; [|by split].
        apply (Hgrow (MkApplyState true state)). cbn. by eapply Hsome.
      * destruct (bool_decide_reflect (e = "ssh_peer_not_found")) as [->|]; [|by split]. apply (Hgrow no_peer). cbn. by apply Hnone.
  - intros [] w' p' (-> & Hr & Ht' & Hd). do 3 (split; [done|]). intros x Hx. apply Hd; [apply Hx|done].
Qed.

(** The first phase, from the revisions read. *)
Lemma wpa_stage_phase mutation timestamp logID w p :
  mu_Writes mutation = writes → tracks w p → ps_states p = ∅ →
  wpa (stage_phase ctxErr paths mutation timestamp logID) w p (λ _ w' p', tracking w' p' ∧ ∀ x, applied x → in_state staged_states p' x).
Proof.
  intros Hw Ht He. unfold stage_phase. rewrite Hw. apply wpa_bind. eapply wpa_mono; [by apply wpa_read_states|]. intros [] w1 p1 (-> & _ & Ht1).
  apply wpa_bind. unfold validateStagePeerApplyStates. apply wpa_bind, wpa_current, wpa_lift. intros [] _. apply wpa_bind.
  eapply wpa_mono.
  { apply (wpa_each (λ _ w' p', tracking w' p')); [done|]. intros done h w2 p2 [path Hp]%sortedMapKeys_elem Ht2. eapply wpa_mono; [by eapply wpa_material|].
    by intros [] w' p' [? _]. }
  intros [] w2 p2 Ht2. apply wpa_bind. eapply wpa_mono.
  { apply (wpa_all (λ p x, as_exists (state_of p x) = true)); [done|]. intros. by eapply wpa_upsert. }
  intros [] w3 p3 [Ht3 _]. apply wpa_bind. eapply wpa_mono.
  { apply (wpa_all (λ _ _, True)); [done|]. intros x path w' p' Hx Hp Ht'. eapply wpa_mono; [by eapply wpa_patch|]. intros [] w5 p5 [Ht5 _]. by split_and!. }
  intros [] w4 p4 [Ht4 _]. apply wpa_all; [done|]. intros. by eapply wpa_stage.
Qed.

Lemma wpa_ready_loop logID w p :
  tracking w p →
  wpa (each_write ctxErr paths writes (advance (readySSHPeerIfNeeded paths) logID)) w p
    (λ _ w' p', tracking w' p' ∧ ∀ x, applied x → in_state [MigrationStateSSHKeysReady] p' x).
Proof. intros Ht. apply wpa_all; [done|]. intros. by eapply wpa_ready. Qed.

(** Both phases, as far as the pass goes. *)
Lemma wpa_phases mutation timestamp logID stage ready ph w p :
  mu_Writes mutation = writes → tracks w p → ps_states p = ∅ → appliesStage ph = stage → appliesReady ph = ready →
  wpa (_ ← (if stage then stage_phase ctxErr paths mutation timestamp logID else mret ());
       if ready then ready_phase ctxErr paths mutation ph logID else mret ()) w p
    (λ _ w' p', (stage = true → ready = false → ∀ x, applied x → tracking w' p' ∧ in_state staged_states p' x) ∧
       (ready = true → ∀ x, applied x → tracking w' p' ∧ in_state [MigrationStateSSHKeysReady] p' x)).
Proof.
  intros Hw Ht He Hs Hr. apply wpa_bind. destruct stage.
  - eapply wpa_mono; [by apply wpa_stage_phase|]. intros [] w1 p1 [Ht1 Hst]. destruct ready; [|apply wpa_ret; by split; [intros _ _ x Hx; split; [|apply Hst]|]].
    unfold ready_phase. rewrite Hs, Hw. apply wpa_bind, wpa_ret. eapply wpa_mono; [by apply wpa_ready_loop|]. intros [] w2 p2 [Ht2 Hd]. split; [done|]. intros _ x Hx. split; [done|by apply Hd].
  - apply wpa_ret. destruct ready; [|by apply wpa_ret]. unfold ready_phase. rewrite Hs, Hw. apply wpa_bind. eapply wpa_mono; [by apply wpa_read_states|].
    intros [] w1 p1 (-> & _ & Ht1). eapply wpa_mono; [by apply wpa_ready_loop|]. intros [] w2 p2 [Ht2 Hd]. split; [done|]. intros _ x Hx. split; [done|by apply Hd].
Qed.

(** *** The revisions read *)

Lemma read_revision_run h path w p w' p' r :
  paths !! h = Some path → read_revision paths h (w, p) = ((w', p'), r) →
  ps_states p' = ps_states p ∧ (revision_at w path ≠ None → w' = w) ∧
  (r = Ok () → revisions_true w (ps_revisions p) → revisions_true w' (ps_revisions p') ∧ dom (ps_revisions p') = {[h]} ∪ dom (ps_revisions p)).
Proof.
  intros Hp. unfold read_revision. rewrite (path_of_eq _ _ Hp). unfold mbind, app_bind, perform. cbn [fst snd].
  destruct (op_ReadConfigRevision path w) as [w1 [status|e]] eqn:Hop; apply read_revision_law in Hop as [-> Hv]; [|by intros [= <- <- <-]].
  specialize (Hv status eq_refl).
  assert (Hset : ∀ w2 s2, wrote_at revision_at w w2 path (versioned s2) → ∀ w' p' r,
    match versioned s2 with Some n => change (λ p, MkPass (<[h:=n]> (ps_revisions p)) (ps_states p)) | None => app_lift (Err ErrConfigRevisionConflict) end (w2, p) = ((w', p'), r) →
    ps_states p' = ps_states p ∧ w' = w2 ∧
    (r = Ok () → revisions_true w (ps_revisions p) → revisions_true w' (ps_revisions p') ∧ dom (ps_revisions p') = {[h]} ∪ dom (ps_revisions p))).
  { intros w2 s2 [Hw1 Hw2] w3 p3 r3. destruct (versioned s2) as [n|]; [|by intros [= <- <- <-]]. intros [= <- <- <-]. split; [done|]. split; [done|]. intros _ Hr.
    split; [|cbn [ps_revisions]; by rewrite dom_insert_L]. intros h' q n' Hq Hn. cbn in Hn. destruct (decide (h' = h)) as [->|Hne].
    - rewrite lookup_insert_eq in Hn. injection Hn as <-. rewrite Hp in Hq. injection Hq as <-. done.
    - rewrite lookup_insert_ne in Hn by done. rewrite Hw2; [by eapply Hr|]. intros ->. apply Hne. by eapply Hinj. }
  destruct (versioned status) as [n|] eqn:En.
  - cbn [mret app_ret]. intros Hrun. destruct (Hset w status) with (2 := Hrun) as (H1 & H2 & H3); [by rewrite En|by split_and!].
  - cbn [fst snd]. destruct (op_EnsureConfigV2Revision path status w) as [w2 [status2|e]] eqn:Hop; [|intros [= <- <- <-]; by rewrite Hv].
    intros Hrun. destruct (Hset w2 status2) with (2 := Hrun) as (H1 & H2 & H3); [by eapply ensure_law|]. split; [done|]. split; [by rewrite Hv|done].
Qed.

Lemma read_revisions_run hosts w p w' p' r :
  (∀ h, h ∈ hosts → is_Some (paths !! h)) → app_each hosts (read_revision paths) (w, p) = ((w', p'), r) →
  ps_states p' = ps_states p ∧ ((∀ h path, paths !! h = Some path → revision_at w path ≠ None) → w' = w) ∧
  (r = Ok () → revisions_true w (ps_revisions p) → revisions_true w' (ps_revisions p') ∧ dom (ps_revisions p') = list_to_set hosts ∪ dom (ps_revisions p)).
Proof.
  revert w p. induction hosts as [|h hosts IH]; intros w p Hh; cbn [app_each].
  - intros [= <- <- <-]. split; [done|]. split; [done|]. intros _ Hr. split; [done|]. set_solver.
  - destruct (Hh h) as [path Hp]; [by left|]. unfold mbind, app_bind. destruct (read_revision paths h (w, p)) as [[w1 p1] r1] eqn:E1.
    apply (read_revision_run h path) in E1 as (S1 & W1 & R1); [|done]. destruct r1 as [[]|e].
    + intros Hrun. apply IH in Hrun as (S2 & W2 & R2); [|intros; apply Hh; by right]. split; [congruence|]. split.
      * intros Hv. rewrite W2; rewrite W1; eauto.
      * intros Hr Ht. destruct (R1 eq_refl Ht) as [T1 D1]. destruct (R2 Hr T1) as [T2 D2]. split; [done|]. rewrite D2, D1. set_solver.
    + intros [= <- <- <-]. split; [done|]. split; [eauto|discriminate].
Qed.

Lemma readRevisions_run w w' p' r :
  readRevisions paths (w, MkPass ∅ ∅) = ((w', p'), r) →
  ps_states p' = ∅ ∧ ((∀ h path, paths !! h = Some path → revision_at w path ≠ None) → w' = w) ∧ (r = Ok () → tracks w' p').
Proof.
  intros (Hs & Hw & Hr)%read_revisions_run; [|intros h; by rewrite sortedMapKeys_elem]. split; [done|]. split; [done|]. intros ->.
  destruct (Hr eq_refl) as [Ht Hd]; [done|]. constructor; [by rewrite Hs|done| |rewrite Hs; by intros k [? ?]].
  rewrite Hd. cbn. apply set_eq. intros h. rewrite dom_empty_L, union_empty_r_L, elem_of_list_to_set, sortedMapKeys_elem. by rewrite elem_of_dom.
Qed.

(** *** A whole pass *)

Lemma apply_run a mutation w s r :
  configPaths a mutation = Ok paths → mu_Writes mutation = writes → apply_pass ctxErr range a mutation (w, MkPass ∅ ∅) = (s, r) →
  ∃ w1, ((∀ h path, paths !! h = Some path → revision_at w path ≠ None) → w1 = w) ∧ moved w1 s.1 ∧
    (r = Ok () → (appliesStage (phase a) = true → appliesReady (phase a) = false → ∀ x, applied x → tracking s.1 s.2 ∧ in_state staged_states s.2 x) ∧
       (appliesReady (phase a) = true → ∀ x, applied x → tracking s.1 s.2 ∧ in_state [MigrationStateSSHKeysReady] s.2 x)).
Proof.
  intros Hp Hw. unfold apply_pass. rewrite Hp. unfold mbind at 1, app_bind at 1, check_context. cbn [fst]. destruct (ctxErr w) as [e|]; [intros [= <- <-]; by exists w|].
  unfold mbind at 1, app_bind at 1, app_lift at 1. unfold mbind at 1, app_bind at 1, app_lift at 1.
  destruct (validateDirectPairConfigMutationForApply range mutation paths (phase a)) as [[]|e]; [|intros [= <- <-]; by exists w].
  unfold mbind at 1, app_bind at 1. destruct (readRevisions paths (w, MkPass ∅ ∅)) as [[w1 p1] r1] eqn:E. apply readRevisions_run in E as (Hs & Hsame & Ht).
  destruct r1 as [[]|e]; [|intros [= <- <-]; by exists w1]. specialize (Ht eq_refl). intros Hrun. exists w1. split; [done|].
  pose proof (wpa_phases mutation (ca_Now a) (ca_LogID a mutation) _ _ (phase a) w1 p1 Hw Ht Hs eq_refl eq_refl) as H1. unfold wpa in H1. cbv zeta in Hrun.
  rewrite Hrun in H1. destruct s as [w2 p2]. destruct H1 as [Hm Hok]. split; [done|]. intros ->. by apply (Hok ()).
Qed.
End client.

(** The applicator of one phase or of both. *)
Definition with_phase (a : DirectPairConfigApplicator) (ph : string) : DirectPairConfigApplicator :=
  MkApplicator (ca_ConfigPathByHostID a) (ca_TargetHostIDs a) ph (ca_Now a) (ca_LogID a).

(** No two hosts have one file. *)
Definition own_files (paths : gmap string string) : Prop := ∀ h h' path, paths !! h = Some path → paths !! h' = Some path → h = h'.

Section theorems.
Context {W : Type} `{ConfigOpsLaws W} (ctxErr : W → option string) (range : gmap string string → list string).

(** A pass that succeeds has done its work. *)
Lemma pass_ready a mutation paths w w' write path
    (Hpaths : configPaths a mutation = Ok paths) (Hown : own_files paths) (Hrun : Apply ctxErr range a mutation w = (w', Ok ()))
    (Hwrite : write ∈ mu_Writes mutation) (Hpath : paths !! cw_TargetHostID write = Some path) :
  ∃ state, peer_state w' path (cw_PeerID write) = Some state ∧ state ∈ staged_states ∧
    (appliesReady (phase a) = true → state = MigrationStateSSHKeysReady).
Proof.
  unfold Apply in Hrun. destruct (apply_pass ctxErr range a mutation (w, MkPass ∅ ∅)) as [s r] eqn:E. injection Hrun as <- ->.
  eapply apply_run in E as (w1 & _ & _ & Hok); [|done..]. destruct (Hok eq_refl) as [H1 H2].
  assert (Hx : applied paths (mu_Writes mutation) write) by (split; [done|by eexists]).
  assert (Hst : tracking paths (mu_Writes mutation) s.1 s.2 ∧ in_state staged_states s.2 write ∧
    (appliesReady (phase a) = true → as_migrationState (state_of s.2 write) = MigrationStateSSHKeysReady)).
  { destruct (appliesReady (phase a)) eqn:Er.
    - destruct (H2 eq_refl write Hx) as [Ht [He Hin%list_elem_of_singleton]]. split; [done|]. split; [|done]. split; [done|]. rewrite Hin. unfold staged_states. set_solver.
    - assert (Es : appliesStage (phase a) = true); [|by destruct (H1 Es eq_refl write Hx)].
      revert Er. unfold phase. destruct (bool_decide_reflect (ca_Phase a ∈ [DirectPairConfigApplyStage; DirectPairConfigApplyReady])) as [[->| ->%list_elem_of_singleton]%elem_of_cons|]; by vm_compute. }
  destruct Hst as (Ht & [He Hin] & Hr). exists (as_migrationState (state_of s.2 write)). split; [|done]. rewrite (tracked_state _ _ _ _ _ _ Ht Hx Hpath), He. done.
Qed.

(** A pass only moves peers forward, whatever fails. *)
Lemma pass_moves a mutation paths w w' r
    (Hpaths : configPaths a mutation = Ok paths) (Hown : own_files paths) (Hrun : Apply ctxErr range a mutation w = (w', r))
    (Hrev : ∀ h path, paths !! h = Some path → revision_at w path ≠ None) :
  ∀ path pid, peer_state w' path pid = peer_state w path pid ∨
    (∃ write, write ∈ mu_Writes mutation ∧ paths !! cw_TargetHostID write = Some path ∧ cw_PeerID write = pid) ∧
    rtc state_step (peer_state w path pid) (peer_state w' path pid).
Proof.
  unfold Apply in Hrun. destruct (apply_pass ctxErr range a mutation (w, MkPass ∅ ∅)) as [s r0] eqn:E. injection Hrun as <- ->.
  eapply apply_run in E as (w1 & Hsame & Hm & _); [|done..]. rewrite (Hsame Hrev) in Hm. exact Hm.
Qed.

(** What a pass that succeeds did. *)
Lemma apply_Ok a mutation paths w w' :
  configPaths a mutation = Ok paths →
  Apply ctxErr range a mutation w = (w', Ok ()) ↔
  ctxErr w = None ∧ validateDirectPairConfigMutationForApply range mutation paths (phase a) = Ok () ∧
  ∃ s1 s2 p', readRevisions paths (w, MkPass ∅ ∅) = (s1, Ok ()) ∧
    (if appliesStage (phase a) then stage_phase ctxErr paths mutation (ca_Now a) (ca_LogID a mutation) s1 else (s1, Ok ())) = (s2, Ok ()) ∧
    (if appliesReady (phase a) then ready_phase ctxErr paths mutation (phase a) (ca_LogID a mutation) s2 else (s2, Ok ())) = ((w', p'), Ok ()).
Proof.
  intros Hp. unfold Apply, apply_pass. rewrite Hp. unfold mbind, app_bind, app_lift, check_context. cbn [fst]. destruct (ctxErr w) as [e|]; [naive_solver|].
  destruct (validateDirectPairConfigMutationForApply range mutation paths (phase a)) as [[]|e]; [|naive_solver].
  destruct (readRevisions paths (w, MkPass ∅ ∅)) as [s1 [[]|e]]; [|naive_solver]. cbv zeta. unfold mret, app_ret.
  assert (Hif : ∀ (b : bool) (m n : app W ()) s, (if b then m else n) s = if b then m s else n s) by by intros [].
  rewrite Hif. destruct (if appliesStage (phase a) then _ else _) as [s2 [[]|e]] eqn:E2.
  - rewrite Hif. destruct (if appliesReady (phase a) then _ else _) as [[w3 p3] r3] eqn:E3. split.
    + intros [= <- ->]. split; [done|]. split; [done|]. by exists s1, s2, p3.
    + intros (_ & _ & s1' & s2' & p' & [= <-] & H2 & H3). rewrite E2 in H2. injection H2 as <-. rewrite E3 in H3. by injection H3 as <- <- ->.
  - split; [by intros [= _ ?]|]. intros (_ & _ & s1' & s2' & p' & [= <-] & H2 & _). by rewrite E2 in H2.
Qed.

(** The maps of two passes that found the same files are the same. *)
Lemma tracking_same_states paths writes w p p' :
  tracking paths writes w p → tracking paths writes w p' → (∀ x, applied paths writes x → as_exists (state_of p x) = true) → ps_states p' = ps_states p.
Proof.
  intros [Ht Hk] [Ht' Hk'] He. apply map_eq. intros k. destruct (ps_states p !! k) as [s|] eqn:E.
  - destruct (tr_keys _ _ _ _ Ht k) as (x & Hx & <-); [by eexists|]. destruct (Hk' x Hx) as [s' E']. rewrite E'. f_equal.
    destruct Hx as [Hin [path Hpath]]. specialize (He x). rewrite (known_state _ _ _ E) in He. pose proof (tr_states _ _ _ _ Ht _ _ _ _ Hpath E) as H1.
    pose proof (tr_states _ _ _ _ Ht' _ _ _ _ Hpath E') as H2. rewrite H1, He in H2 by (split; [done|by eexists]). destruct s as [b m], s' as [b' m']. cbn in *.
    destruct b'; [|done]. injection H2 as <-. rewrite He; [done|]. split; [done|by eexists].
  - destruct (ps_states p' !! k) as [s'|] eqn:E'; [|done]. destruct (tr_keys _ _ _ _ Ht' k) as (x & Hx & <-); [by eexists|]. destruct (Hk x Hx) as [s E1]. congruence.
Qed.

Lemma tracks_same_revisions paths writes w p p' :
  tracks paths writes w p → tracks paths writes w p' → ps_revisions p' = ps_revisions p.
Proof.
  intros Ht Ht'. apply map_eq. intros h. destruct (paths !! h) as [path|] eqn:Hp.
  - assert (is_Some (ps_revisions p !! h)) as [r E] by (apply elem_of_dom; rewrite (tr_hosts _ _ _ _ Ht); by eapply elem_of_dom_2).
    assert (is_Some (ps_revisions p' !! h)) as [r' E'] by (apply elem_of_dom; rewrite (tr_hosts _ _ _ _ Ht'); by eapply elem_of_dom_2).
    pose proof (tr_revisions _ _ _ _ Ht _ _ _ Hp E). pose proof (tr_revisions _ _ _ _ Ht' _ _ _ Hp E'). congruence.
  - assert (Hn : ∀ q, dom (ps_revisions q) = dom paths → ps_revisions q !! h = None) by (intros q Hq; apply not_elem_of_dom; rewrite Hq; by apply not_elem_of_dom).
    rewrite !Hn; [done|apply Ht|apply Ht'].
Qed.

(** Two passes for the phases do what one does. *)
Lemma passes_compose a mutation paths w w1 w2
    (Hpaths : configPaths a mutation = Ok paths) (Hown : own_files paths) (Hctx : ∀ w, ctxErr w = None)
    (Hstage : Apply ctxErr range (with_phase a DirectPairConfigApplyStage) mutation w = (w1, Ok ()))
    (Hready : Apply ctxErr range (with_phase a DirectPairConfigApplyReady) mutation w1 = (w2, Ok ())) :
  Apply ctxErr range (with_phase a DirectPairConfigApplyAll) mutation w = (w2, Ok ()).
Proof.
  apply (apply_Ok _ _ paths) in Hstage as (Hc & Hval & [w0 p0] & [w1' p1] & p1' & Hread & Hst & Hend); [|done]. change (appliesStage _) with true in Hst. cbv iota in Hst.
  change (appliesReady _) with false in Hend. injection Hend as -> <-.
  apply (apply_Ok _ _ paths) in Hready as (_ & _ & [w3 p3] & s2 & p2 & Hread2 & Hno & Hloop); [|done]. change (appliesStage _) with false in Hno. injection Hno as <-.
  change (appliesReady _) with true in Hloop. cbv iota in Hloop. change (phase _) with DirectPairConfigApplyReady in Hloop.
  pose proof Hread as (Hs0 & _ & Ht0)%(readRevisions_run ctxErr range paths (mu_Writes mutation) Hown). specialize (Ht0 eq_refl).
  pose proof (wpa_stage_phase ctxErr range paths (mu_Writes mutation) Hown mutation (ca_Now a) (ca_LogID a mutation) w0 p0 eq_refl Ht0 Hs0) as H1. unfold wpa in H1.
  cbn [with_phase ca_Now ca_LogID] in Hst. rewrite Hst in H1. destruct H1 as [_ H1]. destruct (H1 () eq_refl) as [Ht1 Hin].
  pose proof Hread2 as (Hs3 & Hsame & Ht3)%(readRevisions_run ctxErr range paths (mu_Writes mutation) Hown). specialize (Ht3 eq_refl).
  assert (w3 = w1) as ->.
  { apply Hsame. intros h path Hp. assert (is_Some (ps_revisions p1 !! h)) as [n Hn] by (apply elem_of_dom; rewrite (tr_hosts _ _ _ _ (proj1 Ht1)); by eapply elem_of_dom_2).
    by rewrite (tr_revisions _ _ _ _ (proj1 Ht1) _ _ _ Hp Hn). }
  unfold ready_phase in Hloop. change (appliesStage _) with false in Hloop. cbv iota in Hloop. unfold mbind, app_bind in Hloop.
  pose proof (wpa_read_states ctxErr range paths (mu_Writes mutation) Hown w1 p3 Ht3 Hs3) as H2. unfold wpa in H2.
  destruct (readPeerApplyStates ctxErr paths (mu_Writes mutation) (w1, p3)) as [[w4 p4] [[]|e]]; [|discriminate Hloop].
  destruct H2 as [_ H2]. destruct (H2 () eq_refl) as (-> & Hr4 & Ht4).
  assert (p4 = p1) as ->.
  { pose proof (tracking_same_states _ _ _ _ _ Ht1 Ht4 (λ x Hx, proj1 (Hin x Hx))) as Hs4. pose proof (tracks_same_revisions _ _ _ _ _ (proj1 Ht1) (proj1 Ht4)) as Hr5.
    destruct p1, p4; cbn in *; congruence. }
  apply (apply_Ok _ _ paths); [done|]. split; [apply Hctx|]. split; [exact Hval|]. exists (w0, p0), (w1, p1), p2. split; [exact Hread|].
  change (appliesStage _) with true. change (appliesReady _) with true. cbv iota. split; [exact Hst|]. exact Hloop.
Qed.
End theorems.
