(* ===== verification/ApplyFiles.v ===== *)
(** * The operations an applicator works with: defaultDirectPairConfigOps

    The instance of [ConfigOps] that sshprovision/config_applicator.go falls back to: the
    operations of config/ on the configuration files of the hosts.  A file is its text
    here, and an update reads it, changes it and writes it back; that this is what the
    locked and atomic operations on files come to, under any failing calls, is
    [ConfigFile].  The laws of the interface hold of it, whatever the texts. *)
From S2P Require Import Prelude GoStrings Encoding NetIP Paths Hostnames Config Clip Session SSHConfig Words KnownHosts AuthorizedKeys SSHCommand Pairing.
From S2P Require Import Json RawJson ConfigDoc Redact PeerRequests PeerConfig Applicator.
From Stdlib Require Import Ascii String.
From stdpp Require Import strings relations.

#[local] Arguments String.append !_ _ / : simpl nomatch.

(** ** The operations *)

(** The texts of the files, by path. *)
Notation files := (gmap string string).

Section ops.
(** [marshal]: json.MarshalIndent, which may refuse what is not JSON. *)
Context (homeDir : option string) (gate : bool) (marshal : raw_object → result string string).

Definition reading {A} (path : string) (read : string → result string A) : files → files * result string A := λ w,
  (w, match w !! path with Some data => read data | None => Err "open" end).

(** [answer] is what the caller is told of a successful update. *)
Definition writing {A B} (path : string) (update : string → result string (raw_object * A)) (answer : A → B) : files → files * result string B := λ w,
  match w !! path with
  | None => (w, Err "open")
  | Some data =>
      match ('(out, a) ← update data; text ← marshal out; Ok (text, a)) with
      | Ok (text, a) => (<[path := text]> w, Ok (answer a))
      | Err e => (w, Err e)
      end
  end.

Definition read_peer (data peerID : string) : result string SSHPeerConfigReadResult :=
  '(peer, version, revision, state) ← PeerConfig.ReadSSHPeer homeDir data peerID; Ok (MkReadResult peer revision state version).

Definition pack {A B} (r : result string (raw_object * A * B)) : result string (raw_object * (A * B)) := '(out, a, b) ← r; Ok (out, (a, b)).

(** What is answered of a peer written. *)
Definition written_peer (answer : raw_object * Z) : SSHPeerConfigReadResult := MkReadResult answer.1 (Some answer.2) RevisionStateVersioned (Some 2%Z).

Definition written_status (revision : Z) : RevisionStatus := MkStatus (Some 2%Z) (Some revision) RevisionStateVersioned.

Definition ensure_revision (path : string) (observed : RevisionStatus) : files → files * result string RevisionStatus := λ w,
  if negb (bool_decide (versioned observed = None)) then (w, Ok observed)
  else
    match w !! path with
    | None => (w, Err "open")
    | Some data =>
        match (o ← ensureConfigV2RevisionWithGate homeDir gate data observed; match o with Some out => text ← marshal out; Ok (Some text) | None => Ok None end) with
        | Ok (Some text) => reading path (ReadConfigRevision homeDir) (<[path := text]> w)
        | Ok None => (w, Ok observed)
        | Err e => (w, Err e)
        end
    end.

Definition defaultDirectPairConfigOps : ConfigOps files := {|
  op_ReadConfigRevision path := reading path (ReadConfigRevision homeDir);
  op_EnsureConfigV2Revision := ensure_revision;
  op_UpdateSSHLocalMaterial path req := writing path (λ data, updateSSHLocalMaterialWithGate homeDir gate data req) written_status;
  op_ReadSSHPeer path peerID := reading path (λ data, read_peer data peerID);
  op_UpsertSSHPeer path peerID req := writing path (λ data, pack (upsertSSHPeerWithGate homeDir gate data peerID req)) written_peer;
  op_PatchSSHPeerProof path peerID req := writing path (λ data, pack (patchSSHPeerProofWithGate homeDir gate data peerID req)) written_peer;
  op_TransitionSSHPeer path peerID req := writing path (λ data, pack (transitionSSHPeerWithGate homeDir gate data peerID req)) written_peer;
|}.
End ops.

(** ** What is seen of a file *)

Definition raw_text (data : string) : option raw_object := parse data ≫= λ v, unmarshal_object v ≫= id.

Definition shown_state (peer : raw_object) : option string :=
  match migrationStateFromSSHPeerReadResult (MkReadResult (redactRawPeer peer) None "" None) with Ok state => Some state | Err _ => None end.

Definition raw_state (raw : raw_object) (peerID : string) : option string :=
  match rawSSHPeerByID raw peerID with Ok (peer, _) => shown_state peer | Err _ => None end.

(** The revision of a versioned document. *)
Definition raw_revision (raw : raw_object) : option Z :=
  match raw !! "config_version", raw !! "config_revision" with
  | Some _, Some v => match parseJSONUint v "" with Ok n => if (n =? 0)%Z then None else Some n | Err _ => None end
  | _, _ => None
  end.

Definition file_text (w : files) (path : string) : option raw_object := match w !! path with Some data => raw_text data | None => None end.

Definition file_state (w : files) (path peerID : string) : option string := match file_text w path with Some raw => raw_state raw peerID | None => None end.

Definition file_revision (w : files) (path : string) : option Z := match file_text w path with Some raw => raw_revision raw | None => None end.

(** ** Peers found *)

Lemma find_replaced peers i peer peer' peerID other :
  peers !! i = Some peer → rawPeerID peer = Ok peerID → rawPeerID peer' = Ok peerID →
  findRawPeerForUpdate (<[i := peer']> peers) other =
  (found ← findRawPeerForUpdate peers other; Ok (match found with Some (j, p) => Some (j, if decide (j = i) then peer' else p) | None => None end)).
Proof.
  revert i. induction peers as [|p peers IH]; [done|]. intros [|i] Hi Hp Hp'.
  - injection Hi as ->. change (<[0:=peer']> (peer :: peers)) with (peer' :: peers). cbn [findRawPeerForUpdate]. rewrite Hp, Hp'. cbn [mbind result_bind].
    destruct (bool_decide (peerID = other)); cbn [mbind result_bind]; [by rewrite decide_True|]. destruct (findRawPeerForUpdate peers other) as [[[j q]|]|]; done.
  - change (<[S i:=peer']> (p :: peers)) with (p :: <[i:=peer']> peers). cbn [findRawPeerForUpdate]. destruct (rawPeerID p) as [pid|e]; [|done]. cbn [mbind result_bind].
    destruct (bool_decide (pid = other)); [done|]. rewrite (IH i Hi Hp Hp'). destruct (findRawPeerForUpdate peers other) as [[[j q]|]|]; [|done..].
    cbn [mbind result_bind]. destruct (decide (j = i)) as [->|]; [by rewrite decide_True|by rewrite decide_False by lia].
Qed.

Lemma find_added peers peer' peerID other :
  rawPeerID peer' = Ok peerID → findRawPeerForUpdate peers peerID = Ok None →
  findRawPeerForUpdate (peers ++ [peer']) other =
  (found ← findRawPeerForUpdate peers other; Ok (match found with Some f => Some f | None => if decide (other = peerID) then Some (length peers, peer') else None end)).
Proof.
  intros Hp. induction peers as [|p peers IH]; cbn [findRawPeerForUpdate app length].
  - intros _. rewrite Hp. cbn [mbind result_bind]. destruct (decide (other = peerID)) as [->|]; [by rewrite bool_decide_eq_true_2|by rewrite bool_decide_eq_false_2].
  - intros (pid & Hpid & H)%bind_Ok. rewrite Hpid. cbn [mbind result_bind]. destruct (bool_decide_reflect (pid = peerID)); [done|].
    apply bind_Ok in H as (found & Hf & H). destruct found as [[]|]; [done|]. destruct (bool_decide (pid = other)); [done|]. rewrite (IH Hf).
    destruct (findRawPeerForUpdate peers other) as [[[j q]|]|]; [done| |done]. cbn [mbind result_bind]. by destruct (decide (other = peerID)).
Qed.

Lemma raw_state_peers raw s peers peerID :
  rawSSHPeers raw = Ok (s, peers) →
  raw_state raw peerID = match findRawPeerForUpdate peers peerID with Ok (Some (_, peer)) => shown_state peer | _ => None end.
Proof. intros Hr. unfold raw_state, rawSSHPeerByID. rewrite Hr. cbn [mbind result_bind]. by destruct (findRawPeerForUpdate peers peerID) as [[[]|]|]. Qed.

(** One peer replaced. *)
Lemma raw_state_replaced raw s out s' peers i peer peer' peerID :
  rawSSHPeers raw = Ok (s, peers) → findRawPeerForUpdate peers peerID = Ok (Some (i, peer)) → rawPeerID peer' = Ok peerID →
  rawSSHPeers out = Ok (s', <[i := peer']> peers) →
  raw_state raw peerID = shown_state peer ∧ raw_state out peerID = shown_state peer' ∧ ∀ other, other ≠ peerID → raw_state out other = raw_state raw other.
Proof.
  intros Hr Hf Hp' Hr'. destruct (find_Ok _ _ _ _ Hf) as (Hi & Hp & _). pose proof (find_replaced peers i peer peer' peerID) as Hrep. split.
  { by rewrite (raw_state_peers _ _ _ _ Hr), Hf. }
  split. { rewrite (raw_state_peers _ _ _ _ Hr'), Hrep, Hf by done. cbn [mbind result_bind]. by rewrite decide_True. }
  intros other Hne. rewrite (raw_state_peers _ _ _ _ Hr), (raw_state_peers _ _ _ _ Hr'), Hrep by done.
  destruct (findRawPeerForUpdate peers other) as [[[j q]|]|] eqn:E; [|done..]. cbn [mbind result_bind]. destruct (decide (j = i)) as [->|]; [|done].
  apply find_Ok in E as (Hi' & Hq & _). congruence.
Qed.

(** One peer added. *)
Lemma raw_state_added raw s out s' peers peer' peerID :
  rawSSHPeers raw = Ok (s, peers) → findRawPeerForUpdate peers peerID = Ok None → rawPeerID peer' = Ok peerID → rawSSHPeers out = Ok (s', peers ++ [peer']) →
  raw_state raw peerID = None ∧ raw_state out peerID = shown_state peer' ∧ ∀ other, other ≠ peerID → raw_state out other = raw_state raw other.
Proof.
  intros Hr Hf Hp' Hr'. split; [by rewrite (raw_state_peers _ _ _ _ Hr), Hf|]. pose proof (find_added peers peer' peerID) as Hadd. split.
  { rewrite (raw_state_peers _ _ _ _ Hr'), Hadd, Hf by done. cbn [mbind result_bind]. by rewrite decide_True. }
  intros other Hne. rewrite (raw_state_peers _ _ _ _ Hr), (raw_state_peers _ _ _ _ Hr'), Hadd by done.
  destruct (findRawPeerForUpdate peers other) as [[[j q]|]|]; [done| |done]. cbn [mbind result_bind]. by rewrite decide_False.
Qed.

Lemma find_none peers peerID : Forall (λ p, ∃ id', rawPeerID p = Ok id' ∧ id' ≠ peerID) peers → findRawPeerForUpdate peers peerID = Ok None.
Proof.
  induction 1 as [|p peers (pid & Hp & Hne) _ IH]; [done|]. cbn [findRawPeerForUpdate]. rewrite Hp. cbn [mbind result_bind].
  rewrite bool_decide_eq_false_2 by done. by rewrite IH.
Qed.

(** *** What is shown of a state *)

Lemma redacted_state peer :
  redactRawPeer peer !! "migration_state" = redactDecodedPeerValue <$> peer !! "migration_state".
Proof. rewrite lookup_redactRawPeer. destruct (peer !! "migration_state") as [v|]; [|done]. cbn [mbind option_bind fmap option_fmap option_map]. reflexivity. Qed.

Lemma shown_state_raw peer state : peer !! "migration_state" = Some (VString state) → shown_state peer = Some state.
Proof. intros Hp. unfold shown_state, migrationStateFromSSHPeerReadResult. cbn [rr_Peer]. rewrite redacted_state, Hp. done. Qed.

Lemma shown_state_frame peer peer' : peer' !! "migration_state" = peer !! "migration_state" → shown_state peer' = shown_state peer.
Proof. intros Hp. unfold shown_state, migrationStateFromSSHPeerReadResult. cbn [rr_Peer]. by rewrite !redacted_state, Hp. Qed.

Lemma shown_state_Ok peer state : rawPeerMigrationState peer = Ok state → state ≠ "" → shown_state peer = Some state.
Proof. unfold rawPeerMigrationState. destruct (peer !! "migration_state") as [[]|] eqn:E; intros [= <-] Hne; try done. by apply shown_state_raw. Qed.

(** ** What the operations do to a text *)

Section texts.
Context (homeDir : option string).

Lemma raw_text_doc data doc : parseConfigDocument homeDir data = Ok doc → raw_text data = Some (doc_raw doc).
Proof. intros (v & Hv & Ho & _)%parseConfigDocument_Ok. unfold raw_text. rewrite Hv. cbn [mbind option_bind]. by rewrite Ho. Qed.

Lemma read_status data status : ReadConfigRevision homeDir data = Ok status → ∃ raw, raw_text data = Some raw ∧ versioned status = raw_revision raw.
Proof.
  unfold ReadConfigRevision. intros (doc & Hdoc & [= <-])%bind_Ok. exists (doc_raw doc). split; [by apply raw_text_doc|]. unfold versioned. cbn [rv_RevisionState rv_ConfigRevision].
  apply parseConfigDocument_Ok in Hdoc as (v & _ & _ & Hdoc & _). revert Hdoc. generalize (doc_raw doc) as raw. intros raw. unfold document_of_raw, raw_revision.
  destruct (raw !! "config_version") as [cv|]; [|by intros (g & _ & [= <-])%bind_Ok].
  intros (version & _ & H)%bind_Ok. destruct (negb _); [discriminate|]. apply bind_Ok in H as (g & _ & H). apply bind_Ok in H as (c & _ & H). apply bind_Ok in H as ([] & _ & H).
  assert (Hcode : ∀ v n c, parseJSONUint v c = Ok n → parseJSONUint v "" = Ok n).
  { clear. intros v n c. unfold parseJSONUint. destruct v; try done. destruct (HasPrefix _ _); [done|]. by destruct (ParseUint _). }
  destruct (raw !! "config_revision") as [v0|]; [|by injection H as <-].
  assert (Hcase : v0 = VNull ∨ ∃ n, parseJSONUint v0 "" = Ok n ∧ n ≠ 0%Z ∧ doc_RevisionState doc = RevisionStateVersioned ∧ ConfigRevision (gc_config (doc_Config doc)) = Some n).
  { destruct v0; [by left|right..]; apply bind_Ok in H as (n & Hn & H); destruct (n =? 0)%Z eqn:En; try discriminate H; injection H as <-; exists n;
      (split; [by eapply Hcode|split; [by apply Z.eqb_neq|done]]). }
  destruct Hcase as [->|(n & Hn & Hne & Hs & Hc)]; [by injection H as <-|]. rewrite Hn, Hs, Hc, bool_decide_eq_true_2 by done. cbn [default]. unfold default, id.
  by rewrite (proj2 (Z.eqb_neq n 0) Hne).
Qed.

Lemma written_raw_revision (out : raw_object) next :
  out !! "config_version" = Some (json_int 2) → out !! "config_revision" = Some (json_int next) → (1 ≤ next ≤ Z.of_N max_uint64)%Z → raw_revision out = Some next.
Proof.
  intros Hv Hr Hb. unfold raw_revision. rewrite Hv, Hr, parse_json_int by lia. destruct (next =? 0)%Z eqn:E; [apply Z.eqb_eq in E; lia|done].
Qed.

Lemma next_revision data doc next : parseConfigDocument homeDir data = Ok doc → nextConfigRevision doc = Ok next → (1 ≤ next ≤ Z.of_N max_uint64)%Z.
Proof.
  intros (v & _ & _ & _ & Hok)%parseConfigDocument_Ok Hn. by destruct (nextConfigRevision_Ok _ _ Hok Hn).
Qed.

Lemma update_revision {A} gate data expected (change : go_config → raw_object → result string (go_config * raw_object * A)) out a next :
  ConfigDoc.withSSHPeerConfigUpdate homeDir gate data expected change = Ok (out, a, next) → raw_revision out = Some next.
Proof.
  intros (_ & doc & g & raw & Hdoc & _ & _ & _ & Hn & ->)%withSSHPeerConfigUpdate_Ok.
  apply written_raw_revision; [..|by eapply next_revision]; eapply marshalled_versions; intros k Hk; eexists; by apply marshalPreserving_lookup.
Qed.

Lemma state_nonempty s : s ∈ migration_states → s ≠ "".
Proof.
  intros Hs ->. assert (Hb : bool_decide ("" ∈ migration_states) = false) by (vm_compute; reflexivity). by apply bool_decide_eq_false_1 in Hb.
Qed.

(** What becomes of the peers of a text, apart from one of them. *)
Definition only_peer (raw out : raw_object) (peerID : string) : Prop := ∀ other, other ≠ peerID → raw_state out other = raw_state raw other.

Lemma transition_text gate data peerID req out shown next :
  transitionSSHPeerWithGate homeDir gate data peerID req = Ok (out, shown, next) →
  ∃ raw, raw_text data = Some raw ∧ raw_revision out = Some next ∧ only_peer raw out peerID ∧
    raw_state raw peerID = Some (tr_FromState req) ∧ raw_state out peerID = Some (tr_ToState req).
Proof.
  unfold transitionSSHPeerWithGate. intros ([] & _ & H)%bind_Ok. apply bind_Ok in H as (expected & _ & H). apply entry_point in H as (peer' & H & ->).
  pose proof (update_revision _ _ _ _ _ _ _ H) as Hrev. apply update_written in H as (_ & doc & g & raw & Hdoc & _ & Hch & _ & _ & Hw & Hk).
  apply transition_Ok in Hch as (s & peers & i & peer & tp & log & Hrp & Hf & Hpid & Hst & _ & Hedge & _ & _ & Hpid' & Hst' & _ & _ & _ & Hreb).
  destruct (rebuilt_written out _ _ _ _ _ _ Hreb Hw Hk) as [Hout _]. destruct (edge_states _ _ Hedge) as [Hfrom Hto].
  destruct (raw_state_replaced _ _ _ _ _ _ _ _ _ Hrp Hf Hpid' Hout) as (H1 & H2 & H3). exists (doc_raw doc). split; [by apply raw_text_doc|]. split; [done|]. split; [done|].
  split; [rewrite H1|rewrite H2]; apply shown_state_Ok; try done; by apply state_nonempty.
Qed.

Lemma patch_text gate data peerID req out shown next :
  patchSSHPeerProofWithGate homeDir gate data peerID req = Ok (out, shown, next) →
  ∃ raw, raw_text data = Some raw ∧ raw_revision out = Some next ∧ ∀ other, raw_state out other = raw_state raw other.
Proof.
  unfold patchSSHPeerProofWithGate. intros ([] & _ & H)%bind_Ok. apply bind_Ok in H as (expected & _ & H).
  assert (∃ updated, ConfigDoc.withSSHPeerConfigUpdate homeDir gate data expected (applySSHPeerProofPatch peerID req) = Ok (out, updated, next)) as [peer' Hu].
  { destruct (pr_AcceptProof req), (pr_ConnectProof req); [..|discriminate]; apply entry_point in H as (p & H & _); by exists p. }
  pose proof (update_revision _ _ _ _ _ _ _ Hu) as Hrev. apply update_written in Hu as (_ & doc & g & raw & Hdoc & _ & Hch & _ & _ & Hw & Hk).
  apply patch_Ok in Hch as (s & peers & i & peer & Hrp & Hf & Hpid & Hsame & Hreb). destruct (rebuilt_written out _ _ _ _ _ _ Hreb Hw Hk) as [Hout _].
  assert (Hpid' : rawPeerID peer' = Ok peerID) by (rewrite <- Hpid; apply id_frame; by apply Hsame).
  destruct (raw_state_replaced _ _ _ _ _ _ _ _ _ Hrp Hf Hpid' Hout) as (H1 & H2 & H3). exists (doc_raw doc). split; [by apply raw_text_doc|]. split; [done|].
  intros other. destruct (decide (other = peerID)) as [->|]; [|by apply H3]. rewrite H1, H2. apply shown_state_frame. by apply Hsame.
Qed.

Lemma upsert_text gate data peerID req out shown next :
  upsertSSHPeerWithGate homeDir gate data peerID req = Ok (out, shown, next) →
  ∃ raw, raw_text data = Some raw ∧ raw_revision out = Some next ∧ only_peer raw out peerID ∧
    ((uf_MigrationState (ur_Peer req) = None → raw_state out peerID = raw_state raw peerID) ∧ raw_state raw peerID ≠ None ∨
     raw_state raw peerID = None ∧ raw_state out peerID = Some MigrationStateLoopbackUnprovisioned ∧
     uf_MigrationState (ur_Peer req) = Some MigrationStateLoopbackUnprovisioned).
Proof.
  unfold upsertSSHPeerWithGate. intros ([] & Hid%recode_Ok & H)%bind_Ok. apply bind_Ok in H as (expected & _ & H). apply bind_Ok in H as ([] & _ & H). apply bind_Ok in H as ([] & _ & H).
  apply entry_point in H as (peer' & H & ->). pose proof (update_revision _ _ _ _ _ _ _ H) as Hrev.
  apply update_written in H as (_ & doc & g & raw & Hdoc & _ & Hch & _ & _ & Hw & Hk). exists (doc_raw doc). split; [by apply raw_text_doc|]. split; [done|].
  apply upsert_change_Ok in Hch as (g1 & raw1 & c & Hup & Hc & -> & Hpersist); [|done].
  apply upsert_Ok in Hup as (s & ps & peers' & peer & Hr & Hid' & _ & Hreb & Hcase); [|done]. destruct Hreb as (Hw1 & Hssh & _ & typed & _ & ->).
  assert (is_Some (SSH c)) as [ssh Hc'] by (eapply normalize_some; [exact Hc|by eexists]).
  destruct (persist_Ok raw1 c raw _ _ ssh Hc' Hw1) as (s' & -> & _ & Hr'); [by rewrite lookup_insert_eq|done|].
  rewrite <- Hw in Hr'; [|by exists ssh|rewrite lookup_insert_eq; by eexists].
  destruct Hcase as [(i & Hf & Hpid & -> & [state Hst] & Hsame & _)|(Hnone & -> & -> & Hloop & Huf)].
  - destruct (raw_state_replaced _ _ _ _ _ _ _ _ _ Hr Hf Hid' Hr') as (H1 & H2 & H3). split; [done|]. left. rewrite H1, H2. split; [intros; by apply shown_state_frame, Hsame|].
    unfold shown_state, migrationStateFromSSHPeerReadResult. cbn [rr_Peer]. rewrite redacted_state. unfold rawPeerMigrationState in Hst.
    destruct (peer !! "migration_state") as [[]|]; done.
  - destruct (raw_state_added _ _ _ _ _ _ _ Hr (find_none _ _ Hnone) Hid' Hr') as (H1 & H2 & H3). split; [done|]. right. split; [done|]. split; [|done].
    rewrite H2. by apply shown_state_Ok.
Qed.

Lemma section_peers raw s peers s' out :
  rawSSHPeers raw = Ok (s, peers) → s' !! "peers" = s !! "peers" → out !! "ssh" = Some (json_object s') → rawSSHPeers out = Ok (s', peers).
Proof.
  intros Hr Hp Ho. assert (Hpeers : (match s !! "peers" with
    | Some value => if isJSONNull value then Ok [] else match unmarshal_objects value with Some l => Ok l | None => Err "invalid_ssh_peers" end
    | None => Ok []
    end) = Ok peers).
  { unfold rawSSHPeers in Hr. apply bind_Ok in Hr as (s0 & _ & Hr). apply bind_Ok in Hr as (l & Hl & [= <- <-]). exact Hl. }
  unfold rawSSHPeers. rewrite Ho. change (isJSONNull (json_object s')) with false. cbv iota. rewrite unmarshal_json_object. cbn [mbind result_bind]. unfold default, id.
  rewrite Hp, Hpeers. done.
Qed.

Lemma apply_material_Ok req g raw g' raw' u :
  apply_material homeDir req g raw = Ok (g', raw', u) →
  ∃ s peers s', rawSSHPeers raw = Ok (s, peers) ∧ s' !! "peers" = s !! "peers" ∧ raw' !! "ssh" = Some (json_object s') ∧ is_Some (SSH (gc_config g')).
Proof.
  unfold apply_material. set (c0 := match lm_Transport req with Some t => _ | None => _ end). assert (H0 : c0.2 !! "ssh" = raw !! "ssh").
  { unfold c0. destruct (lm_Transport req); [|done]. cbn [snd]. by rewrite lookup_delete_ne, !lookup_insert_ne. }
  destruct c0 as [[c static] raw0]. cbn [snd] in H0. set (c1 := match lm_SharedKey req with Some k => _ | None => _ end). assert (H1 : c1.2 !! "ssh" = raw !! "ssh").
  { unfold c1. destruct (lm_SharedKey req); [|done]. cbn [snd]. by rewrite lookup_insert_ne. }
  destruct c1 as [c' raw1]. cbn [snd] in H1. intros ([s peers] & Hr & H)%bind_Ok. apply bind_Ok in H as (c2 & Hc & [= <- <- <-]).
  rewrite (rawSSHPeers_frame raw1 raw H1) in Hr. do 3 eexists. split; [exact Hr|]. split; [|split; [apply lookup_insert_eq|]].
  - by rewrite !lookup_setRawPointer, !decide_False.
  - eapply normalize_some; [exact Hc|]. by eexists.
Qed.

Lemma material_text gate data req out next :
  updateSSHLocalMaterialWithGate homeDir gate data req = Ok (out, next) →
  ∃ raw, raw_text data = Some raw ∧ raw_revision out = Some next ∧ ∀ other, raw_state out other = raw_state raw other.
Proof.
  intros H. assert (∃ expected u, ConfigDoc.withSSHPeerConfigUpdate homeDir gate data expected (apply_material homeDir req) = Ok (out, u, next)) as (expected & u & Hu).
  { unfold updateSSHLocalMaterialWithGate in H. destruct (negb gate); [discriminate|]. destruct (default 0%Z _ =? 0)%Z; [discriminate|].
    assert (Hrest : ∀ r, r = Ok (out, next) → r = (
        _ ← ensure (bool_decide (default TransportSSH (lm_Transport req) = TransportSSH)) "invalid_transport";
        _ ← (match lm_SharedKey req with Some k => ensure (SharedKeyIsStandard32Bytes k) "invalid_shared_key" | None => Ok () end);
        _ ← (match lm_SyncKey req with Some p => recode (ValidateSSHExecutablePath p) "invalid_sync_key" | None => Ok () end);
        _ ← (match lm_KnownHosts req with Some p => recode (ValidateSSHExecutablePath p) "invalid_known_hosts" | None => Ok () end);
        '(out, _, revision) ← ConfigDoc.withSSHPeerConfigUpdate homeDir gate data
          (MkExpectation RevisionStateVersioned (lm_ExpectedConfigRevision req)) (apply_material homeDir req);
        Ok (out, revision)) → ∃ expected u, ConfigDoc.withSSHPeerConfigUpdate homeDir gate data expected (apply_material homeDir req) = Ok (out, u, next)).
    { intros r Hr Hd. rewrite Hd in Hr. do 4 (apply bind_Ok in Hr as (? & _ & Hr)). apply bind_Ok in Hr as ([[o u] n] & Hr & [= <- <-]). by exists (MkExpectation RevisionStateVersioned (lm_ExpectedConfigRevision req)), u. }
    destruct (lm_Transport req), (lm_SharedKey req), (lm_SyncKey req), (lm_KnownHosts req); try discriminate H; (eapply Hrest; [exact H|reflexivity]). }
  pose proof (update_revision _ _ _ _ _ _ _ Hu) as Hrev. apply withSSHPeerConfigUpdate_Ok in Hu as (_ & doc & g & raw & Hdoc & _ & Hch & _ & _ & ->).
  exists (doc_raw doc). split; [by apply raw_text_doc|]. split; [done|].
  apply apply_material_Ok in Hch as (s & peers & s' & Hr & Hp & Hs' & Hssh). intros other.
  rewrite <- (written_raw g raw next) in Hs' by (done || by eexists). pose proof (section_peers _ _ _ _ _ Hr Hp Hs') as Hr'.
  by rewrite (raw_state_peers _ _ _ _ Hr), (raw_state_peers _ _ _ _ Hr').
Qed.

(** *** A peer is only said to be missing where it is *)

Definition quiet {A} (r : result string A) : Prop := r ≠ Err "ssh_peer_not_found".

Lemma quiet_result_bind {A B} (r : result string A) (f : A → result string B) : quiet r → (∀ a, quiet (f a)) → quiet (r ≫= f).
Proof. unfold quiet. destruct r as [a|e]; [intros _ Hf; apply Hf|]. intros Hr _ [= He]. apply Hr. by rewrite He. Qed.

Lemma quiet_recode {A E} (r : result E A) (e : string) : e ≠ "ssh_peer_not_found" → quiet (recode r e).
Proof. unfold quiet, recode. destruct r; [done|]. by intros He [=]. Qed.

Lemma quiet_wrap {A} (r : result string A) (e : string) : e ≠ "ssh_peer_not_found" → quiet (wrap r e).
Proof. unfold quiet, wrap. destruct r; [done|]. by intros He [=]. Qed.

Ltac quietly :=
  repeat first [discriminate | apply quiet_recode; discriminate | apply quiet_wrap; discriminate | assumption | apply quiet_result_bind; [|intros ?] | progress case_match].

Lemma quiet_path p e : e ≠ "ssh_peer_not_found" → quiet (optional_path p e).
Proof. intros He. unfold optional_path. case_match; [done|by apply quiet_wrap]. Qed.

Lemma quiet_directional peer d : quiet (ValidateDirectionalProof peer d).
Proof. unfold ValidateDirectionalProof, direction_fields, validateProofFields. quietly. Qed.

Lemma quiet_peer h peer active : quiet (validateSSHPeer h peer active).
Proof.
  unfold validateSSHPeer, connect_locator, given_proof. quietly; first [by apply quiet_path | apply quiet_directional].
Qed.

Lemma quiet_peers h active seen targets peers : quiet (validate_peers h active seen targets peers).
Proof.
  revert seen targets. induction peers as [|peer peers IH]; intros seen targets; [discriminate|]. cbn [validate_peers].
  apply quiet_result_bind; [apply quiet_peer|intros _]. quietly; apply IH.
Qed.

Lemma quiet_config c : quiet (ValidateSSHTransportConfig c).
Proof. unfold ValidateSSHTransportConfig. quietly; first [by apply quiet_path | apply quiet_peers]. Qed.

Lemma quiet_uint v code : code ≠ "ssh_peer_not_found" → quiet (parseJSONUint v code).
Proof. intros Hc. unfold parseJSONUint, quiet. repeat case_match; congruence. Qed.

Lemma quiet_document data : quiet (parseConfigDocument homeDir data).
Proof.
  unfold parseConfigDocument, document_of_raw, unmarshalTypedConfig, NormalizeLocalSSHPaths. quietly; first [by apply quiet_uint | apply quiet_config].
Qed.

Lemma quiet_ids peers peerID : quiet (findRawPeerForUpdate peers peerID).
Proof.
  induction peers as [|p peers IH]; [discriminate|]. cbn [findRawPeerForUpdate]. unfold rawPeerID. quietly.
Qed.

Lemma quiet_raw_peers raw : quiet (rawSSHPeers raw).
Proof. unfold rawSSHPeers. quietly. Qed.

Lemma read_peer_text data peerID :
  (read_peer homeDir data peerID = Err "ssh_peer_not_found" → ∀ raw, raw_text data = Some raw → raw_state raw peerID = None) ∧
  ∀ result state, read_peer homeDir data peerID = Ok result → migrationStateFromSSHPeerReadResult result = Ok state →
    ∃ raw, raw_text data = Some raw ∧ raw_state raw peerID = Some state.
Proof.
  unfold read_peer, PeerConfig.ReadSSHPeer. destruct (recode (ValidateHostID peerID) "invalid_ssh_peer_id") as [[]|e] eqn:Ev; cbn [mbind result_bind].
  2: { split; [|done]. intros [= ->]. by destruct (quiet_recode (ValidateHostID peerID) "invalid_ssh_peer_id"). }
  destruct (parseConfigDocument homeDir data) as [doc|e] eqn:Ed; cbn [mbind result_bind].
  2: { split; [|done]. intros [= ->]. by destruct (quiet_document data). }
  rewrite (raw_text_doc _ _ Ed). unfold raw_state. destruct (rawSSHPeerByID (doc_raw doc) peerID) as [[peer i]|e] eqn:Ep; cbn [mbind result_bind].
  - split; [done|]. intros result state [= <-] Hs. exists (doc_raw doc). split; [done|]. rewrite Ep. unfold shown_state, migrationStateFromSSHPeerReadResult in *.
    cbn [rr_Peer] in *. by rewrite Hs.
  - split; [|done]. intros _ raw [= <-]. by rewrite Ep.
Qed.
End texts.

(** ** The laws *)

Section laws.
Context (homeDir : option string) (gate : bool) (marshal : raw_object → result string string).
Context (Hmarshal : ∀ o text, marshal o = Ok text → parse text = Some (json_object o)).

Lemma marshalled_text o text : marshal o = Ok text → raw_text text = Some o.
Proof. intros Hm%Hmarshal. unfold raw_text. rewrite Hm. cbn [mbind option_bind]. by rewrite unmarshal_json_object. Qed.

Lemma file_text_at w path text : file_text (<[path := text]> w) path = raw_text text.
Proof. unfold file_text. by rewrite lookup_insert_eq. Qed.

Lemma file_text_other w path text q : q ≠ path → file_text (<[path := text]> w) q = file_text w q.
Proof. intros Hq. unfold file_text. by rewrite lookup_insert_ne. Qed.

Lemma reading_run {A} path (read : string → result string A) w w' r :
  reading path read w = (w', r) → w' = w ∧ ∀ a, r = Ok a → ∃ data, w !! path = Some data ∧ read data = Ok a.
Proof. unfold reading. intros [= <- <-]. split; [done|]. destruct (w !! path) as [data|]; [|done]. intros a Ha. by exists data. Qed.

(** An update leaves the file as it was or holding what it made of it. *)
Lemma writing_run {A B} path (update : string → result string (raw_object * A)) (answer : A → B) w w' r :
  writing marshal path update answer w = (w', r) →
  w' = w ∧ (∃ e, r = Err e) ∨
  ∃ data out a text, w !! path = Some data ∧ update data = Ok (out, a) ∧ marshal out = Ok text ∧ w' = <[path := text]> w ∧ r = Ok (answer a).
Proof.
  unfold writing. destruct (w !! path) as [data|]; [|intros [= <- <-]; left; split; [done|by eexists]].
  destruct ('(out, a) ← update data; text ← marshal out; Ok (text, a)) as [[text a]|e] eqn:E; intros [= <- <-]; [right|left; split; [done|by eexists]].
  apply bind_Ok in E as ([out a'] & Hu & E). apply bind_Ok in E as (text' & Hm & [= <- <-]). by exists data, out, a', text'.
Qed.

(** What a successful update means for the files, from what it does to the text. *)
Lemma wrote_text w path data raw out text :
  w !! path = Some data → raw_text data = Some raw → marshal out = Ok text →
  (∀ next, raw_revision out = Some next → wrote_at file_revision w (<[path := text]> w) path (Some next)) ∧
  (∀ pid, file_state (<[path := text]> w) path pid = raw_state out pid) ∧ (∀ pid, file_state w path pid = raw_state raw pid) ∧
  (∀ q pid, q ≠ path → file_state (<[path := text]> w) q pid = file_state w q pid).
Proof.
  intros Hw Hd Hm%marshalled_text. unfold wrote_at, file_revision, file_state. rewrite file_text_at, Hm. split_and!; [intros next Hn; split; [done|]|done|..].
  - intros q Hq. by rewrite file_text_other.
  - intros pid. unfold file_text. by rewrite Hw, Hd.
  - intros q pid Hq. by rewrite file_text_other.
Qed.

Lemma pack_Ok {A B} (r : result string (raw_object * A * B)) out a b : pack r = Ok (out, (a, b)) → r = Ok (out, a, b).
Proof. unfold pack. intros ([[o a'] b'] & -> & [= <- <- <-])%bind_Ok. done. Qed.

(** A peer's operation that leaves the states of the others. *)
Lemma one_peer w path data raw out text peerID :
  w !! path = Some data → raw_text data = Some raw → marshal out = Ok text → only_peer raw out peerID →
  ∀ q i, (q, i) ≠ (path, peerID) → file_state (<[path := text]> w) q i = file_state w q i.
Proof.
  intros Hw Hd Hm Ho q i Hne. destruct (wrote_text w path data raw out text Hw Hd Hm) as (_ & H1 & H2 & H3).
  destruct (decide (q = path)) as [->|Hq]; [|by apply H3]. rewrite H1, H2. apply Ho. by intros ->.
Qed.

Notation ops := (defaultDirectPairConfigOps homeDir gate marshal).

Lemma file_read_revision path w w' r :
  @op_ReadConfigRevision _ ops path w = (w', r) → w' = w ∧ ∀ status, r = Ok status → file_revision w path = versioned status.
Proof.
  intros [-> Hr]%reading_run. split; [done|]. intros status Hs. destruct (Hr status Hs) as (data & Hw & (raw & Ht & ->)%read_status).
  unfold file_revision, file_text. by rewrite Hw, Ht.
Qed.

Lemma file_ensure path observed w w' r :
  @op_EnsureConfigV2Revision _ ops path observed w = (w', r) → versioned observed = None →
  ∀ status, r = Ok status → wrote_at file_revision w w' path (versioned status).
Proof.
  cbn [op_EnsureConfigV2Revision defaultDirectPairConfigOps]. unfold ensure_revision. intros H Ho. rewrite Ho, bool_decide_eq_true_2 in H by done. cbn [negb] in H.
  destruct (w !! path) as [data|] eqn:Hw; [|by injection H as <- <-]. unfold ensureConfigV2RevisionWithGate in H.
  assert (bool_decide (rv_RevisionState observed = RevisionStateVersioned) && negb (default 0 (rv_ConfigRevision observed) =? 0)%Z = false) as Hv.
  { unfold versioned in Ho. destruct (_ && _) eqn:E; [|done]. rewrite Ho in E. cbn [default] in E. unfold default, id in E. by rewrite andb_false_r in E. }
  rewrite Hv in H. cbn [ex_State ex_Revision] in H. destruct (bool_decide _); [|by injection H as <- <-]. destruct (rv_ConfigRevision observed); [by injection H as <- <-|].
  destruct (updateConfigV2Scoped homeDir gate data _ _) as [out|e] eqn:Hu; cbn [mbind result_bind] in H; [|by injection H as <- <-].
  destruct (marshal out) as [text|e] eqn:Hm; cbn [mbind result_bind] in H; [|by injection H as <- <-]. apply reading_run in H as [-> Hr].
  intros status Hs. destruct (Hr status Hs) as (data' & Hw' & Hst). rewrite lookup_insert_eq in Hw'. injection Hw' as <-.
  apply read_status in Hst as (raw' & Ht & ->). pose proof (marshalled_text _ _ Hm) as Ht'. rewrite Ht in Ht'. injection Ht' as ->.
  unfold wrote_at, file_revision. rewrite file_text_at, Ht. split; [done|]. intros q Hq. by rewrite file_text_other.
Qed.

Lemma file_material path req w w' r :
  @op_UpdateSSHLocalMaterial _ ops path req w = (w', r) →
  (∀ q i, file_state w' q i = file_state w q i) ∧ ∀ status, r = Ok status → wrote_at file_revision w w' path (rv_ConfigRevision status).
Proof.
  intros [[-> [e ->]]|(data & out & next & text & Hw & (raw & Hd & Hrev & Hsame)%material_text & Hm & -> & ->)]%writing_run; [done|].
  destruct (wrote_text w path data raw out text Hw Hd Hm) as (H1 & H2 & H3 & H4). split; [|intros status [= <-]; by apply H1].
  intros q i. destruct (decide (q = path)) as [->|Hq]; [by rewrite H2, H3|by apply H4].
Qed.

Lemma file_read_peer path pid w w' r :
  @op_ReadSSHPeer _ ops path pid w = (w', r) →
  w' = w ∧ (r = Err "ssh_peer_not_found" → file_state w path pid = None) ∧
  ∀ result state, r = Ok result → migrationStateFromSSHPeerReadResult result = Ok state → file_state w path pid = Some state.
Proof.
  cbn [op_ReadSSHPeer defaultDirectPairConfigOps]. unfold reading. intros [= <- <-]. split; [done|]. unfold file_state, file_text. destruct (w !! path) as [data|]; [|done].
  destruct (read_peer_text homeDir data pid) as [H1 H2]. split.
  - intros He. destruct (raw_text data) as [raw|] eqn:Ht; [|done]. by apply H1.
  - intros result state Hr Hs. destruct (H2 result state Hr Hs) as (raw & -> & H). done.
Qed.

Lemma file_upsert path pid req w w' r :
  @op_UpsertSSHPeer _ ops path pid req w = (w', r) → (uf_MigrationState (ur_Peer req) = None ∨ file_state w path pid = None) →
  (∀ q i, (q, i) ≠ (path, pid) → file_state w' q i = file_state w q i) ∧
  (file_state w' path pid = file_state w path pid ∨ file_state w path pid = None ∧ file_state w' path pid = Some MigrationStateLoopbackUnprovisioned) ∧
  ∀ result, r = Ok result → wrote_at file_revision w w' path (rr_ConfigRevision result) ∧
    (file_state w path pid = None →
      file_state w' path pid = Some MigrationStateLoopbackUnprovisioned ∧ uf_MigrationState (ur_Peer req) = Some MigrationStateLoopbackUnprovisioned).
Proof.
  intros [[-> [e ->]]|(data & out & [shown next] & text & Hw & Hu%pack_Ok & Hm & -> & ->)]%writing_run Hpre; [by split_and!; [|left|]|].
  apply upsert_text in Hu as (raw & Hd & Hrev & Hone & Hcase). destruct (wrote_text w path data raw out text Hw Hd Hm) as (H1 & H2 & H3 & H4).
  split; [by eapply one_peer|]. rewrite H2, H3 in *. split; [|intros result [= <-]; split; [by apply H1|]].
  - destruct Hcase as [[Hkeep Hsome]|(Hnone & Hloop & _)]; [left|by right]. apply Hkeep. by destruct Hpre.
  - intros Hnone. destruct Hcase as [[_ Hsome]|(_ & Hloop & Huf)]; done.
Qed.

Lemma file_patch path pid req w w' r :
  @op_PatchSSHPeerProof _ ops path pid req w = (w', r) →
  (∀ q i, file_state w' q i = file_state w q i) ∧ ∀ result, r = Ok result → wrote_at file_revision w w' path (rr_ConfigRevision result).
Proof.
  intros [[-> [e ->]]|(data & out & [shown next] & text & Hw & Hu%pack_Ok & Hm & -> & ->)]%writing_run; [done|].
  apply patch_text in Hu as (raw & Hd & Hrev & Hsame). destruct (wrote_text w path data raw out text Hw Hd Hm) as (H1 & H2 & H3 & H4).
  split; [|intros result [= <-]; by apply H1]. intros q i. destruct (decide (q = path)) as [->|Hq]; [by rewrite H2, H3|by apply H4].
Qed.

Lemma file_transition path pid req w w' r :
  @op_TransitionSSHPeer _ ops path pid req w = (w', r) →
  (∀ q i, (q, i) ≠ (path, pid) → file_state w' q i = file_state w q i) ∧
  (file_state w' path pid = file_state w path pid ∨ file_state w path pid = Some (tr_FromState req) ∧ file_state w' path pid = Some (tr_ToState req)) ∧
  ∀ result, r = Ok result → wrote_at file_revision w w' path (rr_ConfigRevision result) ∧ file_state w' path pid = Some (tr_ToState req).
Proof.
  intros [[-> [e ->]]|(data & out & [shown next] & text & Hw & Hu%pack_Ok & Hm & -> & ->)]%writing_run; [by split_and!; [|left|]|].
  apply transition_text in Hu as (raw & Hd & Hrev & Hone & Hfrom & Hto). destruct (wrote_text w path data raw out text Hw Hd Hm) as (H1 & H2 & H3 & H4).
  split; [by eapply one_peer|]. rewrite H2, H3. split; [by right|]. intros result [= <-]. by split; [apply H1|].
Qed.

(** The operations on files keep what the interface promises. *)
Definition defaultDirectPairConfigLaws : @ConfigOpsLaws files ops := {|
  revision_at := file_revision;
  peer_state := file_state;
  read_revision_law := file_read_revision;
  ensure_law := file_ensure;
  material_law := file_material;
  read_peer_law := file_read_peer;
  upsert_law := file_upsert;
  patch_law := file_patch;
  transition_law := file_transition;
|}.
End laws.

(** ** Theorems *)

(** C17. A pass that succeeds has done its work.  Whatever state the files of the hosts were
    in, when [Apply] returns without an error every peer the mutation writes on one of
    its hosts is there in that host's file and ready, or, where only the first phase was
    asked for, has its material staged. *)
Theorem apply_ready homeDir gate marshal ctxErr range a mutation paths w w' write path
    (Hmarshal : ∀ o text, marshal o = Ok text → parse text = Some (json_object o))
    (Hpaths : configPaths a mutation = Ok paths) (Hown : own_files paths)
    (Hrun : Apply (H := defaultDirectPairConfigOps homeDir gate marshal) ctxErr range a mutation w = (w', Ok ()))
    (Hwrite : write ∈ mu_Writes mutation) (Hpath : paths !! cw_TargetHostID write = Some path) :
  ∃ state, file_state w' path (cw_PeerID write) = Some state ∧ state ∈ staged_states ∧
    (appliesReady (phase a) = true → state = MigrationStateSSHKeysReady).
Proof. by eapply (pass_ready (H0 := defaultDirectPairConfigLaws homeDir gate marshal Hmarshal)). Qed.

(** C18. A pass only moves peers forward.  On files that have a revision, whatever of it
    fails, and wherever the context is cancelled, the state of a peer in any file is what
    it was, or it is a peer the mutation writes there and its state went along the steps:
    created, staged from there or after a failure, ready. *)
Theorem apply_moves homeDir gate marshal ctxErr range a mutation paths w w' r
    (Hmarshal : ∀ o text, marshal o = Ok text → parse text = Some (json_object o))
    (Hpaths : configPaths a mutation = Ok paths) (Hown : own_files paths)
    (Hrun : Apply (H := defaultDirectPairConfigOps homeDir gate marshal) ctxErr range a mutation w = (w', r))
    (Hrev : ∀ h path, paths !! h = Some path → file_revision w path ≠ None) :
  ∀ path pid, file_state w' path pid = file_state w path pid ∨
    (∃ write, write ∈ mu_Writes mutation ∧ paths !! cw_TargetHostID write = Some path ∧ cw_PeerID write = pid) ∧
    rtc state_step (file_state w path pid) (file_state w' path pid).
Proof. by eapply (pass_moves (H0 := defaultDirectPairConfigLaws homeDir gate marshal Hmarshal)). Qed.


(** ** Witnesses *)

Module ApplySamples.
Fixpoint json_eqb (a b : json) : bool :=
  match a, b with
  | VNull, VNull => true
  | VBool x, VBool y => Bool.eqb x y
  | VNumber x, VNumber y => String.eqb x y
  | VString x, VString y => String.eqb x y
  | VArray l, VArray k => (fix go l k := match l, k with [], [] => true | x :: l, y :: k => json_eqb x y && go l k | _, _ => false end) l k
  | VObject l, VObject k =>
      (fix go l k := match l, k with [], [] => true | x :: l, y :: k => String.eqb x.1 y.1 && json_eqb x.2 y.2 && go l k | _, _ => false end) l k
  | _, _ => false
  end.

Lemma json_eqb_sound a : ∀ b, json_eqb a b = true → a = b.
Proof.
  induction a as [|x|x|x|l IH|l IH] using json_nested_ind; intros [|y|y|y|k|k]; try discriminate; cbn [json_eqb].
  - done.
  - by intros ->%Bool.eqb_prop.
  - by intros ->%String.eqb_eq.
  - by intros ->%String.eqb_eq.
  - intros H. f_equal. revert k H. induction IH as [|x l Hx _ IHl]; intros [|y k]; try discriminate; [done|]. intros [H1 H2]%andb_true_iff.
    by rewrite (Hx _ H1), (IHl _ H2).
  - intros H. f_equal. revert k H. induction IH as [|[n x] l Hx _ IHl]; intros [|[m y] k]; try discriminate; [done|].
    intros [[H0%String.eqb_eq H1]%andb_true_iff H2]%andb_true_iff. cbn in H0, H1, Hx. by rewrite H0, (Hx _ H1), (IHl _ H2).
Qed.

(** An encoder that refuses what does not read back. *)
Definition marshal (o : raw_object) : result string string :=
  let text := print (json_object o) in
  match parse text with
  | Some v => if json_eqb v (json_object o) then Ok text else Err "json"
  | None => Err "json"
  end.

Lemma marshal_spec o text : marshal o = Ok text → parse text = Some (json_object o).
Proof.
  unfold marshal. cbv zeta. destruct (parse (print (json_object o))) as [v|] eqn:E; [|discriminate]. destruct (json_eqb v (json_object o)) eqn:Ev; [|discriminate].
  intros <-%Ok_inj. by rewrite E, (json_eqb_sound _ _ Ev).
Qed.

Definition config_text (hostID : string) : string :=
  print (json_object (raw_of [("config_version", json_int 2); ("config_revision", json_int 7); ("hostname", VString hostID); ("shared_key", VString sample_secret)])).

Definition homes : files := {["/a" := config_text "alpha"; "/b" := config_text "beta"]}.

Definition key_of_host (hostID : string) : SyncKeyMaterial := MkMaterial "/keys/sync" "ssh-ed25519 AAAA" (if bool_decide (hostID = "alpha") then "aaaaaaaaaaaaaaaa" else "bbbbbbbbbbbbbbbb").

Definition plan : DirectPairPlan := match BuildDirectPairPlan (sample_host "alpha") (sample_host "beta") with Ok p => p | Err _ => MkPlan "" "" "" [] [] end.

Definition mutation : DirectPairConfigMutation :=
  MkMutation plan (pl_ConfigWrites plan) sample_secret {["alpha" := key_of_host "alpha"; "beta" := key_of_host "beta"]}
    {["alpha" := "/keys/known_hosts"; "beta" := "/keys/known_hosts"]} (key_of_host "alpha") "/keys/known_hosts".

Definition applicator : DirectPairConfigApplicator :=
  MkApplicator {["alpha" := "/a"; "beta" := "/b"]} [] "" "2024-01-02T03:04:05Z" (λ _, "log-1").

Definition run (ph : string) (w : files) : files * result string () :=
  Apply (H := defaultDirectPairConfigOps None true marshal) (λ _, None) sortedMapKeys (with_phase applicator ph) mutation w.
End ApplySamples.

Module ApplyWitnesses.
Import ApplySamples.

Definition paths : gmap string string := {["alpha" := "/a"; "beta" := "/b"]}.

Lemma paths_of_sample ph : configPaths (with_phase applicator ph) mutation = Ok paths.
Proof. change (configPaths (with_phase applicator ph) mutation) with (configPaths applicator mutation). vm_compute. reflexivity. Qed.

Lemma paths_own : own_files paths.
Proof.
  intros h h' path. unfold paths. rewrite !lookup_insert_Some, !lookup_singleton_Some. intros [[<- <-]|(_ & <- & <-)] [[<- H]|(_ & <- & H)]; done.
Qed.

Lemma run_Ok ph w : (run ph w).2 = Ok () → run ph w = ((run ph w).1, Ok ()).
Proof. destruct (run ph w) as [w' r]. by intros [= ->]. Qed.

Lemma write_alpha : ∃ write, write ∈ mu_Writes mutation ∧ cw_TargetHostID write = "alpha" ∧ cw_PeerID write = "beta".
Proof. eexists (nth 0 (mu_Writes mutation) (reciprocalPeerConfigWrite (sample_host "") (sample_host ""))). split; [by left|]. split; reflexivity. Qed.

(** The files between the two phases. *)
Definition staged_homes : files := (run "stage" homes).1.
End ApplyWitnesses.

Lemma apply_ready_witness :
  ∃ state, file_state (ApplySamples.run "" ApplySamples.homes).1 "/a" "beta" = Some state ∧ state = MigrationStateSSHKeysReady.
Proof.
  destruct ApplyWitnesses.write_alpha as (write & Hin & Ht & Hp).
  destruct (apply_ready None true ApplySamples.marshal (λ _, None) sortedMapKeys (with_phase ApplySamples.applicator "") ApplySamples.mutation ApplyWitnesses.paths
    ApplySamples.homes (ApplySamples.run "" ApplySamples.homes).1 write "/a" ApplySamples.marshal_spec (ApplyWitnesses.paths_of_sample "") ApplyWitnesses.paths_own
    (ApplyWitnesses.run_Ok "" ApplySamples.homes ltac:(vm_compute; reflexivity)) Hin ltac:(rewrite Ht; reflexivity)) as (state & H1 & _ & H2).
  exists state. rewrite Hp in H1. split; [exact H1|]. apply H2. reflexivity.
Defined.

Lemma apply_moves_witness :
  file_state ApplySamples.homes "/b" "alpha" = None ∧ rtc state_step None (file_state (ApplySamples.run "stage" ApplySamples.homes).1 "/b" "alpha").
Proof.
  assert (H0 : file_state ApplySamples.homes "/b" "alpha" = None) by (vm_compute; reflexivity). split; [exact H0|].
  destruct (apply_moves None true ApplySamples.marshal (λ _, None) sortedMapKeys (with_phase ApplySamples.applicator "stage") ApplySamples.mutation ApplyWitnesses.paths
    ApplySamples.homes (ApplySamples.run "stage" ApplySamples.homes).1 (Ok ()) ApplySamples.marshal_spec (ApplyWitnesses.paths_of_sample "stage") ApplyWitnesses.paths_own
    (ApplyWitnesses.run_Ok "stage" ApplySamples.homes ltac:(vm_compute; reflexivity))) with (path := "/b") (pid := "alpha") as [H|[_ H]].
  - intros h path Hp. unfold ApplyWitnesses.paths in Hp. rewrite lookup_insert_Some, lookup_singleton_Some in Hp.
    assert (Ha : bool_decide (file_revision ApplySamples.homes "/a" = None) = false) by (vm_compute; reflexivity).
    assert (Hb : bool_decide (file_revision ApplySamples.homes "/b" = None) = false) by (vm_compute; reflexivity).
    destruct Hp as [[_ <-]|(_ & _ & <-)]; [by apply bool_decide_eq_false_1 in Ha|by apply bool_decide_eq_false_1 in Hb].
  - rewrite H, H0. apply rtc_refl.
  - rewrite H0 in H. exact H.
Defined.

