(* ===== verification/Files.v ===== *)
(** * Files: the calls of package os that the program makes, as programs over them

    A part of the program that works on files is a [prog]: the calls it makes and what it
    does with their answers.  A program runs on a small file system, with what can go
    wrong as an argument: any call may fail, a write may stop in the middle, another
    process may change the file system between two calls, and the machine may stop after
    any call.  [wp] is the logic for such runs.

    Paths are taken as they are written: a directory reached through a symbolic link is
    what [filepath.EvalSymlinks], an argument, says. *)
From S2P Require Import Prelude GoStrings Paths.
From Stdlib Require Import Ascii String.
From stdpp Require Import strings gmap.

#[local] Arguments String.append !_ _ / : simpl nomatch.

(** ** Errors and answers *)

Inductive errno := ENOENT | EEXIST | ELOOP | EWOULDBLOCK | ENOTDIR | EISDIR | ENOTEMPTY | EINVAL | ENOTSUP | ENOSYS | EIO.

#[export] Instance errno_eq_dec : EqDecision errno.
Proof. solve_decision. Defined.

(** An error of the program: one of the system as it is, or a code of its own. *)
Inductive ioerror := OS (e : errno) | Code (c : string).

#[export] Instance ioerror_eq_dec : EqDecision ioerror.
Proof. solve_decision. Defined.

(** [os.FileInfo], with the identity of the file. *)
Record FileInfo := MkInfo {
  fi_symlink : bool;
  fi_dir : bool;
  fi_regular : bool;
  fi_perm : Z;
  fi_uid : Z;
  fi_links : Z;
  fi_device : Z;
  fi_inode : nat;
}.

(** ** Calls

    A file descriptor is the number of the file it was opened for. *)

Inductive call : Type → Type :=
| Lstat (path : string) : call FileInfo
| OpenRead (path : string) : call nat
| OpenExcl (path : string) (perm : Z) : call nat
| OpenLock (path : string) (perm : Z) : call nat
| Fstat (fd : nat) : call FileInfo
| ReadAll (fd : nat) : call string
| ReadFile (path : string) : call string
| Write (fd : nat) (data : string) : call unit
| Fchmod (fd : nat) (perm : Z) : call unit
| Fsync (fd : nat) : call unit
| Close (fd : nat) : call unit
| OpenDir (path : string) : call unit
| SyncDir (path : string) : call unit
| Rename (old new : string) : call unit
| Remove (path : string) : call unit
| ReadDir (path : string) : call (list (string * bool))
| Mkdir (path : string) (perm : Z) : call unit
| MkdirAll (path : string) (perm : Z) : call unit
| Chmod (path : string) (perm : Z) : call unit
| Flock (fd : nat) (nonBlocking : bool) : call unit
| Funlock (fd : nat) : call unit
| EvalSymlinks (path : string) : call string
| RunKeygen (keyPath : string) (hostID : string) : call unit.

Inductive prog (A : Type) : Type :=
| Ret (a : A)
| Do {X} (c : call X) (k : result errno X → prog A).
Arguments Ret {A} a.
Arguments Do {A X} c k.

Fixpoint bindp {A B} (p : prog A) (f : A → prog B) : prog B :=
  match p with Ret a => f a | Do c k => Do c (λ r, bindp (k r) f) end.

(** A program that may fail. *)
Definition io (A : Type) : Type := prog (result ioerror A).

Definition bind_io {A B} (p : io A) (f : A → io B) : io B :=
  bindp p (λ r, match r with Ok a => f a | Err e => Ret (Err e) end).

Definition os {X} (c : call X) : io X := Do c (λ r, match r with Ok x => Ret (Ok x) | Err e => Ret (Err (OS e)) end).

Definition ok {A} (a : A) : io A := Ret (Ok a).

Definition fail {A} (e : ioerror) : io A := Ret (Err e).

(** A result of a part without files. *)
Definition pure {A} (r : result string A) : io A := match r with Ok a => ok a | Err c => fail (Code c) end.

(** What it gives when it fails is decided by its error. *)
Definition catch {A} (p : io A) (h : ioerror → io A) : io A := bindp p (λ r, match r with Ok a => ok a | Err e => h e end).

(** A deferred call whose own error is not looked at. *)
Definition finally {A} (p : io A) (c : io ()) : io A := bindp p (λ r, bindp c (λ _, Ret r)).

Definition on_error {A} (p : io A) (c : io ()) : io A := catch p (λ e, bindp c (λ _, fail e)).

#[export] Instance io_ret : MRet io := λ A a, ok a.

#[export] Instance io_bind : MBind io := λ A B f p, bind_io p f.

(** ** The file system *)

Inductive kind := Regular | Folder | Other.

#[export] Instance kind_eq_dec : EqDecision kind.
Proof. solve_decision. Defined.

Inductive entry :=
| Node (ino : nat)
| Link (target : option nat).

#[export] Instance entry_eq_dec : EqDecision entry.
Proof. solve_decision. Defined.

(** [i_synced]: what is written of it is on the disk. *)
Record inode := MkInode {
  i_kind : kind;
  i_data : string;
  i_perm : Z;
  i_uid : Z;
  i_synced : bool;
}.

(** The names there are; the files; and the names there were since the directories were
    last written out. *)
Record fs := MkFs {
  fs_names : gmap string entry;
  fs_inodes : gmap nat inode;
  fs_past : list (gmap string entry);
}.

(** [filepath.Dir] *)
Fixpoint from_byte (c : ascii) (s : string) : string :=
  match s with EmptyString => EmptyString | String a s' => if bool_decide (a = c) then s else from_byte c s' end.

Definition Dir (path : string) : string := Clean (String.rev (from_byte "/" (String.rev path))).

Definition with_names (s : fs) (names : gmap string entry) : fs := MkFs names (fs_inodes s) (fs_names s :: fs_past s).

Definition set_inode (s : fs) (ino : nat) (i : inode) : fs := MkFs (fs_names s) (<[ino := i]> (fs_inodes s)) (fs_past s).

Definition links (s : fs) (ino : nat) : Z := Z.of_nat (length (filter (λ kv, kv.2 = Node ino) (map_to_list (fs_names s)))).

(** The file a name leads to. *)
Definition follow (s : fs) (path : string) : result errno nat :=
  match fs_names s !! path with
  | Some (Node ino) => Ok ino
  | Some (Link (Some ino)) => Ok ino
  | _ => Err ENOENT
  end.

Definition inode_at (s : fs) (ino : nat) : result errno inode := match fs_inodes s !! ino with Some i => Ok i | None => Err EIO end.

Definition is_kind (s : fs) (path : string) (k : kind) : bool :=
  match fs_names s !! path with Some (Node ino) => match fs_inodes s !! ino with Some i => bool_decide (i_kind i = k) | None => false end | _ => false end.

Definition info_of (s : fs) (ino : nat) (i : inode) : FileInfo :=
  MkInfo false (bool_decide (i_kind i = Folder)) (bool_decide (i_kind i = Regular)) (i_perm i) (i_uid i) (links s ino) 0 ino.

(** The directories above a path, the nearest first. *)
Fixpoint above (fuel : nat) (path : string) : list string :=
  match fuel with
  | O => []
  | S fuel => let dir := Dir path in if bool_decide (dir = path) then [] else dir :: above fuel dir
  end.

Definition sorted_names (l : list (string * bool)) : list (string * bool) := stable_sort (λ x y, String.ltb x.1 y.1) l.

Section perform.
(** The user; how symbolic links resolve; what ssh-keygen does. *)
Context (uid : Z) (resolve : fs → string → result errno string) (keygen : string → string → fs → fs * result errno unit).

Definition create (s : fs) (path : string) (k : kind) (perm : Z) : fs * result errno nat :=
  if is_kind s (Dir path) Folder then
    let ino := fresh (dom (fs_inodes s)) in
    (set_inode (with_names s (<[path := Node ino]> (fs_names s))) ino (MkInode k EmptyString perm uid false), Ok ino)
  else (s, Err ENOENT).

Definition update_inode (s : fs) (ino : nat) (f : inode → inode) : fs * result errno unit :=
  match fs_inodes s !! ino with Some i => (set_inode s ino (f i), Ok ()) | None => (s, Err EIO) end.

Definition rename (s : fs) (old new : string) : fs * result errno unit :=
  match fs_names s !! old with
  | None => (s, Err ENOENT)
  | Some e =>
      if is_kind s new Folder then (s, Err EEXIST)
      else if negb (is_kind s (Dir new) Folder) then (s, Err ENOENT)
      else (with_names s (<[new := e]> (delete old (fs_names s))), Ok ())
  end.

Definition unlink (s : fs) (path : string) : fs * result errno unit :=
  match fs_names s !! path with
  | None => (s, Err ENOENT)
  | Some _ =>
      if is_kind s path Folder && existsb (λ kv, bool_decide (Dir kv.1 = path) && negb (bool_decide (kv.1 = path))) (map_to_list (fs_names s))
      then (s, Err ENOTEMPTY)
      else (with_names s (delete path (fs_names s)), Ok ())
  end.

Definition mkdir (s : fs) (path : string) (perm : Z) : fs * result errno unit :=
  match fs_names s !! path with
  | Some _ => (s, Err EEXIST)
  | None => let '(s, r) := create s path Folder perm in (s, match r with Ok _ => Ok () | Err e => Err e end)
  end.

(** [os.MkdirAll]: the missing directories from the top. *)
Fixpoint mkdirs (s : fs) (paths : list string) (perm : Z) : fs * result errno unit :=
  match paths with
  | [] => (s, Ok ())
  | path :: paths =>
      match follow s path with
      | Ok ino => match fs_inodes s !! ino with Some i => if bool_decide (i_kind i = Folder) then mkdirs s paths perm else (s, Err ENOTDIR) | None => (s, Err EIO) end
      | Err _ => let '(s, r) := mkdir s path perm in match r with Ok _ => mkdirs s paths perm | Err e => (s, Err e) end
      end
  end.

(** What a call does when nothing goes wrong. *)
Definition works {X} (c : call X) (s : fs) : fs * result errno X :=
  match c in call X return fs * result errno X with
  | Lstat path =>
      (s, match fs_names s !! path with
          | Some (Node ino) => i ← inode_at s ino; Ok (info_of s ino i)
          | Some (Link _) => Ok (MkInfo true false false 511 uid 1 0 0)
          | None => Err ENOENT
          end)
  | OpenRead path => (s, match fs_names s !! path with Some (Node ino) => Ok ino | Some (Link _) => Err ELOOP | None => Err ENOENT end)
  | OpenExcl path perm => match fs_names s !! path with Some _ => (s, Err EEXIST) | None => create s path Regular perm end
  | OpenLock path perm =>
      match fs_names s !! path with
      | Some (Node ino) => (s, if is_kind s path Folder then Err EISDIR else Ok ino)
      | Some (Link _) => (s, Err ELOOP)
      | None => create s path Regular perm
      end
  | Fstat fd => (s, i ← inode_at s fd; Ok (info_of s fd i))
  | ReadAll fd => (s, i ← inode_at s fd; Ok (i_data i))
  | ReadFile path => (s, ino ← follow s path; i ← inode_at s ino; Ok (i_data i))
  | Write fd data => update_inode s fd (λ i, MkInode (i_kind i) (i_data i +:+ data) (i_perm i) (i_uid i) false)
  | Fchmod fd perm => update_inode s fd (λ i, MkInode (i_kind i) (i_data i) perm (i_uid i) (i_synced i))
  | Fsync fd => update_inode s fd (λ i, MkInode (i_kind i) (i_data i) (i_perm i) (i_uid i) true)
  | Close _ => (s, Ok ())
  | OpenDir path => (s, ino ← follow s path; Ok ())
  | SyncDir _ => (MkFs (fs_names s) (fs_inodes s) [], Ok ())
  | Rename old new => rename s old new
  | Remove path => unlink s path
  | ReadDir path =>
      (s, if is_kind s path Folder then
            Ok (sorted_names (omap (λ kv, if bool_decide (Dir kv.1 = path) && negb (bool_decide (kv.1 = path)) then Some (Base kv.1, is_kind s kv.1 Folder) else None)
              (map_to_list (fs_names s))))
          else Err ENOENT)
  | Mkdir path perm => mkdir s path perm
  | MkdirAll path perm => mkdirs s (reverse (path :: above (len path) path)) perm
  | Chmod path perm =>
      match follow s path with
      | Ok ino => update_inode s ino (λ i, MkInode (i_kind i) (i_data i) perm (i_uid i) (i_synced i))
      | Err e => (s, Err e)
      end
  | Flock _ _ | Funlock _ => (s, Ok ())
  | EvalSymlinks path => (s, resolve s path)
  | RunKeygen keyPath hostID => keygen keyPath hostID s
  end.

(** What may go wrong at a call: it fails and does nothing, or a write stops after some
    bytes. *)
Inductive fault :=
| Works
| Fails (e : errno)
| Short (n : nat) (e : errno).

Definition short {X} (c : call X) (n : nat) (s : fs) : fs :=
  match c with
  | Write fd data => (update_inode s fd (λ i, MkInode (i_kind i) (i_data i +:+ String.substring 0 n data) (i_perm i) (i_uid i) false)).1
  | _ => s
  end.

Definition perform {X} (c : call X) (f : fault) (s : fs) : fs * result errno X :=
  match f with
  | Works => works c s
  | Fails e => (s, Err e)
  | Short n e => (short c n s, Err e)
  end.

(** A run: what is done to the file system by others before the n-th call and what goes
    wrong in it; the states after each call, the answer and the last state. *)
Fixpoint exec {A} (others : nat → fs → fs) (faults : nat → fault) (n : nat) (s : fs) (p : prog A) : list fs * (A * nat * fs) :=
  match p with
  | Ret a => ([], (a, n, s))
  | Do c k =>
      let '(s, r) := perform c (faults n) (others n s) in
      let '(states, out) := exec others faults (S n) s (k r) in (s :: states, out)
  end.

Lemma exec_bindp {A B} others faults n s (p : prog A) (f : A → prog B) :
  exec others faults n s (bindp p f) =
  let '(states, (a, n, s)) := exec others faults n s p in
  let '(states', out) := exec others faults n s (f a) in (states ++ states', out).
Proof.
  revert n s. induction p as [a|X c k IH]; intros n s; cbn [exec bindp]; [by destruct (exec others faults n s (f a))|].
  destruct (perform c (faults n) (others n s)) as [s1 r]. rewrite IH. destruct (exec others faults (S n) s1 (k r)) as [states [[a n'] s']].
  by destruct (exec others faults n' s' (f a)).
Qed.

(** What a run of a part was, when the whole succeeded. *)
Definition ran {A} others faults n s (p : prog A) (states : list fs) (a : A) (n' : nat) (s' : fs) : Prop := exec others faults n s p = (states, (a, n', s')).

Lemma ran_bind {A B} others faults n s (p : prog A) (f : A → prog B) states b n' s' :
  ran others faults n s (bindp p f) states b n' s' →
  ∃ states1 a n1 s1 states2, ran others faults n s p states1 a n1 s1 ∧ ran others faults n1 s1 (f a) states2 b n' s' ∧ states = states1 ++ states2.
Proof.
  unfold ran. rewrite exec_bindp. destruct (exec others faults n s p) as [states1 [[a n1] s1]]. destruct (exec others faults n1 s1 (f a)) as [states2 [[b' n2] s2]] eqn:E.
  intros [= <- <- <- <-]. by exists states1, a, n1, s1, states2.
Qed.

Lemma ran_bind_Ok {A B} others faults n s (p : io A) (f : A → io B) states b n' s' :
  ran others faults n s (p ≫= f) states (Ok b) n' s' →
  ∃ states1 a n1 s1 states2, ran others faults n s p states1 (Ok a) n1 s1 ∧ ran others faults n1 s1 (f a) states2 (Ok b) n' s' ∧ states = states1 ++ states2.
Proof.
  intros (states1 & [a|e] & n1 & s1 & states2 & H1 & H2 & ->)%ran_bind; [by exists states1, a, n1, s1, states2|]. discriminate H2.
Qed.

Lemma ran_os_Ok {X} others faults n s (c : call X) states x n' s' :
  ran others faults n s (os c) states (Ok x) n' s' → states = [s'] ∧ n' = S n ∧ works c (others n s) = (s', Ok x).
Proof.
  unfold ran, os. cbn [exec]. destruct (faults n) as [|e|m e]; cbn [perform]; [|discriminate..].
  destruct (works c (others n s)) as [s1 [y|e]]; cbn [exec]; intros [= <- -> <- <-]. done.
Qed.

Lemma ran_catch_Ok {A} others faults n s (p : io A) h states x n' s' :
  ran others faults n s (catch p h) states (Ok x) n' s' →
  ran others faults n s p states (Ok x) n' s' ∨
  ∃ e states1 n1 s1 states2, ran others faults n s p states1 (Err e) n1 s1 ∧ ran others faults n1 s1 (h e) states2 (Ok x) n' s' ∧ states = states1 ++ states2.
Proof.
  intros (states1 & [a|e] & n1 & s1 & states2 & H1 & H2 & ->)%ran_bind; [left|right; by exists e, states1, n1, s1, states2].
  unfold ran in H2. cbn [exec ok] in H2. injection H2 as <- <- <- <-. by rewrite app_nil_r.
Qed.

Lemma ran_finally_Ok {A} others faults n s (p : io A) c states x n' s' :
  ran others faults n s (finally p c) states (Ok x) n' s' →
  ∃ states1 n1 s1 states2, ran others faults n s p states1 (Ok x) n1 s1 ∧ states = states1 ++ states2.
Proof.
  intros (states1 & r & n1 & s1 & states2 & H1 & H2 & ->)%ran_bind. apply ran_bind in H2 as (states3 & r3 & n3 & s3 & states4 & H3 & H4 & ->).
  unfold ran in H4. cbn [exec] in H4. injection H4 as <- -> <- <-. by exists states1, n1, s1, (states3 ++ []).
Qed.

Lemma ran_ok {A} others faults n s (a : A) states x n' s' : ran others faults n s (ok a) states (Ok x) n' s' → a = x ∧ states = [] ∧ n' = n ∧ s' = s.
Proof. unfold ran. cbn [exec ok]. by intros [= <- -> <- <-]. Qed.

(** ** A logic for runs

    Whatever others do as [rely] allows and whatever goes wrong as [allow] allows, [inv]
    holds after every call, and the answer and the last state satisfy [Q]. *)
Section logic.
Context (allow : fault → Prop) (rely : fs → fs → Prop) (inv : fs → Prop).

Fixpoint wp {A} (p : prog A) (Q : A → fs → Prop) (s : fs) : Prop :=
  match p with
  | Ret a => Q a s
  | Do c k => ∀ s1 f, rely s s1 → allow f → inv (perform c f s1).1 ∧ wp (k (perform c f s1).2) Q (perform c f s1).1
  end.

Lemma wp_sound {A} (p : prog A) Q others faults n s :
  (∀ n s, rely s (others n s)) → (∀ n, allow (faults n)) → wp p Q s →
  let '(states, (a, _, s')) := exec others faults n s p in Forall inv states ∧ Q a s'.
Proof.
  intros Hr Ha. revert n s. induction p as [a|X c k IH]; intros n s; cbn [wp exec]; [by split|].
  intros H. destruct (H (others n s) (faults n) (Hr n s) (Ha n)) as [Hi Hw]. destruct (perform c (faults n) (others n s)) as [s1 r]. cbn [fst snd] in *.
  specialize (IH r (S n) s1 Hw). destruct (exec others faults (S n) s1 (k r)) as [states [[a n'] s']]. destruct IH as [IH1 IH2]. split; [by constructor|done].
Qed.

Lemma wp_bind {A B} (p : prog A) (f : A → prog B) Q s : wp p (λ a s, wp (f a) Q s) s → wp (bindp p f) Q s.
Proof.
  revert s. induction p as [a|X c k IH]; intros s; cbn [wp bindp]; [done|]. intros H s1 g Hr Ha. destruct (H s1 g Hr Ha) as [Hi Hw]. split; [done|]. by apply IH.
Qed.

Lemma wp_mono {A} (p : prog A) (Q Q' : A → fs → Prop) s : (∀ a s, Q a s → Q' a s) → wp p Q s → wp p Q' s.
Proof.
  intros HQ. revert s. induction p as [a|X c k IH]; intros s; cbn [wp]; [apply HQ|]. intros H s1 g Hr Ha. destruct (H s1 g Hr Ha) as [H1 H2]. split; [done|by apply IH].
Qed.

Lemma wp_bind_io {A B} (p : io A) (f : A → io B) Q s :
  wp p (λ r s, match r with Ok a => wp (f a) Q s | Err e => Q (Err e) s end) s → wp (p ≫= f) Q s.
Proof. intros H. apply wp_bind. eapply wp_mono; [|exact H]. by intros [a|e] s'. Qed.

Lemma wp_os {X} (c : call X) (Q : result ioerror X → fs → Prop) s :
  (∀ s1 f, rely s s1 → allow f → inv (perform c f s1).1 ∧ Q (match (perform c f s1).2 with Ok x => Ok x | Err e => Err (OS e) end) (perform c f s1).1) →
  wp (os c) Q s.
Proof. intros H s1 f Hr Ha. destruct (H s1 f Hr Ha) as [H1 H2]. split; [done|]. by destruct (perform c f s1).2. Qed.

Lemma wp_finally {A} (p : io A) (c : io ()) (Q : result ioerror A → fs → Prop) s : wp p (λ r s, wp c (λ _ s, Q r s) s) s → wp (finally p c) Q s.
Proof. intros H. apply wp_bind. eapply wp_mono; [|exact H]. intros r s' H'. apply wp_bind. exact H'. Qed.

Lemma wp_catch {A} (p : io A) (h : ioerror → io A) (Q : result ioerror A → fs → Prop) s :
  wp p (λ r s, match r with Ok a => Q (Ok a) s | Err e => wp (h e) Q s end) s → wp (catch p h) Q s.
Proof. intros H. apply wp_bind. eapply wp_mono; [|exact H]. by intros [a|e] s'. Qed.

Lemma wp_on_error {A} (p : io A) (c : io ()) (Q : result ioerror A → fs → Prop) s :
  wp p (λ r s, match r with Ok a => Q (Ok a) s | Err e => wp c (λ _ s, Q (Err e) s) s end) s → wp (on_error p c) Q s.
Proof. intros H. apply wp_catch. eapply wp_mono; [|exact H]. intros [a|e] s'; [done|]. intros H'. apply wp_bind. exact H'. Qed.
End logic.

End perform.

(** ** What is found

    After the machine stopped the directories are as they were at some time since they
    were last written out, and a file that was not written out may hold anything. *)
Definition all_names (s : fs) : list (gmap string entry) := fs_names s :: fs_past s.

Definition content (inodes : gmap nat inode) (e : option entry) (o : option string) : Prop :=
  match e with
  | Some (Node ino) => ∃ d, o = Some d ∧ ∀ i, inodes !! ino = Some i → i_synced i = true → d = i_data i
  | _ => o = None
  end.

Definition after_crash (s : fs) (path : string) (o : option string) : Prop := ∃ names, names ∈ all_names s ∧ content (fs_inodes s) (names !! path) o.

(** What a reader finds now. *)
Definition visible (s : fs) (path : string) : option string :=
  match fs_names s !! path with Some (Node ino) => i_data <$> fs_inodes s !! ino | _ => None end.

(** Every name leads to a file. *)
Definition fs_wf (s : fs) : Prop := ∀ names p ino, names ∈ all_names s → names !! p = Some (Node ino) → is_Some (fs_inodes s !! ino).

(** ** Lemmas: names in a directory *)

Lemma clean_segments_snoc rooted stack l n :
  plain_segment n = true → clean_segments rooted stack (l ++ [n]) = clean_segments rooted stack l ++ [n].
Proof.
  intros Hn. revert stack. induction l as [|seg l IH]; intros stack; cbn [app clean_segments].
  - unfold plain_segment in Hn. bool_prop. rewrite !bool_decide_eq_false_2 by done. cbn [orb]. by rewrite reverse_cons.
  - destruct (_ || _); [by apply IH|]. destruct (bool_decide (seg = "..")); [|by apply IH]. destruct stack as [|top stack]; [by destruct rooted; apply IH|].
    destruct (bool_decide (top = "..")); by apply IH.
Qed.

Lemma Base_path_join d n : plain_segment n = true → has_byte "/" n = false → Base (path_join d n) = n.
Proof.
  intros Hp Hn. assert (Hne : n ≠ "") by (intros ->; discriminate Hp).
  assert (HC : ∀ p l, Split "/" p = l ++ [n] → Base (Clean p) = n).
  { intros p l Hs. unfold Clean. rewrite Hs, clean_segments_snoc by done. set (l' := clean_segments _ _ l).
    assert (Hb : Base (GoStrings.Join "/" (l' ++ [n])) = n ∧ Base ("/" +:+ GoStrings.Join "/" (l' ++ [n])) = n ∧ GoStrings.Join "/" (l' ++ [n]) ≠ "").
    { destruct (decide (l' = [])) as [->|Hl]; [split; [by apply Base_plain|split; [by apply (Base_join "")|done]]|]. rewrite Join_snoc by done. split; [by apply Base_join|]. split.
      - change (Base (("/" +:+ GoStrings.Join "/" l') +:+ "/" +:+ n) = n). by apply (Base_join ("/" +:+ GoStrings.Join "/" l')).
      - by destruct (GoStrings.Join "/" l'). }
    destruct Hb as (H1 & H2 & H3). destruct (HasPrefix p "/"); [done|]. by rewrite bool_decide_eq_false_2. }
  unfold path_join. destruct (decide (d = "")) as [->|Hd].
  - rewrite filter_cons_False by (intros H; by apply H). rewrite filter_cons_True, filter_nil by done. apply (HC n []). by apply Split_plain.
  - rewrite !filter_cons_True, filter_nil by done. change (GoStrings.Join "/" [d; n]) with (d +:+ String "/" n). apply (HC _ (Split "/" d)). by apply Split_app.
Qed.

(** ** Programs that only look *)

Fixpoint quiet {A} (p : prog A) : Prop :=
  match p with
  | Ret _ => True
  | Do c k => (∀ uid resolve keygen f s, (perform uid resolve keygen c f s).1 = s) ∧ ∀ r, quiet (k r)
  end.

Lemma quiet_bind {A B} (p : prog A) (f : A → prog B) : quiet p → (∀ a, quiet (f a)) → quiet (bindp p f).
Proof. intros Hp Hf. induction p as [a|X c k IH]; cbn [bindp]; [done|]. destruct Hp as [H1 H2]. split; [done|]. intros r. by apply IH. Qed.

Lemma quiet_bind_io {A B} (p : io A) (f : A → io B) : quiet p → (∀ a, quiet (f a)) → quiet (p ≫= f).
Proof. intros Hp Hf. apply quiet_bind; [done|]. by intros [a|e]. Qed.

Lemma quiet_catch {A} (p : io A) h : quiet p → (∀ e, quiet (h e)) → quiet (catch p h).
Proof. intros Hp Hf. apply quiet_bind; [done|]. by intros [a|e]. Qed.

Lemma quiet_Lstat path : quiet (os (Lstat path)).
Proof. split; [by intros ??? [] s|]. by intros []. Qed.

Lemma quiet_EvalSymlinks path : quiet (os (EvalSymlinks path)).
Proof. split; [by intros ??? [] s|]. by intros []. Qed.

Lemma quiet_Fstat fd : quiet (os (Fstat fd)).
Proof. split; [by intros ??? [] s|]. by intros []. Qed.

Lemma wp_quiet {A} uid resolve keygen allow (inv : fs → Prop) (p : prog A) (Q : A → fs → Prop) s :
  quiet p → inv s → (∀ a, Q a s) → wp uid resolve keygen allow eq inv p Q s.
Proof.
  intros Hp Hi HQ. induction p as [a|X c k IH]; cbn [wp]; [apply HQ|]. destruct Hp as [H1 H2]. intros s1 f <- _. rewrite H1. split; [done|]. by apply IH.
Qed.
