(* ===== verification/SafeFile.v ===== *)
(** * Files others must not touch: the reading, locking and replacing of config/v2.go,
    sshprovision/known_hosts.go and sshprovision/authorized_keys.go *)
From S2P Require Import Prelude GoStrings Paths Files.
From Stdlib Require Import Ascii String.
From stdpp Require Import strings gmap.

#[local] Arguments String.append !_ _ / : simpl nomatch.

(** What the three copies of the code differ in. *)
Record safe_kind := MkSafe {
  sk_unsafe : string;
  sk_temp : string;
}.

Definition config_kind : safe_kind := MkSafe "config_file_unsafe" ".config-v2-".

Definition known_hosts_kind : safe_kind := MkSafe "known_hosts_unsafe" ".known-hosts-".

Definition authorized_keys_kind : safe_kind := MkSafe "authorized_keys_unsafe" ".authorized-keys-".

Section safe.
Context (k : safe_kind) (uid : Z).

Definition unsafe {A} : io A := fail (Code (sk_unsafe k)).

Definition require (b : bool) : io () := if b then ok () else unsafe.

(** [validateConfigFileInfo] *)
Definition validateFileInfo (info : FileInfo) : io () :=
  _ ← require (negb (fi_symlink info));
  _ ← require (fi_regular info);
  _ ← require (fi_uid info =? uid)%Z;
  _ ← require (fi_links info <=? 1)%Z;
  require (Z.land (fi_perm info) 63 =? 0)%Z.

Definition same_file (a b : FileInfo) : bool := (fi_device a =? fi_device b)%Z && (fi_inode a =? fi_inode b).
(** [validateConfigOpenedFile]: the file that was opened is fit, and the path still leads
    to it. *)
Definition validateOpenedFile (path : string) (fd : nat) : io () :=
  info ← os (Fstat fd);
  _ ← validateFileInfo info;
  pathInfo ← os (Lstat path);
  _ ← validateFileInfo pathInfo;
  require (same_file info pathInfo).

Definition validateLockFile (lockPath : string) (fd : nat) : io () :=
  info ← os (Fstat fd);
  _ ← require (fi_regular info);
  _ ← require (fi_uid info =? uid)%Z;
  _ ← require (fi_links info <=? 1)%Z;
  pathInfo ← os (Lstat lockPath);
  _ ← require (negb (fi_symlink pathInfo));
  _ ← require (fi_regular pathInfo);
  _ ← require (same_file info pathInfo);
  require (Z.land (fi_perm pathInfo) 63 =? 0)%Z.

(** Opening without following a link, where a link has a code of its own. *)
Definition no_link {A} (p : io A) : io A := catch p (λ e, if bool_decide (e = OS ELOOP) then unsafe else fail e).

(** The lock file of a path, held around [fn]. *)
Definition with_lock {A} (nonBlocking : bool) (held : ioerror) (path : string) (fn : io A) : io A :=
  fd ← no_link (os (OpenLock (path +:+ ".lock") 384));
  finally
    (_ ← validateLockFile (path +:+ ".lock") fd;
     _ ← os (Fchmod fd 384);
     _ ← catch (os (Flock fd nonBlocking)) (λ e, if nonBlocking && bool_decide (e = OS EWOULDBLOCK) then fail held else fail e);
     finally fn (os (Funlock fd)))
    (os (Close fd)).

(** Reading a file that must be fit. *)
Definition read_fit (path : string) : io string :=
  fd ← no_link (os (OpenRead path));
  finally (_ ← validateOpenedFile path fd; os (ReadAll fd)) (os (Close fd)).

(** The descriptor of a file, if it is there. *)
Definition open_if_there (path : string) : io (option nat) :=
  catch (fd ← no_link (os (OpenRead path)); ok (Some fd)) (λ e, if bool_decide (e = OS ENOENT) then ok None else fail e).

(** The same for a file that may be missing: its data and whether it is there. *)
Definition read_if_there (path : string) : io (string * bool) :=
  opened ← open_if_there path;
  match opened with
  | None => ok (EmptyString, false)
  | Some fd => finally (_ ← validateOpenedFile path fd; data ← os (ReadAll fd); ok (data, true)) (os (Close fd))
  end.

Definition temp_prefix (path : string) : string := sk_temp k +:+ Base path +:+ ".tmp.".

Definition isUnsupportedSync (e : ioerror) : bool := bool_decide (e ∈ [OS EINVAL; OS ENOTSUP; OS ENOSYS]).

Definition syncBestEffort (fd : nat) : io () := catch (os (Fsync fd)) (λ e, if isUnsupportedSync e then ok () else fail e).

Definition syncDirBestEffort (dir : string) : io () :=
  _ ← os (OpenDir dir);
  catch (os (SyncDir dir)) (λ e, if isUnsupportedSync e then ok () else fail e).

Definition join_dir (path name : string) : string := path_join (Dir path) name.

(** Removing what a write that was cut off left. *)
Fixpoint remove_temps (path prefix : string) (entries : list (string * bool)) : io () :=
  match entries with
  | [] => ok ()
  | (name, isDir) :: entries =>
      if isDir || negb (HasPrefix name prefix) then remove_temps path prefix entries
      else
        _ ← catch (os (Remove (join_dir path name))) (λ e, if bool_decide (e = OS ENOENT) then ok () else fail e);
        remove_temps path prefix entries
  end.

Definition remove_stale_temps (path : string) : io () :=
  entries ← os (ReadDir (Dir path));
  remove_temps path (temp_prefix path) entries.

(** A new file with the data, closed: [sync] is what makes it durable. *)
Definition write_new (tmp data : string) (perm : Z) (sync : nat → io ()) : io () :=
  fd ← os (OpenExcl tmp perm);
  on_error
    (_ ← on_error (_ ← os (Write fd data); _ ← os (Fchmod fd perm); sync fd) (os (Close fd));
     os (Close fd))
    (os (Remove tmp)).

(** [checks]: what is looked at again before the new file takes the place of the old. *)
Definition write_atomic (path data : string) (perm : Z) (unique : string) (checks : io ()) : io () :=
  let tmp := join_dir path (temp_prefix path +:+ unique) in
  _ ← write_new tmp data perm syncBestEffort;
  _ ← on_error (_ ← checks; os (Rename tmp path)) (os (Remove tmp));
  syncDirBestEffort (Dir path).
End safe.

(** ** config/v2.go and config/config.go *)

Definition ErrConfigLockHeld : ioerror := Code "config_lock_held".

Definition ensureConfigDir (dir : string) : io () :=
  _ ← os (MkdirAll dir 448);
  info ← os (Lstat dir);
  if fi_symlink info || negb (fi_dir info) then fail (Code "config_directory") else os (Chmod dir 448).

Section config.
Context (uid : Z).

Definition validateConfigFileInfo : FileInfo → io () := validateFileInfo config_kind uid.

Definition validateConfigOpenedFile : string → nat → io () := validateOpenedFile config_kind uid.

Definition validateConfigLockFile : string → nat → io () := validateLockFile config_kind uid.

Definition withConfigFileLockMode {A} (path : string) (nonBlocking : bool) (fn : io A) : io A :=
  _ ← ensureConfigDir (Dir path);
  info ← os (Lstat path);
  _ ← validateConfigFileInfo info;
  with_lock config_kind uid nonBlocking ErrConfigLockHeld path fn.

Definition withConfigFileLock {A} (path : string) (fn : io A) : io A := withConfigFileLockMode path false fn.

Definition tryConfigFileLock {A} (path : string) (fn : io A) : io A := withConfigFileLockMode path true fn.

Definition readConfigFileSafe : string → io string := read_fit config_kind uid.

Definition removeStaleConfigV2Temps : string → io () := remove_stale_temps config_kind.

Definition writeConfigV2Atomic (path data : string) (perm : Z) (unique : string) : io () :=
  write_atomic config_kind path data perm unique (ok ()).

Definition writeConfigV2Backup (path data : string) (perm : Z) : io () :=
  _ ← ensureConfigDir (Dir path);
  _ ← write_new path data perm syncBestEffort;
  syncDirBestEffort (Dir path).

Definition removePathIfExists (path : string) : io () :=
  exists_ ← catch (_ ← os (Lstat path); ok true) (λ e, if bool_decide (e = OS ENOENT) then ok false else fail e);
  if exists_ : bool then os (Remove path) else ok ().

(** The older write: one name for the new file, and nothing made durable. *)
Definition writeConfigAtomic (path data : string) (perm : Z) : io () :=
  let tmp := path +:+ ".tmp" in
  _ ← removePathIfExists tmp;
  _ ← write_new tmp data perm (λ _, ok ());
  on_error (os (Rename tmp path)) (os (Remove tmp)).

Definition repairConfigFile (path : string) : io () :=
  info ← os (Lstat path);
  if negb (fi_regular info) then fail (Code "config_file") else os (Chmod path 384).
End config.

(** ** sshprovision/known_hosts.go *)

Definition rejectSymlinkedKnownHostsAncestry (path : string) : io () :=
  let cleaned := Clean path in
  found ← catch (info ← os (Lstat cleaned); ok (Some info)) (λ e, if bool_decide (e = OS ENOENT) then ok None else fail e);
  match found with
  | None => ok ()
  | Some info =>
      _ ← require known_hosts_kind (negb (fi_symlink info));
      _ ← require known_hosts_kind (fi_dir info);
      resolved ← catch (os (EvalSymlinks cleaned)) (λ _, unsafe known_hosts_kind);
      require known_hosts_kind (bool_decide (Clean resolved = cleaned))
  end.

Definition ensureKnownHostsDir (dir : string) : io () :=
  _ ← os (MkdirAll dir 448);
  _ ← rejectSymlinkedKnownHostsAncestry dir;
  info ← os (Lstat dir);
  _ ← require known_hosts_kind (negb (fi_symlink info) && fi_dir info);
  os (Chmod dir 448).

Section known_hosts.
Context (uid : Z).

Definition withKnownHostsLock {A} (path : string) (fn : io A) : io A :=
  _ ← ensureKnownHostsDir (Dir path);
  with_lock known_hosts_kind uid false (OS EWOULDBLOCK) path fn.

Definition validateKnownHostsFileInfo : FileInfo → io () := validateFileInfo known_hosts_kind uid.

Definition validateKnownHostsOpenedFile : string → nat → io () := validateOpenedFile known_hosts_kind uid.

Definition validateKnownHostsLockFile : string → nat → io () := validateLockFile known_hosts_kind uid.

Definition knownHostsTempPrefix : string → string := temp_prefix known_hosts_kind.

Definition readKnownHostsFileForUpdate : string → io (string * bool) := read_if_there known_hosts_kind uid.

(** Without the checks on owner, links and permissions. *)
Definition readKnownHostsFileLenient (path : string) : io string :=
  opened ← open_if_there known_hosts_kind path;
  match opened with
  | None => ok EmptyString
  | Some fd => finally (os (ReadAll fd)) (os (Close fd))
  end.

Definition removeStaleKnownHostsTemps : string → io () := remove_stale_temps known_hosts_kind.

Definition writeKnownHostsAtomic (path data : string) (perm : Z) (unique : string) : io () :=
  write_atomic known_hosts_kind path data perm unique (ok ()).
End known_hosts.

(** ** sshprovision/authorized_keys.go *)

Section authorized_keys.
Context (uid : Z).

Definition validateAuthorizedKeysDirInfo (info : FileInfo) : io () :=
  _ ← require authorized_keys_kind (negb (fi_symlink info));
  _ ← require authorized_keys_kind (fi_dir info);
  require authorized_keys_kind (fi_uid info =? uid)%Z.

(** No part of the way to a directory is a symbolic link. *)
Definition resolves_to_itself (dir : string) : io () :=
  resolved ← catch (os (EvalSymlinks dir)) (λ _, unsafe authorized_keys_kind);
  require authorized_keys_kind (bool_decide (Clean resolved = Clean dir)).

Definition validateAuthorizedKeysExistingDir (dir : string) : io () :=
  info ← os (Lstat (Clean dir));
  _ ← validateAuthorizedKeysDirInfo info;
  resolves_to_itself dir.

Definition ensureAuthorizedKeysDir (dir : string) : io () :=
  _ ← require authorized_keys_kind (bool_decide (Base dir = ".ssh"));
  _ ← validateAuthorizedKeysExistingDir (Dir dir);
  info ← catch (os (Lstat dir)) (λ e, if bool_decide (e = OS ENOENT) then (_ ← os (Mkdir dir 448); os (Lstat dir)) else fail e);
  _ ← validateAuthorizedKeysDirInfo info;
  _ ← resolves_to_itself dir;
  os (Chmod dir 448).

Definition validateAuthorizedKeysReadPath (path : string) : io () :=
  _ ← validateAuthorizedKeysExistingDir (Dir (Dir path));
  there ← catch (_ ← os (Lstat (Dir path)); ok true) (λ e, if bool_decide (e = OS ENOENT) then ok false else fail e);
  if there : bool then validateAuthorizedKeysExistingDir (Dir path) else ok ().

Definition withAuthorizedKeysLock {A} (path : string) (fn : io A) : io A :=
  _ ← ensureAuthorizedKeysDir (Dir path);
  with_lock authorized_keys_kind uid false (OS EWOULDBLOCK) path fn.

Definition validateAuthorizedKeysFileInfo : FileInfo → io () := validateFileInfo authorized_keys_kind uid.

Definition validateAuthorizedKeysOpenedFile : string → nat → io () := validateOpenedFile authorized_keys_kind uid.

Definition validateAuthorizedKeysLockFile : string → nat → io () := validateLockFile authorized_keys_kind uid.

Definition authorizedKeysTempPrefix : string → string := temp_prefix authorized_keys_kind.

Definition readAuthorizedKeysFile : string → io (string * bool) := read_if_there authorized_keys_kind uid.

Definition removeStaleAuthorizedKeysTemps : string → io () := remove_stale_temps authorized_keys_kind.

Definition writeAuthorizedKeysAtomic (path data : string) (perm : Z) (unique : string) : io () :=
  _ ← validateAuthorizedKeysExistingDir (Dir path);
  write_atomic authorized_keys_kind path data perm unique (validateAuthorizedKeysExistingDir (Dir path)).
End authorized_keys.

(** ** Replacing a file

    A run of [write_atomic] on the file system [s0]: [fd] is the new file. *)
Section replace.
Context (uid : Z) (resolve : fs → string → result errno string) (keygen : string → string → fs → fs * result errno unit).
Context (path tmp data : string) (perm : Z) (durable : bool) (s0 : fs) (old : option string).

Definition unsupported (e : errno) : Prop := e = EINVAL ∨ e = ENOTSUP ∨ e = ENOSYS.

(** For what survives a stop of the machine, writing out must be possible. *)
Definition allowed (f : fault) : Prop := durable = true → match f with Works => True | Fails e | Short _ e => ¬ unsupported e end.

Definition replace_inv (s : fs) : Prop :=
  (visible s path = visible s0 path ∨ visible s path = Some data) ∧
  (durable = true → ∀ o, after_crash s path o → o = old ∨ o = Some data).

(** [moved]: the new file has the path. *)
Record touched (fd : nat) (d : inode) (moved : bool) (s : fs) : Prop := {
  t_fresh : fs_inodes s0 !! fd = None;
  t_inodes : fs_inodes s = <[fd := d]> (fs_inodes s0);
  t_past : ∀ names, names ∈ all_names s →
    (∃ names0, names0 ∈ all_names s0 ∧ ∀ p, p ≠ tmp → names !! p = names0 !! p) ∨ (moved = true ∧ names !! path = Some (Node fd));
  t_others : ∀ p, p ≠ path → p ≠ tmp → fs_names s !! p = fs_names s0 !! p;
  t_path : fs_names s !! path = if moved then Some (Node fd) else fs_names s0 !! path;
  t_wf : fs_wf s;
}.

(** The new file is whole. *)
Definition whole (d : inode) : Prop := i_kind d = Regular ∧ i_data d = data ∧ i_perm d = perm ∧ i_uid d = uid ∧ (durable = true → i_synced d = true).

Hypothesis Htmp : tmp ≠ path.
Hypothesis Hwf : fs_wf s0.
Hypothesis Hold : durable = true → ∀ o, after_crash s0 path o → o = old.

Lemma visible_touched fd d s : touched fd d false s → visible s path = visible s0 path.
Proof.
  intros [Hf Hi _ _ Hp _]. unfold visible. rewrite Hp, Hi. destruct (fs_names s0 !! path) as [[ino|]|] eqn:E; try done.
  destruct (Hwf (fs_names s0) path ino) as [i Hino]; [by left|done|]. rewrite lookup_insert_ne; [done|]. intros ->. congruence.
Qed.

Lemma touched_inv fd d moved s : touched fd d moved s → (moved = true → whole d) → replace_inv s.
Proof.
  intros Ht Hd. pose proof Ht as [Hf Hi Hpast _ Hp _]. split.
  - destruct moved; [|left; by eapply visible_touched]. right. unfold visible. rewrite Hp, Hi, lookup_insert_eq. cbn. by destruct (Hd eq_refl) as (_ & -> & _).
  - intros Hdur o (names & Hin & Hc). destruct (Hpast names Hin) as [(names0 & Hin0 & He)|[Hm He]].
    + left. apply Hold; [done|]. exists names0. split; [done|]. rewrite He in Hc by done. unfold content in *. destruct (names0 !! path) as [[ino|]|] eqn:E; try done.
      destruct (Hwf names0 path ino Hin0 E) as [i Hino]. rewrite Hi, lookup_insert_ne in Hc; [done|]. intros ->. congruence.
    + right. rewrite He in Hc. destruct Hc as (o' & -> & Ho). rewrite Hi in Ho. destruct (Hd Hm) as (_ & Hdata & _ & _ & Hs).
      rewrite (Ho d) by (by rewrite ?lookup_insert_eq, ?Hs). by rewrite Hdata.
Qed.

Lemma start_inv : replace_inv s0.
Proof. split; [by left|]. intros Hdur o Ho. left. by apply Hold. Qed.

Lemma touched_inode fd d d' moved s : touched fd d moved s → touched fd d' moved (set_inode s fd d').
Proof.
  intros [Hf Hi Hpast Ho Hp Hw]. split; try done; [cbn [set_inode fs_inodes]; by rewrite Hi, insert_insert_eq|].
  intros n p ino Hn Hino. cbn [set_inode fs_inodes]. destruct (decide (ino = fd)) as [->|Hne]; [by rewrite lookup_insert_eq|rewrite lookup_insert_ne by done; by eapply Hw].
Qed.

Lemma update_touched fd d moved s f : touched fd d moved s → update_inode s fd f = (set_inode s fd (f d), Ok ()).
Proof. intros [Hf Hi _ _ _ _]. unfold update_inode. by rewrite Hi, lookup_insert_eq. Qed.

(** A change of names that leaves all but the temporary one alone. *)
Lemma touched_unlinked fd d moved s : touched fd d moved s → touched fd d moved (with_names s (delete tmp (fs_names s))).
Proof.
  intros [Hf Hi Hpast Ho Hp Hw]. assert (Hother : ∀ p, p ≠ tmp → delete tmp (fs_names s) !! p = fs_names s !! p) by (intros p H; by rewrite lookup_delete_ne).
  split; try done.
  - intros n [->|Hn]%elem_of_cons; [|by apply Hpast]. cbn [with_names fs_names]. destruct (Hpast (fs_names s)) as [(n0 & Hn0 & H0)|[Hm H0]]; [by left| |].
    + left. exists n0. split; [done|]. intros p Hpp. by rewrite Hother, H0.
    + right. split; [done|]. by rewrite Hother.
  - intros p H1 H2. cbn [with_names fs_names]. rewrite Hother by done. by apply Ho.
  - cbn [with_names fs_names]. by rewrite Hother.
  - intros n p ino [->|Hn]%elem_of_cons H; [|by apply (Hw n p ino)]. cbn [with_names fs_names] in H. apply lookup_delete_Some in H as [_ H]. apply (Hw (fs_names s) p ino); [by left|done].
Qed.

Lemma created_touched (perm' : Z) fd s' :
  create uid s0 tmp Regular perm' = (s', Ok fd) → touched fd (MkInode Regular EmptyString perm' uid false) false s' ∧ fs_names s' !! tmp = Some (Node fd).
Proof.
  unfold create. destruct (is_kind s0 (Dir tmp) Folder); [|discriminate]. intros [= <- <-]. set (fd := fresh _).
  assert (Hf : fs_inodes s0 !! fd = None) by (apply not_elem_of_dom, is_fresh). split; [split|]; unfold all_names; cbn [set_inode with_names fs_inodes fs_names fs_past].
  - done.
  - done.
  - intros names [->|Hn]%elem_of_cons; left; [exists (fs_names s0); split; [by left|intros p Hp; by rewrite lookup_insert_ne]|by exists names].
  - intros p _ Hp. by rewrite lookup_insert_ne.
  - by rewrite lookup_insert_ne.
  - intros n p ino [->|Hn]%elem_of_cons; cbn [set_inode with_names fs_names fs_inodes].
    + destruct (decide (p = tmp)) as [->|Hne]; [rewrite lookup_insert_eq; intros [= <-]; by rewrite lookup_insert_eq|]. rewrite lookup_insert_ne by done.
      intros H. destruct (Hwf (fs_names s0) p ino) as [i Hino]; [by left|done|]. rewrite lookup_insert_ne; [done|congruence].
    + intros H. destruct (Hwf n p ino Hn H) as [i Hino]. rewrite lookup_insert_ne; [done|congruence].
  - by rewrite lookup_insert_eq.
Qed.

Lemma rename_touched fd d s :
  touched fd d false s → fs_names s !! tmp = Some (Node fd) → whole d →
  ∃ r s', rename s tmp path = (s', r) ∧ ((r = Ok () ∧ touched fd d true s' ∧ fs_names s' !! tmp = None) ∨ (is_ok r = false ∧ s' = s)).
Proof.
  intros [Hf Hi Hpast Ho Hp Hw] Ht Hd. unfold rename. rewrite Ht. destruct (is_kind s path Folder); [do 2 eexists; split; [reflexivity|by right]|].
  destruct (negb _); [do 2 eexists; split; [reflexivity|by right]|]. do 2 eexists. split; [reflexivity|]. left. split; [done|]. split; [split|]; unfold all_names; cbn [set_inode with_names fs_inodes fs_names fs_past].
  - done.
  - done.
  - intros names [->|Hn]%elem_of_cons; [right; split; [done|by rewrite lookup_insert_eq]|]. destruct (Hpast names Hn) as [|[? _]]; [by left|done].
  - intros p H1 H2. rewrite lookup_insert_ne, lookup_delete_ne by done. by apply Ho.
  - by rewrite lookup_insert_eq.
  - intros n p ino [->|Hn]%elem_of_cons H; [|by apply (Hw n p ino)]. cbn [with_names fs_names fs_inodes] in *. destruct (decide (p = path)) as [->|Hne].
    + rewrite lookup_insert_eq in H. injection H as <-. by rewrite Hi, lookup_insert_eq.
    + rewrite lookup_insert_ne in H by done. apply lookup_delete_Some in H as [_ H]. apply (Hw (fs_names s) p ino); [by left|done].
  - rewrite lookup_insert_ne by done. apply lookup_delete_eq.
Qed.

Lemma remove_touched fd d moved s :
  touched fd d moved s → ∃ r s', unlink s tmp = (s', r) ∧ touched fd d moved s'.
Proof.
  intros Ht. unfold unlink. destruct (fs_names s !! tmp); [|by do 2 eexists]. destruct (_ && _); [by do 2 eexists|]. do 2 eexists. split; [done|].
  by apply touched_unlinked.
Qed.

#[local] Notation WP := (wp uid resolve keygen allowed eq replace_inv).

(** The new file is under its temporary name. *)
Definition placed (fd : nat) (d : inode) (s : fs) : Prop := touched fd d false s ∧ fs_names s !! tmp = Some (Node fd).

Lemma placed_update fd d d' s : placed fd d s → placed fd d' (set_inode s fd d').
Proof. intros [Ht Hn]. split; [by eapply touched_inode|done]. Qed.

Lemma placed_inv fd d s : placed fd d s → replace_inv s.
Proof. intros [Ht _]. by eapply touched_inv. Qed.

(** A call on the new file. *)
Lemma wp_on_new {X} (c : call X) fd d s (Q : result ioerror X → fs → Prop) :
  placed fd d s →
  (∀ f, allowed f → ∃ d' r, perform uid resolve keygen c f s = (set_inode s fd d', r) ∧
    (∀ s', placed fd d' s' → Q (match r with Ok x => Ok x | Err e => Err (OS e) end) s')) →
  WP (os c) Q s.
Proof.
  intros Hp H. apply wp_os. intros s1 f <- Hf. destruct (H f Hf) as (d' & r & -> & HQ). cbn [fst snd]. pose proof (placed_update fd d d' s Hp) as Hp'.
  split; [by eapply placed_inv|]. by apply HQ.
Qed.

Lemma set_inode_same fd d s : placed fd d s → set_inode s fd d = s.
Proof. intros [[_ Hi _ _ _ _] _]. unfold set_inode. rewrite Hi, insert_insert_eq, <- Hi. by destruct s. Qed.

Lemma wp_write fd d s w (Q : result ioerror () → fs → Prop) :
  placed fd d s →
  (∀ r data' s', placed fd (MkInode (i_kind d) data' (i_perm d) (i_uid d) false) s' → (r = Ok () → data' = i_data d +:+ w) → Q r s') →
  (∀ e s', placed fd d s' → Q (Err e) s') → WP (os (Write fd w)) Q s.
Proof.
  intros Hp HQ HE. eapply wp_on_new; [exact Hp|]. intros f _. destruct f as [|e|n e]; cbn [perform works short].
  - rewrite (update_touched _ d false) by apply Hp. do 2 eexists. split; [reflexivity|]. intros s' Hs'. eapply HQ; [exact Hs'|done].
  - exists d, (Err e). rewrite (set_inode_same _ _ _ Hp). split; [done|]. intros s' Hs'. by apply HE.
  - rewrite (update_touched _ d false) by apply Hp. do 2 eexists. split; [reflexivity|]. intros s' Hs'. eapply HQ; [exact Hs'|done].
Qed.

Lemma wp_chmod fd d s p (Q : result ioerror () → fs → Prop) :
  placed fd d s → (∀ s', placed fd (MkInode (i_kind d) (i_data d) p (i_uid d) (i_synced d)) s' → Q (Ok ()) s') →
  (∀ e s', placed fd d s' → Q (Err e) s') → WP (os (Fchmod fd p)) Q s.
Proof.
  intros Hp HQ HE. eapply wp_on_new; [exact Hp|]. intros f _. destruct f as [|e|n e]; cbn [perform works short].
  - rewrite (update_touched _ d false) by apply Hp. do 2 eexists. split; [reflexivity|]. intros s' Hs'. by apply HQ.
  - exists d, (Err e). rewrite (set_inode_same _ _ _ Hp). split; [done|]. intros s' Hs'. by apply HE.
  - exists d, (Err e). rewrite (set_inode_same _ _ _ Hp). split; [done|]. intros s' Hs'. by apply HE.
Qed.

Lemma wp_sync fd d s (Q : result ioerror () → fs → Prop) :
  placed fd d s → (∀ b s', (durable = true → b = true) → placed fd (MkInode (i_kind d) (i_data d) (i_perm d) (i_uid d) b) s' → Q (Ok ()) s') →
  (∀ e s', placed fd d s' → Q (Err e) s') → WP (syncBestEffort fd) Q s.
Proof.
  intros Hp HQ HE. unfold syncBestEffort. apply wp_catch. eapply wp_on_new; [exact Hp|].
  assert (Hfail : ∀ e, (durable = true → ¬ unsupported e) → ∃ d' (r : result errno ()), (s, Err e) = (set_inode s fd d', r) ∧
    ∀ s', placed fd d' s' → match (match r with Ok x => Ok x | Err e => Err (OS e) end) with Ok u => Q (Ok u) s' | Err e =>
      WP (if isUnsupportedSync e then ok () else fail e) Q s' end).
  { intros e He. exists d, (Err e). rewrite (set_inode_same _ _ _ Hp). split; [done|]. intros s' Hs'. unfold isUnsupportedSync.
    destruct (bool_decide_reflect (OS e ∈ [OS EINVAL; OS ENOTSUP; OS ENOSYS])) as [Hin|]; [|by apply HE]. apply (HQ (i_synced d)).
    - intros Hd. destruct (He Hd). rewrite !elem_of_cons, elem_of_nil in Hin. unfold unsupported. intuition congruence.
    - by destruct d. }
  intros f Hf. unfold allowed in Hf. destruct f as [|e|n e]; cbn [perform works short]; [|by apply Hfail..].
  rewrite (update_touched _ d false) by apply Hp. do 2 eexists. split; [reflexivity|]. intros s' Hs'. by apply (HQ true).
Qed.

(** Calls that change nothing. *)
Lemma wp_close fd s (Q : result ioerror () → fs → Prop) : replace_inv s → (∀ r, Q r s) → WP (os (Close fd)) Q s.
Proof. intros Hi HQ. apply wp_os. intros s1 f <- _. destruct f; cbn [perform works short fst snd]; (split; [done|apply HQ]). Qed.

Lemma wp_remove fd d moved s (Q : result ioerror () → fs → Prop) :
  touched fd d moved s → (moved = true → whole d) → (∀ r s', touched fd d moved s' → Q r s') → WP (os (Remove tmp)) Q s.
Proof.
  intros Ht Hd HQ. apply wp_os. intros s1 f <- _. destruct f as [|e|n e]; cbn [perform works short fst snd].
  - destruct (remove_touched _ _ _ _ Ht) as (r & s' & -> & Ht'). split; [by eapply touched_inv|by apply HQ].
  - split; [by eapply touched_inv|by apply HQ].
  - split; [by eapply touched_inv|by apply HQ].
Qed.

(** The state of the files when nothing replaced the path. *)
Definition kept (s : fs) : Prop := s = s0 ∨ ∃ fd d, touched fd d false s.

Lemma kept_visible s : kept s → visible s path = visible s0 path.
Proof. intros [->|(fd & d & Ht)]; [done|by eapply visible_touched]. Qed.

(** What a way to make a new file durable must come to. *)
Definition syncs (sync : nat → io ()) : Prop := ∀ fd d s (Q : result ioerror () → fs → Prop),
  placed fd d s → (∀ b s', (durable = true → b = true) → placed fd (MkInode (i_kind d) (i_data d) (i_perm d) (i_uid d) b) s' → Q (Ok ()) s') →
  (∀ e s', placed fd d s' → Q (Err e) s') → WP (sync fd) Q s.

Lemma best_effort_syncs : syncs syncBestEffort.
Proof. intros fd d s Q. apply wp_sync. Qed.

Lemma no_sync : durable = false → syncs (λ _, ok ()).
Proof. intros Hd fd d s Q Hp HQ _. apply (HQ (i_synced d)); [by rewrite Hd|by destruct d]. Qed.

Lemma write_new_wp sync : syncs sync →
  WP (write_new tmp data perm sync) (λ r s, match r with Ok _ => ∃ fd d, placed fd d s ∧ whole d | Err _ => kept s end) s0.
Proof.
  intros Hsync. unfold write_new. apply wp_bind_io, wp_os. intros s1 f <- _.
  assert (Hstart : replace_inv s0 ∧ kept s0) by (split; [apply start_inv|by left]).
  destruct f as [|e|n e]; cbn [perform works short fst snd]; [|exact Hstart..].
  destruct (fs_names s0 !! tmp); [exact Hstart|]. destruct (create uid s0 tmp Regular perm) as [s1 [fd|e]] eqn:Hc.
  2: { unfold create in Hc. destruct (is_kind _ _ _); [discriminate|]. injection Hc as <- _. exact Hstart. }
  pose proof (created_touched _ _ _ Hc) as Hp. change (placed fd (MkInode Regular "" perm uid false) s1) in Hp. cbn [fst snd]. split; [by eapply placed_inv|].
  set (K := λ (r : result ioerror ()) (s : fs), match r with Ok _ => ∃ d, placed fd d s ∧ whole d | Err _ => ∃ d, touched fd d false s end).
  assert (Hclose : ∀ e d s, placed fd d s → WP (os (Close fd)) (λ _ s, K (Err e) s) s).
  { intros e d s Hs. apply wp_close; [by eapply placed_inv|]. intros _. exists d. apply Hs. }
  apply wp_on_error. eapply wp_mono with (Q := K).
  { intros [u|e] s Hk; [destruct Hk as (d & Hk); by exists fd, d|]. destruct Hk as (d & Hk). eapply wp_remove; [exact Hk|done|]. intros _ s' Ht. right. by exists fd, d. }
  apply wp_bind_io, wp_on_error, wp_bind_io. eapply wp_write; [exact Hp| |intros e s Hs; by eapply Hclose].
  intros r data' s2 Hp2 Hdata. destruct r as [[]|e]; [|by eapply Hclose]. rewrite (Hdata eq_refl) in Hp2. cbn [i_kind i_data i_perm i_uid i_synced] in Hp2.
  apply wp_bind_io. eapply wp_chmod; [exact Hp2| |intros e s Hs; by eapply Hclose]. intros s3 Hp3.
  eapply Hsync; [exact Hp3| |intros e s Hs; by eapply Hclose]. intros b s4 Hb Hp4. cbn [i_kind i_data i_perm i_uid i_synced] in Hp4.
  apply wp_close; [by eapply placed_inv|]. intros r. destruct r as [[]|e]; [|eexists; apply Hp4]. eexists. split; [exact Hp4|]. done.
Qed.

(** What is left when the path was replaced. *)
Definition replaced (s : fs) : Prop :=
  ∃ fd d, touched fd d true s ∧ whole d ∧ fs_names s !! tmp = None.

Lemma replaced_inv s : replaced s → replace_inv s.
Proof. intros (fd & d & Ht & Hd & _). by eapply touched_inv. Qed.

Lemma wp_sync_dir s dir (Q : result ioerror () → fs → Prop) :
  replaced s → (∀ s', replaced s' → (durable = true → fs_past s' = []) → Q (Ok ()) s') → (∀ e, Q (Err e) s) → WP (syncDirBestEffort dir) Q s.
Proof.
  intros Hr HQ HE. unfold syncDirBestEffort. apply wp_bind_io, wp_os. intros s1 f <- _.
  assert (Hi : replace_inv s) by by apply replaced_inv. destruct f as [|e|n e]; cbn [perform works short fst snd]; [|split; [done|apply HE]..].
  split; [done|]. destruct (_ : result errno ()) as [u|e]; [|apply HE].
  apply wp_catch, wp_os. intros s1 f <- Hf.
  assert (Hfail : ∀ e, (durable = true → ¬ unsupported e) → WP (if isUnsupportedSync (OS e) then ok () else fail (OS e)) Q s).
  { intros e He. unfold isUnsupportedSync. destruct (bool_decide_reflect (OS e ∈ [OS EINVAL; OS ENOTSUP; OS ENOSYS])) as [Hin|]; [|apply HE].
    apply HQ; [done|]. intros Hd. destruct (He Hd). rewrite !elem_of_cons, elem_of_nil in Hin. unfold unsupported. intuition congruence. }
  unfold allowed in Hf. destruct f as [|e|n e]; cbn [perform works short fst snd]; [|split; [done|by apply Hfail]..].
  assert (Hs : replaced (MkFs (fs_names s) (fs_inodes s) [])).
  { destruct Hr as (fd & d & [Hfr Hin Hp Ho Hpath Hw] & Hd & Hn). exists fd, d. split; [split|by split]; try done.
    - intros names ->%list_elem_of_singleton. apply Hp. by left.
    - intros names p ino ->%list_elem_of_singleton. by apply Hw; left. }
  split; [by apply replaced_inv|]. by apply HQ.
Qed.

Lemma write_atomic_wp unique checks k :
  tmp = join_dir path (temp_prefix k path +:+ unique) →
  (∀ s (Q : result ioerror () → fs → Prop), replace_inv s → (∀ r, Q r s) → WP checks Q s) →
  WP (write_atomic k path data perm unique checks)
    (λ r s, match r with Ok _ => replaced s ∧ (durable = true → fs_past s = []) | Err _ => kept s ∨ replaced s end) s0.
Proof.
  intros Htmp' Hchecks. unfold write_atomic. rewrite <- Htmp'. apply wp_bind_io. eapply wp_mono; [|apply write_new_wp, best_effort_syncs].
  intros [u|e] s; [|by left]. intros (fd & d & Hp & Hd). apply wp_bind_io, wp_on_error.
  assert (Hclean : ∀ e s, placed fd d s → WP (os (Remove tmp)) (λ _ s, match (Err e : result ioerror ()) with Ok _ => WP (syncDirBestEffort (Dir path))
     (λ r s, match r with Ok _ => replaced s ∧ (durable = true → fs_past s = []) | Err _ => kept s ∨ replaced s end) s | Err _ => kept s ∨ replaced s end) s).
  { intros e s1 Hp1. eapply wp_remove; [apply Hp1|done|]. intros _ s' Ht. left. right. by exists fd, d. }
  apply wp_bind_io. apply Hchecks; [by eapply placed_inv|]. intros [u'|e]; [|by apply (Hclean e)].
  apply wp_os. intros s1 f <- _. destruct Hp as [Ht Hn].
  destruct f as [|e|n e]; cbn [perform works short fst snd]; [|split; [by eapply touched_inv|by apply (Hclean (OS e))]..].
  destruct (rename_touched fd d s Ht Hn Hd) as (r & s' & -> & [(-> & Ht' & Hn')|[Hr ->]]); cbn [fst snd].
  - assert (Hrep : replaced s') by by exists fd, d. split; [by apply replaced_inv|]. apply wp_sync_dir; [done|auto|]. intros e. by right.
  - split; [by eapply touched_inv|]. destruct r as [u2|e2]; [done|]. by apply (Hclean (OS e2)).
Qed.
End replace.

(** ** Lemmas: names of new files *)

(** The process and its count of writes, in the name of a new file. *)
Definition temp_unique (pid counter : N) : string := format_uint pid +:+ "." +:+ format_uint counter.

Lemma unique_clean pid counter : has_byte "/" (temp_unique pid counter) = false.
Proof.
  unfold temp_unique. rewrite !has_byte_app, (has_byte_forall "/" is_digit (format_uint pid)), (has_byte_forall "/" is_digit (format_uint counter)) by (apply format_uint_digits || done). done.
Qed.

Definition known_kind (k : safe_kind) : Prop := k = config_kind ∨ k = known_hosts_kind ∨ k = authorized_keys_kind.

Lemma temp_ne_path k path pid counter : known_kind k → Base path ≠ "/" → join_dir path (temp_prefix k path +:+ temp_unique pid counter) ≠ path.
Proof.
  intros Hk Hb Heq. set (name := temp_prefix k path +:+ temp_unique pid counter) in *.
  assert (Hname : Base (join_dir path name) = name).
  { apply Base_path_join.
    - unfold name, temp_prefix. by destruct Hk as [-> |[-> | ->]].
    - unfold name, temp_prefix. rewrite !has_byte_app, unique_clean, (Base_clean path Hb). by destruct Hk as [-> |[-> | ->]]. }
  rewrite Heq in Hname. assert (Hlen : len (Base path) = len name) by (by rewrite Hname). unfold name, temp_prefix in Hlen. rewrite !len_app in Hlen.
  destruct Hk as [-> |[-> | ->]]; cbn [sk_temp config_kind known_hosts_kind authorized_keys_kind] in Hlen; cbn [len String.length] in Hlen; unfold len in *; cbn [String.length] in Hlen; lia.
Qed.

Lemma quiet_require k b : quiet (require k b).
Proof. by destruct b. Qed.

Lemma quiet_existing_dir uid dir : quiet (validateAuthorizedKeysExistingDir uid dir).
Proof.
  unfold validateAuthorizedKeysExistingDir, validateAuthorizedKeysDirInfo, resolves_to_itself.
  repeat first [apply quiet_bind_io|apply quiet_require|apply quiet_Lstat|apply quiet_catch|apply quiet_EvalSymlinks|done|intros ?].
Qed.

(** ** Theorems *)

(** The three writers, with the temporary name each uses. *)
Inductive atomic_writer (uid : Z) (path data : string) (perm : Z) (pid counter : N) : safe_kind → io () → Prop :=
| writer_config : atomic_writer uid path data perm pid counter config_kind (writeConfigV2Atomic path data perm (temp_unique pid counter))
| writer_known_hosts : atomic_writer uid path data perm pid counter known_hosts_kind (writeKnownHostsAtomic path data perm (temp_unique pid counter))
| writer_authorized_keys :
    atomic_writer uid path data perm pid counter authorized_keys_kind (writeAuthorizedKeysAtomic uid path data perm (temp_unique pid counter)).

(** The disk can write files and directories out; it may still fail to. *)
Definition sync_supported (faults : nat → fault) : Prop :=
  ∀ n, match faults n with Works => True | Fails e | Short _ e => ¬ unsupported e end.

(** A regular file with this data, these permissions and this owner. *)
Definition holds (s : fs) (path data : string) (perm uid : Z) : Prop :=
  ∃ ino i, fs_names s !! path = Some (Node ino) ∧ fs_inodes s !! ino = Some i ∧ i_kind i = Regular ∧ i_data i = data ∧ i_perm i = perm ∧ i_uid i = uid.

Section outcome.
Context (uid : Z) (resolve : fs → string → result errno string) (keygen : string → string → fs → fs * result errno unit).

(** What a run of a writer comes to, with or without a disk that can write out. *)
Definition outcome (path tmp data : string) (perm : Z) (durable : bool) (s0 : fs) (old : option string) (r : result ioerror ()) (s : fs) : Prop :=
  replace_inv path data durable s0 old s ∧ (∀ p, p ≠ path → p ≠ tmp → visible s p = visible s0 p) ∧
  (is_ok r = true → holds s path data perm uid ∧ fs_names s !! tmp = None ∧ (durable = true → ∀ o, after_crash s path o → o = Some data)).

Lemma touched_visible path tmp s0 fd d moved s p :
  fs_wf s0 → touched path tmp s0 fd d moved s → p ≠ path → p ≠ tmp → visible s p = visible s0 p.
Proof.
  intros Hwf [Hf Hi _ Ho _ _] H1 H2. unfold visible. rewrite Ho, Hi by done. destruct (fs_names s0 !! p) as [[ino|]|] eqn:E; try done.
  destruct (Hwf (fs_names s0) p ino) as [i Hino]; [by left|done|]. rewrite lookup_insert_ne; [done|]. intros ->. congruence.
Qed.

Lemma kept_outcome path tmp data perm durable s0 old e s :
  tmp ≠ path → fs_wf s0 → (durable = true → ∀ o, after_crash s0 path o → o = old) → kept path tmp s0 s → outcome path tmp data perm durable s0 old (Err e) s.
Proof.
  intros Htmp Hwf Hold [->|(fd & d & Ht)]; (split; [|split; [|done]]).
  - by apply start_inv.
  - done.
  - by eapply (touched_inv uid path tmp data perm durable s0 old Htmp Hwf Hold).
  - intros p H1 H2. by eapply touched_visible.
Qed.

Lemma replaced_outcome path tmp data perm durable s0 old r s :
  tmp ≠ path → fs_wf s0 → (durable = true → ∀ o, after_crash s0 path o → o = old) → replaced uid path tmp data perm durable s0 s →
  (is_ok r = true → durable = true → fs_past s = []) → outcome path tmp data perm durable s0 old r s.
Proof.
  intros Htmp Hwf Hold Hr Hpast. pose proof Hr as (fd & d & Ht & Hd & Hn). split; [by eapply (replaced_inv uid path tmp data perm durable s0 old Htmp Hwf Hold)|].
  split; [intros p H1 H2; by eapply touched_visible|]. intros Hok. pose proof Ht as [Hf Hi _ _ Hp _]. destruct Hd as (Hk & Hdata & Hperm & Huid & Hs). split.
  { exists fd, d. rewrite Hi, lookup_insert_eq. done. }
  split; [done|]. intros Hdur o (names & Hin & Hc). unfold all_names in Hin. rewrite (Hpast Hok Hdur), list_elem_of_singleton in Hin. subst names.
  rewrite Hp in Hc. destruct Hc as (x & -> & Hx). rewrite (Hx d), Hdata; [done|by rewrite Hi, lookup_insert_eq|by apply Hs].
Qed.

Lemma writer_wp path data perm pid counter k w durable s0 old :
  atomic_writer uid path data perm pid counter k w → Base path ≠ "/" → fs_wf s0 → (durable = true → ∀ o, after_crash s0 path o → o = old) →
  let tmp := join_dir path (temp_prefix k path +:+ temp_unique pid counter) in
  wp uid resolve keygen (allowed durable) eq (replace_inv path data durable s0 old) w (outcome path tmp data perm durable s0 old) s0.
Proof.
  intros Hw Hb Hwf Hold tmp. assert (Hk : known_kind k) by (unfold known_kind; destruct Hw; auto).
  assert (Htmp : tmp ≠ path) by (by apply temp_ne_path).
  assert (Hgo : ∀ checks, quiet checks → wp uid resolve keygen (allowed durable) eq (replace_inv path data durable s0 old)
    (write_atomic k path data perm (temp_unique pid counter) checks) (outcome path tmp data perm durable s0 old) s0).
  { intros checks Hq. eapply wp_mono; [|apply (write_atomic_wp uid resolve keygen path tmp data perm durable s0 old Htmp Hwf Hold); [reflexivity|intros s Q Hi HQ; by apply wp_quiet]].
    intros r s Hr. destruct r as [u|e]; [destruct Hr as [Hr Hp]; by apply replaced_outcome|]. destruct Hr as [Hr|Hr]; [by apply kept_outcome|by apply replaced_outcome]. }
  destruct Hw; [by apply Hgo..|]. unfold writeAuthorizedKeysAtomic. apply wp_bind_io, wp_quiet; [apply quiet_existing_dir|by apply start_inv|].
  intros [u|e]; [apply Hgo, quiet_existing_dir|]. apply kept_outcome; [done..|by left].
Qed.
End outcome.

(** C10. Files are replaced whole.  Whatever goes wrong in a write of the configuration, of
    a known_hosts or of an authorized_keys file, and whenever the machine stops in it: a
    reader finds at every point the old file or all of the new data; so does one after
    the machine stopped, where the disk can write out; no other file but the temporary
    one changes; and a write that succeeds leaves a regular file of the user with the
    data, the permissions asked for and no temporary file, and there after a stop too. *)
Theorem atomic_replace uid resolve keygen path data perm pid counter k w faults n s0 old
    (Hw : atomic_writer uid path data perm pid counter k w) (Hpath : Base path ≠ "/")
    (Hwf : fs_wf s0) (Hold : ∀ o, after_crash s0 path o → o = old) :
  let tmp := join_dir path (temp_prefix k path +:+ temp_unique pid counter) in
  let '(states, (r, _, s')) := exec uid resolve keygen (λ _ s, s) faults n s0 w in
  (∀ s, s ∈ s' :: states → (visible s path = visible s0 path ∨ visible s path = Some data) ∧
    (sync_supported faults → ∀ o, after_crash s path o → o = old ∨ o = Some data)) ∧
  (∀ p, p ≠ path → p ≠ tmp → visible s' p = visible s0 p) ∧
  (r = Ok () → holds s' path data perm uid ∧ fs_names s' !! tmp = None ∧ (sync_supported faults → ∀ o, after_crash s' path o → o = Some data)).
Proof.
  intros tmp. pose proof (λ durable, writer_wp uid resolve keygen path data perm pid counter k w durable s0 old Hw Hpath Hwf (λ _, Hold)) as H.
  pose proof (λ durable Ha, wp_sound uid resolve keygen (allowed durable) eq _ w _ (λ _ s, s) faults n s0 (λ _ _, eq_refl) Ha (H durable)) as Hs. clear H.
  destruct (exec _ _ _ _ _ _ _ _) as [states [[r n'] s']]. destruct (Hs false) as [Hf (Hi & Ho & Hok)]; [done|]. split; [|split; [done|]].
  - intros s Hin. assert (Hdur : sync_supported faults → replace_inv path data true s0 old s).
    { intros Hsync. destruct (Hs true) as [Hf' (Hi' & _)]; [intros m _; apply Hsync|]. apply elem_of_cons in Hin as [->|Hin]; [done|]. by eapply Forall_forall in Hin. }
    split; [|intros Hsync; by apply (Hdur Hsync)]. apply elem_of_cons in Hin as [->|Hin]; [apply Hi|]. eapply Forall_forall in Hin; [|exact Hf]. apply Hin.
  - intros ->. destruct (Hok eq_refl) as (H1 & H2 & _). split; [done|]. split; [done|]. intros Hsync. destruct (Hs true) as [_ (_ & _ & Hok')]; [intros m _; apply Hsync|].
    by apply Hok'.
Qed.

(** *** Reading *)

(** A regular file of the user, under one name, closed to everybody else. *)
Definition fit (uid : Z) (s : fs) (fd : nat) : Prop :=
  ∃ i, fs_inodes s !! fd = Some i ∧ i_kind i = Regular ∧ i_uid i = uid ∧ (links s fd ≤ 1)%Z ∧ Z.land (i_perm i) 63 = 0%Z.

Lemma validate_cases k uid info :
  validateFileInfo k uid info = unsafe k ∨
  (validateFileInfo k uid info = ok () ∧ fi_symlink info = false ∧ fi_regular info = true ∧ fi_uid info = uid ∧ (fi_links info ≤ 1)%Z ∧ Z.land (fi_perm info) 63 = 0%Z).
Proof.
  unfold validateFileInfo, require. destruct (fi_symlink info); [by left|]. destruct (fi_regular info); [|by left].
  destruct (fi_uid info =? uid)%Z eqn:E1; [|by left]. destruct (fi_links info <=? 1)%Z eqn:E2; [|by left].
  destruct (Z.land (fi_perm info) 63 =? 0)%Z eqn:E3; [|by left]. right. bool_prop. done.
Qed.

Lemma fit_info uid s fd i :
  inode_at s fd = Ok i → fi_regular (info_of s fd i) = true → fi_uid (info_of s fd i) = uid → (fi_links (info_of s fd i) ≤ 1)%Z → Z.land (fi_perm (info_of s fd i)) 63 = 0%Z →
  fit uid s fd.
Proof.
  unfold inode_at. destruct (fs_inodes s !! fd) as [j|] eqn:E; [|discriminate]. intros [= ->]. cbn. intros H1%bool_decide_eq_true_1 H2 H3 H4. by exists i.
Qed.

Section reads.
Context (uid : Z) (resolve : fs → string → result errno string) (keygen : string → string → fs → fs * result errno unit).
Context (others : nat → fs → fs) (faults : nat → fault).

#[local] Notation ran := (ran uid resolve keygen others faults).

Lemma ran_validate k info n s states n' s' :
  ran n s (validateFileInfo k uid info) states (Ok ()) n' s' →
  states = [] ∧ n' = n ∧ s' = s ∧ fi_symlink info = false ∧ fi_regular info = true ∧ fi_uid info = uid ∧ (fi_links info ≤ 1)%Z ∧ Z.land (fi_perm info) 63 = 0%Z.
Proof.
  destruct (validate_cases k uid info) as [->|(-> & H)]; [discriminate|]. by intros (_ & -> & -> & ->)%ran_ok.
Qed.

Lemma ran_require k b n s states n' s' : ran n s (require k b) states (Ok ()) n' s' → b = true ∧ states = [] ∧ n' = n ∧ s' = s.
Proof. destruct b; [by intros (_ & -> & -> & ->)%ran_ok|discriminate]. Qed.

Lemma ran_validate_opened k path fd n s states n' s' :
  ran n s (validateOpenedFile k uid path fd) states (Ok ()) n' s' →
  ∃ s1, states = [s1; s'] ∧ fit uid s1 fd ∧ fs_names s' !! path = Some (Node fd) ∧ fit uid s' fd.
Proof.
  intros (l1 & info & n1 & s1 & l2 & (-> & -> & H1)%ran_os_Ok & H & ->)%ran_bind_Ok.
  apply ran_bind_Ok in H as (l3 & [] & n3 & s3 & l4 & (-> & -> & -> & V1)%ran_validate & H & ->).
  apply ran_bind_Ok in H as (l5 & pinfo & n5 & s5 & l6 & (-> & -> & H2)%ran_os_Ok & H & ->).
  apply ran_bind_Ok in H as (l7 & [] & n7 & s7 & l8 & (-> & -> & -> & V2)%ran_validate & (Hsame & -> & -> & ->)%ran_require & ->).
  cbn [works] in H1, H2. injection H1 as -> Hi. apply bind_Ok in Hi as (i & Hi & [= <-]).
  destruct V1 as (_ & V1 & V1' & V1'' & V1'''). exists s1. split; [done|]. split; [by eapply fit_info|].
  injection H2 as -> H2. unfold same_file in Hsame. apply andb_true_iff in Hsame as [_ Hino].
  destruct (fs_names s5 !! path) as [[ino|t]|]; [|injection H2 as <-; by destruct V2|discriminate].
  apply bind_Ok in H2 as (j & Hj & [= <-]). apply Nat.eqb_eq in Hino. cbn in Hino. subst ino. split; [done|].
  destruct V2 as (_ & V2 & V2' & V2'' & V2'''). by eapply fit_info.
Qed.

(** C31. Only a fit file is read.  Whatever other processes do between the calls, data
    that a reading of the configuration, of a known_hosts or of an authorized_keys file
    returns is what a file held that, when it was open, was twice seen to be a regular
    file of the user, with one name and closed to everybody else, and that the path led
    to in between: a link, or a file swapped in after the checks, is never read. *)
Theorem read_only_fit k n s states path data n' s' (H : ran n s (read_fit k uid path) states (Ok data) n' s') :
  ∃ s1 s2 s3 fd i, sublist [s1; s2; s3] states ∧ fit uid s1 fd ∧ fit uid s2 fd ∧ fs_names s2 !! path = Some (Node fd) ∧
    fs_inodes s3 !! fd = Some i ∧ i_data i = data.
Proof.
  apply ran_bind_Ok in H as (l1 & fd & n1 & s1 & l2 & _ & H & ->). apply ran_finally_Ok in H as (l3 & n3 & s3 & l4 & H & ->).
  apply ran_bind_Ok in H as (l5 & [] & n5 & s5 & l6 & (s4 & -> & H1 & H2 & H3)%ran_validate_opened & (-> & -> & H)%ran_os_Ok & ->).
  cbn [works] in H. injection H as -> H. apply bind_Ok in H as (i & Hi & [= <-]). exists s4, s5, s3, fd, i. split.
  { apply sublist_inserts_l. cbn. do 3 apply sublist_skip. apply sublist_nil_l. }
  split_all. unfold inode_at in Hi. destruct (fs_inodes s3 !! fd); [by injection Hi as ->|discriminate].
Qed.
End reads.

(** ** Witnesses *)

Module Samples.
Definition old_text : string := "old".

Definition new_text : string := "new".

(** A home directory with a configuration, all of it on the disk. *)
Definition home_with (text : string) : fs :=
  MkFs (list_to_map [("/", Node 0); ("/home", Node 1); ("/home/config.json", Node 2)])
    (list_to_map [(0, MkInode Folder "" 493 0 true); (1, MkInode Folder "" 448 501 true); (2, MkInode Regular text 384 501 true)]) [].

Definition home : fs := home_with old_text.

Definition path : string := "/home/config.json".

Definition no_links (s : fs) (p : string) : result errno string := Ok p.

Definition no_keygen (p h : string) (s : fs) : fs * result errno unit := (s, Err ENOENT).

Definition alone (n : nat) (s : fs) : fs := s.

Definition fine (n : nat) : fault := Works.

Lemma home_wf text : fs_wf (home_with text).
Proof.
  intros names p ino Hin Hp. apply list_elem_of_singleton in Hin as ->. unfold home_with in *. cbn [fs_names fs_inodes] in *.
  apply elem_of_list_to_map_2 in Hp. rewrite !elem_of_cons in Hp. destruct Hp as [Hp|[Hp|[Hp|Hp]]]; [injection Hp as _ ->; eexists; reflexivity..|by apply not_elem_of_nil in Hp].
Qed.

Lemma home_crash text o : after_crash (home_with text) path o → o = Some text.
Proof.
  intros (names & Hin & Hc). apply list_elem_of_singleton in Hin as ->. change (fs_names (home_with text) !! path) with (Some (Node 2)) in Hc.
  destruct Hc as (d & -> & Hd). f_equal. exact (Hd (MkInode Regular text 384 501 true) eq_refl eq_refl).
Qed.

(** The answer and the last state of a run. *)
Definition answer {A} (out : list fs * (A * nat * fs)) : A := out.2.1.1.

Definition last_state {A} (out : list fs * (A * nat * fs)) : fs := out.2.2.
End Samples.

Lemma atomic_replace_witness :
  let out := exec 501 Samples.no_links Samples.no_keygen Samples.alone Samples.fine 0 Samples.home
    (writeConfigV2Atomic Samples.path Samples.new_text 384 (temp_unique 7 1)) in
  Samples.answer out = Ok () ∧ holds (Samples.last_state out) Samples.path Samples.new_text 384 501.
Proof.
  cbv zeta. pose proof (atomic_replace 501 Samples.no_links Samples.no_keygen Samples.path Samples.new_text 384 7 1 config_kind _ Samples.fine 0 Samples.home
    (Some Samples.old_text) (writer_config 501 Samples.path Samples.new_text 384 7 1) ltac:(discriminate) (Samples.home_wf Samples.old_text) (Samples.home_crash Samples.old_text)) as H. cbv zeta in H.
  split; [vm_compute; reflexivity|].
  assert (Ha : Samples.answer (exec 501 Samples.no_links Samples.no_keygen Samples.alone Samples.fine 0 Samples.home
    (writeConfigV2Atomic Samples.path Samples.new_text 384 (temp_unique 7 1))) = Ok ()) by (vm_compute; reflexivity).
  change (λ (_ : nat) (s : fs), s) with Samples.alone in H. revert H Ha.
  destruct (exec 501 Samples.no_links Samples.no_keygen Samples.alone Samples.fine 0 Samples.home
    (writeConfigV2Atomic Samples.path Samples.new_text 384 (temp_unique 7 1))) as [states [[r n'] s']].
  intros (_ & _ & Hok) Hr. exact (proj1 (Hok Hr)).
Defined.

Lemma read_only_fit_witness :
  let out := exec 501 Samples.no_links Samples.no_keygen Samples.alone Samples.fine 0 Samples.home (readConfigFileSafe 501 Samples.path) in
  Samples.answer out = Ok Samples.old_text ∧ ∃ s fd, fit 501 s fd ∧ fs_names s !! Samples.path = Some (Node fd).
Proof.
  cbv zeta. split; [vm_compute; reflexivity|].
  destruct (exec 501 Samples.no_links Samples.no_keygen Samples.alone Samples.fine 0 Samples.home (readConfigFileSafe 501 Samples.path)) as [states [[r n'] s']] eqn:E.
  assert (Hr : r = Ok Samples.old_text).
  { pose proof (f_equal Samples.answer E) as Ha. change (Samples.answer (states, (r, n', s'))) with r in Ha. rewrite <- Ha. vm_compute. reflexivity. }
  subst r. destruct (read_only_fit 501 Samples.no_links Samples.no_keygen Samples.alone Samples.fine config_kind 0 Samples.home states Samples.path Samples.old_text n' s' E)
    as (s1 & s2 & s3 & fd & i & _ & _ & Hfit & Hp & _). exists s2, fd. split; [exact Hfit|exact Hp].
Defined.
