(* ===== verification/FileUpdate.v ===== *)
(** * FileUpdate: what a locked read-and-replace does to the files

    The shared lemmas of the operations that lock a file, read it and replace it: what
    stays as it was under calls that only prepare, what a reading says of the file, and
    how a replacement ends. *)
From S2P Require Import Prelude GoStrings Paths Files SafeFile.
From Stdlib Require Import Ascii String.
From stdpp Require Import strings gmap.

#[local] Arguments String.append !_ _ / : simpl nomatch.

(** ** What stays *)
Section frame.
Context (P : string → Prop).

(** Between the two states no name of [P] changed, and no file that was there lost or
    changed its contents. *)
Record steady (s0 s : fs) : Prop := {
  st_names : ∀ p, P p → fs_names s !! p = fs_names s0 !! p;
  st_past : ∀ names, names ∈ all_names s → ∃ names0, names0 ∈ all_names s0 ∧ ∀ p, P p → names !! p = names0 !! p;
  st_inodes : ∀ ino i0, fs_inodes s0 !! ino = Some i0 →
    ∃ i, fs_inodes s !! ino = Some i ∧ i_data i = i_data i0 ∧ i_kind i = i_kind i0 ∧ (i_synced i0 = true → i_synced i = true);
  st_wf : fs_wf s;
}.

Lemma steady_refl s : fs_wf s → steady s s.
Proof. intros Hwf. split; [done|by eauto|by eauto|done]. Qed.

Lemma steady_trans s1 s2 s3 : steady s1 s2 → steady s2 s3 → steady s1 s3.
Proof.
  intros [A1 A2 A3 _] [B1 B2 B3 B4]. split; [| | |done].
  - intros p Hp. by rewrite B1, A1.
  - intros names Hin. destruct (B2 names Hin) as (names2 & Hin2 & E2). destruct (A2 names2 Hin2) as (names1 & Hin1 & E1). exists names1. split; [done|].
    intros p Hp. by rewrite E2, E1.
  - intros ino i1 H1. destruct (A3 ino i1 H1) as (i2 & H2 & D2 & K2 & S2). destruct (B3 ino i2 H2) as (i3 & H3 & D3 & K3 & S3). exists i3.
    split; [done|]. split; [congruence|]. split; [congruence|auto].
Qed.

Lemma steady_visible s0 s p : fs_wf s0 → steady s0 s → P p → visible s p = visible s0 p.
Proof.
  intros Hwf [Hn _ Hi _] Hp. unfold visible. rewrite Hn by done. destruct (fs_names s0 !! p) as [[ino|]|] eqn:E; try done.
  destruct (Hwf (fs_names s0) p ino) as [i0 H0]; [by left|done|]. destruct (Hi ino i0 H0) as (i & -> & Hd & _). rewrite H0. cbn. by rewrite Hd.
Qed.

Lemma steady_crash s0 s p o : fs_wf s0 → steady s0 s → P p → after_crash s p o → after_crash s0 p o.
Proof.
  intros Hwf [_ Hpast Hi _] Hp (names & Hin & Hc). destruct (Hpast names Hin) as (names0 & Hin0 & E). exists names0. split; [done|]. rewrite E in Hc by done.
  unfold content in *. destruct (names0 !! p) as [[ino|]|] eqn:E0; try done. destruct Hc as (d & -> & Hd). exists d. split; [done|]. intros i0 H0 Hs.
  destruct (Hi ino i0 H0) as (i & H1 & <- & _ & Hs'). by apply Hd, Hs'.
Qed.

(** ** Calls that keep it so *)

Definition harmless {X} (c : call X) : Prop :=
  match c with
  | Write _ _ | RunKeygen _ _ => False
  | OpenExcl p _ | OpenLock p _ | Mkdir p _ | Remove p => ¬ P p
  | Rename old new => ¬ P old ∧ ¬ P new
  | MkdirAll p _ => ∀ q, q ∈ p :: above (len p) p → ¬ P q
  | _ => True
  end.

Section calls.
Context (uid : Z) (resolve : fs → string → result errno string) (keygen : string → string → fs → fs * result errno unit).

Lemma steady_with_names s names :
  fs_wf s → (∀ p, P p → names !! p = fs_names s !! p) → (∀ p ino, names !! p = Some (Node ino) → is_Some (fs_inodes s !! ino)) → steady s (with_names s names).
Proof.
  intros Hwf Hn Hi. split; unfold all_names; cbn [with_names fs_names fs_inodes fs_past]; [done| |by eauto|].
  - intros n [->|Hin]%elem_of_cons; [by exists (fs_names s); split; [left|]|by eauto].
  - intros n p ino Hin Hp. unfold all_names in Hin. cbn [with_names fs_names fs_past] in Hin. apply elem_of_cons in Hin as [->|Hin]; [by eapply Hi|by eapply Hwf].
Qed.

Lemma steady_set_inode s ino i0 i :
  fs_wf s → fs_inodes s !! ino = Some i0 → i_data i = i_data i0 → i_kind i = i_kind i0 → (i_synced i0 = true → i_synced i = true) → steady s (set_inode s ino i).
Proof.
  intros Hwf H0 Hd Hk Hs. split; [done|unfold all_names; cbn [set_inode fs_names fs_inodes fs_past]; by eauto| |].
  - intros j j0 Hj. cbn [set_inode fs_inodes]. destruct (decide (j = ino)) as [->|Hne]; [|rewrite lookup_insert_ne by done; by eauto].
    rewrite lookup_insert_eq. exists i. by simplify_eq.
  - intros n p j Hin Hp. cbn [set_inode fs_inodes]. destruct (decide (j = ino)) as [->|Hne]; [by rewrite lookup_insert_eq|rewrite lookup_insert_ne by done; by eapply Hwf].
Qed.

Lemma create_steady s path k perm : fs_wf s → ¬ P path → steady s (create uid s path k perm).1.
Proof.
  intros Hwf Hp. unfold create. destruct (is_kind _ _ _); [|by apply steady_refl]. cbn [fst]. set (ino := fresh _).
  assert (Hf : fs_inodes s !! ino = None) by (apply not_elem_of_dom, is_fresh). split; unfold all_names; cbn [set_inode with_names fs_names fs_inodes fs_past].
  - intros p Hp'. rewrite lookup_insert_ne; [done|]. by intros <-.
  - intros n [->|Hin]%elem_of_cons; [|by eauto]. exists (fs_names s). split; [by left|]. intros p Hp'. rewrite lookup_insert_ne; [done|]. by intros <-.
  - intros j j0 Hj. rewrite lookup_insert_ne by congruence. by eauto.
  - intros n p j Hin Hj. cbn [set_inode with_names fs_inodes]. destruct (decide (j = ino)) as [->|Hne]; [by rewrite lookup_insert_eq|]. rewrite lookup_insert_ne by done.
    unfold all_names in Hin. cbn [set_inode with_names fs_names fs_past] in Hin. apply elem_of_cons in Hin as [->|Hin]; [|by eapply Hwf].
    destruct (decide (p = path)) as [->|Hpp]; [rewrite lookup_insert_eq in Hj; congruence|]. rewrite lookup_insert_ne in Hj by done. eapply Hwf; [by left|done].
Qed.

Lemma update_steady s ino f :
  fs_wf s → (∀ i, i_data (f i) = i_data i ∧ i_kind (f i) = i_kind i ∧ (i_synced i = true → i_synced (f i) = true)) → steady s (update_inode s ino f).1.
Proof.
  intros Hwf Hf. unfold update_inode. destruct (fs_inodes s !! ino) as [i|] eqn:E; [|by apply steady_refl]. destruct (Hf i) as (H1 & H2 & H3). by eapply steady_set_inode.
Qed.

Lemma mkdir_steady s path perm : fs_wf s → ¬ P path → steady s (mkdir uid s path perm).1.
Proof.
  intros Hwf Hp. unfold mkdir. destruct (fs_names s !! path); [by apply steady_refl|]. pose proof (create_steady s path Folder perm Hwf Hp) as H.
  by destruct (create uid s path Folder perm) as [s' r].
Qed.

Lemma mkdirs_steady s paths perm : fs_wf s → (∀ q, q ∈ paths → ¬ P q) → steady s (mkdirs uid s paths perm).1.
Proof.
  revert s. induction paths as [|path paths IH]; intros s Hwf Hq; cbn [mkdirs]; [by apply steady_refl|].
  assert (Hgo : ∀ s, fs_wf s → steady s (mkdirs uid s paths perm).1) by (intros s1 H1; apply IH; [done|intros q Hin; apply Hq; by right]).
  destruct (follow s path) as [ino|e].
  - destruct (fs_inodes s !! ino) as [i|]; [|by apply steady_refl]. destruct (bool_decide _); [by apply Hgo|by apply steady_refl].
  - pose proof (mkdir_steady s path perm Hwf (Hq path ltac:(by left))) as H. destruct (mkdir uid s path perm) as [s1 [u|e1]]; [|done]. eapply steady_trans; [exact H|apply Hgo, H].
Qed.

Lemma rename_steady s old new : fs_wf s → ¬ P old → ¬ P new → steady s (rename s old new).1.
Proof.
  intros Hwf Ho Hn. unfold rename. destruct (fs_names s !! old) as [e|] eqn:E; [|by apply steady_refl]. destruct (is_kind s new Folder); [by apply steady_refl|].
  destruct (negb _); [by apply steady_refl|]. cbn [fst]. apply steady_with_names; [done|..].
  - intros p Hp. rewrite lookup_insert_ne, lookup_delete_ne; [done|by intros <-..].
  - intros p ino Hp. destruct (decide (p = new)) as [->|Hne].
    + rewrite lookup_insert_eq in Hp. injection Hp as ->. eapply Hwf; [by left|exact E].
    + rewrite lookup_insert_ne in Hp by done. apply lookup_delete_Some in Hp as [_ Hp]. eapply Hwf; [by left|exact Hp].
Qed.

Lemma unlink_steady s path : fs_wf s → ¬ P path → steady s (unlink s path).1.
Proof.
  intros Hwf Hp. unfold unlink. destruct (fs_names s !! path); [|by apply steady_refl]. destruct (_ && _); [by apply steady_refl|]. cbn [fst]. apply steady_with_names; [done|..].
  - intros p Hp'. rewrite lookup_delete_ne; [done|]. by intros <-.
  - intros p ino [_ H]%lookup_delete_Some. eapply Hwf; [by left|exact H].
Qed.

Lemma sync_dir_steady s : fs_wf s → steady s (MkFs (fs_names s) (fs_inodes s) []).
Proof.
  intros Hwf. split; [done| |by eauto|].
  - intros n ->%list_elem_of_singleton. exists (fs_names s). split; [by left|done].
  - intros n p ino ->%list_elem_of_singleton. cbn [fs_names fs_inodes]. intros H. eapply Hwf; [by left|exact H].
Qed.

Lemma perform_steady {X} (c : call X) f s : harmless c → fs_wf s → steady s (perform uid resolve keygen c f s).1.
Proof.
  intros Hc Hwf. destruct f as [|e|n e]; cbn [perform fst]; [|by apply steady_refl|destruct c; first [by apply steady_refl|by destruct Hc]].
  destruct c; cbn [works harmless fst] in *; try done; try by apply steady_refl.
  - destruct (fs_names s !! path); [by apply steady_refl|]. by apply create_steady.
  - destruct (fs_names s !! path) as [[]|]; [by apply steady_refl..|]. by apply create_steady.
  - by apply update_steady.
  - by apply update_steady.
  - by apply sync_dir_steady.
  - by apply rename_steady; destruct Hc.
  - by apply unlink_steady.
  - by apply mkdir_steady.
  - apply mkdirs_steady; [done|]. intros q Hq. apply Hc. by apply elem_of_reverse.
  - destruct (follow s path); [by apply update_steady|by apply steady_refl].
Qed.
End calls.

(** A program all of whose calls are harmless, whatever they answer. *)
Fixpoint preparing {A} (p : prog A) : Prop :=
  match p with Ret _ => True | Do c k => harmless c ∧ ∀ r, preparing (k r) end.

Lemma preparing_bind {A B} (p : prog A) (f : A → prog B) : preparing p → (∀ a, preparing (f a)) → preparing (bindp p f).
Proof. intros Hp Hf. induction p as [a|X c k IH]; cbn [bindp]; [done|]. destruct Hp as [H1 H2]. split; [done|]. intros r. by apply IH. Qed.

Lemma preparing_bind_io {A B} (p : io A) (f : A → io B) : preparing p → (∀ a, preparing (f a)) → preparing (p ≫= f).
Proof. intros Hp Hf. apply preparing_bind; [done|]. by intros [a|e]. Qed.

Lemma preparing_catch {A} (p : io A) h : preparing p → (∀ e, preparing (h e)) → preparing (catch p h).
Proof. intros Hp Hf. apply preparing_bind; [done|]. by intros [a|e]. Qed.

Lemma preparing_os {X} (c : call X) : harmless c → preparing (os c).
Proof. intros Hc. split; [done|]. by intros []. Qed.

Lemma preparing_require k b : preparing (require k b).
Proof. by destruct b. Qed.

End frame.

(** The calls of a program that prepares. *)
Ltac prepare := repeat first [apply preparing_bind_io|apply preparing_catch|apply preparing_require|apply preparing_os|intros ?|case_match]; try exact I.

(** ** The files around a path *)

(** The directories the path is in. *)
Definition ancestors (path : string) : list string := Dir path :: above (len (Dir path)) (Dir path).

(** What a write that was cut off may have left. *)
Definition temp_file (k : safe_kind) (path p : string) : Prop :=
  ∃ name, p = join_dir path name ∧ HasPrefix name (temp_prefix k path) = true ∧ has_byte "/" name = false.

(** What preparing for a write leaves alone. *)
Definition spared (k : safe_kind) (path p : string) : Prop := p ≠ path +:+ ".lock" ∧ p ∉ ancestors path ∧ ¬ temp_file k path p.

(** No call says that a file is missing which is there. *)
Definition honest (f : fault) : Prop := match f with Works => True | Fails e | Short _ e => e ≠ ENOENT end.

Lemma wp_weaken {A} uid resolve keygen (allow allow' : fault → Prop) rely (inv inv' : fs → Prop) (p : prog A) Q s :
  (∀ f, allow f → allow' f) → (∀ s, inv' s → inv s) → wp uid resolve keygen allow' rely inv' p Q s → wp uid resolve keygen allow rely inv p Q s.
Proof.
  intros Ha Hi. revert s. induction p as [a|X c k IH]; intros s; cbn [wp]; [done|]. intros H s1 f Hr Hf. destruct (H s1 f Hr (Ha f Hf)) as [H1 H2]. split; [by apply Hi|by apply IH].
Qed.

Lemma HasPrefix_spec s p : HasPrefix s p = true → ∃ q, s = p +:+ q.
Proof. apply sprefix_spec. Qed.

Lemma temp_name_plain k path name : known_kind k → HasPrefix name (temp_prefix k path) = true → plain_segment name = true ∧ len (Base path) < len name.
Proof.
  intros Hk (q & ->)%HasPrefix_spec. unfold temp_prefix. rewrite !len_app.
  destruct Hk as [-> |[-> | ->]]; cbn [sk_temp config_kind known_hosts_kind authorized_keys_kind len String.length]; (split; [reflexivity|unfold len; cbn [String.length]; lia]).
Qed.

Lemma temp_file_ne k path : known_kind k → ¬ temp_file k path path.
Proof.
  intros Hk (name & Heq & [Hp Hlen]%temp_name_plain & Hn); [|done]. pose proof (Base_path_join (Dir path) name Hp Hn) as Hb. unfold join_dir in Heq. rewrite <- Heq in Hb.
  rewrite Hb in Hlen. lia.
Qed.

Lemma temp_file_unique k path pid counter :
  known_kind k → Base path ≠ "/" → temp_file k path (join_dir path (temp_prefix k path +:+ temp_unique pid counter)).
Proof.
  intros Hk Hb. eexists. split; [done|]. split; [apply HasPrefix_app|]. unfold temp_prefix. rewrite !has_byte_app, unique_clean, (Base_clean path Hb). by destruct Hk as [-> |[-> | ->]].
Qed.

Lemma spared_path k path : known_kind k → path ∉ ancestors path → spared k path path.
Proof.
  intros Hk Ha. split; [|split; [done|by apply temp_file_ne]]. intros H. apply (f_equal len) in H. rewrite len_app in H. unfold len in H. cbn [String.length] in H. lia.
Qed.

(** *** Absolute paths *)

Definition absolute (segs : list string) : string := "/" +:+ GoStrings.Join "/" segs.

Definition path_segment (s : string) : Prop := plain_segment s = true ∧ has_byte "/" s = false.

Lemma absolute_path path : HasPrefix path "/" = true → Clean path = path → ∃ segs, path = absolute segs ∧ Forall path_segment segs.
Proof.
  intros (t & ->)%HasPrefix_spec Hc. apply (Clean_fixed t) in Hc as [->|Hp]; [by exists []|]. exists (Split "/" t). split.
  - unfold absolute. by rewrite (Join_Split "/" t).
  - pose proof (Split_clean "/" t) as Hs. rewrite forallb_forall in Hp. rewrite Forall_forall in Hs. apply Forall_forall. intros s Hin.
    split; [apply Hp; by apply list_elem_of_In|by apply Hs].
Qed.

Lemma segment_nonempty s : path_segment s → s ≠ "".
Proof. by intros [H _] ->. Qed.

Lemma Clean_absolute segs : Forall path_segment segs → Clean (absolute segs) = absolute segs.
Proof.
  intros Hs. destruct (decide (segs = [])) as [->|Hne]; [done|]. apply Clean_fixed. right. rewrite (Split_Join "/"); [|done|].
  - apply forallb_forall. intros s Hin%list_elem_of_In. rewrite Forall_forall in Hs. by apply Hs.
  - eapply Forall_impl; [exact Hs|]. by intros s [_ H].
Qed.

Lemma clean_segments_trailing rooted st l : clean_segments rooted st (l ++ [""]) = clean_segments rooted st l.
Proof. revert st. induction l as [|x l IH]; intros st; [reflexivity|]. cbn [app clean_segments]. repeat case_match; apply IH. Qed.

Lemma Clean_trailing q : HasPrefix q "/" = true → Clean (q +:+ "/") = Clean q.
Proof.
  intros (t & ->)%HasPrefix_spec. unfold Clean. rewrite (sapp_assoc "/" t "/"), !HasPrefix_app. f_equal. f_equal. rewrite <- (sapp_assoc "/" t "/").
  change (("/" +:+ t) +:+ "/") with (("/" +:+ t) +:+ String "/" ""). rewrite (Split_app "/" ("/" +:+ t) "") by done.
  apply clean_segments_trailing.
Qed.

Lemma from_byte_app c (a b : string) : has_byte c a = false → from_byte c (a +:+ String c b) = String c b.
Proof.
  induction a as [|x a IH]; [by intros _; cbn; rewrite bool_decide_eq_true_2|]. rewrite has_byte_cons. intros [H1 H2]%orb_false_iff. cbn. rewrite H1. by apply IH.
Qed.

Lemma has_byte_rev c (s : string) : has_byte c (String.rev s) = has_byte c s.
Proof. induction s as [|a s IH]; [done|]. rewrite srev_cons, has_byte_app, IH, !has_byte_cons. cbn. rewrite orb_false_r. apply orb_comm. Qed.

Lemma Dir_snoc d n : has_byte "/" n = false → Dir (d +:+ "/" +:+ n) = Clean (d +:+ "/").
Proof.
  intros Hn. unfold Dir. f_equal. rewrite <- (sapp_assoc d "/" n), srev_app, srev_app. change (String.rev "/" +:+ String.rev d) with (String "/" (String.rev d)).
  rewrite from_byte_app by by rewrite has_byte_rev. by rewrite srev_cons, srev_rev.
Qed.

Lemma Dir_absolute segs n : Forall path_segment segs → path_segment n → Dir (absolute (segs ++ [n])) = absolute segs.
Proof.
  intros Hs Hn. unfold absolute at 1. destruct (decide (segs = [])) as [->|Hne]; [exact (Dir_snoc "" n (proj2 Hn))|].
  rewrite Join_snoc, <- sapp_assoc by done. rewrite Dir_snoc by apply Hn. rewrite Clean_trailing by apply HasPrefix_app. by apply Clean_absolute.
Qed.

Lemma Base_absolute segs n : path_segment n → Base (absolute (segs ++ [n])) = n.
Proof.
  intros Hn. unfold absolute. destruct (decide (segs = [])) as [->|Hne]; [apply (Base_join ""); [by apply segment_nonempty|apply Hn]|].
  rewrite Join_snoc, <- sapp_assoc by done. apply Base_join; [by apply segment_nonempty|apply Hn].
Qed.

Lemma Clean_double n : path_segment n → Clean ("//" +:+ n) = "/" +:+ n.
Proof.
  intros [Hp Hn]. unfold Clean. change ("//" +:+ n) with ("/" +:+ ("/" +:+ n)). rewrite HasPrefix_app. f_equal.
  assert (Hs : Split "/" ("/" +:+ ("/" +:+ n)) = [""; ""; n]).
  { change ("/" +:+ ("/" +:+ n)) with ("/" +:+ String "/" n). by rewrite (Split_app "/" "/" n). }
  rewrite Hs. cbn [clean_segments]. rewrite !bool_decide_eq_true_2 by done. cbn [orb]. unfold plain_segment in Hp. bool_prop. by rewrite !bool_decide_eq_false_2.
Qed.

Lemma join_absolute segs n : Forall path_segment segs → path_segment n → path_join (absolute segs) n = absolute (segs ++ [n]).
Proof.
  intros Hs Hn. pose proof (segment_nonempty n Hn) as Hne. unfold path_join. rewrite !filter_cons_True, filter_nil by done.
  change (GoStrings.Join "/" [absolute segs; n]) with (absolute segs +:+ "/" +:+ n). destruct (decide (segs = [])) as [->|Hsegs]; [by apply Clean_double|].
  assert (Heq : absolute segs +:+ "/" +:+ n = absolute (segs ++ [n])).
  { unfold absolute. rewrite Join_snoc by done. by rewrite <- !sapp_assoc. }
  rewrite Heq. apply Clean_absolute. apply Forall_app. split; [done|by constructor].
Qed.

Lemma len_absolute segs n : path_segment n → len (absolute segs) < len (absolute (segs ++ [n])).
Proof.
  intros Hn%segment_nonempty. assert (Hl : 0 < len n) by (destruct n; [done|unfold len; cbn; lia]). unfold absolute. destruct (decide (segs = [])) as [->|Hne].
  - change (1 < S (len n)). lia.
  - rewrite Join_snoc by done. rewrite !len_app. lia.
Qed.

Lemma above_absolute fuel segs p : Forall path_segment segs → p ∈ above fuel (absolute segs) → len p ≤ len (absolute segs).
Proof.
  revert segs. induction fuel as [|fuel IH]; intros segs Hs; cbn [above]; [by intros ?%not_elem_of_nil|]. destruct segs as [|n segs _] using rev_ind.
  { change (Dir (absolute [])) with (absolute []). rewrite bool_decide_eq_true_2 by done. by intros ?%not_elem_of_nil. }
  apply Forall_app in Hs as [Hs [Hn _]%Forall_cons]. rewrite Dir_absolute by done. pose proof (len_absolute segs n Hn). destruct (bool_decide _); [by intros ?%not_elem_of_nil|].
  intros [->|Hin]%elem_of_cons; [lia|]. specialize (IH segs Hs Hin). lia.
Qed.

(** An absolute path that is clean, and not the root, is not one of the directories above
    it. *)
Definition rooted_path (path : string) : Prop := HasPrefix path "/" = true ∧ Clean path = path ∧ path ≠ "/".

Lemma rooted_outside path : rooted_path path → Base path ≠ "/" ∧ path ∉ ancestors path.
Proof.
  intros (Hp & Hc & Hr). destruct (absolute_path path Hp Hc) as (segs & -> & Hs). destruct segs as [|n segs _] using rev_ind; [done|].
  apply Forall_app in Hs as [Hs [Hn _]%Forall_cons]. split; [rewrite Base_absolute by done; by destruct Hn as [_ Hn]; intros ->|].
  unfold ancestors. rewrite Dir_absolute by done. pose proof (len_absolute segs n Hn) as Hl. intros [Heq|Hin]%elem_of_cons.
  - rewrite Heq in Hl. lia.
  - apply above_absolute in Hin; [lia|done].
Qed.

Definition frame (k : safe_kind) (path : string) (keep : string → Prop) (p : string) : Prop := spared k path p ∧ keep p.

Definition everything (p : string) : Prop := True.

Lemma ancestor_not_framed k path keep q : q ∈ ancestors path → ¬ frame k path keep q.
Proof. by intros Hq [(_ & H & _) _]. Qed.

(** ** The steps of an update

    [new]: what the update may write, for the file system [s0] it starts from; [old]: what
    a stop of the machine before it leaves; [keep]: the files it has no business with. *)
Section update.
Context (uid : Z) (resolve : fs → string → result errno string) (keygen : string → string → fs → fs * result errno unit).
Context (k : safe_kind) (path : string) (keep : string → Prop) (durable : bool) (s0 : fs) (old : option string) (new : string → Prop).
Hypothesis Hk : known_kind k.
Hypothesis Hbase : Base path ≠ "/".
Hypothesis Hanc : path ∉ ancestors path.
Hypothesis Hkeep : keep path.
Hypothesis Hwf : fs_wf s0.
Hypothesis Hold : durable = true → ∀ o, after_crash s0 path o → o = old.

Definition may (f : fault) : Prop := allowed durable f ∧ honest f.

(** What anybody finds at any time. *)
Definition update_inv (s : fs) : Prop :=
  (visible s path = visible s0 path ∨ ∃ d, new d ∧ visible s path = Some d) ∧
  (durable = true → ∀ o, after_crash s path o → o = old ∨ ∃ d, new d ∧ o = Some d).

Definition others_same (s : fs) : Prop := ∀ p, frame k path keep p → p ≠ path → visible s p = visible s0 p.

(** Nothing was replaced. *)
Definition same (s : fs) : Prop := update_inv s ∧ others_same s ∧ visible s path = visible s0 path.

#[local] Notation WP := (wp uid resolve keygen may eq update_inv).

#[local] Notation still := (steady (frame k path keep) s0).

Lemma still_same s : still s → same s.
Proof.
  intros Hs. assert (Hp : frame k path keep path) by (split; [by apply spared_path|done]). assert (Hv : visible s path = visible s0 path) by by eapply steady_visible. split; [|split; [|done]].
  - split; [by left|]. intros Hd o Ho. left. apply Hold; [done|]. by eapply steady_crash.
  - intros p Hpp _. by eapply steady_visible.
Qed.

Lemma wp_call {X} (c : call X) (Q : result ioerror X → fs → Prop) s :
  harmless (frame k path keep) c → still s → (∀ r s', still s' → Q r s') → WP (os c) Q s.
Proof.
  intros Hc Hs HQ. apply wp_os. intros s1 f <- _. assert (H : still (perform uid resolve keygen c f s).1).
  { eapply steady_trans; [exact Hs|]. apply perform_steady; [done|apply Hs]. }
  split; [by apply still_same|by apply HQ].
Qed.

Lemma wp_preparing {A} (p : prog A) (Q : A → fs → Prop) s : preparing (frame k path keep) p → still s → (∀ r s', still s' → Q r s') → WP p Q s.
Proof.
  intros Hp Hs HQ. revert s Hs. induction p as [a|X c kk IH]; intros s Hs; cbn [wp]; [by apply HQ|]. destruct Hp as [H1 H2]. intros s1 f <- _.
  assert (H : still (perform uid resolve keygen c f s).1) by (eapply steady_trans; [exact Hs|]; apply perform_steady; [done|apply Hs]).
  split; [by apply still_same|by apply IH].
Qed.

(** A call that only looks. *)
Lemma wp_look {X} (c : call X) (Q : result ioerror X → fs → Prop) s :
  (∀ f, (perform uid resolve keygen c f s).1 = s) → update_inv s →
  (∀ e, e ≠ ENOENT → Q (Err (OS e)) s) → Q (match (works uid resolve keygen c s).2 with Ok x => Ok x | Err e => Err (OS e) end) s → WP (os c) Q s.
Proof.
  intros Hl Hi HE HQ. apply wp_os. intros s1 f <- [_ Hf]. rewrite Hl. split; [done|]. destruct f as [|e|n e]; cbn [perform snd]; [done|by apply HE..].
Qed.

Lemma wp_open (Q : result ioerror nat → fs → Prop) s :
  still s → (∀ e, e ≠ OS ENOENT → Q (Err e) s) → (fs_names s !! path = None → Q (Err (OS ENOENT)) s) →
  (∀ fd, fs_names s !! path = Some (Node fd) → Q (Ok fd) s) → WP (no_link k (os (OpenRead path))) Q s.
Proof.
  intros Hs HE HN HQ. pose proof (still_same s Hs) as (Hi & _). unfold no_link. apply wp_catch.
  assert (Hq : ∀ e, (e ≠ OS ENOENT → Q (Err e) s) → (e = OS ENOENT → Q (Err e) s) → WP (if bool_decide (e = OS ELOOP) then unsafe k else fail e) Q s).
  { intros e H1 H2. destruct (bool_decide_reflect (e = OS ELOOP)) as [->|]; [by apply HE|]. destruct (decide (e = OS ENOENT)); [by apply H2|by apply H1]. }
  apply wp_look; [by intros []|done|intros e He; apply Hq; [by apply HE|intros [= ->]; done]|]. cbn [works snd].
  destruct (fs_names s !! path) as [[fd|t]|] eqn:E; [by apply HQ|apply Hq; [by apply HE|done]|apply Hq; [by apply HE|by intros _; apply HN]].
Qed.

Lemma quiet_validate u info : quiet (validateFileInfo k u info).
Proof. unfold validateFileInfo. repeat first [apply quiet_bind_io|apply quiet_require|intros ?]. Qed.

Lemma quiet_validate_opened u fd : quiet (validateOpenedFile k u path fd).
Proof. unfold validateOpenedFile. repeat first [apply quiet_bind_io|apply quiet_require|apply quiet_Lstat|apply quiet_Fstat|apply quiet_validate|intros ?]. Qed.

Lemma wp_read_opened fd (Q : result ioerror string → fs → Prop) s :
  still s → fs_names s !! path = Some (Node fd) → (∀ e, Q (Err e) s) → (∀ d, visible s path = Some d → Q (Ok d) s) →
  WP (_ ← validateOpenedFile k uid path fd; os (ReadAll fd)) Q s.
Proof.
  intros Hs Hn HE HQ. pose proof (still_same s Hs) as (Hi & _). apply wp_bind_io, wp_quiet; [apply quiet_validate_opened|done|]. intros [u|e]; [|by apply HE].
  apply wp_look; [by intros []|done|intros e _; by apply HE|]. cbn [works snd]. unfold inode_at. destruct (fs_inodes s !! fd) as [i|] eqn:E; cbn; [|by apply HE].
  apply HQ. unfold visible. by rewrite Hn, E.
Qed.

Lemma wp_closing {A} fd (p : io A) (Q : result ioerror A → fs → Prop) s : WP p (λ r s, update_inv s ∧ Q r s) s → WP (finally p (os (Close fd))) Q s.
Proof.
  intros H. apply wp_finally. eapply wp_mono; [|exact H]. intros r s' [Hi HQ]. apply wp_look; [by intros []|done|done|done].
Qed.

Lemma wp_read_fit (Q : result ioerror string → fs → Prop) s :
  still s → (∀ e, Q (Err e) s) → (∀ d, visible s path = Some d → Q (Ok d) s) → WP (read_fit k uid path) Q s.
Proof.
  intros Hs HE HQ. pose proof (still_same s Hs) as (Hi & _). unfold read_fit. apply wp_bind_io, wp_open; [done|by intros|by intros|]. intros fd Hn.
  apply wp_closing, (wp_read_opened fd); [done..|by split; auto|by split; auto].
Qed.

Lemma wp_read_if_there (Q : result ioerror (string * bool) → fs → Prop) s :
  still s → (∀ e, Q (Err e) s) → (∀ d, visible s path = Some d → Q (Ok (d, true)) s) → (visible s path = None → Q (Ok (EmptyString, false)) s) →
  WP (read_if_there k uid path) Q s.
Proof.
  intros Hs HE HQ HN. pose proof (still_same s Hs) as (Hi & _). unfold read_if_there, open_if_there. apply wp_bind_io, wp_catch, wp_bind_io, wp_open; [done|..].
  - intros e He. rewrite bool_decide_eq_false_2 by done. by apply HE.
  - intros Hn. cbn. apply HN. unfold visible. by rewrite Hn.
  - intros fd Hn. cbn [wp ok]. apply wp_closing.
    apply wp_bind_io, wp_quiet; [apply quiet_validate_opened|done|]. intros [u|e]; [|by split; [|apply HE]].
    apply wp_bind_io, wp_look; [by intros []|done|intros e _; by split; [|apply HE]|]. cbn [works snd]. unfold inode_at.
    destruct (fs_inodes s !! fd) as [i|] eqn:E; cbn; [|by split; [|apply HE]]. split; [done|]. apply HQ. unfold visible. by rewrite Hn, E.
Qed.

Lemma wp_with_lock {A} nonBlocking held (fn : io A) (Q : result ioerror A → fs → Prop) s :
  still s → (∀ e s', still s' → Q (Err e) s') → (∀ s', still s' → WP fn (λ r s, update_inv s ∧ Q r s) s') → WP (with_lock k uid nonBlocking held path fn) Q s.
Proof.
  intros Hs HE Hfn. unfold with_lock. assert (Hlock : ¬ frame k path keep (path +:+ ".lock")) by by intros [[H _] _]. apply wp_bind_io, wp_preparing.
  - apply preparing_catch; [by apply preparing_os|]. intros e. by destruct (bool_decide _).
  - done.
  - intros [fd|e] s1 H1; [|by apply HE]. apply wp_closing. apply wp_bind_io, wp_preparing.
    { unfold validateLockFile. repeat first [apply preparing_bind_io|apply preparing_require|apply preparing_os|intros ?]. all: exact I. }
    { done. }
    assert (HE' : ∀ e s', still s' → update_inv s' ∧ Q (Err e) s') by (intros e s' H'; split; [by apply still_same|by apply HE]).
    intros [u|e] s2 H2; [|by apply HE']. apply wp_bind_io, wp_call; [done..|]. intros [u1|e] s3 H3; [|by apply HE'].
    apply wp_bind_io, wp_preparing; [|done|].
    { apply preparing_catch; [by apply preparing_os|]. intros e. by destruct (_ && _). }
    intros [u2|e] s4 H4; [|by apply HE']. apply wp_finally. eapply wp_mono; [|by apply Hfn]. intros r s5 [Hi HQ]. by apply wp_look; [intros []|..].
Qed.

Lemma readdir_plain s dir l f :
  (perform uid resolve keygen (ReadDir dir) f s).2 = Ok l → ∀ name d, (name, d) ∈ l → name = "/" ∨ has_byte "/" name = false.
Proof.
  destruct f as [|e|n e]; cbn [perform works snd]; [|discriminate..]. destruct (is_kind s dir Folder); [|discriminate]. intros [= <-] name d Hin.
  unfold sorted_names in Hin. rewrite stable_sort_perm in Hin. apply list_elem_of_omap in Hin as ([p e] & _ & H). destruct (_ && _); [|discriminate].
  injection H as <- _. destruct (decide (Base p = "/")); [by left|right; by apply Base_clean].
Qed.

Lemma preparing_temps prefix entries :
  prefix = temp_prefix k path → (∀ name d, (name, d) ∈ entries → name = "/" ∨ has_byte "/" name = false) → preparing (frame k path keep) (remove_temps path prefix entries).
Proof.
  intros -> Hplain. induction entries as [|[name d] entries IH]; cbn [remove_temps]; [done|]. assert (IH' : preparing (frame k path keep) (remove_temps path (temp_prefix k path) entries)).
  { apply IH. intros n d' Hin. apply (Hplain n d'). by right. }
  destruct d; [done|]. destruct (HasPrefix name (temp_prefix k path)) eqn:Hp; [|done]. apply preparing_bind_io; [|done]. apply preparing_catch.
  - apply preparing_os. intros [(_ & _ & H) _]. apply H. exists name. split; [done|]. split; [done|]. destruct (Hplain name false ltac:(by left)) as [->|]; [|done].
    apply HasPrefix_spec in Hp as (q & Hq). unfold temp_prefix in Hq. by destruct Hk as [-> |[-> | ->]].
  - intros e. by destruct (bool_decide _).
Qed.

Lemma wp_stale_temps (Q : result ioerror () → fs → Prop) s : still s → (∀ r s', still s' → Q r s') → WP (remove_stale_temps k path) Q s.
Proof.
  intros Hs HQ. pose proof (still_same s Hs) as (Hi & _). unfold remove_stale_temps. apply wp_bind_io, wp_os. intros s1 f <- _.
  assert (Hl : (perform uid resolve keygen (ReadDir (Dir path)) f s).1 = s) by by destruct f. pose proof (readdir_plain s (Dir path)) as Hp. rewrite Hl. split; [done|].
  destruct (perform uid resolve keygen (ReadDir (Dir path)) f s).2 as [l|e] eqn:E; [|by apply HQ]. apply wp_preparing; [|done..]. apply preparing_temps; [done|]. by apply (Hp l f).
Qed.

(** What a write that reports success leaves. *)
Definition written (data : string) (perm : Z) (s : fs) : Prop :=
  update_inv s ∧ others_same s ∧ holds s path data perm uid ∧ (durable = true → ∀ o, after_crash s path o → o = Some data).

(** One that reports an error: it may have replaced the file. *)
Definition maybe_written (data : string) (s : fs) : Prop :=
  update_inv s ∧ others_same s ∧ (visible s path = visible s0 path ∨ visible s path = Some data).

(** All a write itself may change: the path and a temporary file. *)
Definition only_path (s s' : fs) : Prop := ∀ p, p ≠ path → ¬ temp_file k path p → visible s' p = visible s p.

Lemma wp_writer data perm pid counter w (Q : result ioerror () → fs → Prop) s :
  atomic_writer uid path data perm pid counter k w → still s → new data →
  (∀ e s', maybe_written data s' → only_path s s' → Q (Err e) s') → (∀ s', written data perm s' → only_path s s' → Q (Ok ()) s') → WP w Q s.
Proof.
  intros Hw Hs Hnew HE HQ. assert (Hp : frame k path keep path) by (split; [by apply spared_path|done]). assert (Hv : visible s path = visible s0 path) by by eapply steady_visible.
  assert (Hinv : ∀ s', replace_inv path data durable s old s' → update_inv s').
  { intros s' [H1 H2]. rewrite Hv in H1. split; [destruct H1; [by left|right; by exists data]|]. intros Hd o Ho. destruct (H2 Hd o Ho); [by left|right; by exists data]. }
  eapply wp_weaken; [by intros f [Hf _]|exact Hinv|]. eapply wp_mono; [|apply (writer_wp uid resolve keygen path data perm pid counter k w durable s old); [done..|apply Hs|]].
  2: { intros Hd o Ho. apply Hold; [done|]. by eapply steady_crash. }
  intros r s' (Hi & Ho & Hok).
  assert (Honly : only_path s s') by (intros p Hne Ht; apply Ho; [done|]; intros ->; by apply Ht, temp_file_unique).
  assert (Ho' : others_same s') by (intros p [Hpp Hkp] Hne; rewrite Honly by (done || apply Hpp); by eapply steady_visible).
  destruct r as [[]|e].
  - destruct (Hok eq_refl) as (H1 & _ & H2). apply HQ; [|done]. split; [by apply Hinv|by split].
  - apply HE; [|done]. split; [by apply Hinv|]. split; [done|]. rewrite <- Hv. apply Hi.
Qed.

(** *** A copy of the file under another name *)

Lemma touched_still q fd d s s' : still s → ¬ frame k path keep q → touched path q s fd d false s' → still s'.
Proof.
  intros Hs Hq [Hf Hi Hpast Ho Hp Hw]. assert (Hne : ∀ p, frame k path keep p → p ≠ q) by by intros p Hpp ->. eapply steady_trans; [exact Hs|]. split; [| | |done].
  - intros p Hpp. destruct (decide (p = path)) as [->|]; [done|]. by apply Ho; [|apply Hne].
  - intros names Hin. destruct (Hpast names Hin) as [(n0 & Hn0 & H0)|[? _]]; [|done]. exists n0. split; [done|]. intros p Hpp. by apply H0, Hne.
  - intros ino i0 H0. exists i0. split; [|done]. rewrite Hi, lookup_insert_ne; [done|congruence].
Qed.

Lemma visible_crash s data : visible s path = Some data → after_crash s path (Some data).
Proof.
  unfold visible. intros H. exists (fs_names s). split; [by left|]. destruct (fs_names s !! path) as [[ino|]|]; [|done..]. exists data. split; [done|]. intros i Hi _.
  rewrite Hi in H. by injection H as ->.
Qed.

Lemma wp_copy q data perm (Q : result ioerror () → fs → Prop) s :
  still s → ¬ frame k path keep q → q ≠ path → visible s0 path = Some data → (∀ e s', still s' → Q (Err e) s') →
  (∀ s', still s' → holds s' q data perm uid → Q (Ok ()) s') → WP (write_new q data perm syncBestEffort) Q s.
Proof.
  intros Hs Hq Hne Hdata HE HQ. pose proof (still_same s Hs) as (_ & _ & Hv). assert (Hp : frame k path keep path) by (split; [by apply spared_path|done]).
  assert (Hcrash : durable = true → ∀ o, after_crash s path o → o = old) by (intros Hd o Ho; apply Hold; [done|]; by eapply steady_crash).
  eapply wp_weaken; [by intros f [Hf _]| |eapply wp_mono; [|apply (write_new_wp uid resolve keygen path q data perm durable s old); [done|apply Hs|done|by apply (best_effort_syncs uid resolve keygen path q data perm durable s old Hne (st_wf _ _ _ Hs) Hcrash)]]].
  - intros s' [H1 H2]. split; [left; rewrite Hv, Hdata in H1; rewrite Hdata; by destruct H1|]. intros Hd o Ho. left. destruct (H2 Hd o Ho) as [-> | ->]; [done|].
    apply (Hold Hd). by apply visible_crash.
  - intros [[]|e] s'.
    + intros (fd & d & [Ht Hn] & Hw). apply HQ; [by eapply touched_still|]. destruct Hw as (Hk' & Hd & Hpm & Hu & _). exists fd, d. split; [done|].
      destruct Ht as [_ -> _ _ _ _]. by rewrite lookup_insert_eq.
    + intros [->|(fd & d & Ht)]; apply HE; [done|by eapply touched_still].
Qed.

Lemma wp_sync_directory dir (Q : result ioerror () → fs → Prop) s :
  still s → (∀ r s', still s' → (∀ p, visible s' p = visible s p) → Q r s') → WP (syncDirBestEffort dir) Q s.
Proof.
  intros Hs HQ. pose proof (still_same s Hs) as (Hi & _). unfold syncDirBestEffort. apply wp_bind_io, wp_look; [by intros []|done|by intros e _; apply HQ|]. cbn [works snd].
  destruct (_ : result errno ()) as [u|e]; [|by apply HQ]. apply wp_catch, wp_os. intros s1 f <- _.
  assert (Hfail : ∀ e, WP (if isUnsupportedSync (OS e) then ok () else fail (OS e)) Q s) by (intros e; destruct (isUnsupportedSync _); by apply HQ).
  destruct f as [|e|n e]; cbn [perform works short fst snd]; [|split; [done|apply Hfail]..].
  assert (H' : still (MkFs (fs_names s) (fs_inodes s) [])) by (eapply steady_trans; [exact Hs|]; apply sync_dir_steady, Hs).
  split; [by apply still_same|by apply HQ].
Qed.

(** *** The write that makes nothing durable *)

Lemma wp_plain_write data perm (Q : result ioerror () → fs → Prop) s :
  durable = false → new data → ¬ frame k path keep (path +:+ ".tmp") → still s → (∀ e s', still s' → Q (Err e) s') →
  (∀ s', update_inv s' → others_same s' → holds s' path data perm uid → Q (Ok ()) s') → WP (writeConfigAtomic path data perm) Q s.
Proof.
  intros Hdur Hnew Htmp Hs HE HQ. set (tmp := path +:+ ".tmp") in *.
  assert (Hne : tmp ≠ path) by (intros H; apply (f_equal len) in H; unfold tmp in H; rewrite len_app in H; unfold len in H; cbn [String.length] in H; lia).
  unfold writeConfigAtomic, removePathIfExists. fold tmp. apply wp_bind_io, wp_preparing; [|done|].
  { prepare. all: done. }
  intros [u|e] s1 H1; [|by apply HE]. pose proof (still_same s1 H1) as (_ & _ & Hv).
  assert (Hno : durable = true → ∀ o, after_crash s1 path o → o = old) by (by rewrite Hdur).
  assert (Hinv : ∀ s', replace_inv path data durable s1 old s' → update_inv s').
  { intros s' [H2 _]. rewrite Hv in H2. split; [destruct H2; [by left|right; by exists data]|by rewrite Hdur]. }
  eapply wp_weaken; [by intros f [Hf _]|exact Hinv|].
  apply wp_bind_io. eapply wp_mono; [|apply (write_new_wp uid resolve keygen path tmp data perm durable s1 old); [done|apply H1|done|by apply no_sync]].
  intros [[]|e] s2; [|intros [->|(fd & d & Ht)]; apply HE; [done|by eapply touched_still]]. intros (fd & d & [Ht Hn] & Hw).
  apply wp_on_error, wp_os. intros s3 f <- _.
  assert (Hclean : ∀ e, replace_inv path data durable s1 old s2 ∧ wp uid resolve keygen (allowed durable) eq (replace_inv path data durable s1 old) (os (Remove tmp)) (λ _ s, Q (Err e) s) s2).
  { intros e. split; [by eapply (touched_inv uid path tmp data perm durable s1 old Hne (st_wf _ _ _ H1) Hno)|].
    eapply (wp_remove uid resolve keygen path tmp data perm durable s1 old); [done|apply H1|done|exact Ht|done|]. intros _ s' Ht'. apply HE. by eapply touched_still. }
  destruct f as [|e|n e]; cbn [perform works short fst snd]; [|apply Hclean..].
  destruct (rename_touched uid path tmp data perm durable s1 Hne fd d s2 Ht Hn Hw) as (r & s' & -> & [(-> & Ht' & Hn')|[Hr ->]]); cbn [fst snd].
  2: { destruct r; [done|]. apply Hclean. }
  assert (Hrep : replaced uid path tmp data perm durable s1 s') by by exists fd, d.
  assert (Hri : replace_inv path data durable s1 old s') by by apply (replaced_inv uid path tmp data perm durable s1 old Hne (st_wf _ _ _ H1) Hno).
  split; [done|]. apply HQ; [by apply Hinv| |].
  - intros p Hp Hpp. assert (Hpt : p ≠ tmp) by by intros ->. rewrite (touched_visible path tmp s1 fd d true s' p) by (done || apply H1). by eapply steady_visible.
  - destruct Hw as (Hk' & Hd & Hpm & Hu & _). exists fd, d. split; [by destruct Ht' as [_ _ _ _ -> _]|]. destruct Ht' as [_ -> _ _ _ _]. by rewrite lookup_insert_eq.
Qed.
End update.

(** ** An update against what it computes

    [spec] is what the update makes of the contents it finds: what to write ([None]: there
    is nothing to write) and what to answer. *)
Section refines.
Context {A E : Type} (uid : Z) (k : safe_kind) (path : string) (keep : string → Prop) (durable : bool) (s0 : fs) (old : option string).
Context (spec : result E (option string * A)).

Definition to_write (d : string) : Prop := ∃ a, spec = Ok (Some d, a).

Definition update_post (r : result ioerror A) (s : fs) : Prop :=
  others_same k path keep s0 s ∧
  match r with
  | Ok a => ∃ o, spec = Ok (o, a) ∧
      match o with
      | None => visible s path = visible s0 path
      | Some d => holds s path d 384 uid ∧ (durable = true → ∀ o, after_crash s path o → o = Some d)
      end
  | Err _ => visible s path = visible s0 path ∨ ∃ d, to_write d ∧ visible s path = Some d
  end.

Definition refines_update (out : list fs * (result ioerror A * nat * fs)) : Prop :=
  Forall (update_inv path durable s0 old to_write) out.1 ∧ update_post out.2.1.1 out.2.2.

Lemma post_same r s : same k path keep durable s0 old to_write s → (∀ a, r = Ok a → spec = Ok (None, a)) → update_post r s.
Proof. intros (_ & Ho & Hv) Hr. split; [done|]. destruct r as [a|e]; [|by left]. exists None. split; [by apply Hr|done]. Qed.

Lemma post_failed d e s : to_write d → maybe_written k path keep durable s0 old to_write d s → update_post (Err e) s.
Proof. intros Hd (_ & Ho & [Hv|Hv]); (split; [done|]); [by left|right; by exists d]. Qed.

Lemma post_written d a s : spec = Ok (Some d, a) → written uid k path keep durable s0 old to_write d 384 s → update_post (Ok a) s.
Proof. intros Hd (_ & Ho & Hw & Hc). split; [done|]. exists (Some d). by split_all. Qed.

(** From the logic to runs. *)
Lemma refines_sound resolve keygen faults n (p : io A) :
  (∀ n, may durable (faults n)) → wp uid resolve keygen (may durable) eq (update_inv path durable s0 old to_write) p update_post s0 →
  refines_update (exec uid resolve keygen (λ _ s, s) faults n s0 p).
Proof.
  intros Hf Hwp. pose proof (wp_sound uid resolve keygen (may durable) eq _ p _ (λ _ s, s) faults n s0 (λ _ _, eq_refl) Hf Hwp) as H. unfold refines_update.
  by destruct (exec _ _ _ _ _ _ _ _) as [states [[r n'] s']].
Qed.
End refines.

Lemma fine_may durable n : may durable (Samples.fine n).
Proof. by split. Qed.
