(* ===== verification/TrustFiles.v ===== *)
(** * TrustFiles: the known_hosts and authorized_keys files, for
    sshprovision/known_hosts.go and sshprovision/authorized_keys.go

    The operations of [KnownHosts] and [AuthorizedKeys] on the files themselves. *)
From S2P Require Import Prelude GoStrings Paths SSHConfig KnownHosts AuthorizedKeys Files SafeFile FileUpdate.
From Stdlib Require Import Ascii String.
From stdpp Require Import strings gmap.

#[local] Arguments String.append !_ _ / : simpl nomatch.

(** A result of the text, as one of the program. *)
Definition with_code {A E} (code : E → string) (r : result E A) : io A := match r with Ok a => ok a | Err e => fail (Code (code e)) end.

(** ** known_hosts *)
Module known.
Definition known_hosts_code (e : KnownHostError) : string :=
  match e with
  | ErrInvalidKnownHostPin => "invalid_known_host_pin"
  | ErrKnownHostMismatch => "known_host_mismatch"
  | ErrKnownHostNotFound => "known_host_not_found"
  end.

Section ops.
Context (uid : Z) (pid counter : N).

Definition validateKnownHostsPath (path : string) : io () :=
  _ ← (if is_ok (ValidateSSHExecutablePath path) then ok () else unsafe known_hosts_kind);
  rejectSymlinkedKnownHostsAncestry (Dir path).

(** The part of [UpsertKnownHostPin] under the lock. *)
Definition upsert_pin_locked (path : string) (pin : KnownHostPin) : io () :=
  _ ← removeStaleKnownHostsTemps path;
  '(data, _) ← readKnownHostsFileForUpdate uid path;
  let write := writeKnownHostsAtomic path (appendKnownHostLine data (pin_Line pin)) 384 (temp_unique pid counter) in
  match verifyKnownHostPinData data pin with
  | Ok true => ok ()
  | Ok false | Err ErrKnownHostNotFound => write
  | Err e => fail (Code (known_hosts_code e))
  end.

Definition UpsertKnownHostPin (path : string) (pin : KnownHostPin) : io () :=
  _ ← validateKnownHostsPath path;
  _ ← with_code known_hosts_code (validateKnownHostPin pin);
  withKnownHostsLock uid path (upsert_pin_locked path pin).

Definition VerifyKnownHostPin (path : string) (pin : KnownHostPin) : io () :=
  _ ← validateKnownHostsPath path;
  _ ← with_code known_hosts_code (validateKnownHostPin pin);
  '(data, there) ← readKnownHostsFileForUpdate uid path;
  if there : bool then _ ← with_code known_hosts_code (verifyKnownHostPinData data pin); ok () else fail (Code (known_hosts_code ErrKnownHostNotFound)).

(** The caller holds the lock. *)
Definition AppendKnownHostsLinesLocked (path : string) (lines : list string) : io () :=
  if bool_decide (lines = []) then ok ()
  else
    _ ← validateKnownHostsPath path;
    _ ← (if existsb (λ line, ContainsAny line (of_bytes [10; 0])) lines then fail (Code (known_hosts_code ErrInvalidKnownHostPin)) else ok ());
    data ← readKnownHostsFileLenient path;
    writeKnownHostsAtomic path (foldl appendKnownHostLine data lines) 384 (temp_unique pid counter).
End ops.
End known.

(** ** authorized_keys *)
Module authorized.
Definition authorized_keys_code (e : AuthorizedKeyError) : string :=
  match e with
  | ErrInvalidAuthorizedKey => "invalid_authorized_key"
  | ErrAuthorizedKeyConflict => "authorized_key_conflict"
  | ErrAuthorizedKeyNotFound => "authorized_key_not_found"
  | ErrAuthorizedKeysUnsafe => "authorized_keys_unsafe"
  end.

Definition validateAuthorizedKeysHomeDir (path : string) : result AuthorizedKeyError () :=
  if is_ok (ValidateSafeAbsolutePath path) then Ok () else Err ErrAuthorizedKeysUnsafe.

Definition ManagedAuthorizedKeysPath (homeDir : string) : result AuthorizedKeyError string :=
  _ ← validateAuthorizedKeysHomeDir homeDir;
  Ok (path_join (path_join homeDir ".ssh") "authorized_keys").

Section ops.
Context (uid : Z) (pid counter : N).

(** The part of [UpsertManagedAuthorizedKeyFile] under the lock: whether it changed the
    file. *)
Definition upsert_key_locked (path : string) (entry : ManagedAuthorizedKey) : io bool :=
  _ ← removeStaleAuthorizedKeysTemps path;
  '(data, _) ← readAuthorizedKeysFile uid path;
  updated ← with_code authorized_keys_code (UpsertManagedAuthorizedKeyLine data entry);
  if bool_decide (updated = data) then ok false
  else _ ← writeAuthorizedKeysAtomic uid path updated 384 (temp_unique pid counter); ok true.

Definition UpsertManagedAuthorizedKeyFile (homeDir : string) (entry : ManagedAuthorizedKey) : io bool :=
  path ← with_code authorized_keys_code (ManagedAuthorizedKeysPath homeDir);
  _ ← with_code authorized_keys_code (NewManagedAuthorizedKey entry);
  withAuthorizedKeysLock uid path (upsert_key_locked path entry).

Definition VerifyManagedAuthorizedKeyFile (homeDir : string) (entry : ManagedAuthorizedKey) : io () :=
  path ← with_code authorized_keys_code (ManagedAuthorizedKeysPath homeDir);
  _ ← with_code authorized_keys_code (NewManagedAuthorizedKey entry);
  _ ← validateAuthorizedKeysReadPath uid path;
  '(data, there) ← readAuthorizedKeysFile uid path;
  if there : bool then
    updated ← with_code authorized_keys_code (UpsertManagedAuthorizedKeyLine data entry);
    if negb (bool_decide (updated = data)) then fail (Code (authorized_keys_code ErrAuthorizedKeyNotFound)) else ok ()
  else fail (Code (authorized_keys_code ErrAuthorizedKeyNotFound)).
End ops.
End authorized.

(** ** Lemmas *)

Lemma executable_rooted path : ValidateSSHExecutablePath path = Ok () → path ≠ "/" → rooted_path path.
Proof.
  unfold ValidateSSHExecutablePath, ValidateSafeAbsolutePath. intros H Hr. destruct (bool_decide (path = "")); [discriminate|].
  destruct (HasPrefix path "/") eqn:Hp; [|discriminate]. cbn [negb] in H. destruct (ContainsAny _ _); [discriminate|].
  destruct (bool_decide_reflect (Clean path = path)); [by split|discriminate].
Qed.

Lemma preparing_known_path P path : preparing P (known.validateKnownHostsPath path).
Proof. unfold known.validateKnownHostsPath, rejectSymlinkedKnownHostsAncestry. prepare. all: done. Qed.

Lemma preparing_known_dir k path keep : preparing (frame k path keep) (ensureKnownHostsDir (Dir path)).
Proof.
  unfold ensureKnownHostsDir, rejectSymlinkedKnownHostsAncestry. prepare. all: try done. intros q Hq. by apply ancestor_not_framed.
Qed.

Lemma preparing_authorized_dir uid k path keep : preparing (frame k path keep) (ensureAuthorizedKeysDir uid (Dir path)).
Proof.
  unfold ensureAuthorizedKeysDir, validateAuthorizedKeysExistingDir, validateAuthorizedKeysDirInfo, resolves_to_itself. prepare. all: try done.
  apply ancestor_not_framed. by left.
Qed.

Lemma verify_true pin found lines b : verify_lines pin found lines = Ok b → b = true.
Proof.
  revert found. induction lines as [|line lines IH]; intros found; cbn [verify_lines]; [by destruct found; intros [=]|]. repeat case_match; eauto; discriminate.
Qed.

(** ** What the texts say *)

Definition known_spec (data : string) (pin : KnownHostPin) : result KnownHostError (option string * ()) := o ← UpsertKnownHostPin data pin; Ok (o, ()).

(** Whether the file is to be changed is the answer. *)
Definition authorized_spec (data : string) (entry : ManagedAuthorizedKey) : result AuthorizedKeyError (option string * bool) :=
  o ← UpsertManagedAuthorizedKeyFile data entry; Ok (o, bool_decide (is_Some o)).

(** ** Theorems *)

Section known_update.
Context (uid : Z) (resolve : fs → string → result errno string) (keygen : string → string → fs → fs * result errno unit).
Context (path : string) (pin : KnownHostPin) (pid counter : N) (durable : bool) (s0 : fs) (old : option string).
Hypothesis Hroot : path ≠ "/".
Hypothesis Hwf : fs_wf s0.
Hypothesis Hold : durable = true → ∀ o, after_crash s0 path o → o = old.

#[local] Notation spec := (known_spec (default "" (visible s0 path)) pin).

#[local] Notation inv := (update_inv path durable s0 old (to_write spec)).

#[local] Notation post := (update_post uid known_hosts_kind path everything durable s0 spec).

#[local] Notation WP := (wp uid resolve keygen (may durable) eq inv).

#[local] Notation still := (steady (frame known_hosts_kind path everything) s0).

Let Hk : known_kind known_hosts_kind := or_intror (or_introl eq_refl).

Let Hkeep : everything path := I.

Lemma known_locked s :
  rooted_path path → validateKnownHostPin pin = Ok () → still s → WP (known.upsert_pin_locked uid pid counter path pin) (λ r s, inv s ∧ post r s) s.
Proof.
  intros Hpath Hpin Hs. destruct (rooted_outside path Hpath) as [Hb Ha].
  assert (Hsame : ∀ r s, still s → (∀ a, r = Ok a → spec = Ok (None, a)) → inv s ∧ post r s).
  { intros r s' Hs' Hr. assert (H : same known_hosts_kind path everything durable s0 old (to_write spec) s') by by apply still_same. split; [apply H|by eapply post_same]. }
  assert (Hfinish : ∀ data s, still s → default "" (visible s0 path) = data → WP (match verifyKnownHostPinData data pin with
    | Ok true => ok ()
    | Ok false | Err ErrKnownHostNotFound => writeKnownHostsAtomic path (appendKnownHostLine data (pin_Line pin)) 384 (temp_unique pid counter)
    | Err e => fail (Code (known.known_hosts_code e)) end) (λ r s, inv s ∧ post r s) s).
  { intros data s1 H1 Hdata. assert (Hspec : spec = match verifyKnownHostPinData data pin with
      | Ok _ => Ok (None, ()) | Err ErrKnownHostNotFound => Ok (Some (appendKnownHostLine data (pin_Line pin)), ()) | Err e => Err e end).
    { unfold known_spec, UpsertKnownHostPin. rewrite Hpin, Hdata. cbn [mbind result_bind]. by destruct (verifyKnownHostPinData data pin) as [|[]]. }
    destruct (verifyKnownHostPinData data pin) as [b|e] eqn:Hv.
    - rewrite (verify_true _ _ _ _ Hv). apply Hsame; [done|]. by intros [] _.
    - destruct e; [by apply Hsame..|]. assert (Hw : to_write spec (appendKnownHostLine data (pin_Line pin))) by by exists (). eapply wp_writer with (keep := everything); [done..|apply writer_known_hosts|done|done| |].
      + intros e s' H _. split; [apply H|by eapply post_failed].
      + intros s' H _. split; [apply H|by eapply post_written]. }
  apply wp_bind_io, (wp_stale_temps _ _ _ known_hosts_kind path everything); [done..|]. intros [u|e] s1 H1; [|by apply Hsame]. apply wp_bind_io.
  assert (Hp : frame known_hosts_kind path everything path) by (split; [by apply spared_path|exact I]). assert (Hvis : visible s1 path = visible s0 path) by by eapply steady_visible.
  apply wp_read_if_there with (keep := everything); [done..| | |].
  - intros e. by apply Hsame.
  - intros d Hd. apply Hfinish; [done|by rewrite <- Hvis, Hd].
  - intros Hd. apply Hfinish; [done|by rewrite <- Hvis, Hd].
Qed.

Lemma known_update_wp : WP (known.UpsertKnownHostPin uid pid counter path pin) post s0.
Proof.
  assert (Hs0 : still s0) by by apply steady_refl. unfold known.UpsertKnownHostPin, known.validateKnownHostsPath.
  destruct (ValidateSSHExecutablePath path) as [[]|e] eqn:Hpath; [|cbn; split; [done|by left]].
  assert (Hrooted : rooted_path path) by by apply executable_rooted. destruct (rooted_outside path Hrooted) as [Hb Ha].
  assert (HE : ∀ e s, still s → post (Err e) s).
  { intros e s Hs. eapply (post_same uid known_hosts_kind path everything durable s0 old); [by apply still_same|done]. }
  apply wp_bind_io, (wp_preparing _ _ _ known_hosts_kind _ everything); [done..|unfold rejectSymlinkedKnownHostsAncestry; cbn [is_ok]; prepare; done|done|].
  intros [u|e] s1 H1; [|by apply HE]. apply wp_bind_io. destruct (validateKnownHostPin pin) as [[]|e] eqn:Hpin; [|by apply HE]. cbn [with_code wp ok].
  unfold withKnownHostsLock. apply wp_bind_io, (wp_preparing _ _ _ known_hosts_kind _ everything); [done..|apply preparing_known_dir|done|].
  intros [u1|e] s2 H2; [|by apply HE]. apply wp_with_lock with (keep := everything); [done..|]. intros s3 H3. by apply known_locked.
Qed.
End known_update.

Lemma managed_path_rooted homeDir path : authorized.ManagedAuthorizedKeysPath homeDir = Ok path → rooted_path path.
Proof.
  unfold authorized.ManagedAuthorizedKeysPath, authorized.validateAuthorizedKeysHomeDir. destruct (is_ok (ValidateSafeAbsolutePath homeDir)) eqn:Hv; [|discriminate].
  intros [= <-]. unfold ValidateSafeAbsolutePath in Hv. destruct (bool_decide (homeDir = "")); [discriminate|]. destruct (HasPrefix homeDir "/") eqn:Hp; [|discriminate].
  cbn [negb] in Hv. destruct (ContainsAny _ _); [discriminate|]. destruct (bool_decide_reflect (Clean homeDir = homeDir)) as [Hc|]; [|discriminate].
  destruct (absolute_path homeDir Hp Hc) as (segs & -> & Hs). assert (Hs1 : path_segment ".ssh") by done. assert (Hs2 : path_segment "authorized_keys") by done.
  rewrite (join_absolute segs ".ssh") by done. assert (Hs' : Forall path_segment (segs ++ [".ssh"])) by (apply Forall_app; split; [done|by constructor]).
  rewrite (join_absolute _ "authorized_keys") by done. split; [apply HasPrefix_app|]. split; [apply Clean_absolute, Forall_app; split; [done|by constructor]|].
  intros Heq. pose proof (Base_absolute (segs ++ [".ssh"]) "authorized_keys" Hs2) as Hb. by rewrite Heq in Hb.
Qed.

Section authorized_update.
Context (uid : Z) (resolve : fs → string → result errno string) (keygen : string → string → fs → fs * result errno unit).
Context (homeDir path : string) (entry : ManagedAuthorizedKey) (pid counter : N) (durable : bool) (s0 : fs) (old : option string).
Hypothesis Hpath : authorized.ManagedAuthorizedKeysPath homeDir = Ok path.
Hypothesis Hwf : fs_wf s0.
Hypothesis Hold : durable = true → ∀ o, after_crash s0 path o → o = old.

#[local] Notation spec := (authorized_spec (default "" (visible s0 path)) entry).

#[local] Notation inv := (update_inv path durable s0 old (to_write spec)).

#[local] Notation post := (update_post uid authorized_keys_kind path everything durable s0 spec).

#[local] Notation WP := (wp uid resolve keygen (may durable) eq inv).

#[local] Notation still := (steady (frame authorized_keys_kind path everything) s0).

Let Hk : known_kind authorized_keys_kind := or_intror (or_intror eq_refl).

Let Hkeep : everything path := I.

Let Hb : Base path ≠ "/" := proj1 (rooted_outside path (managed_path_rooted homeDir path Hpath)).

Let Ha : path ∉ ancestors path := proj2 (rooted_outside path (managed_path_rooted homeDir path Hpath)).

Lemma authorized_finish data s : is_ok (NewManagedAuthorizedKey entry) = true → still s → default "" (visible s0 path) = data →
  WP (updated ← with_code authorized.authorized_keys_code (UpsertManagedAuthorizedKeyLine data entry);
      if bool_decide (updated = data) then ok false
      else _ ← writeAuthorizedKeysAtomic uid path updated 384 (temp_unique pid counter); ok true) (λ r s, inv s ∧ post r s) s.
Proof.
  intros Hentry Hs Hdata. assert (Hspec : spec = (updated ← UpsertManagedAuthorizedKeyLine data entry; Ok (if bool_decide (updated = data) then (None, false) else (Some updated, true)))).
  { unfold authorized_spec, UpsertManagedAuthorizedKeyFile. rewrite Hdata. destruct (NewManagedAuthorizedKey entry); [|discriminate].
    cbn [mbind result_bind]. destruct (UpsertManagedAuthorizedKeyLine data entry) as [u|]; [|done]. cbn [mbind result_bind]. by destruct (bool_decide (u = data)). }
  assert (Hsame : ∀ r, (∀ a, r = Ok a → spec = Ok (None, a)) → inv s ∧ post r s).
  { intros r Hr. assert (H : same authorized_keys_kind path everything durable s0 old (to_write spec) s) by by apply still_same. split; [apply H|by eapply post_same]. }
  destruct (UpsertManagedAuthorizedKeyLine data entry) as [updated|e]; [|by apply Hsame]. cbn [mbind result_bind] in Hspec.
  change (WP (if bool_decide (updated = data) then ok false else _ ← writeAuthorizedKeysAtomic uid path updated 384 (temp_unique pid counter); ok true) (λ r s, inv s ∧ post r s) s).
  destruct (bool_decide (updated = data)); [apply Hsame; by intros b [= <-]|]. assert (Hw : to_write spec updated) by by exists true.
  apply wp_bind_io. eapply wp_writer with (keep := everything); [done..|apply writer_authorized_keys|done|done| |].
  - intros e s' H _. split; [apply H|by eapply post_failed].
  - intros s' H _. cbn [wp ok]. split; [apply H|by eapply post_written].
Qed.

Lemma authorized_locked s : is_ok (NewManagedAuthorizedKey entry) = true → still s → WP (authorized.upsert_key_locked uid pid counter path entry) (λ r s, inv s ∧ post r s) s.
Proof.
  intros Hentry Hs. assert (Hsame : ∀ e s, still s → inv s ∧ post (Err e) s).
  { intros r s' Hs'. assert (H : same authorized_keys_kind path everything durable s0 old (to_write spec) s') by by apply still_same. split; [apply H|by eapply post_same]. }
  apply wp_bind_io, (wp_stale_temps _ _ _ authorized_keys_kind path everything); [done..|]. intros [u|e] s1 H1; [|by apply Hsame]. apply wp_bind_io.
  assert (Hp : frame authorized_keys_kind path everything path) by (split; [by apply spared_path|exact I]). assert (Hvis : visible s1 path = visible s0 path) by by eapply steady_visible.
  apply wp_read_if_there with (keep := everything); [done..| | |].
  - intros e. by apply Hsame.
  - intros d Hd. apply authorized_finish; [done..|by rewrite <- Hvis, Hd].
  - intros Hd. apply authorized_finish; [done..|by rewrite <- Hvis, Hd].
Qed.

Lemma authorized_update_wp : WP (authorized.UpsertManagedAuthorizedKeyFile uid pid counter homeDir entry) post s0.
Proof.
  assert (Hs0 : still s0) by by apply steady_refl. unfold authorized.UpsertManagedAuthorizedKeyFile. rewrite Hpath. apply wp_bind_io. cbn [with_code wp ok].
  assert (HE : ∀ e s, still s → post (Err e) s).
  { intros e s Hs. eapply (post_same uid authorized_keys_kind path everything durable s0 old); [by apply still_same|done]. }
  apply wp_bind_io. destruct (NewManagedAuthorizedKey entry) as [en|e] eqn:Hentry; [|by apply HE]. cbn [with_code wp ok].
  unfold withAuthorizedKeysLock. apply wp_bind_io, (wp_preparing _ _ _ authorized_keys_kind _ everything); [done..|apply preparing_authorized_dir|done|].
  intros [u1|e] s2 H2; [|by apply HE]. apply wp_with_lock with (keep := everything); [done..|]. intros s3 H3. apply authorized_locked; [by rewrite Hentry|done].
Qed.
End authorized_update.

(** C28. Pinning a host key in its file.  [UpsertKnownHostPin] on a known_hosts file does to
    it what the reading of its text says (see [KnownHosts]): when it succeeds, the file
    holds the text with the line appended, closed to everybody else, or is left alone
    when the pin was there; when the text refuses the pin the file is left alone; when a
    call fails the file is as it was or has all of the new text; and no reader, at any
    point or after a stop of the machine, and no other file but the lock, the directories
    and the temporary file, sees anything else. *)
Theorem known_pin_update uid resolve keygen path pin pid counter durable faults n s0 old
    (Hroot : path ≠ "/") (Hwf : fs_wf s0) (Hold : durable = true → ∀ o, after_crash s0 path o → o = old) (Hf : ∀ n, may durable (faults n)) :
  refines_update uid known_hosts_kind path everything durable s0 old (known_spec (default "" (visible s0 path)) pin)
    (exec uid resolve keygen (λ _ s, s) faults n s0 (known.UpsertKnownHostPin uid pid counter path pin)).
Proof. apply refines_sound; [done|]. by apply known_update_wp. Qed.

(** Installing a managed key in its file.  [UpsertManagedAuthorizedKeyFile] does to
    ~/.ssh/authorized_keys what the editing of its text says (see [AuthorizedKeys]), with
    everything that can go wrong as for a known_hosts file, and answers whether it
    changed the file. *)
Theorem managed_key_update uid resolve keygen homeDir path entry pid counter durable faults n s0 old
    (Hpath : authorized.ManagedAuthorizedKeysPath homeDir = Ok path) (Hwf : fs_wf s0)
    (Hold : durable = true → ∀ o, after_crash s0 path o → o = old) (Hf : ∀ n, may durable (faults n)) :
  refines_update uid authorized_keys_kind path everything durable s0 old (authorized_spec (default "" (visible s0 path)) entry)
    (exec uid resolve keygen (λ _ s, s) faults n s0 (authorized.UpsertManagedAuthorizedKeyFile uid pid counter homeDir entry)).
Proof. apply refines_sound; [done|]. by apply authorized_update_wp. Qed.

(** ** Witnesses *)

Module TrustSamples.
Definition sample_pin : KnownHostPin := MkPin "[host-b.local]:2222" "ssh-ed25519" KnownHosts.sample_key.

Definition known_path : string := "/home/known_hosts".

Definition keys_path : string := "/home/.ssh/authorized_keys".

(** Nothing is at a path that the sample file system does not have. *)
Lemma home_none path o : fs_names Samples.home !! path = None → after_crash Samples.home path o → o = None.
Proof. intros Hn (names & Hin & Hc). apply list_elem_of_singleton in Hin as ->. by rewrite Hn in Hc. Qed.
End TrustSamples.

Lemma known_pin_update_witness :
  let out := exec 501 Samples.no_links Samples.no_keygen Samples.alone Samples.fine 0 Samples.home (known.UpsertKnownHostPin 501 7 1 TrustSamples.known_path TrustSamples.sample_pin) in
  refines_update 501 known_hosts_kind TrustSamples.known_path everything true Samples.home None (known_spec "" TrustSamples.sample_pin) out ∧
  Samples.answer out = Ok () ∧ visible (Samples.last_state out) TrustSamples.known_path = Some (pin_Line TrustSamples.sample_pin +:+ String newline "").
Proof.
  split; [|split; vm_compute; reflexivity].
  exact (known_pin_update 501 Samples.no_links Samples.no_keygen TrustSamples.known_path TrustSamples.sample_pin 7 1 true Samples.fine 0 Samples.home None ltac:(discriminate) (Samples.home_wf Samples.old_text)
    (λ _ o, TrustSamples.home_none TrustSamples.known_path o eq_refl) (fine_may true)).
Defined.

Lemma managed_key_update_witness :
  let out := exec 501 Samples.no_links Samples.no_keygen Samples.alone Samples.fine 0 Samples.home (authorized.UpsertManagedAuthorizedKeyFile 501 7 1 "/home" sample_entry) in
  refines_update 501 authorized_keys_kind TrustSamples.keys_path everything true Samples.home None (authorized_spec "" sample_entry) out ∧
  Samples.answer out = Ok true ∧ visible (Samples.last_state out) TrustSamples.keys_path = Some (managed_Line sample_entry +:+ String newline "").
Proof.
  split; [|split; vm_compute; reflexivity].
  exact (managed_key_update 501 Samples.no_links Samples.no_keygen "/home" TrustSamples.keys_path sample_entry 7 1 true Samples.fine 0 Samples.home None eq_refl (Samples.home_wf Samples.old_text)
    (λ _ o, TrustSamples.home_none TrustSamples.keys_path o eq_refl) (fine_may true)).
Defined.
