(* ===== verification/ConfigFile.v ===== *)
(** * The configuration file: config/v2.go, config/ssh_local_material.go, the update of
    config/ssh_peer_config.go, config/config.go

    The operations of [ConfigDoc] on the file: the lock, the reading, the backup and the
    replacement around them.  How an object is written as text is an argument, as is the
    random key of a first start. *)
From S2P Require Import Prelude GoStrings Paths Config Listener Json RawJson SSHConfig ConfigDoc Files SafeFile FileUpdate.
From Stdlib Require Import Ascii String.
From stdpp Require Import strings gmap.

#[local] Arguments String.append !_ _ / : simpl nomatch.

Section ops.
Context (homeDir : option string) (uid : Z) (pid counter : N) (render : raw_object → string).

(** ** Reading *)

Definition readConfigDocumentLocked (path : string) : io configDocument :=
  withConfigFileLock uid path (data ← readConfigFileSafe uid path; pure (parseConfigDocument homeDir data)).

Definition ReadRevisionStatus (path : string) : io RevisionStatus :=
  doc ← readConfigDocumentLocked path;
  ok (MkStatus (ConfigVersion (gc_config (doc_Config doc))) (doc_ConfigRevision doc) (doc_RevisionState doc)).

Definition ReadConfigRevision (path : string) : io RevisionStatus :=
  doc ← readConfigDocumentLocked path;
  ok (MkStatus (ConfigVersion (gc_config (doc_Config doc))) (ConfigRevision (gc_config (doc_Config doc))) (doc_RevisionState doc)).

(** ** Updating *)

(** What every update does around its change: [change] is given the text read and its
    document, and gives the object to write with the answer. *)
Definition update_document {A} (nonBlocking : bool) (path : string) (expected : RevisionExpectation)
    (change : string → configDocument → io (raw_object * A)) : io A :=
  withConfigFileLockMode uid path nonBlocking
    (data ← readConfigFileSafe uid path;
     doc ← pure (parseConfigDocument homeDir data);
     _ ← pure (validateRevisionExpectation doc expected);
     _ ← removeStaleConfigV2Temps path;
     '(out, answer) ← change data doc;
     _ ← writeConfigV2Atomic path (render out) 384 (temp_unique pid counter);
     ok answer).

(** The change of a scoped update; [mutate] may work on files of its own. *)
Definition scoped_change (backupPath : string) (mutate : go_config → raw_object → io (go_config * raw_object)) (data : string) (doc : configDocument) :
    io (raw_object * ()) :=
  '(g, raw) ← mutate (clone_config (doc_Config doc)) (doc_raw doc);
  c ← pure (NormalizeLocalSSHPaths homeDir (gc_config g));
  _ ← pure (ValidateSSHTransportConfig c);
  _ ← (if bool_decide (backupPath = "") then ok () else writeConfigV2Backup backupPath data 384);
  nextRevision ← pure (nextConfigRevision doc);
  ok (marshalConfigDocument (MkDocument (doc_Config doc) (doc_RevisionState doc) (doc_ConfigRevision doc) raw) (with_config g c) nextRevision, ()).

Definition updateConfigV2ScopedRawWithBackupAndLock (path : string) (gateEnabled : bool) (expected : RevisionExpectation) (backupPath : string) (nonBlocking : bool)
    (mutate : go_config → raw_object → io (go_config * raw_object)) : io () :=
  if negb gateEnabled then fail (Code ErrConfigV2WritesDisabled) else update_document nonBlocking path expected (scoped_change backupPath mutate).

Definition updateConfigV2ScopedRawWithBackup (path : string) (gateEnabled : bool) (expected : RevisionExpectation) (backupPath : string)
    (mutate : go_config → raw_object → io (go_config * raw_object)) : io () :=
  updateConfigV2ScopedRawWithBackupAndLock path gateEnabled expected backupPath false mutate.

Definition updateConfigV2ScopedWithGate (path : string) (gateEnabled : bool) (expected : RevisionExpectation) (mutate : Config → result string Config) : io () :=
  updateConfigV2ScopedRawWithBackup path gateEnabled expected "" (λ g raw, c ← pure (mutate (gc_config g)); ok (with_config g c, raw)).

(** The change of an update of the peers, of the local material or of a removed host:
    [apply] works on copies, and the answer is what it gives with the new revision. *)
Definition peer_change {A} (apply : go_config → raw_object → result string (go_config * raw_object * A)) (data : string) (doc : configDocument) :
    io (raw_object * (A * Z)) :=
  '(g, raw, updated) ← pure (apply (clone_config (doc_Config doc)) (doc_raw doc));
  _ ← pure (ValidateSSHTransportConfig (gc_config g));
  nextRevision ← pure (nextConfigRevision doc);
  ok (marshalConfigDocumentPreservingRawSSH g raw nextRevision, (updated, nextRevision)).

Definition withSSHPeerConfigUpdate {A} (path : string) (gateEnabled : bool) (expected : RevisionExpectation)
    (apply : go_config → raw_object → result string (go_config * raw_object * A)) : io (A * Z) :=
  if negb gateEnabled then fail (Code ErrConfigV2WritesDisabled) else update_document false path expected (peer_change apply).

(** ** ssh_local_material.go *)

Definition ensureConfigV2RevisionWithGate (path : string) (gateEnabled : bool) (observed : RevisionStatus) : io RevisionStatus :=
  if bool_decide (rv_RevisionState observed = RevisionStateVersioned) && negb (default 0%Z (rv_ConfigRevision observed) =? 0)%Z then ok observed
  else
    let expected := MkExpectation (rv_RevisionState observed) (rv_ConfigRevision observed) in
    _ ← (if bool_decide (ex_State expected ∈ [RevisionStatePreV2; RevisionStateMissingRevision])
         then match ex_Revision expected with Some _ => fail (Code ErrConfigRevisionConflict) | None => ok () end
         else fail (Code ErrConfigRevisionConflict));
    _ ← updateConfigV2ScopedWithGate path gateEnabled expected (λ c, Ok c);
    ReadConfigRevision path.

Definition updateSSHLocalMaterialWithGate (path : string) (gateEnabled : bool) (req : SSHLocalMaterialUpdateRequest) : io RevisionStatus :=
  if negb gateEnabled then fail (Code ErrConfigV2WritesDisabled)
  else if (default 0%Z (lm_ExpectedConfigRevision req) =? 0)%Z then fail (Code ErrConfigRevisionConflict)
  else
    _ ← (match lm_Transport req, lm_SharedKey req, lm_SyncKey req, lm_KnownHosts req with
         | None, None, None, None => fail (Code "ssh_local_material_update_empty")
         | _, _, _, _ => ok ()
         end);
    _ ← pure (ensure (bool_decide (default TransportSSH (lm_Transport req) = TransportSSH)) "invalid_transport");
    _ ← pure (match lm_SharedKey req with Some k => ensure (Pairing.SharedKeyIsStandard32Bytes k) "invalid_shared_key" | None => Ok () end);
    _ ← pure (match lm_SyncKey req with Some p => recode (ValidateSSHExecutablePath p) "invalid_sync_key" | None => Ok () end);
    _ ← pure (match lm_KnownHosts req with Some p => recode (ValidateSSHExecutablePath p) "invalid_known_hosts" | None => Ok () end);
    '(_, revision) ← update_document false path (MkExpectation RevisionStateVersioned (lm_ExpectedConfigRevision req)) (peer_change (apply_material homeDir req));
    ok (MkStatus (Some 2%Z) (Some revision) RevisionStateVersioned).

(** ** config.go *)

Context (renderConfig : Config → string).

Definition Path (xdgConfigHome home : string) : string :=
  if negb (bool_decide (xdgConfigHome = "")) then path_join (path_join xdgConfigHome "clipfan") "config.json"
  else path_join (path_join (path_join home ".config") "clipfan") "config.json".

Definition StateDir (xdgStateHome home : string) : string :=
  if negb (bool_decide (xdgStateHome = "")) then path_join xdgStateHome "clipfan"
  else path_join (path_join (path_join home ".local") "state") "clipfan".

Definition parseConfigDocumentFromPath (path : string) : io configDocument :=
  data ← os (ReadFile path); pure (parseConfigDocument homeDir data).

Definition saveAtPath (path : string) (c : Config) : io () := writeConfigAtomic path (renderConfig c) 384.

Definition with_defaults (doc : configDocument) (loopbackDefault : bool) : configDocument :=
  MkDocument (with_config (doc_Config doc) (withDefaultsForGeneratedListen (gc_config (doc_Config doc)) loopbackDefault))
    (doc_RevisionState doc) (doc_ConfigRevision doc) (doc_raw doc).

(** The configuration of a first start, with the new key. *)
Definition initial_config (newKey : string) (loopbackDefault : bool) : Config :=
  withDefaultsForGeneratedListen (MkConfig None None "" newKey "" [] "" "" None 0 0) loopbackDefault.

Definition loadDocument (path : string) (loopbackDefault : bool) (newKey : string) : io (Config * configDocument) :=
  _ ← ensureConfigDir (Dir path);
  there ← catch (_ ← repairConfigFile path; ok true) (λ e, if bool_decide (e = OS ENOENT) then ok false else fail e);
  if there : bool then
    doc ← parseConfigDocumentFromPath path;
    let doc := with_defaults doc loopbackDefault in
    ok (gc_config (doc_Config doc), doc)
  else
    let c := initial_config newKey loopbackDefault in
    _ ← catch (saveAtPath path c) (λ _, fail (Code "save initial config"));
    doc ← parseConfigDocumentFromPath path;
    ok (c, doc).

Definition load (path : string) (loopbackDefault : bool) (newKey : string) : io Config :=
  '(c, _) ← loadDocument path loopbackDefault newKey; ok c.

Definition loadForDaemonStart (path : string) (loopbackListen writeEnabled : bool) (newKey newKey' : string) : io Config :=
  '(c, doc) ← loadDocument path loopbackListen newKey;
  let '(c, changed) := ApplyGeneratedListenMigration c loopbackListen in
  if negb changed then ok c
  else if negb (bool_decide (doc_RevisionState doc = RevisionStateVersioned)) || negb writeEnabled then ok c
  else
    _ ← updateConfigV2ScopedWithGate path true (MkExpectation RevisionStateVersioned (doc_ConfigRevision doc)) (λ c, Ok (ApplyGeneratedListenMigration c true).1);
    '(c, _) ← loadDocument path loopbackListen newKey';
    ok c.

Definition Save (path : string) (writeEnabled : bool) (c : option Config) (null : string) : io () :=
  _ ← (match c with
       | None => ok ()
       | Some c =>
           if bool_decide (is_Some (ConfigVersion c)) && negb (bool_decide (ConfigVersion c = Some 2%Z)) then fail (Code "unsupported_config_version")
           else if negb writeEnabled && (bool_decide (is_Some (ConfigVersion c)) || bool_decide (is_Some (ConfigRevision c))) then fail (Code ErrConfigV2WritesDisabled)
           else ok ()
       end);
  _ ← ensureConfigDir (Dir path);
  match c with Some c => saveAtPath path c | None => writeConfigAtomic path null 384 end.
End ops.

(** ** Lemmas: an update of the file *)

Lemma preparing_config_dir k path keep : preparing (frame k path keep) (ensureConfigDir (Dir path)).
Proof. unfold ensureConfigDir. prepare. all: try done. intros q Hq. by apply ancestor_not_framed. Qed.

Section update.
Context (homeDir : option string) (uid : Z) (pid counter : N) (render : raw_object → string).
Context (resolve : fs → string → result errno string) (keygen : string → string → fs → fs * result errno unit).
Context (path : string) (keep : string → Prop) (durable : bool) (s0 : fs) (old : option string).
Context {A : Type} (spec : result string (option string * A)).
Hypothesis Hpath : rooted_path path.
Hypothesis Hkeep : keep path.
Hypothesis Hwf : fs_wf s0.
Hypothesis Hold : durable = true → ∀ o, after_crash s0 path o → o = old.

#[local] Notation inv := (update_inv path durable s0 old (to_write spec)).

#[local] Notation post := (update_post uid config_kind path keep durable s0 spec).

#[local] Notation WP := (wp uid resolve keygen (may durable) eq inv).

#[local] Notation still := (steady (frame config_kind path keep) s0).

Let Hk : known_kind config_kind := or_introl eq_refl.

Let Hb : Base path ≠ "/" := proj1 (rooted_outside path Hpath).

Let Ha : path ∉ ancestors path := proj2 (rooted_outside path Hpath).

Lemma config_failed e s : still s → inv s ∧ post (Err e) s.
Proof. intros Hs. assert (H : same config_kind path keep durable s0 old (to_write spec) s) by by apply still_same. split; [apply H|by eapply post_same]. Qed.

(** What is there when the file is written, and when it was. *)
Context (extra : fs → Prop).
Hypothesis Hextra : ∀ s s', only_path config_kind path s s' → extra s → extra s'.

Definition update_end (r : result ioerror A) (s : fs) : Prop := post r s ∧ (is_ok r = true ∨ visible s path ≠ visible s0 path → extra s).

Lemma config_failed_end e s : still s → inv s ∧ update_end (Err e) s.
Proof.
  intros Hs. destruct (config_failed e s Hs) as [Hi Hp]. split; [done|]. split; [done|]. assert (H : same config_kind path keep durable s0 old (to_write spec) s) by by apply still_same.
  intros [?|Hv]; [done|]. by destruct Hv; apply H.
Qed.

Lemma update_document_wp nonBlocking expected (change : string → configDocument → io (raw_object * A)) :
  (∀ s data doc, still s → visible s0 path = Some data → parseConfigDocument homeDir data = Ok doc → validateRevisionExpectation doc expected = Ok () →
    WP (change data doc) (λ r s, still s ∧ match r with Ok (out, a) => spec = Ok (Some (render out), a) ∧ extra s | Err _ => True end) s) →
  WP (update_document homeDir uid pid counter render nonBlocking path expected change) update_end s0.
Proof.
  intros Hchange. assert (Hs0 : still s0) by by apply steady_refl. unfold update_document, withConfigFileLockMode.
  apply wp_bind_io, (wp_preparing _ _ _ config_kind _ keep); [done..|apply preparing_config_dir|done|]. intros [u|e] s1 H1; [|by apply config_failed_end].
  apply wp_bind_io, (wp_call _ _ _ config_kind _ keep); [done..|]. intros [info|e] s2 H2; [|by apply config_failed_end].
  apply wp_bind_io, (wp_preparing _ _ _ config_kind _ keep); [done..|unfold validateConfigFileInfo, validateFileInfo; by prepare|done|].
  intros [u1|e] s3 H3; [|by apply config_failed_end]. apply wp_with_lock with (keep := keep); [done..|by intros; apply config_failed_end|]. intros s4 H4.
  apply wp_bind_io, (wp_read_fit _ _ _ config_kind path keep); [done..|by intros; apply config_failed_end|]. intros data Hdata.
  assert (Hp : frame config_kind path keep path) by (split; [by apply spared_path|done]). assert (Hvis : visible s0 path = Some data) by (rewrite <- Hdata; symmetry; by eapply steady_visible).
  destruct (parseConfigDocument homeDir data) as [doc|e] eqn:Hdoc; [|by apply config_failed_end]. apply wp_bind_io. cbn [pure wp ok].
  destruct (validateRevisionExpectation doc expected) as [[]|e] eqn:Hexp; [|by apply config_failed_end]. apply wp_bind_io. cbn [pure wp ok].
  apply wp_bind_io, (wp_stale_temps _ _ _ config_kind path keep); [done..|]. intros [u2|e] s5 H5; [|by apply config_failed_end].
  apply wp_bind_io. eapply wp_mono; [|by apply Hchange]. intros [[out a]|e] s6 [H6 Hc]; [|by apply config_failed_end]. destruct Hc as [Hspec Hx].
  assert (Hw : to_write spec (render out)) by by exists a. apply wp_bind_io. eapply wp_writer with (keep := keep); [done..|apply writer_config|done|done| |].
  - intros e s' Hm Ho. split; [apply Hm|]. split; [by eapply post_failed|]. intros _. by eapply Hextra.
  - intros s' Hm Ho. cbn [wp ok]. split; [apply Hm|]. split; [by eapply post_written|]. intros _. by eapply Hextra.
Qed.
End update.

(** Files a backup under this name has nothing to do with. *)
Definition apart (backupPath p : string) : Prop := backupPath = "" ∨ (p ≠ backupPath ∧ p ∉ ancestors backupPath).

Section scoped.
Context (homeDir : option string) (uid : Z) (pid counter : N) (render : raw_object → string).
Context (resolve : fs → string → result errno string) (keygen : string → string → fs → fs * result errno unit).
Context (path backupPath : string) (durable : bool) (s0 : fs) (old : option string).
Context (gate : bool) (expected : RevisionExpectation) (mutate : go_config → raw_object → result string (go_config * raw_object)).

Definition scoped_spec (data : string) : result string (option string * ()) := out ← updateConfigV2Scoped homeDir gate data expected mutate; Ok (Some (render out), ()).

(** The backup, when there is to be one, holds what the file held. *)
Definition backed_up (s : fs) : Prop := backupPath ≠ "" → visible s backupPath = visible s0 path.

Hypothesis Hpath : rooted_path path.
Hypothesis Hapart : apart backupPath path.
Hypothesis Htemp : ¬ temp_file config_kind path backupPath.
Hypothesis Hwf : fs_wf s0.
Hypothesis Hold : durable = true → ∀ o, after_crash s0 path o → o = old.

#[local] Notation spec := (scoped_spec (default "" (visible s0 path))).

#[local] Notation WP := (wp uid resolve keygen (may durable) eq (update_inv path durable s0 old (to_write spec))).

#[local] Notation still := (steady (frame config_kind path (apart backupPath)) s0).

Let Hk : known_kind config_kind := or_introl eq_refl.

Let Hb : Base path ≠ "/" := proj1 (rooted_outside path Hpath).

Let Ha : path ∉ ancestors path := proj2 (rooted_outside path Hpath).

Lemma backup_wp data s (Q : result ioerror () → fs → Prop) :
  backupPath ≠ "" → visible s0 path = Some data → still s → (∀ e s', still s' → Q (Err e) s') →
  (∀ s', still s' → visible s' backupPath = Some data → Q (Ok ()) s') → WP (writeConfigV2Backup backupPath data 384) Q s.
Proof.
  intros Hne Hdata Hs HE HQ. assert (Hnot : ¬ frame config_kind path (apart backupPath) backupPath) by by intros [_ [|[]]].
  assert (Hbp : backupPath ≠ path) by by (destruct Hapart as [|[? _]]; [|intros ->]). unfold writeConfigV2Backup.
  apply wp_bind_io, (wp_preparing _ _ _ config_kind _ (apart backupPath)); [done..| |done|].
  { unfold ensureConfigDir. prepare. all: try done. intros q Hq [_ [|[_ Hn]]]; [done|]. by apply Hn. }
  intros [u|e] s1 H1; [|by apply HE]. apply wp_bind_io, (wp_copy _ _ _ config_kind path (apart backupPath)); [done..|].
  intros s2 H2 (ino & i & Hn & Hi & _ & Hd & _). assert (Hv : visible s2 backupPath = Some data) by (unfold visible; by rewrite Hn, Hi, <- Hd).
  apply (wp_sync_directory _ _ _ config_kind path (apart backupPath)); [done..|]. intros [[]|e] s3 H3 Hsame; [|by apply HE]. apply HQ; [done|by rewrite Hsame].
Qed.

Lemma scoped_wp nonBlocking :
  WP (updateConfigV2ScopedRawWithBackupAndLock homeDir uid pid counter render path gate expected backupPath nonBlocking (λ g raw, pure (mutate g raw)))
    (update_end uid path (apart backupPath) durable s0 spec backed_up) s0.
Proof.
  unfold updateConfigV2ScopedRawWithBackupAndLock. destruct gate eqn:Hgate; cbn [negb].
  2: { apply (config_failed_end uid path (apart backupPath) durable s0 old spec Hpath Hapart Hwf Hold). by apply steady_refl. }
  apply (update_document_wp homeDir uid pid counter render resolve keygen path (apart backupPath) durable s0 old spec Hpath Hapart Hwf Hold backed_up).
  { intros s s' Ho Hx Hne. rewrite Ho; [by apply Hx|by destruct Hapart as [|[? _]]; [|congruence]|done]. }
  intros s data doc Hs Hdata Hdoc Hexp. unfold scoped_change.
  assert (Hspec : ∀ out, (∃ g raw c next, mutate (clone_config (doc_Config doc)) (doc_raw doc) = Ok (g, raw) ∧ NormalizeLocalSSHPaths homeDir (gc_config g) = Ok c ∧
    ValidateSSHTransportConfig c = Ok () ∧ nextConfigRevision doc = Ok next ∧
    out = marshalConfigDocument (MkDocument (doc_Config doc) (doc_RevisionState doc) (doc_ConfigRevision doc) raw) (with_config g c) next) → spec = Ok (Some (render out), ())).
  { intros out (g & raw & c & next & H1 & H2 & H3 & H4 & ->). unfold scoped_spec. rewrite Hdata. change (default "" (Some data)) with data.
    assert (H : updateConfigV2Scoped homeDir gate data expected mutate = Ok (marshalConfigDocument (MkDocument (doc_Config doc) (doc_RevisionState doc) (doc_ConfigRevision doc) raw) (with_config g c) next)).
    { apply updateConfigV2Scoped_Ok. split; [done|]. by exists doc, g, raw, c, next. }
    by rewrite H. }
  assert (Hst : ∀ e s, still s → still s ∧ match (Err e : result ioerror (raw_object * ())) with Ok (out, a) => spec = Ok (Some (render out), a) ∧ backed_up s | Err _ => True end) by done.
  destruct (mutate (clone_config (doc_Config doc)) (doc_raw doc)) as [[g raw]|e] eqn:Hm; [|exact (Hst (Code e) _ ltac:(eassumption))]. apply wp_bind_io. cbn [pure wp ok].
  destruct (NormalizeLocalSSHPaths homeDir (gc_config g)) as [c|e] eqn:Hc; [|exact (Hst (Code e) _ ltac:(eassumption))]. apply wp_bind_io. cbn [pure wp ok].
  destruct (ValidateSSHTransportConfig c) as [[]|e] eqn:Hv; [|exact (Hst (Code e) _ ltac:(eassumption))]. apply wp_bind_io. cbn [pure wp ok].
  assert (Hfinish : ∀ s, still s → backed_up s → WP (nextRevision ← pure (nextConfigRevision doc);
    ok (marshalConfigDocument (MkDocument (doc_Config doc) (doc_RevisionState doc) (doc_ConfigRevision doc) raw) (with_config g c) nextRevision, ()))
    (λ r s, still s ∧ match r with Ok (out, a) => spec = Ok (Some (render out), a) ∧ backed_up s | Err _ => True end) s).
  { intros s1 H1 Hb1. destruct (nextConfigRevision doc) as [next|e] eqn:Hn; [|exact (Hst (Code e) _ ltac:(eassumption))]. apply wp_bind_io. cbn [pure wp ok].
    split; [done|]. destruct (Hspec _ ltac:(by exists g, raw, c, next)). by split. }
  apply wp_bind_io. destruct (bool_decide_reflect (backupPath = "")) as [He|Hne]; [apply Hfinish; [done|by intros ?]|].
  apply (backup_wp data); [done..|by intros e s1 H1; apply Hst|]. intros s1 H1 Hv1. apply Hfinish; [done|]. intros _. by rewrite Hdata.
Qed.
End scoped.

Section peers.
Context (homeDir : option string) (uid : Z) (pid counter : N) (render : raw_object → string).
Context (resolve : fs → string → result errno string) (keygen : string → string → fs → fs * result errno unit).
Context (path : string) (durable : bool) (s0 : fs) (old : option string) {A : Type}.
Context (gate : bool) (expected : RevisionExpectation) (apply_change : go_config → raw_object → result string (go_config * raw_object * A)).

Definition peer_spec (data : string) : result string (option string * (A * Z)) :=
  '(out, a, next) ← ConfigDoc.withSSHPeerConfigUpdate homeDir gate data expected apply_change; Ok (Some (render out), (a, next)).

Hypothesis Hpath : rooted_path path.
Hypothesis Hwf : fs_wf s0.
Hypothesis Hold : durable = true → ∀ o, after_crash s0 path o → o = old.

#[local] Notation spec := (peer_spec (default "" (visible s0 path))).

#[local] Notation still := (steady (frame config_kind path everything) s0).

Lemma peer_update_wp :
  wp uid resolve keygen (may durable) eq (update_inv path durable s0 old (to_write spec))
    (withSSHPeerConfigUpdate homeDir uid pid counter render path gate expected apply_change) (update_post uid config_kind path everything durable s0 spec) s0.
Proof.
  unfold withSSHPeerConfigUpdate. destruct gate eqn:Hgate; cbn [negb].
  2: { apply (config_failed uid path everything durable s0 old spec Hpath I Hwf Hold). by apply steady_refl. }
  eapply wp_mono; [|apply (update_document_wp homeDir uid pid counter render resolve keygen path everything durable s0 old spec Hpath I Hwf Hold (λ _, True)); [done|]].
  { by intros r s [Hp _]. }
  intros s data doc Hs Hdata Hdoc Hexp. unfold peer_change.
  assert (Hst : ∀ e s, still s → still s ∧ match (Err e : result ioerror (raw_object * (A * Z))) with Ok (out, a) => spec = Ok (Some (render out), a) ∧ True | Err _ => True end) by done.
  assert (Hspec : spec = ('(out, a, next) ← ('(g, raw, updated) ← apply_change (clone_config (doc_Config doc)) (doc_raw doc);
    _ ← ValidateSSHTransportConfig (gc_config g);
    nextRevision ← nextConfigRevision doc;
    Ok (marshalConfigDocumentPreservingRawSSH g raw nextRevision, updated, nextRevision)); Ok (Some (render out), (a, next)))).
  { unfold peer_spec. rewrite Hdata, Hgate. change (default "" (Some data)) with data. unfold ConfigDoc.withSSHPeerConfigUpdate. cbn [negb]. rewrite Hdoc. cbn [mbind result_bind]. by rewrite Hexp. }
  destruct (apply_change (clone_config (doc_Config doc)) (doc_raw doc)) as [[[g raw] updated]|e] eqn:Hm; [|exact (Hst (Code e) _ ltac:(eassumption))]. apply wp_bind_io. cbn [pure wp ok].
  destruct (ValidateSSHTransportConfig (gc_config g)) as [[]|e] eqn:Hv; [|exact (Hst (Code e) _ ltac:(eassumption))]. apply wp_bind_io. cbn [pure wp ok].
  destruct (nextConfigRevision doc) as [next|e] eqn:Hn; [|exact (Hst (Code e) _ ltac:(eassumption))]. apply wp_bind_io. cbn [pure wp ok]. split; [done|]. split; [|done].
  rewrite Hspec. cbn [mbind result_bind]. by rewrite Hv.
Qed.
End peers.

(** *** Loading *)

Section loading.
Context (homeDir : option string) (uid : Z) (renderConfig : Config → string).
Context (resolve : fs → string → result errno string) (keygen : string → string → fs → fs * result errno unit).
Context (path : string) (s0 : fs) (loopbackDefault : bool) (newKey : string).

(** What is made of a file with these contents, or of none. *)
Definition load_spec (file : option string) : result string (option string * (Config * configDocument)) :=
  match file with
  | Some data => doc ← parseConfigDocument homeDir data; let doc := with_defaults doc loopbackDefault in Ok (None, (gc_config (doc_Config doc), doc))
  | None =>
      let c := initial_config newKey loopbackDefault in
      doc ← parseConfigDocument homeDir (renderConfig c); Ok (Some (renderConfig c), (c, doc))
  end.

Definition not_tmp (p : string) : Prop := p ≠ path +:+ ".tmp".

Hypothesis Hpath : rooted_path path.
Hypothesis Hwf : fs_wf s0.
Hypothesis Hrender : is_ok (parseConfigDocument homeDir (renderConfig (initial_config newKey loopbackDefault))) = true.

#[local] Notation spec := (load_spec (visible s0 path)).

#[local] Notation inv := (update_inv path false s0 None (to_write spec)).

#[local] Notation WP := (wp uid resolve keygen (may false) eq inv).

#[local] Notation still := (steady (frame config_kind path not_tmp) s0).

Let Hk : known_kind config_kind := or_introl eq_refl.

Let Hb : Base path ≠ "/" := proj1 (rooted_outside path Hpath).

Let Ha : path ∉ ancestors path := proj2 (rooted_outside path Hpath).

Let Hold : false = true → ∀ o, after_crash s0 path o → o = None := λ H, match diff_false_true H with end.

Lemma path_not_tmp : not_tmp path.
Proof. intros H. apply (f_equal len) in H. rewrite len_app in H. unfold len in H. cbn [String.length] in H. lia. Qed.

Lemma still_visible s : still s → inv s ∧ visible s path = visible s0 path.
Proof.
  intros Hs. assert (H : same config_kind path not_tmp false s0 None (to_write spec) s) by (apply still_same; done || apply path_not_tmp). split; apply H.
Qed.

Lemma wp_repair (Q : result ioerror () → fs → Prop) s :
  still s → (∀ e s', still s' → e ≠ OS ENOENT → Q (Err e) s') → (visible s0 path = None → Q (Err (OS ENOENT)) s) →
  (∀ s' ino, still s' → fs_names s' !! path = Some (Node ino) → Q (Ok ()) s') → WP (repairConfigFile path) Q s.
Proof.
  intros Hs HE HN HQ. destruct (still_visible s Hs) as [Hi Hv]. unfold repairConfigFile.
  apply wp_bind_io, wp_look; [by intros []|done|intros e He; apply HE; [done|congruence]|]. cbn [works snd]. destruct (fs_names s !! path) as [[ino|t]|] eqn:Hn.
  - unfold inode_at. destruct (fs_inodes s !! ino) as [i|] eqn:Hino; cbn; [|by apply HE]. destruct (negb _); [by apply HE|]. apply wp_os. intros s1 f <- [_ Hf].
    assert (Hst : still (perform uid resolve keygen (Chmod path 384) f s).1) by (eapply steady_trans; [exact Hs|]; apply perform_steady; [done|apply Hs]).
    split; [by apply still_visible|]. destruct f as [|e|n e]; cbn [perform works fst snd] in *; [|apply HE; [done|congruence]..]. unfold follow in *. rewrite Hn in *.
    unfold update_inode in *. rewrite Hino in *. cbn [fst snd] in *. by apply (HQ _ ino).
  - by apply HE.
  - apply HN. rewrite <- Hv. unfold visible. by rewrite Hn.
Qed.

Lemma wp_read_path (Q : result ioerror configDocument → fs → Prop) s :
  inv s → (∀ e, Q (Err e) s) → (∀ data doc, visible s path = Some data → parseConfigDocument homeDir data = Ok doc → Q (Ok doc) s) →
  (∀ t, fs_names s !! path ≠ Some (Link t)) → WP (parseConfigDocumentFromPath homeDir path) Q s.
Proof.
  intros Hi HE HQ Hl. unfold parseConfigDocumentFromPath. apply wp_bind_io, wp_look; [by intros []|done|by intros e _; apply HE|]. cbn [works snd].
  unfold follow. destruct (fs_names s !! path) as [[ino|t]|] eqn:Hn; [|by destruct (Hl t)|apply HE]. cbn. unfold inode_at. destruct (fs_inodes s !! ino) as [i|] eqn:Hino; cbn; [|apply HE].
  destruct (parseConfigDocument homeDir (i_data i)) as [doc|e] eqn:Hd; [|apply HE]. apply (HQ (i_data i)); [|done]. unfold visible. by rewrite Hn, Hino.
Qed.

Lemma load_wp : WP (loadDocument homeDir renderConfig path loopbackDefault newKey) (update_post uid config_kind path not_tmp false s0 spec) s0.
Proof.
  assert (Hs0 : still s0) by by apply steady_refl. assert (Hkeep : not_tmp path) by apply path_not_tmp.
  assert (HE : ∀ r s, still s → (∀ a, r = Ok a → spec = Ok (None, a)) → update_post uid config_kind path not_tmp false s0 spec r s).
  { intros r s Hs Hr. eapply (post_same uid config_kind path not_tmp false s0 None); [by apply still_same|done]. }
  unfold loadDocument. apply wp_bind_io, (wp_preparing _ _ _ config_kind _ not_tmp); [done..|apply preparing_config_dir|done|]. intros [u|e] s1 H1; [|by apply HE].
  apply wp_bind_io, wp_catch, wp_bind_io, wp_repair; [done|..].
  - intros e s2 H2 Hne. rewrite bool_decide_eq_false_2 by done. by apply HE.
  - intros Hn. cbn [wp ok]. change (bool_decide (OS ENOENT = OS ENOENT)) with true.
    apply wp_bind_io, wp_catch. set (c := initial_config newKey loopbackDefault).
    destruct (parseConfigDocument homeDir (renderConfig c)) as [doc|e] eqn:Hdoc; [|unfold c in Hdoc; by rewrite Hdoc in Hrender].
    assert (Hspec : spec = Ok (Some (renderConfig c), (c, doc))) by (rewrite Hn; unfold load_spec; fold c; by rewrite Hdoc).
    unfold saveAtPath. eapply (wp_plain_write _ _ _ config_kind path not_tmp); [done..|by exists (c, doc)|by intros [_ H]; apply H|exact H1|by intros e s2 H2; apply HE|].
    intros s2 Hi2 Ho2 Hh2. cbn [wp ok]. apply wp_bind_io. destruct Hh2 as (ino & i & Hn2 & Hino & Hrest).
    assert (Hv2 : visible s2 path = Some (renderConfig c)) by (unfold visible; rewrite Hn2, Hino; cbn; by destruct Hrest as (_ & -> & _)).
    apply wp_read_path; [done|intros e; split; [done|]; right; exists (renderConfig c); split; [by exists (c, doc)|done]| |by rewrite Hn2].
    intros data doc' Hd Hp. rewrite Hv2 in Hd. injection Hd as <-. rewrite Hdoc in Hp. injection Hp as <-. cbn [wp ok]. split; [done|]. exists (Some (renderConfig c)).
    split; [done|]. split; [by exists ino, i|done].
  - intros s2 ino H2 Hn2. cbn [wp ok]. apply wp_bind_io. destruct (still_visible s2 H2) as [Hi2 Hv2].
    apply wp_read_path; [done|by intros e; apply HE| |by rewrite Hn2]. intros data doc Hd Hp. cbn [wp ok]. apply HE; [done|]. intros a [= <-].
    rewrite Hv2 in Hd. rewrite Hd. unfold load_spec. by rewrite Hp.
Qed.
End loading.

(** ** Theorems *)

(** C4. Updating the configuration file.  A scoped update of the file does to it what
    [ConfigDoc.updateConfigV2Scoped] makes of the text it holds: when it succeeds, the file
    holds the new document, closed to everybody else, on the disk; when the revision is
    not the expected one, or the change or the result is refused, it is left alone; when a
    call fails it is as it was or all new.  A reader at any point, and after a stop of the
    machine, finds one or the other.  Whenever the file was replaced, the backup that was
    asked for holds what it held. *)
Theorem config_file_update homeDir uid pid counter render resolve keygen path backupPath durable s0 old gate expected mutate nonBlocking faults n
    (Hpath : rooted_path path) (Hapart : apart backupPath path) (Htemp : ¬ temp_file config_kind path backupPath)
    (Hwf : fs_wf s0) (Hold : durable = true → ∀ o, after_crash s0 path o → o = old) (Hf : ∀ n, may durable (faults n)) :
  let out := exec uid resolve keygen (λ _ s, s) faults n s0
    (updateConfigV2ScopedRawWithBackupAndLock homeDir uid pid counter render path gate expected backupPath nonBlocking (λ g raw, pure (mutate g raw))) in
  refines_update uid config_kind path (apart backupPath) durable s0 old (scoped_spec homeDir render gate expected mutate (default "" (visible s0 path))) out ∧
  (is_ok out.2.1.1 = true ∨ visible out.2.2 path ≠ visible s0 path → backed_up path backupPath s0 out.2.2).
Proof.
  pose proof (wp_sound uid resolve keygen (may durable) eq _ _ _ (λ _ s, s) faults n s0 (λ _ _, eq_refl) Hf
    (scoped_wp homeDir uid pid counter render resolve keygen path backupPath durable s0 old gate expected mutate Hpath Hapart Htemp Hwf Hold nonBlocking)) as H.
  cbv zeta. unfold refines_update. destruct (exec _ _ _ _ _ _ _ _) as [states [[r n'] s']]. destruct H as (H1 & H2 & H3). done.
Qed.

(** Updating the peers in the configuration file, for every operation on peers: the
    same, and what it answers is what [ConfigDoc.withSSHPeerConfigUpdate] gives. *)
Theorem peer_file_update homeDir uid pid counter render resolve keygen path durable s0 old A gate expected
    (apply_change : go_config → raw_object → result string (go_config * raw_object * A)) faults n
    (Hpath : rooted_path path) (Hwf : fs_wf s0) (Hold : durable = true → ∀ o, after_crash s0 path o → o = old) (Hf : ∀ n, may durable (faults n)) :
  refines_update uid config_kind path everything durable s0 old (peer_spec homeDir render gate expected apply_change (default "" (visible s0 path)))
    (exec uid resolve keygen (λ _ s, s) faults n s0 (withSSHPeerConfigUpdate homeDir uid pid counter render path gate expected apply_change)).
Proof. apply refines_sound; [done|]. by apply peer_update_wp. Qed.

(** Loading the configuration.  [loadDocument] never changes the contents of a
    configuration that is there: it answers with what the text parses to, the defaults
    filled in, or fails.  Where there is none it leaves a file with the initial
    configuration under the new key, closed to everybody else, and answers with that; when
    a call fails there is none yet or the whole of it. *)
Theorem load_file homeDir uid renderConfig resolve keygen path s0 loopbackDefault newKey faults n
    (Hpath : rooted_path path) (Hwf : fs_wf s0)
    (Hrender : is_ok (parseConfigDocument homeDir (renderConfig (initial_config newKey loopbackDefault))) = true) (Hf : ∀ n, may false (faults n)) :
  refines_update uid config_kind path (not_tmp path) false s0 None (load_spec homeDir renderConfig loopbackDefault newKey (visible s0 path))
    (exec uid resolve keygen (λ _ s, s) faults n s0 (loadDocument homeDir renderConfig path loopbackDefault newKey)).
Proof. apply refines_sound; [done|]. by apply load_wp. Qed.

(** ** Witnesses *)

Module ConfigSamples.
Definition text : string := sample_text 7 1 plain_section.

Definition backup : string := "/home/config.json.bak".

Definition render (o : raw_object) : string := print (json_object o).

Lemma path_rooted : rooted_path Samples.path.
Proof. done. Qed.

Lemma backup_apart : apart backup Samples.path.
Proof. right. split; [done|]. intros H. vm_compute in H. by repeat (apply elem_of_cons in H as [H|H]; [discriminate|]); apply not_elem_of_nil in H. Qed.

Lemma backup_kept : ¬ temp_file config_kind Samples.path backup.
Proof.
  intros (name & Heq & Hp & Hn). apply (temp_name_plain config_kind) in Hp as Hpl; [|by left]. destruct Hpl as [Hpl _].
  pose proof (Base_path_join (Dir Samples.path) name Hpl Hn) as Hb. unfold join_dir in Heq. rewrite <- Heq in Hb. rewrite <- Hb in Hp. vm_compute in Hp. discriminate.
Qed.
End ConfigSamples.

Lemma config_file_update_witness :
  let out := exec 501 Samples.no_links Samples.no_keygen Samples.alone Samples.fine 0 (Samples.home_with ConfigSamples.text)
    (updateConfigV2ScopedRawWithBackupAndLock None 501 7 1 ConfigSamples.render Samples.path true at_7 ConfigSamples.backup false (λ g raw, pure (set_port 2 g raw))) in
  Samples.answer out = Ok () ∧ visible (Samples.last_state out) Samples.path = Some (sample_text 8 2 plain_section) ∧
  backed_up Samples.path ConfigSamples.backup (Samples.home_with ConfigSamples.text) (Samples.last_state out).
Proof.
  cbv zeta. pose proof (config_file_update None 501 7 1 ConfigSamples.render Samples.no_links Samples.no_keygen Samples.path ConfigSamples.backup true
    (Samples.home_with ConfigSamples.text) (Some ConfigSamples.text) true at_7 (set_port 2) false Samples.fine 0 ConfigSamples.path_rooted ConfigSamples.backup_apart
    ConfigSamples.backup_kept (Samples.home_wf _) (λ _, Samples.home_crash _) (fine_may true)) as [_ H].
  split; [vm_compute; reflexivity|]. split; [vm_compute; reflexivity|]. apply H. left. vm_compute. reflexivity.
Defined.

Module LoadSamples.
(** The fields of a first configuration. *)
Definition render_config (c : Config) : string :=
  print (VObject [("listen", VString (Listen c)); ("shared_key", VString (SharedKey c)); ("discovery", VString (Discovery c)); ("port", json_int (Port c)); ("max_history", json_int (MaxHistory c))]).

(** A home without a configuration. *)
Definition empty_home : fs := with_names Samples.home (delete Samples.path (fs_names Samples.home)).

Lemma empty_wf : fs_wf empty_home.
Proof.
  intros names p ino [->|Hin]%elem_of_cons.
  - intros Hp. cbn [empty_home with_names fs_names] in Hp. apply lookup_delete_Some in Hp as [_ H]. apply (Samples.home_wf Samples.old_text (fs_names Samples.home) p ino); [by left|done].
  - intros H. by apply (Samples.home_wf Samples.old_text names p ino).
Qed.
End LoadSamples.

Lemma load_file_witness :
  let out := exec 501 Samples.no_links Samples.no_keygen Samples.alone Samples.fine 0 LoadSamples.empty_home (loadDocument None LoadSamples.render_config Samples.path true "k") in
  is_ok (Samples.answer out) = true ∧ holds (Samples.last_state out) Samples.path (LoadSamples.render_config (initial_config "k" true)) 384 501.
Proof.
  cbv zeta. pose proof (load_file None 501 LoadSamples.render_config Samples.no_links Samples.no_keygen Samples.path LoadSamples.empty_home true "k" Samples.fine 0
    ConfigSamples.path_rooted LoadSamples.empty_wf ltac:(vm_compute; reflexivity) (fine_may false)) as [_ [_ H]].
  change (λ (_ : nat) (s : fs), s) with Samples.alone in H.
  assert (Hok : is_ok (Samples.answer (exec 501 Samples.no_links Samples.no_keygen Samples.alone Samples.fine 0 LoadSamples.empty_home
    (loadDocument None LoadSamples.render_config Samples.path true "k"))) = true) by (vm_compute; reflexivity).
  split; [exact Hok|]. revert H Hok. unfold Samples.answer, Samples.last_state.
  destruct (exec 501 Samples.no_links Samples.no_keygen Samples.alone Samples.fine 0 LoadSamples.empty_home (loadDocument None LoadSamples.render_config Samples.path true "k"))
    as [states [[r n'] s']]. cbn [fst snd]. destruct r as [a|e]; [|discriminate]. intros (o & Hspec & Ho) _. vm_compute in Hspec. injection Hspec as <- _. exact (proj1 Ho).
Defined.
