(* ===== verification/SyncKey.v ===== *)
(** * The local sync key: config/sync_key.go

    A key is three files: the private key, the public key and a sidecar that says whose it
    is.  They are created together, loaded only when they agree, and replaced by a reset
    that keeps the old ones until the new ones are in place. *)
From S2P Require Import Prelude GoStrings Utf8 Encoding NetIP Paths Hostnames Json RawJson Words SSHConfig KnownHosts AuthorizedKeys SSHCommand ConfigDoc Files SafeFile.
From Stdlib Require Import Ascii String.
From stdpp Require Import strings gmap.

#[local] Arguments String.append !_ _ / : simpl nomatch.

Definition syncKeyMetadataSchema : string := "clipfan-sync-key-v1".

Definition ErrSyncKeyExists : ioerror := Code "sync_key_exists".
Definition ErrSyncKeyGenerationFailed : ioerror := Code "sync_key_generation_failed".
Definition ErrInvalidSyncKeyPublicKey : ioerror := Code "invalid_sync_key_public_key".
Definition ErrSyncKeyDirectoryMissing : ioerror := Code "missing_sync_key_directory".
Definition ErrSyncKeyDirectoryUnsafe : ioerror := Code "sync_key_directory_unsafe".
Definition ErrSyncKeyParentNotDir : ioerror := Code "sync_key_parent_not_directory".
Definition ErrSyncKeyLockUnavailable : ioerror := Code "sync_key_lock_unavailable".
Definition ErrSyncKeyLockUnsafe : ioerror := Code "sync_key_lock_unsafe".
Definition ErrSyncKeyPathUnavailable : ioerror := Code "sync_key_path_unavailable".
Definition ErrSyncKeyChmodFailed : ioerror := Code "sync_key_chmod_failed".
Definition ErrSyncKeyReadFailed : ioerror := Code "sync_key_read_failed".
Definition ErrSyncKeyWriteFailed : ioerror := Code "sync_key_write_failed".
Definition ErrMissingSyncKey : ioerror := Code "missing_sync_key".
Definition ErrSyncKeyIdentityMismatch : ioerror := Code "sync_key_identity_mismatch".

Record SyncKeyMetadata := MkMetadata {
  sm_Schema : string;
  sm_HostID : string;
  sm_KeyID : string;
  sm_PublicKeySHA256 : string;
  sm_PublicKey : string;
  sm_CreatedAt : string;
}.

Record SyncKeyCreateResult := MkKey {
  sk_PrivateKeyPath : string;
  sk_PublicKeyPath : string;
  sk_SidecarPath : string;
  sk_KeyID : string;
  sk_PublicKeySHA256 : string;
  sk_PublicKey : string;
  sk_Metadata : SyncKeyMetadata;
}.

(** ** Names *)

Definition syncKeyMaterialPaths (keyPath : string) : list string := [keyPath; keyPath +:+ ".pub"; keyPath +:+ ".clipfan.json"].

Definition syncKeyResetTempPath (keyPath : string) (pid counter : N) : string :=
  path_join (Dir keyPath) ("." +:+ Base keyPath +:+ ".reset." +:+ temp_unique pid counter).

Definition isDecimalString (value : string) : bool := negb (bool_decide (value = "")) && forall_bytes is_digit value.

(** [strings.Cut] at the first dot. *)
Fixpoint cut_dot (s : string) : option (string * string) :=
  match s with
  | EmptyString => None
  | String a s => if bool_decide (a = "."%char) then Some ("", s) else '(before, after) ← cut_dot s; Some (String a before, after)
  end.

Definition hasResetCounterSuffix (value : string) : bool :=
  match cut_dot value with Some (pid, counter) => isDecimalString pid && isDecimalString counter | None => false end.

Definition material_suffixes : list string := [""; ".pub"; ".clipfan.json"].

(** The first of the prefixes that cuts decides. *)
Fixpoint reset_old_name (base name : string) (suffixes : list string) : bool :=
  match suffixes with
  | [] => false
  | suffix :: suffixes =>
      let prefix := base +:+ suffix +:+ ".reset-old." in
      if HasPrefix name prefix then hasResetCounterSuffix (TrimPrefix name prefix) else reset_old_name base name suffixes
  end.

Definition isSyncKeyResetScratchName (base name : string) : bool :=
  let prefix := "." +:+ base +:+ ".reset." in
  if HasPrefix name prefix then
    existsb (λ suffix, let '(counter, cut) := CutSuffix (TrimPrefix name prefix) suffix in cut && hasResetCounterSuffix counter) material_suffixes
  else reset_old_name base name material_suffixes.

(** ** The public key and the sidecar *)

Section identity.
Context (sha256 : string → string).

Definition parseOpenSSHPublicKey (data : string) : result ioerror (string * string) :=
  let line := TrimSpace data in
  match Fields line with
  | kind :: key :: _ =>
      if negb (bool_decide (kind = "ssh-ed25519")) then Err ErrInvalidSyncKeyPublicKey
      else match b64_decode key with Some blob => Ok (line, blob) | None => Err ErrInvalidSyncKeyPublicKey end
  | _ => Err ErrInvalidSyncKeyPublicKey
  end.

(** [base64.RawStdEncoding]: without the padding. *)
Definition b64_raw_encode (s : string) : string := String.rev (strip_left ["="] (len (b64_encode s)) (String.rev (b64_encode s))).

Definition syncKeyIdentityFromPublicBlob (publicKeyBlob : string) : string * string :=
  (hex_encode (slice 0 8 (sha256 publicKeyBlob)), "SHA256:" +:+ b64_raw_encode (sha256 publicKeyBlob)).

Definition metadata_fields : list string := ["schema"; "host_id"; "key_id"; "public_key_sha256"; "public_key"; "created_at"].

Definition decode_metadata (l : list (string * json)) : option SyncKeyMetadata :=
  schema ← decode_field into_string "schema" l "";
  hostID ← decode_field into_string "host_id" l "";
  keyID ← decode_field into_string "key_id" l "";
  digest ← decode_field into_string "public_key_sha256" l "";
  publicKey ← decode_field into_string "public_key" l "";
  createdAt ← decode_field into_string "created_at" l "";
  Some (MkMetadata schema hostID keyID digest publicKey createdAt).

(** The fields that are required are those that are allowed, spelled exactly. *)
Definition parseSyncKeyMetadata (data : string) : result ioerror SyncKeyMetadata :=
  match parse data with
  | Some (VObject l) =>
      if negb (forallb (λ kv, bool_decide (kv.1 ∈ metadata_fields)) l) then Err ErrSyncKeyIdentityMismatch
      else if negb (forallb (λ field, existsb (λ kv, bool_decide (kv.1 = field)) l) metadata_fields) then Err ErrSyncKeyIdentityMismatch
      else match decode_metadata l with Some meta => Ok meta | None => Err (Code "json") end
  | Some VNull => Err ErrSyncKeyIdentityMismatch
  | _ => Err (Code "json")
  end.

(** [json.Marshal] of the metadata. *)
Definition encode_metadata (m : SyncKeyMetadata) : json :=
  VObject [("schema", json_string (sm_Schema m)); ("host_id", json_string (sm_HostID m)); ("key_id", json_string (sm_KeyID m));
    ("public_key_sha256", json_string (sm_PublicKeySHA256 m)); ("public_key", json_string (sm_PublicKey m)); ("created_at", json_string (sm_CreatedAt m))].

Definition validateSyncKeyMetadata (meta : SyncKeyMetadata) (expectedHostID publicKey digest keyID : string) : result ioerror () :=
  if negb (bool_decide (sm_Schema meta = syncKeyMetadataSchema)) then Err ErrSyncKeyIdentityMismatch
  else if negb (is_ok (ValidateHostID (sm_HostID meta))) then Err ErrSyncKeyIdentityMismatch
  else if negb (bool_decide (sm_HostID meta = expectedHostID)) || negb (bool_decide (sm_KeyID meta = keyID))
       || negb (bool_decide (sm_PublicKeySHA256 meta = digest)) || negb (bool_decide (sm_PublicKey meta = publicKey)) then Err ErrSyncKeyIdentityMismatch
  else if negb (rfc3339_ok (sm_CreatedAt meta)) then Err ErrSyncKeyIdentityMismatch
  else Ok ().
End identity.

(** ** The files of a key *)

(** [os.Remove] whose error is not looked at. *)
Definition remove_quietly (path : string) : io () := catch (os (Remove path)) (λ _, ok ()).

Fixpoint removePathsBestEffort (paths : list string) : io () :=
  match paths with
  | [] => ok ()
  | path :: paths => _ ← remove_quietly path; removePathsBestEffort paths
  end.

Definition removeSyncKeyMaterialBestEffort (keyPath : string) : io () := removePathsBestEffort (syncKeyMaterialPaths keyPath).

(** What one call's error becomes. *)
Definition or_error {A} (e : ioerror) (p : io A) : io A := catch p (λ _, fail e).

Definition pathExists (path : string) : io bool :=
  catch (_ ← os (Lstat path); ok true) (λ e, if bool_decide (e = OS ENOENT) then ok false else fail ErrSyncKeyPathUnavailable).

Definition validateSyncKeyParentDirectory (keyPath : string) : io () :=
  let parent := Dir keyPath in
  info ← catch (os (Lstat parent)) (λ e, if bool_decide (e = OS ENOENT) then fail ErrSyncKeyDirectoryMissing else fail ErrSyncKeyDirectoryUnsafe);
  if fi_symlink info then fail ErrSyncKeyDirectoryUnsafe
  else if negb (fi_dir info) then fail ErrSyncKeyParentNotDir
  else
    resolved ← or_error ErrSyncKeyDirectoryUnsafe (os (EvalSymlinks parent));
    if negb (bool_decide (Clean resolved = Clean parent)) then fail ErrSyncKeyDirectoryUnsafe else ok ().

Definition chmodSyncKeyPrivateFile (path : string) : io () :=
  or_error ErrSyncKeyChmodFailed
    (fd ← os (OpenRead path);
     finally (info ← os (Fstat fd); if negb (fi_regular info) then fail ErrSyncKeyChmodFailed else os (Fchmod fd 384)) (os (Close fd))).

(** The lock is held around [fn]. *)
Definition with_create_lock {A} (keyPath : string) (fn : io A) : io A :=
  fd ← catch (os (OpenLock (keyPath +:+ ".create.lock") 384)) (λ e, if bool_decide (e = OS ELOOP) then fail ErrSyncKeyLockUnsafe else fail ErrSyncKeyLockUnavailable);
  _ ← catch (os (Fchmod fd 384)) (λ _, bindp (os (Close fd)) (λ _, fail ErrSyncKeyLockUnavailable));
  _ ← catch (os (Flock fd false)) (λ _, bindp (os (Close fd)) (λ _, fail ErrSyncKeyLockUnavailable));
  finally fn (bindp (os (Funlock fd)) (λ _, os (Close fd))).

Definition openSyncKeyMaterialFile (path : string) : io nat :=
  catch (os (OpenRead path)) (λ e, if bool_decide (e = OS ENOENT) then fail ErrMissingSyncKey else fail ErrSyncKeyIdentityMismatch).

Section ops.
Context (uid : Z) (sha256 : string → string) (render : SyncKeyMetadata → string).

Definition validateSyncKeyMaterialFileInfo (info : FileInfo) : io () :=
  if fi_symlink info || negb (fi_regular info) then fail ErrSyncKeyIdentityMismatch
  else if negb (fi_uid info =? uid)%Z || negb (fi_links info <=? 1)%Z then fail ErrSyncKeyIdentityMismatch
  else if negb (Z.land (fi_perm info) 18 =? 0)%Z then fail ErrSyncKeyIdentityMismatch
  else ok ().

Definition validateOpenedSyncKeyMaterialFile (path : string) (fd : nat) : io () :=
  info ← or_error ErrSyncKeyIdentityMismatch (os (Fstat fd));
  _ ← validateSyncKeyMaterialFileInfo info;
  pathInfo ← catch (os (Lstat path)) (λ e, if bool_decide (e = OS ENOENT) then fail ErrMissingSyncKey else fail ErrSyncKeyIdentityMismatch);
  _ ← validateSyncKeyMaterialFileInfo pathInfo;
  if negb (same_file info pathInfo) then fail ErrSyncKeyIdentityMismatch else ok ().

Definition readSyncKeyMaterialFile (path : string) : io string :=
  fd ← openSyncKeyMaterialFile path;
  finally (_ ← validateOpenedSyncKeyMaterialFile path fd; or_error ErrSyncKeyIdentityMismatch (os (ReadAll fd))) (os (Close fd)).

Definition validateSyncKeyMaterialFile (path : string) : io () :=
  fd ← openSyncKeyMaterialFile path;
  finally (validateOpenedSyncKeyMaterialFile path fd) (os (Close fd)).

Definition repairLoadedSyncKeyPrivateMode (path : string) : io () :=
  fd ← openSyncKeyMaterialFile path;
  finally
    (_ ← validateOpenedSyncKeyMaterialFile path fd;
     info ← or_error ErrSyncKeyIdentityMismatch (os (Fstat fd));
     if (fi_perm info =? 384)%Z then ok () else or_error ErrSyncKeyIdentityMismatch (os (Fchmod fd 384)))
    (os (Close fd)).

Definition repairLoadedSyncKeyPrivateModes (privateKeyPath sidecarPath : string) : io () :=
  _ ← repairLoadedSyncKeyPrivateMode privateKeyPath; repairLoadedSyncKeyPrivateMode sidecarPath.

Definition readOpenSSHPublicKey (path : string) : io (string * string) :=
  fd ← or_error ErrSyncKeyReadFailed (os (OpenRead path));
  finally
    (info ← or_error ErrSyncKeyReadFailed (os (Fstat fd));
     if negb (fi_regular info) then fail ErrSyncKeyReadFailed
     else
       data ← or_error ErrSyncKeyReadFailed (os (ReadAll fd));
       match parseOpenSSHPublicKey data with Ok key => ok key | Err e => fail e end)
    (os (Close fd)).

(** ** Creating *)

Fixpoint none_exists (paths : list string) : io () :=
  match paths with
  | [] => ok ()
  | path :: paths => there ← pathExists path; if there : bool then fail ErrSyncKeyExists else none_exists paths
  end.

(** The time of creation, as RFC 3339. *)
Definition createLocalSyncKeyLocked (keyPath hostID createdAt : string) : io SyncKeyCreateResult :=
  let publicKeyPath := keyPath +:+ ".pub" in
  let sidecarPath := keyPath +:+ ".clipfan.json" in
  _ ← none_exists (syncKeyMaterialPaths keyPath);
  on_error
    (_ ← or_error ErrSyncKeyGenerationFailed (os (RunKeygen keyPath hostID));
     _ ← or_error ErrSyncKeyChmodFailed (chmodSyncKeyPrivateFile keyPath);
     '(publicKey, publicKeyBlob) ← readOpenSSHPublicKey publicKeyPath;
     let '(keyID, digest) := syncKeyIdentityFromPublicBlob sha256 publicKeyBlob in
     let metadata := MkMetadata syncKeyMetadataSchema hostID keyID digest publicKey createdAt in
     _ ← or_error ErrSyncKeyWriteFailed (writeConfigAtomic sidecarPath (render metadata) 384);
     ok (MkKey keyPath publicKeyPath sidecarPath keyID digest publicKey metadata))
    (removePathsBestEffort [keyPath; publicKeyPath; sidecarPath]).

(** What every operation looks at first; [preflight] is what the storage check says. *)
Definition checked (preflight : option ioerror) (keyPath hostID : string) : io () :=
  _ ← (if is_ok (ValidateSyncKeyPath keyPath) then ok () else fail (Code "invalid_sync_key"));
  _ ← (if is_ok (ValidateHostID hostID) then ok () else fail (Code "invalid_host_id"));
  _ ← validateSyncKeyParentDirectory keyPath;
  match preflight with Some e => fail e | None => ok () end.

Definition CreateLocalSyncKey (preflight : option ioerror) (keyPath hostID createdAt : string) : io SyncKeyCreateResult :=
  _ ← checked preflight keyPath hostID;
  with_create_lock keyPath (createLocalSyncKeyLocked keyPath hostID createdAt).

(** ** Loading *)

Definition LoadLocalSyncKey (preflight : option ioerror) (keyPath hostID : string) : io SyncKeyCreateResult :=
  _ ← checked preflight keyPath hostID;
  let publicKeyPath := keyPath +:+ ".pub" in
  let sidecarPath := keyPath +:+ ".clipfan.json" in
  _ ← validateSyncKeyMaterialFile keyPath;
  publicData ← readSyncKeyMaterialFile publicKeyPath;
  sidecarData ← readSyncKeyMaterialFile sidecarPath;
  match parseOpenSSHPublicKey publicData with
  | Err _ => fail ErrSyncKeyIdentityMismatch
  | Ok (publicKey, publicKeyBlob) =>
      let '(keyID, digest) := syncKeyIdentityFromPublicBlob sha256 publicKeyBlob in
      match parseSyncKeyMetadata sidecarData with
      | Err _ => fail ErrSyncKeyIdentityMismatch
      | Ok metadata =>
          match validateSyncKeyMetadata metadata hostID publicKey digest keyID with
          | Err e => fail e
          | Ok _ =>
              _ ← repairLoadedSyncKeyPrivateModes keyPath sidecarPath;
              ok (MkKey keyPath publicKeyPath sidecarPath keyID digest publicKey metadata)
          end
      end
  end.

(** ** Resetting *)

(** A file and where it was moved: [syncKeyResetBackup]. *)
Record syncKeyResetBackup := MkBackup {
  rb_final : string;
  rb_backup : string;
}.

Record stagedSyncKeyReset := MkStaged {
  sr_result : SyncKeyCreateResult;
  sr_keyPath : string;
  sr_backups : list syncKeyResetBackup;
}.

Fixpoint remove_scratch (keyPath : string) (entries : list (string * bool)) : io () :=
  match entries with
  | [] => ok ()
  | (name, isDir) :: entries =>
      if isDir || negb (isSyncKeyResetScratchName (Base keyPath) name) then remove_scratch keyPath entries
      else
        _ ← catch (os (Remove (join_dir keyPath name))) (λ e, if bool_decide (e = OS ENOENT) then ok () else fail ErrSyncKeyWriteFailed);
        remove_scratch keyPath entries
  end.

Definition removeStaleSyncKeyResetScratch (keyPath : string) : io () :=
  entries ← or_error ErrSyncKeyDirectoryUnsafe (os (ReadDir (Dir keyPath)));
  remove_scratch keyPath entries.

Fixpoint restore_each (backups : list syncKeyResetBackup) : io () :=
  match backups with
  | [] => ok ()
  | backup :: backups =>
      _ ← remove_quietly (rb_final backup);
      _ ← catch (os (Rename (rb_backup backup) (rb_final backup))) (λ _, ok ());
      restore_each backups
  end.

(** The last moved first. *)
Definition restoreSyncKeyResetBackups (backups : list syncKeyResetBackup) : io () := restore_each (reverse backups).

Definition rollbackInstalledSyncKeyReset (keyPath : string) (backups : list syncKeyResetBackup) : io () :=
  _ ← removePathsBestEffort (syncKeyMaterialPaths keyPath); restoreSyncKeyResetBackups backups.

Definition removeSyncKeyResetBackups (backups : list syncKeyResetBackup) : io () := removePathsBestEffort (rb_backup <$> backups).

Definition restoring {A} (backups : list syncKeyResetBackup) (e : ioerror) : io A := _ ← restoreSyncKeyResetBackups backups; fail e.

Fixpoint move_each (unique : string) (paths : list string) (backups : list syncKeyResetBackup) : io (list syncKeyResetBackup) :=
  match paths with
  | [] => ok backups
  | finalPath :: paths =>
      found ← catch (info ← os (Lstat finalPath); ok (Some info))
        (λ e, if bool_decide (e = OS ENOENT) then ok None else restoring backups ErrSyncKeyPathUnavailable);
      match found with
      | None => move_each unique paths backups
      | Some info =>
          if fi_dir info then restoring backups ErrSyncKeyIdentityMismatch
          else
            let backupPath := finalPath +:+ unique in
            there ← catch (pathExists backupPath) (restoring backups);
            if there : bool then restoring backups ErrSyncKeyPathUnavailable
            else
              _ ← catch (os (Rename finalPath backupPath)) (λ _, restoring backups ErrSyncKeyWriteFailed);
              move_each unique paths (backups ++ [MkBackup finalPath backupPath])
      end
  end.

Definition reset_unique (pid counter : N) : string := ".reset-old." +:+ temp_unique pid counter.

Definition moveExistingSyncKeyMaterialForReset (keyPath : string) (pid counter : N) : io (list syncKeyResetBackup) :=
  move_each (reset_unique pid counter) (syncKeyMaterialPaths keyPath) [].

Fixpoint install_each (pairs : list (string * string)) (installed : list string) : io () :=
  match pairs with
  | [] => ok ()
  | (tempPath, finalPath) :: pairs =>
      _ ← catch (os (Rename tempPath finalPath)) (λ _, _ ← removePathsBestEffort installed; fail ErrSyncKeyWriteFailed);
      install_each pairs (installed ++ [finalPath])
  end.

Definition installResetSyncKeyMaterial (tempPath finalPath : string) : io () :=
  install_each (combine (syncKeyMaterialPaths tempPath) (syncKeyMaterialPaths finalPath)) [].

(** [counter], [counter']: the names taken for the new files and for the old. *)
Definition stageLocalSyncKeyResetLocked (pid counter counter' : N) (keyPath hostID createdAt : string) : io stagedSyncKeyReset :=
  _ ← removeStaleSyncKeyResetScratch keyPath;
  let tempPath := syncKeyResetTempPath keyPath pid counter in
  tempResult ← on_error (createLocalSyncKeyLocked tempPath hostID createdAt) (removeSyncKeyMaterialBestEffort tempPath);
  on_error
    (backups ← moveExistingSyncKeyMaterialForReset keyPath pid counter';
     _ ← on_error (installResetSyncKeyMaterial tempPath keyPath) (rollbackInstalledSyncKeyReset keyPath backups);
     ok (MkStaged (MkKey keyPath (keyPath +:+ ".pub") (keyPath +:+ ".clipfan.json") (sk_KeyID tempResult) (sk_PublicKeySHA256 tempResult)
           (sk_PublicKey tempResult) (sk_Metadata tempResult)) keyPath backups))
    (removeSyncKeyMaterialBestEffort tempPath).

Definition stageLocalSyncKeyReset (preflight : option ioerror) (pid counter counter' : N) (keyPath hostID createdAt : string) : io stagedSyncKeyReset :=
  _ ← checked preflight keyPath hostID;
  with_create_lock keyPath (stageLocalSyncKeyResetLocked pid counter counter' keyPath hostID createdAt).

Definition commit (s : stagedSyncKeyReset) : io () := removeSyncKeyResetBackups (sr_backups s).

Definition rollback (s : stagedSyncKeyReset) : io () := rollbackInstalledSyncKeyReset (sr_keyPath s) (sr_backups s).

Definition ResetLocalSyncKey (preflight : option ioerror) (pid counter counter' : N) (keyPath hostID createdAt : string) : io SyncKeyCreateResult :=
  _ ← checked preflight keyPath hostID;
  with_create_lock keyPath
    (staged ← stageLocalSyncKeyResetLocked pid counter counter' keyPath hostID createdAt;
     _ ← commit staged;
     ok (sr_result staged)).
End ops.

(** ** ssh-keygen *)

Definition syncKeygenArgs (keyPath hostID : string) : list string := ["-t"; "ed25519"; "-N"; ""; "-f"; keyPath; "-C"; "clipfan:" +:+ hostID].

(** [strings.ReplaceAll] of a text that is not empty. *)
Fixpoint replace_all (fuel : nat) (s old new : string) : string :=
  match fuel with
  | O => s
  | S fuel =>
      if HasPrefix s old then new +:+ replace_all fuel (slice_from (len old) s) old new
      else match s with EmptyString => EmptyString | String a s => String a (replace_all fuel s old new) end
  end.

Definition ReplaceAll (s old new : string) : string := replace_all (S (len s)) s old new.

Definition sanitizeSyncKeyCommandDiagnostic (value keyPath : string) : string :=
  let out := TrimSpace value in
  if bool_decide (keyPath = "") then out
  else
    let out := ReplaceAll out keyPath "<sync_key_path>" in
    let dir := Dir keyPath in
    if negb (bool_decide (dir = ".")) && negb (bool_decide (dir = "/")) then ReplaceAll out dir "<sync_key_dir>" else out.

(** [syncKeyCommandError.Error]: [err] is the text of the error, empty when there is none. *)
Definition command_error (stderr err keyPath : string) : string :=
  let stderr := sanitizeSyncKeyCommandDiagnostic stderr keyPath in
  let cause := sanitizeSyncKeyCommandDiagnostic err keyPath in
  if negb (bool_decide (stderr = "")) then "sync_key_generation_failed: " +:+ stderr
  else if negb (bool_decide (cause = "")) then "sync_key_generation_failed: " +:+ cause
  else "sync_key_generation_failed".

(** ** Lemmas: names *)

Lemma sapp_inv_head (a x y : string) : a +:+ x = a +:+ y → x = y.
Proof. induction a as [|c a IH]; [done|]. intros [= H]. by apply IH. Qed.

(** A text that begins with itself moved by a dot. *)
Lemma dot_shift (base x z : string) : base +:+ x = "." +:+ base +:+ z → x = "." +:+ z.
Proof.
  induction base as [|a t IH]; [done|]. change (String a (t +:+ x) = String "." (String a t +:+ z) → x = "." +:+ z). intros [= -> H]. by apply IH.
Qed.

Lemma scratch_prefix base rest : HasPrefix rest ".." = false → HasPrefix (base +:+ rest) ("." +:+ base +:+ ".reset.") = false.
Proof.
  intros Hr. apply not_true_iff_false. intros (q & Hq)%sprefix_spec. rewrite sapp_assoc, (sapp_assoc base ".reset." q) in Hq. apply dot_shift in Hq. subst rest.
  discriminate Hr.
Qed.

Lemma decimal_clean value c : isDecimalString value = true → is_digit c = false → has_byte c value = false.
Proof. unfold isDecimalString. intros [_ H]%andb_true_iff Hc. by apply (has_byte_forall c is_digit). Qed.

Lemma cut_dot_app a b : has_byte "." a = false → cut_dot (a +:+ "." +:+ b) = Some (a, b).
Proof.
  induction a as [|x a IH]; [done|]. rewrite has_byte_cons. intros [Hx Ha]%orb_false_iff. change (cut_dot (String x (a +:+ "." +:+ b)) = Some (String x a, b)). cbn [cut_dot].
  rewrite Hx, (IH Ha). done.
Qed.

Lemma cut_dot_Some s a b : cut_dot s = Some (a, b) → s = a +:+ "." +:+ b.
Proof.
  revert a. induction s as [|x s IH]; intros a; [done|]. cbn [cut_dot]. destruct (bool_decide_reflect (x = "."%char)) as [->|]; [by intros [= <- <-]|].
  destruct (cut_dot s) as [[a' b']|]; [|done]. intros [= <- <-]. by rewrite (IH a').
Qed.

Lemma counter_suffix value : hasResetCounterSuffix value = true ↔ ∃ a b, value = a +:+ "." +:+ b ∧ isDecimalString a = true ∧ isDecimalString b = true.
Proof.
  unfold hasResetCounterSuffix. split.
  - destruct (cut_dot value) as [[a b]|] eqn:E; [|done]. intros [Ha Hb]%andb_true_iff. exists a, b. split; [by apply cut_dot_Some|done].
  - intros (a & b & -> & Ha & Hb). rewrite cut_dot_app by by eapply decimal_clean. by rewrite Ha, Hb.
Qed.

Lemma HasPrefix_iff (s p : string) : HasPrefix s p = true ↔ ∃ q, s = p +:+ q.
Proof. apply sprefix_spec. Qed.

(** What a reset names the files it makes and those it moves away. *)
Definition scratch_of (base name : string) : Prop :=
  ∃ suffix a b, suffix ∈ material_suffixes ∧ isDecimalString a = true ∧ isDecimalString b = true ∧
    (name = "." +:+ base +:+ ".reset." +:+ (a +:+ "." +:+ b) +:+ suffix ∨ name = base +:+ suffix +:+ ".reset-old." +:+ (a +:+ "." +:+ b)).

Lemma material_suffixes_spec suffix : suffix ∈ material_suffixes ↔ suffix = "" ∨ suffix = ".pub" ∨ suffix = ".clipfan.json".
Proof. unfold material_suffixes. rewrite !elem_of_cons, elem_of_nil. naive_solver. Qed.

Lemma reset_old_prefix base suffix suffix' u :
  suffix ∈ material_suffixes → suffix' ∈ material_suffixes → HasPrefix (base +:+ suffix +:+ ".reset-old." +:+ u) (base +:+ suffix' +:+ ".reset-old.") = bool_decide (suffix = suffix').
Proof.
  intros [-> |[-> | ->]]%material_suffixes_spec [-> |[-> | ->]]%material_suffixes_spec; first [rewrite bool_decide_eq_true_2 by done|rewrite bool_decide_eq_false_2 by done].
  1, 5, 9: apply HasPrefix_iff; exists u; by rewrite !sapp_assoc.
  all: apply not_true_iff_false; intros (q & Hq)%HasPrefix_iff; rewrite sapp_assoc in Hq; apply sapp_inv_head in Hq; discriminate Hq.
Qed.

Lemma reset_old_true base name suffixes : reset_old_name base name suffixes = true →
  ∃ suffix u, suffix ∈ suffixes ∧ name = base +:+ suffix +:+ ".reset-old." +:+ u ∧ hasResetCounterSuffix u = true.
Proof.
  induction suffixes as [|suffix suffixes IH]; cbn [reset_old_name]; [done|]. destruct (HasPrefix name (base +:+ suffix +:+ ".reset-old.")) eqn:Hp.
  - apply HasPrefix_iff in Hp as (u & ->). rewrite TrimPrefix_app. intros Hu. exists suffix, u. split; [by left|]. split; [by rewrite !sapp_assoc|done].
  - intros (s & u & Hin & H)%IH. exists s, u. split; [by right|done].
Qed.

Lemma reset_old_made base suffix u :
  suffix ∈ material_suffixes → hasResetCounterSuffix u = true → isSyncKeyResetScratchName base (base +:+ suffix +:+ ".reset-old." +:+ u) = true.
Proof.
  intros Hs Hu. unfold isSyncKeyResetScratchName. rewrite (scratch_prefix base (suffix +:+ ".reset-old." +:+ u)) by (apply material_suffixes_spec in Hs as [-> |[-> | ->]]; done).
  assert (Hin : ∀ l, (∀ s, s ∈ l → s ∈ material_suffixes) → suffix ∈ l → reset_old_name base (base +:+ suffix +:+ ".reset-old." +:+ u) l = true).
  { induction l as [|s l IH]; [by intros _ ?%not_elem_of_nil|]. intros Hl Hin. cbn [reset_old_name]. rewrite reset_old_prefix by (done || apply Hl; by left).
    destruct (bool_decide_reflect (suffix = s)) as [<-|Hne].
    - replace (base +:+ suffix +:+ ".reset-old." +:+ u) with ((base +:+ suffix +:+ ".reset-old.") +:+ u) by by rewrite !sapp_assoc. by rewrite TrimPrefix_app.
    - apply IH; [intros s' H'; apply Hl; by right|]. by apply elem_of_cons in Hin as [?|?]. }
  by apply Hin.
Qed.

Lemma reset_new_made base suffix u :
  suffix ∈ material_suffixes → hasResetCounterSuffix u = true → isSyncKeyResetScratchName base ("." +:+ base +:+ ".reset." +:+ u +:+ suffix) = true.
Proof.
  intros Hs Hu. unfold isSyncKeyResetScratchName. replace ("." +:+ base +:+ ".reset." +:+ u +:+ suffix) with (("." +:+ base +:+ ".reset.") +:+ (u +:+ suffix)) by by rewrite !sapp_assoc.
  rewrite HasPrefix_app, TrimPrefix_app. apply existsb_exists. exists suffix. split; [by apply list_elem_of_In|]. destruct (CutSuffix (u +:+ suffix) suffix) as [c b] eqn:E.
  assert (H : CutSuffix (u +:+ suffix) suffix = (u, true)) by by apply CutSuffix_spec. rewrite H in E. by injection E as <- <-.
Qed.

Lemma scratch_names base name : isSyncKeyResetScratchName base name = true ↔ scratch_of base name.
Proof.
  split.
  - unfold isSyncKeyResetScratchName. destruct (HasPrefix name ("." +:+ base +:+ ".reset.")) eqn:Hp.
    + apply HasPrefix_iff in Hp as (q & ->). rewrite TrimPrefix_app. intros (suffix & Hin & H)%existsb_exists. destruct (CutSuffix q suffix) as [u []] eqn:E; [|done].
      apply CutSuffix_spec in E as ->. apply counter_suffix in H as (a & b & -> & Ha & Hb). exists suffix, a, b. split; [by apply list_elem_of_In|]. split; [done|]. split; [done|].
      left. by rewrite !sapp_assoc.
    + intros (suffix & u & Hin & -> & (a & b & -> & Ha & Hb)%counter_suffix)%reset_old_true. exists suffix, a, b. split_all; [done..|by right].
  - intros (suffix & a & b & Hs & Ha & Hb & [-> | ->]); [apply reset_new_made|apply reset_old_made]; try done; apply counter_suffix; by exists a, b.
Qed.

Lemma scratch_spares base suffix : suffix ∈ ".create.lock" :: material_suffixes → isSyncKeyResetScratchName base (base +:+ suffix) = false.
Proof.
  intros Hs. apply not_true_iff_false. unfold isSyncKeyResetScratchName.
  assert (Hcases : suffix = ".create.lock" ∨ suffix = "" ∨ suffix = ".pub" ∨ suffix = ".clipfan.json") by (by apply elem_of_cons in Hs as [->|Hs]; [left|right; apply material_suffixes_spec]).
  rewrite scratch_prefix by (destruct Hcases as [-> |[-> |[-> | ->]]]; done). intros (s & u & Hin & Heq & _)%reset_old_true. apply sapp_inv_head in Heq.
  apply material_suffixes_spec in Hin. destruct Hcases as [-> |[-> |[-> | ->]]], Hin as [-> |[-> | ->]]; discriminate Heq.
Qed.

(** Which files a reset sweeps.  [isSyncKeyResetScratchName] accepts exactly the names a
    reset gives to the files it makes and to those it moves away, with any process and
    count in them; so the private key, the public key, the sidecar and the lock of a key
    are never swept. *)
Theorem scratch_names_exact base name :
  (isSyncKeyResetScratchName base name = true ↔ scratch_of base name) ∧
  (∀ suffix, suffix ∈ ".create.lock" :: material_suffixes → isSyncKeyResetScratchName base (base +:+ suffix) = false).
Proof. split; [apply scratch_names|intros suffix; apply scratch_spares]. Qed.

(** ** The identity of a key *)

Lemma b64_raw_ascii s : forall_bytes (in_range 0 127) (b64_raw_encode s) = true.
Proof. unfold b64_raw_encode. rewrite forall_bytes_rev. apply forall_bytes_strip_left. rewrite forall_bytes_rev. apply b64_encode_ascii. Qed.

(** What a public key file says of the key is a function of its line. *)
Lemma public_key_line publicData line blob publicData' line' blob' :
  parseOpenSSHPublicKey publicData = Ok (line, blob) → parseOpenSSHPublicKey publicData' = Ok (line', blob') → line' = line → blob' = blob.
Proof.
  unfold parseOpenSSHPublicKey. intros H H' Hl. destruct (Fields (TrimSpace publicData)) as [|k [|key ?]] eqn:E; try discriminate.
  destruct (Fields (TrimSpace publicData')) as [|k' [|key' ?]] eqn:E'; try discriminate. destruct (negb _); [discriminate|]. destruct (negb _) in H'; [discriminate|].
  destruct (b64_decode key) as [b|] eqn:Eb; [|discriminate]. destruct (b64_decode key') as [b'|] eqn:Eb'; [|discriminate]. injection H as <- <-. injection H' as <- <-.
  rewrite Hl, E in E'. injection E' as -> -> _. congruence.
Qed.

Lemma decode_encode_metadata m :
  Forall text_ok [sm_Schema m; sm_HostID m; sm_KeyID m; sm_PublicKeySHA256 m; sm_PublicKey m; sm_CreatedAt m] →
  ∀ data, parse data = Some (encode_metadata m) → parseSyncKeyMetadata data = Ok m.
Proof.
  intros Hok data Hp. unfold parseSyncKeyMetadata. rewrite Hp. unfold encode_metadata, json_string.
  repeat (apply Forall_cons in Hok as [-> Hok]). destruct m. reflexivity.
Qed.

(** C32. Whose key it is.  The sidecar that [CreateLocalSyncKey] writes, however its JSON is
    laid out, is read back as it was, and [LoadLocalSyncKey] accepts it for exactly the
    host it was made for and for a public key file with exactly the line it was made
    from. *)
Theorem sidecar_identity sha256 hostID publicData line blob createdAt data
    (Hhost : ValidateHostID hostID = Ok ()) (Hpublic : parseOpenSSHPublicKey publicData = Ok (line, blob)) (Hline : text_ok line)
    (Htime : rfc3339_ok createdAt = true) (Htext : text_ok createdAt)
    (Hdata : let '(keyID, digest) := syncKeyIdentityFromPublicBlob sha256 blob in
      parse data = Some (encode_metadata (MkMetadata syncKeyMetadataSchema hostID keyID digest line createdAt))) :
  ∃ meta, parseSyncKeyMetadata data = Ok meta ∧
    ∀ hostID' publicData' line' blob', parseOpenSSHPublicKey publicData' = Ok (line', blob') →
      let '(keyID', digest') := syncKeyIdentityFromPublicBlob sha256 blob' in
      is_ok (validateSyncKeyMetadata meta hostID' line' digest' keyID') = bool_decide (hostID' = hostID ∧ line' = line).
Proof.
  eexists. split.
  { apply (decode_encode_metadata (MkMetadata syncKeyMetadataSchema hostID (syncKeyIdentityFromPublicBlob sha256 blob).1 (syncKeyIdentityFromPublicBlob sha256 blob).2 line createdAt)); [|exact Hdata].
    repeat apply Forall_cons_2; cbn; [reflexivity|by apply host_id_text|apply hex_encode_json|apply ascii_json_text; apply b64_raw_ascii|done|done|constructor]. }
  intros hostID' publicData' line' blob' Hp'. cbn. unfold validateSyncKeyMetadata. cbn [sm_Schema sm_HostID sm_KeyID sm_PublicKeySHA256 sm_PublicKey sm_CreatedAt].
  rewrite bool_decide_eq_true_2 by done. rewrite Hhost, Htime. cbn [is_ok negb]. destruct (decide (hostID' = hostID ∧ line' = line)) as [[-> ->]|Hne].
  - pose proof (public_key_line _ _ _ _ _ _ Hpublic Hp' eq_refl) as ->. rewrite !(bool_decide_eq_true_2 _) by done. done.
  - rewrite (bool_decide_eq_false_2 (hostID' = hostID ∧ _)) by done.
    destruct (bool_decide_reflect (hostID = hostID')) as [<-|]; [|done]. destruct (bool_decide_reflect (line = line')) as [<-|]; [by destruct Hne|]. cbn [negb orb]. by rewrite orb_true_r.
Qed.

Definition sample_public : string := "ssh-ed25519 AAAA clipfan:alpha" +:+ String newline "".

Definition sample_sidecar : string :=
  print (encode_metadata (MkMetadata syncKeyMetadataSchema "alpha" (syncKeyIdentityFromPublicBlob (λ s, s +:+ s) (String "000" (String "000" (String "000" "")))).1
    (syncKeyIdentityFromPublicBlob (λ s, s +:+ s) (String "000" (String "000" (String "000" "")))).2 "ssh-ed25519 AAAA clipfan:alpha" "2024-01-02T03:04:05Z")).

Lemma sidecar_identity_witness :
  ∃ meta, parseSyncKeyMetadata sample_sidecar = Ok meta ∧ sm_HostID meta = "alpha" ∧
    is_ok (validateSyncKeyMetadata meta "beta" "ssh-ed25519 AAAA clipfan:alpha" (sm_PublicKeySHA256 meta) (sm_KeyID meta)) = false.
Proof.
  assert (Hpub : parseOpenSSHPublicKey sample_public = Ok ("ssh-ed25519 AAAA clipfan:alpha", String "000" (String "000" (String "000" "")))) by (vm_compute; reflexivity).
  destruct (sidecar_identity (λ s, s +:+ s) "alpha" sample_public "ssh-ed25519 AAAA clipfan:alpha" (String "000" (String "000" (String "000" ""))) "2024-01-02T03:04:05Z" sample_sidecar
    ltac:(vm_compute; reflexivity) Hpub ltac:(vm_compute; reflexivity) ltac:(vm_compute; reflexivity) ltac:(vm_compute; reflexivity) ltac:(vm_compute; reflexivity)) as (meta & Hm & H).
  exists meta. split; [exact Hm|]. assert (Heq : parseSyncKeyMetadata sample_sidecar = Ok meta) by exact Hm. vm_compute in Hm. injection Hm as Hm. rewrite <- Hm. split; [reflexivity|].
  specialize (H "beta" sample_public _ _ Hpub). rewrite <- Hm in H. exact H.
Defined.
