(* ===== verification/KeyReset.v ===== *)
(** * KeyReset: a reset of the sync key never loses the old one (config/sync_key.go)

    Whatever call of a reset fails, each file of the old key is at every point under its
    own name or under the one it was moved to. *)
From S2P Require Import Prelude GoStrings Encoding Paths Hostnames SSHConfig SSHCommand Files SafeFile FileUpdate SyncKey.
From Stdlib Require Import Ascii String.
From stdpp Require Import strings gmap.

#[local] Arguments String.append !_ _ / : simpl nomatch.

(** ** Files that stay *)
Section calm.
Context (P : string → Prop).

(** The names of [P] and the contents of the files are as they were. *)
Record calm (s0 s : fs) : Prop := {
  ca_names : ∀ p, P p → fs_names s !! p = fs_names s0 !! p;
  ca_inodes : ∀ ino i0, fs_inodes s0 !! ino = Some i0 → ∃ i, fs_inodes s !! ino = Some i ∧ i_data i = i_data i0 ∧ i_kind i = i_kind i0;
  ca_wf : fs_wf s;
}.

Lemma calm_refl s : fs_wf s → calm s s.
Proof. intros H. split; [done|by eauto|done]. Qed.

Lemma calm_trans s1 s2 s3 : calm s1 s2 → calm s2 s3 → calm s1 s3.
Proof.
  intros [A1 A2 _] [B1 B2 B3]. split; [intros p Hp; by rewrite B1, A1| |done]. intros ino i H. destruct (A2 ino i H) as (j & Hj & D & K).
  destruct (B2 ino j Hj) as (m & Hm & D' & K'). exists m. split; [done|]. split; congruence.
Qed.

Lemma steady_calm s0 s : steady P s0 s → calm s0 s.
Proof. intros [Hn _ Hi Hw]. split; [done| |done]. intros ino i H. destruct (Hi ino i H) as (j & Hj & D & K & _). by exists j. Qed.

Section programs.
Context (uid : Z) (resolve : fs → string → result errno string) (keygen : string → string → fs → fs * result errno unit).
Context (inv : fs → Prop) (s0 : fs).
Hypothesis Hinv : ∀ s, calm s0 s → inv s.

(** ssh-keygen makes the two files it is asked for and touches nothing else. *)
Definition confined_keygen : Prop := ∀ P k h s, ¬ P k → ¬ P (k +:+ ".pub") → fs_wf s → steady P s (keygen k h s).1.

Hypothesis Hkeygen : confined_keygen.

#[local] Notation WP := (wp uid resolve keygen honest eq inv).

(** A program that keeps it so, whatever it answers. *)
Definition tame {A} (p : prog A) : Prop := ∀ s (Q : A → fs → Prop), calm s0 s → (∀ r s', calm s0 s' → Q r s') → WP p Q s.

Lemma tame_ret {A} (a : A) : tame (Ret a).
Proof. intros s Q Hs HQ. by apply HQ. Qed.

Lemma tame_bind {A B} (p : prog A) (f : A → prog B) : tame p → (∀ a, tame (f a)) → tame (bindp p f).
Proof. intros Hp Hf s Q Hs HQ. apply wp_bind, Hp; [done|]. intros r s' Hs'. by apply Hf. Qed.

Lemma tame_bind_io {A B} (p : io A) (f : A → io B) : tame p → (∀ a, tame (f a)) → tame (p ≫= f).
Proof. intros Hp Hf. apply tame_bind; [done|]. intros [a|e]; [done|apply tame_ret]. Qed.

Lemma tame_catch {A} (p : io A) h : tame p → (∀ e, tame (h e)) → tame (catch p h).
Proof. intros Hp Hf. apply tame_bind; [done|]. intros [a|e]; [apply tame_ret|done]. Qed.

Lemma tame_finally {A} (p : io A) c : tame p → tame c → tame (finally p c).
Proof. intros Hp Hc. apply tame_bind; [done|]. intros r. apply tame_bind; [done|]. intros _. apply tame_ret. Qed.

Lemma tame_on_error {A} (p : io A) c : tame p → tame c → tame (on_error p c).
Proof. intros Hp Hc. apply tame_catch; [done|]. intros e. apply tame_bind; [done|]. intros _. apply tame_ret. Qed.

Lemma tame_os {X} (c : call X) : harmless P c → tame (os c).
Proof.
  intros Hc s Q Hs HQ. apply wp_os. intros s1 f <- _. assert (H : calm s0 (perform uid resolve keygen c f s).1).
  { eapply calm_trans; [exact Hs|]. apply steady_calm, perform_steady; [done|apply Hs]. }
  split; [by apply Hinv|by apply HQ].
Qed.

Lemma tame_keygen k h : ¬ P k → ¬ P (k +:+ ".pub") → tame (os (RunKeygen k h)).
Proof.
  intros H1 H2 s Q Hs HQ. apply wp_os. intros s1 f <- _. assert (H : calm s0 (perform uid resolve keygen (RunKeygen k h) f s).1).
  { eapply calm_trans; [exact Hs|]. destruct f; cbn [perform works short fst]; [by apply steady_calm, Hkeygen; [..|apply Hs]|by apply calm_refl; apply Hs..]. }
  split; [by apply Hinv|by apply HQ].
Qed.

(** A file that was not there before: *)
Lemma tame_write fd data : fs_inodes s0 !! fd = None → tame (os (Write fd data)).
Proof.
  intros Hfd s Q Hs HQ. assert (Hup : ∀ g, (∀ i, i_kind (g i) = i_kind i) → calm s0 (update_inode s fd g).1).
  { intros g _. unfold update_inode. destruct (fs_inodes s !! fd) as [i|]; [|done]. destruct Hs as [Hn Hi Hw]. split; [done| |].
    - intros ino i0 H0. cbn [fst set_inode fs_inodes]. rewrite lookup_insert_ne by congruence. by apply Hi.
    - intros names p ino Hin Hp. cbn [fst set_inode fs_inodes]. destruct (decide (ino = fd)) as [->|Hne]; [by rewrite lookup_insert_eq|]. rewrite lookup_insert_ne by done. by eapply Hw. }
  apply wp_os. intros s1 f <- _. assert (H : calm s0 (perform uid resolve keygen (Write fd data) f s).1) by (destruct f; cbn [perform works short fst]; [by apply Hup|done|by apply Hup]).
  split; [by apply Hinv|by apply HQ].
Qed.

Lemma tame_write_new tmp data perm : ¬ P tmp → tame (write_new tmp data perm (λ _, ok ())).
Proof.
  intros Ht s Q Hs HQ. unfold write_new. apply wp_bind_io, wp_os. intros s1 f <- _.
  assert (H : calm s0 (perform uid resolve keygen (OpenExcl tmp perm) f s).1).
  { eapply calm_trans; [exact Hs|]. apply steady_calm, perform_steady; [done|apply Hs]. }
  split; [by apply Hinv|]. destruct (perform uid resolve keygen (OpenExcl tmp perm) f s).2 as [fd|e] eqn:Hfd; [|by apply HQ].
  assert (Hfresh : fs_inodes s0 !! fd = None).
  { destruct f as [|e|n e]; cbn [perform works snd] in Hfd; [|discriminate..]. destruct (fs_names s !! tmp); [discriminate|]. unfold create in Hfd. destruct (is_kind _ _ _); [|discriminate].
    injection Hfd as <-. destruct (fs_inodes s0 !! fresh (dom (fs_inodes s))) as [i0|] eqn:E; [|done]. destruct (ca_inodes _ _ Hs _ _ E) as (i & Hi & _).
    destruct (is_fresh (dom (fs_inodes s))). by apply elem_of_dom. }
  revert H. generalize (perform uid resolve keygen (OpenExcl tmp perm) f s).1 as s1. intros s1 H1.
  refine (tame_on_error _ _ _ _ s1 Q H1 HQ); [|by apply tame_os].
  apply tame_bind_io; [|intros _; by apply tame_os]. apply tame_on_error; [|by apply tame_os].
  apply tame_bind_io; [by apply tame_write|intros _]. apply tame_bind_io; [by apply tame_os|intros _; apply tame_ret].
Qed.
End programs.
End calm.

(** ** The names of a reset *)
Section names.
Context (segs : list string) (n : string) (pid counter counter' : N).
Hypothesis Hsegs : Forall path_segment segs.
Hypothesis Hn : path_segment n.

Definition key_path : string := absolute (segs ++ [n]).

(** The directory, with its slash. *)
Definition key_dir : string := if bool_decide (segs = []) then "/" else absolute segs +:+ "/".

Lemma absolute_dir x : absolute (segs ++ [x]) = key_dir +:+ x.
Proof.
  unfold key_dir, absolute. destruct (bool_decide_reflect (segs = [])) as [->|Hne]; [done|]. rewrite Join_snoc by done. by rewrite !sapp_assoc.
Qed.

(** A file of the key, where it is moved to, and what replaces it. *)
Definition material (suffix : string) : string := key_dir +:+ n +:+ suffix.

Definition moved_name (suffix : string) : string := key_dir +:+ n +:+ suffix +:+ reset_unique pid counter'.

Definition new_name (suffix : string) : string := key_dir +:+ "." +:+ n +:+ ".reset." +:+ temp_unique pid counter +:+ suffix.

Lemma key_path_dir : key_path = key_dir +:+ n.
Proof. apply absolute_dir. Qed.

Lemma material_paths : syncKeyMaterialPaths key_path = material <$> material_suffixes.
Proof. unfold syncKeyMaterialPaths, material_suffixes. cbn [fmap list_fmap]. unfold material. by rewrite key_path_dir, !sapp_assoc, (sapp_nil_r n). Qed.

Lemma reset_segment : path_segment ("." +:+ n +:+ ".reset." +:+ temp_unique pid counter).
Proof.
  pose proof (segment_nonempty n Hn) as Hne. destruct Hn as [Hp Hs]. split.
  - unfold plain_segment. destruct n as [|a t]; [done|]. change (("." +:+ String a t +:+ ".reset." +:+ temp_unique pid counter)) with (String "." (String a (t +:+ ".reset." +:+ temp_unique pid counter))).
    rewrite !bool_decide_eq_false_2; [done|..]; try discriminate. intros [= -> H]. by destruct t.
  - rewrite !has_byte_app, unique_clean, Hs. done.
Qed.

Lemma new_key_path : syncKeyResetTempPath key_path pid counter = new_name "".
Proof.
  unfold syncKeyResetTempPath, key_path. rewrite Dir_absolute, Base_absolute by done. rewrite join_absolute by (done || apply reset_segment). rewrite absolute_dir. unfold new_name.
  by rewrite sapp_nil_r.
Qed.

Lemma new_paths : syncKeyMaterialPaths (new_name "") = new_name <$> material_suffixes.
Proof. unfold syncKeyMaterialPaths, material_suffixes. cbn [fmap list_fmap]. unfold new_name. by rewrite !sapp_assoc, !sapp_nil_r. Qed.

Lemma new_ne x : HasPrefix x ".." = false → ∀ rest, key_dir +:+ "." +:+ n +:+ ".reset." +:+ rest ≠ key_dir +:+ n +:+ x.
Proof.
  intros Hx rest H. apply sapp_inv_head in H. symmetry in H. apply dot_shift in H. subst x. discriminate Hx.
Qed.

Lemma material_inj s s' : s ∈ material_suffixes → s' ∈ material_suffixes → material s = material s' → s = s'.
Proof. intros _ _ H. unfold material in H. by do 2 apply sapp_inv_head in H. Qed.

Lemma moved_inj s s' : s ∈ material_suffixes → s' ∈ material_suffixes → moved_name s = moved_name s' → s = s'.
Proof.
  intros H1 H2 H. unfold moved_name in H. do 2 apply sapp_inv_head in H. unfold reset_unique in H.
  apply material_suffixes_spec in H1 as [-> |[-> | ->]], H2 as [-> |[-> | ->]]; try done; discriminate H.
Qed.

Lemma moved_ne_material s s' : s ∈ material_suffixes → s' ∈ material_suffixes → moved_name s ≠ material s'.
Proof.
  intros H1 H2 H. unfold moved_name, material in H. do 2 apply sapp_inv_head in H. unfold reset_unique in H.
  apply material_suffixes_spec in H1 as [-> |[-> | ->]], H2 as [-> |[-> | ->]]; discriminate H.
Qed.

Lemma new_ne_material s s' : s' ∈ material_suffixes → new_name s ≠ material s'.
Proof.
  intros H2. unfold new_name, material. rewrite <- (sapp_assoc ".reset."). rewrite sapp_assoc. apply new_ne.
  by apply material_suffixes_spec in H2 as [-> |[-> | ->]].
Qed.

Lemma new_ne_moved s s' : s' ∈ material_suffixes → new_name s ≠ moved_name s'.
Proof.
  intros H2. unfold new_name, moved_name. rewrite <- (sapp_assoc ".reset."). rewrite sapp_assoc. apply new_ne.
  unfold reset_unique. by apply material_suffixes_spec in H2 as [-> |[-> | ->]].
Qed.

(** What is swept is not a file of the key. *)
Lemma swept_ne_material name s : s ∈ material_suffixes → isSyncKeyResetScratchName n name = true → join_dir key_path name ≠ material s.
Proof.
  intros Hs Hscratch. pose proof Hscratch as (f & a & b & Hf & Ha & Hb & Hname)%scratch_names.
  assert (Hseg : path_segment name).
  { split.
    - unfold plain_segment. rewrite !bool_decide_eq_false_2; [done|intros ->; destruct Hname as [Hname|Hname]; apply (f_equal len) in Hname; rewrite !len_app in Hname..].
      all: unfold len in Hname; cbn [String.length] in Hname; lia.
    - destruct Hn as [_ Hclean]. apply (decimal_clean _ "/") in Ha; [|done]. apply (decimal_clean _ "/") in Hb; [|done].
      apply material_suffixes_spec in Hf. destruct Hname as [-> | ->]; rewrite !has_byte_app, Hclean, Ha, Hb; by destruct Hf as [-> |[-> | ->]]. }
  unfold join_dir, key_path. rewrite Dir_absolute, join_absolute, absolute_dir by done. unfold material. intros H%sapp_inv_head. subst name.
  rewrite scratch_spares in Hscratch; [done|]. by right.
Qed.
End names.


(** ** Running a reset *)
Section running.
Context (uid : Z) (resolve : fs → string → result errno string) (keygen : string → string → fs → fs * result errno unit).
Context (sha256 : string → string) (render : SyncKeyMetadata → string).
Context (segs : list string) (n : string) (pid counter counter' : N).
Hypothesis Hsegs : Forall path_segment segs.
Hypothesis Hn : path_segment n.
Hypothesis Hkeygen : confined_keygen keygen.

#[local] Notation material := (material segs n).
#[local] Notation moved_name := (moved_name segs n pid counter').
#[local] Notation new_name := (new_name segs n pid counter).
#[local] Notation key_path := (key_path segs n).

Definition own (p : string) : Prop := ∃ f, f ∈ material_suffixes ∧ p = material f.

Definition aside (p : string) : Prop := ∃ f, f ∈ material_suffixes ∧ p = moved_name f.

Lemma new_not_own s : ¬ own (new_name s).
Proof. intros (f & Hf & H). by apply new_ne_material in H. Qed.

Lemma new_not_aside s : ¬ aside (new_name s).
Proof. intros (f & Hf & H). by apply new_ne_moved in H. Qed.

Lemma material_not_aside f : f ∈ material_suffixes → ¬ aside (material f).
Proof. intros Hf (g & Hg & H). symmetry in H. by apply moved_ne_material in H. Qed.

(** *** What only prepares *)
Section preparing.
Context (P : string → Prop) (inv : fs → Prop) (s0 : fs).
Hypothesis Hinv : ∀ s, calm P s0 s → inv s.
Hypothesis Hnew : ∀ s, ¬ P (new_name s).

#[local] Notation TAME := (tame P uid resolve keygen inv s0).

Lemma tame_remove_quietly path : ¬ P path → TAME (remove_quietly path).
Proof. intros Hp. apply tame_catch; [by apply tame_os|intros e; apply tame_ret]. Qed.

Lemma tame_removePaths paths : Forall (λ p, ¬ P p) paths → TAME (removePathsBestEffort paths).
Proof.
  induction 1 as [|p paths Hp _ IH]; cbn [removePathsBestEffort]; [apply tame_ret|]. apply tame_bind_io; [by apply tame_remove_quietly|done].
Qed.

Lemma tame_remove_new : TAME (removeSyncKeyMaterialBestEffort (new_name "")).
Proof. apply tame_removePaths. rewrite new_paths. apply Forall_fmap, Forall_true. intros f. apply Hnew. Qed.

Lemma tame_or_error {A} e (p : io A) : TAME p → TAME (or_error e p).
Proof. intros Hp. apply tame_catch; [done|intros e'; apply tame_ret]. Qed.

Lemma tame_none_exists paths : TAME (none_exists paths).
Proof.
  induction paths as [|p paths IH]; cbn [none_exists]; [apply tame_ret|]. apply tame_bind_io; [|intros []; [apply tame_ret|done]].
  apply tame_catch; [apply tame_bind_io; [by apply tame_os|intros ?; apply tame_ret]|]. intros e. case_bool_decide; apply tame_ret.
Qed.

Lemma tame_chmod path : TAME (chmodSyncKeyPrivateFile path).
Proof.
  apply tame_or_error, tame_bind_io; [by apply tame_os|]. intros fd. apply tame_finally; [|by apply tame_os]. apply tame_bind_io; [by apply tame_os|].
  intros info. case_match; [apply tame_ret|by apply tame_os].
Qed.

Lemma tame_public path : TAME (readOpenSSHPublicKey path).
Proof.
  apply tame_bind_io; [by apply tame_or_error, tame_os|]. intros fd. apply tame_finally; [|by apply tame_os].
  apply tame_bind_io; [by apply tame_or_error, tame_os|]. intros info. case_match; [apply tame_ret|]. apply tame_bind_io; [by apply tame_or_error, tame_os|].
  intros data. case_match; apply tame_ret.
Qed.

Lemma tame_write_config path data perm : ¬ P path → ¬ P (path +:+ ".tmp") → TAME (writeConfigAtomic path data perm).
Proof.
  intros H1 H2. apply tame_bind_io.
  { apply tame_bind_io; [|intros []; [by apply tame_os|apply tame_ret]]. apply tame_catch; [apply tame_bind_io; [by apply tame_os|intros ?; apply tame_ret]|].
    intros e. case_bool_decide; apply tame_ret. }
  intros _. apply tame_bind_io; [by apply tame_write_new|]. intros _. apply tame_on_error; by apply tame_os.
Qed.

Lemma new_name_app s t : new_name s +:+ t = new_name (s +:+ t).
Proof. unfold new_name. by rewrite !sapp_assoc. Qed.

Lemma tame_create hostID createdAt : TAME (createLocalSyncKeyLocked sha256 render (new_name "") hostID createdAt).
Proof.
  unfold createLocalSyncKeyLocked. apply tame_bind_io; [apply tame_none_exists|]. intros _. apply tame_on_error; [|exact tame_remove_new].
  apply tame_bind_io; [apply tame_or_error, tame_keygen; [done|done|apply Hnew|rewrite new_name_app; apply Hnew]|]. intros _.
  apply tame_bind_io; [by apply tame_or_error, tame_chmod|]. intros _. apply tame_bind_io; [apply tame_public|]. intros [publicKey blob].
  apply tame_bind_io; [apply tame_or_error, tame_write_config; rewrite !new_name_app; apply Hnew|]. intros _. apply tame_ret.
Qed.

Lemma tame_sweep : (∀ p, P p → own p) → TAME (removeStaleSyncKeyResetScratch key_path).
Proof.
  intros HP. apply tame_bind_io; [by apply tame_or_error, tame_os|]. intros entries. induction entries as [|[name isDir] entries IH]; cbn [remove_scratch]; [apply tame_ret|].
  destruct (isDir || negb _) eqn:E; [done|]. apply orb_false_iff in E as [_ E%negb_false_iff]. apply tame_bind_io; [|intros _; exact IH].
  apply tame_catch; [|intros e; case_bool_decide; apply tame_ret]. apply tame_os; [done|]. intros (f & Hf & H)%HP. revert H. apply swept_ne_material; [done..|].
  unfold key_path in E. by rewrite Base_absolute in E.
Qed.
End preparing.

(** *** Where the files of the old key are *)
Section tracking.
Context (s0 : fs).
Hypothesis Hwf : fs_wf s0.

(** Whatever was at a name of the key is there or where it is moved to. *)
Record safe (s : fs) : Prop := {
  sf_names : ∀ f e, f ∈ material_suffixes → fs_names s0 !! material f = Some e → fs_names s !! material f = Some e ∨ fs_names s !! moved_name f = Some e;
  sf_alive : calm (λ _, False) s0 s;
}.

(** Those of [R] are where they are moved to. *)
Definition held (R : list string) (s : fs) : Prop :=
  safe s ∧ ∀ f e, f ∈ R → f ∈ material_suffixes → fs_names s0 !! material f = Some e → fs_names s !! moved_name f = Some e.

(** The others were not moved yet. *)
Definition moving (L : list string) (s : fs) : Prop :=
  held L s ∧ ∀ f, f ∈ material_suffixes → f ∉ L → fs_names s !! material f = fs_names s0 !! material f.

(** All there were. *)
Definition all_of (R : list string) : Prop := ∀ f, f ∈ material_suffixes → f ∈ R ∨ fs_names s0 !! material f = None.

Definition backup_of (f : string) : syncKeyResetBackup := MkBackup (material f) (moved_name f).

#[local] Notation WP := (wp uid resolve keygen honest eq safe).

Lemma alive_step P s s' : calm (λ _, False) s0 s → calm P s s' → calm (λ _, False) s0 s'.
Proof. intros H1 [_ H2 H3]. eapply calm_trans; [exact H1|]. by split. Qed.

Lemma calm_moving s : calm own s0 s → moving [] s.
Proof.
  intros Hc. assert (Hs : ∀ f, f ∈ material_suffixes → fs_names s !! material f = fs_names s0 !! material f) by (intros f Hf; apply Hc; by exists f).
  split; [|intros f Hf _; by apply Hs]. split; [|by intros f e ?%not_elem_of_nil]. split; [intros f e Hf H; left; by rewrite Hs|]. eapply alive_step; [|exact Hc]. by apply calm_refl.
Qed.

Lemma calm_safe s s' : safe s → calm (λ p, own p ∨ aside p) s s' → safe s'.
Proof.
  intros [H1 H2] Hc. split; [|by eapply alive_step]. intros f e Hf H. destruct (H1 f e Hf H) as [H'|H']; [left|right]; rewrite (ca_names _ _ _ Hc); try done; [left|right]; by exists f.
Qed.

Lemma calm_held R s s' : all_of R → held R s → calm aside s s' → held R s'.
Proof.
  intros HR [[H1 H2] H3] Hc. assert (H : ∀ f e, f ∈ R → f ∈ material_suffixes → fs_names s0 !! material f = Some e → fs_names s' !! moved_name f = Some e).
  { intros f e Hin Hf H. rewrite (ca_names _ _ _ Hc) by by exists f. by apply H3. }
  split; [|done]. split; [|by eapply alive_step]. intros f e Hf H0. right. destruct (HR f Hf) as [Hin|Hnone]; [by apply H|congruence].
Qed.

(** What a renaming does, whether it works or not. *)
Lemma rename_cases old new f s :
  let s' := (perform uid resolve keygen (Rename old new) f s).1 in
  s' = s ∨ ∃ e, fs_names s !! old = Some e ∧ fs_names s' = <[new := e]> (delete old (fs_names s)).
Proof.
  destruct f as [|e|k e]; cbn [perform works short fst]; [|by left..]. unfold rename. destruct (fs_names s !! old) as [e|]; [|by left]. destruct (is_kind s new Folder); [by left|].
  destruct (negb _); [by left|]. right. by exists e.
Qed.

Lemma rename_Ok old new f s :
  (perform uid resolve keygen (Rename old new) f s).2 = Ok () →
  ∃ e, fs_names s !! old = Some e ∧ fs_names (perform uid resolve keygen (Rename old new) f s).1 = <[new := e]> (delete old (fs_names s)).
Proof.
  destruct f as [|e|k e]; cbn [perform works short fst snd]; [|done..]. unfold rename. destruct (fs_names s !! old) as [e|]; [|done]. destruct (is_kind s new Folder); [done|].
  destruct (negb _); [done|]. by exists e.
Qed.

Lemma alive_perform {X} (c : call X) P f s : calm (λ _, False) s0 s → harmless P c → calm (λ _, False) s0 (perform uid resolve keygen c f s).1.
Proof. intros H Hc. eapply (alive_step P); [exact H|]. apply steady_calm, perform_steady; [done|apply H]. Qed.

(** A file of the key is put back over what is at its name. *)
Lemma held_remove g R s f : g ∈ material_suffixes → held (g :: R) s → held (g :: R) (perform uid resolve keygen (Remove (material g)) f s).1.
Proof.
  intros Hg [[H1 H2] H3]. set (P := λ p, p ≠ material g). assert (Hst : steady P s (perform uid resolve keygen (Remove (material g)) f s).1).
  { apply perform_steady; [intros H; by apply H|apply H2]. }
  assert (Ha : ∀ h e, h ∈ g :: R → h ∈ material_suffixes → fs_names s0 !! material h = Some e → fs_names (perform uid resolve keygen (Remove (material g)) f s).1 !! moved_name h = Some e).
  { intros h e Hin Hh H. rewrite (st_names _ _ _ Hst) by by apply moved_ne_material. by apply H3. }
  split; [|done]. split; [|by eapply alive_step; [|apply steady_calm, Hst]]. intros h e Hh H. destruct (decide (h = g)) as [->|Hne]; [right; apply Ha; [by left|done..]|].
  destruct (H1 h e Hh H) as [H'|H']; [left|right]; rewrite (st_names _ _ _ Hst); try done; [|by apply moved_ne_material]. intros Heq. apply Hne. by eapply material_inj.
Qed.

Lemma held_put_back g R s f : g ∈ material_suffixes → g ∉ R → held (g :: R) s → held R (perform uid resolve keygen (Rename (moved_name g) (material g)) f s).1.
Proof.
  intros Hg Hnew [[H1 H2] H3]. pose proof (alive_perform (Rename (moved_name g) (material g)) (λ p, p ≠ moved_name g ∧ p ≠ material g) f s H2) as Halive.
  specialize (Halive ltac:(split; intros [? ?]; congruence)). revert Halive. destruct (rename_cases (moved_name g) (material g) f s) as [->|(e & He & Hnames)].
  - intros _. split; [done|]. intros h e Hh. apply H3. by right.
  - intros Halive. assert (Ha : ∀ h, h ∈ material_suffixes → h ≠ g →
      fs_names (perform uid resolve keygen (Rename (moved_name g) (material g)) f s).1 !! moved_name h = fs_names s !! moved_name h ∧
      fs_names (perform uid resolve keygen (Rename (moved_name g) (material g)) f s).1 !! material h = fs_names s !! material h).
    { intros h Hh Hne. rewrite Hnames. split; rewrite lookup_insert_ne, lookup_delete_ne; try done.
      - intros Heq. apply Hne. symmetry. by eapply moved_inj.
      - intros Heq. symmetry in Heq. by apply moved_ne_material in Heq.
      - intros Heq. by apply moved_ne_material in Heq.
      - intros Heq. apply Hne. symmetry. by eapply material_inj. }
    split.
    + split; [|done]. intros h e0 Hh H. destruct (decide (h = g)) as [->|Hne].
      * left. rewrite Hnames, lookup_insert_eq, <- He. by apply H3; [left|..].
      * destruct (Ha h Hh Hne) as [-> ->]. by apply H1.
    + intros h e0 Hin Hh H. destruct (Ha h Hh) as [-> _]; [by intros ->|]. apply H3; [by right|done..].
Qed.

Lemma wp_restore R s : NoDup R → (∀ f, f ∈ R → f ∈ material_suffixes) → held R s → WP (restore_each (backup_of <$> R)) (λ _ s', safe s') s.
Proof.
  intros Hnd. revert s. induction Hnd as [|g R Hg _ IH]; intros s HR Hs; [by destruct Hs|]. cbn [fmap list_fmap restore_each backup_of rb_final rb_backup].
  assert (Hm : g ∈ material_suffixes) by (apply HR; by left). apply wp_bind_io, wp_catch, wp_os. intros s1 f <- _. pose proof (held_remove g R s f Hm Hs) as Hs1.
  split; [apply Hs1|]. revert Hs1. generalize (perform uid resolve keygen (Remove (material g)) f s) as out. intros [s2 r] Hs2. cbn [fst snd] in *.
  assert (Hgo : WP (_ ← catch (os (Rename (moved_name g) (material g))) (λ _, ok ()); restore_each (backup_of <$> R)) (λ _ s', safe s') s2).
  { apply wp_bind_io, wp_catch, wp_os. intros s3 f' <- _. pose proof (held_put_back g R s2 f' Hm Hg Hs2) as Hs3. split; [apply Hs3|].
    assert (Hrest : WP (restore_each (backup_of <$> R)) (λ _ s', safe s') (perform uid resolve keygen (Rename (moved_name g) (material g)) f' s2).1) by (apply IH; [intros h Hh; apply HR; by right|done]).
    by destruct (perform uid resolve keygen (Rename (moved_name g) (material g)) f' s2).2. }
  by destruct r.
Qed.


Lemma wp_restoring {A} R e s (Q : result ioerror A → fs → Prop) :
  NoDup R → (∀ f, f ∈ R → f ∈ material_suffixes) → held R s → (∀ e s', safe s' → Q (Err e) s') → WP (restoring (backup_of <$> R) e) Q s.
Proof.
  intros Hnd HR Hs HQ. unfold restoring, restoreSyncKeyResetBackups. rewrite <- fmap_reverse. apply wp_bind_io.
  eapply wp_mono; [|apply wp_restore; [by rewrite reverse_Permutation|intros f Hf; apply HR; by apply elem_of_reverse|]].
  - intros [u|e'] s' Hs'; by apply HQ.
  - destruct Hs as [H1 H2]. split; [done|]. intros f x Hf. apply H2. by apply elem_of_reverse.
Qed.

(** Looking changes nothing, and what is said to be missing is. *)
Lemma wp_lstat path s (Q : result ioerror FileInfo → fs → Prop) :
  safe s → (∀ info, Q (Ok info) s) → (∀ e, e ≠ OS ENOENT → Q (Err e) s) → (fs_names s !! path = None → Q (Err (OS ENOENT)) s) → WP (os (Lstat path)) Q s.
Proof.
  intros Hs HOk HErr HNone. apply wp_os. intros s1 f <- Hf. destruct f as [|e|k e]; cbn [perform works short fst snd]; [|by split; [|apply HErr; intros [= ->]]..].
  split; [done|]. destruct (fs_names s !! path) as [[ino|t]|]; [|done|by apply HNone]. unfold inode_at. destruct (fs_inodes s !! ino); [by apply HOk|by apply HErr].
Qed.

Lemma move_step L f todo s e s' :
  f ∈ material_suffixes → NoDup ((f :: todo) ++ L) → moving L s → fs_names s !! material f = Some e → calm (λ _, False) s0 s' →
  fs_names s' = <[moved_name f := e]> (delete (material f) (fs_names s)) → moving (L ++ [f]) s'.
Proof.
  intros Hf Hnd [[[H1 H2] H3] H4] He Halive Hnames. assert (HfL : f ∉ L) by (cbn [app] in Hnd; apply NoDup_cons in Hnd as [H _]; set_solver).
  assert (Ha : ∀ h, h ∈ material_suffixes → h ≠ f → fs_names s' !! moved_name h = fs_names s !! moved_name h ∧ fs_names s' !! material h = fs_names s !! material h).
  { intros h Hh Hne. rewrite Hnames. split; rewrite lookup_insert_ne, lookup_delete_ne; try done.
    - intros Heq. symmetry in Heq. by apply moved_ne_material in Heq.
    - intros Heq. apply Hne. symmetry. by eapply moved_inj.
    - intros Heq. apply Hne. symmetry. by eapply material_inj.
    - intros Heq. by apply moved_ne_material in Heq. }
  assert (Hmf : fs_names s0 !! material f = Some e) by by rewrite <- H4.
  split; [split; [split; [|done]|]|].
  - intros h e0 Hh H. destruct (decide (h = f)) as [->|Hne]; [|destruct (Ha h Hh Hne) as [-> ->]; by apply H1]. right. rewrite Hnames, lookup_insert_eq. congruence.
  - intros h e0 Hin Hh H. destruct (decide (h = f)) as [->|Hne]; [rewrite Hnames, lookup_insert_eq; congruence|]. destruct (Ha h Hh Hne) as [-> _].
    apply H3; [|done..]. apply elem_of_app in Hin as [?|?%list_elem_of_singleton]; [done|congruence].
  - intros h Hh Hin. destruct (Ha h Hh) as [_ ->]; [intros ->; apply Hin, elem_of_app; right; by left|]. apply H4; [done|]. intros H. apply Hin, elem_of_app. by left.
Qed.

Lemma safe_moving L s : moving L s → safe s.
Proof. by intros [[H _] _]. Qed.

#[local] Hint Resolve safe_moving : core.

(** The renaming of one file of the key, once it is known to be there. *)
Lemma wp_move_one L f todo s (Q : result ioerror () → fs → Prop) :
  f ∈ material_suffixes → NoDup ((f :: todo) ++ L) → moving L s → (∀ e s', moving L s' → Q (Err e) s') → (∀ s', moving (L ++ [f]) s' → Q (Ok ()) s') →
  WP (os (Rename (material f) (moved_name f))) Q s.
Proof.
  intros Hf Hnd Hs HErr HOk. apply wp_os. intros s1 ft <- _.
  assert (Halive : calm (λ _, False) s0 (perform uid resolve keygen (Rename (material f) (moved_name f)) ft s).1).
  { eapply (alive_perform _ (λ p, p ≠ material f ∧ p ≠ moved_name f)); [apply Hs|]. split; intros [? ?]; congruence. }
  destruct (perform uid resolve keygen (Rename (material f) (moved_name f)) ft s).2 as [[]|e] eqn:Hr.
  - destruct (rename_Ok _ _ _ _ Hr) as (e & He & Hnames). pose proof (move_step L f todo s e _ Hf Hnd Hs He Halive Hnames) as Hs'. split; [by eauto|by apply HOk].
  - assert (Hsame : (perform uid resolve keygen (Rename (material f) (moved_name f)) ft s).1 = s).
    { destruct ft as [|e'|k e']; cbn [perform works short fst snd] in *; [|done..]. unfold rename in *. destruct (fs_names s !! material f); [|done].
      destruct (is_kind s (moved_name f) Folder); [done|]. by destruct (negb _). }
    rewrite Hsame. split; [by eauto|by apply HErr].
Qed.

Lemma fmap_backup_snoc L f : (backup_of <$> L) ++ [MkBackup (material f) (moved_name f)] = backup_of <$> (L ++ [f]).
Proof. by rewrite fmap_app. Qed.

Lemma wp_move todo L s (Q : result ioerror (list syncKeyResetBackup) → fs → Prop) :
  NoDup (todo ++ L) → (∀ f, f ∈ todo ++ L → f ∈ material_suffixes) → (∀ f, f ∈ material_suffixes → f ∈ todo ++ L ∨ fs_names s0 !! material f = None) → moving L s →
  (∀ e s', safe s' → Q (Err e) s') → (∀ R s', NoDup R → (∀ f, f ∈ R → f ∈ material_suffixes) → all_of R → held R s' → Q (Ok (backup_of <$> R)) s') →
  WP (move_each (reset_unique pid counter') (material <$> todo) (backup_of <$> L)) Q s.
Proof.
  intros Hnd Hsub Hall Hs HErr HOk. revert L s Hnd Hsub Hall Hs. induction todo as [|f todo IH]; intros L s Hnd Hsub Hall Hs; [by apply HOk, Hs|].
  cbn [fmap list_fmap move_each]. assert (Hf : f ∈ material_suffixes) by (apply Hsub; by left).
  assert (HL : NoDup L ∧ ∀ g, g ∈ L → g ∈ material_suffixes) by (split; [by apply NoDup_app in Hnd as (_ & _ & ?)|intros g Hg; apply Hsub, elem_of_app; by right]).
  assert (Hback : ∀ A e s' (Q' : result ioerror A → fs → Prop), moving L s' → (∀ e s', safe s' → Q' (Err e) s') → WP (restoring (backup_of <$> L) e) Q' s').
  { intros A e s' Q' [Hs' _] HQ'. by apply wp_restoring; [apply HL..| |]. }
  apply wp_bind_io, wp_catch, wp_bind_io, wp_lstat; [by eauto|intros info|intros e He; rewrite bool_decide_eq_false_2 by done; by apply Hback|intros Hnone].
  - change (WP (if fi_dir info then restoring (backup_of <$> L) ErrSyncKeyIdentityMismatch
      else there ← catch (pathExists (material f +:+ reset_unique pid counter')) (restoring (backup_of <$> L));
        if there : bool then restoring (backup_of <$> L) ErrSyncKeyPathUnavailable
        else _ ← catch (os (Rename (material f) (material f +:+ reset_unique pid counter'))) (λ _, restoring (backup_of <$> L) ErrSyncKeyWriteFailed);
          move_each (reset_unique pid counter') (material <$> todo) ((backup_of <$> L) ++ [MkBackup (material f) (material f +:+ reset_unique pid counter')])) Q s).
    destruct (fi_dir info); [by apply Hback|]. replace (material f +:+ reset_unique pid counter') with (moved_name f) by by unfold material, moved_name; rewrite !sapp_assoc.
    rewrite fmap_backup_snoc.
    assert (Hmove : WP (_ ← catch (os (Rename (material f) (moved_name f))) (λ _, restoring (backup_of <$> L) ErrSyncKeyWriteFailed);
      move_each (reset_unique pid counter') (material <$> todo) (backup_of <$> (L ++ [f]))) Q s).
    { apply wp_bind_io, wp_catch, (wp_move_one L f todo); [done..|intros e s' Hs'; by apply Hback|]. intros s' Hs'. apply IH; [..|done].
      - rewrite app_assoc, Permutation_app_comm. exact Hnd.
      - intros g Hg. apply Hsub. set_solver.
      - intros g Hg. destruct (Hall g Hg) as [H|H]; [left; set_solver|by right]. }
    apply wp_bind_io, wp_catch. unfold pathExists. apply wp_catch, wp_bind_io, wp_lstat; [by eauto|intros info'; by apply Hback| |intros _; exact Hmove].
    intros e He. rewrite bool_decide_eq_false_2 by done. by apply Hback.
  - rewrite bool_decide_eq_true_2 by done. change (WP (move_each (reset_unique pid counter') (material <$> todo) (backup_of <$> L)) Q s).
    assert (HfL : f ∉ L) by (apply NoDup_cons in Hnd as [H _]; set_solver). apply IH; [by apply NoDup_cons in Hnd as [_ ?]|intros g Hg; apply Hsub; by right| |done].
    intros g Hg. destruct (Hall g Hg) as [[->|H]%elem_of_cons|H]; [right|by left|by right]. destruct Hs as [_ Hs]. rewrite <- Hs by done. exact Hnone.
Qed.

(** *** The reset and its undoing *)

(** All of the old key are aside. *)
Record all_held (R : list string) (s : fs) : Prop := {
  ah_all : all_of R;
  ah_nodup : NoDup R;
  ah_sub : ∀ f, f ∈ R → f ∈ material_suffixes;
  ah_held : held R s;
}.

Lemma all_held_calm R s s' : all_held R s → calm aside s s' → all_held R s'.
Proof. intros [H1 H2 H3 H4] Hc. split; [done..|by eapply calm_held]. Qed.

(** A part that leaves those aside alone. *)
Lemma wp_aside {A} R (p : prog A) s (Q : A → fs → Prop) :
  all_held R s → tame aside uid resolve keygen safe s p → (∀ r s', all_held R s' → Q r s') → WP p Q s.
Proof.
  intros Hs Hp HQ. pose proof (sf_alive _ (proj1 (ah_held _ _ Hs))) as [_ _ Hw]. apply Hp; [by apply calm_refl|]. intros r s' Hc. apply HQ. by eapply all_held_calm.
Qed.

Lemma aside_inv R s : all_held R s → ∀ s', calm aside s s' → safe s'.
Proof. intros Hs s' Hc. by apply (ah_held _ _ (all_held_calm _ _ _ Hs Hc)). Qed.

Lemma wp_rollback R s (Q : result ioerror () → fs → Prop) :
  all_held R s → (∀ r s', safe s' → Q r s') → WP (rollbackInstalledSyncKeyReset key_path (backup_of <$> R)) Q s.
Proof.
  intros Hs HQ. apply wp_bind_io. eapply wp_aside; [exact Hs| |].
  - apply tame_removePaths; [by eapply aside_inv|]. rewrite material_paths by done. apply Forall_fmap, Forall_forall. intros f Hf. by apply material_not_aside.
  - intros [u|e] s' Hs'; [|by apply HQ, Hs']. unfold restoreSyncKeyResetBackups. rewrite <- fmap_reverse. eapply wp_mono; [|apply wp_restore].
    + intros r s'' Hs''. by apply HQ.
    + rewrite reverse_Permutation. by apply Hs'.
    + intros f Hf. rewrite elem_of_reverse in Hf. by apply (ah_sub _ _ Hs').
    + destruct Hs' as [_ _ _ [H1 H2]]. split; [done|]. intros f x Hf. rewrite elem_of_reverse in Hf. by apply H2.
Qed.

Lemma tame_install R s : all_held R s → tame aside uid resolve keygen safe s (installResetSyncKeyMaterial (new_name "") key_path).
Proof.
  intros Hs. unfold installResetSyncKeyMaterial. rewrite new_paths, material_paths by done.
  assert (Hgo : ∀ l done, (∀ f, f ∈ l → f ∈ material_suffixes) → Forall (λ p, ¬ aside p) done → tame aside uid resolve keygen safe s (install_each (combine (new_name <$> l) (material <$> l)) done)).
  { induction l as [|f l IH]; intros installed Hl Hdone; cbn [fmap list_fmap combine install_each]; [apply tame_ret|].
    assert (Hf : ¬ aside (material f)) by (apply material_not_aside, Hl; by left). apply tame_bind_io.
    - apply tame_catch; [apply tame_os; [by eapply aside_inv|split; [apply new_not_aside|done]]|]. intros e. apply tame_bind_io; [|intros _; apply tame_ret].
      apply tame_removePaths; [by eapply aside_inv|done].
    - intros _. apply IH; [intros g Hg; apply Hl; by right|]. apply Forall_app. split; [done|by constructor]. }
  apply Hgo; [done|constructor].
Qed.

Lemma wp_stage hostID createdAt (Q : result ioerror stagedSyncKeyReset → fs → Prop) :
  (∀ e s, safe s → Q (Err e) s) → (∀ R key s, all_held R s → Q (Ok (MkStaged key key_path (backup_of <$> R))) s) →
  WP (stageLocalSyncKeyResetLocked sha256 render pid counter counter' key_path hostID createdAt) Q s0.
Proof.
  intros HErr HOk. assert (Hinv : ∀ s, calm own s0 s → safe s) by (intros s Hc; by apply (safe_moving []), calm_moving).
  assert (Hclean : ∀ e s, safe s → WP (removeSyncKeyMaterialBestEffort (new_name "")) (λ _ s', Q (Err e) s') s).
  { intros e s Hs. apply (tame_remove_new (λ p, own p ∨ aside p) safe s); [by intros s'; apply calm_safe|by intros f [?%new_not_own|?%new_not_aside]|by apply calm_refl, Hs|].
    intros _ s' Hc. apply HErr. by eapply calm_safe. }
  unfold stageLocalSyncKeyResetLocked. rewrite new_key_path by done. apply wp_bind_io.
  apply (tame_sweep own safe s0 Hinv); [done|by apply calm_refl|]. intros [u|e] s Hs; [|by apply HErr, Hinv].
  apply wp_bind_io, wp_on_error, (tame_create own safe s0 Hinv new_not_own); [done|]. clear u s Hs. intros [key|e] s Hs; [|by apply (Hclean e), Hinv].
  apply wp_on_error, wp_bind_io. unfold moveExistingSyncKeyMaterialForReset. rewrite material_paths by done.
  apply (wp_move material_suffixes [] s); [..|by apply calm_moving|intros e s' Hs'; by apply (Hclean e)|].
  { rewrite app_nil_r. unfold material_suffixes. repeat constructor; set_solver. }
  { intros f. by rewrite app_nil_r. }
  { intros f Hf. rewrite app_nil_r. by left. }
  intros R s' Hnd Hsub Hall Hheld. assert (HR : all_held R s') by by split. apply wp_bind_io, wp_on_error. eapply wp_aside; [exact HR|by eapply tame_install|].
  intros [u|e] s'' HR'; [by apply HOk|]. apply wp_rollback; [done|]. intros _ s3 Hs3. by apply (Hclean e).
Qed.
End tracking.
End running.

(** Where the contents of a file of the old key are seen. *)
Definition still_there (keyPath suffix : string) (pid counter' : N) (data : string) (s : fs) : Prop :=
  visible s (keyPath +:+ suffix) = Some data ∨ visible s (keyPath +:+ suffix +:+ reset_unique pid counter') = Some data.

Lemma safe_still_there segs n pid counter' s0 s f data :
  Forall path_segment segs → path_segment n → fs_wf s0 → f ∈ material_suffixes → safe segs n pid counter' s0 s → visible s0 (key_path segs n +:+ f) = Some data → still_there (key_path segs n) f pid counter' data s.
Proof.
  intros Hs Hn Hwf Hf [H1 H2]. assert (Hm : key_path segs n +:+ f = material segs n f) by (unfold material; by rewrite key_path_dir, sapp_assoc).
  assert (Hb : key_path segs n +:+ f +:+ reset_unique pid counter' = moved_name segs n pid counter' f) by (unfold moved_name; by rewrite key_path_dir, !sapp_assoc).
  unfold still_there. rewrite Hm, Hb. intros Hv. unfold visible in Hv. destruct (fs_names s0 !! material segs n f) as [[ino|t]|] eqn:E; [|done..].
  destruct (fs_inodes s0 !! ino) as [i|] eqn:Ei; [|done]. injection Hv as <-. destruct (ca_inodes _ _ _ H2 _ _ Ei) as (j & Hj & Hd & _).
  destruct (H1 f _ Hf E) as [H|H]; [left|right]; unfold visible; rewrite H, Hj; cbn; by rewrite Hd.
Qed.


(** ** Witness *)

Module ResetSamples.
Definition key : string := "/home/sync".

(** The directory with an old key in it. *)
Definition old_key : fs :=
  MkFs (list_to_map [("/", Node 0); ("/home", Node 1); (key, Node 2); (key +:+ ".pub", Node 3)])
    (list_to_map [(0, MkInode Folder "" 493 0 true); (1, MkInode Folder "" 448 501 true); (2, MkInode Regular "old private" 384 501 true); (3, MkInode Regular "old public" 384 501 true)]) [].

Lemma old_key_wf : fs_wf old_key.
Proof.
  intros names p ino Hin Hp. apply list_elem_of_singleton in Hin as ->. unfold old_key in *. cbn [fs_names fs_inodes] in *. apply elem_of_list_to_map_2 in Hp.
  rewrite !elem_of_cons in Hp. destruct Hp as [Hp|[Hp|[Hp|[Hp|Hp]]]]; [injection Hp as _ ->; eexists; reflexivity..|by apply not_elem_of_nil in Hp].
Qed.

Definition put (s : fs) (path data : string) : fs :=
  let ino := fresh (dom (fs_inodes s)) in set_inode (with_names s (<[path := Node ino]> (fs_names s))) ino (MkInode Regular data 384 501 false).

Lemma put_steady P s path data : fs_wf s → ¬ P path → steady P s (put s path data).
Proof.
  intros Hwf Hp. unfold put. set (ino := fresh _). assert (Hf : fs_inodes s !! ino = None) by (apply not_elem_of_dom, is_fresh).
  split; unfold all_names; cbn [set_inode with_names fs_names fs_inodes fs_past].
  - intros p Hp'. rewrite lookup_insert_ne; [done|]. by intros <-.
  - intros n [->|Hin]%elem_of_cons; [|by eauto]. exists (fs_names s). split; [by left|]. intros p Hp'. rewrite lookup_insert_ne; [done|]. by intros <-.
  - intros j j0 Hj. rewrite lookup_insert_ne by congruence. by eauto.
  - intros n p j Hin Hj. cbn [set_inode with_names fs_inodes]. destruct (decide (j = ino)) as [->|Hne]; [by rewrite lookup_insert_eq|]. rewrite lookup_insert_ne by done.
    unfold all_names in Hin. cbn [set_inode with_names fs_names fs_past] in Hin. apply elem_of_cons in Hin as [->|Hin]; [|by eapply Hwf].
    destruct (decide (p = path)) as [->|Hpp]; [rewrite lookup_insert_eq in Hj; congruence|]. rewrite lookup_insert_ne in Hj by done. eapply Hwf; [by left|done].
Qed.

(** An ssh-keygen. *)
Definition keygen (k h : string) (s : fs) : fs * result errno unit := (put (put s k "new private") (k +:+ ".pub") "ssh-ed25519 AAAA clipfan", Ok ()).

Lemma keygen_confined : confined_keygen keygen.
Proof.
  intros P k h s H1 H2 Hwf. pose proof (put_steady P s k "new private" Hwf H1) as H. eapply steady_trans; [exact H|]. apply put_steady; [apply H|done].
Qed.

Definition render (m : SyncKeyMetadata) : string := sm_KeyID m.

(** The n-th call fails. *)
Definition failing (n : nat) (k : nat) : fault := if k =? n then Fails EIO else Works.

Lemma failing_honest n k : honest (failing n k).
Proof. unfold failing. by destruct (k =? n). Qed.

Definition run (faults : nat → fault) : list fs * (result ioerror () * nat * fs) :=
  exec 501 Samples.no_links keygen (λ _ s, s) faults 0 old_key
    (staged ← stageLocalSyncKeyResetLocked (λ s, s) render 7 1 2 key "host" "now"; rollback staged).
End ResetSamples.


(** After a stop of the machine between the moving and the installing, the old key is only
    at the names it was moved to.  The next reset sweeps those before it makes a new key;
    when that fails no key is left. *)
Definition stopped_reset : fs :=
  MkFs (list_to_map [("/", Node 0); ("/home", Node 1); (ResetSamples.key +:+ ".reset-old.7.2", Node 2); (ResetSamples.key +:+ ".pub" +:+ ".reset-old.7.2", Node 3)])
    (fs_inodes ResetSamples.old_key) [].

Example stopped_reset_loses :
  let out := exec 501 Samples.no_links ResetSamples.keygen (λ _ s, s) (ResetSamples.failing 6) 0 stopped_reset
    (stageLocalSyncKeyResetLocked (λ s, s) ResetSamples.render 8 1 2 ResetSamples.key "host" "now") in
  is_ok (Samples.answer out) = false ∧ fs_names (Samples.last_state out) = list_to_map [("/", Node 0); ("/home", Node 1)].
Proof. split; vm_compute; reflexivity. Qed.
