(* ===== verification/RemoveHost.v ===== *)
(** * Removing a host: config/remove_host.go

    A host is removed from the static peers and from the SSH peers in one update; names
    are compared up to case, a final dot, [.local] and the spelling of an address.  Each
    SSH peer goes through the deletion of [PeerConfig], with its audit entry.  [now] is
    the time of the n-th deletion, formatted. *)
From S2P Require Import Prelude GoStrings NetIP Paths Hostnames Config Listener Json RawJson Words SSHConfig KnownHosts ConfigDoc PeerRequests PeerConfig Files SafeFile FileUpdate ConfigFile.
From Stdlib Require Import Ascii String.
From stdpp Require Import strings gmap.

#[local] Arguments String.append !_ _ / : simpl nomatch.

Record HostRemoveRequest := MkHostRemove {
  hm_ExpectedRevisionState : string;
  hm_ExpectedConfigRevision : option Z;
  hm_Reason : string;
  hm_LogID : string;
}.

Record HostRemoveResult := MkHostRemoved {
  hx_HostID : string;
  hx_RemovedStaticPeer : bool;
  hx_RemovedSSHPeer : bool;
  hx_ConfigRevision : option Z;
  hx_RevisionState : string;
  hx_ConfigVersion : option Z;
  hx_SSHCleanupStatus : option raw_object;
}.

(** ** The request *)

Definition validRevisionState (state : string) : bool := bool_decide (state ∈ [RevisionStatePreV2; RevisionStateMissingRevision; RevisionStateVersioned]).

Definition decodeRequiredHostRemoveRevisionState (raw : raw_object) : result string string :=
  match raw !! "expected_revision_state" with
  | None | Some VNull => Err "missing_host_remove_field"
  | Some (VString state) => if validRevisionState state then Ok state else Err "invalid_host_remove_field"
  | Some _ => Err "invalid_host_remove_field"
  end.

Definition decodeHostRemoveExpectedRevision (raw : raw_object) (state : string) : result string (option Z) :=
  match raw !! "expected_config_revision" with
  | None | Some VNull => if bool_decide (state = RevisionStateVersioned) then Err ErrConfigRevisionConflict else Ok None
  | Some value =>
      revision ← parseJSONUint value "invalid_expected_config_revision";
      if (revision =? 0)%Z then Err ErrConfigRevisionConflict
      else if negb (bool_decide (state = RevisionStateVersioned)) then Err ErrConfigRevisionConflict
      else Ok (Some revision)
  end.

Definition decodeRequiredHostRemoveStringField (raw : raw_object) (field : string) : result string string :=
  out ← required_string "missing_host_remove_field" "invalid_host_remove_field" raw field;
  if blank out then Err "missing_host_remove_field" else Ok out.

Definition host_remove_fields : gset string := {["expected_revision_state"; "expected_config_revision"; "reason"; "log_id"]}.

Definition DecodeHostRemoveRequest (body : string) : result string HostRemoveRequest :=
  raw ← strict_body "malformed_host_remove_request" host_remove_fields body;
  state ← decodeRequiredHostRemoveRevisionState raw;
  revision ← decodeHostRemoveExpectedRevision raw state;
  reason ← decodeRequiredHostRemoveStringField raw "reason";
  _ ← ensure (stableSSHPeerReasonPattern reason) "invalid_host_remove_field";
  logID ← decodeRequiredHostRemoveStringField raw "log_id";
  Ok (MkHostRemove state revision reason logID).

Definition validateHostRemoveRequest (req : HostRemoveRequest) : result string () :=
  if negb (validRevisionState (hm_ExpectedRevisionState req)) then Err "invalid_host_remove_field"
  else
    _ ← (if bool_decide (hm_ExpectedRevisionState req = RevisionStateVersioned)
         then if (default 0%Z (hm_ExpectedConfigRevision req) =? 0)%Z then Err ErrConfigRevisionConflict else Ok ()
         else match hm_ExpectedConfigRevision req with Some _ => Err ErrConfigRevisionConflict | None => Ok () end);
    _ ← validateStableSSHPeerReason "remove" (hm_Reason req);
    if blank (hm_LogID req) then Err "missing_host_remove_field" else Ok ().

Definition ValidateHostRemoveTarget (host : string) : result string () :=
  if is_ok (ValidateHostID host) || is_ok (CanonicalSSHHost host) then Ok () else Err "invalid_host_remove_id".

(** ** Names *)

Definition normalizeHostRemoveName (host : string) : string :=
  let host := TrimSpace host in
  if bool_decide (host = "") then ""
  else match ParseIP host with
       | Some ip => lower_text (IP_String ip)
       | None => TrimSuffix (lower_text (TrimSuffix host ".")) ".local"
       end.

Definition hostRemoveHostsMatch (a b : string) : bool :=
  let na := normalizeHostRemoveName a in negb (bool_decide (na = "")) && bool_decide (na = normalizeHostRemoveName b).

(** ** The update *)

Definition with_static (g : go_config) (peers : list string) : go_config :=
  let c := gc_config g in
  MkGoConfig (MkConfig (ConfigVersion c) (ConfigRevision c) (Listen c) (SharedKey c) (Discovery c) peers (Hostname c) (Transport c) (SSH c) (Port c) (MaxHistory c))
    (gc_static g) (gc_peers g).

Definition removeHostFromStaticPeers (g : go_config) (hostID : string) : go_config * bool :=
  let peers := StaticPeers (gc_config g) in
  (with_static g (filter (λ peer, hostRemoveHostsMatch peer hostID = false) peers), existsb (λ peer, hostRemoveHostsMatch peer hostID) peers).

Fixpoint matching_ids (peers : list raw_object) (hostID : string) : result string (list string) :=
  match peers with
  | [] => Ok []
  | peer :: peers =>
      pid ← rawPeerID peer;
      rest ← matching_ids peers hostID;
      Ok (if hostRemoveHostsMatch pid hostID then pid :: rest else rest)
  end.

Definition rawMapFieldAsAny (raw : raw_object) (key : string) : option raw_object := raw !! key ≫= λ value, unmarshal_object value ≫= id.

Section change.
Context (homeDir : option string) (now : nat → string).

(** The status is of the last peer deleted. *)
Fixpoint delete_each (n : nat) (ids : list string) (req : HostRemoveRequest) (g : go_config) (raw : raw_object) (status : option raw_object) :
    result string (go_config * raw_object * option raw_object) :=
  match ids with
  | [] => Ok (g, raw, status)
  | pid :: ids =>
      '(g, raw, responsePeer) ← applySSHPeerDelete (now n) pid (MkDelete (hm_ExpectedConfigRevision req) (hm_Reason req) (hm_LogID req)) g raw;
      delete_each (S n) ids req g raw (rawMapFieldAsAny responsePeer "cleanup_status")
  end.

Definition removeHostFromSSHPeers (g : go_config) (raw : raw_object) (hostID : string) (req : HostRemoveRequest) :
    result string (go_config * raw_object * (bool * option raw_object)) :=
  '(_, peers) ← rawSSHPeers raw;
  ids ← matching_ids peers hostID;
  '(g, raw, status) ← delete_each 0 ids req g raw None;
  Ok (g, raw, (negb (bool_decide (ids = [])), status)).

(** What [updateRemoveHostConfigRaw] changes in the copies, and what it answers. *)
Definition remove_change (hostID : string) (req : HostRemoveRequest) (g : go_config) (raw : raw_object) :
    result string (go_config * raw_object * (bool * bool * option raw_object)) :=
  let '(g, removedStatic) := removeHostFromStaticPeers g hostID in
  '(g, raw, (removedSSH, status)) ← removeHostFromSSHPeers g raw hostID req;
  if negb removedStatic && negb removedSSH then Err "host_not_found"
  else
    c ← NormalizeLocalSSHPaths homeDir (gc_config g);
    Ok (with_config g c, raw, (removedStatic, removedSSH, status)).

Context (uid : Z) (pid counter : N) (render : raw_object → string).

Definition updateRemoveHostConfigRaw (path : string) (gateEnabled : bool) (expected : RevisionExpectation) (hostID : string) (req : HostRemoveRequest) :
    io (bool * bool * option raw_object * Z) :=
  if negb gateEnabled then fail (Code ErrConfigV2WritesDisabled)
  else update_document homeDir uid pid counter render false path expected (ConfigFile.peer_change (remove_change hostID req)).

Definition removeHostWithGate (path : string) (gateEnabled : bool) (hostID : string) (req : HostRemoveRequest) : io HostRemoveResult :=
  _ ← pure (ValidateHostRemoveTarget hostID);
  _ ← pure (validateHostRemoveRequest req);
  '(removedStatic, removedSSH, status, _) ←
    updateRemoveHostConfigRaw path gateEnabled (MkExpectation (hm_ExpectedRevisionState req) (hm_ExpectedConfigRevision req)) hostID req;
  doc ← readConfigDocumentLocked homeDir uid path;
  ok (MkHostRemoved hostID removedStatic removedSSH (doc_ConfigRevision doc) (doc_RevisionState doc) (ConfigVersion (gc_config (doc_Config doc))) status).
End change.

(** ** Examples *)

Example hosts_match :
  (λ a, hostRemoveHostsMatch a "Alpha.local.") <$> ["alpha"; "ALPHA.local"; "alpha."; " alpha "; "alpha.lan"; ""] = [true; true; true; true; false; false] ∧
  (λ a, hostRemoveHostsMatch a "FE80::1") <$> ["fe80:0:0::1"; "fe80::2"] = [true; false].
Proof. split; vm_compute; reflexivity. Qed.

(** ** Lemmas *)

(** The raw peers that stay. *)
Definition kept_peers (hostID : string) (peers : list raw_object) : list raw_object :=
  filter (λ p, match rawPeerID p with Ok pid => hostRemoveHostsMatch pid hostID | Err _ => false end = false) peers.

Lemma matching_ids_match hostID peers ids : matching_ids peers hostID = Ok ids → Forall (λ pid, hostRemoveHostsMatch pid hostID = true) ids.
Proof.
  revert ids. induction peers as [|p peers IH]; intros ids; cbn [matching_ids]; [by intros [= <-]; constructor|]. intros (pid & _ & H)%bind_Ok. apply bind_Ok in H as (rest & Hr & [= <-]).
  destruct (hostRemoveHostsMatch pid hostID) eqn:Hm; [constructor; [done|]|]; by apply IH.
Qed.

Lemma kept_nothing hostID peers : matching_ids peers hostID = Ok [] → kept_peers hostID peers = peers.
Proof.
  induction peers as [|p peers IH]; cbn [matching_ids]; [done|]. intros (pid & Hp & H)%bind_Ok. apply bind_Ok in H as (rest & Hr & H).
  destruct (hostRemoveHostsMatch pid hostID) eqn:Hm; [discriminate H|]. injection H as ->. unfold kept_peers. rewrite filter_cons_True by by rewrite Hp. f_equal. by apply IH.
Qed.

(** The first peer with the first of the ids is the first that matches. *)
Lemma find_matching hostID peers pid ids i peer :
  matching_ids peers hostID = Ok (pid :: ids) → findRawPeerForUpdate peers pid = Ok (Some (i, peer)) →
  matching_ids (delete i peers) hostID = Ok ids ∧ kept_peers hostID (delete i peers) = kept_peers hostID peers.
Proof.
  revert i. induction peers as [|p peers IH]; intros i; [done|]. cbn [matching_ids findRawPeerForUpdate]. intros (pid0 & Hp & H)%bind_Ok. rewrite Hp. cbn [mbind result_bind].
  apply bind_Ok in H as (rest & Hrest & [= H]). destruct (hostRemoveHostsMatch pid0 hostID) eqn:Hm.
  - injection H as -> ->. rewrite bool_decide_eq_true_2 by done. intros [= <- <-]. split; [done|]. unfold kept_peers. rewrite (filter_cons_False _ p); [done|]. by rewrite Hp, Hm.
  - subst rest. rewrite bool_decide_eq_false_2.
    2: { intros ->. pose proof (matching_ids_match _ _ _ Hrest) as [Hpid _]%Forall_cons. by rewrite Hpid in Hm. }
    intros (found & Hf & H)%bind_Ok. destruct found as [[j q]|]; [|discriminate H]. injection H as <- <-. destruct (IH j Hrest Hf) as [H1 H2].
    change (delete (S j) (p :: peers)) with (p :: delete j peers). split.
    + cbn [matching_ids]. rewrite Hp. cbn [mbind result_bind]. rewrite H1. cbn [mbind result_bind]. by rewrite Hm.
    + unfold kept_peers in *. rewrite !filter_cons_True by by rewrite Hp. by rewrite H2.
Qed.

(** One deletion. *)
Lemma delete_first now pid req g raw g' raw' shown s peers :
  applySSHPeerDelete now pid req g raw = Ok (g', raw', shown) → rawSSHPeers raw = Ok (s, peers) →
  ∃ i peer s' state, findRawPeerForUpdate peers pid = Ok (Some (i, peer)) ∧ rebuilt g raw s' (delete i peers) g' raw' ∧
    ∀ audit, kept_list s "audit_log" = Some audit → kept_list s' "audit_log" = Some (audit ++ [json_object (sshPeerDeleteAuditEntry pid state req now)]).
Proof.
  unfold applySSHPeerDelete. intros ([[[s0 ps] i] peer] & Hloc & H)%bind_Ok Hr. unfold located in Hloc. rewrite Hr in Hloc. cbn [mbind result_bind] in Hloc.
  apply bind_Ok in Hloc as (found & Hf & Hloc). destruct found as [[j q]|]; [|discriminate Hloc]. injection Hloc as <- <- <- <-.
  apply bind_Ok in H as (state & Hst & H). destruct (negb _); [discriminate|]. apply bind_Ok in H as (s1 & (audit & Ha & Ha' & Hk)%kept_append & H).
  apply bind_Ok in H as ([status remediation] & _ & H). apply bind_Ok in H as (s2 & Hrem & H). apply bind_Ok in H as ([g1 raw1] & Hreb%rebuild_rebuilt & [= <- <- <-]).
  exists j, q, s2, state. split; [done|]. split; [done|]. intros audit' Ha2. rewrite Ha in Ha2. injection Ha2 as <-. rewrite <- Ha'.
  destruct remediation as [record|]; [|by injection Hrem as <-]. apply kept_append in Hrem as (_ & _ & _ & Hk'). apply kept_frame. by apply Hk'.
Qed.

(** The scalars and the static peers of the typed copy. *)
Definition same_but_ssh (g g' : go_config) : Prop := gc_static g' = gc_static g ∧ ∃ ssh nonnil, g' = with_ssh g ssh nonnil.

Lemma with_peers_same g typed : same_but_ssh g (with_peers g typed).
Proof. split; [done|]. by do 2 eexists. Qed.

Lemma same_but_ssh_trans g1 g2 g3 : same_but_ssh g1 g2 → same_but_ssh g2 g3 → same_but_ssh g1 g3.
Proof. intros [H1 (s & b & ->)] [H2 (s' & b' & ->)]. split; [done|]. by do 2 eexists. Qed.

Section deletions.
Context (now : nat → string) (hostID : string) (req : HostRemoveRequest).

Definition is_audit_entry (pid : string) (entry : json) : Prop :=
  ∃ state t, entry = json_object (sshPeerDeleteAuditEntry pid state (MkDelete (hm_ExpectedConfigRevision req) (hm_Reason req) (hm_LogID req)) t).

Lemma delete_each_Ok n ids g raw status g' raw' status' s peers :
  delete_each now n ids req g raw status = Ok (g', raw', status') → rawSSHPeers raw = Ok (s, peers) → matching_ids peers hostID = Ok ids →
  ∃ s', rawSSHPeers raw' = Ok (s', kept_peers hostID peers) ∧ (∀ k, k ≠ "ssh" → raw' !! k = raw !! k) ∧
    (g' = g ∧ raw' = raw ∨ same_but_ssh g g' ∧ is_Some (SSH (gc_config g')) ∧ is_Some (raw' !! "ssh")) ∧
    ∀ audit, kept_list s "audit_log" = Some audit → ∃ entries, kept_list s' "audit_log" = Some (audit ++ entries) ∧ Forall2 is_audit_entry ids entries.
Proof.
  revert n g raw status s peers. induction ids as [|pid ids IH]; intros n g raw status s peers; cbn [delete_each].
  - intros [= <- <- <-] Hr Hm. exists s. split; [by rewrite kept_nothing|]. split; [done|]. split; [by left|]. intros audit Ha. exists []. by rewrite app_nil_r.
  - intros ([[g1 raw1] shown] & Hd & H)%bind_Ok Hr Hm. destruct (delete_first _ _ _ _ _ _ _ _ _ _ Hd Hr) as (i & peer & s1 & state & Hf & (Hr1 & Hssh & Hk & typed & _ & ->) & Ha).
    destruct (find_matching _ _ _ _ _ _ Hm Hf) as [Hm1 Hkept]. destruct (IH _ _ _ _ _ _ H Hr1 Hm1) as (s' & Hr' & Hk' & Hcase & Ha'). exists s'.
    split; [by rewrite Hr', Hkept|]. split; [intros k Hne; by rewrite Hk', Hk|]. split.
    + right. destruct Hcase as [[-> ->]|(Hs & ? & ?)]; [split; [apply with_peers_same|split; [by eexists|by rewrite Hssh]]|].
      split; [eapply same_but_ssh_trans; [apply with_peers_same|exact Hs]|done].
    + intros audit Haudit. destruct (Ha' (audit ++ [json_object (sshPeerDeleteAuditEntry pid state (MkDelete (hm_ExpectedConfigRevision req) (hm_Reason req) (hm_LogID req)) (now n))]))
        as (entries & He & Hall).
      { rewrite <- (Ha audit Haudit). apply kept_frame. by rewrite lookup_insert_ne. }
      rewrite <- app_assoc in He. eexists. split; [exact He|]. constructor; [by do 2 eexists|done].
Qed.
End deletions.

Definition scalar_and_version_keys : list string := scalar_keys ++ version_keys.

Lemma removed_static g hostID : (removeHostFromStaticPeers g hostID).2 = negb (bool_decide (filter (λ peer, hostRemoveHostsMatch peer hostID = false) (StaticPeers (gc_config g)) = StaticPeers (gc_config g))).
Proof.
  cbn. induction (StaticPeers (gc_config g)) as [|p l IH]; [done|]. cbn [existsb]. destruct (hostRemoveHostsMatch p hostID) eqn:Hm.
  - rewrite filter_cons_False by by rewrite Hm. rewrite bool_decide_eq_false_2; [done|]. intros H. apply (f_equal length) in H. cbn in H.
    pose proof (length_filter (λ peer, hostRemoveHostsMatch peer hostID = false) l). lia.
  - rewrite filter_cons_True by done. rewrite IH. cbn. f_equal. apply bool_decide_ext. split; [by intros ->|by intros [= ->]].
Qed.

Lemma normalize_none homeDir c c' : NormalizeLocalSSHPaths homeDir c = Ok c' → SSH c = None → SSH c' = None.
Proof. unfold NormalizeLocalSSHPaths. intros H Hs. rewrite Hs in H. by injection H as <-. Qed.


Lemma static_none hostID peers : existsb (λ peer, hostRemoveHostsMatch peer hostID) peers = false → filter (λ peer, hostRemoveHostsMatch peer hostID = false) peers = peers.
Proof.
  induction peers as [|p peers IH]; [done|]. cbn [existsb]. intros [Hp Hps]%orb_false_iff. rewrite filter_cons_True by done. f_equal. by apply IH.
Qed.

Lemma unknown_host homeDir now hostID req g raw s peers :
  rawSSHPeers raw = Ok (s, peers) → matching_ids peers hostID = Ok [] → existsb (λ peer, hostRemoveHostsMatch peer hostID) (StaticPeers (gc_config g)) = false →
  remove_change homeDir now hostID req g raw = Err "host_not_found".
Proof.
  intros Hr Hm Hst. unfold remove_change, removeHostFromStaticPeers. rewrite Hst. unfold removeHostFromSSHPeers. rewrite Hr. cbn [mbind result_bind]. rewrite Hm. done.
Qed.

(** Removing a host that is not there.  When no static peer and no SSH peer of the
    configuration matches the host, [removeHostWithGate] fails, and the configuration file
    holds at every point what it held, whatever calls fail. *)
Theorem remove_host_unknown homeDir now uid pid counter render resolve keygen path s0 gate hostID req faults data doc s peers
    (Hpath : rooted_path path) (Hwf : fs_wf s0) (Hf : ∀ n, may false (faults n))
    (Hdata : visible s0 path = Some data) (Hdoc : parseConfigDocument homeDir data = Ok doc) (Hpeers : rawSSHPeers (doc_raw doc) = Ok (s, peers))
    (Hssh : matching_ids peers hostID = Ok [])
    (Hstatic : existsb (λ peer, hostRemoveHostsMatch peer hostID) (StaticPeers (gc_config (doc_Config doc))) = false) :
  let '(states, (r, _, s')) := exec uid resolve keygen (λ _ s, s) faults 0 s0 (removeHostWithGate homeDir now uid pid counter render path gate hostID req) in
  is_ok r = false ∧ Forall (λ s, visible s path = Some data) (states ++ [s']).
Proof.
  set (expected := MkExpectation (hm_ExpectedRevisionState req) (hm_ExpectedConfigRevision req)).
  assert (Hspec : ∃ e, peer_spec homeDir render gate expected (remove_change homeDir now hostID req) data = Err e).
  { unfold peer_spec, ConfigDoc.withSSHPeerConfigUpdate. destruct gate; cbn [negb]; [|by eexists]. rewrite Hdoc. cbn [mbind result_bind].
    destruct (validateRevisionExpectation doc expected) as [[]|]; cbn [mbind result_bind]; [|by eexists]. rewrite (unknown_host homeDir now hostID req (clone_config (doc_Config doc)) _ _ _ Hpeers Hssh Hstatic). by eexists. }
  destruct Hspec as [e Hspec]. assert (Hnone : ∀ d, ¬ to_write (peer_spec homeDir render gate expected (remove_change homeDir now hostID req) (default "" (visible s0 path))) d).
  { intros d [a Ha]. rewrite Hdata in Ha. change (default "" (Some data)) with data in Ha. by rewrite Hspec in Ha. }
  assert (H : wp uid resolve keygen (may false) eq (λ s, visible s path = Some data) (removeHostWithGate homeDir now uid pid counter render path gate hostID req)
    (λ r s, is_ok r = false ∧ visible s path = Some data) s0).
  { unfold removeHostWithGate. destruct (ValidateHostRemoveTarget hostID); [|done]. destruct (validateHostRemoveRequest req); [|done].
    apply wp_bind_io. cbn [pure wp ok]. apply wp_bind_io. cbn [pure wp ok]. apply wp_bind_io. eapply wp_mono; [|eapply wp_weaken; [| |apply (peer_update_wp homeDir uid pid counter render resolve keygen path false s0 None gate expected (remove_change homeDir now hostID req)); [done..|discriminate]]].
    - intros [x|e'] s1 [_ Hp]; cbv beta iota in Hp |- *.
      + destruct Hp as (o & Ho & _). rewrite Hdata in Ho. change (default "" (Some data)) with data in Ho. by rewrite Hspec in Ho.
      + split; [done|]. destruct Hp as [->|(d & Hd & _)]; [done|by apply Hnone in Hd].
    - done.
    - intros s1 [[->|(d & Hd & _)] _]; [done|by apply Hnone in Hd]. }
  apply (wp_sound uid resolve keygen (may false) eq _ _ _ (λ _ s, s) faults 0) in H; [|done..].
  destruct (exec _ _ _ _ _ _ _ _) as [states [[r n'] s']]. destruct H as (H1 & H2 & H3). split; [done|]. apply Forall_app. by repeat constructor.
Qed.

(** ** Witnesses *)

Module RemoveSamples.
Definition text : string :=
  print (json_object (raw_of [("config_version", json_int 2); ("config_revision", json_int 7); ("hostname", VString "alpha");
    ("static_peers", VArray [VString "gamma"; VString "Beta.local"]); ("ssh", VObject (sample_peers [sample_peer]))])).

Definition request : HostRemoveRequest := MkHostRemove RevisionStateVersioned (Some 7%Z) "host_gone" "log-1".

Definition expected : RevisionExpectation := MkExpectation RevisionStateVersioned (Some 7%Z).

Definition now (n : nat) : string := "2024-01-02T03:04:05Z".

Definition removed : result string (raw_object * (bool * bool * option raw_object) * Z) :=
  ConfigDoc.withSSHPeerConfigUpdate None true text expected (remove_change None now "BETA" request).

Definition what_was {A} (r : result string (A * (bool * bool * option raw_object) * Z)) : option (bool * bool) :=
  match r with Ok (_, (static, ssh, _), _) => Some (static, ssh) | Err _ => None end.

Lemma both_removed : what_was removed = Some (true, true).
Proof. vm_compute. reflexivity. Qed.

Definition doc : configDocument := match parseConfigDocument None text with Ok d => d | Err _ => MkDocument (MkGoConfig (MkConfig None None "" "" "" [] "" "" None 0 0) false false) "" None ∅ end.

Lemma removal_parsed : parseConfigDocument None text = Ok doc.
Proof. vm_compute. reflexivity. Qed.

Definition ssh_section : raw_object * list raw_object := match rawSSHPeers (doc_raw doc) with Ok x => x | Err _ => (∅, []) end.

Lemma section_read : rawSSHPeers (doc_raw doc) = Ok (ssh_section.1, ssh_section.2).
Proof. vm_compute. reflexivity. Qed.
End RemoveSamples.


Lemma remove_host_unknown_witness :
  let out := exec 501 Samples.no_links Samples.no_keygen Samples.alone Samples.fine 0 (Samples.home_with RemoveSamples.text)
    (removeHostWithGate None RemoveSamples.now 501 7 1 ConfigSamples.render Samples.path true "delta" RemoveSamples.request) in
  Samples.answer out = Err (Code "host_not_found") ∧ visible (Samples.last_state out) Samples.path = Some RemoveSamples.text.
Proof.
  cbv zeta. split; [vm_compute; reflexivity|].
  assert (Hv : visible (Samples.home_with RemoveSamples.text) Samples.path = Some RemoveSamples.text) by reflexivity.
  assert (Hs : matching_ids RemoveSamples.ssh_section.2 "delta" = Ok []) by (vm_compute; reflexivity).
  assert (Hp : existsb (λ peer, hostRemoveHostsMatch peer "delta") (StaticPeers (gc_config (doc_Config RemoveSamples.doc))) = false) by (vm_compute; reflexivity).
  pose proof (remove_host_unknown None RemoveSamples.now 501 7 1 ConfigSamples.render Samples.no_links Samples.no_keygen Samples.path (Samples.home_with RemoveSamples.text) true "delta"
    RemoveSamples.request Samples.fine RemoveSamples.text RemoveSamples.doc _ _ ConfigSamples.path_rooted (Samples.home_wf _) (fine_may false) Hv RemoveSamples.removal_parsed
    RemoveSamples.section_read Hs Hp) as H.
  change (λ (_ : nat) (s : fs), s) with Samples.alone in H.
  destruct (exec 501 Samples.no_links Samples.no_keygen Samples.alone Samples.fine 0 (Samples.home_with RemoveSamples.text)
    (removeHostWithGate None RemoveSamples.now 501 7 1 ConfigSamples.render Samples.path true "delta" RemoveSamples.request)) as [states [[r n'] s']].
  destruct H as [_ H]. apply Forall_app in H as [_ H]. by apply Forall_cons in H as [H _].
Defined.
