(* ===== verification/ListenerRepair.v ===== *)
(** * Repairing the listener: config/listener_repair.go

    A daemon in safe mode is given a loopback listener again by an update that states the
    listener the plan of [Listener] would repair it to.  A configuration that has no
    revision yet is promoted, and then only the members a repair knows are kept. *)
From S2P Require Import Prelude GoStrings Utf8 NetIP Paths Hostnames Config Listener Json RawJson SSHConfig KnownHosts AuthorizedKeys ConfigDoc PeerRequests Files SafeFile FileUpdate ConfigFile.
From Stdlib Require Import Ascii String.
From stdpp Require Import strings gmap.

#[local] Arguments String.append !_ _ / : simpl nomatch.

Record ListenerRepairStatus := MkRepairStatus {
  ls_Listen : string;
  ls_Port : Z;
  ls_PreviousListen : option string;
  ls_ConfiguredListen : string;
  ls_EffectiveRepairListen : string;
  ls_ParseError : string;
  ls_SafeMode : bool;
  ls_ConfigVersion : option Z;
  ls_ConfigRevision : option Z;
  ls_RevisionState : string;
}.

Record ListenerRepairRequest := MkRepair {
  lr_ExpectedConfigRevision : option Z;
  lr_ExpectedRevisionState : string;
  lr_Listen : string;
  lr_Port : Z;
  lr_PreviousListen : option string;
}.

(** ** The request *)

Definition revisionExpectation (r : ListenerRepairRequest) : result string RevisionExpectation :=
  let expected := MkExpectation (lr_ExpectedRevisionState r) (lr_ExpectedConfigRevision r) in
  if bool_decide (lr_ExpectedRevisionState r ∈ [RevisionStatePreV2; RevisionStateMissingRevision]) then
    match lr_ExpectedConfigRevision r with Some _ => Err ErrConfigRevisionConflict | None => Ok expected end
  else if bool_decide (lr_ExpectedRevisionState r = RevisionStateVersioned) then
    if (default 0%Z (lr_ExpectedConfigRevision r) =? 0)%Z then Err ErrConfigRevisionConflict else Ok expected
  else Err ErrConfigRevisionConflict.

(** null leaves the empty string. *)
Definition decodeRequiredString (raw : raw_object) (field : string) : result string string :=
  match raw !! field with
  | None => Err "missing_listener_repair_field"
  | Some value => match unmarshal_string value with Some s => Ok s | None => Err "invalid_listener_repair_field" end
  end.

Definition decodeOptionalString (raw : raw_object) (field : string) : result string (option string) :=
  match raw !! field with
  | None | Some VNull => Ok None
  | Some (VString s) => Ok (Some s)
  | Some _ => Err "invalid_listener_repair_field"
  end.

Definition decodeRequiredPort (raw : raw_object) (field : string) : result string Z :=
  match raw !! field with
  | None => Err "missing_listener_repair_field"
  | Some value =>
      port ← parseJSONUint value "invalid_listener_repair_port";
      if (port =? 0)%Z || (65535 <? port)%Z then Err "invalid_listener_repair_port" else Ok port
  end.

Definition decodeOptionalRevision (raw : raw_object) (field : string) : result string (option Z) :=
  match raw !! field with
  | None | Some VNull => Ok None
  | Some value =>
      revision ← parseJSONUint value "invalid_expected_config_revision";
      if (revision =? 0)%Z then Err "invalid_expected_config_revision" else Ok (Some revision)
  end.

Definition listener_repair_fields : gset string := {["expected_config_revision"; "expected_revision_state"; "listen"; "port"; "previous_listen"]}.

(** [rejectTrailingJSON] is that the body is one value. *)
Definition DecodeListenerRepairRequest (body : string) : result string ListenerRepairRequest :=
  match parse body ≫= unmarshal_object with
  | Some (Some raw) =>
      if negb (bool_decide (dom raw ⊆ listener_repair_fields)) then Err "listener_repair_field_not_allowed"
      else
        state ← decodeRequiredString raw "expected_revision_state";
        listen ← decodeRequiredString raw "listen";
        port ← decodeRequiredPort raw "port";
        if negb (hasRaw raw "expected_config_revision") then Err "missing_listener_repair_field"
        else
          revision ← decodeOptionalRevision raw "expected_config_revision";
          previous ← decodeOptionalString raw "previous_listen";
          let req := MkRepair revision state listen port previous in
          _ ← revisionExpectation req;
          Ok req
  | _ => Err "malformed_listener_repair_request"
  end.

(** ** The status *)

Definition previousListenFromRaw (raw : raw_object) : result string (option string) :=
  match raw !! "previous_listen" with
  | None | Some VNull => Ok None
  | Some (VString s) => Ok (Some s)
  | Some _ => Err "invalid_previous_listen"
  end.

Definition listenerRepairStatusFromDocument (doc : configDocument) : result string ListenerRepairStatus :=
  let c := gc_config (doc_Config doc) in
  let plan := PlanListener c true in
  previous ← previousListenFromRaw (doc_raw doc);
  Ok (MkRepairStatus (Listen c) (Port c) previous (ConfiguredListen plan) (EffectiveRepairListen plan) (ParseError plan) (SafeMode plan)
    (ConfigVersion c) (ConfigRevision c) (doc_RevisionState doc)).

(** ** The repair *)

Definition promotion_fields : list string :=
  ["config_version"; "config_revision"; "listen"; "port"; "previous_listen"; "shared_key"; "discovery"; "static_peers"; "hostname"; "max_history"].

Definition listenerRepairPromotionFieldAllowed (key : string) : bool := bool_decide (key ∈ promotion_fields).

Definition pruneRawForListenerRepairPromotion (raw : raw_object) : raw_object := filter (λ kv, listenerRepairPromotionFieldAllowed kv.1 = true) raw.

(** The configuration with the listener repaired; a promotion takes it off SSH. *)
Definition repaired (g : go_config) (promoted : bool) (listen : string) (port : Z) : go_config :=
  let c := gc_config g in
  MkGoConfig (MkConfig (ConfigVersion c) (ConfigRevision c) listen (SharedKey c) (Discovery c) (StaticPeers c) (Hostname c)
    (if promoted then "" else Transport c) (if promoted then None else SSH c) port (MaxHistory c)) (gc_static g) (if promoted then false else gc_peers g).

Definition repair_change (req : ListenerRepairRequest) (expected : RevisionExpectation) (g : go_config) (raw : raw_object) : result string (go_config * raw_object) :=
  let plan := PlanListener (gc_config g) true in
  if negb (SafeMode plan) then Err "listener_repair_not_required"
  else if negb (bool_decide (lr_Listen req = EffectiveRepairListen plan)) then Err "invalid_listener_repair_request"
  else if negb (bool_decide (lr_Listen req = DefaultListen true (lr_Port req))) then Err "invalid_listener_repair_request"
  else
    previous ←
      (match lr_PreviousListen req with
       | Some p => if negb (bool_decide (p = ConfiguredListen plan)) then Err "invalid_listener_repair_request" else Ok p
       | None => Ok (ConfiguredListen plan)
       end);
    if bool_decide (previous = "") then Err "invalid_listener_repair_request"
    else
      let promoted := negb (bool_decide (ex_State expected = RevisionStateVersioned)) in
      let raw := if promoted then pruneRawForListenerRepairPromotion raw else raw in
      Ok (repaired g promoted (EffectiveRepairListen plan) (lr_Port req), <["previous_listen" := json_string previous]> raw).

Section ops.
Context (homeDir : option string) (uid : Z) (pid counter : N) (render : raw_object → string).

Definition ReadListenerRepairStatus (path : string) : io ListenerRepairStatus :=
  doc ← readConfigDocumentLocked homeDir uid path; pure (listenerRepairStatusFromDocument doc).

Definition repairListenerWithBackupAndGate (path : string) (gateEnabled : bool) (req : ListenerRepairRequest) (backupPath : string) : io ListenerRepairStatus :=
  expected ← pure (revisionExpectation req);
  _ ← updateConfigV2ScopedRawWithBackup homeDir uid pid counter render path gateEnabled expected backupPath (λ g raw, pure (repair_change req expected g raw));
  ReadListenerRepairStatus path.

Definition repairListenerWithGate (path : string) (gateEnabled : bool) (req : ListenerRepairRequest) : io ListenerRepairStatus :=
  repairListenerWithBackupAndGate path gateEnabled req "".
End ops.

(** ** Examples *)

Example repair_decoding :
  DecodeListenerRepairRequest (print (json_object (raw_of [("expected_revision_state", VString RevisionStatePreV2); ("listen", VString "127.0.0.1:80"); ("port", VNumber "80");
    ("expected_config_revision", VNull)]))) = Ok (MkRepair None RevisionStatePreV2 "127.0.0.1:80" 80 None) ∧
  DecodeListenerRepairRequest (print (json_object (raw_of [("expected_revision_state", VString RevisionStatePreV2); ("listen", VString "127.0.0.1:80"); ("port", VNumber "80")]))) =
    Err "missing_listener_repair_field".
Proof. split; vm_compute; reflexivity. Qed.

(** ** Lemmas *)

Lemma prune_lookup raw k : pruneRawForListenerRepairPromotion raw !! k = if listenerRepairPromotionFieldAllowed k then raw !! k else None.
Proof.
  unfold pruneRawForListenerRepairPromotion. destruct (listenerRepairPromotionFieldAllowed k) eqn:E.
  - destruct (raw !! k) as [v|] eqn:Hv; [apply map_lookup_filter_Some; by split|]. apply map_lookup_filter_None. by left.
  - apply map_lookup_filter_None. right. intros v _. cbn. by rewrite E.
Qed.

(** The paths of a versioned document were expanded when it was parsed. *)
Lemma versioned_normal homeDir data doc :
  parseConfigDocument homeDir data = Ok doc → doc_RevisionState doc = RevisionStateVersioned →
  NormalizeLocalSSHPaths homeDir (gc_config (doc_Config doc)) = Ok (gc_config (doc_Config doc)).
Proof.
  intros (v & _ & _ & H & _)%parseConfigDocument_Ok Hst. revert H. generalize (doc_raw doc). intros raw H. unfold document_of_raw in H.
  destruct (raw !! "config_version") as [versionRaw|].
  2: { apply bind_Ok in H as (g & _ & [= <-]). discriminate Hst. }
  apply bind_Ok in H as (version & _ & H). destruct (negb _); [discriminate|]. apply bind_Ok in H as (g & _ & H). apply bind_Ok in H as (c & _ & H).
  apply bind_Ok in H as ([] & Hval & H). pose proof (validated_normal homeDir _ Hval) as (_ & Hf)%NormalizeLocalSSHPaths_frame.
  assert (Hdone : ∀ v r, NormalizeLocalSSHPaths homeDir (gc_config (with_version (with_config g c) v r)) = Ok (gc_config (with_version (with_config g c) v r))).
  { intros v' r'. rewrite Hf by done. done. }
  assert (Hrev : ∀ x, (revision ← parseJSONUint x "invalid_config_revision";
      if (revision =? 0)%Z then Err "invalid_config_revision"
      else Ok (MkDocument (with_version (with_config g c) (Some 2%Z) (Some revision)) RevisionStateVersioned (Some revision) raw)) = Ok doc →
    NormalizeLocalSSHPaths homeDir (gc_config (doc_Config doc)) = Ok (gc_config (doc_Config doc))).
  { intros x (r & _ & Hx)%bind_Ok. destruct (r =? 0)%Z; [discriminate|]. injection Hx as <-. apply Hdone. }
  destruct (raw !! "config_revision") as [[]|]; try exact (Hrev _ H); injection H as <-; discriminate Hst.
Qed.

Lemma repair_Ok req expected g raw g' raw' :
  repair_change req expected g raw = Ok (g', raw') →
  let plan := PlanListener (gc_config g) true in
  let promoted := negb (bool_decide (ex_State expected = RevisionStateVersioned)) in
  SafeMode plan = true ∧ lr_Listen req = DefaultListen true (lr_Port req) ∧ g' = repaired g promoted (lr_Listen req) (lr_Port req) ∧
  raw' = <["previous_listen" := json_string (ConfiguredListen plan)]> (if promoted then pruneRawForListenerRepairPromotion raw else raw).
Proof.
  unfold repair_change. cbv zeta. destruct (SafeMode _); [|discriminate]. cbn [negb]. destruct (bool_decide_reflect (lr_Listen req = EffectiveRepairListen (PlanListener (gc_config g) true))) as [He|]; [|discriminate].
  cbn [negb]. destruct (bool_decide_reflect (lr_Listen req = DefaultListen true (lr_Port req))) as [Hd|]; [|discriminate]. cbn [negb]. intros (previous & Hp & H)%bind_Ok.
  assert (previous = ConfiguredListen (PlanListener (gc_config g) true)) as ->.
  { destruct (lr_PreviousListen req) as [p|]; [|by injection Hp as <-]. destruct (bool_decide_reflect (p = ConfiguredListen (PlanListener (gc_config g) true))); [|discriminate Hp]. by injection Hp as <-. }
  destruct (bool_decide _) in H; [discriminate|]. injection H as <- <-. by rewrite <- He.
Qed.

Lemma configured_text c : text_ok (Listen c) → SafeMode (PlanListener c true) = true → text_ok (ConfiguredListen (PlanListener c true)).
Proof.
  intros Ht Hs. assert (Hc : ConfiguredListen (PlanListener c true) = if bool_decide (Listen c = "") then DefaultListen true (Port c) else Listen c).
  { unfold PlanListener. cbn [negb]. destruct (isLegacyGeneratedListen _); [done|]. destruct (splitListenHostPort _) as [[]|]; [by destruct (isLoopbackHost _)|by destruct (validPort _)]. }
  rewrite Hc. destruct (bool_decide _); [|done]. apply ascii_json_text. unfold DefaultListen. cbn [negb]. rewrite !forall_bytes_app.
  rewrite (forall_bytes_impl num_byte _ (format_int _)); [done| |apply format_int_bytes].
  all_bytes.
Qed.

Lemma repaired_ok g promoted port :
  validPort port = true → config_ok (gc_config g) → config_ok (gc_config (repaired g promoted (loopback_listen port) port)).
Proof.
  intros Hport%validPort_spec [(Ht & Hp & Hm) Hs]. rewrite !Forall_app, !Forall_cons in Ht. destruct Ht as [(_ & ? & ? & ? & ? & _) Hsp].
  split; [|by destruct promoted]. split; [|split; [unfold int_ok, max_int64; cbn; lia|done]]. apply Forall_app. split; [|done]. cbn [repaired gc_config Listen SharedKey Discovery Hostname Transport].
  repeat apply Forall_cons_2; try done; [|by destruct promoted]. apply ascii_json_text. unfold loopback_listen. rewrite !forall_bytes_app.
  rewrite (forall_bytes_impl num_byte _ (format_int _)); [done|all_bytes|apply format_int_bytes].
Qed.

Lemma previous_not_typed name : name ∈ typed_keys → EqualFold "previous_listen" name = false.
Proof.
  intros Hn. assert (H : forallb (λ a, negb (EqualFold "previous_listen" a)) typed_keys = true) by (vm_compute; reflexivity). rewrite forallb_forall in H.
  specialize (H name (proj1 (list_elem_of_In _ _) Hn)). by apply negb_true_iff in H.
Qed.

(** C27. A repaired listener starts.  When a repair, as the decoder accepts it, succeeds on a
    configuration in safe mode, then what is read from any text that spells the object
    written is the configuration with the listener on the loopback address and the port
    asked for, at the next revision; its plan is out of safe mode and binds that address;
    the status says which listener there was; and everything else is as it was, but that
    a promotion takes the configuration off SSH and keeps only the members a repair
    knows. *)
Theorem listener_repaired homeDir gate data req expected doc out data'
    (Hreq : revisionExpectation req = Ok expected) (Hport : validPort (lr_Port req) = true) (Hdoc : parseConfigDocument homeDir data = Ok doc)
    (Hplain : plain (doc_raw doc)) (Hok : config_ok (gc_config (doc_Config doc)))
    (Hout : updateConfigV2Scoped homeDir gate data expected (repair_change req expected) = Ok out) (Hdata' : parse data' = Some (json_object out)) :
  let promoted := negb (bool_decide (doc_RevisionState doc = RevisionStateVersioned)) in
  SafeMode (PlanListener (gc_config (doc_Config doc)) true) = true ∧
  ∃ doc' next status, parseConfigDocument homeDir data' = Ok doc' ∧ next = (default 0 (doc_ConfigRevision doc) + 1)%Z ∧ doc_ConfigRevision doc' = Some next ∧
    gc_config (doc_Config doc') = at_revision (gc_config (repaired (doc_Config doc) promoted (loopback_listen (lr_Port req)) (lr_Port req))) next ∧
    PlanListener (gc_config (doc_Config doc')) true = MkListenerPlan (loopback_listen (lr_Port req)) (loopback_listen (lr_Port req)) "" "" false true ∧
    listenerRepairStatusFromDocument doc' = Ok status ∧ ls_SafeMode status = false ∧
    ls_PreviousListen status = Some (ConfiguredListen (PlanListener (gc_config (doc_Config doc)) true)) ∧
    ∀ k, k ∉ "previous_listen" :: typed_keys → doc_raw doc' !! k = if promoted && negb (listenerRepairPromotionFieldAllowed k) then None else doc_raw doc !! k.
Proof.
  apply updateConfigV2Scoped_Ok in Hout as (_ & doc0 & g & raw & c & next & Hd0 & Hexp & Hm & Hc & Hval & Hn & Hout). rewrite Hdoc in Hd0. injection Hd0 as <-.
  destruct (repair_Ok _ _ _ _ _ _ Hm) as (Hsafe & Hlisten & -> & Hraw).
  rewrite (DefaultListen_loopback (lr_Port req)) in Hlisten by (apply validPort_spec in Hport; lia). rewrite Hlisten in *.
  assert (Hstate : ex_State expected = doc_RevisionState doc).
  { unfold validateRevisionExpectation in Hexp. destruct (bool_decide_reflect (doc_RevisionState doc = ex_State expected)); [done|discriminate]. }
  rewrite Hstate in *. set (promoted := negb (bool_decide (doc_RevisionState doc = RevisionStateVersioned))) in *.
  assert (Hceq : c = gc_config (repaired (doc_Config doc) promoted (loopback_listen (lr_Port req)) (lr_Port req))).
  { destruct promoted eqn:Hpr; [by injection Hc as <-|]. unfold promoted in Hpr. apply negb_false_iff, bool_decide_eq_true_1 in Hpr.
    destruct (NormalizeLocalSSHPaths_frame _ _ _ (versioned_normal _ _ _ Hdoc Hpr)) as [_ Hf]. rewrite Hf in Hc by done. by injection Hc as <-. }
  subst c. assert (Hok' : config_ok (gc_config (repaired (doc_Config doc) promoted (loopback_listen (lr_Port req)) (lr_Port req)))) by by apply repaired_ok.
  assert (Hlook : ∀ k, k ≠ "previous_listen" → raw !! k = if promoted && negb (listenerRepairPromotionFieldAllowed k) then None else doc_raw doc !! k).
  { intros k Hk. rewrite Hraw, lookup_insert_ne by done. destruct promoted; [|done]. rewrite prune_lookup. by destruct (listenerRepairPromotionFieldAllowed k). }
  assert (Hprev : raw !! "previous_listen" = Some (json_string (ConfiguredListen (PlanListener (gc_config (doc_Config doc)) true)))) by (by rewrite Hraw, lookup_insert_eq).
  assert (Hplain' : plain raw).
  { intros name Hname k Hk Hf. destruct (decide (k = "previous_listen")) as [->|Hne]; [by rewrite (previous_not_typed name Hname) in Hf|].
    rewrite Hlook in Hk by done. apply (Hplain name Hname k); [|done]. destruct (promoted && _) in Hk; [by destruct Hk|done]. }
  split; [exact Hsafe|].
  destruct (written_reads_back homeDir data doc (repaired (clone_config (doc_Config doc)) promoted (loopback_listen (lr_Port req)) (lr_Port req)) raw
    (gc_config (repaired (doc_Config doc) promoted (loopback_listen (lr_Port req)) (lr_Port req))) next out data') as (doc' & next' & Hp' & Hconf & Hvers & Hrev & ->); try done.
  { rewrite Hlook by done. destruct promoted; [right|left]; done. }
  { cbn [repaired gc_static clone_config gc_config StaticPeers]. by intros H%negb_false_iff%bool_decide_eq_true_1. }
  assert (Hout' : doc_raw doc' = out).
  { rewrite (parseConfigDocument_object _ _ _ Hdata') in Hp'. by apply document_of_raw_Ok in Hp' as [? _]. }
  assert (Hother : ∀ k, k ∉ typed_keys → doc_raw doc' !! k = raw !! k).
  { intros k Hk. rewrite Hout', Hout, marshalConfigDocument_lookup by (intros ->; by apply Hk, typed_key). cbn [doc_raw]. apply applyConfigScalars_other; intros Hin; apply Hk; unfold typed_keys; set_solver. }
  assert (Hplan : PlanListener (gc_config (doc_Config doc')) true = MkListenerPlan (loopback_listen (lr_Port req)) (loopback_listen (lr_Port req)) "" "" false true).
  { apply plan_loopback; [done|]. by rewrite Hconf. }
  assert (Hstatus : ∃ status, listenerRepairStatusFromDocument doc' = Ok status ∧ ls_SafeMode status = false ∧
    ls_PreviousListen status = Some (ConfiguredListen (PlanListener (gc_config (doc_Config doc)) true))).
  { unfold listenerRepairStatusFromDocument, previousListenFromRaw. cbv zeta. rewrite (Hother "previous_listen") by by apply not_key. rewrite Hprev, Hplan. cbn [json_string mbind result_bind].
    eexists. split; [reflexivity|]. split; [done|]. cbn [ls_PreviousListen]. f_equal. apply configured_text; [|done]. destruct Hok as [[Ht _] _]. by apply Forall_app in Ht as [[? _]%Forall_cons _]. }
  destruct Hstatus as (status & Hs1 & Hs2 & Hs3). exists doc'. do 2 eexists. split; [exact Hp'|]. split; [reflexivity|]. split; [exact Hrev|]. split; [exact Hconf|]. split; [exact Hplan|].
  split; [exact Hs1|]. split; [exact Hs2|]. split; [exact Hs3|]. intros k Hk. apply not_elem_of_cons in Hk as [Hk1 Hk2]. by rewrite Hother, Hlook.
Qed.

(** ** Witness *)

Module RepairSamples.
Definition text : string :=
  print (json_object (raw_of [("listen", VString "0.0.0.0:8000"); ("shared_key", VString "k"); ("port", json_int 8000); ("legacy", VBool true);
    ("transport", VString "ssh")])).

Definition request : ListenerRepairRequest := MkRepair None RevisionStatePreV2 "127.0.0.1:8000" 8000 None.

Definition expected : RevisionExpectation := MkExpectation RevisionStatePreV2 None.

Definition doc : configDocument :=
  match parseConfigDocument None text with Ok d => d | Err _ => MkDocument (MkGoConfig (MkConfig None None "" "" "" [] "" "" None 0 0) false false) "" None ∅ end.

Lemma parsed : parseConfigDocument None text = Ok doc.
Proof. vm_compute. reflexivity. Qed.

Definition out : raw_object := match updateConfigV2Scoped None true text expected (repair_change request expected) with Ok o => o | Err _ => ∅ end.

Lemma written : updateConfigV2Scoped None true text expected (repair_change request expected) = Ok out.
Proof. vm_compute. reflexivity. Qed.

Lemma spelled : parse (print (json_object out)) = Some (json_object out).
Proof. vm_compute. reflexivity. Qed.
End RepairSamples.

Lemma listener_repaired_witness :
  ∃ doc', parseConfigDocument None (print (json_object RepairSamples.out)) = Ok doc' ∧ BindListen (PlanListener (gc_config (doc_Config doc')) true) = "127.0.0.1:8000" ∧
    Transport (gc_config (doc_Config doc')) = "" ∧ doc_raw doc' !! "legacy" = None.
Proof.
  assert (Hplain : plain (doc_raw RepairSamples.doc)).
  { apply plainb_plain. vm_compute. reflexivity. }
  assert (Hok : config_ok (gc_config (doc_Config RepairSamples.doc))).
  { split; [split; [by repeat constructor|split; by vm_compute]|exact I]. }
  destruct (listener_repaired None true RepairSamples.text RepairSamples.request RepairSamples.expected RepairSamples.doc RepairSamples.out _ eq_refl eq_refl
    RepairSamples.parsed Hplain Hok RepairSamples.written RepairSamples.spelled) as (_ & doc' & next & status & Hp & Hnext & _ & Hc & Hplan & _ & _ & _ & Hk).
  exists doc'. split; [exact Hp|]. rewrite Hplan, Hc. split; [vm_compute; reflexivity|]. split; [vm_compute; reflexivity|].
  rewrite (Hk "legacy"); [vm_compute; reflexivity|]. apply not_elem_of_cons. split; [discriminate|]. by apply not_key.
Defined.
