(* ===== verification/FleetReset.v ===== *)
(** * Resetting the local fleet: config/fleet_reset.go

    A configuration whose shared key is worthless is given a new one, a listener on the
    loopback address and no peers, and the sync key is replaced with it.  The new sync
    key is staged inside the update of the configuration; it is committed when the update
    succeeded and rolled back when it did not.  [swapped] is the order in which Go ranges
    over the two directories that are looked through. *)
From S2P Require Import Prelude GoStrings Utf8 NetIP Paths Hostnames Config Listener Json RawJson Words SSHConfig KnownHosts Pairing ConfigDoc Files SafeFile FileUpdate ConfigFile SyncKey.
From Stdlib Require Import Ascii String.
From stdpp Require Import strings gmap.

#[local] Arguments String.append !_ _ / : simpl nomatch.

Definition LocalFleetResetConfirmation : string := "RESET LOCAL CLIPFAN FLEET".

Record LocalFleetResetRequest := MkReset {
  fr_Confirmation : string;
  fr_ExpectedRevisionState : string;
  fr_ExpectedConfigRevision : option Z;
}.

Record LocalFleetResetResult := MkResetResult {
  fx_HostID : string;
  fx_ConfigRevision : option Z;
  fx_RevisionState : string;
  fx_BackupPath : string;
}.

Record LocalFleetResetStatus := MkResetStatus {
  fs_HostID : string;
  fs_ConfigVersion : option Z;
  fs_ConfigRevision : option Z;
  fs_RevisionState : string;
  fs_SafeListener : bool;
  fs_SharedKeyInvalid : bool;
  fs_SSHMaterialAbsent : bool;
}.

(** ** SSH material a reset does not handle *)

Definition unsupported_in_ssh (kv : string * json) : bool :=
  match kv.2 with
  | VNull => false
  | value =>
      let key := lower_text kv.1 in
      if bool_decide (key ∈ ["sync_key"; "max_sessions"; "max_sessions_per_peer"; "log_limit_bytes"]) then false
      else if bool_decide (key = "peers") then match unmarshal_array value with Some peers => negb (bool_decide (peers = [])) | None => true end
      else if bool_decide (key = "known_hosts") then match unmarshal_string value with Some s => negb (bool_decide (s = "")) | None => true end
      else true
  end.

Definition localFleetResetSSHObjectHasUnsupportedMaterial (value : json) : bool :=
  match unmarshal_object value with Some (Some raw) => existsb unsupported_in_ssh (map_to_list raw) | _ => true end.

Definition material_fields : list string :=
  ["sync_key_path"; "sync_private_key_path"; "sync_public_key_path"; "private_key_path"; "known_hosts_path"; "authorized_keys_path"; "managed_authorized_keys";
   "authorized_keys_metadata"; "transport_current_path"].

Definition localFleetResetUnsupportedSSHMaterialField (key : string) (value : json) : bool :=
  match value with
  | VNull => false
  | _ =>
      let lower := lower_text key in
      if bool_decide (lower = "ssh") then localFleetResetSSHObjectHasUnsupportedMaterial value
      else if bool_decide (lower ∈ material_fields) then true
      else if bool_decide (lower = "transport") then match unmarshal_string value with Some t => EqualFold t "ssh" | None => true end
      else false
  end.

Definition localFleetResetConfigMaterialPaths : list string :=
  path_join "ssh" <$> ["sync_ed25519"; "sync_ed25519.pub"; "sync_ed25519.clipfan.json"; "sync_ed25519.next"; "sync_ed25519.next.pub"; "sync_ed25519.next.clipfan.json";
    "known_hosts"; "managed_authorized_keys.json"; "authorized_keys.metadata.json"].

Definition localFleetResetStateMaterialPaths : list string :=
  ["transport-current"; "transport_current"; path_join "ssh" "transport-current"; path_join "ssh" "transport_current"] ++ localFleetResetConfigMaterialPaths.

Definition localFleetResetDefaultSyncKeyPath (configDir : string) : string := path_join (path_join configDir "ssh") "sync_ed25519".

Definition localFleetResetConfiguredSyncKeyPath (c : Config) : string := match SSH c with Some ssh => SyncKey ssh | None => "" end.

Definition is_there (path : string) : io bool := catch (_ ← os (Lstat path); ok true) (λ _, ok false).

Fixpoint any_there (paths : list string) : io bool :=
  match paths with
  | [] => ok false
  | path :: paths => there ← is_there path; if there : bool then ok true else any_there paths
  end.

Definition localFleetResetSyncKeyPathForReset (c : Config) (configDir : string) : io string :=
  let path := localFleetResetConfiguredSyncKeyPath c in
  if negb (bool_decide (path = "")) then ok path
  else
    there ← any_there (syncKeyMaterialPaths (localFleetResetDefaultSyncKeyPath configDir));
    ok (if there : bool then localFleetResetDefaultSyncKeyPath configDir else "").

Definition localFleetResetResettableSyncKeyPaths (c : Config) (configDir : string) : io (list string) :=
  path ← localFleetResetSyncKeyPathForReset c configDir;
  ok (if bool_decide (path = "") then [] else Clean <$> syncKeyMaterialPaths path).

(** The directories with what is looked for in each; one entry when they are the same. *)
Definition material_roots (swapped : bool) (configDir stateDir : string) : list (string * list string) :=
  let state := (stateDir, localFleetResetStateMaterialPaths) in
  let config := (configDir, localFleetResetConfigMaterialPaths) in
  let roots := if bool_decide (configDir = stateDir) then [state] else if swapped then [state; config] else [config; state] in
  filter (λ root, root.1 ≠ "") roots.

Definition material_paths_in (resettable : list string) (roots : list (string * list string)) : list string :=
  filter (λ path, Clean path ∉ resettable) (roots ≫= λ root, path_join root.1 <$> root.2).

Definition localFleetResetHasUnsupportedSSHMaterial (swapped : bool) (c : Config) (raw : raw_object) (configDir stateDir : string) : io bool :=
  resettable ← localFleetResetResettableSyncKeyPaths c configDir;
  if existsb (λ kv, localFleetResetUnsupportedSSHMaterialField kv.1 kv.2) (map_to_list raw) then ok true
  else any_there (material_paths_in resettable (material_roots swapped configDir stateDir)).

(** ** What the configuration becomes *)

(** [plan.BindListen], or the default where it cannot be split. *)
Definition reset_listener (c : Config) : string * Z :=
  let listen := BindListen (PlanListener c true) in
  match splitListenHostPort listen with
  | Some (_, port) => (listen, port)
  | None => (DefaultListen true defaultPort, defaultPort)
  end.

Definition with_sync_key (g : go_config) (syncKeyPath : string) : go_config :=
  if bool_decide (syncKeyPath = "") then g
  else
    let ssh := default (MkSSHConfig "" "" 0 0 0 []) (SSH (gc_config g)) in
    if bool_decide (SyncKey ssh = "")
    then with_ssh g (Some (MkSSHConfig syncKeyPath (KnownHosts ssh) (MaxSessions ssh) (MaxSessionsPerPeer ssh) (LogLimitBytes ssh) (Peers ssh))) (gc_peers g)
    else with_ssh g (Some ssh) (gc_peers g).

Definition reset_config (g : go_config) (hostID key : string) : go_config :=
  let c := gc_config g in
  let '(listen, port) := reset_listener c in
  MkGoConfig (MkConfig (ConfigVersion c) (ConfigRevision c) listen key "static" [] hostID (Transport c) (SSH c) port (MaxHistory c)) false (gc_peers g).

Definition attempt {A} (p : io A) : io (result ioerror A) := bindp p (λ r, ok r).

Section ops.
Context (homeDir : option string) (uid : Z) (pid counter : N) (render : raw_object → string).
Context (sha256 : string → string) (renderKey : SyncKeyMetadata → string) (swapped : bool).

(** What deriving a host id gives, the new shared key, the time and the storage check;
    [pid'], [counter'], [counter'']: the names the reset of the sync key takes. *)
Record deps := MkDeps {
  dp_hostID : result string string;
  dp_newSharedKey : string;
  dp_now : string;
  dp_preflight : option ioerror;
  dp_pid : N;
  dp_counter : N;
  dp_counter' : N;
}.

Definition reset_host_id (g : go_config) (d : deps) : result string string :=
  hostID ← (if bool_decide (Hostname (gc_config g) = "") then recode (dp_hostID d) "derive_host_id" else Ok (Hostname (gc_config g)));
  _ ← recode (ValidateHostID hostID) "invalid_host_id";
  Ok hostID.

Definition reset_mutate (path stateDir : string) (d : deps) (g : go_config) (raw : raw_object) : io (go_config * raw_object * (option stagedSyncKeyReset * string)) :=
  let configDir := Dir path in
  if SafeMode (PlanListener (gc_config g) true) then fail (Code "fleet_reset_unsafe_listener")
  else if SharedKeyIsStandard32Bytes (SharedKey (gc_config g)) then fail (Code "fleet_reset_shared_key_still_valid")
  else
    unsupported ← localFleetResetHasUnsupportedSSHMaterial swapped (gc_config g) raw configDir stateDir;
    if unsupported : bool then fail (Code "fleet_reset_ssh_material_present")
    else
      hostID ← pure (reset_host_id g d);
      if negb (SharedKeyIsStandard32Bytes (dp_newSharedKey d)) then fail (Code "invalid_generated_shared_key")
      else
        syncKeyPath ← localFleetResetSyncKeyPathForReset (gc_config g) configDir;
        let g := with_sync_key g syncKeyPath in
        staged ←
          (if bool_decide (syncKeyPath = "") then ok None
           else
             _ ← pure (recode (ValidateSSHExecutablePath syncKeyPath) "invalid_sync_key");
             stage ← stageLocalSyncKeyReset sha256 renderKey (dp_preflight d) (dp_pid d) (dp_counter d) (dp_counter' d) syncKeyPath hostID (dp_now d);
             ok (Some stage));
        ok (reset_config g hostID (dp_newSharedKey d), delete "previous_listen" (delete "static_peers" raw), (staged, hostID)).

(** [updateConfigV2ScopedRawWithBackupAndLock] with what its change leaves in the variables
    of its caller: they keep it when the update fails later. *)
Definition update_capturing {X} (path : string) (gateEnabled : bool) (expected : RevisionExpectation) (backupPath : string)
    (mutate : go_config → raw_object → io (go_config * raw_object * X)) : io (option X * result ioerror ()) :=
  if negb gateEnabled then fail (Code ErrConfigV2WritesDisabled)
  else
    withConfigFileLockMode uid path true
      (data ← readConfigFileSafe uid path;
       doc ← pure (parseConfigDocument homeDir data);
       _ ← pure (validateRevisionExpectation doc expected);
       _ ← removeStaleConfigV2Temps path;
       '(g, raw, x) ← mutate (clone_config (doc_Config doc)) (doc_raw doc);
       r ← attempt
         ('(out, _) ← scoped_change homeDir backupPath (λ _ _, ok (g, raw)) data doc;
          writeConfigV2Atomic path (render out) 384 (temp_unique pid counter));
       ok (Some x, r)).

Definition resetLocalFleetWithGateAndDeps (path stateDir : string) (gateEnabled : bool) (req : LocalFleetResetRequest) (backupPath : string) (d : deps) :
    io LocalFleetResetResult :=
  if negb (bool_decide (fr_Confirmation req = LocalFleetResetConfirmation)) then fail (Code "fleet_reset_confirmation_required")
  else
    '(captured, r) ← update_capturing path gateEnabled (MkExpectation (fr_ExpectedRevisionState req) (fr_ExpectedConfigRevision req)) backupPath (reset_mutate path stateDir d);
    match r with
    | Err e => _ ← (match captured with Some (Some staged, _) => rollback staged | _ => ok () end); fail e
    | Ok _ =>
        _ ← (match captured with Some (Some staged, _) => commit staged | _ => ok () end);
        doc ← readConfigDocumentLocked homeDir uid path;
        ok (MkResetResult (match captured with Some (_, hostID) => hostID | None => "" end) (doc_ConfigRevision doc) (doc_RevisionState doc) backupPath)
    end.

Definition localFleetResetStatusFromDocument (doc : configDocument) (configDir stateDir : string) : io LocalFleetResetStatus :=
  let c := gc_config (doc_Config doc) in
  material ← localFleetResetHasUnsupportedSSHMaterial swapped c (doc_raw doc) configDir stateDir;
  ok (MkResetStatus (Hostname c) (ConfigVersion c) (doc_ConfigRevision doc) (doc_RevisionState doc) (negb (SafeMode (PlanListener c true)))
    (negb (SharedKeyIsStandard32Bytes (SharedKey c))) (negb material)).

Definition ReadLocalFleetResetStatus (path stateDir : string) : io LocalFleetResetStatus :=
  withConfigFileLockMode uid path true
    (data ← readConfigFileSafe uid path;
     doc ← pure (parseConfigDocument homeDir data);
     localFleetResetStatusFromDocument doc (Dir path) stateDir).
End ops.

(** [stamp]: the time, formatted. *)
Definition LocalFleetResetBackupPath (configPath stamp : string) : string := path_join (Dir configPath) (Base configPath +:+ ".fleet-reset." +:+ stamp +:+ ".bak").

(** ** Examples *)

Example ssh_material :
  localFleetResetUnsupportedSSHMaterialField "SSH" (VObject [("Sync_Key", VString "/k"); ("peers", VArray []); ("known_hosts", VString "")]) = false ∧
  localFleetResetUnsupportedSSHMaterialField "ssh" (VObject [("peers", VArray [VNull])]) = true ∧
  localFleetResetUnsupportedSSHMaterialField "transport" (VString "SSH") = true ∧ localFleetResetUnsupportedSSHMaterialField "transport" (VString "http") = false ∧
  localFleetResetUnsupportedSSHMaterialField ("sync_" +:+ of_bytes [226; 132; 170] +:+ "ey_path") (VBool false) = true.
Proof. split_all; vm_compute; reflexivity. Qed.

(** ** Lemmas: a successful run *)

Lemma reset_listener_safe c : ∃ port, validPort port = true ∧ reset_listener c = (loopback_listen port, port).
Proof.
  unfold reset_listener. destruct (plan_bind c) as (port & Hport & Hbind & _). exists port. split; [done|]. by rewrite Hbind, split_loopback.
Qed.

Section runs.
Context (homeDir : option string) (uid : Z) (pid counter : N) (render : raw_object → string).
Context (sha256 : string → string) (renderKey : SyncKeyMetadata → string) (swapped : bool).
Context (resolve : fs → string → result errno string) (keygen : string → string → fs → fs * result errno unit).
Context (others : nat → fs → fs) (faults : nat → fault).

#[local] Notation ran := (ran uid resolve keygen others faults).

Lemma ran_pure {A} (r : result string A) n s states x n' s' : ran n s (pure r) states (Ok x) n' s' → r = Ok x ∧ states = [] ∧ n' = n ∧ s' = s.
Proof. destruct r as [a|e]; [|discriminate]. cbn [pure]. intros (-> & -> & -> & ->)%ran_ok. done. Qed.

Lemma ran_attempt {A} (p : io A) n s states r n' s' : ran n s (attempt p) states (Ok r) n' s' → ran n s p states r n' s'.
Proof.
  intros (states1 & r1 & n1 & s1 & states2 & H1 & H2 & ->)%ran_bind. apply ran_ok in H2 as (-> & -> & -> & ->). by rewrite app_nil_r.
Qed.

Lemma ran_fail {A} e n s states (x : A) n' s' : ¬ ran n s (fail e) states (Ok x) n' s'.
Proof. discriminate. Qed.

(** What the change was, when it succeeded. *)
Lemma reset_mutate_Ok path stateDir d g raw n s states g' raw' staged hostID n' s' :
  ran n s (reset_mutate sha256 renderKey swapped path stateDir d g raw) states (Ok (g', raw', (staged, hostID))) n' s' →
  SafeMode (PlanListener (gc_config g) true) = false ∧ SharedKeyIsStandard32Bytes (SharedKey (gc_config g)) = false ∧
  existsb (λ kv, localFleetResetUnsupportedSSHMaterialField kv.1 kv.2) (map_to_list raw) = false ∧
  reset_host_id g d = Ok hostID ∧ SharedKeyIsStandard32Bytes (dp_newSharedKey d) = true ∧
  raw' = delete "previous_listen" (delete "static_peers" raw) ∧ ∃ syncKeyPath, g' = reset_config (with_sync_key g syncKeyPath) hostID (dp_newSharedKey d).
Proof.
  unfold reset_mutate. destruct (SafeMode _); [by intros ?%ran_fail|]. destruct (SharedKeyIsStandard32Bytes (SharedKey _)); [by intros ?%ran_fail|].
  intros (l1 & unsupported & n1 & s1 & l2 & H1 & H & ->)%ran_bind_Ok. destruct unsupported; [by apply ran_fail in H|].
  apply ran_bind_Ok in H as (l3 & h & n3 & s3 & l4 & (Hh & -> & -> & ->)%ran_pure & H & ->). destruct (SharedKeyIsStandard32Bytes (dp_newSharedKey d)) eqn:Hkey; [|by apply ran_fail in H].
  cbn [negb] in H. apply ran_bind_Ok in H as (l5 & syncKeyPath & n5 & s5 & l6 & _ & H & ->). apply ran_bind_Ok in H as (l7 & st & n7 & s7 & l8 & _ & H & ->).
  apply ran_ok in H as ([= <- <- <- <-] & _). split; [done|]. split; [done|]. split; [|by split_all; [..|exists syncKeyPath]].
  apply ran_bind_Ok in H1 as (l9 & resettable & n9 & s9 & l10 & _ & H & ->). by destruct (existsb _ _); [apply ran_ok in H as [? _]|].
Qed.

Lemma ran_with_lock {A} path nonBlocking (fn : io A) n s states x n' s' :
  ran n s (withConfigFileLockMode uid path nonBlocking fn) states (Ok x) n' s' → ∃ n1 s1 states1 n2 s2, ran n1 s1 fn states1 (Ok x) n2 s2.
Proof.
  intros (l1 & [] & n1 & s1 & l2 & _ & H & ->)%ran_bind_Ok. apply ran_bind_Ok in H as (l3 & info & n3 & s3 & l4 & _ & H & ->).
  apply ran_bind_Ok in H as (l5 & [] & n5 & s5 & l6 & _ & H & ->). apply ran_bind_Ok in H as (l7 & fd & n7 & s7 & l8 & _ & H & ->).
  apply ran_finally_Ok in H as (l9 & n9 & s9 & l10 & H & ->). apply ran_bind_Ok in H as (l11 & [] & n11 & s11 & l12 & _ & H & ->).
  apply ran_bind_Ok in H as (l13 & [] & n13 & s13 & l14 & _ & H & ->). apply ran_bind_Ok in H as (l15 & [] & n15 & s15 & l16 & _ & H & ->).
  apply ran_finally_Ok in H as (l17 & n17 & s17 & l18 & H & ->). by do 5 eexists.
Qed.

(** What a successful update read, what its change was and what it wrote. *)
Lemma update_capturing_Ok {X} path gate expected backupPath (mutate : go_config → raw_object → io (go_config * raw_object * X)) n s states captured n' s' :
  ran n s (update_capturing homeDir uid pid counter render path gate expected backupPath mutate) states (Ok (captured, Ok ())) n' s' →
  gate = true ∧ ∃ data doc g raw x c next,
    (∃ n1 s1 l1 n2 s2, ran n1 s1 (readConfigFileSafe uid path) l1 (Ok data) n2 s2) ∧ parseConfigDocument homeDir data = Ok doc ∧
    validateRevisionExpectation doc expected = Ok () ∧
    (∃ n1 s1 l1 n2 s2, ran n1 s1 (mutate (clone_config (doc_Config doc)) (doc_raw doc)) l1 (Ok (g, raw, x)) n2 s2) ∧ captured = Some x ∧
    NormalizeLocalSSHPaths homeDir (gc_config g) = Ok c ∧ ValidateSSHTransportConfig c = Ok () ∧ nextConfigRevision doc = Ok next ∧
    ∃ n1 s1 l1 n2 s2, ran n1 s1 (writeConfigV2Atomic path
      (render (marshalConfigDocument (MkDocument (doc_Config doc) (doc_RevisionState doc) (doc_ConfigRevision doc) raw) (with_config g c) next)) 384 (temp_unique pid counter)) l1 (Ok ()) n2 s2.
Proof.
  unfold update_capturing. destruct gate; cbn [negb]; [|by intros ?%ran_fail]. intros (n1 & s1 & l1 & n2 & s2 & H)%ran_with_lock. split; [done|].
  apply ran_bind_Ok in H as (l3 & data & n3 & s3 & l4 & Hread & H & ->). apply ran_bind_Ok in H as (l5 & doc & n5 & s5 & l6 & (Hdoc & -> & -> & ->)%ran_pure & H & ->).
  apply ran_bind_Ok in H as (l7 & [] & n7 & s7 & l8 & (Hexp & -> & -> & ->)%ran_pure & H & ->). apply ran_bind_Ok in H as (l9 & [] & n9 & s9 & l10 & _ & H & ->).
  apply ran_bind_Ok in H as (l11 & [[g raw] x] & n11 & s11 & l12 & Hm & H & ->). apply ran_bind_Ok in H as (l13 & r & n13 & s13 & l14 & Ha%ran_attempt & H & ->).
  apply ran_ok in H as ([= <- ->] & _). apply ran_bind_Ok in Ha as (l15 & [out u] & n15 & s15 & l16 & Hc & Hw & ->). unfold scoped_change in Hc.
  apply ran_bind_Ok in Hc as (l17 & [g1 raw1] & n17 & s17 & l18 & ([= <- <-] & -> & -> & ->)%ran_ok & H & ->).
  apply ran_bind_Ok in H as (l19 & c & n19 & s19 & l20 & (Hn & -> & -> & ->)%ran_pure & H & ->). apply ran_bind_Ok in H as (l21 & [] & n21 & s21 & l22 & (Hv & -> & -> & ->)%ran_pure & H & ->).
  apply ran_bind_Ok in H as (l23 & [] & n23 & s23 & l24 & _ & H & ->). apply ran_bind_Ok in H as (l25 & next & n25 & s25 & l26 & (Hnext & -> & -> & ->)%ran_pure & H & ->).
  apply ran_ok in H as ([= <- <-] & _). exists data, doc, g, raw, x, c, next. split_all; try done; by do 5 eexists.
Qed.

End runs.

(** ** Witness *)

Module FleetSamples.
Definition text : string :=
  print (json_object (raw_of [("config_version", json_int 2); ("config_revision", json_int 7); ("hostname", VString "alpha"); ("shared_key", VString "spoiled");
    ("static_peers", VArray [VString "gone"]); ("ssh", VObject [("sync_key", VString "/home/sync")])])).

(** A home with this configuration and a sync key. *)
Definition home : fs :=
  MkFs (list_to_map [("/", Node 0); ("/home", Node 1); ("/home/config.json", Node 2); ("/home/sync", Node 3); ("/home/sync.pub", Node 4)])
    (list_to_map [(0, MkInode Folder "" 493 0 true); (1, MkInode Folder "" 448 501 true); (2, MkInode Regular text 384 501 true);
      (3, MkInode Regular "old private" 384 501 true); (4, MkInode Regular "old public" 384 501 true)]) [].

Definition put (s : fs) (path data : string) : fs :=
  let ino := fresh (dom (fs_inodes s)) in set_inode (with_names s (<[path := Node ino]> (fs_names s))) ino (MkInode Regular data 384 501 false).

Definition keygen (k h : string) (s : fs) : fs * result errno unit := (put (put s k "new private") (k +:+ ".pub") "ssh-ed25519 AAAA clipfan", Ok ()).

Definition new_key : string := "AAAAAAAAAAAAAAAAAAAAAAAAAAAAAAAAAAAAAAAAAAA=".

Definition dependencies : deps := MkDeps (Ok "alpha") new_key "2024-01-02T03:04:05Z" None 8 1 2.

Definition request : LocalFleetResetRequest := MkReset LocalFleetResetConfirmation RevisionStateVersioned (Some 7%Z).

Definition run (faults : nat → fault) : list fs * (result ioerror LocalFleetResetResult * nat * fs) :=
  exec 501 Samples.no_links keygen Samples.alone faults 0 home
    (resetLocalFleetWithGateAndDeps None 501 7 1 ConfigSamples.render (λ s, s) sm_KeyID false Samples.path "/state" true request "" dependencies).

Definition failing (n : nat) (k : nat) : fault := if k =? n then Fails EIO else Works.
End FleetSamples.


(** The write of a configuration fails when the directory cannot be written out, though the
    file was replaced by then: the reset fails and puts the old sync key back, and the
    configuration has the new shared key. *)
Example replaced_then_failed :
  let out := FleetSamples.run (FleetSamples.failing 79) in
  Samples.answer out = Err (OS EIO) ∧ visible (Samples.last_state out) "/home/sync" = Some "old private" ∧
  visible (Samples.last_state out) Samples.path = visible (Samples.last_state (FleetSamples.run Samples.fine)) Samples.path.
Proof. split_all; vm_compute; reflexivity. Qed.
