(* ===== verification/ConfigHandlers.v ===== *)
(** * The config handlers of the daemon: daemon/ssh_config.go, listener_repair.go

    What the daemon does with a request to change its configuration: decode it, apply it
    to the file, read the file again and bring what runs in step with it: the
    configuration in use, the discoverer, the status of the peers and the ssh sessions.
    Any error becomes a status and a code by the prefix of its text.

    A file is its text, as in ApplyFiles; the sessions are those of Session. *)
From S2P Require Import Prelude GoStrings Utf8 Encoding NetIP Paths Hostnames Config Clip Session Daemon SSHConfig Words KnownHosts AuthorizedKeys SSHCommand Pairing Listener Fleet.
From S2P Require Import Server Json RawJson ConfigDoc Redact PeerRequests PeerConfig PeerLife Applicator ApplyFiles Files SafeFile FileUpdate ConfigFile RemoveHost ListenerRepair.
From Stdlib Require Import Ascii String.
From stdpp Require Import strings gmap.

#[local] Arguments String.append !_ _ / : simpl nomatch.

(** ** Errors *)

Definition hasErrorPrefix (text : string) (prefixes : list string) : bool :=
  existsb (λ prefix, (HasSuffix prefix "_" && HasPrefix text prefix) || bool_decide (text = prefix) || HasPrefix text (prefix +:+ ":")) prefixes.

Definition ErrConfigFileUnsafe : string := "config_file_unsafe".

(** The errors that both kinds of handler tell by their identity. *)
Definition sentinel_error (err : string) : option HandlerError :=
  if bool_decide (err = ErrConfigRevisionConflict) then Some (MkHandlerError 409 "config_revision_conflict")
  else if bool_decide (err = ErrConfigV2WritesDisabled) then Some (MkHandlerError 503 "config_v2_writes_disabled")
  else if bool_decide (err = ErrConfigFileUnsafe) then Some (MkHandlerError 409 "config_file_unsafe")
  else None.

Definition request_errors : list string :=
  ["unknown_field"; "missing_host_remove_field"; "missing_ssh_peer_remove_field"; "missing_ssh_peer_upsert_field"; "missing_ssh_peer_proof_patch_field";
   "missing_ssh_peer_transition_field"; "missing_ssh_peer_disable_field"; "missing_ssh_peer_delete_field"; "malformed_host_remove_request";
   "malformed_ssh_peer_upsert_request"; "malformed_ssh_peer_proof_patch_request"; "malformed_ssh_peer_transition_request";
   "malformed_ssh_peer_disable_request"; "malformed_ssh_peer_delete_request"; "invalid_host_remove_field"; "invalid_ssh_peer_upsert_field";
   "invalid_ssh_peer_proof_patch_field"; "invalid_ssh_peer_transition_field"; "invalid_ssh_peer_disable_field"; "invalid_ssh_peer_delete_field";
   "ssh_peer_proof_patch_empty"; "invalid_expected_config_revision"].

Definition transition_errors : list string :=
  ["invalid_ssh_peer_transition_state"; "invalid_ssh_peer_transition_reason"; "invalid_ssh_peer_transition_failed_phase";
   "ssh_peer_transition_absence_proof_failed_phase_mismatch"].

Definition conflict_errors : list string := ["duplicate_ssh_peer_id"; "duplicate_ssh_target"; "ssh_peer_id_is_local_host"].

Definition validation_errors : list string :=
  ["invalid_ssh_host"; "invalid_ssh_port"; "invalid_ssh_user"; "invalid_install_path"; "invalid_gateway_path"; "missing_connect_locator";
   "invalid_accept_only_peer_outbound_mode"; "invalid_migration_state"; "invalid_sync_key"; "invalid_known_hosts"; "invalid_ssh_max_sessions";
   "invalid_ssh_max_sessions_per_peer"; "invalid_ssh_log_limit_bytes"; "invalid_ssh_peer_proof"; "invalid_ssh_peer_migration_log";
   "invalid_ssh_peer_audit_log"; "invalid_ssh_peer_remediation"; "invalid_accept_proof"; "invalid_connect_proof"].

(** The cases of the switch, in their order. *)
Definition error_table : list (list string * HandlerError) :=
  [(["host_not_found"], MkHandlerError 404 "host_not_found");
   (["ssh_peer_not_found"], MkHandlerError 404 "ssh_peer_not_found");
   (request_errors, MkHandlerError 400 "bad_request");
   (["invalid_ssh_peer_id"], MkHandlerError 400 "invalid_ssh_peer_id");
   (["invalid_host_remove_id"], MkHandlerError 400 "invalid_host_remove_id");
   (["ssh_peer_secret_field_not_allowed"], MkHandlerError 400 "secret_field_not_allowed");
   (["ssh_peer_id_mismatch"], MkHandlerError 400 "ssh_peer_id_mismatch");
   (["ssh_peer_migration_state_change_not_allowed"], MkHandlerError 409 "ssh_peer_migration_state_change_not_allowed");
   (["proof_mismatch"], MkHandlerError 409 "proof_mismatch");
   (["ssh_peer_transition_state_mismatch"], MkHandlerError 409 "ssh_peer_transition_state_mismatch");
   (["ssh_peer_transition_not_allowed"], MkHandlerError 400 "ssh_peer_transition_not_allowed");
   (transition_errors, MkHandlerError 400 "invalid_ssh_peer_transition");
   (["ssh_peer_transition_requires_"], MkHandlerError 400 "invalid_ssh_peer_transition");
   (["invalid_ssh_peer_disable_state"], MkHandlerError 400 "invalid_ssh_peer_disable");
   (["invalid_ssh_peer_delete_state"], MkHandlerError 400 "invalid_ssh_peer_delete");
   (["ssh_peer_create_requires_loopback_unprovisioned"], MkHandlerError 400 "ssh_peer_create_requires_loopback_unprovisioned");
   (["ssh_peer_create_requires_"], MkHandlerError 400 "invalid_ssh_peer_config");
   (conflict_errors, MkHandlerError 409 "ssh_peer_config_conflict");
   (validation_errors, MkHandlerError 400 "invalid_ssh_peer_config")].

Definition sshPeerConfigHandlerError (err : string) : HandlerError :=
  match sentinel_error err with
  | Some e => e
  | None => default (MkHandlerError 500 "ssh_peer_config_failed") (snd <$> (snd <$> list_find (λ row : list string * HandlerError, hasErrorPrefix err row.1 = true) error_table))
  end.

Definition repair_error_table : list (list string * HandlerError) :=
  [(["listener_repair_field_not_allowed"], MkHandlerError 400 "unknown_field");
   (["missing_listener_repair_field"; "malformed_listener_repair_request"; "invalid_listener_repair_field"; "invalid_listener_repair_port";
     "invalid_expected_config_revision"], MkHandlerError 400 "bad_request");
   (["invalid_listener_repair_request"], MkHandlerError 400 "invalid_listener_repair_request");
   (["listener_repair_not_required"], MkHandlerError 409 "listener_repair_not_required")].

Definition listenerRepairHandlerError (err : string) : HandlerError :=
  match sentinel_error err with
  | Some e => e
  | None => default (MkHandlerError 500 "listener_repair_failed")
      (snd <$> (snd <$> list_find (λ row : list string * HandlerError, existsb (Contains err) row.1 = true) repair_error_table))
  end.

(** ** What follows the configuration *)

Inductive Discoverer :=
| DiscoverStatic (hosts : list string) (port : Z) (self : string)
| DiscoverTailscale (port : Z) (allowed : gset string).

(** [hostname]: os.Hostname. *)
Definition discovererFromConfig (hostname : string) (cfg : Config) : Discoverer :=
  if bool_decide (Discovery cfg = "static") then DiscoverStatic (StaticPeers cfg) (Port cfg) (shortName hostname)
  else DiscoverTailscale (Port cfg) (allowedHostSet (StaticPeers cfg)).

Definition configuredSnapshotHostnames (cfg : option Config) : gset string :=
  match cfg with
  | None => ∅
  | Some cfg =>
      let out := list_to_set (filter (λ peer, TrimSpace peer ≠ "") (StaticPeers cfg)) in
      match SSH cfg with
      | Some ssh =>
          if negb (bool_decide (Transport cfg = TransportSSH)) then out
          else out ∪ list_to_set (peer_ID <$> filter (λ peer, sshPeerVisibleInSnapshot peer = true) (Config.Peers ssh))
      | None => out
      end
  end.

Definition configuredHostnamesMatch (host : string) (configured : gset string) : bool := existsb (HostsMatch host) (elements configured).

(** The part of the daemon a change of the configuration is about. *)
Record config_state := MkConfigState {
  cs_files : files;
  cs_cfg : option Config;
  cs_disc : Discoverer;
  cs_peerStatus : gmap string PeerState;
  cs_sshSync : option Manager;
}.

Definition prunePeerStatusForConfigReloadLocked (previous next : option Config) (status : gmap string PeerState) : gmap string PeerState :=
  let previousConfigured := configuredSnapshotHostnames previous in
  if bool_decide (previousConfigured = ∅) then status
  else
    let nextConfigured := configuredSnapshotHostnames next in
    filter (λ row, negb (configuredHostnamesMatch row.1 previousConfigured) || configuredHostnamesMatch row.1 nextConfigured = true) status.

(** ** The handlers *)

(** A request to write a peer, by the endpoint it came to. *)
Inductive peer_request := Put | ProofPatch | Transition | Disable | Delete.

Section handlers.
Context (homeDir : option string) (gate : bool) (marshal : raw_object → result string string).
Context (configPath hostname origin : string) (safeMode : bool).

(** What is under one request: the order in which Go ranges over the members of an
    upsert and over the sessions, the clock at each deletion, and the file written
    where there is none, with its new key. *)
Context (range : raw_object → list (string * json)) (order : Manager → list (string * nat)) (now : nat → string).
Context (renderConfig : Config → string) (newKey : string).

Definition with_files (d : config_state) (w : files) : config_state := MkConfigState w (cs_cfg d) (cs_disc d) (cs_peerStatus d) (cs_sshSync d).

(** config.LoadFromPath. *)
Definition load_text (w : files) : files * result string Config :=
  match w !! configPath with
  | Some data => (w, doc ← parseConfigDocument homeDir data; Ok (gc_config (doc_Config (with_defaults doc GeneratedLoopbackDefaultsEnabled))))
  | None =>
      let c := initial_config newKey GeneratedLoopbackDefaultsEnabled in
      (<[configPath := renderConfig c]> w, _ ← parseConfigDocument homeDir (renderConfig c); Ok c)
  end.

(** The release flag of the persistent sessions is on. *)
Definition refreshSSHSyncAfterConfigReload (cfg : Config) (sshSync : option Manager) : option Manager :=
  if safeMode || negb (bool_decide (Transport cfg = TransportSSH)) then sshSync
  else
    match sshSync with
    | None =>
        let manager := newSSHSyncManager (Some cfg) origin in
        if bool_decide (m_peers manager = []) then None else Some (Start manager)
    | Some manager => Some (Refresh (order manager) manager (Some cfg))
    end.

Definition reloadConfigAfterSSHPeerMutation (d : config_state) : option HandlerError * config_state :=
  if bool_decide (configPath = "") then (None, d)
  else
    match load_text (cs_files d) with
    | (w, Err e) => (Some (sshPeerConfigHandlerError e), with_files d w)
    | (w, Ok cfg) =>
        (None, MkConfigState w (Some cfg) (discovererFromConfig hostname cfg) (prunePeerStatusForConfigReloadLocked (cs_cfg d) (Some cfg) (cs_peerStatus d))
          (refreshSSHSyncAfterConfigReload cfg (cs_sshSync d)))
    end.

(** Decoding a body and applying the request to the file. *)
Definition attempt {Req A} (decode : string → result string Req) (apply : Req → files → files * result string A) (body : string) : files → files * result string A := λ w,
  match decode body with Err e => (w, Err e) | Ok req => apply req w end.

(** The common shape of the handlers that write. *)
Definition mutation {A} (attempted : files → files * result string A) (d : config_state) : result HandlerError A * config_state :=
  match attempted (cs_files d) with
  | (w, Err e) => (Err (sshPeerConfigHandlerError e), with_files d w)
  | (w, Ok status) =>
      match reloadConfigAfterSSHPeerMutation (with_files d w) with
      | (Some e, d) => (Err e, d)
      | (None, d) => (Ok status, d)
      end
  end.

Definition DisableSSHPeer (path peerID : string) (req : SSHPeerDisableRequest) : files → files * result string SSHPeerConfigReadResult :=
  writing marshal path (λ data, pack (disableSSHPeerWithGate homeDir gate (now 0) data peerID req)) written_peer.

Definition DeleteSSHPeer (path peerID : string) (req : SSHPeerDeleteRequest) : files → files * result string SSHPeerConfigReadResult :=
  writing marshal path (λ data, pack (deleteSSHPeerWithGate homeDir gate (now 0) data peerID req)) written_peer.

(** config.RemoveHost: the update, then the file read again. *)
Definition update_removed (hostID : string) (req : HostRemoveRequest) (data : string) : result string (raw_object * (bool * bool * option raw_object)) :=
  '(out, removed, _) ← ConfigDoc.withSSHPeerConfigUpdate homeDir gate data (MkExpectation (hm_ExpectedRevisionState req) (hm_ExpectedConfigRevision req))
    (remove_change homeDir now hostID req);
  Ok (out, removed).

Definition removed_host (hostID : string) (removed : bool * bool * option raw_object) (data : string) : result string HostRemoveResult :=
  let '(removedStatic, removedSSH, status) := removed in
  doc ← parseConfigDocument homeDir data;
  Ok (MkHostRemoved hostID removedStatic removedSSH (doc_ConfigRevision doc) (doc_RevisionState doc) (ConfigVersion (gc_config (doc_Config doc))) status).

Definition RemoveHost (path hostID : string) (req : HostRemoveRequest) : files → files * result string HostRemoveResult := λ w,
  match (_ ← ValidateHostRemoveTarget hostID; validateHostRemoveRequest req) with
  | Err e => (w, Err e)
  | Ok _ =>
      match writing marshal path (update_removed hostID req) id w with
      | (w, Err e) => (w, Err e)
      | (w, Ok removed) => reading path (removed_host hostID removed) w
      end
  end.

#[local] Notation ops := (defaultDirectPairConfigOps homeDir gate marshal).

Definition sshPeerConfigReadHandler (peerID : string) (d : config_state) : result HandlerError SSHPeerConfigReadResult :=
  match (@op_ReadSSHPeer files ops configPath peerID (cs_files d)).2 with Err e => Err (sshPeerConfigHandlerError e) | Ok status => Ok status end.

Definition attempted (r : peer_request) (peerID body : string) : files → files * result string SSHPeerConfigReadResult :=
  match r with
  | Put => attempt (DecodeSSHPeerUpsertRequest range) (@op_UpsertSSHPeer files ops configPath peerID) body
  | ProofPatch => attempt DecodeSSHPeerProofPatchRequest (@op_PatchSSHPeerProof files ops configPath peerID) body
  | Transition => attempt DecodeSSHPeerTransitionRequest (@op_TransitionSSHPeer files ops configPath peerID) body
  | Disable => attempt DecodeSSHPeerDisableRequest (DisableSSHPeer configPath peerID) body
  | Delete => attempt DecodeSSHPeerDeleteRequest (DeleteSSHPeer configPath peerID) body
  end.

Definition attempted_remove (hostID body : string) : files → files * result string HostRemoveResult :=
  attempt DecodeHostRemoveRequest (RemoveHost configPath hostID) body.

Definition sshPeerConfigPutHandler (peerID body : string) : config_state → result HandlerError SSHPeerConfigReadResult * config_state :=
  mutation (attempted Put peerID body).

Definition sshPeerConfigProofPatchHandler (peerID body : string) : config_state → result HandlerError SSHPeerConfigReadResult * config_state :=
  mutation (attempted ProofPatch peerID body).

Definition sshPeerConfigTransitionHandler (peerID body : string) : config_state → result HandlerError SSHPeerConfigReadResult * config_state :=
  mutation (attempted Transition peerID body).

Definition sshPeerConfigDisableHandler (peerID body : string) : config_state → result HandlerError SSHPeerConfigReadResult * config_state :=
  mutation (attempted Disable peerID body).

Definition sshPeerConfigDeleteHandler (peerID body : string) : config_state → result HandlerError SSHPeerConfigReadResult * config_state :=
  mutation (attempted Delete peerID body).

Definition hostRemoveHandler (hostID body : string) : config_state → result HandlerError HostRemoveResult * config_state :=
  mutation (attempted_remove hostID body).

(** The endpoints, as SetSSHPeerConfig and the like give them to the server. *)
Definition handler (r : peer_request) : string → string → config_state → result HandlerError SSHPeerConfigReadResult * config_state :=
  match r with
  | Put => sshPeerConfigPutHandler
  | ProofPatch => sshPeerConfigProofPatchHandler
  | Transition => sshPeerConfigTransitionHandler
  | Disable => sshPeerConfigDisableHandler
  | Delete => sshPeerConfigDeleteHandler
  end.

Definition listenerRepairStatusHandler (d : config_state) : result HandlerError ListenerRepairStatus :=
  match (reading configPath (λ data, doc ← parseConfigDocument homeDir data; listenerRepairStatusFromDocument doc) (cs_files d)).2 with
  | Err e => Err (listenerRepairHandlerError e)
  | Ok status => Ok status
  end.

(** config.RepairListener, without a backup. *)
Definition RepairListener (path : string) (req : ListenerRepairRequest) : files → files * result string ListenerRepairStatus := λ w,
  match revisionExpectation req with
  | Err e => (w, Err e)
  | Ok expected =>
      match writing marshal path (λ data, out ← updateConfigV2Scoped homeDir gate data expected (repair_change req expected); Ok (out, ())) id w with
      | (w, Err e) => (w, Err e)
      | (w, Ok _) => reading path (λ data, doc ← parseConfigDocument homeDir data; listenerRepairStatusFromDocument doc) w
      end
  end.

Definition attempted_repair (body : string) : files → files * result string ListenerRepairStatus :=
  attempt DecodeListenerRepairRequest (RepairListener configPath) body.

Definition listenerRepairPatchHandler (body : string) (d : config_state) : result HandlerError ListenerRepairStatus * config_state :=
  let '(w, r) := attempted_repair body (cs_files d) in
  (match r with Err e => Err (listenerRepairHandlerError e) | Ok status => Ok status end, with_files d w).
End handlers.

(** ** Lemmas: which errors there are *)

Definition errs {A} (P : string → bool) (r : result string A) : Prop := ∀ e, r = Err e → P e = true.

Section errs.
Context (P : string → bool).

Lemma errs_Ok {A} (a : A) : errs P (Ok a).
Proof. by intros e [=]. Qed.

Lemma errs_Err {A} e : P e = true → errs P (Err (A := A) e).
Proof. by intros He ? [= <-]. Qed.

Lemma errs_bind {A B} (r : result string A) (f : A → result string B) : errs P r → (∀ a, r = Ok a → errs P (f a)) → errs P (r ≫= f).
Proof. intros Hr Hf e. destruct r as [a|e']; cbn [mbind result_bind]; [by apply Hf|]. intros [= ->]. by apply Hr. Qed.

Lemma errs_recode {E A} (r : result E A) code : P code = true → errs P (recode r code).
Proof. intros Hc e. destruct r; [done|]. by intros [= <-]. Qed.

Lemma errs_wrap {A} (r : result string A) code : P code = true → errs P (wrap r code).
Proof. intros Hc e. destruct r; [done|]. by intros [= <-]. Qed.

Lemma errs_ensure b code : P code = true → errs P (ensure b code).
Proof. intros Hc e. destruct b; [done|]. by intros [= <-]. Qed.

Lemma errs_optional {A} raw field (conv : json → result string A) : (∀ v, errs P (conv v)) → errs P (optional_field raw field conv).
Proof. intros Hc. unfold optional_field. destruct (raw !! field); [|apply errs_Ok]. apply errs_bind; [done|]. intros ? _. apply errs_Ok. Qed.

Lemma errs_uint v code : P code = true → errs P (parseJSONUint v code).
Proof. intros Hc e. unfold parseJSONUint. destruct v as [| |n| | |]; try (by intros [= <-]). destruct (HasPrefix n "-"); [by intros [= <-]|]. destruct (ParseUint n); [done|]. by intros [= <-]. Qed.

Lemma errs_weaken {A} (Q : string → bool) (r : result string A) : (∀ e, P e = true → Q e = true) → errs P r → errs Q r.
Proof. intros H Hr e He. by apply H, Hr. Qed.
End errs.

(** An error the answer puts on the request. *)
Definition client_error (err : string) : bool := let status := he_Status (sshPeerConfigHandlerError err) in (400 <=? status)%Z && (status <? 500)%Z.

(** Steps through a computation of errors: a leaf is an error spelt out. *)
Ltac errs_step :=
  cbv zeta;
  lazymatch goal with
  | |- errs _ (Ok _) => apply errs_Ok
  | |- errs _ (Err _) => apply errs_Err; vm_compute; reflexivity
  | |- errs _ (recode _ _) => apply errs_recode; vm_compute; reflexivity
  | |- errs _ (wrap _ _) => apply errs_wrap; vm_compute; reflexivity
  | |- errs _ (ensure _ _) => apply errs_ensure; vm_compute; reflexivity
  | |- errs _ (parseJSONUint _ _) => apply errs_uint; vm_compute; reflexivity
  | |- errs _ (optional_field _ _ _) => apply errs_optional; intros ?
  | |- errs _ (_ ≫= _) => apply errs_bind; [|intros ? _]
  | |- errs _ (match ?x with _ => _ end) => destruct x
  | |- errs _ _ => solve [auto with errs]
  end.

Ltac errs_solve := repeat errs_step.

Create HintDb errs.

Lemma strict_fields_errs P invalid allowed v : P invalid = true → P "unknown_field" = true → errs P (strict_fields invalid allowed v).
Proof. intros Hi Hu. unfold strict_fields. destruct (unmarshal_object v) as [[]|]; [|by apply errs_Err..]. destruct (bool_decide _); [apply errs_Ok|by apply errs_Err]. Qed.

Lemma strict_body_errs P malformed allowed body : P malformed = true → P "unknown_field" = true → errs P (strict_body malformed allowed body).
Proof. intros Hi Hu. unfold strict_body. destruct (parse body); [by apply strict_fields_errs|by apply errs_Err]. Qed.

Lemma required_string_errs P missing invalid raw field : P missing = true → P invalid = true → errs P (required_string missing invalid raw field).
Proof. intros Hm Hi. unfold required_string. destruct (raw !! field) as [[]|]; try by apply errs_Err. apply errs_Ok. Qed.

(** The helpers of the decoders with the errors they are given. *)
Ltac errs_helper :=
  lazymatch goal with
  | |- errs _ (strict_body _ _ _) => apply strict_body_errs; vm_compute; reflexivity
  | |- errs _ (strict_fields _ _ _) => apply strict_fields_errs; vm_compute; reflexivity
  | |- errs _ (required_string _ _ _ _) => apply required_string_errs; vm_compute; reflexivity
  | |- _ => errs_step
  end.

Lemma expected_revision_errs raw : errs client_error (decodeSSHPeerExpectedRevision raw).
Proof. unfold decodeSSHPeerExpectedRevision. repeat errs_helper. Qed.
#[export] Hint Resolve expected_revision_errs : errs.

Lemma upsert_field_errs req field v : errs client_error (decode_upsert_field req field v).
Proof. unfold decode_upsert_field, decodeStringField, decodeBoolField, decodePortField. repeat errs_helper. Qed.
#[export] Hint Resolve upsert_field_errs : errs.

Lemma upsert_loop_errs req l : errs client_error (decode_upsert_loop req l).
Proof. revert req. induction l as [|[field v] l IH]; intros req; cbn [decode_upsert_loop]; repeat errs_helper. Qed.
#[export] Hint Resolve upsert_loop_errs : errs.

Lemma upsert_request_errs range body : errs client_error (DecodeSSHPeerUpsertRequest range body).
Proof. unfold DecodeSSHPeerUpsertRequest, decodeSSHPeerUpsertFields. repeat errs_helper. Qed.

Lemma directional_patch_errs v : errs client_error (decodeSSHPeerDirectionalProofPatch v).
Proof. unfold decodeSSHPeerDirectionalProofPatch, decodeRequiredProofPatchStringField. repeat errs_helper. Qed.
#[export] Hint Resolve directional_patch_errs : errs.

Lemma proof_request_errs body : errs client_error (DecodeSSHPeerProofPatchRequest body).
Proof. unfold DecodeSSHPeerProofPatchRequest. repeat errs_helper. Qed.

Lemma absence_errs v : errs client_error (decodeSSHPeerRemoteSecretAbsenceProof v).
Proof.
  unfold decodeSSHPeerRemoteSecretAbsenceProof, decodeRequiredRemoteAbsenceProofStringField, decodeRequiredRemoteAbsenceProofBoolField. repeat errs_helper.
Qed.
#[export] Hint Resolve absence_errs : errs.

Lemma transition_request_errs body : errs client_error (DecodeSSHPeerTransitionRequest body).
Proof. unfold DecodeSSHPeerTransitionRequest, decodeRequiredTransitionStringField, decodeTransitionStringValue. repeat errs_helper. Qed.

Lemma disable_request_errs body : errs client_error (DecodeSSHPeerDisableRequest body).
Proof. unfold DecodeSSHPeerDisableRequest, decodeRequiredSSHPeerMutationRevision, decodeRequiredSSHPeerMutationStringField. repeat errs_helper. Qed.

Lemma delete_request_errs body : errs client_error (DecodeSSHPeerDeleteRequest body).
Proof. unfold DecodeSSHPeerDeleteRequest, decodeRequiredSSHPeerMutationRevision, decodeRequiredSSHPeerMutationStringField. repeat errs_helper. Qed.

Lemma remove_request_errs body : errs client_error (DecodeHostRemoveRequest body).
Proof.
  unfold DecodeHostRemoveRequest, decodeRequiredHostRemoveRevisionState, decodeHostRemoveExpectedRevision, decodeRequiredHostRemoveStringField. repeat errs_helper.
Qed.

(** What is wrong with the file, not with the request. *)
Definition file_faults : list string :=
  ["open"; "json"; "malformed_config"; "invalid_config_version"; "unsupported_config_version"; "invalid_config_revision"; "home_dir_unavailable";
   "invalid_transport"; "invalid_ssh_config"; "invalid_ssh_peers"; "invalid_proof_key_id"; "invalid_proof_gateway_path"; "invalid_proof_verified_at";
   "invalid_proof_verified_by"].

(** Every error there is of a request that is applied to a text. *)
Definition known_error (gate : bool) (err : string) : bool :=
  client_error err || bool_decide (err ∈ file_faults) || (negb gate && bool_decide (err = ErrConfigV2WritesDisabled)).

Section known.
Context (gate : bool).

#[local] Notation known := (errs (known_error gate)).

Lemma proof_fields_known k g t v : known (validateProofFields k g t v).
Proof. unfold validateProofFields. errs_solve. Qed.
#[local] Hint Resolve proof_fields_known : errs.

Lemma directional_proof_known peer direction : known (ValidateDirectionalProof peer direction).
Proof. unfold ValidateDirectionalProof, direction_fields. errs_solve. Qed.
#[local] Hint Resolve directional_proof_known : errs.

Lemma given_proof_known peer direction code : known_error gate code = true → known (given_proof peer direction code).
Proof. intros Hc. unfold given_proof. destruct (hasDirectionalProof _ _); [by apply errs_wrap|apply errs_Ok]. Qed.

Lemma optional_path_known v code : known_error gate code = true → known (optional_path v code).
Proof. intros Hc. unfold optional_path. destruct (bool_decide _); [apply errs_Ok|by apply errs_wrap]. Qed.

Ltac known_step :=
  lazymatch goal with
  | |- errs _ (given_proof _ _ _) => apply given_proof_known; vm_compute; reflexivity
  | |- errs _ (optional_path _ _) => apply optional_path_known; vm_compute; reflexivity
  | |- _ => errs_step
  end.

Lemma peer_known loc peer active : known (validateSSHPeer loc peer active).
Proof. unfold validateSSHPeer, connect_locator. repeat known_step. Qed.
#[local] Hint Resolve peer_known : errs.

Lemma peers_known loc active seen targets peers : known (validate_peers loc active seen targets peers).
Proof. revert seen targets. induction peers as [|p peers IH]; intros seen targets; cbn [validate_peers]; repeat known_step. Qed.
#[local] Hint Resolve peers_known : errs.

Lemma config_known c : known (ValidateSSHTransportConfig c).
Proof. unfold ValidateSSHTransportConfig. repeat known_step. Qed.
#[local] Hint Resolve config_known : errs.

Lemma normalize_known homeDir c : known (NormalizeLocalSSHPaths homeDir c).
Proof. unfold NormalizeLocalSSHPaths. repeat known_step. Qed.
#[local] Hint Resolve normalize_known : errs.

Lemma document_known homeDir data : known (parseConfigDocument homeDir data).
Proof. unfold parseConfigDocument, document_of_raw, unmarshalTypedConfig. repeat known_step. Qed.
#[local] Hint Resolve document_known : errs.

Lemma expectation_known doc expected : known (validateRevisionExpectation doc expected).
Proof. unfold validateRevisionExpectation. repeat known_step. Qed.
#[local] Hint Resolve expectation_known : errs.

Lemma next_known doc : known (nextConfigRevision doc).
Proof. unfold nextConfigRevision. repeat known_step. Qed.
#[local] Hint Resolve next_known : errs.

(** An update brings in no error but those of its change. *)
Lemma update_known {A} homeDir data expected (apply : go_config → raw_object → result string (go_config * raw_object * A)) :
  (∀ g raw, known (apply g raw)) → known (ConfigDoc.withSSHPeerConfigUpdate homeDir gate data expected apply).
Proof.
  intros Ha. unfold ConfigDoc.withSSHPeerConfigUpdate. destruct (negb gate) eqn:Hg.
  - apply errs_Err. unfold known_error. rewrite Hg. vm_compute. reflexivity.
  - repeat known_step.
Qed.

Lemma raw_peers_known raw : known (rawSSHPeers raw).
Proof. unfold rawSSHPeers. repeat known_step. Qed.
#[local] Hint Resolve raw_peers_known : errs.

Lemma raw_id_known peer : known (rawPeerID peer).
Proof. unfold rawPeerID. repeat known_step. Qed.
#[local] Hint Resolve raw_id_known : errs.

Lemma find_known peers peerID : known (findRawPeerForUpdate peers peerID).
Proof. induction peers; cbn [findRawPeerForUpdate]; repeat known_step. Qed.
#[local] Hint Resolve find_known : errs.

Lemma located_known raw peerID : known (located raw peerID).
Proof. unfold located. repeat known_step. Qed.
#[local] Hint Resolve located_known : errs.

Lemma migration_state_known peer : known (rawPeerMigrationState peer).
Proof. unfold rawPeerMigrationState. repeat known_step. Qed.
#[local] Hint Resolve migration_state_known : errs.

Lemma typed_peer_known peer : known (typedPeerFromRaw peer).
Proof. unfold typedPeerFromRaw. repeat known_step. Qed.
#[local] Hint Resolve typed_peer_known : errs.

Lemma typed_peers_known peers : known (typed_peers peers).
Proof. induction peers; cbn [typed_peers]; repeat known_step. Qed.
#[local] Hint Resolve typed_peers_known : errs.

Lemma rebuild_known g raw sshRaw peers : known (rebuildTypedSSHPeersAndWriteBack g raw sshRaw peers).
Proof. unfold rebuildTypedSSHPeersAndWriteBack. repeat known_step. Qed.
#[local] Hint Resolve rebuild_known : errs.

Lemma append_known raw field entry code : known_error gate code = true → known (append_to raw field entry code).
Proof. intros Hc. unfold append_to. apply errs_bind; [|intros ? _; apply errs_Ok]. destruct (raw !! field) as [[]|]; try (by apply errs_Err); try apply errs_Ok; destruct (unmarshal_array _); (apply errs_Ok || by apply errs_Err). Qed.

Lemma proof_object_known peer : known (rawPeerProofObject peer).
Proof. unfold rawPeerProofObject. repeat known_step. Qed.
#[local] Hint Resolve proof_object_known : errs.

Lemma create_known fields : known (validateSSHPeerCreateFields fields).
Proof. unfold validateSSHPeerCreateFields. repeat known_step. Qed.
#[local] Hint Resolve create_known : errs.

Lemma persist_known raw c : known (persistNormalizedLocalSSHPaths raw c).
Proof. unfold persistNormalizedLocalSSHPaths. repeat known_step. Qed.
#[local] Hint Resolve persist_known : errs.

Lemma upsert_known homeDir peerID req g raw : known (upsert_change homeDir peerID req g raw).
Proof. unfold upsert_change, applySSHPeerUpsert. repeat known_step. Qed.

Lemma patch_known peerID req g raw : known (applySSHPeerProofPatch peerID req g raw).
Proof. unfold applySSHPeerProofPatch. repeat known_step. Qed.

Lemma transition_known peerID req g raw : known (applySSHPeerTransition peerID req g raw).
Proof.
  unfold applySSHPeerTransition, validateSSHPeerTransitionRequest, transition_check, reason_in, validateSSHPeerTransitionTargetStaged, validateSSHPeerTransitionEnabledProofs,
    validateSSHPeerProvisionFailedTransition, appendSSHPeerMigrationLog.
  repeat first [known_step|apply append_known; vm_compute; reflexivity].
Qed.

Lemma disable_known now peerID req g raw : known (applySSHPeerDisable now peerID req g raw).
Proof. unfold applySSHPeerDisable, appendSSHAuditLog. repeat first [known_step|apply append_known; vm_compute; reflexivity]. Qed.

Lemma delete_known now peerID req g raw : known (applySSHPeerDelete now peerID req g raw).
Proof.
  unfold applySSHPeerDelete, appendSSHAuditLog, appendSSHRemediation, sshPeerDeleteCleanupStatus, sshMaterialCleanupResult, postSecretTombstoneResult, sshPeerCleanupRecord.
  repeat first [known_step|apply append_known; vm_compute; reflexivity].
Qed.
#[local] Hint Resolve delete_known : errs.

Lemma delete_each_known now n ids req g raw status : known (delete_each now n ids req g raw status).
Proof. revert n g raw status. induction ids as [|pid ids IH]; intros n g raw status; cbn [delete_each]; repeat known_step. Qed.
#[local] Hint Resolve delete_each_known : errs.

Lemma matching_ids_known peers hostID : known (matching_ids peers hostID).
Proof. induction peers; cbn [matching_ids]; repeat known_step. Qed.
#[local] Hint Resolve matching_ids_known : errs.

Lemma remove_known homeDir now hostID req g raw : known (remove_change homeDir now hostID req g raw).
Proof. unfold remove_change, removeHostFromSSHPeers. repeat known_step. Qed.
End known.

(** ** Lemmas: the handlers *)

Section handling.
Context (homeDir : option string) (gate : bool) (marshal : raw_object → result string string).
Context (configPath hostname origin : string) (safeMode : bool).
Context (range : raw_object → list (string * json)) (order : Manager → list (string * nat)) (now : nat → string).
Context (renderConfig : Config → string) (newKey : string).

#[local] Notation tried := (attempted homeDir gate marshal configPath range now).
#[local] Notation tried_remove := (attempted_remove homeDir gate marshal configPath now).
#[local] Notation serving := (handler homeDir gate marshal configPath hostname origin safeMode range order now renderConfig newKey).

Lemma with_same_files d : with_files d (cs_files d) = d.
Proof. by destruct d. Qed.

Lemma handler_mutation r peerID body d : serving r peerID body d = mutation homeDir configPath hostname origin safeMode order renderConfig newKey (tried r peerID body) d.
Proof. by destruct r. Qed.

(** An error that a caller is to know: one of the update, of a file that is not there, or
    of the writing of the text. *)
Definition accounted (err : string) : Prop := known_error gate err = true ∨ ∃ o, marshal o = Err err.

Lemma writing_err {A B} path (update : string → result string (raw_object * A)) (answer : A → B) w w' e :
  (∀ data, errs (known_error gate) (update data)) → writing marshal path update answer w = (w', Err e) → w' = w ∧ accounted e.
Proof.
  intros Hu. unfold writing. destruct (w !! path) as [data|]; [|intros [= <- <-]; split; [done|by left]].
  destruct (update data) as [[out a]|e'] eqn:Hup; cbn [mbind result_bind].
  - destruct (marshal out) as [text|e'] eqn:Hm; cbn [mbind result_bind]; [done|]. intros [= <- <-]. split; [done|]. right. by exists out.
  - intros [= <- <-]. split; [done|]. left. by eapply Hu.
Qed.

Lemma pack_known {A B} (r : result string (raw_object * A * B)) : errs (known_error gate) r → errs (known_error gate) (pack r).
Proof. intros Hr. unfold pack. apply errs_bind; [done|]. intros [[] ?] _. apply errs_Ok. Qed.

Lemma reason_known action reason :
  known_error gate ("missing_ssh_peer_" +:+ action +:+ "_field") = true → known_error gate ("invalid_ssh_peer_" +:+ action +:+ "_field") = true →
  errs (known_error gate) (validateStableSSHPeerReason action reason).
Proof. intros Hm Hi. unfold validateStableSSHPeerReason. destruct (blank reason); [by apply errs_Err|]. destruct (negb _); [by apply errs_Err|apply errs_Ok]. Qed.

Ltac entry_step :=
  cbv zeta;
  lazymatch goal with
  | |- errs _ (pack _) => apply pack_known
  | |- errs _ (ConfigDoc.withSSHPeerConfigUpdate _ _ _ _ _) => apply update_known; intros ? ?
  | |- errs _ (upsert_change _ _ _ _ _) => apply upsert_known
  | |- errs _ (applySSHPeerProofPatch _ _ _ _) => apply patch_known
  | |- errs _ (applySSHPeerTransition _ _ _ _) => apply transition_known
  | |- errs _ (applySSHPeerDisable _ _ _ _ _) => apply disable_known
  | |- errs _ (applySSHPeerDelete _ _ _ _ _) => apply delete_known
  | |- errs _ (remove_change _ _ _ _ _ _) => apply remove_known
  | |- errs _ (parseConfigDocument _ _) => apply document_known
  | |- errs _ (validateStableSSHPeerReason _ _) => apply reason_known; vm_compute; reflexivity
  | |- _ => errs_step
  end.

(** Every entry point has the errors of an update. *)
Lemma entry_points_known data peerID :
  (∀ req, errs (known_error gate) (upsertSSHPeerWithGate homeDir gate data peerID req)) ∧
  (∀ req, errs (known_error gate) (patchSSHPeerProofWithGate homeDir gate data peerID req)) ∧
  (∀ req, errs (known_error gate) (transitionSSHPeerWithGate homeDir gate data peerID req)) ∧
  (∀ now req, errs (known_error gate) (disableSSHPeerWithGate homeDir gate now data peerID req)) ∧
  (∀ now req, errs (known_error gate) (deleteSSHPeerWithGate homeDir gate now data peerID req)).
Proof.
  unfold upsertSSHPeerWithGate, patchSSHPeerProofWithGate, transitionSSHPeerWithGate, disableSSHPeerWithGate, deleteSSHPeerWithGate, expecting.
  split; [|split; [|split; [|split]]]; intros; repeat entry_step.
Qed.

Lemma client_known err : client_error err = true → known_error gate err = true.
Proof. intros H. unfold known_error. by rewrite H. Qed.

(** A refused request to write a peer: the file is as it was, and the error is one the
    answer accounts for, of the request itself if it does not decode. *)
Lemma attempted_err r peerID body w w' e : tried r peerID body w = (w', Err e) → w' = w ∧ accounted e.
Proof.
  assert (Hd : ∀ Req A (decode : string → result string Req) (apply : Req → files → files * result string A),
    errs client_error (decode body) → (∀ req, apply req w = (w', Err e) → w' = w ∧ accounted e) → attempt decode apply body w = (w', Err e) → w' = w ∧ accounted e).
  { intros Req A decode apply Hdec Hap. unfold attempt. destruct (decode body) as [req|c] eqn:Hc; [apply Hap|]. intros [= <- <-]. split; [done|]. left. by apply client_known, Hdec. }
  destruct r; cbn [attempted]; apply Hd.
  all: try first [apply upsert_request_errs|apply proof_request_errs|apply transition_request_errs|apply disable_request_errs|apply delete_request_errs].
  all: intros req; unfold DisableSSHPeer, DeleteSSHPeer; cbn [op_UpsertSSHPeer op_PatchSSHPeerProof op_TransitionSSHPeer defaultDirectPairConfigOps];
    apply writing_err; intros data; apply pack_known, (entry_points_known data peerID).
Qed.

(** What a decoder checked: of the two errors of the reason only one is left. *)
Lemma decoded_reason body req : DecodeHostRemoveRequest body = Ok req → errs (known_error gate) (validateStableSSHPeerReason "remove" (hm_Reason req)).
Proof.
  unfold DecodeHostRemoveRequest. intros (raw & _ & H)%bind_Ok. apply bind_Ok in H as (state & _ & H). apply bind_Ok in H as (revision & _ & H).
  apply bind_Ok in H as (reason & _ & H). apply bind_Ok in H as ([] & Hr & H). apply bind_Ok in H as (logID & _ & H). injection H as <-. cbn [hm_Reason].
  unfold ensure in Hr. unfold validateStableSSHPeerReason. destruct (stableSSHPeerReasonPattern reason); [|discriminate]. cbn [negb]. repeat errs_step.
Qed.

Lemma remove_err hostID body w w' e : tried_remove hostID body w = (w', Err e) → accounted e.
Proof.
  unfold attempted_remove, attempt. destruct (DecodeHostRemoveRequest body) as [req|c] eqn:Hc.
  2: { intros [= _ <-]. left. by eapply client_known, remove_request_errs. }
  unfold RemoveHost. destruct (_ ← ValidateHostRemoveTarget hostID; _) as [[]|c] eqn:Hv.
  2: { intros [= _ <-]. left. revert c Hv. change (errs (known_error gate) (_ ← ValidateHostRemoveTarget hostID; validateHostRemoveRequest req)).
       unfold ValidateHostRemoveTarget, validateHostRemoveRequest. repeat first [by eapply decoded_reason|errs_step]. }
  destruct (writing _ _ _ _ w) as [w1 [removed|c]] eqn:Hw.
  - unfold reading. destruct (w1 !! configPath) as [data|]; intros [= _ He]; [|subst; by left]. left. revert e He.
    change (errs (known_error gate) (removed_host homeDir hostID removed data)). unfold removed_host. repeat entry_step.
  - intros [= _ <-]. eapply writing_err in Hw as [_ Hw]; [done|]. intros data. unfold update_removed. repeat entry_step.
Qed.

(** What an applied request wrote. *)
Lemma attempted_Ok r peerID body w w' status : tried r peerID body w = (w', Ok status) →
  ∃ data out text, w !! configPath = Some data ∧ peer_write homeDir data out ∧ (r = Disable ∨ r = Delete → stop_write homeDir data peerID out) ∧
    marshal out = Ok text ∧ w' = <[configPath := text]> w.
Proof.
  assert (Hw : ∀ Req (decode : string → result string Req) (update : string → Req → result string (raw_object * raw_object * Z)),
    (∀ data req out shown revision, update data req = Ok (out, shown, revision) →
      peer_write homeDir data out ∧ (r = Disable ∨ r = Delete → stop_write homeDir data peerID out)) →
    attempt decode (λ req, writing marshal configPath (λ data, pack (update data req)) written_peer) body w = (w', Ok status) →
    ∃ data out text, w !! configPath = Some data ∧ peer_write homeDir data out ∧ (r = Disable ∨ r = Delete → stop_write homeDir data peerID out) ∧
      marshal out = Ok text ∧ w' = <[configPath := text]> w).
  { intros Req decode update Hup. unfold attempt. destruct (decode body) as [req|]; [|done]. unfold writing.
    destruct (w !! configPath) as [data|] eqn:Hdata; [|done]. destruct (_ ← pack (update data req); _) as [[text a]|] eqn:E; [|done]. intros [= <- _].
    apply bind_Ok in E as ([out b] & Hp & E). apply bind_Ok in E as (text' & Hm & [= <- _]). unfold pack in Hp.
    apply bind_Ok in Hp as ([[out' shown] revision] & Hu & Hp). injection Hp as -> _. exists data, out, text'.
    destruct (Hup _ _ _ _ _ Hu) as [H1 H2]. by split_and!. }
  destruct r; cbn [attempted]; unfold DisableSSHPeer, DeleteSSHPeer; cbn [op_UpsertSSHPeer op_PatchSSHPeerProof op_TransitionSSHPeer defaultDirectPairConfigOps].
  - apply (Hw _ _ (λ data req, upsertSSHPeerWithGate homeDir gate data peerID req)). intros. split; [by eapply write_upsert|by intros []].
  - apply (Hw _ _ (λ data req, patchSSHPeerProofWithGate homeDir gate data peerID req)). intros. split; [by eapply write_patch|by intros []].
  - apply (Hw _ _ (λ data req, transitionSSHPeerWithGate homeDir gate data peerID req)). intros. split; [by eapply write_transition|by intros []].
  - apply (Hw _ _ (λ data req, disableSSHPeerWithGate homeDir gate (now 0) data peerID req)). intros. split; [by eapply write_disable|intros _; by eapply stop_disable].
  - apply (Hw _ _ (λ data req, deleteSSHPeerWithGate homeDir gate (now 0) data peerID req)). intros. split; [by eapply write_delete|intros _; by eapply stop_delete].
Qed.
End handling.

(** The configuration the daemon runs with for a document. *)
Definition running (doc : configDocument) : Config := gc_config (doc_Config (with_defaults doc GeneratedLoopbackDefaultsEnabled)).

(** The sessions a configuration asks for are those there are. *)
Definition sessions_of_config (cfg : Config) (sshSync : option Manager) : Prop :=
  let due := sshSyncPeersFromConfig (Some cfg) in
  match sshSync with
  | None => due = []
  | Some m =>
      manager_wf m ∧ m_started m = true ∧
      (∀ peer, peer ∈ due → ∃ a s, m_sessions m !! sp_id peer = Some a ∧ m_heap m !! a = Some s ∧ ss_peer s = peer) ∧
      (∀ p a, m_sessions m !! p = Some a → p ∈ sp_id <$> due)
  end.

(** What runs follows a document: all of it from the same configuration. *)
Record in_step (hostname : string) (safeMode : bool) (d d' : config_state) (doc : configDocument) : Prop := {
  is_cfg : cs_cfg d' = Some (running doc);
  is_disc : cs_disc d' = discovererFromConfig hostname (running doc);
  is_status : ∀ host, cs_peerStatus d' !! host =
    if configuredHostnamesMatch host (configuredSnapshotHostnames (cs_cfg d)) && negb (configuredHostnamesMatch host (configuredSnapshotHostnames (Some (running doc))))
    then None else cs_peerStatus d !! host;
  is_sessions : safeMode = false → Transport (running doc) = TransportSSH → sessions_of_config (running doc) (cs_sshSync d');
}.

Lemma pruned_status previous next status host :
  prunePeerStatusForConfigReloadLocked previous next status !! host =
  if configuredHostnamesMatch host (configuredSnapshotHostnames previous) && negb (configuredHostnamesMatch host (configuredSnapshotHostnames next)) then None else status !! host.
Proof.
  unfold prunePeerStatusForConfigReloadLocked. case_bool_decide as He.
  { rewrite He. unfold configuredHostnamesMatch at 1. by rewrite elements_empty. }
  destruct (configuredHostnamesMatch host (configuredSnapshotHostnames previous)) eqn:H1, (configuredHostnamesMatch host (configuredSnapshotHostnames next)) eqn:H2; cbn [andb negb].
  2: { apply map_lookup_filter_None. right. intros row _. cbn [fst]. by rewrite H1, H2. }
  all: destruct (status !! host) as [row|] eqn:Hrow; [apply map_lookup_filter_Some; split; [done|]; cbn [fst]; by rewrite H1, ?H2|apply map_lookup_filter_None; by left].
Qed.

(** Starting is refreshing where there is no session yet. *)
Lemma start_all_fresh l m : NoDup (sp_id <$> l) → (∀ peer, peer ∈ l → m_sessions m !! sp_id peer = None) → foldl startPeerLocked m l = foldl refresh_start m l.
Proof.
  revert m. induction l as [|p l IH]; intros m Hnd Hno; [done|]. apply NoDup_cons in Hnd as [Hp Hnd]. cbn [foldl].
  assert (refresh_start m p = startPeerLocked m p) as -> by (unfold refresh_start; by rewrite Hno by left).
  apply IH; [done|]. intros q Hq. destruct (startPeer_spec m p) as (_ & _ & Hse & _). rewrite Hse, lookup_insert_ne; [by apply Hno; right|].
  intros Heq. apply Hp, list_elem_of_fmap. by exists q.
Qed.

Lemma start_refresh cfg localID : NoDup (sp_id <$> sshSyncPeersFromConfig cfg) →
  Start (newSSHSyncManager cfg localID) = Refresh [] (MkManager localID [] ∅ ∅ ∅ ∅ true) cfg.
Proof. intros Hnd. apply start_all_fresh; [done|]. intros peer _. apply lookup_empty. Qed.

Lemma starts_started l m : m_started (foldl refresh_start m l) = m_started m.
Proof.
  revert m. induction l as [|p l IH]; intros m; [done|]. cbn [foldl]. rewrite IH. unfold refresh_start. by destruct (m_sessions m !! sp_id p).
Qed.

Lemma drops_started nextByID l m : m_started (foldl (refresh_session nextByID) m l) = m_started m.
Proof.
  revert m. induction l as [|[p a] l IH]; intros m; [done|]. cbn [foldl]. rewrite IH. unfold refresh_session.
  destruct (match nextByID !! p with Some _ => _ | None => _ end); [done|]. by destruct (nextByID !! p).
Qed.

Lemma refresh_started order m cfg : m_started (Refresh order m cfg) = m_started m.
Proof. unfold Refresh. cbv zeta. destruct (m_started (foldl _ _ _)) eqn:E; rewrite drops_started in E; [rewrite starts_started|]; by rewrite drops_started. Qed.

(** The sessions after a reload are those of the configuration read. *)
Lemma refreshed_sessions origin safeMode order cfg sshSync :
  safeMode = false → Transport cfg = TransportSSH → ValidateSSHTransportConfig cfg = Ok () →
  (∀ m, order m ≡ₚ map_to_list (m_sessions m)) → (∀ m, sshSync = Some m → manager_wf m ∧ m_started m = true) →
  sessions_of_config cfg (refreshSSHSyncAfterConfigReload origin safeMode order cfg sshSync).
Proof.
  intros -> Ht Hval Horder Hm. pose proof (sessions_distinct _ Hval) as Hnd. unfold refreshSSHSyncAfterConfigReload. rewrite bool_decide_eq_true_2 by done. cbn [orb negb].
  assert (Href : ∀ l m, manager_wf m → m_started m = true → l ≡ₚ map_to_list (m_sessions m) → sessions_of_config cfg (Some (Refresh l m (Some cfg)))).
  { intros l m Hwf Hst Hl. destruct (Refresh_spec l m (Some cfg) Hwf Hl Hst Hnd) as (H1 & H2 & _ & _ & H3). by rewrite <- (refresh_started l m (Some cfg)) in Hst. }
  destruct sshSync as [m|].
  - destruct (Hm m eq_refl) as [Hwf Hst]. by apply Href.
  - case_bool_decide as Hp; [exact Hp|]. rewrite start_refresh by done. apply Href; [by intros p a Ha|done|]. cbn [m_sessions]. by rewrite map_to_list_empty.
Qed.

(** ** Properties *)

(** A document whose writing back and reading again is settled: plain members, texts
    that survive JSON. *)
Record settled (homeDir : option string) (data : string) (doc : configDocument) : Prop := {
  se_doc : parseConfigDocument homeDir data = Ok doc;
  se_plain : plain (doc_raw doc);
  se_section : ∃ l, document_section (doc_raw doc) l ∧ plain_members l;
  se_scalars : scalars_ok (gc_config (doc_Config doc));
  se_paths : text_ok (SyncKey (typed_section (doc_Config doc))) ∧ text_ok (KnownHosts (typed_section (doc_Config doc)));
}.

(** What else a handler stands on: a marshaller that spells the object, an order that is
    one of the sessions there are, and a manager that was started. *)
Record sound_daemon (marshal : raw_object → result string string) (configPath : string) (order : Manager → list (string * nat)) (d : config_state) : Prop := {
  sn_path : configPath ≠ "";
  sn_marshal : ∀ o text, marshal o = Ok text → parse text = Some (json_object o);
  sn_order : ∀ m, order m ≡ₚ map_to_list (m_sessions m);
  sn_manager : ∀ m, cs_sshSync d = Some m → manager_wf m ∧ m_started m = true;
}.

Lemma running_valid doc : ValidateSSHTransportConfig (running doc) = ValidateSSHTransportConfig (gc_config (doc_Config doc)).
Proof. done. Qed.

Lemma running_due doc : sshSyncPeersFromConfig (Some (running doc)) = sshSyncPeersFromConfig (Some (gc_config (doc_Config doc))).
Proof. done. Qed.

(** The reload after a write of a settled document does not fail. *)
Lemma reload_written homeDir configPath hostname origin safeMode order renderConfig newKey d data doc out text marshal :
  sound_daemon marshal configPath order d → settled homeDir data doc → peer_write homeDir data out → marshal out = Ok text →
  ∃ doc' d', parseConfigDocument homeDir text = Ok doc' ∧ doc_ConfigRevision doc' = Some (default 0 (doc_ConfigRevision doc) + 1)%Z ∧
    reloadConfigAfterSSHPeerMutation homeDir configPath hostname origin safeMode order renderConfig newKey (with_files d (<[configPath := text]> (cs_files d))) = (None, d') ∧
    cs_files d' = <[configPath := text]> (cs_files d) ∧ Transport (running doc') = Transport (gc_config (doc_Config doc)) ∧ in_step hostname safeMode d d' doc'.
Proof.
  intros [Hpath Hmarshal Horder Hman] [Hdoc Hplain (l & Hl & Hpl) Hok Hpaths] Hw Hm. pose proof (Hmarshal _ _ Hm) as Hparse.
  apply peer_write_update in Hw as (gate & r & change & updated & revision & _ & Hop & H).
  destruct (update_read_back _ _ _ _ _ _ _ _ _ _ _ Hdoc Hplain Hl Hpl Hok Hpaths Hop H Hparse)
    as (g & raw & doc' & s & peers & typed & _ & Hd & Hrev & _ & Hr & _ & _ & _ & Hg & Hval & Hc).
  assert (Hvalid : ValidateSSHTransportConfig (running doc') = Ok ()) by (rewrite running_valid, Hc; by rewrite at_revision_valid).
  eexists doc', _. split; [done|]. split; [by rewrite Hr, Hrev|]. split.
  { unfold reloadConfigAfterSSHPeerMutation, load_text. rewrite bool_decide_eq_false_2 by done. cbn [with_files cs_files]. rewrite lookup_insert_eq, Hd. cbn [mbind result_bind]. reflexivity. }
  split; [done|]. split; [change (Transport (gc_config (doc_Config doc')) = Transport (gc_config (doc_Config doc))); by rewrite Hc, Hg|]. split; [done|done| |].
  - intros host. cbn [cs_peerStatus cs_cfg with_files]. apply pruned_status.
  - intros Hsafe Ht. cbn [cs_sshSync with_files]. by apply refreshed_sessions.
Qed.



(** What a refusal says: an error of the request, of the gate that is shut, or of the
    file or its writing. *)
Definition refusal (gate : bool) (marshal : raw_object → result string string) (err : string) (e : HandlerError) : Prop :=
  (400 ≤ he_Status e < 500)%Z ∨ (gate = false ∧ e = MkHandlerError 503 "config_v2_writes_disabled") ∨
  (e = MkHandlerError 500 "ssh_peer_config_failed" ∧ err ∈ file_faults) ∨ ∃ o, marshal o = Err err.

Lemma accounted_refusal gate marshal err : accounted gate marshal err → refusal gate marshal err (sshPeerConfigHandlerError err).
Proof.
  intros [Hk|Hm]; [|by do 3 right]. unfold known_error in Hk. destruct (client_error err) eqn:Hc.
  { left. unfold client_error in Hc. apply andb_true_iff in Hc as [H1%Z.leb_le H2%Z.ltb_lt]. lia. }
  cbn [orb] in Hk. apply orb_true_iff in Hk as [Hf%bool_decide_eq_true_1|[Hg Hd]%andb_true_iff].
  - right; right; left. split; [|done]. assert (Hall : Forall (λ c, sshPeerConfigHandlerError c = MkHandlerError 500 "ssh_peer_config_failed") file_faults) by (repeat constructor).
    rewrite Forall_forall in Hall. by apply Hall.
  - right; left. apply bool_decide_eq_true_1 in Hd as ->. split; [by apply negb_true_iff|done].
Qed.

Definition decodes (range : raw_object → list (string * json)) (r : peer_request) (body : string) : bool :=
  match r with
  | Put => is_ok (DecodeSSHPeerUpsertRequest range body)
  | ProofPatch => is_ok (DecodeSSHPeerProofPatchRequest body)
  | Transition => is_ok (DecodeSSHPeerTransitionRequest body)
  | Disable => is_ok (DecodeSSHPeerDisableRequest body)
  | Delete => is_ok (DecodeSSHPeerDeleteRequest body)
  end.


(** The same of the removal of a host. *)
Theorem removal_refused homeDir gate marshal configPath hostname origin safeMode order now renderConfig newKey hostID body d w err
    (Hrefused : attempted_remove homeDir gate marshal configPath now hostID body (cs_files d) = (w, Err err)) :
  hostRemoveHandler homeDir gate marshal configPath hostname origin safeMode order now renderConfig newKey hostID body d = (Err (sshPeerConfigHandlerError err), with_files d w) ∧
  refusal gate marshal err (sshPeerConfigHandlerError err).
Proof.
  split; [unfold hostRemoveHandler, mutation; by rewrite Hrefused|]. by eapply accounted_refusal, remove_err.
Qed.

(** A body that is no repair of the listener is refused as the request's fault. *)
Theorem repair_body_refused homeDir gate marshal configPath body d err (Hbody : DecodeListenerRepairRequest body = Err err) :
  listenerRepairPatchHandler homeDir gate marshal configPath body d = (Err (listenerRepairHandlerError err), d) ∧ (400 ≤ he_Status (listenerRepairHandlerError err) < 500)%Z.
Proof.
  split; [unfold listenerRepairPatchHandler, attempted_repair, attempt; by rewrite Hbody, with_same_files|].
  assert (H : errs (λ e, (400 <=? he_Status (listenerRepairHandlerError e))%Z && (he_Status (listenerRepairHandlerError e) <? 500)%Z) (DecodeListenerRepairRequest body)).
  { unfold DecodeListenerRepairRequest, decodeRequiredString, decodeRequiredPort, decodeOptionalRevision, decodeOptionalString, revisionExpectation. errs_solve. }
  apply H in Hbody. apply andb_true_iff in Hbody as [H1%Z.leb_le H2%Z.ltb_lt]. lia.
Qed.

(** ** Examples and witnesses *)

Module HandlerSamples.
Definition ready_peer : raw_object :=
  raw_of [("id", VString "beta"); ("enabled", VBool true); ("accept", VBool false); ("connect", VBool true); ("persistent", VBool true);
    ("ssh_host", VString "beta.lan"); ("ssh_user", VString "ann"); ("ssh_port", VNumber "22"); ("install_path", VString "/usr/bin/clipfan");
    ("gateway_path", VString "/usr/bin/clipfan"); ("migration_state", VString MigrationStateSSHKeysReady);
    ("proof", VObject [("connect_gateway_path", VString "/usr/bin/clipfan"); ("connect_key_id", VString "aaaaaaaa");
      ("connect_verified_at", VString "2024-01-02T03:04:05Z"); ("connect_verified_by", VString "local_file")])].

Definition text : string :=
  print (json_object (raw_of [("config_version", json_int 2); ("config_revision", json_int 7); ("hostname", VString "alpha"); ("transport", VString "ssh");
    ("static_peers", VArray []); ("ssh", VObject (sample_peers [ready_peer]))])).

Definition document : configDocument :=
  match parseConfigDocument None text with Ok doc => doc | Err _ => MkDocument (MkGoConfig (MkConfig None None "" "" "" [] "" "" None 0 0) false false) "" None ∅ end.

Definition order (m : Manager) : list (string * nat) := map_to_list (m_sessions m).

Definition manager : Manager := Start (newSSHSyncManager (Some (running document)) "alpha").

Definition daemon : config_state :=
  MkConfigState {["/c" := text]} (Some (running document)) (discovererFromConfig "alpha.lan" (running document)) {["beta" := new_peer_state "beta"]} (Some manager).

Definition clock (_ : nat) : string := "2024-01-02T03:04:05Z".

Definition rendered (_ : Config) : string := "".

Definition serve : peer_request → string → string → config_state → result HandlerError SSHPeerConfigReadResult * config_state :=
  handler None true ApplySamples.marshal "/c" "alpha.lan" "alpha" false map_to_list order clock rendered "k".

Definition disable_body : string := print (json_object (raw_of [("expected_config_revision", json_int 7); ("reason", VString "user_requested")])).

(** A peer that is ready in one direction is to accept as well. *)
Definition accept_body : string :=
  print (json_object (raw_of [("expected_config_revision", json_int 7); ("peer", VObject [("accept", VBool true)])])).
End HandlerSamples.
Import HandlerSamples.

(** An upsert that lets a ready peer accept without a proof of that direction is refused
    by the validation of the proof, whose codes the table of the handler does not have:
    a request the client has to mend is answered as a failure of the daemon. *)
Example unproven_direction_fails :
  (attempted None true ApplySamples.marshal "/c" map_to_list clock Put "beta" accept_body (cs_files daemon)).2 = Err "invalid_proof_key_id" ∧
  serve Put "beta" accept_body daemon = (Err (MkHandlerError 500 "ssh_peer_config_failed"), daemon).
Proof. split; vm_compute; reflexivity. Qed.

Lemma sample_sound : sound_daemon ApplySamples.marshal "/c" order daemon.
Proof.
  split; [discriminate|exact ApplySamples.marshal_spec|intros m; reflexivity|]. intros m Hm. change (Some manager = Some m) in Hm. apply (inj Some) in Hm as <-.
  split; [apply Start_wf|]. vm_compute. reflexivity.
Qed.

Lemma sample_file : cs_files daemon !! "/c" = Some text.
Proof. apply lookup_singleton_eq. Qed.

Lemma texts_ok l : forallb (λ s, bool_decide (json_text s = s)) l = true → Forall text_ok l.
Proof. rewrite forallb_forall, Forall_forall. intros H s Hs%list_elem_of_In. by apply (bool_decide_eq_true_1 (json_text s = s)), H. Qed.

Lemma sample_settled : settled None text document.
Proof.
  split.
  - vm_compute. reflexivity.
  - apply plainb_plain. vm_compute. reflexivity.
  - exists (sample_peers [ready_peer]). split; [vm_compute; reflexivity|]. split; [apply (bool_decide_eq_true_1 _); vm_compute; reflexivity|].
    eapply plain_namesb_sound; [|apply raw_of_keys]. vm_compute. reflexivity.
  - split; [|split; by vm_compute]. apply texts_ok. vm_compute. reflexivity.
  - split; vm_compute; reflexivity.
Qed.

Lemma sample_peers_plain : ∀ s peers, rawSSHPeers (doc_raw document) = Ok (s, peers) → distinct_ids peers ∧ Forall plain_peer peers.
Proof.
  intros s peers H. assert (Hp : peers = [ready_peer]).
  { assert (He : match rawSSHPeers (doc_raw document) with Ok found => found.2 | Err _ => [] end = [ready_peer]) by (vm_compute; reflexivity). by rewrite H in He. }
  subst peers. split.
  - exists ["beta"]. split; [repeat constructor; vm_compute; reflexivity|apply NoDup_singleton].
  - constructor; [|constructor]. assert (H' : ∀ name, name ∈ ["id"; "enabled"] → plain_key ready_peer name).
    { eapply plain_namesb_sound; [|apply raw_of_keys]. vm_compute. reflexivity. }
    split; apply H'; by apply typed_key_in.
Qed.

Definition disabled_daemon : config_state := (serve Disable "beta" disable_body daemon).2.

Definition disabled_status : SSHPeerConfigReadResult := match (serve Disable "beta" disable_body daemon).1 with Ok status => status | Err _ => MkReadResult ∅ None "" None end.

Lemma sample_disabled :
  handler None true ApplySamples.marshal "/c" "alpha.lan" "alpha" false map_to_list order clock rendered "k" Disable "beta" disable_body daemon = (Ok disabled_status, disabled_daemon).
Proof.
  change (serve Disable "beta" disable_body daemon = (Ok disabled_status, disabled_daemon)). unfold disabled_status, disabled_daemon. assert (H : is_ok (serve Disable "beta" disable_body daemon).1 = true) by (vm_compute; reflexivity). revert H.
  destruct (serve Disable "beta" disable_body daemon) as [[status|e] d]; [done|discriminate].
Qed.



